(* ===== verification/_CoqProject ===== *)
-Q . S2P
Prelude.v
Types.v
Db.v
Trail.v
KeyGen.v
Libc.v
Time.v
Apr.v
Hashdump.v
Skel.v
Proplist.v
Id.v
NodeKeys.v
Fs.v
RevTable.v
TxnTable.v
NodesTable.v
Stream.v
Strings.v
TextDelta.v
Vdelta.v
Svndiff.v
TxStream.v
Reps.v
RepOps.v
SvnString.v
Path.v
Sorts.v
Base64.v
Quoprint.v
Translate.v
Dag.v
NodeRec.v
DagOk.v
Deltify.v
Commit.v
Tree.v
Merge.v
Frame.v
History.v
TreeOk.v
Xml.v
Entries.v
WcProps.v
RevHunt.v
Editor.v
DeltaEditors.v
ReposDelta.v
ReposDeltaOk.v
Checkout.v
