(* ===== verification/Prelude.v ===== *)
(** * Subversion 0.11: root of the development

    Subversion is a version control system written in C.  This library models the parts
    of it that carry its logic: the versioned filesystem ([libsvn_fs]), the deltas
    between texts ([libsvn_delta]), the common data structures and encodings
    ([libsvn_subr]), and parts of the working copy library ([libsvn_wc]).

    ** How the program is put together

    A repository is a filesystem: an array of revisions, each a tree of directories and
    files, kept in five tables of a Berkeley DB environment.  The public functions
    ([tree.c], [txn.c]) run transaction bodies in a trail ([trail.c]), which commits,
    aborts, or tries again after a deadlock.  The bodies work on a directed acyclic
    graph of immutable and mutable nodes ([dag.c]): a change clones the nodes on the way
    from the root of a transaction to what is changed, and a commit merges the
    transaction with the youngest revision and makes its nodes immutable.  A node is a
    skel ([skel.c]) in the nodes table, found by its id ([id.c], [nodes-table.c]); its
    contents are representations ([reps-strings.c]), full texts or deltas against other
    representations, whose strings are in a table of their own ([strings-table.c]).
    Text deltas are windows of instructions ([text_delta.c]), made by [vdelta.c] and
    stored in the svndiff format ([svndiff.c]).

    ** Files and what they model

    General:
    - [Prelude]: bytes, C integers, the outcomes of a function, the state monad, and the
      lemmas all files share.  [Types]: [svn_types.h].  [Libc]: conversions of the C library.  [Stream]:
      [svn_stream_t] ([io.c]) and what [svn_io.h] asks of the callbacks.  [SvnString]:
      [svn_string.c] on blocks of memory.  [Path]: [path.c].  [Sorts]: [sorts.c].
      [Base64], [Quoprint], [Time], [Hashdump]: the files of [libsvn_subr] of these names.
    - [Apr]: the files of APR, a parameter.  [Xml]: the texts of attributes ([xml.c]), over
      a parser that is a parameter.
    Working copies ([libsvn_wc]): [Entries] ([entries.c]), [WcProps] ([props.c]),
    [Translate] ([translate.c]).
    Deltas: [TextDelta] ([text_delta.c], applying), [Vdelta] ([vdelta.c]), [Svndiff]
    ([svndiff.c]), [TxStream] ([text_delta.c], streams of windows).
    Filesystem, from the bottom to the top:
    - [Db]: Berkeley DB, a parameter.  [Trail]: [trail.c].  [Fs]: the tables.
    - [KeyGen] ([key-gen.c]), [Skel] ([skel.c]), [Proplist] ([proplist.c]), [Id] ([id.c],
      [validate.c]), [NodeKeys] and [NodesTable] ([nodes-table.c], [node-rev.c]),
      [RevTable] ([rev-table.c]), [TxnTable] ([txn-table.c]), [Strings]
      ([strings-table.c]), [Reps] and [RepOps] ([reps-table.c], [reps-strings.c]).
    - [Dag] ([dag.c]), with [NodeRec] (node revisions and directories as records and
      maps) and [DagOk] (what its operations do); [Deltify] ([deltify.c]), [Commit]
      ([dag.c], [txn.c]), [Tree] and [Merge] ([tree.c]), with [Frame] (what each
      operation leaves alone), [History] (commits) and [TreeOk] (paths).
    Editors: [Editor] (the table of functions of [svn_delta.h], and an editor that keeps a
    tree); [DeltaEditors] ([default_editor.c], [compose_editors.c], [pipe_editors.c]).
    Repository ([libsvn_repos]): [RevHunt] ([rev_hunt.c]); [ReposDelta] ([delta.c]) and
    [ReposDeltaOk] (the trees that directories are, and the edit as a function on them).
    [Checkout]: [libsvn_ra_local/checkout.c].

    ** How the code is modelled

    A definition has the name of the C function, and the loops and branches of a long one
    are definitions of their own.  An integer of the machine is a [Z], wrapped where the
    code can wrap it ([size_t], [ulong], [int_t] and the like); a [char] is a [byte], read
    as signed or unsigned as the code does.  Memory: an array is the list of its cells,
    and every access that is not obviously inside goes through [rd] or [wr], so that
    leaving a block is the outcome [Undef]; a failed assertion or a call of [abort] is
    [Abort]; an [svn_error_t] is [Err] with its code (its message and its chain are not
    kept).  Pools only free memory and are left out.  State is passed by [state_m]: the
    tables in a trail, a file that is written, a node with its cache.

    ** Parameters

    Code outside the repository is an argument: Berkeley DB (class [BerkeleyDB], with its
    documented laws and the instance [mem_db]), the files of APR ([Apr], [AprLaws],
    instance [mem_disk]), times taken apart and put together ([AprTime]), MD5, what expat
    makes of the text of an attribute ([Expat], [ExpatLaws], instance [ascii_expat]; the
    repository has a copy of this parser), the order of a hash table ([hash_order]), the current date, and what other processes do between
    two trails.  Each theorem with such a parameter has a witness over a concrete one.

    ** Theorems

    - Commits ([History]): a commit appends one revision and removes its transaction, or
      reports that the transaction is out of date, or changes nothing; the commit loop
      ends.  Trails ([Trail]): retrying and aborting.
    - Trees ([TreeOk], [DagOk]): paths lead where their components lead; cloning and making
      entries change one directory and nothing else.
    - Tables ([RevTable], [TxnTable], [Strings], [NodesTable]) implement abstract ones: a
      growing list, finite maps, byte strings.  [NodeKeys]: the order of the keys.
    - Representations ([RepOps]): reading through any chain of deltas gives the contents;
      deltifying and undeltifying keep all contents; copy on write isolates.
    - Deltas ([TxStream], [Vdelta], [Svndiff], [TextDelta]): generate, encode, decode in
      any chunks, and apply give the target back; the decoder checks what it delivers.
    - Round trips: skels, ids, URIs, base64, quoted-printable, hash dumps, times, keywords.
    - Paths, strings, ids, sorting: functional correctness against specifications on lists,
      and the inputs for which the code leaves its memory.
    - Working copies: the entries file of a directory, with the texts of its attributes, is
      read back as it was written when its strings are printable ASCII (a newline is not
      escaped, and is read as a space, [Xml.attribute_text_read]), and changes of schedules act on the meaning of an entry ([Entries]); the property changes
      of the user, and what an update does to them ([WcProps]).
    - Differences ([ReposDeltaOk]): the edit driven by [svn_repos_dir_delta] turns the tree
      of the source into that of the target, over an editor that keeps a tree; what goes
      wrong when the paths differ.  Checkouts ([Checkout]): the tree of the revision is
      made.  Editors ([DeltaEditors]): two editors as one, an editor of the new style
      behind a driver of the old one, the pipe.  Dates ([RevHunt]): what the binary search finds.

    ** Bounds and fuel

    Loops whose end depends on a count that is not structural take a number of turns and
    give [None] (or [Undef], where said) when it does not suffice; the theorems state how
    many turns do: the length of what is left to read plus one for loops over input
    ([translate_loop], [read_loop], [encode_loop]), the number of entries for loops over
    tables, the number of commits of other processes plus one for [svn_fs_commit_txn].
    The recursion of the skel parser and of the merge of directories has a depth as its
    measure.

    Berkeley DB takes the length of a record, and of a piece of one, in 32 bits: the
    operations on strings ([string_read], [svn_fs__string_append]) are the code for
    requests and records of less than 4 GB, and the theorems about them ask for that
    ([Strings.op_ok], and the bounds of 2 ^ 32 in [RepOps]).  Keys are short because a
    longer one would need [36 ^ 197] strings before it.  Other bounds are those of the C
    types, and where a type is narrower than what it is used for, the definition wraps it
    or is [Undef], and the theorem says from where on ([SvnString.stringbuf_refines],
    [Hashdump.hash_dump_roundtrip]).

    ** Not modelled

    - Network and process glue, which mostly calls libraries that are not in the
      repository: [libsvn_ra_dav] (neon), [mod_dav_svn] (Apache), [libsvn_ra], the
      programs [svn], [svnadmin] and [svnlook], the bindings.  [expat-lite], a copy of a
      third-party parser, is the parameter of [Xml].
    - In [libsvn_fs]: [fs.c] and [err.c] (opening and closing Berkeley DB environments,
      texts of errors), the functions that only open tables, the wrappers that only start
      a trail, reference counts of memory.
    - In [libsvn_subr]: [config.c], [svn_error.c], what [xml.c] does besides the texts of
      attributes (the calls of the parser, headers, closing tags), the functions of [io.c]
      that are one call of APR each.
    - In [libsvn_delta]: the XML format, which goes through expat.
    - In [libsvn_repos]: [repos.c] and [hooks.c] (files and child processes), [log.c],
      [reporter.c] and [node_tree.c].  In [libsvn_ra_local]: the session and the commit
      editor, which connect the client with [libsvn_repos] in one process.
    - In [libsvn_wc]: the files of the administrative directories (logs, locks, copies of
      texts and properties), the update and the status editor, files that are changed in
      place.
      [libsvn_client]: it calls the working copy and the repository access libraries.
    - Memory is never exhausted, and a pool is never used after it was cleared. *)

From Stdlib Require Import Strings.Byte.
From Stdlib Require Export ZArith Lia.
From stdpp Require Export base list strings gmap numbers option.

#[export] Set Default Goal Selector "!".
#[global] Open Scope Z_scope.

(** ** Bytes

    A C [char] is a value of the 256-element type [byte]; [bz] is its value as
    an [unsigned char], [bsz] its value as the (signed) plain [char] of the
    platforms Subversion is built on, [zb] the truncation of an integer
    expression stored into a [char]. *)

Abbreviation byte := Byte.byte.
Abbreviation bytes := (list Byte.byte).

#[global] Instance byte_eq_dec : EqDecision byte := Byte.byte_eq_dec.
#[global] Instance byte_inhabited : Inhabited byte := populate Byte.x00.

Definition bz (c : byte) : Z := Z.of_N (Byte.to_N c).
Definition bsz (c : byte) : Z := if 128 <=? bz c then bz c - 256 else bz c.
Definition zb (z : Z) : byte :=
  match Byte.of_N (Z.to_N (z mod 256)) with Some c => c | None => Byte.x00 end.

#[global] Instance byte_countable : Countable byte :=
  inj_countable Byte.to_N Byte.of_N Byte.of_to_N.

(** The bytes of a C string literal, without its terminator. *)
Definition bstr (s : string) : bytes := String.list_byte_of_string s.

Lemma bz_range c : 0 <= bz c < 256.
Proof.
  unfold bz. pose proof (Byte.to_N_bounded c). lia.
Qed.

Lemma zb_bz c : zb (bz c) = c.
Proof.
  unfold zb. rewrite Z.mod_small by apply bz_range.
  unfold bz. rewrite N2Z.id, Byte.of_to_N. done.
Qed.

Lemma bz_zb z : bz (zb z) = z mod 256.
Proof.
  unfold zb. pose proof (Z.mod_pos_bound z 256 ltac:(lia)).
  destruct (Byte.of_N _) as [c|] eqn:E.
  - apply Byte.to_of_N in E. unfold bz. rewrite E. lia.
  - apply Byte.of_N_None_iff in E. lia.
Qed.

Lemma bz_zb_small z : 0 <= z < 256 -> bz (zb z) = z.
Proof. intros. rewrite bz_zb. by apply Z.mod_small. Qed.

#[global] Instance bz_inj : Inj (=) (=) bz.
Proof. intros a b H. by rewrite <- (zb_bz a), <- (zb_bz b), H. Qed.

Definition NUL : byte := Byte.x00.

(** ** C strings

    A C string argument is given by its bytes; [strlen] finds the terminator that
    follows them, or an earlier one. *)
Fixpoint strlen (s : bytes) : nat :=
  match s with
  | [] => O
  | c :: s => if byte_eq_dec c NUL then O else S (strlen s)
  end.

Lemma join_cons {A} (l : list A) (ls : list (list A)) : mjoin (l :: ls) = l ++ mjoin ls.
Proof. done. Qed.

Lemma strlen_ok p : Forall (λ x, x <> NUL) p -> strlen p = length p.
Proof. induction 1 as [|x p Hx Hp IH]; [done|]. cbn [strlen length]. destruct (byte_eq_dec x NUL); [done|]. by rewrite IH. Qed.

Lemma strlen_le s : (strlen s <= length s)%nat.
Proof. induction s as [|c s IH]; [done|]. cbn [strlen length]. destruct (byte_eq_dec c NUL); lia. Qed.

(** C strings. *)
Definition no_nul (s : bytes) : Prop := Forall (λ c, c <> NUL) s.

(** ** Machine integers (LP64)

    [apr_size_t] is an unsigned 64-bit integer and [apr_off_t] a signed one;
    arithmetic that can leave the range is written with these wrappers. *)

Definition two64 : Z := 2 ^ 64.
Definition two63 : Z := 2 ^ 63.
Definition size_t (z : Z) : Z := z mod two64.
Definition off_t (z : Z) : Z := (z + two63) mod two64 - two63.

(** Conversion to [int] of a wider integer, as in [d += a[i]] for an [int d]. *)
Definition int_t (z : Z) : Z := (z + 2 ^ 31) mod 2 ^ 32 - 2 ^ 31.

Lemma int_t_small z : - 2 ^ 31 <= z < 2 ^ 31 -> int_t z = z.
Proof. intros. unfold int_t. rewrite Z.mod_small; lia. Qed.

Lemma size_t_small z : 0 <= z < two64 -> size_t z = z.
Proof. apply Z.mod_small. Qed.

Lemma size_t_range z : 0 <= size_t z < two64.
Proof. apply Z.mod_pos_bound. done. Qed.

Lemma off_t_small z : - two63 <= z < two63 -> off_t z = z.
Proof.
  intros. unfold off_t. rewrite Z.mod_small; [lia|]. unfold two63, two64 in *. lia.
Qed.

Lemma off_t_range z : - two63 <= off_t z < two63.
Proof.
  unfold off_t. pose proof (Z.mod_pos_bound (z + two63) two64 eq_refl).
  unfold two63, two64 in *. lia.
Qed.

(** Exhaustive checking of a boolean property of a small range of integers, and
    of all bytes. *)
Lemma Z_forallb n (P : Z -> bool) :
  forallb P (map Z.of_nat (List.seq 0 n)) = true ->
  forall z, 0 <= z < Z.of_nat n -> P z = true.
Proof.
  rewrite forallb_forall. intros H z Hz. apply H. apply in_map_iff.
  exists (Z.to_nat z). split; [lia|]. apply in_seq. lia.
Qed.

Lemma byte_forallb (P : byte -> bool) :
  forallb (λ z, P (zb z)) (map Z.of_nat (List.seq 0 256)) = true -> forall c, P c = true.
Proof.
  intros H c. pose proof (bz_range c).
  pose proof (Z_forallb 256 _ H (bz c) ltac:(lia)) as Hc. simpl in Hc. by rewrite zb_bz in Hc.
Qed.

(** ** Lexicographic order *)

Fixpoint lex (l1 l2 : list Z) : Z :=
  match l1, l2 with
  | [], [] => 0
  | [], _ => -1
  | _, [] => 1
  | a :: l1, b :: l2 => if a =? b then lex l1 l2 else if a <? b then -1 else 1
  end.

Lemma lex_opp l1 l2 : lex l2 l1 = - lex l1 l2.
Proof.
  revert l2. induction l1 as [|a l1 IH]; intros [|b l2]; try done. simpl.
  rewrite (Z.eqb_sym b a). destruct (Z.eqb_spec a b); [apply IH|].
  destruct (Z.ltb_spec a b), (Z.ltb_spec b a); lia.
Qed.

Lemma lex_eq l1 l2 : lex l1 l2 = 0 <-> l1 = l2.
Proof.
  revert l2. induction l1 as [|a l1 IH]; intros [|b l2]; try done. simpl.
  destruct (Z.eqb_spec a b) as [->|]; [rewrite IH; by split; [intros ->|intros [= ->]]|].
  destruct (Z.ltb_spec a b); split; congruence.
Qed.

Lemma lex_trans l1 l2 l3 : lex l1 l2 = -1 -> lex l2 l3 = -1 -> lex l1 l3 = -1.
Proof.
  revert l2 l3. induction l1 as [|a l1 IH]; intros [|b l2] [|c l3]; try done. simpl.
  destruct (Z.eqb_spec a b), (Z.eqb_spec b c), (Z.eqb_spec a c); subst; try done; try lia; eauto;
    repeat match goal with |- context [?x <? ?y] => destruct (Z.ltb_spec x y) end; lia || done.
Qed.

Lemma lex_range l1 l2 : lex l1 l2 = -1 \/ lex l1 l2 = 0 \/ lex l1 l2 = 1.
Proof.
  revert l2. induction l1 as [|a l1 IH]; intros [|b l2]; simpl; auto.
  destruct (a =? b); auto. destruct (a <? b); auto.
Qed.

Lemma lex_app l l1 l2 : lex (l ++ l1) (l ++ l2) = lex l1 l2.
Proof. induction l as [|a l IH]; [done|]. cbn [app lex]. by rewrite Z.eqb_refl. Qed.

Lemma lex_head a b l1 l2 : a < b -> lex (a :: l1) (b :: l2) = -1.
Proof.
  intros H. cbn [lex]. by rewrite (proj2 (Z.eqb_neq _ _)), (proj2 (Z.ltb_lt _ _)) by lia.
Qed.

Lemma lex_head_gt a b l1 l2 : b < a -> lex (a :: l1) (b :: l2) = 1.
Proof. intros H. by rewrite lex_opp, lex_head. Qed.

Lemma lex_cons_le a l1 b l2 : lex (a :: l1) (b :: l2) <= 0 <-> a < b \/ (a = b /\ lex l1 l2 <= 0).
Proof. cbn [lex]. destruct (Z.eqb_spec a b), (Z.ltb_spec a b); lia. Qed.

Lemma lex_cons_lt a l1 b l2 : lex (a :: l1) (b :: l2) < 0 <-> a < b \/ (a = b /\ lex l1 l2 < 0).
Proof. cbn [lex]. destruct (Z.eqb_spec a b), (Z.ltb_spec a b); lia. Qed.

Lemma lex_le_trans l1 l2 l3 : lex l1 l2 <= 0 -> lex l2 l3 <= 0 -> lex l1 l3 <= 0.
Proof.
  intros H1 H2. destruct (lex_range l1 l2) as [E1|[E1|E1]], (lex_range l2 l3) as [E2|[E2|E2]]; try lia.
  - by rewrite (lex_trans l1 l2 l3).
  - apply lex_eq in E2 as <-. lia.
  - apply lex_eq in E1 as ->. lia.
  - apply lex_eq in E1 as ->. lia.
Qed.

(** ** Outcomes

    [Ok]: the C function returns normally.  [Err]: it returns an
    [svn_error_t] with this code.  [Abort]: it calls [abort ()] or fails an
    [assert].  [Undef]: it performs an access the C language leaves undefined
    (a read or write outside an object).  The error of a conflict carries the path
    that its message names and that the caller is given. *)

Inductive db_errno : Set := DB_NOTFOUND | DB_LOCK_DEADLOCK | EINVAL.

#[global] Instance db_errno_eq_dec : EqDecision db_errno.
Proof. solve_decision. Defined.

(** The codes of the Apache Portable Runtime. *)
Inductive apr_errno : Set := APR_EOF | APR_ENOENT | APR_EEXIST | APR_ENOTIMPL | APR_EGENERAL | APR_EOTHER (n : Z).

#[global] Instance apr_errno_eq_dec : EqDecision apr_errno.
Proof. solve_decision. Defined.

Inductive svn_errno : Set :=
  | SVN_ERR_BERKELEY_DB (src_err : db_errno)
  | APR_ERR (status : apr_errno)
  | SVN_WARNING
  | SVN_ERR_MALFORMED_FILE
  | SVN_ERR_MALFORMED_XML
  | SVN_ERR_BAD_FILENAME
  | SVN_ERR_ENTRY_EXISTS
  | SVN_ERR_ENTRY_NOT_FOUND
  | SVN_ERR_ENTRY_MISSING_REVISION
  | SVN_ERR_ENTRY_MISSING_URL
  | SVN_ERR_ENTRY_ATTRIBUTE_INVALID
  | SVN_ERR_UNKNOWN_NODE_KIND
  | SVN_ERR_UNSUPPORTED_FEATURE
  | SVN_ERR_IO_INCONSISTENT_EOL
  | SVN_ERR_IO_UNIQUE_NAMES_EXHAUSTED
  | SVN_ERR_EXTERNAL_PROGRAM
  | SVN_ERR_WC_UNEXPECTED_KIND
  | SVN_ERR_WC_NOT_DIRECTORY
  | SVN_ERR_WC_NOT_UP_TO_DATE
  | SVN_ERR_WC_CORRUPT
  | SVN_ERR_WC_OBSTRUCTED_UPDATE
  | SVN_ERR_WC_LEFT_LOCAL_MOD
  | SVN_ERR_WC_FOUND_CONFLICT
  | SVN_ERR_WC_SCHEDULE_CONFLICT
  | SVN_ERR_RA_ILLEGAL_URL
  | SVN_ERR_RA_REPOSITORY_NOT_FOUND
  | SVN_ERR_RA_BAD_REVISION_REPORT
  | SVN_ERR_RA_NOT_VERSIONED_RESOURCE
  | SVN_ERR_CLIENT_BAD_REVISION
  | SVN_ERR_CLIENT_REVISION_RANGE
  | SVN_ERR_INCORRECT_PARAMS
  | SVN_ERR_XML_ATTRIB_NOT_FOUND
  | SVN_ERR_FS_NOT_REVISION_ROOT
  | SVN_ERR_FS_PATH_SYNTAX
  | SVN_ERR_REPOS_HOOK_FAILURE
  | SVN_ERR_REPOS_NO_DATA_FOR_REPORT
  | SVN_ERR_FS_GENERAL
  | SVN_ERR_FS_CORRUPT
  | SVN_ERR_FS_ID_NOT_FOUND
  | SVN_ERR_FS_NO_SUCH_STRING
  | SVN_ERR_FS_NO_SUCH_REVISION
  | SVN_ERR_FS_NO_SUCH_TRANSACTION
  | SVN_ERR_FS_NO_SUCH_REPRESENTATION
  | SVN_ERR_FS_REP_CHANGED
  | SVN_ERR_FS_REP_NOT_MUTABLE
  | SVN_ERR_FS_NOT_MUTABLE
  | SVN_ERR_FS_NOT_DIRECTORY
  | SVN_ERR_FS_NOT_FILE
  | SVN_ERR_FS_NOT_FOUND
  | SVN_ERR_FS_NO_SUCH_ENTRY
  | SVN_ERR_FS_DIR_NOT_EMPTY
  | SVN_ERR_FS_ALREADY_EXISTS
  | SVN_ERR_FS_NOT_SINGLE_PATH_COMPONENT
  | SVN_ERR_FS_NOT_TXN_ROOT
  | SVN_ERR_FS_NOT_ID
  | SVN_ERR_FS_ROOT_DIR
  | SVN_ERR_FS_CONFLICT (conflict : list Byte.byte)
  | SVN_ERR_TXN_OUT_OF_DATE
  | SVN_ERR_DELTA_MD5_CHECKSUM_ABSENT
  | SVN_ERR_SVNDIFF_INVALID_HEADER
  | SVN_ERR_SVNDIFF_CORRUPT_WINDOW
  | SVN_ERR_SVNDIFF_BACKWARD_VIEW
  | SVN_ERR_SVNDIFF_INVALID_OPS
  | SVN_ERR_SVNDIFF_UNEXPECTED_END
  | SVN_ERR_INCOMPLETE_DATA.

#[global] Instance svn_errno_eq_dec : EqDecision svn_errno.
Proof. solve_decision. Defined.

Inductive outcome (A : Type) : Type :=
  | Ok (a : A)
  | Err (e : svn_errno)
  | Abort
  | Undef.
Arguments Ok {A} a.
Arguments Err {A} e.
Arguments Abort {A}.
Arguments Undef {A}.

#[global] Instance outcome_ret : MRet outcome := @Ok.
#[global] Instance outcome_bind : MBind outcome := λ A B f m,
  match m with Ok a => f a | Err e => Err e | Abort => Abort | Undef => Undef end.

#[global] Instance outcome_fmap : FMap outcome := λ A B f m,
  match m with Ok a => Ok (f a) | Err e => Err e | Abort => Abort | Undef => Undef end.

#[global] Instance outcome_eq_dec `{EqDecision A} : EqDecision (outcome A).
Proof. solve_decision. Defined.

(** Computations on a state, which keeps the value it had when an error is
    returned. *)
Definition state_m (St A : Type) : Type := St -> outcome A * St.

#[global] Instance state_ret {St} : MRet (state_m St) := λ A a s, (Ok a, s).
#[global] Instance state_bind {St} : MBind (state_m St) := λ A B f m s,
  match m s with
  | (Ok a, s) => f a s
  | (Err e, s) => (Err e, s)
  | (Abort, s) => (Abort, s)
  | (Undef, s) => (Undef, s)
  end.

Definition lift {St A} (m : outcome A) : state_m St A := λ s, (m, s).
Definition fail {St A} (e : svn_errno) : state_m St A := λ s, (Err e, s).

Lemma state_bind_step {St A B} (m : state_m St A) (f : A -> state_m St B) s a s' :
  m s = (Ok a, s') -> (m ≫= f) s = f a s'.
Proof. intros E. unfold mbind, state_bind. by rewrite E. Qed.

Lemma lift_bind {St A B} (a : A) (f : A -> state_m St B) s : (lift (Ok a) ≫= f) s = f a s.
Proof. done. Qed.

Lemma ret_bind {St A B} (a : A) (f : A -> state_m St B) s : (mret a ≫= f) s = f a s.
Proof. done. Qed.

Lemma bind_assoc {St A B C} (m : state_m St A) (f : A -> state_m St B) (g : B -> state_m St C) s :
  ((m ≫= f) ≫= g) s = (m ≫= λ a, f a ≫= g) s.
Proof. unfold mbind, state_bind. by destruct (m s) as [[] ?]. Qed.

Lemma state_bind_Ok {St A B} (m : state_m St A) (f : A -> state_m St B) s b s' :
  (m ≫= f) s = (Ok b, s') <-> exists a s1, m s = (Ok a, s1) /\ f a s1 = (Ok b, s').
Proof.
  unfold mbind, state_bind. destruct (m s) as [[a|e| |] s1]; split;
    try (intros (? & ? & ? & ?); congruence); try done.
  intros H. by eexists _, _.
Qed.

(** A read of an array or buffer cell that must exist. *)
Definition rd {A} (l : list A) (i : nat) : outcome A :=
  match l !! i with Some a => Ok a | None => Undef end.

(** An [assert] of the C code. *)
Definition c_assert (b : bool) : outcome unit := if b then Ok tt else Abort.

Lemma bind_Ok {A B} (m : outcome A) (f : A -> outcome B) b :
  m ≫= f = Ok b <-> exists a, m = Ok a /\ f a = Ok b.
Proof.
  destruct m; cbn; split; try (intros (? & ? & ?); congruence); try done.
  intros H. by eexists.
Qed.

Lemma rd_Ok {A} (l : list A) i a : rd l i = Ok a <-> l !! i = Some a.
Proof. unfold rd. destruct (l !! i); split; congruence. Qed.

(** ** Tactics and hints of the development *)

Create HintDb svn.
#[export] Hint Resolve bz_range size_t_range off_t_range : svn.
Create Rewrite HintDb svn.
#[export] Hint Rewrite zb_bz : svn.

(** Case analysis on the boolean test that blocks the evaluation of the goal,
    with the comparison turned into an arithmetic hypothesis. *)
Ltac bool_case :=
  match goal with
  | |- context [Z.ltb ?a ?b] => destruct (Z.ltb_spec a b)
  | |- context [Z.leb ?a ?b] => destruct (Z.leb_spec a b)
  | |- context [Z.eqb ?a ?b] => destruct (Z.eqb_spec a b)
  | |- context [Nat.ltb ?a ?b] => destruct (Nat.ltb_spec a b)
  | |- context [Nat.leb ?a ?b] => destruct (Nat.leb_spec a b)
  | |- context [Nat.eqb ?a ?b] => destruct (Nat.eqb_spec a b)
  | |- context [bool_decide ?P] => destruct (bool_decide_reflect P)
  end; simpl.

(** The same for a test in a hypothesis. *)
Ltac bool_case_in H :=
  match type of H with
  | context [Z.ltb ?a ?b] => destruct (Z.ltb_spec a b)
  | context [Z.leb ?a ?b] => destruct (Z.leb_spec a b)
  | context [Z.eqb ?a ?b] => destruct (Z.eqb_spec a b)
  | context [Nat.ltb ?a ?b] => destruct (Nat.ltb_spec a b)
  | context [Nat.leb ?a ?b] => destruct (Nat.leb_spec a b)
  | context [Nat.eqb ?a ?b] => destruct (Nat.eqb_spec a b)
  | context [bool_decide ?P] => destruct (bool_decide_reflect P)
  end; simpl in H.

(** Invert [Ok]-equations of monadic binds in a hypothesis. *)
Ltac inv_ok H :=
  repeat match type of H with
  | _ ≫= _ = Ok _ =>
      let a := fresh "a" in let Ha := fresh "Ha" in
      apply bind_Ok in H; destruct H as (a & Ha & H)
  end.

(** ** Positional numerals

    The value of a digit string, most significant digit first; decimal sizes
    and base-36 table keys are both read this way. *)

Section numerals.
Context (base : Z) (digit : byte -> Z).
Context (base_gt1 : 1 < base).

Definition num_val (l : bytes) : Z := foldl (λ v c, v * base + digit c) 0 l.

Definition digits_ok (l : bytes) : Prop := Forall (λ c, 0 <= digit c < base) l.

Lemma num_val_acc l v :
  foldl (λ v c, v * base + digit c) v l = v * base ^ Z.of_nat (length l) + num_val l.
Proof.
  unfold num_val. revert v. induction l as [|c l IH]; intros v; simpl foldl.
  - simpl. lia.
  - rewrite IH, (IH (0 * base + digit c)). simpl length.
    rewrite Nat2Z.inj_succ, Z.pow_succ_r by lia. lia.
Qed.

Lemma num_val_cons c l :
  num_val (c :: l) = digit c * base ^ Z.of_nat (length l) + num_val l.
Proof. unfold num_val at 1. simpl foldl. rewrite num_val_acc. lia. Qed.

Lemma num_val_snoc l c : num_val (l ++ [c]) = num_val l * base + digit c.
Proof. unfold num_val. by rewrite foldl_app. Qed.

Lemma pow_base_pos n : 0 < base ^ Z.of_nat n.
Proof. apply Z.pow_pos_nonneg; lia. Qed.

Lemma num_val_bound l : digits_ok l -> 0 <= num_val l < base ^ Z.of_nat (length l).
Proof.
  induction 1 as [|c l Hc Hl IH]; [unfold num_val; simpl; lia|].
  rewrite num_val_cons. simpl length.
  rewrite Nat2Z.inj_succ, Z.pow_succ_r by lia.
  pose proof (pow_base_pos (length l)). nia.
Qed.

Lemma num_val_lower c l :
  1 <= digit c -> digits_ok l -> base ^ Z.of_nat (length l) <= num_val (c :: l).
Proof.
  intros Hc Hl. rewrite num_val_cons. pose proof (num_val_bound l Hl).
  pose proof (pow_base_pos (length l)). nia.
Qed.

Context (P : byte -> Prop).
Context (P_ok : forall c, P c -> 0 <= digit c < base).
Context (digit_inj : forall c d, P c -> P d -> digit c = digit d -> c = d).

(** Numerals of the same length are determined by their value. *)
Lemma num_val_inj l1 l2 :
  length l1 = length l2 -> Forall P l1 -> Forall P l2 ->
  num_val l1 = num_val l2 -> l1 = l2.
Proof.
  revert l2. induction l1 as [|c l1 IH]; intros [|d l2]; intros Hlen H1 H2 Hv;
    try done; simpl in Hlen.
  apply Forall_cons_iff in H1 as [Hc H1], H2 as [Hd H2].
  rewrite !num_val_cons in Hv. injection Hlen as Hlen. rewrite Hlen in Hv.
  pose proof (num_val_bound l1 (Forall_impl _ P_ok H1)) as B1.
  pose proof (num_val_bound l2 (Forall_impl _ P_ok H2)) as B2.
  rewrite Hlen in B1. pose proof (P_ok c Hc). pose proof (P_ok d Hd).
  assert (digit c = digit d) as Hcd by nia.
  f_equal; [exact (digit_inj c d Hc Hd Hcd)|].
  apply IH; try done. rewrite Hcd in Hv. lia.
Qed.
End numerals.
