(* ===== verification/Types.v ===== *)
(** * Kinds of nodes and revision numbers ([svn_types.h]) *)

From S2P Require Import Prelude.

Inductive svn_node_kind_t := svn_node_none | svn_node_file | svn_node_dir | svn_node_unknown.

#[global] Instance svn_node_kind_eq_dec : EqDecision svn_node_kind_t.
Proof. solve_decision. Defined.

(** [long int]. *)
Abbreviation svn_revnum_t := Z.

Definition SVN_INVALID_REVNUM : svn_revnum_t := -1.

(** The number is not negative: [SVN_IS_VALID_REVNUM]. *)
Definition is_valid_revnum (rev : svn_revnum_t) : bool := 0 <=? rev.
