(* ===== verification/Db.v ===== *)
(** * Berkeley DB tables

    The filesystem keeps its data in the tables of a Berkeley DB environment, a
    library outside the repository: its tables are a parameter of the model, an
    instance of [BerkeleyDB].  A btree is ordered by a comparison function (the
    one given to [set_bt_compare], or the order of the bytes), which has to be an
    order on the keys that are used; a table with [DB_DUP] keeps, for a key, the
    records in the order in which they were put.  The laws are the documented
    behaviour of the operations.  Errors other than [DB_NOTFOUND] end a
    transaction; see [Trail].  [mem_db], at the end, is a concrete instance. *)

From Stdlib Require Import Sorted.
From S2P Require Import Prelude.

(** ** Orders on keys, and [svn_fs__compare_dbt] ([libsvn_fs/dbt.c]) *)

(** [memcmp] of two blocks of the same size, as a sign. *)
Fixpoint memcmp (a b : bytes) : Z :=
  match a, b with
  | x :: a, y :: b => if bz x =? bz y then memcmp a b else if bz x <? bz y then -1 else 1
  | _, _ => 0
  end.

(** Sizes of keys are far from the range of [int]. *)
Definition svn_fs__compare_dbt (a b : bytes) : Z :=
  let common_size := if (length b <? length a)%nat then length b else length a in
  let cmp := memcmp (take common_size a) (take common_size b) in
  if negb (cmp =? 0) then cmp else Z.of_nat (length a) - Z.of_nat (length b).

(** A comparison function, which is an order. *)
Record key_order := mk_key_order {
  ko_cmp : bytes -> bytes -> Z;
  ko_refl k : ko_cmp k k = 0;
  ko_opp a b : Z.sgn (ko_cmp b a) = - Z.sgn (ko_cmp a b);
  ko_trans a b c : ko_cmp a b <= 0 -> ko_cmp b c <= 0 -> ko_cmp a c <= 0;
}.

(** ** The interface *)

Class BerkeleyDB := {
  (** [DB_BTREE] *)
  btree : key_order -> Type;
  bt_get {ko} : btree ko -> bytes -> option bytes;
  bt_put {ko} : btree ko -> bytes -> bytes -> btree ko;
  bt_del {ko} : btree ko -> bytes -> option (btree ko);
  (** cursor positions: the last key, and the last key before a given one *)
  bt_last {ko} : btree ko -> option bytes;
  bt_before {ko} : btree ko -> bytes -> option bytes;
  (** the keys, from the first one to the last *)
  bt_keys {ko} : btree ko -> list bytes;

  bt_get_eq {ko} (t : btree ko) k k' : ko_cmp ko k k' = 0 -> bt_get t k = bt_get t k';
  bt_get_put {ko} (t : btree ko) k v k' :
    bt_get (bt_put t k v) k' = if ko_cmp ko k k' =? 0 then Some v else bt_get t k';
  bt_del_none {ko} (t : btree ko) k : bt_del t k = None <-> bt_get t k = None;
  bt_get_del {ko} (t : btree ko) k t' k' :
    bt_del t k = Some t' ->
    bt_get t' k' = if ko_cmp ko k k' =? 0 then None else bt_get t k';
  bt_last_spec {ko} (t : btree ko) :
    match bt_last t with
    | Some k => is_Some (bt_get t k) /\
        forall k', is_Some (bt_get t k') -> ko_cmp ko k' k <= 0
    | None => forall k', bt_get t k' = None
    end;
  bt_before_spec {ko} (t : btree ko) k0 :
    match bt_before t k0 with
    | Some k => is_Some (bt_get t k) /\ ko_cmp ko k k0 < 0 /\
        forall k', is_Some (bt_get t k') -> ko_cmp ko k' k0 < 0 ->
          ko_cmp ko k' k <= 0
    | None => forall k', is_Some (bt_get t k') -> 0 <= ko_cmp ko k' k0
    end;
  bt_keys_sorted {ko} (t : btree ko) : StronglySorted (λ a b, ko_cmp ko a b < 0) (bt_keys t);
  bt_keys_spec {ko} (t : btree ko) k :
    is_Some (bt_get t k) <-> exists k', k' ∈ bt_keys t /\ ko_cmp ko k' k = 0;

  (** a table with duplicates: the records of a key *)
  duptree : Type;
  dt_get : duptree -> bytes -> list bytes;
  dt_put : duptree -> bytes -> bytes -> duptree;
  (** [c_put] with [DB_CURRENT], the cursor being at the first record *)
  dt_set_first : duptree -> bytes -> bytes -> duptree;
  dt_del : duptree -> bytes -> option duptree;

  dt_get_put t k v k' :
    dt_get (dt_put t k v) k' = if decide (k = k') then dt_get t k' ++ [v] else dt_get t k';
  dt_get_set_first t k v k' :
    dt_get (dt_set_first t k v) k' =
    if decide (k = k') then match dt_get t k' with [] => [] | _ :: l => v :: l end
    else dt_get t k';
  dt_del_none t k : dt_del t k = None <-> dt_get t k = [];
  dt_get_del t k t' k' :
    dt_del t k = Some t' -> dt_get t' k' = if decide (k = k') then [] else dt_get t k';

  (** [DB_RECNO]: records numbered from 1 on; [rc_append] is a put with
      [DB_APPEND], which gives the number *)
  rectree : Type;
  rc_get : rectree -> Z -> option bytes;
  rc_put : rectree -> Z -> bytes -> rectree;
  rc_append : rectree -> bytes -> rectree * Z;
  rc_last : rectree -> option Z;

  rc_get_range t n : is_Some (rc_get t n) <-> 1 <= n <= default 0 (rc_last t);
  rc_last_pos t n : rc_last t = Some n -> 1 <= n;
  (** an existing record is replaced *)
  rc_get_put t n v m : is_Some (rc_get t n) ->
    rc_get (rc_put t n v) m = if decide (m = n) then Some v else rc_get t m;
  rc_last_put t n v : is_Some (rc_get t n) -> rc_last (rc_put t n v) = rc_last t;
  rc_append_number t v : (rc_append t v).2 = default 0 (rc_last t) + 1;
  rc_get_append t v m :
    rc_get (rc_append t v).1 m = if decide (m = (rc_append t v).2) then Some v else rc_get t m;
}.

Lemma sorted_nodup ko l : StronglySorted (λ a b, ko_cmp ko a b < 0) l -> NoDup l.
Proof.
  induction 1 as [|k l Hs IH Hk]; [constructor|]. apply list.NoDup_cons. split; [|exact IH].
  intros Hin. rewrite list.Forall_forall in Hk. specialize (Hk k Hin). rewrite ko_refl in Hk. lia.
Qed.

(** ** The order of the bytes *)

Lemma compare_dbt_order a b : Z.sgn (svn_fs__compare_dbt a b) = lex (bz <$> a) (bz <$> b).
Proof.
  unfold svn_fs__compare_dbt.
  replace (if (length b <? length a)%nat then length b else length a) with (Nat.min (length a) (length b))
    by (destruct (Nat.ltb_spec (length b) (length a)); lia).
  revert b. induction a as [|x a IH]; intros [|y b]; cbn [length fmap list_fmap lex]; try done; try (simpl; lia).
  rewrite <- Nat.succ_min_distr. cbn [take memcmp]. specialize (IH b).
  destruct (Z.eqb_spec (bz x) (bz y)).
  - rewrite <- IH. destruct (_ =? 0); cbn [negb]; [f_equal; lia|done].
  - destruct (_ <? _); done.
Qed.

(** An order given by the lexicographic order of some list of integers. *)
Section lex_order.
Context (cmp : bytes -> bytes -> Z) (key : bytes -> list Z).
Context (Hcmp : forall a b, Z.sgn (cmp a b) = lex (key a) (key b)).

Lemma lex_cmp_le a b : cmp a b <= 0 <-> lex (key a) (key b) <= 0.
Proof. rewrite <- Hcmp. lia. Qed.

Lemma lex_cmp_eq a b : cmp a b = 0 <-> key a = key b.
Proof. rewrite <- lex_eq, <- Hcmp. lia. Qed.

Program Definition lex_key_order : key_order := {| ko_cmp := cmp |}.
Next Obligation. intros k. by apply lex_cmp_eq. Qed.
Next Obligation. intros a b. rewrite !Hcmp. apply lex_opp. Qed.
Next Obligation. intros a b c. rewrite !lex_cmp_le. apply lex_le_trans. Qed.
End lex_order.

Definition dbt_order : key_order := lex_key_order svn_fs__compare_dbt (fmap bz) compare_dbt_order.

Lemma dbt_order_eq a b : (ko_cmp dbt_order a b =? 0) = bool_decide (a = b).
Proof.
  change (ko_cmp dbt_order a b) with (svn_fs__compare_dbt a b).
  apply eq_bool_prop_intro. rewrite bool_decide_spec, Is_true_true, Z.eqb_eq.
  rewrite (lex_cmp_eq _ _ compare_dbt_order). split; [|by intros ->].
  intros E. by apply list_fmap_eq_inj in E; [|apply _].
Qed.

(** ** An instance: association lists, the latest record first *)

Section mem_btree.
Context (ko : key_order).

Definition mem_entry (k : bytes) (e : bytes * bytes) : bool := ko_cmp ko e.1 k =? 0.

Definition mem_get (t : list (bytes * bytes)) (k : bytes) : option bytes :=
  snd <$> List.find (mem_entry k) t.

Definition mem_del (t : list (bytes * bytes)) (k : bytes) : option (list (bytes * bytes)) :=
  if existsb (mem_entry k) t then Some (List.filter (λ e, negb (mem_entry k e)) t) else None.

(** The greatest key among those that satisfy a test. *)
Fixpoint mem_last (P : bytes -> bool) (t : list (bytes * bytes)) : option bytes :=
  match t with
  | [] => None
  | (k, _) :: t =>
      if P k then
        match mem_last P t with
        | Some k' => if ko_cmp ko k k' <=? 0 then Some k' else Some k
        | None => Some k
        end
      else mem_last P t
  end.

(** Insertion into a sorted list without duplicates. *)
Fixpoint mem_insert (k : bytes) (l : list bytes) : list bytes :=
  match l with
  | [] => [k]
  | x :: l' =>
      if ko_cmp ko k x <? 0 then k :: l
      else if ko_cmp ko k x =? 0 then l
      else x :: mem_insert k l'
  end.

Definition mem_keys (t : list (bytes * bytes)) : list bytes := foldr (λ e l, mem_insert e.1 l) [] t.

Lemma ko_eq_sym a b : ko_cmp ko a b = 0 -> ko_cmp ko b a = 0.
Proof. intros E. pose proof (ko_opp ko a b). lia. Qed.

Lemma ko_eq_trans a b c : ko_cmp ko a b = 0 -> ko_cmp ko b c = 0 -> ko_cmp ko a c = 0.
Proof.
  intros E1 E2. pose proof (ko_trans ko a b c ltac:(lia) ltac:(lia)).
  pose proof (ko_trans ko c b a). rewrite (ko_eq_sym b c), (ko_eq_sym a b) in * by done.
  pose proof (ko_opp ko a c). lia.
Qed.

(** Keys that are equal for the order are in the same relation to the others. *)
Lemma ko_eq_lt a b c : ko_cmp ko a b = 0 -> ko_cmp ko a c < 0 -> ko_cmp ko b c < 0.
Proof.
  intros He Hlt. pose proof (ko_opp ko b c). pose proof (ko_opp ko a c). pose proof (ko_opp ko a b).
  destruct (Z.le_gt_cases (ko_cmp ko c b) 0) as [Hle|]; [|lia].
  pose proof (ko_trans ko c b a Hle ltac:(lia)). lia.
Qed.

Lemma mem_entry_true k e : mem_entry k e = true <-> ko_cmp ko e.1 k = 0.
Proof. unfold mem_entry. by rewrite Z.eqb_eq. Qed.

Lemma mem_entry_eq k k' e : ko_cmp ko k k' = 0 -> mem_entry k e = mem_entry k' e.
Proof.
  intros E. apply eq_bool_prop_intro. rewrite !Is_true_true, !mem_entry_true.
  split; intros He; [by apply (ko_eq_trans _ k)|].
  apply (ko_eq_trans _ k'); [done|]. by apply ko_eq_sym.
Qed.

Lemma mem_get_is_Some t k :
  is_Some (mem_get t k) <-> exists k1, k1 ∈ t.*1 /\ ko_cmp ko k1 k = 0.
Proof.
  unfold mem_get. rewrite fmap_is_Some. split.
  - intros [e He]. apply List.find_some in He as [Hin He%mem_entry_true]. exists e.1. split; [|done].
    apply list_elem_of_fmap. exists e. by rewrite list_elem_of_In.
  - intros (k1 & Hin & He). apply list_elem_of_fmap in Hin as (e & -> & Hin).
    destruct (List.find _ t) eqn:E; [done|]. apply mem_entry_true in He.
    apply list_elem_of_In in Hin. by rewrite (List.find_none _ _ E e Hin) in He.
Qed.

Lemma mem_insert_spec k l k1 :
  (exists k', k' ∈ mem_insert k l /\ ko_cmp ko k' k1 = 0) <->
  ko_cmp ko k k1 = 0 \/ exists k', k' ∈ l /\ ko_cmp ko k' k1 = 0.
Proof.
  induction l as [|x l IH]; cbn [mem_insert].
  - split.
    + intros (k' & ->%list_elem_of_singleton & E). by left.
    + intros [E|(k' & Hin & _)]; [|by apply not_elem_of_nil in Hin]. exists k. by split; [left|].
  - destruct (Z.ltb_spec (ko_cmp ko k x) 0).
    { split; [intros (k' & [->|Hin]%elem_of_cons & E); [by left|by right; exists k']|].
      intros [E|(k' & Hin & E)]; [exists k; by split; [left|]|exists k'; by split; [right|]]. }
    destruct (Z.eqb_spec (ko_cmp ko k x) 0) as [Ex|].
    { split; [intros (k' & Hin & E); by right; exists k'|]. intros [E|?]; [|done]. exists x. split; [left|].
      apply (ko_eq_trans _ k); [by apply ko_eq_sym|done]. }
    split.
    + intros (k' & [->|Hin]%elem_of_cons & E); [right; exists x; by split; [left|]|].
      destruct (proj1 IH (ex_intro _ _ (conj Hin E))) as [?|(k2 & Hin2 & ?)]; [by left|].
      right. exists k2. by split; [right|].
    + intros [E|(k' & [->|Hin]%elem_of_cons & E)].
      * destruct (proj2 IH (or_introl E)) as (k' & Hin & ?). exists k'. by split; [right|].
      * exists x. by split; [left|].
      * destruct (proj2 IH) as (k2 & Hin2 & ?); [right; by exists k'|]. exists k2. by split; [right|].
Qed.

Lemma mem_insert_Forall (P : bytes -> Prop) k l : P k -> Forall P l -> Forall P (mem_insert k l).
Proof.
  intros Hk. induction 1 as [|x l Hx Hl IH]; cbn [mem_insert]; [by constructor|].
  destruct (_ <? 0); [by repeat constructor|]. destruct (_ =? 0); by constructor.
Qed.

Lemma mem_insert_sorted k l :
  StronglySorted (λ a b, ko_cmp ko a b < 0) l -> StronglySorted (λ a b, ko_cmp ko a b < 0) (mem_insert k l).
Proof.
  induction 1 as [|x l Hs IH Hx]; cbn [mem_insert]; [by repeat constructor|].
  destruct (Z.ltb_spec (ko_cmp ko k x) 0) as [Hlt|Hge].
  { constructor; [by constructor|]. constructor; [done|]. refine (Forall_impl _ _ Hx).
    intros y Hy. pose proof (ko_trans ko k x y ltac:(lia) ltac:(lia)).
    pose proof (ko_opp ko k y). destruct (Z.eq_dec (ko_cmp ko k y) 0) as [E|]; [|lia].
    apply ko_eq_sym in E. pose proof (ko_trans ko y k x ltac:(lia) ltac:(lia)). pose proof (ko_opp ko x y). lia. }
  destruct (Z.eqb_spec (ko_cmp ko k x) 0); [by constructor|]. constructor; [done|].
  apply mem_insert_Forall; [|done]. pose proof (ko_opp ko k x). lia.
Qed.

Lemma mem_keys_sorted t : StronglySorted (λ a b, ko_cmp ko a b < 0) (mem_keys t).
Proof. induction t as [|e t IH]; [constructor|]. by apply mem_insert_sorted. Qed.

Lemma mem_keys_spec t k : is_Some (mem_get t k) <-> exists k', k' ∈ mem_keys t /\ ko_cmp ko k' k = 0.
Proof.
  rewrite mem_get_is_Some. induction t as [|e t IH]; [done|]. cbn [mem_keys foldr]. rewrite mem_insert_spec.
  unfold mem_keys in IH. rewrite <- IH. rewrite fmap_cons. split.
  - intros (k1 & [->|Hin]%elem_of_cons & E); [by left|right; by exists k1].
  - intros [E|(k1 & Hin & E)]; [exists e.1; by split; [left|]|exists k1; by split; [right|]].
Qed.

Lemma mem_get_in t k : k ∈ t.*1 -> is_Some (mem_get t k).
Proof. intros H. apply mem_get_is_Some. exists k. split; [done|apply ko_refl]. Qed.

Lemma mem_last_spec P t :
  match mem_last P t with
  | Some k => P k = true /\ k ∈ t.*1 /\
      forall k', P k' = true -> k' ∈ t.*1 -> ko_cmp ko k' k <= 0
  | None => forall k', P k' = true -> k' ∉ t.*1
  end.
Proof.
  induction t as [|[k v] t IH]; cbn [mem_last fmap list_fmap fst].
  { intros k' _. apply not_elem_of_nil. }
  destruct (P k) eqn:HP, (mem_last P t) as [k1|].
  - destruct IH as (H1 & H2 & H3). destruct (Z.leb_spec (ko_cmp ko k k1) 0).
    + split_and!; [done|by apply elem_of_cons; right|].
      intros k' HP' [->|Hin]%elem_of_cons; [done|by apply H3].
    + split_and!; [done|by apply elem_of_cons; left|].
      intros k' HP' [->|Hin]%elem_of_cons; [by rewrite ko_refl|].
      apply (ko_trans ko k' k1 k); [by apply H3|]. pose proof (ko_opp ko k k1). lia.
  - split_and!; [done|by apply elem_of_cons; left|].
    intros k' HP' [->|Hin]%elem_of_cons; [by rewrite ko_refl|]. by destruct (IH k').
  - destruct IH as (H1 & H2 & H3). split_and!; [done|by apply elem_of_cons; right|].
    intros k' HP' [->|Hin]%elem_of_cons; [congruence|by apply H3].
  - intros k' HP' [->|Hin]%elem_of_cons; [congruence|by destruct (IH k')].
Qed.
End mem_btree.

#[refine, local] Instance mem_db : BerkeleyDB := {|
  btree _ := list (bytes * bytes);
  bt_get := mem_get;
  bt_put _ t k v := (k, v) :: t;
  bt_del := mem_del;
  bt_last ko := mem_last ko (λ _, true);
  bt_keys := mem_keys;
  bt_before ko t k0 := mem_last ko (λ k, ko_cmp ko k k0 <? 0) t;
  duptree := gmap bytes (list bytes);
  dt_get t k := default [] (t !! k);
  dt_put t k v := <[k := default [] (t !! k) ++ [v]]> t;
  dt_set_first t k v :=
    match t !! k with Some (_ :: l) => <[k := v :: l]> t | _ => t end;
  dt_del t k := match t !! k with None | Some [] => None | Some _ => Some (delete k t) end;
  rectree := list bytes;
  rc_get t n := if n <? 1 then None else t !! Z.to_nat (n - 1);
  rc_put t n v := <[Z.to_nat (n - 1) := v]> t;
  rc_append t v := (t ++ [v], Z.of_nat (length t) + 1);
  rc_last t := match t with [] => None | _ => Some (Z.of_nat (length t)) end;
|}.
Proof.
  - intros ko t k k' E. unfold mem_get. f_equal. induction t as [|e t IH]; [done|].
    cbn [List.find]. rewrite (mem_entry_eq ko k k') by done. by destruct (mem_entry ko k' e).
  - intros ko t k v k'. unfold mem_get. cbn [List.find]. unfold mem_entry at 1. cbn [fst].
    by destruct (_ =? 0).
  - intros ko t k. unfold mem_del, mem_get. destruct (existsb _ t) eqn:E.
    + apply existsb_exists in E as (e & Hin & He). split; [done|]. rewrite fmap_None. intros Hf.
      by rewrite (List.find_none _ _ Hf e Hin) in He.
    + split; [|done]. intros _. destruct (List.find _ t) eqn:Ef; [|done].
      apply List.find_some in Ef as [Hin He].
      by rewrite (proj2 (existsb_exists _ _) (ex_intro _ _ (conj Hin He))) in E.
  - intros ko t k t' k'. unfold mem_del. destruct (existsb _ t); [|done]. intros [= <-].
    destruct (Z.eqb_spec (ko_cmp ko k k') 0) as [E|E]; unfold mem_get.
    + destruct (List.find _ _) as [e|] eqn:Ef; [|done].
      apply List.find_some in Ef as [Hin He]. apply filter_In in Hin as [_ Hn].
      by rewrite (mem_entry_eq ko k k'), He in Hn.
    + induction t as [|e t IH]; [done|]. cbn [List.filter List.find].
      destruct (mem_entry ko k e) eqn:Ek; cbn [negb].
      * destruct (mem_entry ko k' e) eqn:Ek'; [|done]. exfalso. apply E.
        apply mem_entry_true in Ek, Ek'. apply (ko_eq_trans ko _ e.1); [by apply ko_eq_sym|done].
      * cbn [List.find]. by destruct (mem_entry ko k' e).
  - intros ko t. pose proof (mem_last_spec ko (λ _, true) t) as H. destruct (mem_last _ _ t) as [k|].
    + destruct H as (_ & H2 & H3). split; [by apply mem_get_in|].
      intros k' (k1 & Hin & He)%mem_get_is_Some.
      apply (ko_trans ko k' k1 k); [|by apply H3]. pose proof (ko_opp ko k1 k'). lia.
    + intros k'. destruct (mem_get ko t k') eqn:E; [|done].
      destruct (proj1 (mem_get_is_Some ko t k')) as (k1 & Hin & He); [by rewrite E|].
      by destruct (H k1).
  - intros ko t k0. pose proof (mem_last_spec ko (λ k, ko_cmp ko k k0 <? 0) t) as H.
    destruct (mem_last _ _ t) as [k|].
    + destruct H as (Hlt & H2 & H3). apply Z.ltb_lt in Hlt.
      split_and!; [by apply mem_get_in|done|].
      intros k' (k1 & Hin & He)%mem_get_is_Some Hlt'. apply ko_eq_sym in He.
      apply (ko_trans ko k' k1 k); [lia|]. apply H3; [|done].
      apply Z.ltb_lt. by apply (ko_eq_lt ko k').
    + intros k' (k1 & Hin & He)%mem_get_is_Some. apply ko_eq_sym in He.
      destruct (Z.le_gt_cases 0 (ko_cmp ko k' k0)); [done|]. exfalso.
      apply (H k1); [|done]. apply Z.ltb_lt. by apply (ko_eq_lt ko k').
  - intros ko t. apply mem_keys_sorted.
  - intros ko t k. apply mem_keys_spec.
  - intros t k v k'. case_decide as E; [subst; by rewrite lookup_insert_eq|by rewrite lookup_insert_ne].
  - intros t k v k'. case_decide as E.
    + subst k'. destruct (t !! k) as [[|x l]|] eqn:Et; rewrite ?Et, ?lookup_insert_eq; done.
    + destruct (t !! k) as [[|x l]|] eqn:Et; try done. by rewrite lookup_insert_ne.
  - intros t k. destruct (t !! k) as [[|x l]|]; done.
  - intros t k t' k'. destruct (t !! k) as [[|x l]|] eqn:Et; [done| |done]. intros [= <-].
    case_decide as E; [subst; by rewrite lookup_delete_eq|by rewrite lookup_delete_ne].
  - intros t n. replace (default 0 _) with (Z.of_nat (length t)) by (by destruct t).
    destruct (Z.ltb_spec n 1); [split; [by intros []|lia]|]. rewrite lookup_lt_is_Some. lia.
  - intros [|x t] n; [done|]. intros [= <-]. simpl. lia.
  - intros t n v m. destruct (Z.ltb_spec n 1); [by intros []|]. intros Hn%lookup_lt_is_Some.
    destruct (Z.ltb_spec m 1); [by rewrite decide_False by lia|]. case_decide as E.
    + subst m. by rewrite list_lookup_insert_eq.
    + rewrite list_lookup_insert_ne by lia. done.
  - intros t n v Hin. destruct t as [|x t]; [by destruct (n <? 1); destruct Hin|].
    pose proof (length_insert (x :: t) (Z.to_nat (n - 1)) v) as E.
    destruct (<[_ := v]> (x :: t)); [done|]. by rewrite E.
  - intros t v. by destruct t.
  - intros t v m. cbn [fst snd]. destruct (Z.ltb_spec m 1); [by rewrite decide_False by lia|]. case_decide as E.
    + subst m. replace (Z.to_nat _) with (length t) by lia. by rewrite list_lookup_middle.
    + destruct (Nat.lt_ge_cases (Z.to_nat (m - 1)) (length t)).
      * by rewrite lookup_app_l.
      * rewrite !lookup_ge_None_2; [done| |]; rewrite ?length_app; simpl; lia.
Defined.
