(* ===== verification/Trail.v ===== *)
(** * Trails: retried Berkeley DB transactions ([libsvn_fs/trail.c])

    [svn_fs__retry_txn] runs the body of a transaction, commits or aborts it, and
    tries again after a deadlock.  The tables are a state of any type, and so are
    the data structures in memory, which the undo functions registered in the
    trail restore.  Which attempts deadlock, and what other processes commit
    before each attempt, is not under the control of the code: the body and the
    environment are functions of the number of the attempt. *)

From S2P Require Import Prelude.

Section trail.
Context {DB Mem A : Type}.

(** [struct undo]: when the action is to be run, and the action. *)
Record undo := mk_undo {
  undo_on_failure : bool;
  undo_on_success : bool;
  func : Mem -> Mem;
}.

(** A trail: the tables as the transaction sees them, the memory, and the chain
    of actions, the latest one first. *)
Record trail_t := mk_trail { db_txn : DB; mem : Mem; undos : list undo }.

Definition begin_trail (d : DB) (m : Mem) : trail_t := mk_trail d m [].

(** The loops of [abort_trail] and [commit_trail]. *)
Fixpoint run_undos (when : undo -> bool) (l : list undo) (m : Mem) : Mem :=
  match l with
  | [] => m
  | u :: l => run_undos when l (if when u then func u m else m)
  end.

(** [abort_trail]: the tables are those at the beginning of the transaction. *)
Definition abort_trail (d : DB) (t : trail_t) : DB * Mem :=
  (d, run_undos undo_on_failure (undos t) (mem t)).

Definition commit_trail (t : trail_t) : DB * Mem :=
  (db_txn t, run_undos undo_on_success (undos t) (mem t)).

Definition record_undo (on_failure on_success : bool) (f : Mem -> Mem) (t : trail_t) : trail_t :=
  mk_trail (db_txn t) (mem t) (mk_undo on_failure on_success f :: undos t).

Definition svn_fs__record_undo : (Mem -> Mem) -> trail_t -> trail_t := record_undo true false.
Definition svn_fs__record_completion : (Mem -> Mem) -> trail_t -> trail_t := record_undo true true.

Definition deadlock : svn_errno := SVN_ERR_BERKELEY_DB DB_LOCK_DEADLOCK.

Context (body : nat -> trail_t -> outcome A * trail_t).
Context (others : nat -> DB -> DB).

(** The [for (;;)] loop, at the attempt [k]; [None]: still running. *)
Fixpoint svn_fs__retry_txn (fuel k : nat) (d : DB) (m : Mem) : option (outcome A * (DB * Mem)) :=
  match fuel with
  | O => None
  | S fuel =>
      let d := others k d in
      let '(r, t) := body k (begin_trail d m) in
      match r with
      | Ok a => Some (Ok a, commit_trail t)
      | Err e =>
          if decide (e = deadlock) then
            let '(d, m) := abort_trail d t in svn_fs__retry_txn fuel (S k) d m
          else Some (Err e, abort_trail d t)
      | Abort => Some (Abort, (d, m))
      | Undef => Some (Undef, (d, m))
      end
  end.

(** ** Undo actions *)

Lemma run_undos_app when l1 l2 m :
  run_undos when (l1 ++ l2) m = run_undos when l2 (run_undos when l1 m).
Proof. revert m. induction l1 as [|u l1 IH]; intros m; [done|]. simpl. apply IH. Qed.

(** A sequence of changes of the memory, each registered with its inverse. *)
Inductive registered : trail_t -> Mem -> Prop :=
  | reg_begin d m : registered (begin_trail d m) m
  | reg_db d t m : registered t m -> registered (mk_trail d (mem t) (undos t)) m
  | reg_change t m change f : registered t m -> f (change (mem t)) = mem t ->
      registered (svn_fs__record_undo f (mk_trail (db_txn t) (change (mem t)) (undos t))) m.

Lemma registered_restores t m d : registered t m -> snd (abort_trail d t) = m.
Proof.
  induction 1 as [| |t m change f _ IH Hf]; [done|done|]. cbn in *. by rewrite Hf.
Qed.

(** ** The loop *)

(** The tables as the other processes have left them before the attempt [n]. *)
Fixpoint others_upto (n : nat) (d : DB) : DB :=
  match n with O => others 0 d | S n => others (S n) (others_upto n d) end.

(** A failed attempt leaves the memory as it was. *)
Definition body_restores (m : Mem) : Prop :=
  forall k d e t, body k (begin_trail d m) = (Err e, t) -> run_undos undo_on_failure (undos t) (mem t) = m.

Definition deadlocks (k : nat) (d : DB) (m : Mem) : Prop :=
  exists t, body k (begin_trail d m) = (Err deadlock, t).

Lemma retry_loop k d m fuel n :
  body_restores m ->
  (forall j, (k <= j < k + n)%nat -> deadlocks j (others_upto j d) m) ->
  forall d0, others k d0 = others_upto k d -> (n < fuel)%nat ->
  exists fuel' d', (0 < fuel')%nat /\ others (k + n) d' = others_upto (k + n) d /\
    svn_fs__retry_txn fuel k d0 m = svn_fs__retry_txn fuel' (k + n) d' m.
Proof.
  intros Hr. revert k fuel. induction n as [|n IH]; intros k fuel Hd d0 E Hf.
  - exists fuel, d0. rewrite Nat.add_0_r. by split_and!.
  - destruct fuel as [|fuel]; [lia|]. destruct (Hd k ltac:(lia)) as [t Ht].
    cbn [svn_fs__retry_txn]. rewrite E, Ht. rewrite decide_True by done. cbn [abort_trail].
    rewrite (Hr k _ _ t Ht). rewrite <- plus_n_Sm. apply (IH (S k) fuel); [|done|lia].
    intros j Hj. apply Hd. lia.
Qed.

(** ** Properties *)

(** C25. [svn_fs__retry_txn] ends as soon as some attempt does not deadlock.  That
    attempt starts from the memory the caller had and from the tables as the other
    processes have left them, whatever the deadlocked attempts did; when it
    succeeds its changes of the tables are kept, and when it fails the tables and
    the memory are those it started from. *)
Theorem retry_txn_correct d m n fuel :
  body_restores m ->
  (forall j, (j < n)%nat -> deadlocks j (others_upto j d) m) ->
  ~ deadlocks n (others_upto n d) m -> (n < fuel)%nat ->
  let '(r, t) := body n (begin_trail (others_upto n d) m) in
  svn_fs__retry_txn fuel 0 d m = Some
    match r with
    | Ok a => (Ok a, (db_txn t, run_undos undo_on_success (undos t) (mem t)))
    | _ => (r, (others_upto n d, m))
    end.
Proof.
  intros Hr Hd Hn Hf.
  destruct (retry_loop 0 d m fuel n Hr) with (d0 := d) as (fuel' & d' & Hpos & E & ->); [|done|done|].
  { intros j Hj. apply Hd. lia. }
  destruct fuel' as [|fuel']; [lia|]. cbn [svn_fs__retry_txn]. rewrite Nat.add_0_l in *. rewrite E.
  destruct (body n _) as [r t] eqn:Eb. destruct r as [a|e| |]; try done.
  rewrite decide_False by (intros ->; by destruct Hn; exists t).
  unfold abort_trail. by rewrite (Hr n _ _ t Eb).
Qed.

(** C26. Undo actions run in the reverse order of the changes: when every change of
    the memory made in a trail is registered with an action that reverts it,
    aborting the trail restores the memory. *)
Theorem abort_restores d t m : registered t m -> abort_trail d t = (d, m).
Proof. intros H. rewrite <- (registered_restores t m d H). done. Qed.
End trail.

(** ** Witnesses *)

(** A counter is stored on the third attempt; the memory counts the attempts, and
    an undo action takes the increment back. *)
Definition sample_body (k : nat) (t : trail_t (DB := Z) (Mem := Z)) :
    outcome Z * trail_t (DB := Z) (Mem := Z) :=
  let t := svn_fs__record_undo (λ m, m - 1) (mk_trail (db_txn t + 10) (mem t + 1) (undos t)) in
  if (k <? 2)%nat then (Err deadlock, t) else (Ok (db_txn t), t).

Lemma retry_txn_correct_witness :
  svn_fs__retry_txn sample_body (λ k d, d + Z.of_nat k) 5 0 100 7 = Some (Ok 113, (113, 8)).
Proof.
  apply (retry_txn_correct sample_body (λ k d, d + Z.of_nat k) 100 7 2 5).
  - intros k d e t. unfold sample_body. destruct (k <? 2)%nat; intros [= <- <-]. cbn. lia.
  - intros [|[|j]] Hj; [by eexists|by eexists|lia].
  - intros [t Ht]. discriminate Ht.
  - lia.
Defined.

Lemma abort_restores_witness :
  abort_trail 5 (svn_fs__record_undo (λ m, m - 1)
    (mk_trail 9 (3 + 1) (undos (svn_fs__record_undo (λ m, m / 3) (mk_trail 9 (1 * 3) []))))) = (5, 1).
Proof.
  apply (abort_restores 5).
  apply (reg_change (svn_fs__record_undo (λ m, m / 3) (mk_trail 9 (1 * 3) [])) 1 (λ m, m + 1)).
  - apply (reg_change (begin_trail 9 1) 1 (λ m, m * 3)); [apply reg_begin|done].
  - cbn. lia.
Defined.
