(* ===== verification/KeyGen.v ===== *)
(** * Sizes and table keys ([libsvn_fs/key-gen.c])

    Reading and writing the decimal sizes embedded in skels and node ids
    ([svn_fs__getsize], [svn_fs__putsize]), and the base-36 keys of the
    [representations] and [strings] tables ([svn_fs__next_key]). *)

From S2P Require Import Prelude.

(** ** Text to numbers *)

(** ['0' <= c && c <= '9'], on a plain [char]. *)
Definition is_digit (c : byte) : bool := (48 <=? bsz c) && (bsz c <=? 57).

(** The loop of [svn_fs__getsize].  [None]: the overflow exit, which sets
    [*endptr] to 0; [Some (i, value)]: the loop ended at index [i]. *)
Fixpoint getsize_loop (max_prefix max_digit : Z) (data : bytes) (i : nat)
    (value : Z) : option (nat * Z) :=
  match data with
  | c :: data' =>
      if is_digit c then
        let digit := bsz c - 48 in
        if (max_prefix <? value) || ((value =? max_prefix) && (max_digit <? digit))
        then None
        else getsize_loop max_prefix max_digit data' (S i)
               (size_t (size_t (value * 10) + digit))
      else Some (i, value)
  | [] => Some (i, value)
  end.

(** [svn_fs__getsize (data, len, &endptr, max)], with [data] the [len] bytes.
    [None]: returns 0 with [*endptr = 0]; [Some (v, i)]: returns [v] with
    [*endptr = data + i]. *)
Definition svn_fs__getsize (data : bytes) (max : Z) : option (Z * nat) :=
  match getsize_loop (max / 10) (max mod 10) data 0 0 with
  | None => None
  | Some (O, _) => None
  | Some (i, value) => Some (value, i)
  end.

(** ** Numbers to text *)

(** The [do ... while] loop of [svn_fs__putsize]: digits least significant
    first, [room] being the space left in the buffer. *)
Fixpoint putsize_loop (room : nat) (value : Z) : option bytes :=
  match room with
  | O => None
  | S room =>
      let c := zb (value mod 10 + 48) in
      let value := value / 10 in
      if 0 <? value then cons c <$> putsize_loop room value else Some [c]
  end.

(** The loop that exchanges [data[left]] and [data[right]] while
    [left < right]; [n] bounds the number of iterations. *)
Fixpoint putsize_swap (n : nat) (data : bytes) (left right : nat) : bytes :=
  match n with
  | O => data
  | S n =>
      if (left <? right)%nat then
        let t := data !!! left in
        putsize_swap n (<[right := t]> (<[left := data !!! right]> data))
          (S left) (right - 1)
      else data
  end.

(** [svn_fs__putsize (data, len, value)]: [None] when it returns 0, otherwise
    the bytes stored, whose number it returns. *)
Definition svn_fs__putsize (len : nat) (value : Z) : option bytes :=
  data ← putsize_loop len value;
  Some (putsize_swap (length data) data 0 (length data - 1)).

(** ** Keys of the [representations] and [strings] tables *)

Definition svn_fs__next_key_key : bytes := bstr "next-key".

Definition is_key_char (c : byte) : bool :=
  ((48 <=? bsz c) && (bsz c <=? 57)) || ((97 <=? bsz c) && (bsz c <=? 122)).

(** The main loop of [svn_fs__next_key], from the last character to the first:
    the digits written to [next] and the carry left, [None] on an invalid
    character. *)
Fixpoint next_key_loop (this : bytes) : option (bytes * bool) :=
  match this with
  | [] => Some ([], true)
  | c :: this' =>
      '(next, carry) ← next_key_loop this';
      if negb (is_key_char c) then None
      else if (carry : bool) then
        if bsz c =? 122 then Some (zb 48 :: next, true)
        else if bsz c =? 57 then Some (zb 97 :: next, false)
        else Some (zb (bsz c + 1) :: next, false)
      else Some (c :: next, false)
  end.

(** [svn_fs__next_key (this, &len, next)]: [None] when it sets [*len] to 0,
    otherwise the new key. *)
Definition svn_fs__next_key (this : bytes) : option bytes :=
  if (1 <? length this)%nat && bool_decide (head this = Some (zb 48)) then None
  else
    '(next, carry) ← next_key_loop this;
    if (carry : bool) then Some (zb 49 :: next) else Some next.

(** ** Sizes *)

Definition dec_digit (c : byte) : Z := bsz c - 48.
Definition dec_val : bytes -> Z := num_val 10 dec_digit.
Definition all_digits (l : bytes) : Prop := Forall (λ c, is_digit c = true) l.

(** The text ends, or goes on with something that is not a digit. *)
Definition no_digit_next (rest : bytes) : Prop :=
  match rest with [] => True | c :: _ => is_digit c = false end.

Lemma is_digit_range c : is_digit c = true <-> 0 <= dec_digit c < 10.
Proof. unfold is_digit, dec_digit. rewrite andb_true_iff, !Z.leb_le. lia. Qed.

Lemma all_digits_ok l : all_digits l -> digits_ok 10 dec_digit l.
Proof. apply Forall_impl. intros c. by rewrite is_digit_range. Qed.

Lemma dec_val_nonneg l : all_digits l -> 0 <= dec_val l.
Proof. intros. apply (num_val_bound 10 dec_digit); [lia|by apply all_digits_ok]. Qed.

Lemma bsz_zb_ascii z : 0 <= z < 128 -> bsz (zb z) = z.
Proof. intros. unfold bsz. rewrite bz_zb_small by lia. bool_case; lia. Qed.

Lemma dec_digit_zb v : dec_digit (zb (v mod 10 + 48)) = v mod 10.
Proof.
  unfold dec_digit. pose proof (Z.mod_pos_bound v 10 ltac:(lia)).
  rewrite bsz_zb_ascii; lia.
Qed.

Lemma is_digit_zb v : is_digit (zb (v mod 10 + 48)) = true.
Proof.
  rewrite is_digit_range, dec_digit_zb. apply Z.mod_pos_bound. lia.
Qed.

(** The overflow test of the loop decides [value * 10 + digit > max] without
    computing the left-hand side, and the unsigned arithmetic never wraps. *)
Lemma getsize_loop_spec max ds rest i v :
  0 <= max < two64 -> all_digits ds -> no_digit_next rest -> 0 <= v <= max ->
  getsize_loop (max / 10) (max mod 10) (ds ++ rest) i v =
    let v' := foldl (λ v c, v * 10 + dec_digit c) v ds in
    if v' <=? max then Some ((i + length ds)%nat, v') else None.
Proof.
  intros Hmax Hds Hrest. revert i v.
  induction Hds as [|c ds Hc Hds IH]; intros i v Hv; simpl.
  - assert (getsize_loop (max / 10) (max mod 10) rest i v = Some (i, v)) as ->.
    { destruct rest as [|c rest]; simpl in *; [done|]. by rewrite Hrest. }
    bool_case; [|lia]. by rewrite Nat.add_0_r.
  - rewrite Hc. apply is_digit_range in Hc as Hr. fold (dec_digit c).
    pose proof (Z.div_mod max 10 ltac:(lia)) as Hdm.
    pose proof (Z.mod_pos_bound max 10 ltac:(lia)) as Hmb.
    destruct (Z.ltb_spec (max / 10) v); simpl.
    + rewrite num_val_acc by lia. bool_case; [|done].
      pose proof (num_val_bound 10 dec_digit ltac:(lia) ds (all_digits_ok _ Hds)).
      pose proof (pow_base_pos 10 ltac:(lia) (length ds)). nia.
    + assert (0 <= v * 10 < two64) by (unfold two64 in *; lia).
      destruct (Z.eqb_spec v (max / 10)), (Z.ltb_spec (max mod 10) (dec_digit c));
        simpl.
      1: { rewrite num_val_acc by lia. bool_case; [|done].
        pose proof (num_val_bound 10 dec_digit ltac:(lia) ds (all_digits_ok _ Hds)).
        pose proof (pow_base_pos 10 ltac:(lia) (length ds)). nia. }
      all: rewrite !size_t_small by (rewrite ?size_t_small; lia).
      all: rewrite IH by lia; simpl.
      all: by rewrite Nat.add_succ_r.
Qed.

(** *** [svn_fs__putsize] *)

Lemma putsize_loop_spec room v l :
  0 <= v -> putsize_loop room v = Some l ->
  all_digits l /\ dec_val (reverse l) = v /\ (length l <= room)%nat /\
  (1 <= length l)%nat /\ (v <> 0 -> list.last l <> Some (zb 48)) /\
  (v = 0 -> l = [zb 48]).
Proof.
  revert v l. induction room as [|room IH]; intros v l Hv Hl; simpl in Hl; [done|].
  pose proof (Z.div_mod v 10 ltac:(lia)).
  pose proof (Z.mod_pos_bound v 10 ltac:(lia)).
  bool_case_in Hl.
  - destruct (putsize_loop room (v / 10)) as [l'|] eqn:E; simplify_eq/=.
    apply IH in E as (Hd & Hval & Hlen & Hlen1 & Hlast & _); [|lia].
    split_and!.
    + constructor; [apply is_digit_zb|done].
    + rewrite reverse_cons. unfold dec_val in *.
      rewrite num_val_snoc, Hval, dec_digit_zb. lia.
    + lia.
    + lia.
    + intros _. destruct l' as [|c l']; simpl in *; [lia|]. apply Hlast. lia.
    + lia.
  - simplify_eq. assert (v / 10 = 0) by lia. split_and!; simpl; try lia.
    + constructor; [apply is_digit_zb|done].
    + unfold dec_val, num_val. simpl. rewrite dec_digit_zb. lia.
    + intros Hnz Heq. injection Heq as Heq. apply (f_equal bsz) in Heq.
      rewrite !bsz_zb_ascii in Heq by lia. lia.
    + intros ->. done.
Qed.

Lemma putsize_loop_fits room v :
  0 <= v -> is_Some (putsize_loop room v) <-> (v < 10 ^ Z.of_nat room /\ room <> O).
Proof.
  revert v. induction room as [|room IH]; intros v Hv; simpl putsize_loop.
  { split; [by intros [? ?]|]. simpl. lia. }
  rewrite Nat2Z.inj_succ, Z.pow_succ_r by lia.
  pose proof (pow_base_pos 10 ltac:(lia) room).
  pose proof (Z.div_mod v 10 ltac:(lia)).
  pose proof (Z.mod_pos_bound v 10 ltac:(lia)).
  bool_case.
  - rewrite fmap_is_Some, IH by lia.
    destruct room as [|room]; [simpl; lia|]. split; intros; lia.
  - split; [lia|]. intros _. by eexists.
Qed.

(** The exchange loop reverses the part of the buffer it covers. *)
Lemma putsize_swap_lookup n data left right i :
  (left + right + 1 = length data)%nat -> (right - left <= n)%nat ->
  putsize_swap n data left right !! i =
    if (left <=? i)%nat && (i <=? right)%nat then data !! (length data - 1 - i)%nat
    else data !! i.
Proof.
  revert data left right. induction n as [|n IH]; intros data left right Hlen Hn; simpl.
  - destruct (Nat.leb_spec left i), (Nat.leb_spec i right); simpl; try done.
    f_equal. lia.
  - destruct (Nat.ltb_spec left right) as [Hlr|Hlr].
    2: { destruct (Nat.leb_spec left i), (Nat.leb_spec i right); simpl; try done.
         f_equal. lia. }
    destruct (lookup_lt_is_Some_2 data left ltac:(lia)) as [a Ha].
    destruct (lookup_lt_is_Some_2 data right ltac:(lia)) as [b Hb].
    rewrite (list_lookup_total_correct _ _ _ Ha), (list_lookup_total_correct _ _ _ Hb).
    rewrite IH by (rewrite ?length_insert; lia). rewrite !length_insert.
    destruct (decide (i = left)) as [->|];
      [|destruct (decide (i = right)) as [->|]].
    + replace (length data - 1 - left)%nat with right by lia.
      destruct (Nat.leb_spec (S left) left); [lia|]; simpl.
      rewrite Nat.leb_refl, (proj2 (Nat.leb_le left right)) by lia. simpl.
      rewrite list_lookup_insert_ne, list_lookup_insert_eq by lia. done.
    + replace (length data - 1 - right)%nat with left by lia.
      destruct (Nat.leb_spec right (right - 1)); [lia|]; rewrite andb_false_r.
      rewrite Nat.leb_refl, (proj2 (Nat.leb_le left right)) by lia. simpl.
      rewrite list_lookup_insert_eq by (rewrite length_insert; lia). done.
    + destruct (Nat.leb_spec (S left) i), (Nat.leb_spec i (right - 1)); simpl.
      1: rewrite (proj2 (Nat.leb_le left i)), (proj2 (Nat.leb_le i right)) by lia; simpl.
      all: try (rewrite !list_lookup_insert_ne by lia).
      1: done.
      all: destruct (Nat.leb_spec left i), (Nat.leb_spec i right); simpl;
        try lia; done.
Qed.

Lemma putsize_swap_reverse data :
  putsize_swap (length data) data 0 (length data - 1) = reverse data.
Proof.
  apply list_eq. intros i. destruct data as [|c data]; [done|].
  rewrite putsize_swap_lookup by (simpl; lia). simpl (0 <=? i)%nat.
  rewrite andb_true_l. destruct (Nat.leb_spec i (length (c :: data) - 1)).
  - rewrite reverse_lookup by (simpl in *; lia). f_equal. lia.
  - rewrite !lookup_ge_None_2; try done.
    + rewrite length_reverse. lia.
    + simpl in *. lia.
Qed.

(** The stored bytes are the canonical decimal representation. *)
Lemma putsize_spec len v :
  0 <= v ->
  match svn_fs__putsize len v with
  | Some ds => all_digits ds /\ dec_val ds = v /\ (1 <= length ds <= len)%nat /\
               (head ds = Some (zb 48) -> ds = [zb 48])
  | None => 10 ^ Z.of_nat len <= v \/ len = O
  end.
Proof.
  intros Hv. unfold svn_fs__putsize.
  pose proof (putsize_loop_fits len v Hv) as Hfit.
  destruct (putsize_loop len v) as [l|] eqn:E; simpl.
  - rewrite putsize_swap_reverse.
    apply putsize_loop_spec in E as (Hd & Hval & Hlen & Hlen1 & Hlast & Hz); [|done].
    rewrite length_reverse. split_and!; try done.
    + by apply Forall_reverse.
    + intros Hh. destruct (decide (v = 0)) as [E0|E0].
      * by rewrite (Hz E0).
      * destruct (Hlast E0). by rewrite head_reverse in Hh.
  - destruct (decide (len = O)); [by right|]. left.
    destruct (Z.le_gt_cases (10 ^ Z.of_nat len) v); [done|].
    destruct (proj2 Hfit); [split; [lia|done]|]. done.
Qed.

Lemma putsize_Some len v ds :
  0 <= v -> svn_fs__putsize len v = Some ds ->
  all_digits ds /\ dec_val ds = v /\ (1 <= length ds)%nat.
Proof.
  intros Hv Hp. pose proof (putsize_spec len v Hv) as H. rewrite Hp in H.
  destruct H as (? & ? & ? & ?). done || (split_and!; done || lia).
Qed.

Lemma two64_lt_pow10 : two64 < 10 ^ Z.of_nat 200.
Proof. apply Z.ltb_lt. vm_compute. reflexivity. Qed.

(** A 200-byte buffer, the one every caller uses, is large enough for any
    [apr_size_t]. *)
Lemma putsize_200 v : 0 <= v < two64 -> is_Some (svn_fs__putsize 200 v).
Proof.
  intros Hv. pose proof (putsize_spec 200 v ltac:(lia)) as H.
  destruct (svn_fs__putsize 200 v); [by eexists|]. exfalso.
  destruct H as [H|H]; [|discriminate H]. apply (Z.lt_irrefl v).
  apply (Z.lt_trans _ two64); [apply Hv|].
  exact (Z.lt_le_trans _ _ _ two64_lt_pow10 H).
Qed.

(** The decimal digits of a number. *)
Definition dec_text (n : Z) : bytes := default [] (svn_fs__putsize 200 n).

Lemma dec_text_spec n : 0 <= n < two64 -> all_digits (dec_text n) /\ dec_val (dec_text n) = n /\ (1 <= length (dec_text n))%nat.
Proof.
  intros Hn. unfold dec_text. destruct (putsize_200 n Hn) as [ds E]. rewrite E.
  apply (putsize_Some 200 n ds); [lia|done].
Qed.

Lemma digits_no_nul s : all_digits s -> no_nul s.
Proof. intros H. refine (Forall_impl _ _ H). intros c Hc ->. vm_compute in Hc. discriminate Hc. Qed.

Lemma getsize_of_putsize len v ds rest max :
  0 <= v <= max -> max < two64 -> no_digit_next rest ->
  svn_fs__putsize len v = Some ds ->
  svn_fs__getsize (ds ++ rest) max = Some (v, length ds).
Proof.
  intros Hv Hmax Hrest Hp. apply putsize_Some in Hp as (Hd & Hval & Hlen); [|lia].
  unfold svn_fs__getsize. rewrite getsize_loop_spec by (done || lia). simpl.
  fold (num_val 10 dec_digit ds). fold (dec_val ds). rewrite Hval.
  bool_case; [|lia]. destruct ds; [simpl in Hlen; lia|done].
Qed.

(** The number of digits written is the least possible. *)
Lemma putsize_length len v ds k :
  0 <= v < 10 ^ Z.of_nat k -> (1 <= k)%nat -> svn_fs__putsize len v = Some ds ->
  (length ds <= k)%nat.
Proof.
  intros Hv Hk Hp. pose proof (putsize_spec len v ltac:(lia)) as H. rewrite Hp in H.
  destruct H as (Hd & Hval & Hlen & Hhd). destruct ds as [|c ds]; [simpl; lia|].
  destruct (decide (c = zb 48)) as [->|Hc].
  { rewrite (Hhd eq_refl). done. }
  apply Forall_cons_iff in Hd as [Hc' Hd]. apply is_digit_range in Hc'.
  assert (dec_digit c <> 0).
  { unfold dec_digit. intros E. apply Hc. unfold bsz in E. pose proof (bz_range c).
    rewrite <- (zb_bz c). f_equal. bool_case_in E; lia. }
  pose proof (num_val_lower 10 dec_digit ltac:(lia) c ds ltac:(lia) (all_digits_ok _ Hd))
    as Hlow.
  fold (dec_val (c :: ds)) in Hlow. rewrite Hval in Hlow.
  assert (10 ^ Z.of_nat (length ds) < 10 ^ Z.of_nat k) as Hpow by lia.
  apply Z.pow_lt_mono_r_iff in Hpow; simpl; lia.
Qed.

(** ** Table keys *)

Definition key_digit (c : byte) : Z := if bsz c <=? 57 then bsz c - 48 else bsz c - 87.

(** Keys as base-36 numerals. *)
Definition key_val : bytes -> Z := num_val 36 key_digit.

(** A well-formed key: digits and lower-case letters, no leading zero except
    in ["0"]. *)
Definition valid_key (k : bytes) : Prop :=
  k <> [] /\ Forall (λ c, is_key_char c = true) k /\
  (head k = Some (zb 48) -> k = [zb 48]).

Lemma key_char_range c :
  is_key_char c = true <->
  0 <= key_digit c < 36 /\ (48 <= bsz c <= 57 \/ 97 <= bsz c <= 122).
Proof.
  unfold is_key_char, key_digit. rewrite orb_true_iff, !andb_true_iff, !Z.leb_le.
  bool_case; lia.
Qed.

Lemma bsz_eq c d : bsz c = bsz d -> c = d.
Proof.
  unfold bsz. pose proof (bz_range c). pose proof (bz_range d).
  repeat bool_case; intros; apply bz_inj; lia.
Qed.

Lemma key_chars_ok l :
  Forall (λ c, is_key_char c = true) l -> digits_ok 36 key_digit l.
Proof. apply Forall_impl. intros c. rewrite key_char_range. lia. Qed.

(** The loop adds the incoming carry: the carry out is the overflow of the
    36^n range. *)
Lemma next_key_loop_spec k :
  Forall (λ c, is_key_char c = true) k ->
  exists next carry, next_key_loop k = Some (next, carry) /\
    length next = length k /\ Forall (λ c, is_key_char c = true) next /\
    key_val next + (if carry then 36 ^ Z.of_nat (length k) else 0) = key_val k + 1 /\
    (forall c c', head k = Some c -> head next = Some c' -> carry = false ->
       bsz c <> 48 -> bsz c' <> 48).
Proof.
  induction 1 as [|c k Hc Hk IH]; simpl next_key_loop.
  { exists [], true. split_and!; done. }
  destruct IH as (next & carry & -> & Hlen & Hok & Hval & _). cbn [mbind option_bind].
  rewrite Hc. simpl negb. cbv iota. unfold key_val in *.
  apply key_char_range in Hc as Hr. simpl length.
  rewrite Nat2Z.inj_succ, Z.pow_succ_r by lia.
  assert (forall z, 48 <= z <= 57 \/ 97 <= z <= 122 ->
    is_key_char (zb z) = true /\ key_digit (zb z) = if z <=? 57 then z - 48 else z - 87)
    as Hzb.
  { intros z Hz. unfold is_key_char, key_digit. rewrite bsz_zb_ascii by lia.
    rewrite orb_true_iff, !andb_true_iff, !Z.leb_le. split; [lia|done]. }
  assert (key_digit c = if bsz c <=? 57 then bsz c - 48 else bsz c - 87) as Hkd
    by done.
  destruct carry; cbv iota in Hval |- *.
  - destruct (Z.eqb_spec (bsz c) 122); [|destruct (Z.eqb_spec (bsz c) 57)].
    + destruct (Hzb 48 ltac:(lia)) as [Hz1 Hz2]. eexists _, true. split; [done|].
      split_and!; [simpl; lia|by constructor| |done].
      rewrite !num_val_cons, Hz2, Hlen by lia. change (48 <=? 57) with true. cbv iota.
      rewrite Hkd. bool_case; lia.
    + destruct (Hzb 97 ltac:(lia)) as [Hz1 Hz2]. eexists _, false. split; [done|].
      split_and!; [simpl; lia|by constructor| |].
      * rewrite !num_val_cons, Hz2, Hlen by lia. change (97 <=? 57) with false. cbv iota.
        rewrite Hkd. bool_case; lia.
      * intros ? ? [= <-] [= <-] _ _. by rewrite bsz_zb_ascii.
    + destruct (Hzb (bsz c + 1) ltac:(lia)) as [Hz1 Hz2]. eexists _, false.
      split; [done|]. split_and!; [simpl; lia|by constructor| |].
      * rewrite !num_val_cons, Hz2, Hlen by lia. rewrite Hkd.
        repeat bool_case; lia.
      * intros ? ? [= <-] [= <-] _ _. rewrite bsz_zb_ascii; lia.
  - eexists _, false. split; [done|].
    split_and!; [simpl; lia|constructor; [by apply key_char_range|done]| |].
    + rewrite !num_val_cons, Hlen by lia. lia.
    + intros ? ? [= <-] [= <-]. done.
Qed.

Lemma next_key_loop_None k :
  next_key_loop k = None <-> ~ Forall (λ c, is_key_char c = true) k.
Proof.
  split.
  - intros Hn Hk. apply next_key_loop_spec in Hk as (? & ? & Hk & _). congruence.
  - induction k as [|c k IH]; intros Hk; [destruct Hk; constructor|]. simpl.
    destruct (next_key_loop k) as [[next carry]|] eqn:E; [|done]. simpl.
    destruct (is_key_char c) eqn:Ec; [|done]. destruct Hk. constructor; [done|].
    destruct (decide (Forall (λ c, is_key_char c = true) k)) as [|n]; [done|].
    specialize (IH n). done.
Qed.

Lemma next_key_valid k :
  valid_key k ->
  exists k', svn_fs__next_key k = Some k' /\ valid_key k' /\
    key_val k' = key_val k + 1 /\
    (length k' = length k \/ length k' = S (length k)).
Proof.
  intros (Hne & Hk & Hlead). unfold svn_fs__next_key.
  assert ((1 <? length k)%nat && bool_decide (head k = Some (zb 48)) = false) as ->.
  { apply andb_false_iff. destruct (decide (head k = Some (zb 48))) as [E|E].
    - left. by rewrite (Hlead E).
    - right. by apply bool_decide_eq_false_2. }
  destruct (next_key_loop_spec k Hk) as (next & carry & -> & Hlen & Hok & Hval & Hhd).
  cbn [mbind option_bind]. destruct carry.
  - eexists. split; [done|]. split_and!; [split_and!| |right; simpl; lia].
    + done.
    + by constructor.
    + intros [= E].
    + unfold key_val in *. rewrite num_val_cons, Hlen by lia.
      change (key_digit (zb 49)) with 1. lia.
  - eexists. split; [done|]. split_and!; [split_and!| |left; done].
    + destruct next; destruct k; done.
    + done.
    + destruct k as [|c k]; [done|]. destruct next as [|c' next]; [done|].
      intros [= ->]. destruct (decide (bsz c = 48)) as [E|E].
      * assert (c = zb 48) as -> by (by apply bsz_eq).
        rewrite (Hlead eq_refl) in *. injection (Hlead eq_refl) as ->.
        destruct next; [|done]. done.
      * by destruct (Hhd c (zb 48) eq_refl eq_refl eq_refl E).
    + unfold key_val in *. lia.
Qed.

(** A key of more than one character has no leading zero. *)
Lemma key_val_lower (c : byte) (k : bytes) :
  valid_key (c :: k) -> k <> [] -> 36 ^ Z.of_nat (length k) <= key_val (c :: k).
Proof.
  intros (_ & Hk & Hlead) Hne. apply Forall_cons_iff in Hk as [Hc Hk]. apply key_char_range in Hc.
  apply (num_val_lower 36 key_digit ltac:(lia) c k); [|by apply key_chars_ok].
  destruct (decide (c = zb 48)) as [->|Hc0].
  - injection (Hlead eq_refl) as ->. done.
  - assert (bsz c <> 48) by (intros E; by apply Hc0, bsz_eq).
    unfold key_digit in *. repeat bool_case; lia.
Qed.

(** Small keys are short. *)
Lemma key_val_short (k : bytes) (n : nat) :
  valid_key k -> (1 <= n)%nat -> key_val k < 36 ^ Z.of_nat n -> (length k <= n)%nat.
Proof.
  intros Hk Hn Hlt. destruct k as [|c [|d k]]; simpl; [lia|lia|].
  pose proof (key_val_lower c (d :: k) Hk ltac:(done)) as Hl.
  assert (36 ^ Z.of_nat (length (d :: k)) < 36 ^ Z.of_nat n) as Hp by lia.
  apply Z.pow_lt_mono_r_iff in Hp; simpl in *; lia.
Qed.

Lemma key_val_inj k1 k2 :
  valid_key k1 -> valid_key k2 -> key_val k1 = key_val k2 -> k1 = k2.
Proof.
  assert (forall l1 l2, valid_key l1 -> valid_key l2 ->
    (length l1 < length l2)%nat -> key_val l1 < key_val l2) as Hlt.
  { intros l1 [|c l2] (Hn1 & Hk1 & Hl1) H2 Hlen; [simpl in Hlen; lia|].
    pose proof (num_val_bound 36 key_digit ltac:(lia) l1 (key_chars_ok _ Hk1)) as B.
    assert (l2 <> []) as Hne by (intros ->; destruct l1 as [|? l1]; [by apply Hn1|simpl in Hlen; lia]).
    pose proof (key_val_lower c l2 H2 Hne).
    pose proof (Z.pow_le_mono_r 36 (Z.of_nat (length l1)) (Z.of_nat (length l2))
      ltac:(lia) ltac:(simpl in Hlen; lia)).
    unfold key_val in *. lia. }
  intros H1 H2 Hv.
  destruct (Nat.lt_trichotomy (length k1) (length k2)) as [H|[H|H]].
  - specialize (Hlt _ _ H1 H2 H). lia.
  - apply (num_val_inj 36 key_digit ltac:(lia) (λ c, is_key_char c = true)).
    + intros c Hc. by apply key_char_range.
    + intros c d Hc Hd. apply key_char_range in Hc, Hd. intros E. apply bsz_eq.
      unfold key_digit in E. repeat bool_case_in E; lia.
    + done.
    + apply H1.
    + apply H2.
    + done.
  - specialize (Hlt _ _ H2 H1 H). lia.
Qed.

(** The keys handed out by successive allocations, starting from [k]. *)
Fixpoint next_keys (n : nat) (k : bytes) : option bytes :=
  match n with
  | O => Some k
  | S n => next_keys n k ≫= svn_fs__next_key
  end.

Lemma next_keys_val n k :
  valid_key k ->
  exists k', next_keys n k = Some k' /\ valid_key k' /\ key_val k' = key_val k + Z.of_nat n.
Proof.
  intros Hk. induction n as [|n (k' & E & Hk' & Hv)]; simpl.
  - exists k. split_and!; [done..|lia].
  - rewrite E. simpl. destruct (next_key_valid k' Hk') as (k'' & E' & ? & ? & _).
    exists k''. split_and!; [done..|lia].
Qed.

(** ** Properties *)

(** [svn_fs__getsize] on any input, split into its digits and the rest:
    it fails when there is no digit, returns the exact decimal value and the
    number of digits read when the value is at most [max], and reports the
    overflow otherwise; no intermediate 64-bit product wraps. *)
Theorem getsize_correct ds rest max :
  0 <= max < two64 -> all_digits ds -> no_digit_next rest ->
  svn_fs__getsize (ds ++ rest) max =
    if bool_decide (ds = []) then None
    else if dec_val ds <=? max then Some (dec_val ds, length ds) else None.
Proof.
  intros Hmax Hds Hrest. unfold svn_fs__getsize.
  rewrite getsize_loop_spec by (done || lia). simpl. fold (num_val 10 dec_digit ds).
  fold (dec_val ds). destruct ds as [|c ds].
  - unfold dec_val, num_val. simpl. by bool_case.
  - rewrite bool_decide_eq_false_2 by done. by bool_case.
Qed.

(** [svn_fs__putsize] returns 0 exactly when the decimal form of the value
    does not fit in the buffer; otherwise it stores the canonical decimal
    representation (digits only, no leading zero but for [0] itself), of at
    least one digit. *)
Theorem putsize_correct len v :
  0 <= v ->
  match svn_fs__putsize len v with
  | Some ds => all_digits ds /\ dec_val ds = v /\ (1 <= length ds <= len)%nat /\
               (head ds = Some (zb 48) -> ds = [zb 48])
  | None => 10 ^ Z.of_nat len <= v \/ len = O
  end.
Proof. apply putsize_spec. Qed.

(** Round trip: reading back what [svn_fs__putsize] wrote gives the value
    and the position just after the digits, whatever non-digit text follows,
    for every limit [max] that admits the value. *)
Theorem getsize_putsize len v ds rest max :
  0 <= v <= max -> max < two64 -> no_digit_next rest ->
  svn_fs__putsize len v = Some ds ->
  svn_fs__getsize (ds ++ rest) max = Some (v, length ds).
Proof. apply getsize_of_putsize. Qed.

(** [svn_fs__next_key] is the base-36 successor: on a well-formed key it
    returns a well-formed key of value one more, at most one character
    longer. *)
Theorem next_key_succ k :
  valid_key k ->
  exists k', svn_fs__next_key k = Some k' /\ valid_key k' /\
    key_val k' = key_val k + 1 /\
    (length k' = length k \/ length k' = S (length k)).
Proof. apply next_key_valid. Qed.

(** [svn_fs__next_key] sets [*len] to 0 exactly on the non-empty strings
    that are not well-formed keys: a character outside [0-9a-z], or a leading
    zero. *)
Theorem next_key_error k :
  k <> [] -> svn_fs__next_key k = None <-> ~ valid_key k.
Proof.
  intros Hne. split.
  - intros Hn Hk. apply next_key_valid in Hk as (k' & Hk & _). congruence.
  - intros Hk. unfold svn_fs__next_key. destruct (_ && _) eqn:E; [done|].
    assert (next_key_loop k = None) as ->; [|done].
    apply next_key_loop_None. intros Hc. apply Hk. split_and!; [done..|].
    intros Hz. apply andb_false_iff in E as [E|E].
    + apply Nat.ltb_ge in E. destruct k as [|c [|d k]]; simpl in *; [done| |lia].
      congruence.
    + by apply bool_decide_eq_false_1 in E.
Qed.

(** Table keys are never reused: two allocations from the same starting
    key, however many steps apart, yield different keys. *)
Theorem next_key_fresh k i j ki kj :
  valid_key k -> i <> j -> next_keys i k = Some ki -> next_keys j k = Some kj ->
  ki <> kj.
Proof.
  intros Hk Hij Hi Hj ->.
  destruct (next_keys_val i k Hk) as (? & Ei & _ & Vi).
  destruct (next_keys_val j k Hk) as (? & Ej & _ & Vj).
  simplify_eq. lia.
Qed.

(** ** Witnesses *)

Lemma getsize_correct_witness :
  svn_fs__getsize (bstr "502 bytes") 54 = None /\
  svn_fs__getsize (bstr "502 bytes") 1000 = Some (502, 3%nat).
Proof.
  split.
  - apply (getsize_correct (bstr "502") (bstr " bytes") 54).
    + split; [lia|reflexivity].
    + repeat constructor.
    + reflexivity.
  - apply (getsize_correct (bstr "502") (bstr " bytes") 1000).
    + split; [lia|reflexivity].
    + repeat constructor.
    + reflexivity.
Defined.

Lemma putsize_correct_witness :
  match svn_fs__putsize 3 502 with
  | Some ds => all_digits ds /\ dec_val ds = 502 /\ (1 <= length ds <= 3)%nat /\
               (head ds = Some (zb 48) -> ds = [zb 48])
  | None => 10 ^ Z.of_nat 3 <= 502 \/ 3%nat = O
  end.
Proof. apply (putsize_correct 3 502). lia. Defined.

Lemma getsize_putsize_witness :
  svn_fs__getsize (bstr "502" ++ bstr " bytes") 1000 = Some (502, length (bstr "502")).
Proof.
  apply (getsize_putsize 3).
  - lia.
  - reflexivity.
  - reflexivity.
  - reflexivity.
Defined.

Lemma valid_key_az9 : valid_key (bstr "az9").
Proof. split_and!; [discriminate|repeat constructor|discriminate]. Qed.

Lemma next_key_succ_witness :
  exists k', svn_fs__next_key (bstr "az9") = Some k' /\ valid_key k' /\
    key_val k' = key_val (bstr "az9") + 1 /\
    (length k' = length (bstr "az9") \/ length k' = S (length (bstr "az9"))).
Proof. apply (next_key_succ (bstr "az9")). apply valid_key_az9. Defined.

Lemma next_key_error_witness :
  svn_fs__next_key (bstr "007") = None <-> ~ valid_key (bstr "007").
Proof. apply (next_key_error (bstr "007")). discriminate. Defined.

Lemma next_key_fresh_witness : bstr "aza" <> bstr "b00".
Proof.
  apply (next_key_fresh (bstr "az9") 1 27).
  - apply valid_key_az9.
  - lia.
  - reflexivity.
  - reflexivity.
Defined.
