(* ===== verification/Libc.v ===== *)
(** * Conversions of the C library

    What the code uses of [atoi], [atol] and of the integer conversions of
    [sprintf]. *)

From S2P Require Import Prelude KeyGen.

(** ** Reading integers *)

(** [atoi]: white space, a sign, digits; undefined when the value is not an
    [int]. *)
Fixpoint atoi_digits (v : Z) (s : bytes) : Z :=
  match s with
  | c :: s => if is_digit c then atoi_digits (v * 10 + (bz c - 48)) s else v
  | [] => v
  end.

Fixpoint atoi_space (s : bytes) : bytes :=
  match s with
  | c :: s' => if (bz c =? 32) || ((9 <=? bz c) && (bz c <=? 13)) then atoi_space s' else s
  | [] => []
  end.

Definition ato_value (s : bytes) : Z :=
  match atoi_space s with
  | c :: s => if bz c =? 45 then - atoi_digits 0 s
              else if bz c =? 43 then atoi_digits 0 s else atoi_digits 0 (c :: s)
  | [] => 0
  end.

Definition atoi (s : bytes) : outcome Z :=
  let v := ato_value s in if (- 2 ^ 31 <=? v) && (v <? 2 ^ 31) then Ok v else Undef.

(** The same, for a [long]. *)
Definition atol (s : bytes) : outcome Z :=
  let v := ato_value s in if (- two63 <=? v) && (v <? two63) then Ok v else Undef.

(** ** Printing integers *)

(** The digits of a number, at most [n] of them, in front of [acc]. *)
Fixpoint dec_digits (n : nat) (z : Z) (acc : bytes) : bytes :=
  match n with
  | O => acc
  | S n =>
      let acc := zb (z mod 10 + 48) :: acc in
      if z / 10 =? 0 then acc else dec_digits n (z / 10) acc
  end.

Definition minus : byte := zb 45.

(** ["%d"], ["%ld"]: the absolute value of an integer has at most 20 digits. *)
Definition sprintf_d (z : Z) : bytes := if z <? 0 then minus :: dec_digits 20 (- z) [] else dec_digits 20 z [].

(** ["%0<width>d"]: zeros between the sign and the digits. *)
Definition sprintf_0d (width : nat) (z : Z) : bytes :=
  if z <? 0 then let ds := dec_digits 20 (- z) [] in minus :: replicate (width - S (length ds)) (zb 48) ++ ds
  else let ds := dec_digits 20 z [] in replicate (width - length ds) (zb 48) ++ ds.

(** ** [sscanf]

    What is left of the string after a directive; [None] when it does not match. *)

Definition is_space (c : byte) : bool := (bz c =? 32) || ((9 <=? bz c) && (bz c <=? 13)).

Fixpoint skip_space (s : bytes) : bytes :=
  match s with c :: s' => if is_space c then skip_space s' else s | [] => [] end.

(** A character that is not white space. *)
Definition scan_lit (c : byte) (s : bytes) : option bytes :=
  match s with d :: s => if byte_eq_dec c d then Some s else None | [] => None end.

(** A literal: white space in it matches any amount of white space. *)
Fixpoint scan_text (t s : bytes) : option bytes :=
  match t with
  | [] => Some s
  | c :: t => s ← (if is_space c then Some (skip_space s) else scan_lit c s); scan_text t s
  end.

Fixpoint take_word (s : bytes) : bytes * bytes :=
  match s with
  | c :: s' => if is_space c || bool_decide (c = NUL) then ([], s) else let '(w, r) := take_word s' in (c :: w, r)
  | [] => ([], [])
  end.

(** ["%s"]. *)
Definition scan_s (s : bytes) : option (bytes * bytes) :=
  match take_word (skip_space s) with ([], _) => None | wr => Some wr end.

Fixpoint take_digits (width : nat) (s : bytes) : bytes * bytes :=
  match width, s with
  | S width, c :: s' => if is_digit c then let '(w, r) := take_digits width s' in (c :: w, r) else ([], s)
  | _, _ => ([], s)
  end.

(** ["%<width>d"]. *)
Definition scan_d (width : nat) (s : bytes) : option (Z * bytes) :=
  match width, skip_space s with
  | S width', c :: s' =>
      if bz c =? 45 then
        match take_digits width' s' with ([], _) => None | (ds, r) => Some (- atoi_digits 0 ds, r) end
      else if bz c =? 43 then
        match take_digits width' s' with ([], _) => None | (ds, r) => Some (atoi_digits 0 ds, r) end
      else match take_digits width (c :: s') with ([], _) => None | (ds, r) => Some (atoi_digits 0 ds, r) end
  | _, _ => None
  end.

(** ** Lemmas *)

Lemma atoi_digits_val v l : all_digits l -> atoi_digits v l = foldl (λ v c, v * 10 + dec_digit c) v l.
Proof.
  intros H. revert v. induction H as [|c l Hc Hl IH]; intros v; [done|]. cbn [atoi_digits foldl]. rewrite Hc, IH.
  do 2 f_equal. unfold dec_digit. unfold is_digit in Hc. apply andb_true_iff in Hc as [H1%Z.leb_le H2%Z.leb_le].
  pose proof (bz_range c). unfold bsz in *. destruct (Z.leb_spec 128 (bz c)); lia.
Qed.

Lemma is_digit_code c : is_digit c = true -> 48 <= bz c <= 57.
Proof.
  intros Hc. unfold is_digit in Hc. apply andb_true_iff in Hc as [H1%Z.leb_le H2%Z.leb_le].
  pose proof (bz_range c). unfold bsz in *. destruct (Z.leb_spec 128 (bz c)); lia.
Qed.

(** Digits, and what follows them. *)
Lemma atoi_digits_app v l s : all_digits l -> no_digit_next s -> atoi_digits v (l ++ s) = atoi_digits v l.
Proof.
  intros Hl Hs. revert v. induction Hl as [|c l Hc Hl IH]; intros v; cbn [app atoi_digits].
  - destruct s as [|c s]; [done|]. cbn [atoi_digits]. unfold no_digit_next in Hs. by rewrite Hs.
  - rewrite Hc. apply IH.
Qed.

Lemma ato_value_text ds s : all_digits ds -> (1 <= length ds)%nat -> no_digit_next s -> ato_value (ds ++ s) = dec_val ds.
Proof.
  intros Hd Hl Hs. destruct ds as [|c l]; [cbn in Hl; lia|]. unfold ato_value.
  pose proof Hd as Hd'. apply Forall_cons_iff in Hd' as [Hc _]. pose proof (is_digit_code c Hc).
  cbn [app atoi_space]. destruct (Z.eqb_spec (bz c) 32); [lia|]. destruct (Z.leb_spec 9 (bz c)); [|lia].
  destruct (Z.leb_spec (bz c) 13); [lia|]. cbn [andb orb].
  destruct (Z.eqb_spec (bz c) 45); [lia|]. destruct (Z.eqb_spec (bz c) 43); [lia|].
  rewrite app_comm_cons, atoi_digits_app by done. by rewrite atoi_digits_val.
Qed.

Lemma atoi_text ds s n : all_digits ds -> (1 <= length ds)%nat -> dec_val ds = n -> 0 <= n < 2 ^ 31 -> no_digit_next s ->
  atoi (ds ++ s) = Ok n.
Proof.
  intros Hd Hl Hv Hn Hs. unfold atoi. rewrite ato_value_text, Hv by done.
  destruct (Z.leb_spec (- 2 ^ 31) n); [|lia]. destruct (Z.ltb_spec n (2 ^ 31)); [done|lia].
Qed.

Lemma dec_digits_ok n : forall z, 0 <= z < 10 ^ Z.of_nat n -> (1 <= n)%nat -> exists ds,
  (forall acc, dec_digits n z acc = ds ++ acc) /\ all_digits ds /\ dec_val ds = z /\ (1 <= length ds <= n)%nat.
Proof.
  induction n as [|n IH]; intros z Hz Hn; [lia|]. cbn [dec_digits].
  destruct (Z.eqb_spec (z / 10) 0) as [E|E].
  - exists [zb (z mod 10 + 48)]. split; [done|]. split; [by constructor; [apply is_digit_zb|constructor]|].
    split; [|cbn; lia]. unfold dec_val, num_val. cbn. rewrite dec_digit_zb. Z.div_mod_to_equations. lia.
  - rewrite Nat2Z.inj_succ, Z.pow_succ_r in Hz by lia. assert (0 <= z / 10 < 10 ^ Z.of_nat n) as Hz'.
    { Z.div_mod_to_equations. lia. }
    destruct n as [|n]; [cbn in Hz'; lia|].
    destruct (IH (z / 10) Hz') as (ds & Ed & Hds & Hv & Hl); [lia|]. exists (ds ++ [zb (z mod 10 + 48)]). split; [|split; [|split]].
    + intros acc. by rewrite Ed, <- app_assoc.
    + apply Forall_app. split; [done|]. by constructor; [apply is_digit_zb|constructor].
    + unfold dec_val in *. rewrite num_val_snoc, Hv, dec_digit_zb. Z.div_mod_to_equations. lia.
    + rewrite length_app. cbn. lia.
Qed.

(** A number that is not negative, printed. *)
Lemma sprintf_d_ok z : 0 <= z < two64 -> all_digits (sprintf_d z) /\ dec_val (sprintf_d z) = z /\
  (1 <= length (sprintf_d z) <= 20)%nat.
Proof.
  intros Hz. unfold sprintf_d. destruct (Z.ltb_spec z 0); [lia|].
  destruct (dec_digits_ok 20 z) as (ds & -> & Hd & Hv & Hl); [unfold two64 in Hz; cbn; lia|lia|]. by rewrite app_nil_r.
Qed.

(** ** Printed numbers are read back *)

Lemma dec_digits_short n : forall z k acc, 0 <= z < 10 ^ Z.of_nat k -> (1 <= k)%nat ->
  (length (dec_digits n z acc) <= k + length acc)%nat.
Proof.
  induction n as [|n IH]; intros z k acc Hz Hk; cbn [dec_digits]; [lia|].
  destruct (Z.eqb_spec (z / 10) 0) as [E|E]; [cbn [length]; lia|]. destruct k as [|[|k]]; [lia| |].
  - change (10 ^ Z.of_nat 1) with 10 in Hz. rewrite Z.div_small in E by lia. done.
  - rewrite (Nat2Z.inj_succ (S k)), Z.pow_succ_r in Hz by lia.
    assert (0 <= z / 10 < 10 ^ Z.of_nat (S k)) as Hz' by (Z.div_mod_to_equations; lia).
    pose proof (IH (z / 10) (S k) (zb (z mod 10 + 48) :: acc) Hz' ltac:(lia)) as H. cbn [length] in H. lia.
Qed.

Lemma all_digits_zeros n : all_digits (replicate n (zb 48)).
Proof. apply Forall_replicate. done. Qed.

Lemma dec_val_zeros n ds : dec_val (replicate n (zb 48) ++ ds) = dec_val ds.
Proof.
  induction n as [|n IH]; [done|]. cbn [replicate app]. unfold dec_val in *. rewrite num_val_cons by lia.
  by rewrite IH.
Qed.

(** A number with so many digits exactly. *)
Lemma sprintf_0d_ok k z : 0 <= z < 10 ^ Z.of_nat k -> (1 <= k <= 19)%nat ->
  all_digits (sprintf_0d k z) /\ dec_val (sprintf_0d k z) = z /\ length (sprintf_0d k z) = k.
Proof.
  intros Hz Hk. unfold sprintf_0d. destruct (Z.ltb_spec z 0); [lia|].
  assert (z < 10 ^ Z.of_nat 20) by (pose proof (Z.pow_le_mono_r 10 (Z.of_nat k) (Z.of_nat 20)); lia).
  destruct (dec_digits_ok 20 z) as (ds & Ed & Hd & Hv & Hl); [lia|lia|].
  pose proof (dec_digits_short 20 z k [] Hz ltac:(lia)) as Hs. rewrite Ed, app_nil_r in Hs |- *. cbn [length] in Hs.
  split; [apply Forall_app; split; [apply all_digits_zeros|done]|]. split; [by rewrite dec_val_zeros|].
  rewrite length_app, length_replicate. lia.
Qed.

Lemma sprintf_0d_neg k z : - 10 ^ Z.of_nat k < z < 0 -> (1 <= k <= 18)%nat -> exists ds,
  sprintf_0d (S k) z = minus :: ds /\ all_digits ds /\ dec_val ds = - z /\ length ds = k.
Proof.
  intros Hz Hk. unfold sprintf_0d. destruct (Z.ltb_spec z 0); [|lia].
  assert (- z < 10 ^ Z.of_nat 20) by (pose proof (Z.pow_le_mono_r 10 (Z.of_nat k) (Z.of_nat 20)); lia).
  destruct (dec_digits_ok 20 (- z)) as (ds & Ed & Hd & Hv & Hl); [lia|lia|].
  pose proof (dec_digits_short 20 (- z) k [] ltac:(lia) ltac:(lia)) as Hs. rewrite Ed, app_nil_r in Hs |- *. cbn [length] in Hs.
  eexists. split; [done|]. split; [apply Forall_app; split; [apply all_digits_zeros|done]|]. split; [by rewrite dec_val_zeros|].
  rewrite length_app, length_replicate. lia.
Qed.

Lemma take_digits_ok ds : forall w r, all_digits ds -> (length ds <= w)%nat -> no_digit_next r \/ length ds = w ->
  take_digits w (ds ++ r) = (ds, r).
Proof.
  induction ds as [|c ds IH]; intros w r Hd Hl Hr; cbn [app length] in *.
  - destruct w as [|w]; [by destruct r|]. destruct Hr as [Hr|[=]]. destruct r as [|c r]; [done|]. cbn [take_digits].
    unfold no_digit_next in Hr. by rewrite Hr.
  - destruct w as [|w]; [lia|]. apply list.Forall_cons in Hd as [Hc Hd]. cbn [take_digits]. rewrite Hc, (IH w r Hd); [done|lia|].
    destruct Hr as [Hr|Hr]; [by left|right; lia].
Qed.

Lemma digit_no_space c : is_digit c = true -> is_space c = false /\ (bz c =? 45) = false /\ (bz c =? 43) = false.
Proof.
  intros H%is_digit_code. unfold is_space. repeat split; try (apply Z.eqb_neq; lia).
  apply orb_false_iff. split; [apply Z.eqb_neq; lia|]. apply andb_false_iff. right. apply Z.leb_gt. lia.
Qed.

Lemma scan_d_ok w ds r : all_digits ds -> (1 <= length ds <= w)%nat -> no_digit_next r \/ length ds = w ->
  scan_d w (ds ++ r) = Some (dec_val ds, r).
Proof.
  intros Hd Hl Hr. destruct ds as [|c ds]; [cbn in Hl; lia|]. pose proof Hd as Hd'. apply list.Forall_cons in Hd' as [Hc _].
  destruct (digit_no_space c Hc) as (H1 & H2 & H3). unfold scan_d. destruct w as [|w]; [lia|]. cbn [app skip_space].
  rewrite H1, H2, H3, app_comm_cons, take_digits_ok by (done || lia). by rewrite atoi_digits_val.
Qed.

Lemma scan_d_neg w ds r : all_digits ds -> (1 <= length ds)%nat -> (length ds < w)%nat -> no_digit_next r \/ S (length ds) = w ->
  scan_d w (minus :: ds ++ r) = Some (- dec_val ds, r).
Proof.
  intros Hd Hl Hw Hr. unfold scan_d. destruct w as [|w]; [lia|]. cbn [skip_space]. change (is_space minus) with false.
  change (bz minus =? 45) with true. cbv iota. rewrite take_digits_ok by (done || lia || (destruct Hr; [by left|right; lia])).
  destruct ds as [|c ds]; [cbn in Hl; lia|]. by rewrite atoi_digits_val.
Qed.

Lemma take_word_ok w r : Forall (λ c, is_space c = false /\ c <> NUL) w -> (exists c r', r = c :: r' /\ is_space c = true) ->
  take_word (w ++ r) = (w, r).
Proof.
  intros Hw (c0 & r' & -> & Hc). induction Hw as [|c w [H1 H2] Hw IH]; cbn [app take_word].
  - by rewrite Hc.
  - by rewrite H1, bool_decide_false, IH.
Qed.

Lemma scan_s_ok w r : w <> [] -> Forall (λ c, is_space c = false /\ c <> NUL) w -> (exists c r', r = c :: r' /\ is_space c = true) ->
  scan_s (w ++ r) = Some (w, r).
Proof.
  intros Hne Hw Hr. unfold scan_s. assert (skip_space (w ++ r) = w ++ r) as ->.
  { destruct Hw as [|c w [H1 _] Hw]; [done|]. cbn [app skip_space]. by rewrite H1. }
  rewrite take_word_ok by done. by destruct w.
Qed.
