(* ===== verification/Time.v ===== *)
(** * Times as strings ([libsvn_subr/time.c])

    A time is printed with all that its broken-down form holds, and read back.  The
    conversions between times and their parts, and the names of days and months,
    are those of APR. *)

From S2P Require Import Prelude KeyGen Libc.

Record apr_time_exp_t := mk_exp {
  tm_usec : Z; tm_sec : Z; tm_min : Z; tm_hour : Z; tm_mday : Z; tm_mon : Z; tm_year : Z; tm_wday : Z; tm_yday : Z;
  tm_isdst : Z; tm_gmtoff : Z;
}.

Class AprTime := {
  apr_explode_localtime : Z -> apr_time_exp_t;
  (** The parts of a time that has none give no time. *)
  apr_implode_gmt : apr_time_exp_t -> outcome Z;
  apr_day_snames : list bytes;
  apr_month_snames : list bytes;
}.

Section time.
Context `{apr : !AprTime}.

Definition colon : byte := zb 58.
Definition dot : byte := zb 46.
Definition space : byte := zb 32.

Definition svn_time_to_nts (t : Z) : outcome bytes :=
  let exploded_time := apr_explode_localtime t in
  wday ← rd apr_day_snames (Z.to_nat (tm_wday exploded_time));
  mon ← rd apr_month_snames (Z.to_nat (tm_mon exploded_time));
  Ok (wday ++ [space] ++ sprintf_d (tm_mday exploded_time) ++ [space] ++ mon ++ [space]
      ++ sprintf_d (tm_year exploded_time + 1900) ++ [space]
      ++ sprintf_0d 2 (tm_hour exploded_time) ++ [colon] ++ sprintf_0d 2 (tm_min exploded_time) ++ [colon]
      ++ sprintf_0d 2 (tm_sec exploded_time) ++ [dot] ++ sprintf_0d 6 (tm_usec exploded_time)
      ++ bstr " (day " ++ sprintf_0d 3 (tm_yday exploded_time + 1)
      ++ bstr ", dst " ++ sprintf_d (tm_isdst exploded_time)
      ++ bstr ", gmt_off " ++ sprintf_0d 6 (tm_gmtoff exploded_time) ++ bstr ")").

(** The search goes on behind the end of the names. *)
Definition find_matching_string (str : bytes) (strings : list bytes) : outcome Z :=
  match list_find (λ s, s = str) strings with Some (i, _) => Ok (Z.of_nat i) | None => Undef end.

(** The arrays [wday] and [month] have room for three characters. *)
Definition in_array (word : bytes) : outcome bytes := if (length word <=? 3)%nat then Ok word else Undef.

(** No limit on the digits of a ["%d"]. *)
Definition any_width (s : bytes) : nat := length s.

(** The directives in turn; what is left behind the last of them is not looked at. *)
Definition scan_time (data : bytes) : option (bytes * bytes * apr_time_exp_t) :=
  '(wday, s) ← scan_s data; s ← scan_text [space] s;
  '(mday, s) ← scan_d (any_width s) s; s ← scan_text [space] s;
  '(month, s) ← scan_s s; s ← scan_text [space] s;
  '(year, s) ← scan_d (any_width s) s; s ← scan_text [space] s;
  '(hour, s) ← scan_d 2 s; s ← scan_text [colon] s;
  '(min, s) ← scan_d 2 s; s ← scan_text [colon] s;
  '(sec, s) ← scan_d 2 s; s ← scan_text [dot] s;
  '(usec, s) ← scan_d 6 s; s ← scan_text (bstr " (day ") s;
  '(yday, s) ← scan_d 3 s; s ← scan_text (bstr ", dst ") s;
  '(isdst, s) ← scan_d (any_width s) s; s ← scan_text (bstr ", gmt_off ") s;
  '(gmtoff, s) ← scan_d 6 s;
  Some (wday, month, mk_exp usec sec min hour mday 0 year 0 yday isdst gmtoff).

(** A variable that no directive has set is read. *)
Definition svn_time_from_nts (data : bytes) : outcome Z :=
  match scan_time data with
  | None => Undef
  | Some (wday, month, e) =>
      wday ← in_array wday;
      month ← in_array month;
      wday ← find_matching_string wday apr_day_snames;
      mon ← find_matching_string month apr_month_snames;
      apr_implode_gmt (mk_exp (tm_usec e) (tm_sec e) (tm_min e) (tm_hour e) (tm_mday e) mon (tm_year e - 1900) wday
                         (tm_yday e - 1) (tm_isdst e) (tm_gmtoff e))
  end.

(** ** What is printed is read *)

Definition no_space_next (s : bytes) : Prop := match s with c :: _ => is_space c = false | [] => True end.

(** White space in the format stands alone. *)
Fixpoint spaced (t : bytes) : bool :=
  match t with
  | [] => true
  | c :: t => (negb (is_space c) || match t with d :: _ => negb (is_space d) | [] => true end) && spaced t
  end.

Lemma scan_text_ok t r : spaced t = true -> no_space_next r -> scan_text t (t ++ r) = Some r.
Proof.
  intros Ht Hr. induction t as [|c t IH]; [done|]. cbn [spaced] in Ht. apply andb_true_iff in Ht as [Hc Ht].
  cbn [scan_text app]. destruct (is_space c) eqn:E.
  - cbn [skip_space]. rewrite E. cbn [negb orb] in Hc. assert (skip_space (t ++ r) = t ++ r) as ->.
    { destruct t as [|d t]; cbn [app].
      - destruct r as [|d r]; [done|]. cbn [skip_space]. unfold no_space_next in Hr. by rewrite Hr.
      - cbn [skip_space]. apply negb_true_iff in Hc. by rewrite Hc. }
    by apply IH.
  - cbn [scan_lit]. destruct (byte_eq_dec c c); [|done]. cbn [mbind option_bind]. by apply IH.
Qed.

Lemma digits_no_space ds r : all_digits ds -> (1 <= length ds)%nat -> no_space_next (ds ++ r).
Proof.
  intros Hd Hl. destruct ds as [|c ds]; [cbn in Hl; lia|]. apply list.Forall_cons in Hd as [Hc _].
  by apply digit_no_space.
Qed.

(** The names, as APR has them. *)
Definition names_ok (l : list bytes) : Prop :=
  NoDup l /\ Forall (λ w, length w = 3%nat /\ Forall (λ c, is_space c = false /\ c <> NUL) w) l.

Context (days_ok : names_ok apr_day_snames) (months_ok : names_ok apr_month_snames).
Context (days_seven : length apr_day_snames = 7%nat) (months_twelve : length apr_month_snames = 12%nat).

(** The parts of a time: with five digits at most for an offset to the west. *)
Record exp_ok (e : apr_time_exp_t) : Prop := {
  eo_usec : 0 <= tm_usec e < 1000000; eo_sec : 0 <= tm_sec e < 100; eo_min : 0 <= tm_min e < 100;
  eo_hour : 0 <= tm_hour e < 100; eo_mday : 0 <= tm_mday e < 100; eo_mon : 0 <= tm_mon e < 12;
  eo_year : 0 <= tm_year e + 1900 < 2 ^ 31; eo_wday : 0 <= tm_wday e < 7; eo_yday : 0 <= tm_yday e + 1 < 1000;
  eo_isdst : 0 <= tm_isdst e < 2 ^ 31; eo_gmtoff : - 100000 < tm_gmtoff e < 1000000;
}.

Lemma name_found (l : list bytes) i w : names_ok l -> l !! i = Some w -> w <> [] /\ (length w <= 3)%nat /\
  Forall (λ c, is_space c = false /\ c <> NUL) w /\ find_matching_string w l = Ok (Z.of_nat i) /\ no_space_next w.
Proof.
  intros [Hnd Hl] Hi. pose proof (Forall_lookup_1 _ _ _ _ Hl Hi) as [Hlen Hw].
  split; [by intros ->|]. split; [lia|]. split; [done|]. split.
  - unfold find_matching_string. assert (list_find (λ s, s = w) l = Some (i, w)) as ->; [|done].
    apply list_find_Some. split; [done|]. split; [done|]. intros j s Hj Hji ->.
    pose proof (NoDup_lookup _ _ _ _ Hnd Hi Hj). lia.
  - destruct w as [|c w]; [done|]. by apply list.Forall_cons in Hw as [[H _] _].
Qed.

Lemma nth_name (l : list bytes) i n : length l = n -> 0 <= i < Z.of_nat n -> exists w, rd l (Z.to_nat i) = Ok w /\ l !! Z.to_nat i = Some w.
Proof.
  intros Hl Hi. destruct (lookup_lt_is_Some_2 l (Z.to_nat i)) as [w E]; [lia|]. exists w. split; [|done]. unfold rd. by rewrite E.
Qed.

Lemma app_no_space w r : w <> [] -> no_space_next w -> no_space_next (w ++ r).
Proof. by destruct w. Qed.

(** The next directive reads what was printed for it. *)
Ltac scan_word := rewrite scan_s_ok; [cbn [mbind option_bind]|assumption|assumption|by eexists _, _].
Ltac scan_sep := rewrite scan_text_ok;
  [cbn [mbind option_bind]|reflexivity|
   first [apply digits_no_space; [assumption|lia]|apply app_no_space; assumption]].
Ltac scan_num := rewrite scan_d_ok;
  [cbn [mbind option_bind]|assumption|unfold any_width; rewrite ?length_app; lia|first [right; assumption|left; reflexivity]].

(** Times survive being printed and read: what [svn_time_from_nts] makes of the
    text that [svn_time_to_nts] prints is the time whose parts are those that were
    printed, when each of them fits its field; the parts are in local time, and are
    read as if they were in GMT. *)
Theorem time_roundtrip t :
  exp_ok (apr_explode_localtime t) -> exists text, svn_time_to_nts t = Ok text /\
    svn_time_from_nts text = apr_implode_gmt (apr_explode_localtime t).
Proof.
  intros [Hus Hs Hmi Hh Hmd Hmo Hy Hwd Hyd Hdst Hoff].
  destruct (nth_name _ _ _ days_seven Hwd) as (wd & Ewd & Lwd). destruct (nth_name _ _ _ months_twelve Hmo) as (mo & Emo & Lmo).
  destruct (name_found _ _ _ days_ok Lwd) as (Nwd & Swd & Wwd & Fwd & Qwd).
  destruct (name_found _ _ _ months_ok Lmo) as (Nmo & Smo & Wmo & Fmo & Qmo).
  eexists. unfold svn_time_to_nts. rewrite Ewd, Emo. cbn [mbind outcome_bind]. split; [done|].
  unfold svn_time_from_nts, scan_time. set (e := apr_explode_localtime t) in *.
  destruct (sprintf_d_ok (tm_mday e)) as (Dmd & Vmd & Lmd); [unfold two64; lia|].
  destruct (sprintf_d_ok (tm_year e + 1900)) as (Dy & Vy & Ly); [unfold two64; lia|].
  destruct (sprintf_d_ok (tm_isdst e)) as (Dd & Vd & Ld); [unfold two64; lia|].
  destruct (sprintf_0d_ok 2 (tm_hour e)) as (Dh & Vh & Lh); [done|lia|].
  destruct (sprintf_0d_ok 2 (tm_min e)) as (Dmi & Vmi & Lmi); [done|lia|].
  destruct (sprintf_0d_ok 2 (tm_sec e)) as (Ds & Vs & Ls); [done|lia|].
  destruct (sprintf_0d_ok 6 (tm_usec e)) as (Du & Vu & Lu); [done|lia|].
  destruct (sprintf_0d_ok 3 (tm_yday e + 1)) as (Dyd & Vyd & Lyd); [done|lia|].
  scan_word. scan_sep. scan_num. scan_sep. scan_word. scan_sep. scan_num. scan_sep.
  scan_num. scan_sep. scan_num. scan_sep. scan_num. scan_sep. scan_num. scan_sep. scan_num. scan_sep. scan_num.
  assert (scan_d 6 (sprintf_0d 6 (tm_gmtoff e) ++ bstr ")") = Some (tm_gmtoff e, bstr ")") /\
    no_space_next (sprintf_0d 6 (tm_gmtoff e) ++ bstr ")")) as [Eoff Qoff].
  { destruct (Z.ltb_spec (tm_gmtoff e) 0).
    - destruct (sprintf_0d_neg 5 (tm_gmtoff e)) as (ds & -> & Dn & Vn & Ln); [lia|lia|]. split; [|reflexivity].
      cbn [app]. rewrite scan_d_neg; [by rewrite Vn, Z.opp_involutive|assumption|lia|lia|left; reflexivity].
    - destruct (sprintf_0d_ok 6 (tm_gmtoff e)) as (Dn & Vn & Ln); [lia|lia|].
      split; [|apply digits_no_space; [assumption|lia]].
      rewrite scan_d_ok; [by rewrite Vn|assumption|lia|left; reflexivity]. }
  rewrite scan_text_ok; [cbn [mbind option_bind]|reflexivity|exact Qoff]. rewrite Eoff. cbn [mbind option_bind].
  unfold in_array. rewrite (proj2 (Nat.leb_le _ _) Swd), (proj2 (Nat.leb_le _ _) Smo). cbn [mbind outcome_bind].
  rewrite Fwd, Fmo. cbn [mbind outcome_bind tm_usec tm_sec tm_min tm_hour tm_mday tm_mon tm_year tm_wday tm_yday tm_isdst tm_gmtoff].
  rewrite Vmd, Vy, Vd, Vh, Vmi, Vs, Vu, Vyd, !Z2Nat.id by lia.
  replace (tm_year e + 1900 - 1900) with (tm_year e) by lia. replace (tm_yday e + 1 - 1) with (tm_yday e) by lia. by destruct e.
Qed.
End time.

(** ** A witness *)

Section sample.

(** The third of October 2000, in a world without time. *)
Definition sample_exp : apr_time_exp_t := mk_exp 17 5 4 3 3 9 100 2 276 1 (-18000).

#[local] Instance sample_time : AprTime := {|
  apr_explode_localtime _ := sample_exp;
  apr_implode_gmt e := Ok (tm_year e * 1000 + tm_yday e);
  apr_day_snames := bstr <$> ["Sun"; "Mon"; "Tue"; "Wed"; "Thu"; "Fri"; "Sat"]%string;
  apr_month_snames := bstr <$> ["Jan"; "Feb"; "Mar"; "Apr"; "May"; "Jun"; "Jul"; "Aug"; "Sep"; "Oct"; "Nov"; "Dec"]%string;
|}.

Lemma sample_names l : bool_decide (NoDup l) = true ->
  forallb (λ w, (length w =? 3)%nat && forallb (λ c, negb (is_space c) && negb (bool_decide (c = NUL))) w) l = true -> names_ok l.
Proof.
  intros H1%bool_decide_eq_true H2. split; [done|]. apply list.Forall_forall. intros w Hw.
  rewrite forallb_forall in H2. apply list_elem_of_In in Hw. specialize (H2 w Hw). apply andb_true_iff in H2 as [Hl Hc].
  split; [by apply Nat.eqb_eq|]. apply list.Forall_forall. intros c Hin. apply list_elem_of_In in Hin.
  rewrite forallb_forall in Hc. specialize (Hc c Hin). apply andb_true_iff in Hc as [Hs%negb_true_iff Hn%negb_true_iff].
  split; [done|]. by apply bool_decide_eq_false in Hn.
Qed.

Lemma time_roundtrip_witness : exists text,
  svn_time_to_nts 0 = Ok text /\ text = bstr "Tue 3 Oct 2000 03:04:05.000017 (day 277, dst 1, gmt_off -18000)" /\
  svn_time_from_nts text = Ok 100276.
Proof.
  destruct (time_roundtrip (apr := sample_time)) with (t := 0) as (text & E & F).
  - by apply sample_names; vm_compute.
  - by apply sample_names; vm_compute.
  - reflexivity.
  - reflexivity.
  - split; cbn; lia.
  - exists text. split; [exact E|]. split; [|exact F].
    assert (svn_time_to_nts 0 = Ok (bstr "Tue 3 Oct 2000 03:04:05.000017 (day 277, dst 1, gmt_off -18000)")) as E' by (by vm_compute).
    rewrite E in E'. by injection E'.
Defined.
End sample.
