(* ===== verification/Apr.v ===== *)
(** * Files ([APR], outside the repository)

    The functions of the Apache Portable Runtime that open, read and write files are
    a parameter of the model.  A file that is open is an object of its own, and the
    disk changes when a file is created, closed, copied or removed: the code does not
    look at a file on the disk while it writes to it.  [AprLaws]: what the functions
    do on a disk that works, as APR documents it.  [mem_disk], at the end, is an
    instance. *)

From S2P Require Import Prelude.

Inductive apr_filetype_e := APR_NOFILE | APR_REG | APR_DIR | APR_LNK.

#[global] Instance filetype_eq_dec : EqDecision apr_filetype_e.
Proof. solve_decision. Defined.

Record apr_finfo_t := mk_finfo { filetype : apr_filetype_e; size : Z; mtime : Z; ctime : Z }.

Class Apr := {
  disk : Type;
  reader : Type;
  writer : Type;
  apr_stat : bytes -> disk -> outcome apr_finfo_t;
  (** [APR_READ]; [APR_WRITE | APR_CREATE | APR_TRUNCATE]; and with [APR_EXCL]. *)
  apr_open_read : bytes -> disk -> outcome reader;
  apr_open_write : bytes -> disk -> outcome writer * disk;
  apr_open_excl : bytes -> disk -> outcome writer * disk;
  apr_file_getc : reader -> outcome byte * reader;
  (** At most so many bytes, and at least one unless the file is at its end. *)
  apr_file_read : reader -> nat -> outcome bytes * reader;
  apr_file_read_full : reader -> nat -> outcome bytes * reader;
  (** How many bytes were written. *)
  apr_file_write : writer -> bytes -> outcome nat * writer;
  apr_file_write_full : writer -> bytes -> outcome unit * writer;
  apr_close_read : reader -> outcome unit;
  apr_close_write : writer -> disk -> outcome unit * disk;
  apr_file_remove : bytes -> disk -> outcome unit * disk;
  (** With the permissions of the source, or not. *)
  apr_file_copy : bool -> bytes -> bytes -> disk -> outcome unit * disk;
  apr_file_append : bytes -> bytes -> disk -> outcome unit * disk;
  apr_file_rename : bytes -> bytes -> disk -> outcome unit * disk;
  (** The read-only attribute is set, or taken away. *)
  apr_file_attrs_set : bytes -> bool -> disk -> outcome unit * disk;
  apr_dir_make : bytes -> disk -> outcome unit * disk;
  apr_dir_remove : bytes -> disk -> outcome unit * disk;
  (** The entries in the order in which [apr_dir_read] gives them, and how it ends. *)
  apr_dir_entries : bytes -> disk -> outcome (list (bytes * apr_filetype_e) * svn_errno);
}.

(** The contents of the files, by their paths; what is left to read; where a file
    that is written goes, and what was written. *)
Class AprLaws `{!Apr} := {
  file_at : disk -> bytes -> option bytes;
  left_ : reader -> bytes;
  goes_to : writer -> bytes;
  written : writer -> bytes;
  open_read_ok d p x : file_at d p = Some x -> exists r, apr_open_read p d = Ok r /\ left_ r = x;
  open_write_ok d p : exists w d', apr_open_write p d = (Ok w, d') /\ goes_to w = p /\ written w = [] /\
    forall q, q <> p -> file_at d' q = file_at d q;
  getc_ok r : exists r', apr_file_getc r =
    (match left_ r with [] => Err (APR_ERR APR_EOF) | c :: _ => Ok c end, r') /\ left_ r' = tail (left_ r);
  read_full_ok r n : exists r', apr_file_read_full r n =
    (if (n <=? length (left_ r))%nat then Ok (take n (left_ r)) else Err (APR_ERR APR_EOF), r') /\
    left_ r' = drop n (left_ r);
  write_ok w data : exists w', apr_file_write w data = (Ok (length data), w') /\ goes_to w' = goes_to w /\
    written w' = written w ++ data;
  write_full_ok w data : exists w', apr_file_write_full w data = (Ok tt, w') /\ goes_to w' = goes_to w /\
    written w' = written w ++ data;
  close_read_ok r : apr_close_read r = Ok tt;
  close_write_ok w d : exists d', apr_close_write w d = (Ok tt, d') /\ file_at d' (goes_to w) = Some (written w) /\
    forall q, q <> goes_to w -> file_at d' q = file_at d q;
  remove_ok d p : exists d', apr_file_remove p d = (if file_at d p is Some _ then Ok tt else Err (APR_ERR APR_ENOENT), d') /\
    file_at d' p = None /\ forall q, q <> p -> file_at d' q = file_at d q;
  copy_ok d perms p q x : file_at d p = Some x -> exists d', apr_file_copy perms p q d = (Ok tt, d') /\
    file_at d' q = Some x /\ forall q', q' <> q -> file_at d' q' = file_at d q';
}.

(** ** A disk in memory: plain files only *)

Definition mem_enoent {A : Type} (d : gmap bytes bytes) : outcome A * gmap bytes bytes := (Err (APR_ERR APR_ENOENT), d).

Definition mem_disk : Apr := {|
  disk := gmap bytes bytes;
  reader := bytes;
  writer := bytes * bytes;
  apr_stat p d := match d !! p with
                  | Some x => Ok (mk_finfo APR_REG (Z.of_nat (length x)) 0 0)
                  | None => Err (APR_ERR APR_ENOENT)
                  end;
  apr_open_read p d := match d !! p with Some x => Ok x | None => Err (APR_ERR APR_ENOENT) end;
  apr_open_write p d := (Ok (p, []), <[p := []]> d);
  apr_open_excl p d := match d !! p with
                       | Some _ => (Err (APR_ERR APR_EEXIST), d)
                       | None => (Ok (p, []), <[p := []]> d)
                       end;
  apr_file_getc r := match r with [] => (Err (APR_ERR APR_EOF), r) | c :: r => (Ok c, r) end;
  apr_file_read r n := match r with [] => (Err (APR_ERR APR_EOF), r) | _ => (Ok (take n r), drop n r) end;
  apr_file_read_full r n :=
    if (n <=? length r)%nat then (Ok (take n r), drop n r) else (Err (APR_ERR APR_EOF), drop n r);
  apr_file_write w data := (Ok (length data), (w.1, w.2 ++ data));
  apr_file_write_full w data := (Ok tt, (w.1, w.2 ++ data));
  apr_close_read r := Ok tt;
  apr_close_write w d := (Ok tt, <[w.1 := w.2]> d);
  apr_file_remove p d := (if d !! p is Some _ then Ok tt else Err (APR_ERR APR_ENOENT), delete p d);
  apr_file_copy perms p q d := match d !! p with Some x => (Ok tt, <[q := x]> d) | None => mem_enoent d end;
  apr_file_append p q d := match d !! p with
                           | Some x => (Ok tt, <[q := default [] (d !! q) ++ x]> d)
                           | None => mem_enoent d
                           end;
  apr_file_rename p q d := match d !! p with Some x => (Ok tt, <[q := x]> (delete p d)) | None => mem_enoent d end;
  apr_file_attrs_set p b d := match d !! p with Some _ => (Ok tt, d) | None => mem_enoent d end;
  apr_dir_make p d := (Err (APR_ERR APR_ENOTIMPL), d);
  apr_dir_remove p d := (Err (APR_ERR APR_ENOTIMPL), d);
  apr_dir_entries p d := Err (APR_ERR APR_ENOENT);
|}.

#[program] Definition mem_disk_laws : @AprLaws mem_disk := {|
  file_at (d : gmap bytes bytes) p := d !! p;
  left_ (r : bytes) := r;
  goes_to (w : bytes * bytes) := w.1;
  written (w : bytes * bytes) := w.2;
|}.
Next Obligation. intros d p x E. exists x. cbn. by rewrite E. Qed.
Next Obligation.
  intros d p. eexists _, _. split; [done|]. split; [done|]. split; [done|]. intros q Hq. by apply lookup_insert_ne.
Qed.
Next Obligation. intros [|c r]; eexists; by split. Qed.
Next Obligation. intros r n. eexists. cbn. split; [|done]. by destruct (_ <=? _)%nat. Qed.
Next Obligation. intros w data. by eexists. Qed.
Next Obligation. intros w data. by eexists. Qed.
Next Obligation. done. Qed.
Next Obligation.
  intros w d. eexists. split; [done|]. split; [apply lookup_insert_eq|]. intros q Hq. by apply lookup_insert_ne.
Qed.
Next Obligation.
  intros d p. eexists. split; [done|]. split; [apply lookup_delete_eq|]. intros q Hq. by apply lookup_delete_ne.
Qed.
Next Obligation.
  intros d perms p q x E. eexists. cbn. rewrite E. split; [done|]. split; [apply lookup_insert_eq|].
  intros q' Hq. by apply lookup_insert_ne.
Qed.
