(* ===== verification/Hashdump.v ===== *)
(** * Hash tables in files ([libsvn_subr/hashdump.c])

    A table of byte strings is written entry by entry, each string with its length,
    and read back.  Files are those of [Apr]; the order of the entries is that in
    which [apr_hash_next] gives them. *)

From S2P Require Import Prelude KeyGen Libc Apr.

Definition SVN_KEYLINE_MAXLEN : nat := 100.

Definition newline : byte := zb 10.

Section hashdump.
Context `{apr : !Apr}.

(** ** Writing *)

Definition put (data : bytes) : state_m writer unit := λ f, apr_file_write_full f data.

(** A letter and a length, then the string. *)
Definition write_string (letter str : bytes) : state_m writer unit :=
  put letter;;
  put (sprintf_d (Z.of_nat (length str)));;
  put [newline];;
  put str;;
  put [newline].

Fixpoint svn_hash_write (hash : list (bytes * bytes)) : state_m writer unit :=
  match hash with
  | [] => put (bstr "END" ++ [newline])
  | (key, val) :: hash =>
      write_string (bstr "K ") key;;
      write_string (bstr "V ") val;;
      svn_hash_write hash
  end.

(** ** Reading *)

Definition getc : state_m reader byte := λ f, apr_file_getc f.

Definition read_full (len : nat) : state_m reader bytes := λ f, apr_file_read_full f len.

(** The line without its newline, shorter than [limit]. *)
Fixpoint svn_io_read_length_line (limit : nat) : state_m reader bytes :=
  match limit with
  | O => lift (Err SVN_WARNING)
  | S limit =>
      c ← getc;
      if byte_eq_dec c newline then mret []
      else line ← svn_io_read_length_line limit; mret (c :: line)
  end.

(** The number of a length line.  A negative length makes the block that is
    allocated smaller than what is read into it. *)
Definition length_of (line : bytes) : outcome nat :=
  len ← atoi (drop 2 line); if len <? 0 then Undef else Ok (Z.to_nat len).

(** The length of a value is kept in an [int], in which [vallen + 1] overflows when
    it is the largest; that of a key is a [size_t] by then. *)
Definition value_length_of (line : bytes) : outcome nat :=
  vallen ← length_of line; if Z.of_nat vallen + 1 <? 2 ^ 31 then Ok vallen else Undef.

(** A string of a known length, and the newline after it. *)
Definition read_string (len : nat) : state_m reader bytes :=
  str ← read_full len;
  c ← getc;
  if byte_eq_dec c newline then mret str else lift (Err SVN_ERR_MALFORMED_FILE).

(** The line begins with this letter and a space: the character after the end of
    the line is null. *)
Definition is_length_line (letter : byte) (line : bytes) : bool :=
  bool_decide (head line = Some letter) && bool_decide (line !! 1%nat = Some (zb 32)).

(** A turn of the loop: [None] when the end of the table has been read. *)
Definition read_entry (first_time : bool) : state_m reader (option (bytes * bytes)) := λ f,
  match svn_io_read_length_line SVN_KEYLINE_MAXLEN f with
  | (Ok line, f) =>
      (if bool_decide (line = bstr "END") then mret None
       else if is_length_line (zb 75) line then
         keylen ← lift (length_of line);
         key ← read_string keylen;
         line ← svn_io_read_length_line SVN_KEYLINE_MAXLEN;
         if is_length_line (zb 86) line then
           vallen ← lift (value_length_of line);
           val ← read_string vallen;
           mret (Some (key, val))
         else lift (Err SVN_ERR_MALFORMED_FILE)
       else lift (Err SVN_ERR_MALFORMED_FILE)) f
  | (Err (APR_ERR APR_EOF), f) => if first_time then (Ok None, f) else (Err (APR_ERR APR_EOF), f)
  | (Err e, f) => (Err e, f)
  | (Abort, f) => (Abort, f)
  | (Undef, f) => (Undef, f)
  end.

(** The loop, of [n] turns at most: the entries are added to the table, also those
    that come before an error; [None] when the turns do not suffice. *)
Fixpoint read_loop (n : nat) (first_time : bool) (hash : gmap bytes bytes) (f : reader) :
    option (outcome unit * gmap bytes bytes * reader) :=
  match n with
  | O => None
  | S n =>
      match read_entry first_time f with
      | (Ok (Some (key, val)), f) => read_loop n false (<[key := val]> hash) f
      | (Ok None, f) => Some (Ok tt, hash, f)
      | (Err e, f) => Some (Err e, hash, f)
      | (Abort, f) => Some (Abort, hash, f)
      | (Undef, f) => Some (Undef, hash, f)
      end
  end.

Definition svn_hash_read (n : nat) : gmap bytes bytes -> reader -> option (outcome unit * gmap bytes bytes * reader) :=
  read_loop n true.
End hashdump.

(** ** What is written *)

Definition string_text (letter str : bytes) : bytes :=
  letter ++ sprintf_d (Z.of_nat (length str)) ++ [newline] ++ str ++ [newline].

Fixpoint dump (hash : list (bytes * bytes)) : bytes :=
  match hash with
  | [] => bstr "END" ++ [newline]
  | (key, val) :: hash => string_text (bstr "K ") key ++ string_text (bstr "V ") val ++ dump hash
  end.

Section correct.
Context `{apr : !Apr} `{laws : !AprLaws}.

(** [m] writes [text] to the file. *)
Definition puts (m : state_m writer unit) (text : bytes) : Prop :=
  forall w, exists w', m w = (Ok tt, w') /\ goes_to w' = goes_to w /\ written w' = written w ++ text.

Lemma puts_put data : puts (put data) data.
Proof. intros w. apply write_full_ok. Qed.

Lemma puts_bind m1 m2 t1 t2 : puts m1 t1 -> puts m2 t2 -> puts (m1;; m2) (t1 ++ t2).
Proof.
  intros H1 H2 w. destruct (H1 w) as (w1 & E1 & D1 & W1). destruct (H2 w1) as (w2 & E2 & D2 & W2). exists w2.
  rewrite (state_bind_step _ _ _ _ _ E1). split; [done|]. split; [by rewrite D2|]. by rewrite W2, W1, app_assoc.
Qed.

Lemma puts_string letter str : puts (write_string letter str) (string_text letter str).
Proof. repeat apply puts_bind; apply puts_put. Qed.

Lemma puts_hash hash : puts (svn_hash_write hash) (dump hash).
Proof.
  induction hash as [|[key val] hash IH]; [apply puts_put|]. apply puts_bind; [apply puts_string|].
  apply puts_bind; [apply puts_string|done].
Qed.

(** ** What is read *)

Lemma read_line_ok line : forall limit f rest, newline ∉ line -> (length line < limit)%nat ->
  left_ f = line ++ newline :: rest -> exists f',
    svn_io_read_length_line limit f = (Ok line, f') /\ left_ f' = rest.
Proof.
  induction line as [|c line IH]; intros [|limit] f rest Hn Hl Hf; cbn [length] in Hl; try lia;
    cbn [svn_io_read_length_line]; destruct (getc_ok f) as (f1 & E1 & H1); rewrite Hf in E1, H1; cbn in E1, H1;
    unfold getc at 1; rewrite (state_bind_step _ _ _ _ _ E1).
  - destruct (byte_eq_dec newline newline); [|done]. by exists f1.
  - apply not_elem_of_cons in Hn as [Hc Hn]. destruct (byte_eq_dec c newline) as [->|_]; [done|].
    destruct (IH limit f1 rest Hn ltac:(lia) H1) as (f2 & E2 & H2). exists f2.
    by rewrite (state_bind_step _ _ _ _ _ E2).
Qed.

Lemma read_string_ok str f rest : left_ f = str ++ newline :: rest -> exists f',
  read_string (length str) f = (Ok str, f') /\ left_ f' = rest.
Proof.
  intros Hf. destruct (read_full_ok f (length str)) as (f1 & E1 & H1). rewrite Hf, length_app in E1.
  rewrite (proj2 (Nat.leb_le _ _)), take_app_length in E1 by lia. rewrite Hf, drop_app_length in H1.
  destruct (getc_ok f1) as (f2 & E2 & H2). rewrite H1 in E2, H2. exists f2. split; [|done].
  unfold read_string, read_full. rewrite (state_bind_step _ _ _ _ _ E1). unfold getc.
  rewrite (state_bind_step _ _ _ _ _ E2). by destruct (byte_eq_dec newline newline).
Qed.

(** A length that fits an [int], as it is printed. *)
Lemma length_text c (str : bytes) : c <> newline -> Z.of_nat (length str) < 2 ^ 31 ->
  let line := [c; zb 32] ++ sprintf_d (Z.of_nat (length str)) in
  (newline ∉ line) /\ (length line < SVN_KEYLINE_MAXLEN)%nat /\ length_of line = Ok (length str).
Proof.
  intros Hc Hl line.
  destruct (sprintf_d_ok (Z.of_nat (length str))) as (Hd & Hv & Hlen); [unfold two64; lia|].
  split; [|split].
  - unfold line. cbn [app]. rewrite !not_elem_of_cons. split; [congruence|]. split; [done|].
    intros Hin. apply list.Forall_forall with (x := newline) in Hd; [|done]. done.
  - unfold line. rewrite length_app. cbn [length]. unfold SVN_KEYLINE_MAXLEN. lia.
  - unfold length_of, line. change (drop 2 ([c; zb 32] ++ ?x)) with x.
    pose proof (atoi_text _ [] (Z.of_nat (length str)) Hd ltac:(lia) Hv ltac:(lia) I) as Ha. rewrite app_nil_r in Ha.
    rewrite Ha. cbn [mbind outcome_bind].
    rewrite (proj2 (Z.ltb_ge _ _)) by lia. by rewrite Nat2Z.id.
Qed.

Lemma value_length_text c (str : bytes) : c <> newline -> Z.of_nat (length str) + 1 < 2 ^ 31 ->
  value_length_of ([c; zb 32] ++ sprintf_d (Z.of_nat (length str))) = Ok (length str).
Proof.
  intros Hc Hl. unfold value_length_of. destruct (length_text c str Hc) as (_ & _ & ->); [lia|].
  cbn [mbind outcome_bind]. by rewrite (proj2 (Z.ltb_lt _ _)).
Qed.

(** A line of a length and its string. *)
Lemma string_text_line letter str rest : string_text [letter; zb 32] str ++ rest =
  ([letter; zb 32] ++ sprintf_d (Z.of_nat (length str))) ++ newline :: (str ++ newline :: rest).
Proof. unfold string_text. by rewrite <- !app_assoc. Qed.

Definition fits (e : bytes * bytes) : Prop := Z.of_nat (length e.1) < 2 ^ 31 /\ Z.of_nat (length e.2) + 1 < 2 ^ 31.

Lemma read_entry_ok first f e rest : fits e ->
  left_ f = string_text (bstr "K ") e.1 ++ string_text (bstr "V ") e.2 ++ rest -> exists f',
    read_entry first f = (Ok (Some e), f') /\ left_ f' = rest.
Proof.
  intros [H1 H2] Hf. change (bstr "K ") with [zb 75; zb 32] in Hf. change (bstr "V ") with [zb 86; zb 32] in Hf.
  rewrite !string_text_line in Hf.
  destruct (length_text (zb 75) e.1) as (N1 & L1 & E1); [done..|]. destruct (length_text (zb 86) e.2) as (N2 & L2 & _); [done|lia|].
  pose proof (value_length_text (zb 86) e.2 ltac:(done) H2) as E2.
  destruct (read_line_ok _ SVN_KEYLINE_MAXLEN f _ N1 L1 Hf) as (f1 & R1 & F1).
  destruct (read_string_ok _ _ _ F1) as (f2 & R2 & F2).
  destruct (read_line_ok _ SVN_KEYLINE_MAXLEN f2 _ N2 L2 F2) as (f3 & R3 & F3).
  destruct (read_string_ok _ _ _ F3) as (f4 & R4 & F4). exists f4. split; [|done].
  unfold read_entry. rewrite R1. rewrite bool_decide_false by done. unfold is_length_line at 1.
  cbn [app head lookup list_lookup]. rewrite !bool_decide_true by done. cbn [andb].
  cbn [app] in E1. rewrite E1, lift_bind, (state_bind_step _ _ _ _ _ R2), (state_bind_step _ _ _ _ _ R3).
  unfold is_length_line. cbn [app head lookup list_lookup]. rewrite !bool_decide_true by done. cbn [andb].
  cbn [app] in E2. rewrite E2, lift_bind, (state_bind_step _ _ _ _ _ R4). by destruct e.
Qed.

Lemma read_end_ok first f rest : left_ f = (bstr "END" ++ [newline]) ++ rest -> exists f',
  read_entry first f = (Ok None, f') /\ left_ f' = rest.
Proof.
  intros Hf. rewrite <- app_assoc in Hf. destruct (read_line_ok (bstr "END") SVN_KEYLINE_MAXLEN f rest) as (f1 & R1 & F1).
  - apply not_elem_of_cons. split; [done|]. apply not_elem_of_cons. split; [done|]. apply not_elem_of_cons. split; [done|].
    apply not_elem_of_nil.
  - unfold SVN_KEYLINE_MAXLEN. cbn. lia.
  - exact Hf.
  - exists f1. split; [|done]. unfold read_entry. by rewrite R1.
Qed.

Lemma read_loop_ok es : forall n first h f rest, Forall fits es -> (length es < n)%nat -> left_ f = dump es ++ rest ->
  exists f', read_loop n first h f = Some (Ok tt, foldl (λ h e, <[e.1:=e.2]> h) h es, f') /\ left_ f' = rest.
Proof.
  induction es as [|e es IH]; intros [|n] first h f rest Hes Hn Hf; cbn [length] in Hn; try lia; cbn [read_loop].
  - destruct (read_end_ok first f rest Hf) as (f1 & -> & F1). by exists f1.
  - apply list.Forall_cons in Hes as [He Hes]. destruct (read_entry_ok first f e (dump es ++ rest) He) as (f1 & -> & F1).
    { rewrite Hf. cbn [dump]. destruct e as [key val]. by rewrite <- !app_assoc. }
    destruct (IH n false (<[e.1:=e.2]> h) f1 rest Hes ltac:(lia) F1) as (f2 & E2 & F2). exists f2.
    by destruct e.
Qed.

Lemma foldl_insert (es : list (bytes * bytes)) (h : gmap bytes bytes) : NoDup es.*1 ->
  foldl (λ h e, <[e.1:=e.2]> h) h es = list_to_map es ∪ h.
Proof.
  revert h. induction es as [|[k v] es IH]; intros h Hd; cbn [foldl fst snd].
  - by rewrite list_to_map_nil, (left_id_L ∅ (∪)).
  - cbn in Hd. apply list.NoDup_cons in Hd as [Hk Hd]. rewrite IH, list_to_map_cons by done.
    rewrite <- insert_union_r by (by apply not_elem_of_list_to_map). by rewrite insert_union_l.
Qed.

(** ** Reading ends *)

Definition remaining (f : reader) : nat := length (left_ f).

Definition shrinks {A} (m : state_m reader A) : Prop := forall f, (remaining (m f).2 <= remaining f)%nat.

Lemma shrinks_bind {A B} (m : state_m reader A) (g : A -> state_m reader B) :
  shrinks m -> (forall a, shrinks (g a)) -> shrinks (m ≫= g).
Proof.
  intros Hm Hg f. unfold mbind, state_bind. specialize (Hm f). destruct (m f) as [[a|e| |] f1]; try done.
  cbn in Hm. specialize (Hg a f1). lia.
Qed.

Lemma shrinks_lift {A} (a : outcome A) : shrinks (lift a).
Proof. intros f. cbn. lia. Qed.

Lemma shrinks_getc : shrinks getc.
Proof.
  intros f. destruct (getc_ok f) as (f1 & E & H). unfold getc. rewrite E. unfold remaining. cbn. rewrite H.
  destruct (left_ f); cbn; lia.
Qed.

Lemma shrinks_read_full n : shrinks (read_full n).
Proof.
  intros f. destruct (read_full_ok f n) as (f1 & E & H). unfold read_full. rewrite E. unfold remaining. cbn.
  rewrite H, length_drop. lia.
Qed.

Lemma shrinks_line limit : shrinks (svn_io_read_length_line limit).
Proof.
  induction limit as [|limit IH]; [apply shrinks_lift|]. cbn [svn_io_read_length_line].
  apply shrinks_bind; [apply shrinks_getc|]. intros c. destruct (byte_eq_dec c newline); [apply (shrinks_lift (Ok _))|].
  apply shrinks_bind; [done|]. intros line. apply (shrinks_lift (Ok _)).
Qed.

Lemma shrinks_string n : shrinks (read_string n).
Proof.
  apply shrinks_bind; [apply shrinks_read_full|]. intros str. apply shrinks_bind; [apply shrinks_getc|].
  intros c. destruct (byte_eq_dec c newline); apply (shrinks_lift _).
Qed.

(** A line that was read had its newline at least. *)
Lemma line_consumes limit f line f1 : svn_io_read_length_line limit f = (Ok line, f1) -> (remaining f1 < remaining f)%nat.
Proof.
  destruct limit as [|limit]; [done|]. cbn [svn_io_read_length_line]. intros E.
  apply state_bind_Ok in E as (c & f2 & E2 & E). unfold getc in E2.
  assert (remaining f2 < remaining f)%nat as H2.
  { destruct (getc_ok f) as (f3 & E3 & H3). rewrite E2 in E3. injection E3 as E3 <-. unfold remaining. rewrite H3.
    destruct (left_ f); [done|cbn; lia]. }
  assert (remaining f1 <= remaining f2)%nat; [|lia]. destruct (byte_eq_dec c newline); [injection E as <- <-; lia|].
  apply state_bind_Ok in E as (l & f3 & E3 & E). injection E as <- <-. pose proof (shrinks_line limit f2) as H.
  by rewrite E3 in H.
Qed.

Lemma entry_consumes first f e f1 : read_entry first f = (Ok (Some e), f1) -> (remaining f1 < remaining f)%nat.
Proof.
  unfold read_entry. destruct (svn_io_read_length_line SVN_KEYLINE_MAXLEN f) as [[line|err| |] f2] eqn:E2; try done.
  2: { by repeat case_match. }
  intros E. pose proof (line_consumes _ _ _ _ E2) as H2. enough (remaining f1 <= remaining f2)%nat by lia.
  revert E. set (m := if bool_decide _ then _ else _). intros E.
  enough (shrinks m) as Hm by (specialize (Hm f2); by rewrite E in Hm). unfold m.
  case_bool_decide; [apply (shrinks_lift (Ok _))|]. destruct (is_length_line _ line); [|apply shrinks_lift].
  apply shrinks_bind; [apply shrinks_lift|]. intros keylen. apply shrinks_bind; [apply shrinks_string|]. intros key.
  apply shrinks_bind; [apply shrinks_line|]. intros line2. destruct (is_length_line _ line2); [|apply shrinks_lift].
  apply shrinks_bind; [apply shrinks_lift|]. intros vallen. apply shrinks_bind; [apply shrinks_string|]. intros val.
  apply (shrinks_lift (Ok _)).
Qed.

Lemma read_loop_ends n : forall first h f, (remaining f < n)%nat -> read_loop n first h f <> None.
Proof.
  induction n as [|n IH]; intros first h f Hn; [lia|]. cbn [read_loop].
  destruct (read_entry first f) as [[[[key val]|]|e| |] f1] eqn:E; try done.
  apply entry_consumes in E. apply IH. lia.
Qed.

(** C40. Hash tables survive being written to a file and read back: [svn_hash_write]
    writes the dump of the table, whatever the order of its entries, and
    [svn_hash_read] adds the entries of a dump to a table and stops behind it, when
    the lengths fit an [int], those of the values with the null byte that is put
    after them.  Reading ends on every file: after as many turns as
    the file has bytes at most. *)
Theorem hash_dump_roundtrip (m h : gmap bytes bytes) entries w :
  Permutation entries (map_to_list m) ->
  (forall k v, m !! k = Some v -> Z.of_nat (length k) < 2 ^ 31 /\ Z.of_nat (length v) + 1 < 2 ^ 31) ->
  (exists w', svn_hash_write entries w = (Ok tt, w') /\ goes_to w' = goes_to w /\ written w' = written w ++ dump entries) /\
  (forall f rest n, left_ f = dump entries ++ rest -> (length entries < n)%nat -> exists f',
     svn_hash_read n h f = Some (Ok tt, m ∪ h, f') /\ left_ f' = rest) /\
  (forall f n, (length (left_ f) < n)%nat -> svn_hash_read n h f <> None).
Proof.
  intros Hp Hm. split; [apply puts_hash|]. split; [|intros f n; apply read_loop_ends].
  intros f rest n Hf Hn. destruct (read_loop_ok entries n true h f rest) as (f' & E & F); [|done|done|].
  - apply list.Forall_forall. intros [k v] Hin. apply (Hm k v). apply elem_of_map_to_list. by rewrite <- Hp.
  - exists f'. split; [|done]. unfold svn_hash_read. rewrite E, foldl_insert.
    + rewrite (list_to_map_proper entries (map_to_list m)) by (done || (rewrite Hp; apply NoDup_fst_map_to_list)).
      by rewrite list_to_map_to_list.
    + rewrite Hp. apply NoDup_fst_map_to_list.
Qed.
End correct.

(** ** A witness *)

Section sample.
#[local] Existing Instance mem_disk.
#[local] Existing Instance mem_disk_laws.

Definition sample_table : gmap bytes bytes := <[bstr "color" := bstr "red"]> {[bstr "price" := bstr ""]}.

Definition sample_entries : list (bytes * bytes) := [(bstr "price", bstr ""); (bstr "color", bstr "red")].
Definition new_file : @writer mem_disk := (bstr "props", []).
Definition dumped : @reader mem_disk := dump sample_entries.

Lemma hash_dump_roundtrip_witness :
  (exists w, svn_hash_write sample_entries new_file = (Ok tt, w) /\ written w = dump sample_entries) /\
  exists f', svn_hash_read 3 ∅ dumped = Some (Ok tt, sample_table ∪ ∅, f').
Proof.
  destruct (hash_dump_roundtrip sample_table ∅ sample_entries new_file) as ((w & E & _ & Ew) & Hr & _).
  - first [replace (map_to_list sample_table) with sample_entries by (by vm_compute); reflexivity
          |replace (map_to_list sample_table) with [(bstr "color", bstr "red"); (bstr "price", bstr "")] by (by vm_compute);
           apply perm_swap].
  - intros k v. unfold sample_table. rewrite lookup_insert_Some, lookup_singleton_Some.
    intros [[<- <-]|[_ [<- <-]]]; by vm_compute.
  - split; [exists w; by rewrite Ew|].
    destruct (Hr dumped [] 3%nat) as (f' & Ef & _).
    + by rewrite app_nil_r.
    + cbn. lia.
    + exists f'. exact Ef.
Defined.
End sample.
