(* ===== verification/Skel.v ===== *)
(** * Skeletons ([libsvn_fs/skel.c], [libsvn_fs/skel.h])

    The concrete syntax of every record of the filesystem's tables: atoms with
    an implicit or an explicit length, and parenthesised lists.  Parsing,
    unparsing, the building and examining operations, and the round trip. *)

From S2P Require Import Prelude KeyGen.

(** ** Character classes *)

Inductive char_type := type_nothing | type_space | type_digit | type_paren | type_name.

#[export] Instance char_type_eq_dec : EqDecision char_type.
Proof. solve_decision. Defined.

(** The table of the source, row for row ([0] nothing, [1] space, [2] digit,
    [3] paren, [4] name); the last 128 entries are all 0. *)
Definition skel_char_table : list nat := [
  0; 0; 0; 0; 0; 0; 0; 0;   0; 1; 1; 0; 1; 1; 0; 0;
  0; 0; 0; 0; 0; 0; 0; 0;   0; 0; 0; 0; 0; 0; 0; 0;
  1; 0; 0; 0; 0; 0; 0; 0;   3; 3; 0; 0; 0; 0; 0; 0;
  2; 2; 2; 2; 2; 2; 2; 2;   2; 2; 0; 0; 0; 0; 0; 0;
  0; 4; 4; 4; 4; 4; 4; 4;   4; 4; 4; 4; 4; 4; 4; 4;
  4; 4; 4; 4; 4; 4; 4; 4;   4; 4; 4; 3; 0; 3; 0; 0;
  0; 4; 4; 4; 4; 4; 4; 4;   4; 4; 4; 4; 4; 4; 4; 4;
  4; 4; 4; 4; 4; 4; 4; 4;   4; 4; 4; 0; 0; 0; 0; 0 ]%nat ++ repeat 0%nat 128.

Definition skel_char_type (c : byte) : char_type :=
  match skel_char_table !! Z.to_nat (bz c) with
  | Some 1%nat => type_space
  | Some 2%nat => type_digit
  | Some 3%nat => type_paren
  | Some 4%nat => type_name
  | _ => type_nothing
  end.

Definition is_type (t : char_type) (c : byte) : bool :=
  bool_decide (skel_char_type c = t).

Definition c_lparen : byte := zb 40.
Definition c_rparen : byte := zb 41.
Definition c_space : byte := zb 32.

(** ** [skel_t]

    An atom is its bytes.  A list keeps the text it was parsed from (the
    [data] and [len] fields, empty for a list built by hand) and its
    children. *)
#[warnings="-register-all"]
Inductive skel : Type :=
  | Atom (data : bytes)
  | SList (data : bytes) (children : list skel).

(** ** Parsing

    Positions in the buffer are represented by the text that is left: a parser
    returns the element and the text from [element->data + element->len] on. *)

(** The end of an implicit-length atom: the first white space or parenthesis. *)
Fixpoint implicit_end (data : bytes) : bytes * bytes :=
  match data with
  | [] => ([], [])
  | c :: data' =>
      if is_type type_space c || is_type type_paren c then ([], data)
      else let '(a, rest) := implicit_end data' in (c :: a, rest)
  end.

Definition implicit_atom (data : bytes) : option (skel * bytes) :=
  match data with
  | [] => None
  | c :: data' =>
      if is_type type_name c
      then let '(a, rest) := implicit_end data' in Some (Atom (c :: a), rest)
      else None
  end.

Definition explicit_atom (data : bytes) : option (skel * bytes) :=
  '(size, next) ← svn_fs__getsize data (Z.of_nat (length data));
  match drop next data with
  | [] => None
  | c :: data =>
      if negb (is_type type_space c) then None
      else if Z.of_nat (length data) <? size then None
      else Some (Atom (take (Z.to_nat size) data), drop (Z.to_nat size) data)
  end.

Fixpoint skip_space (data : bytes) : bytes :=
  match data with
  | c :: data' => if is_type type_space c then skip_space data' else data
  | [] => []
  end.

(** [parse], and the loop of [list] over the children. *)
Fixpoint parse (fuel : nat) (data : bytes) : option (skel * bytes) :=
  match fuel with
  | O => None
  | S fuel =>
      match data with
      | [] => None
      | c :: data' =>
          if bool_decide (c = c_lparen) then
            '(children, rest) ← parse_list fuel data';
            Some (SList (take (length data - length rest) data) children, rest)
          else if is_type type_name c then implicit_atom data
          else explicit_atom data
      end
  end
with parse_list (fuel : nat) (data : bytes) : option (list skel * bytes) :=
  match fuel with
  | O => None
  | S fuel =>
      match skip_space data with
      | [] => None
      | c :: data' =>
          if bool_decide (c = c_rparen) then Some ([], data')
          else
            '(element, rest) ← parse fuel (c :: data');
            '(children, rest) ← parse_list fuel rest;
            Some (element :: children, rest)
      end
  end.

(** Two calls per byte of text are always enough (see [parse_fuel]). *)
Definition svn_fs__parse_skel (data : bytes) : option skel :=
  fst <$> parse (2 * length data + 1) data.

(** ** Unparsing *)

Fixpoint estimate_unparsed_size (s : skel) : Z :=
  match s with
  | Atom data =>
      let len := Z.of_nat (length data) in
      if len <? 100 then len + 3 else len + 30
  | SList _ children =>
      foldr (λ child total_len, total_len + (estimate_unparsed_size child + 1)) 2 children
  end.

Definition use_implicit (data : bytes) : bool :=
  match data with
  | [] => false
  | c :: data' =>
      if (100 <=? length data)%nat then false
      else if negb (is_type type_name c) then false
      else forallb (λ c, negb (is_type type_space c || is_type type_paren c)) data'
  end.

(** The loop of [unparse] over the children of a list, a space between each
    pair of elements. *)
Section unparse_children.
Context (unparse : skel -> bytes -> outcome bytes).

Fixpoint unparse_children (children : list skel) (str : bytes) : outcome bytes :=
  match children with
  | [] => Ok str
  | child :: next =>
      str ← unparse child str;
      unparse_children next
        (match next with [] => str | _ => str ++ [c_space] end)
  end.
End unparse_children.

(** [unparse (skel, str)]: the contents of [str] afterwards. *)
Fixpoint unparse (s : skel) (str : bytes) {struct s} : outcome bytes :=
  match s with
  | Atom data =>
      if use_implicit data then Ok (str ++ data)
      else match svn_fs__putsize 200 (Z.of_nat (length data)) with
           | None => Abort
           | Some buf => Ok (str ++ buf ++ c_space :: data)
           end
  | SList _ children =>
      str ← unparse_children unparse children (str ++ [c_lparen]);
      Ok (str ++ [c_rparen])
  end.

Definition svn_fs__unparse_skel (s : skel) : outcome bytes := unparse s [].

(** ** Building skels *)

Definition svn_fs__str_atom (str : bytes) : skel := Atom str.
Definition svn_fs__mem_atom (addr : bytes) (len : nat) : skel := Atom (take len addr).
Definition svn_fs__make_empty_list : skel := SList [] [].

(** [svn_fs__prepend (skel, list_skel)]: the list afterwards. *)
Definition svn_fs__prepend (s list_skel : skel) : outcome skel :=
  match list_skel with
  | Atom _ => Abort
  | SList data children => Ok (SList data (s :: children))
  end.

(** [svn_fs__append (skel, list_skel)], for a [skel] that has no siblings. *)
Definition svn_fs__append (s list_skel : skel) : outcome skel :=
  match list_skel with
  | Atom _ => Abort
  | SList data children => Ok (SList data (children ++ [s]))
  end.

(** ** Examining skels (a null pointer is [None]) *)

Definition svn_fs__matches_atom (s : option skel) (str : bytes) : bool :=
  match s with
  | Some (Atom data) => (length data =? length str)%nat && bool_decide (data = str)
  | _ => false
  end.

Definition svn_fs__atom_matches_string : option skel -> bytes -> bool :=
  svn_fs__matches_atom.

Definition svn_fs__list_length (s : option skel) : Z :=
  match s with
  | Some (SList _ children) => foldr (λ _ len, len + 1) 0 children
  | _ => -1
  end.

(** [svn_fs__is_valid_proplist] of [validate.c]. *)
Definition svn_fs__is_valid_proplist (s : skel) : bool :=
  let len := svn_fs__list_length (Some s) in
  if (0 <=? len) && (Z.land len 1 =? 0) then
    match s with
    | SList _ children =>
        forallb (λ elt, match elt with Atom _ => true | SList _ _ => false end) children
    | Atom _ => false
    end
  else false.

(** ** Following the pointers of a skel

    A step through a null pointer is undefined. *)

Definition kids (s : skel) : list skel := match s with Atom _ => [] | SList _ l => l end.
Definition skel_data (s : skel) : bytes := match s with Atom d => d | SList d _ => d end.
Definition kid (s : skel) (i : nat) : outcome skel := rd (kids s) i.
Definition deref {A} (p : option A) : outcome A := match p with Some a => Ok a | None => Undef end.
Definition is_atom (s : skel) : bool := match s with Atom _ => true | SList _ _ => false end.
Definition set_data (s : skel) (data : bytes) : skel :=
  match s with Atom _ => Atom data | SList _ l => SList data l end.
Definition set_kids (s : skel) (l : list skel) : skel :=
  match s with Atom d => Atom d | SList d _ => SList d l end.

(** ** Copying *)

Fixpoint svn_fs__copy_skel (s : skel) : skel :=
  match s with
  | Atom data => Atom data
  | SList _ children => SList [] (svn_fs__copy_skel <$> children)
  end.

(** ** Induction, sizes, and the equality of skels up to their source text *)

Section skel_induction.
Context (P : skel -> Prop).
Context (HA : forall data, P (Atom data)).
Context (HL : forall data children, Forall P children -> P (SList data children)).

Fixpoint skel_rect_nested (s : skel) : P s :=
  match s with
  | Atom data => HA data
  | SList data children =>
      HL data children
        ((fix go (l : list skel) : Forall P l :=
            match l with
            | [] => Forall_nil P
            | x :: l => Forall_cons P x l (skel_rect_nested x) (go l)
            end) children)
  end.
End skel_induction.

(** Every atom is short enough for its length to be an [apr_size_t]. *)
Fixpoint skel_fits (s : skel) : Prop :=
  match s with
  | Atom data => Z.of_nat (length data) < two64
  | SList _ children => foldr (λ c P, skel_fits c /\ P) True children
  end.

(** [erase] forgets where a list was parsed from. *)
Fixpoint erase (s : skel) : skel :=
  match s with
  | Atom data => Atom data
  | SList _ children => SList [] (erase <$> children)
  end.

#[export] Instance skel_equiv : Equiv skel := λ s1 s2, erase s1 = erase s2.

#[export] Instance skel_equivalence : Equivalence (≡@{skel}).
Proof.
  unfold equiv, skel_equiv. split; repeat intro; congruence.
Qed.

(** The text [unparse] writes. *)
Fixpoint sep_concat (l : list bytes) : bytes :=
  match l with
  | [] => []
  | x :: l' => x ++ match l' with [] => [] | _ => c_space :: sep_concat l' end
  end.

Fixpoint text (s : skel) : bytes :=
  match s with
  | Atom data =>
      if use_implicit data then data
      else default [] (svn_fs__putsize 200 (Z.of_nat (length data))) ++ c_space :: data
  | SList _ children => c_lparen :: sep_concat (text <$> children) ++ [c_rparen]
  end.

Lemma skel_fits_list data children :
  skel_fits (SList data children) <-> Forall skel_fits children.
Proof.
  simpl. induction children as [|c l IH]; simpl.
  - by split; constructor.
  - by rewrite Forall_cons_iff, IH.
Qed.

Lemma unparse_text s str : skel_fits s -> unparse s str = Ok (str ++ text s).
Proof.
  revert str. induction s as [data|d children IH] using skel_rect_nested; intros str Hf.
  - simpl. destruct (use_implicit data); [done|].
    destruct (putsize_200 (Z.of_nat (length data))) as [buf ->]; [simpl in Hf; lia|].
    done.
  - apply skel_fits_list in Hf. simpl.
    enough (forall str, unparse_children unparse children str =
      Ok (str ++ sep_concat (text <$> children))) as Hgo.
    { rewrite Hgo. simpl. by rewrite <- !app_assoc. }
    clear str. intros str. revert str. induction children as [|c l IHl]; intros str; simpl.
    { by rewrite app_nil_r. }
    apply Forall_cons_iff in IH as [IHc IH], Hf as [Hc Hf].
    rewrite IHc by done. simpl. rewrite IHl by done.
    destruct l as [|c' l]; simpl; [by rewrite !app_nil_r|].
    by rewrite <- !app_assoc.
Qed.

(** ** The parsers consume a non-empty prefix of their input *)

Lemma implicit_end_app data a rest : implicit_end data = (a, rest) -> data = a ++ rest.
Proof.
  revert a rest. induction data as [|c data IH]; intros a rest H; simpl in H.
  { by simplify_eq. }
  destruct (_ || _); [by simplify_eq|].
  destruct (implicit_end data) as [a' rest'] eqn:E. simplify_eq/=.
  f_equal. by apply IH.
Qed.

Lemma skip_space_app data : exists sp, data = sp ++ skip_space data.
Proof.
  induction data as [|c data [sp IH]]; simpl; [by exists []|].
  destruct (is_type type_space c); [|by exists []].
  exists (c :: sp). simpl. by f_equal.
Qed.

Lemma implicit_atom_rest data s rest :
  implicit_atom data = Some (s, rest) -> exists c pre, data = c :: pre ++ rest.
Proof.
  destruct data as [|c data]; simpl; [done|].
  destruct (is_type type_name c); [|done].
  destruct (implicit_end data) as [a rest'] eqn:E. intros [= <- <-].
  exists c, a. f_equal. by apply implicit_end_app.
Qed.

Lemma explicit_atom_rest data s rest :
  explicit_atom data = Some (s, rest) -> exists c pre, data = c :: pre ++ rest.
Proof.
  unfold explicit_atom. destruct (svn_fs__getsize _ _) as [[size next]|]; [|done]. simpl.
  destruct (drop next data) as [|c data'] eqn:E; [done|].
  destruct (negb _); [done|]. destruct (_ <? _); [done|]. intros [= <- <-].
  assert (data = take next data ++ c :: take (Z.to_nat size) data' ++
    drop (Z.to_nat size) data') as Hd.
  { rewrite take_drop, <- E. by rewrite take_drop. }
  destruct (take next data) as [|d pre]; simpl in Hd.
  - by eexists _, _.
  - exists d, (pre ++ c :: take (Z.to_nat size) data'). rewrite Hd.
    by rewrite <- app_assoc.
Qed.

Lemma parse_rest fuel :
  (forall data s rest, parse fuel data = Some (s, rest) ->
     exists c pre, data = c :: pre ++ rest) /\
  (forall data l rest, parse_list fuel data = Some (l, rest) ->
     exists c pre, data = c :: pre ++ rest).
Proof.
  induction fuel as [|fuel [IHp IHl]]; [done|]. split.
  - intros [|c data] s rest H; cbn [parse] in H; [done|].
    destruct (bool_decide_reflect (c = c_lparen)).
    + destruct (parse_list fuel data) as [[l rest']|] eqn:E; simplify_eq/=.
      apply IHl in E as (d & pre & ->). by exists c_lparen, (d :: pre).
    + destruct (is_type type_name c).
      * exact (implicit_atom_rest (c :: data) s rest H).
      * exact (explicit_atom_rest (c :: data) s rest H).
  - intros data l rest H. simpl in H. destruct (skip_space_app data) as [sp Hsp].
    destruct (skip_space data) as [|c data']; [done|]. rewrite Hsp.
    enough (exists pre, c :: data' = c :: pre ++ rest) as (pre & ->).
    { destruct sp as [|d sp]; simpl; [by eexists _, _|].
      exists d, (sp ++ c :: pre). by rewrite <- app_assoc. }
    bool_case_in H.
    { simplify_eq. by exists []. }
    destruct (parse fuel (c :: data')) as [[el rest1]|] eqn:E1; simplify_eq/=.
    destruct (parse_list fuel rest1) as [[l' rest2]|] eqn:E2; simplify_eq/=.
    apply IHp in E1 as (d & pre & E1). apply IHl in E2 as (d' & pre' & ->).
    simplify_eq. exists (pre ++ d' :: pre'). by rewrite <- app_assoc.
Qed.

Lemma skip_space_length data : (length (skip_space data) <= length data)%nat.
Proof.
  destruct (skip_space_app data) as [sp H]. rewrite H at 2. rewrite length_app. lia.
Qed.

(** Termination of the C recursion: with fuel for two calls per byte the
    result does not depend on the fuel, so running out of fuel never causes a
    parse failure. *)
Lemma parse_fuel_indep fuel :
  (forall fuel' data, (2 * length data + 1 <= fuel)%nat -> (2 * length data + 1 <= fuel')%nat ->
     parse fuel data = parse fuel' data) /\
  (forall fuel' data, (2 * length data + 2 <= fuel)%nat -> (2 * length data + 2 <= fuel')%nat ->
     parse_list fuel data = parse_list fuel' data).
Proof.
  induction fuel as [|fuel [IHp IHl]]; [split; intros; lia|].
  split; intros [|fuel'] data Hf Hf'; try lia; simpl.
  - destruct data as [|c data]; [done|]. simpl in *.
    bool_case; [|done]. by rewrite (IHl fuel') by lia.
  - pose proof (skip_space_length data) as Hlen.
    destruct (skip_space data) as [|c data']; [done|]. bool_case; [done|].
    rewrite (IHp fuel') by (simpl in *; lia).
    destruct (parse fuel' (c :: data')) as [[el rest]|] eqn:E; [|done]. simpl.
    apply parse_rest in E as (d & pre & E).
    apply (f_equal length) in E. simpl in E. rewrite length_app in E.
    by rewrite (IHl fuel') by (simpl in *; lia).
Qed.

(** ** Character classes used by the round trip *)

Lemma digit_starts_explicit c :
  is_digit c = true -> c <> c_lparen /\ is_type type_name c = false.
Proof. by destruct c; vm_compute; intros [=]. Qed.

Lemma digit_not_space c : is_type type_space c = true -> is_digit c = false.
Proof. by destruct c; vm_compute. Qed.

Lemma name_not_paren c :
  is_type type_name c = true -> c <> c_lparen /\ c <> c_rparen /\ is_type type_space c = false.
Proof. by destruct c; vm_compute; intros [=]. Qed.

Lemma digit_not_rparen c :
  is_digit c = true -> c <> c_rparen /\ is_type type_space c = false.
Proof. by destruct c; vm_compute; intros [=]. Qed.

(** What may follow an atom without being read as a part of it. *)
Definition delimited (rest : bytes) : Prop :=
  match rest with
  | [] => True
  | c :: _ => is_type type_space c || is_type type_paren c = true
  end.

Lemma implicit_end_stop data rest :
  forallb (λ c, negb (is_type type_space c || is_type type_paren c)) data = true ->
  delimited rest -> implicit_end (data ++ rest) = (data, rest).
Proof.
  induction data as [|c data IH]; intros Hd Hr; simpl in *.
  - destruct rest as [|c rest]; simpl in *; [done|]. by rewrite Hr.
  - apply andb_true_iff in Hd as [Hc Hd]. apply negb_true_iff in Hc.
    rewrite Hc, IH by done. done.
Qed.

(** ** Round trip *)

Lemma explicit_atom_text buf data rest :
  Z.of_nat (length (buf ++ c_space :: data ++ rest)) < two64 ->
  svn_fs__putsize 200 (Z.of_nat (length data)) = Some buf ->
  explicit_atom (buf ++ c_space :: data ++ rest) = Some (Atom data, rest).
Proof.
  intros Hlen Hbuf. unfold explicit_atom.
  rewrite (getsize_of_putsize 200 (Z.of_nat (length data)) buf); [|..|done].
  - simpl. rewrite drop_app_length. change (is_type type_space c_space) with true.
    simpl. rewrite length_app. bool_case; [lia|].
    by rewrite Nat2Z.id, take_app_length, drop_app_length.
  - rewrite length_app. simpl. rewrite length_app. lia.
  - done.
  - reflexivity.
Qed.

(** The text of an element starts with a byte that neither ends a list nor is
    skipped as white space. *)
Lemma text_head s :
  skel_fits s ->
  exists c t, text s = c :: t /\ c <> c_rparen /\ is_type type_space c = false.
Proof.
  destruct s as [data|d children]; simpl; intros Hf.
  2: { eexists _, _. split; [done|]. by vm_compute. }
  destruct (use_implicit data) eqn:E.
  - destruct data as [|c data]; [done|]. unfold use_implicit in E.
    destruct (100 <=? length (c :: data))%nat; [done|].
    destruct (is_type type_name c) eqn:Ec; [|done].
    eexists _, _. split; [done|]. by apply name_not_paren in Ec as (_ & ? & ?).
  - destruct (putsize_200 (Z.of_nat (length data))) as [buf Hb]; [lia|].
    rewrite Hb. simpl. apply putsize_Some in Hb as (Hd & _ & Hl); [|lia].
    destruct buf as [|c buf]; [simpl in Hl; lia|]. eexists _, _. split; [done|].
    apply Forall_cons_iff in Hd as [Hd _]. by apply digit_not_rparen.
Qed.

Lemma skip_space_text s rest : skel_fits s -> skip_space (text s ++ rest) = text s ++ rest.
Proof.
  intros Hs. destruct (text_head s Hs) as (c & t & -> & _ & Hsp). simpl. by rewrite Hsp.
Qed.

Lemma delimited_space rest : delimited (c_space :: rest).
Proof. reflexivity. Qed.

Lemma delimited_rparen rest : delimited (c_rparen :: rest).
Proof. reflexivity. Qed.

(** The statement of the round trip for one element in context. *)
Definition parses_back (s : skel) : Prop :=
  forall rest fuel, skel_fits s -> delimited rest ->
  Z.of_nat (length (text s ++ rest)) < two64 ->
  (2 * length (text s ++ rest) + 1 <= fuel)%nat ->
  exists s', parse fuel (text s ++ rest) = Some (s', rest) /\ s' ≡ s.

Lemma atom_parses_back data : parses_back (Atom data).
Proof.
  intros rest [|fuel] Hf Hr Hlen Hfuel; [lia|]. exists (Atom data). split; [|done].
  unfold text in *. destruct (use_implicit data) eqn:E.
  - destruct data as [|c data]; [done|]. unfold use_implicit in E.
    destruct (100 <=? length (c :: data))%nat; [done|].
    destruct (is_type type_name c) eqn:Ec; [|done].
    cbn [parse app]. apply name_not_paren in Ec as Hp.
    rewrite bool_decide_eq_false_2 by apply Hp. rewrite Ec.
    unfold implicit_atom. rewrite Ec. by rewrite implicit_end_stop.
  - destruct (putsize_200 (Z.of_nat (length data))) as [buf Hb]; [simpl in Hf; lia|].
    rewrite Hb in *. simpl default in *. rewrite <- app_assoc in *. cbn [app] in *.
    apply (explicit_atom_text buf data rest) in Hlen as Hex; [|done].
    apply putsize_Some in Hb as (Hd & _ & Hl); [|lia].
    destruct buf as [|c buf]; [simpl in Hl; lia|].
    apply Forall_cons_iff in Hd as [Hd _]. apply digit_starts_explicit in Hd as [Hp Hn].
    cbn [parse app] in *. by rewrite bool_decide_eq_false_2, Hn.
Qed.

(** The loop over the children, the list's closing parenthesis included. *)
Lemma children_parse_back children rest fuel :
  Forall parses_back children -> Forall skel_fits children ->
  let txt := sep_concat (text <$> children) ++ c_rparen :: rest in
  Z.of_nat (length txt) < two64 -> (2 * length txt + 2 <= fuel)%nat ->
  exists l, parse_list fuel txt = Some (l, rest) /\ erase <$> l = erase <$> children.
Proof.
  intros Hpb. revert rest fuel.
  induction Hpb as [|s children Hs Hpb IH]; intros rest [|fuel] Hfit txt Hlen Hfuel;
    try lia.
  { exists []. split; [|done]. unfold txt. simpl.
    by change (is_type type_space c_rparen) with false. }
  apply Forall_cons_iff in Hfit as [Hfs Hfit]. unfold txt in *. clear txt. simpl in *.
  rewrite <- app_assoc in *.
  set (tail := _ ++ c_rparen :: rest) in *.
  assert (delimited tail) as Hdel.
  { unfold tail. destruct children; reflexivity. }
  rewrite length_app in Hlen, Hfuel.
  rewrite skip_space_text by done.
  destruct (text_head s Hfs) as (c & t & Ht & Hc & Hsp). rewrite Ht. cbn [app].
  rewrite bool_decide_eq_false_2 by done.
  change (c :: t ++ tail) with ((c :: t) ++ tail). rewrite <- Ht.
  destruct (Hs tail fuel) as (s' & -> & Heq); try done; try (rewrite length_app; lia).
  cbn [mbind option_bind].
  assert (exists l, parse_list fuel tail = Some (l, rest) /\
    erase <$> l = erase <$> children) as (l & -> & Hl).
  { assert (1 <= length (text s))%nat by (rewrite Ht; simpl; lia).
    destruct children as [|s2 children].
    - apply IH; [done|..]; unfold tail in *; simpl in *; lia.
    - destruct fuel as [|fuel]; [lia|].
      destruct (IH rest (S fuel)) as (l & Hp & Hl); [done|..].
      1,2: unfold tail in *; simpl in *; lia.
      exists l. split; [|done]. rewrite <- Hp. unfold tail. cbn [fmap list_fmap parse_list].
      by change (is_type type_space c_space) with true. }
  eexists. split; [done|]. unfold equiv, skel_equiv in Heq.
  by rewrite !fmap_cons, Hl, Heq.
Qed.

Lemma skel_parses_back s : parses_back s.
Proof.
  induction s as [data|d children IH] using skel_rect_nested.
  { apply atom_parses_back. }
  intros rest [|fuel] Hf Hr Hlen Hfuel; [lia|]. apply skel_fits_list in Hf.
  cbn [text app] in *. rewrite <- app_assoc in *. cbn [app] in *.
  cbn [parse]. rewrite bool_decide_eq_true_2 by done.
  destruct (children_parse_back children rest fuel IH Hf) as (l & -> & Hl).
  1,2: simpl in *; lia.
  simpl. eexists. split; [done|]. unfold equiv, skel_equiv. simpl. by rewrite Hl.
Qed.

(** ** The size estimate *)

Lemma atom_estimate data :
  Z.of_nat (length data) < two64 ->
  Z.of_nat (length (text (Atom data))) <= estimate_unparsed_size (Atom data).
Proof.
  intros Hf. cbn [text estimate_unparsed_size].
  destruct (use_implicit data) eqn:E; [bool_case; lia|].
  destruct (putsize_200 (Z.of_nat (length data))) as [buf Hb]; [lia|].
  rewrite Hb. simpl default. rewrite length_app. simpl length. bool_case.
  - assert (length buf <= 2)%nat; [|lia].
    apply (putsize_length 200 (Z.of_nat (length data))); [|lia|done].
    change (10 ^ Z.of_nat 2) with 100. lia.
  - assert (length buf <= 20)%nat; [|lia].
    apply (putsize_length 200 (Z.of_nat (length data))); [|lia|done].
    assert (two64 < 10 ^ Z.of_nat 20) by reflexivity. lia.
Qed.

Lemma text_estimate s :
  skel_fits s -> Z.of_nat (length (text s)) <= estimate_unparsed_size s.
Proof.
  induction s as [data|d children IH] using skel_rect_nested; intros Hf.
  { by apply atom_estimate. }
  apply skel_fits_list in Hf. cbn [text estimate_unparsed_size].
  simpl length. rewrite length_app. simpl length.
  enough (Z.of_nat (length (sep_concat (text <$> children))) + 2 <=
    foldr (λ child total_len, total_len + (estimate_unparsed_size child + 1)) 2 children)
    by lia.
  induction IH as [|s children Hs IH IHl]; [done|].
  apply Forall_cons_iff in Hf as [Hfs Hf]. specialize (IHl Hf). specialize (Hs Hfs).
  rewrite fmap_cons. simpl. rewrite length_app. destruct children; simpl in *; lia.
Qed.

Lemma text_equiv s1 s2 : s1 ≡ s2 -> text s1 = text s2.
Proof.
  unfold equiv, skel_equiv. enough (forall s, text (erase s) = text s) as H.
  { intros E. by rewrite <- (H s1), <- (H s2), E. }
  induction s as [data|d children IH] using skel_rect_nested; [done|].
  cbn [erase text]. do 3 f_equal. rewrite <- list_fmap_compose.
  apply list_fmap_ext. intros i x Hx. rewrite Forall_lookup in IH. by eapply IH.
Qed.

#[export] Instance text_proper : Proper ((≡) ==> (=)) text.
Proof. repeat intro. by apply text_equiv. Qed.

Lemma copy_skel_erase s : svn_fs__copy_skel s = erase s.
Proof. reflexivity. Qed.

Lemma erase_idemp s : erase (erase s) = erase s.
Proof.
  induction s as [data|d children IH] using skel_rect_nested; [done|]. simpl. f_equal.
  rewrite <- list_fmap_compose. apply list_fmap_ext. intros i x Hx.
  rewrite Forall_lookup in IH. by eapply IH.
Qed.

Lemma list_length_eq data children :
  svn_fs__list_length (Some (SList data children)) = Z.of_nat (length children).
Proof. simpl. induction children; simpl; lia. Qed.

Lemma unparse_skel_text s : skel_fits s -> svn_fs__unparse_skel s = Ok (text s).
Proof. intros H. unfold svn_fs__unparse_skel. by rewrite unparse_text. Qed.

(** Parsing the text of a skel that fits gives the skel back. *)
Lemma parse_skel_text s :
  skel_fits s -> Z.of_nat (length (text s)) < two64 ->
  exists s', svn_fs__parse_skel (text s) = Some s' /\ s' ≡ s.
Proof.
  intros Hf Hlen. unfold svn_fs__parse_skel.
  destruct (skel_parses_back s [] (2 * length (text s) + 1)%nat) as (s' & Hp & Heq);
    rewrite ?app_nil_r; try done.
  rewrite app_nil_r in Hp. exists s'. by rewrite Hp.
Qed.

(** A skel that can be stored. *)
Definition skel_storable (s : skel) : Prop := skel_fits s /\ Z.of_nat (length (text s)) < two64.

(** A stored skel, far from the limits of the address space. *)
Definition skel_small (s : skel) : Prop := skel_fits s /\ estimate_unparsed_size s < 2 ^ 62.

Lemma skel_fits_small s : skel_fits s -> estimate_unparsed_size s < two64 -> skel_storable s.
Proof. intros Hf He. split; [done|]. pose proof (text_estimate s Hf). lia. Qed.

Lemma atom_size d : estimate_unparsed_size (Atom d) <= Z.of_nat (length d) + 30.
Proof. cbn [estimate_unparsed_size]. destruct (_ <? _); lia. Qed.

Lemma atom_pos d : 0 <= estimate_unparsed_size (Atom d).
Proof. cbn [estimate_unparsed_size]. destruct (_ <? _); lia. Qed.

Lemma list_estimate d l :
  estimate_unparsed_size (SList d l) = foldr (λ child total_len, total_len + (estimate_unparsed_size child + 1)) 2 l.
Proof. done. Qed.

Lemma estimate_app l s :
  foldr (λ child total_len, total_len + (estimate_unparsed_size child + 1)) 2 (l ++ [s]) =
  foldr (λ child total_len, total_len + (estimate_unparsed_size child + 1)) 2 l + (estimate_unparsed_size s + 1).
Proof. induction l as [|s' l IH]; cbn [app foldr]; [lia|]. rewrite IH. lia. Qed.

Lemma atom_length d : Z.of_nat (length d) <= estimate_unparsed_size (Atom d).
Proof. cbn [estimate_unparsed_size]. destruct (_ <? _); lia. Qed.

Lemma skel_size_pos s : 0 <= estimate_unparsed_size s.
Proof.
  induction s as [d|d l IH] using skel_rect_nested; [apply atom_pos|]. rewrite list_estimate.
  induction IH as [|s l Hs Hl IH]; cbn [foldr]; lia.
Qed.

Lemma small_storable s : skel_small s -> skel_storable s.
Proof. intros [Hf He]. apply skel_fits_small; [done|]. unfold two64. lia. Qed.

Lemma storable_equiv s1 s2 : s1 ≡ s2 -> skel_storable s1 -> skel_storable s2.
Proof.
  intros E [Hf Ht]. split; [|by rewrite <- E].
  clear Ht. revert s2 E. induction s1 as [data|d l IH] using skel_rect_nested; intros [data2|d2 l2] E; try done.
  - by injection E as <-.
  - apply skel_fits_list in Hf. apply skel_fits_list. injection E as E. revert l2 E.
    induction IH as [|x l Hx Hl IHl]; intros [|y l2] E; try done.
    apply Forall_cons_iff in Hf as [Hfx Hf]. injection E as Exy E. constructor; [by apply Hx|by apply IHl].
Qed.

(** Skels that are the same up to the record of where lists were parsed from. *)
Lemma equiv_atom s data : s ≡ Atom data <-> s = Atom data.
Proof. split; [|by intros ->]. destruct s; [|done]. by intros [= ->]. Qed.

Lemma equiv_list s d l : s ≡ SList d l -> exists d' l', s = SList d' l' /\ Forall2 (≡) l' l.
Proof.
  destruct s as [|d' l']; [done|]. intros [= E]. exists d', l'. split; [done|].
  revert l E. induction l' as [|x l' IH]; intros [|y l] E; try done.
  injection E as Exy E. constructor; [done|by apply IH].
Qed.

(** ** Properties *)

(** C35. Round trip: a skel whose text fits in the address space is unparsed
    without aborting, and parsing the text gives an equal skel back (equal up
    to the record of where lists were parsed from). *)
Theorem parse_unparse s :
  skel_fits s -> Z.of_nat (length (text s)) < two64 ->
  exists txt s', svn_fs__unparse_skel s = Ok txt /\
    svn_fs__parse_skel txt = Some s' /\ s' ≡ s.
Proof.
  intros Hf Hlen. destruct (parse_skel_text s Hf Hlen) as (s' & Hp & Heq).
  exists (text s), s'. by rewrite unparse_skel_text.
Qed.

(** Two skels are written as the same text only if they are equal: the
    representation stored in the tables is unambiguous. *)
Theorem unparse_inj s1 s2 txt :
  skel_fits s1 -> skel_fits s2 -> Z.of_nat (length txt) < two64 ->
  svn_fs__unparse_skel s1 = Ok txt -> svn_fs__unparse_skel s2 = Ok txt -> s1 ≡ s2.
Proof.
  intros Hf1 Hf2 Hlen H1 H2. rewrite unparse_skel_text in H1, H2 by done.
  injection H1 as <-. injection H2 as E.
  destruct (parse_skel_text s1) as (s1' & Hp1 & E1); [done..|].
  destruct (parse_skel_text s2) as (s2' & Hp2 & E2); [done|by rewrite E|].
  rewrite E in Hp2. rewrite <- E1, <- E2. rewrite Hp1 in Hp2. by injection Hp2 as ->.
Qed.

(** Termination and locality of the parser: on every input two calls per
    byte are enough (more fuel never changes the answer), and a successful
    parse stops inside the buffer, after consuming at least one byte. *)
Theorem parse_terminates fuel data :
  (2 * length data + 1 <= fuel)%nat ->
  parse fuel data = parse (2 * length data + 1)%nat data /\
  forall s rest, parse fuel data = Some (s, rest) ->
    exists c pre, data = c :: pre ++ rest.
Proof.
  intros Hf. split; [|apply parse_rest].
  by apply (proj1 (parse_fuel_indep fuel)).
Qed.

(** [svn_fs__unparse_skel] never outgrows its estimate: the text is at
    most [estimate_unparsed_size] bytes, so the buffer it allocates (the
    estimate plus 200) is never reallocated. *)
Theorem unparse_estimate s :
  skel_fits s ->
  exists txt, svn_fs__unparse_skel s = Ok txt /\
    Z.of_nat (length txt) <= estimate_unparsed_size s.
Proof.
  intros Hf. exists (text s). split; [by apply unparse_skel_text|by apply text_estimate].
Qed.

(** A copy of a skel is equal to it, and is written as the same text. *)
Theorem copy_skel_equiv s :
  svn_fs__copy_skel s ≡ s /\ text (svn_fs__copy_skel s) = text s.
Proof.
  assert (svn_fs__copy_skel s ≡ s) as H; [|split; [exact H|exact (text_equiv _ _ H)]].
  exact (erase_idemp s).
Qed.

(** ** Witnesses *)

Definition sample_skel : skel :=
  SList [] [Atom (bstr "revision"); Atom (bstr "100.10"); SList [] [Atom []; Atom (bstr "a (b) c")]].

Lemma sample_skel_fits : skel_fits sample_skel.
Proof. split_and!; done. Qed.

Lemma parse_unparse_witness :
  text sample_skel = bstr "(revision 6 100.10 (0  7 a (b) c))" /\
  exists txt s', svn_fs__unparse_skel sample_skel = Ok txt /\
    svn_fs__parse_skel txt = Some s' /\ s' ≡ sample_skel.
Proof.
  split; [reflexivity|]. apply (parse_unparse sample_skel).
  - apply sample_skel_fits.
  - reflexivity.
Defined.

Lemma unparse_inj_witness :
  SList (bstr "(a)") [Atom (bstr "a")] ≡ SList [] [Atom (bstr "a")].
Proof.
  apply (unparse_inj _ _ (bstr "(a)")).
  - split_and!; done.
  - split_and!; done.
  - reflexivity.
  - reflexivity.
  - reflexivity.
Defined.

Lemma parse_terminates_witness :
  parse 100 (bstr "(a b)") = parse (2 * length (bstr "(a b)") + 1)%nat (bstr "(a b)") /\
  forall s rest, parse 100 (bstr "(a b)") = Some (s, rest) ->
    exists c pre, bstr "(a b)" = c :: pre ++ rest.
Proof. apply (parse_terminates 100 (bstr "(a b)")). simpl. lia. Defined.

Lemma unparse_estimate_witness :
  exists txt, svn_fs__unparse_skel sample_skel = Ok txt /\
    Z.of_nat (length txt) <= estimate_unparsed_size sample_skel.
Proof. apply (unparse_estimate sample_skel). apply sample_skel_fits. Defined.
