(* ===== verification/Proplist.v ===== *)
(** * Property lists, names of entries and the equality of skels
    ([libsvn_fs/proplist.c], [libsvn_fs/validate.c], [libsvn_fs/skel.c])

    A property list is a skel whose elements are, in turn, names and values.  Its
    operations are proved to implement a finite map. *)

From S2P Require Import Prelude Skel.

(** ** Names of entries *)

(** [name] is a C string. *)
Definition svn_fs__is_single_path_component (name : bytes) : bool :=
  match name with
  | [] => false
  | c :: rest =>
      if bool_decide (c = zb 46) &&
         match rest with [] => true | d :: rest => bool_decide (d = zb 46) && bool_decide (rest = []) end
      then false
      else negb (bool_decide (zb 47 ∈ name))
  end.

(** ** Comparing skels *)

(** Whether [strncmp] finds no difference in blocks of the same length. *)
Fixpoint strncmp_same (d1 d2 : bytes) : bool :=
  match d1, d2 with
  | c1 :: d1, c2 :: d2 => bool_decide (c1 = c2) && (bool_decide (c1 = zb 0) || strncmp_same d1 d2)
  | _, _ => true
  end.

(** [same]: the pointers are equal.  The children of a list are compared through
    [children + i], which is the [i]th child only for [i = 0]: they are a linked
    list. *)
Fixpoint svn_fs__skels_are_equal (same : bool) (skel1 skel2 : skel) : outcome bool :=
  if same then Ok true
  else
    match skel1, skel2 with
    | Atom d1, Atom d2 => Ok (bool_decide (length d1 = length d2) && strncmp_same d1 d2)
    | SList _ l1, SList _ l2 =>
        if bool_decide (length l1 = length l2) then
          match l1, l2 with
          | c1 :: rest, c2 :: _ =>
              eq ← svn_fs__skels_are_equal false c1 c2;
              if (eq : bool) then match rest with [] => Ok true | _ => Undef end else Ok false
          | _, _ => Ok true
          end
        else Ok false
    | _, _ => Ok false
    end.

(** ** Property lists

    [name] is a C string; a value is [None] for a null pointer.  The elements come
    in pairs, which [svn_fs__is_valid_proplist] has checked. *)

Fixpoint get_prop_loop (l : list skel) (name : bytes) : option bytes :=
  match l with
  | this_name :: this_value :: l =>
      if svn_fs__matches_atom (Some this_name) name then Some (skel_data this_value) else get_prop_loop l name
  | _ => None
  end.

Definition svn_fs__get_prop (proplist : skel) (name : bytes) : outcome (option bytes) :=
  if negb (svn_fs__is_valid_proplist proplist) then Err SVN_ERR_FS_CORRUPT
  else Ok (get_prop_loop (kids proplist) name).

Fixpoint prop_hash_loop (l : list skel) (table : gmap bytes bytes) : gmap bytes bytes :=
  match l with
  | this_name :: this_value :: l => prop_hash_loop l (<[skel_data this_name := skel_data this_value]> table)
  | _ => table
  end.

Definition svn_fs__make_prop_hash (proplist : skel) : outcome (gmap bytes bytes) :=
  if negb (svn_fs__is_valid_proplist proplist) then Err SVN_ERR_FS_CORRUPT
  else Ok (prop_hash_loop (kids proplist) ∅).

(** The loop of [svn_fs__set_prop]; [None] when the property is not there. *)
Fixpoint set_prop_loop (l : list skel) (name : bytes) (value : option bytes) : option (list skel) :=
  match l with
  | this_name :: this_value :: l =>
      if svn_fs__matches_atom (Some this_name) name then
        Some match value with
             | None => l
             | Some data => this_name :: set_data this_value data :: l
             end
      else l ← set_prop_loop l name value; Some (this_name :: this_value :: l)
  | _ => None
  end.

Definition svn_fs__set_prop (proplist : skel) (name : bytes) (value : option bytes) : outcome skel :=
  if negb (svn_fs__is_valid_proplist proplist) then Err SVN_ERR_FS_CORRUPT
  else
    match set_prop_loop (kids proplist) name value, value with
    | Some l, _ => Ok (set_kids proplist l)
    | None, None => Ok proplist
    | None, Some data =>
        proplist ← svn_fs__prepend (svn_fs__mem_atom data (length data)) proplist;
        svn_fs__prepend (svn_fs__mem_atom name (length name)) proplist
    end.

(** ** The finite map of a property list *)

Fixpoint prop_atoms (ps : list (bytes * bytes)) : list skel :=
  match ps with [] => [] | (n, v) :: ps => Atom n :: Atom v :: prop_atoms ps end.

Definition prop_map (ps : list (bytes * bytes)) : gmap bytes bytes := list_to_map ps.

(** A property list as the filesystem makes them, no name being there twice, and
    its map. *)
Definition proplist_is (p : skel) (m : gmap bytes bytes) : Prop :=
  exists ps, kids p = prop_atoms ps /\ (exists d l, p = SList d l) /\ NoDup ps.*1 /\ m = prop_map ps.

Lemma prop_atoms_length ps : length (prop_atoms ps) = (2 * length ps)%nat.
Proof. induction ps as [|[n v] ps IH]; [done|]. cbn [prop_atoms length]. rewrite IH. lia. Qed.

Lemma valid_atoms d ps : svn_fs__is_valid_proplist (SList d (prop_atoms ps)) = true.
Proof.
  unfold svn_fs__is_valid_proplist. rewrite list_length_eq, prop_atoms_length.
  change 1 with (Z.ones 1). rewrite Z.land_ones by lia. replace (_ mod _) with 0.
  - destruct (Z.leb_spec 0 (Z.of_nat (2 * length ps))); [|lia]. cbn [andb Z.eqb].
    induction ps as [|[n v] ps IH]; [done|]. cbn [prop_atoms forallb]. apply IH. lia.
  - rewrite Nat2Z.inj_mul. change (2 ^ 1) with 2. rewrite Z.mul_comm, Z.mod_mul; lia.
Qed.

(** Every valid list is one of pairs of atoms. *)
Lemma valid_pairs p : svn_fs__is_valid_proplist p = true -> exists d ps, p = SList d (prop_atoms ps).
Proof.
  destruct p as [d|d l]; [done|]. unfold svn_fs__is_valid_proplist. rewrite list_length_eq.
  change 1 with (Z.ones 1). rewrite Z.land_ones by lia. change (2 ^ 1) with 2.
  destruct (_ && _) eqn:E; [|done]. apply andb_true_iff in E as [_ E%Z.eqb_eq]. intros Ha.
  assert (exists k, length l = (2 * k)%nat) as [k Hk].
  { exists (Z.to_nat (Z.of_nat (length l) / 2)). pose proof (Z.div_mod (Z.of_nat (length l)) 2 ltac:(lia)). lia. }
  clear E. exists d. revert l Hk Ha. induction k as [|k IH]; intros l Hk Ha.
  - exists []. by destruct l.
  - destruct l as [|[n|] [|[v|] l]]; try (simpl in Hk; lia); try done.
    cbn [forallb andb] in Ha. destruct (IH l) as [ps E]; [simpl in Hk; lia|done|].
    injection E as ->. by exists ((n, v) :: ps).
Qed.

Lemma get_prop_atoms ps name : get_prop_loop (prop_atoms ps) name = prop_map ps !! name.
Proof.
  induction ps as [|[n v] ps IH]; [done|].
  cbn [prop_atoms get_prop_loop svn_fs__matches_atom prop_map list_to_map foldr skel_data curry fst snd].
  rewrite IH. unfold prop_map. cbn. destruct (decide (n = name)) as [->|Hne].
  - rewrite lookup_insert_eq, Nat.eqb_refl, bool_decide_true by done. done.
  - rewrite lookup_insert_ne, (bool_decide_false (n = name)), andb_false_r by done. done.
Qed.

Lemma prop_hash_atoms ps table : NoDup ps.*1 -> prop_hash_loop (prop_atoms ps) table = prop_map ps ∪ table.
Proof.
  revert table. induction ps as [|[n v] ps IH]; intros table Hnd.
  - unfold prop_map. cbn. by rewrite map_empty_union.
  - apply list.NoDup_cons in Hnd as [Hn Hnd]. cbn [prop_atoms prop_hash_loop skel_data].
    rewrite IH by done. unfold prop_map. cbn. rewrite <- insert_union_r, insert_union_l; [done|].
    by apply not_elem_of_list_to_map_1.
Qed.

Lemma set_prop_atoms ps name value :
  NoDup ps.*1 ->
  match set_prop_loop (prop_atoms ps) name value with
  | Some l => exists ps', l = prop_atoms ps' /\ NoDup ps'.*1 /\
      prop_map ps' = partial_alter (λ _, value) name (prop_map ps) /\ (forall n, n ∈ ps'.*1 -> n ∈ ps.*1)
  | None => prop_map ps !! name = None /\ name ∉ ps.*1
  end.
Proof.
  induction ps as [|[n v] ps IH]; intros Hnd; [by split; [|apply not_elem_of_nil]|].
  apply list.NoDup_cons in Hnd as [Hn Hnd]. specialize (IH Hnd). cbn [prop_atoms set_prop_loop svn_fs__matches_atom].
  unfold prop_map. cbn. destruct (decide (n = name)) as [->|Hne].
  - rewrite Nat.eqb_refl, bool_decide_true by done. cbn [andb]. destruct value as [data|].
    + exists ((name, data) :: ps). split; [done|]. split; [by apply list.NoDup_cons|]. split; [|done]. cbn.
      unfold prop_map. cbn. unfold insert, map_insert. by rewrite partial_alter_partial_alter_eq.
    + exists ps. split; [done|]. split; [done|]. split; [|by intros k ?; right].
      unfold insert, map_insert. rewrite partial_alter_partial_alter_eq. symmetry.
      apply partial_alter_id. symmetry. by apply not_elem_of_list_to_map_1.
  - rewrite (bool_decide_false (n = name)), andb_false_r by done.
    destruct (set_prop_loop (prop_atoms ps) name value) as [l|]; cbn.
    + destruct IH as (ps' & -> & Hnd' & Hm & Hsub). exists ((n, v) :: ps'). split; [done|].
      split; [apply list.NoDup_cons; split; [by intros ?%Hsub|done]|].
      split; [|intros k [->|?%Hsub]%elem_of_cons; [left|by right]].
      unfold prop_map in Hm. cbn. rewrite Hm. unfold insert, map_insert. by apply partial_alter_partial_alter_ne.
    + destruct IH as [Hm Hn']. rewrite lookup_insert_ne by done. split; [done|by apply not_elem_of_cons].
Qed.

Lemma is_valid_is p m : proplist_is p m -> svn_fs__is_valid_proplist p = true.
Proof. intros (ps & Hk & (d & l & ->) & _ & _). cbn [kids] in Hk. subst l. apply valid_atoms. Qed.

Lemma atoms_equiv l ps : Forall2 (≡) l (prop_atoms ps) -> l = prop_atoms ps.
Proof.
  revert l. induction ps as [|[n v] ps IH]; intros l H; [by inversion H|].
  inversion H as [|a ? l1 ? Ha H1]; subst. inversion H1 as [|b ? l2 ? Hb H2]; subst.
  rewrite equiv_atom in Ha, Hb. subst. cbn [prop_atoms]. do 2 f_equal. by apply IH.
Qed.

Lemma proplist_equiv p p' m : p' ≡ p -> proplist_is p m -> proplist_is p' m.
Proof.
  intros E (ps & Hk & (d & l & ->) & Hnd & ->). cbn [kids] in Hk. subst l.
  destruct (equiv_list _ _ _ E) as (d' & l' & -> & Hl%atoms_equiv). subst l'.
  exists ps. split; [done|]. split; [by eexists _, _|done].
Qed.

(** What setting a property adds to the size. *)
Lemma set_prop_size p name value p' :
  skel_fits p -> svn_fs__set_prop p name value = Ok p' ->
  Z.of_nat (length name) + Z.of_nat (length (default [] value)) < 2 ^ 62 ->
  skel_fits p' /\ estimate_unparsed_size p' <= estimate_unparsed_size p +
    Z.of_nat (length name) + Z.of_nat (length (default [] value)) + 100.
Proof.
  intros Hf. unfold svn_fs__set_prop. destruct (svn_fs__is_valid_proplist p) eqn:Hv; [|done].
  destruct (valid_pairs p Hv) as (d & ps & ->). apply skel_fits_list in Hf.
  cbn [negb kids]. intros E Hn.
  destruct (set_prop_loop (prop_atoms ps) name value) as [l|] eqn:El.
  - assert (p' = SList d l) as -> by (by destruct value; injection E as <-).
    enough (Forall skel_fits l /\ forall k, 0 <= k ->
      foldr (λ child total_len, total_len + (estimate_unparsed_size child + 1)) k l <=
      foldr (λ child total_len, total_len + (estimate_unparsed_size child + 1)) k (prop_atoms ps) +
        Z.of_nat (length (default [] value)) + 100) as [H1 H2].
    { split; [by apply skel_fits_list|]. specialize (H2 2). rewrite !list_estimate. lia. }
    clear E Hv. revert l El. induction ps as [|[n v] ps IH]; intros l; [done|].
    cbn [prop_atoms set_prop_loop] in *. apply Forall_cons_iff in Hf as [Hf1 Hf].
    apply Forall_cons_iff in Hf as [Hf2 Hf]. pose proof (atom_pos n). pose proof (atom_pos v).
    destruct (svn_fs__matches_atom _ _).
    + destruct value as [data|]; intros [= <-]; cbn [foldr set_data].
      * split; [|intros k Hk; pose proof (atom_size data); cbn [default from_option id] in *; lia].
        repeat (constructor; [try done|]); [|done]. cbn in *. unfold two64. lia.
      * split; [done|]. intros k Hk. lia.
    + destruct (set_prop_loop (prop_atoms ps) name value) as [l'|] eqn:El'; [|done].
      intros [= <-]. destruct (IH Hf l' eq_refl) as [H1 H2]. split; [by repeat constructor|].
      intros k Hk. specialize (H2 k Hk). cbn [foldr]. lia.
  - destruct value as [data|]; injection E as <-; [|split; [by apply skel_fits_list|lia]].
    unfold svn_fs__mem_atom. rewrite !firstn_all. split.
    + apply skel_fits_list. cbn [default from_option id] in *.
      constructor; [|constructor; [|done]]; cbn; unfold two64; lia.
    + rewrite !list_estimate. cbn [foldr default from_option id]. pose proof (atom_size name). pose proof (atom_size data). lia.
Qed.

Lemma get_prop_is p m name : proplist_is p m -> svn_fs__get_prop p name = Ok (m !! name).
Proof.
  intros Hp. unfold svn_fs__get_prop. rewrite (is_valid_is _ _ Hp). destruct Hp as (ps & -> & _ & _ & ->).
  cbn [negb]. by rewrite get_prop_atoms.
Qed.

Lemma prop_hash_is p m : proplist_is p m -> svn_fs__make_prop_hash p = Ok m.
Proof.
  intros Hp. unfold svn_fs__make_prop_hash. rewrite (is_valid_is _ _ Hp). destruct Hp as (ps & -> & _ & Hnd & ->).
  cbn [negb]. by rewrite prop_hash_atoms, map_union_empty by done.
Qed.

Lemma set_prop_is p m name value :
  proplist_is p m ->
  exists p', svn_fs__set_prop p name value = Ok p' /\ proplist_is p' (partial_alter (λ _, value) name m).
Proof.
  intros Hp. unfold svn_fs__set_prop. rewrite (is_valid_is _ _ Hp).
  destruct Hp as (ps & Hk & (d & l & ->) & Hnd & ->). cbn [kids] in Hk. subst l.
  cbn [negb kids]. pose proof (set_prop_atoms ps name value Hnd) as H.
  destruct (set_prop_loop _ _ _) as [l|].
  - destruct H as (ps' & -> & Hnd' & Hm & _). eexists. split; [by destruct value|]. exists ps'. split; [done|].
    split; [by exists d, (prop_atoms ps')|]. split; [done|]. by symmetry.
  - destruct H as [Hm Hn]. destruct value as [data|].
    + eexists. split; [done|]. exists ((name, data) :: ps). split.
      { unfold svn_fs__mem_atom. by rewrite !firstn_all. }
      split; [by eexists _, _|]. split; [by apply list.NoDup_cons|]. unfold prop_map. by cbn.
    + eexists. split; [done|]. exists ps. split; [done|]. split; [by eexists _, _|]. split; [done|].
      by apply partial_alter_id.
Qed.

(** C19. The property list of a node or a revision implements a finite map: it is
    read by name and as a whole, and setting or removing a property changes that
    property alone and keeps the names distinct. *)
Theorem proplist_correct p m name value :
  proplist_is p m ->
  svn_fs__get_prop p name = Ok (m !! name) /\ svn_fs__make_prop_hash p = Ok m /\
  exists p', svn_fs__set_prop p name value = Ok p' /\ proplist_is p' (partial_alter (λ _, value) name m).
Proof. intros Hp. split; [by apply get_prop_is|]. split; [by apply prop_hash_is|by apply set_prop_is]. Qed.

Definition sample_props : skel := SList [] [Atom (bstr "a"); Atom (bstr "1"); Atom (bstr "b"); Atom (bstr "2")].

Lemma proplist_correct_witness :
  svn_fs__get_prop sample_props (bstr "b") = Ok (prop_map [(bstr "a", bstr "1"); (bstr "b", bstr "2")] !! bstr "b") /\
  svn_fs__make_prop_hash sample_props = Ok (prop_map [(bstr "a", bstr "1"); (bstr "b", bstr "2")]) /\
  exists p', svn_fs__set_prop sample_props (bstr "b") None = Ok p' /\
    proplist_is p' (partial_alter (λ _, None) (bstr "b") (prop_map [(bstr "a", bstr "1"); (bstr "b", bstr "2")])).
Proof.
  apply (proplist_correct sample_props). exists [(bstr "a", bstr "1"); (bstr "b", bstr "2")].
  split; [done|]. split; [by eexists _, _|]. split; [|done].
  by apply (bool_decide_unpack _).
Defined.
