(* ===== verification/Id.v ===== *)
(** * Node revision ids ([libsvn_fs/id.c], [libsvn_fs/validate.c])

    A node or node revision id is an array of integers ended by [-1]:
    [100.10.3.2] is the second revision of the third branch off revision 10 of
    node 100.  The operations walk the arrays; the specification below reads
    an id as a path in the forest of node revisions and proves the operations
    against its parent relation. *)

From S2P Require Import Prelude KeyGen.

(** ** The operations

    Arrays are lists of cells, the terminator included; a pointer into an
    array is the list of cells from there on, and reading past the last cell
    is [Undef]. *)

Fixpoint svn_fs__id_length (id : list Z) : outcome nat :=
  match id with
  | [] => Undef
  | x :: id => if x =? -1 then Ok O else S <$> svn_fs__id_length id
  end.

Fixpoint svn_fs__id_eq (a b : list Z) : outcome bool :=
  match a, b with
  | x :: a, y :: b =>
      if x =? y then (if x =? -1 then Ok true else svn_fs__id_eq a b) else Ok false
  | _, _ => Undef
  end.

Fixpoint svn_fs__id_is_ancestor (a b : list Z) : outcome bool :=
  match a with
  | [] => Undef
  | a0 :: a1' =>
      if a0 =? -1 then Ok true
      else match b with
      | [] => Undef
      | b0 :: b1' =>
          if negb (a0 =? b0) then Ok false
          else match a1', b1' with
          | a1 :: a', b1 :: b' =>
              if b1 <? a1 then Ok false
              else if a1 <? b1 then a2 ← rd a' 0; Ok (a2 =? -1)
              else svn_fs__id_is_ancestor a' b'
          | _, _ => Undef
          end
      end
  end.

(** [distance_from_prefix (a, prefix)] on the cells from [prefix] on. *)
Fixpoint distance_loop (a : list Z) (d : Z) : outcome Z :=
  match a with
  | [] => Undef
  | a0 :: a1' =>
      if a0 =? -1 then Ok d
      else match a1' with
      | [] => Undef
      | a1 :: a' => distance_loop a' (int_t (d + a1))
      end
  end.

Definition distance_from_prefix (a : list Z) (prefix : nat) : outcome Z :=
  distance_loop (drop prefix a) 0.

(** The loop of [svn_fs_id_distance] that skips the common prefix: the final
    value of [i]. *)
Fixpoint skip_common (a b : list Z) (i : nat) : outcome nat :=
  match a, b with
  | a0 :: a1', b0 :: b1' =>
      if (a0 =? b0) && negb (a0 =? -1) then
        match a1', b1' with
        | a1 :: a', b1 :: b' =>
            if a1 =? b1 then skip_common a' b' (i + 2)%nat else Ok i
        | _, _ => Undef
        end
      else Ok i
  | _, _ => Undef
  end.

Definition svn_fs_id_distance (a b : list Z) : outcome Z :=
  a0 ← rd a 0; b0 ← rd b 0;
  if negb (a0 =? b0) then Ok (-1)
  else
    i ← skip_common a b 0;
    ai ← rd a i; bi ← rd b i;
    if (ai =? -1) && (bi =? -1) then Ok 0
    else if ai =? bi then
      da ← distance_from_prefix a (i + 2); db ← distance_from_prefix b (i + 2);
      a1 ← rd a (i + 1); b1 ← rd b (i + 1);
      Ok (int_t (da + db + Z.abs (int_t (a1 - b1))))
    else
      da ← distance_from_prefix a i; db ← distance_from_prefix b i;
      Ok (int_t (da + db)).

(** The loop of [svn_fs__id_is_parent]: the first index at which the ids
    differ, [None] when they are identical. *)
Fixpoint parent_loop (parent child : list Z) (i : nat) : outcome (option nat) :=
  match parent, child with
  | p :: parent, c :: child =>
      if p =? c then (if p =? -1 then Ok None else parent_loop parent child (S i))
      else Ok (Some i)
  | _, _ => Undef
  end.

(** Sequential (short-circuit) conjunction of tests that read cells. *)
Definition c_and (t1 t2 : outcome bool) : outcome bool :=
  b ← t1; if (b : bool) then t2 else Ok false.

Definition cell_test (l : list Z) (i : nat) (test : Z -> bool) : outcome bool :=
  x ← rd l i; Ok (test x).

Definition svn_fs__id_is_parent (parent child : list Z) : outcome bool :=
  r ← parent_loop parent child 0;
  match r with
  | None => Ok false
  | Some i =>
      next ← c_and (Ok (Nat.odd i))
        (c_and (p ← rd parent i; cell_test child i (λ c, c =? p + 1))
        (c_and (cell_test child (i + 1) (λ c, c =? -1))
               (cell_test parent (i + 1) (λ p, p =? -1))));
      if (next : bool) then Ok true
      else
        c_and (Ok (Nat.even i))
          (c_and (cell_test parent i (λ p, p =? -1))
          (c_and (cell_test child (i + 1) (λ c, negb (c =? -1)))
          (c_and (cell_test child (i + 2) (λ c, c =? 1))
                 (cell_test child (i + 3) (λ c, c =? -1)))))
  end.

Definition svn_fs__id_copy (id : list Z) : outcome (list Z) :=
  len ← svn_fs__id_length id;
  Ok (take (len + 1) id).

(** [None] is the null pointer. *)
Definition svn_fs__id_predecessor (id : list Z) : outcome (option (list Z)) :=
  len ← svn_fs__id_length id;
  pred ← svn_fs__id_copy id;
  x ← rd pred (len - 1);
  let pred := <[(len - 1)%nat := x - 1]> pred in
  if 0 <? x - 1 then Ok (Some pred)
  else if (2 <? len)%nat then Ok (Some (<[(len - 2)%nat := -1]> pred))
  else Ok None.

(** ** Parsing and unparsing *)

Definition c_dot : byte := zb 46.

(** The loop of [svn_fs__count_id_components], from index [i] on; [None] is
    its early [return 0]. *)
Fixpoint count_loop (data : bytes) (i last_start : nat) (id_len : Z) :
    option (nat * nat * Z) :=
  match data with
  | [] => Some (i, last_start, id_len)
  | c :: data =>
      if bool_decide (c = c_dot) then
        if (i =? last_start)%nat then None
        else count_loop data (S i) (S i) (id_len + 1)
      else if is_digit c then count_loop data (S i) last_start id_len
      else None
  end.

Definition svn_fs__count_id_components (data : bytes) : Z :=
  match count_loop data 0 0 1 with
  | None => 0
  | Some (i, last_start, id_len) => if (i =? last_start)%nat then 0 else id_len
  end.

(** The loop of [svn_fs_parse_id]; [n] bounds the number of components. *)
Fixpoint parse_id_loop (n : nat) (data : bytes) : option (list Z) :=
  match n with
  | O => None
  | S n =>
      match svn_fs__getsize data 100000000 with
      | None => None
      | Some (v, next) =>
          match drop next data with
          | [] => Some [v; -1]
          | c :: data => if bool_decide (c = c_dot) then cons v <$> parse_id_loop n data
                         else None
          end
      end
  end.

(** [svn_fs_parse_id]: the allocated array, [None] for the null pointer. *)
Definition svn_fs_parse_id (data : bytes) : option (list Z) :=
  if svn_fs__count_id_components data =? 0 then None
  else parse_id_loop (S (length data)) data.

Fixpoint svn_fs_unparse_id (id : list Z) : outcome bytes :=
  match id with
  | [] => Undef
  | x :: id =>
      if x =? -1 then Ok []
      else
        buf ← match svn_fs__putsize 200 (size_t x) with None => Abort | Some b => Ok b end;
        y ← rd id 0;
        rest ← svn_fs_unparse_id id;
        Ok (buf ++ (if y =? -1 then [] else [c_dot]) ++ rest)
  end.

(** ** Specification: the forest of node revisions

    A node revision id is a non-empty list of (node or branch number, revision
    number) pairs; its array form is the flattened list, then [-1], then
    whatever the allocation holds beyond the terminator. *)

Abbreviation nid := (list (Z * Z)).

Definition flat (p : nid) : list Z := p ≫= λ x, [x.1; x.2].
Arguments flat : simpl never.

Definition wf_nid (p : nid) : Prop := p <> [] /\ Forall (λ x, 0 <= x.1 /\ 1 <= x.2) p.

(** The array [a] holds the id [p]. *)
Definition repr (a : list Z) (p : nid) : Prop := exists junk, a = flat p ++ -1 :: junk.

(** The next revision of a node, and the first revision of a branch. *)
Inductive parent : nid -> nid -> Prop :=
  | parent_next p n r : parent (p ++ [(n, r)]) (p ++ [(n, r + 1)])
  | parent_branch p n : p <> [] -> 0 <= n -> parent p (p ++ [(n, 1)]).

Definition ancestor : nid -> nid -> Prop := rtc parent.

(** Number of steps down from the root of the tree of a node revision. *)
Definition depth (p : nid) : Z := foldr (λ x d, x.2 + d) 0 p.
Arguments depth : simpl never.

(** ** Ancestry *)

(** The recursion of [svn_fs__id_is_ancestor] on pairs. *)
Fixpoint anc_b (p q : nid) : bool :=
  match p, q with
  | [], _ => true
  | _ :: _, [] => false
  | (n, r) :: p, (n', r') :: q =>
      if negb (n =? n') then false
      else if r' <? r then false
      else if r <? r' then bool_decide (p = [])
      else anc_b p q
  end.

(** The deepest common ancestor. *)
Fixpoint lca (p q : nid) : nid :=
  match p, q with
  | (n, r) :: p, (n', r') :: q =>
      if n =? n' then (if r =? r' then (n, r) :: lca p q else [(n, Z.min r r')]) else []
  | _, _ => []
  end.

Lemma flat_nil : flat [] = [].
Proof. reflexivity. Qed.

Lemma flat_cons n r p : flat ((n, r) :: p) = n :: r :: flat p.
Proof. reflexivity. Qed.

Lemma flat_length p : length (flat p) = (2 * length p)%nat.
Proof. induction p as [|[n r] p IH]; [done|]. rewrite flat_cons. simpl. lia. Qed.

Lemma flat_app p q : flat (p ++ q) = flat p ++ flat q.
Proof. apply bind_app. Qed.

Lemma wf_nid_app p q : wf_nid p -> Forall (λ x, 0 <= x.1 /\ 1 <= x.2) q -> wf_nid (p ++ q).
Proof.
  intros [Hne Hp] Hq. split; [by destruct p|]. by apply Forall_app.
Qed.

Lemma ancestor_refl_ p : ancestor p p.
Proof. apply rtc_refl. Qed.

Lemma ancestor_next pre n r k : ancestor (pre ++ [(n, r)]) (pre ++ [(n, r + Z.of_nat k)]).
Proof.
  induction k as [|k IH]; [rewrite Z.add_0_r; apply rtc_refl|].
  eapply rtc_r; [exact IH|]. replace (r + Z.of_nat (S k)) with (r + Z.of_nat k + 1) by lia.
  constructor.
Qed.

Lemma ancestor_below p rest :
  p <> [] -> Forall (λ x, 0 <= x.1 /\ 1 <= x.2) rest -> ancestor p (p ++ rest).
Proof.
  intros Hp Hr. revert p Hp. induction Hr as [|[n r] rest [Hn Hr1] Hr IH]; intros p Hp.
  { rewrite app_nil_r. apply rtc_refl. }
  simpl in *. trans (p ++ [(n, 1)]); [apply rtc_once; by constructor|].
  trans (p ++ [(n, r)]).
  - replace r with (1 + Z.of_nat (Z.to_nat (r - 1))) by lia. apply ancestor_next.
  - replace (p ++ (n, r) :: rest) with ((p ++ [(n, r)]) ++ rest) by (by rewrite <- app_assoc).
    apply IH. by destruct p.
Qed.

Lemma anc_b_shape p q :
  anc_b p q = true <->
  p = [] \/ exists pre n r r' rest,
    p = pre ++ [(n, r)] /\ q = pre ++ (n, r') :: rest /\ r <= r'.
Proof.
  revert q. induction p as [|[n r] p IH]; intros q; simpl; [by split; [left|]|].
  destruct q as [|[n' r'] q]; simpl.
  { split; [done|]. intros [?|(pre & ? & ? & ? & ? & _ & E & _)]; [done|].
    by destruct pre. }
  destruct (Z.eqb_spec n n') as [->|Hn]; simpl.
  2: { split; [done|]. intros [?|(pre & ? & ? & ? & ? & E1 & E2 & _)]; [done|].
       destruct pre as [|hd pre]; simplify_eq/=. }
  destruct (Z.ltb_spec r' r); [|destruct (Z.ltb_spec r r')].
  - split; [done|]. intros [?|(pre & ? & ? & ? & ? & E1 & E2 & Hle)]; [done|].
    destruct pre as [|hd pre]; simplify_eq/=; lia.
  - rewrite bool_decide_eq_true. split.
    + intros ->. right. exists [], n', r, r', q. split_and!; try done; lia.
    + intros [?|(pre & ? & ? & ? & ? & E1 & E2 & Hle)]; [done|].
      destruct pre as [|hd pre]; simplify_eq/=; [done|]. lia.
  - assert (r' = r) as -> by lia. rewrite IH. split.
    + intros [->|(pre & m & s & s' & rest & -> & -> & Hle)]; right.
      * exists [], n', r, r, q. split_and!; try done; lia.
      * by exists ((n', r) :: pre), m, s, s', rest.
    + intros [?|(pre & m & s & s' & rest & E1 & E2 & Hle)]; [done|].
      destruct pre as [|hd pre]; simplify_eq/=; [by left|]. right.
      by exists pre, m, s, s', rest.
Qed.

Lemma anc_b_refl p : anc_b p p = true.
Proof.
  induction p as [|[n r] p IH]; simpl; [done|].
  by rewrite Z.eqb_refl, Z.ltb_irrefl.
Qed.

Lemma ancestor_anc_b p q : p <> [] -> ancestor p q -> anc_b p q = true.
Proof.
  intros Hp. revert q. apply rtc_ind_r; [apply anc_b_refl|].
  intros q q' Hq Hstep IH.
  apply anc_b_shape in IH as [->|(pre & n & r & r' & rest & -> & -> & Hle)]; [done|].
  apply anc_b_shape. right. inversion Hstep as [p0 n0 r0 E1 E2|p0 n0 Hp0 Hn0 E1 E2]; subst.
  - destruct (decide (rest = [])) as [->|Hne];
      [|destruct (exists_last Hne) as (rest' & y & ->); clear Hne; rename rest' into rest].
    + apply app_inj_tail in E1 as [-> [= -> ->]].
      exists pre, n, r, (r' + 1), []. split_and!; try done; lia.
    + rewrite app_comm_cons, app_assoc in E1. apply app_inj_tail in E1 as [-> <-].
      rewrite <- app_assoc. by exists pre, n, r, r', (rest ++ [(n0, r0 + 1)]).
  - rewrite <- app_assoc. by exists pre, n, r, r', (rest ++ [(n0, 1)]).
Qed.

Lemma anc_b_ancestor p q : p <> [] -> wf_nid q -> anc_b p q = true -> ancestor p q.
Proof.
  intros Hp [_ Hq] H.
  apply anc_b_shape in H as [->|(pre & n & r & r' & rest & -> & -> & Hle)]; [done|].
  apply Forall_app in Hq as [_ Hq]. apply Forall_cons_iff in Hq as [_ Hq].
  trans (pre ++ [(n, r')]).
  - replace r' with (r + Z.of_nat (Z.to_nat (r' - r))) by lia. apply ancestor_next.
  - replace (pre ++ (n, r') :: rest) with ((pre ++ [(n, r')]) ++ rest)
      by (by rewrite <- app_assoc).
    apply ancestor_below; [by destruct pre|done].
Qed.

Lemma anc_b_iff p q : p <> [] -> wf_nid q -> anc_b p q = true <-> ancestor p q.
Proof. split; [by apply anc_b_ancestor|by apply ancestor_anc_b]. Qed.

(** The code computes [anc_b] and never reads outside the arrays. *)
Lemma id_is_ancestor_anc_b p q j1 j2 :
  Forall (λ x, 0 <= x.1 /\ 1 <= x.2) p ->
  svn_fs__id_is_ancestor (flat p ++ -1 :: j1) (flat q ++ -1 :: j2) = Ok (anc_b p q).
Proof.
  intros Hp. revert q. induction Hp as [|[n r] p [Hn Hr] Hp IH]; intros q; [done|].
  rewrite flat_cons. cbn [app svn_fs__id_is_ancestor]. simpl in Hn, Hr.
  destruct (Z.eqb_spec n (-1)); [lia|].
  destruct q as [|[n' r'] q]; [change (flat []) with (@nil Z)|]; cbn [app].
  { destruct (Z.eqb_spec n (-1)); [lia|]. done. }
  rewrite flat_cons. cbn [app anc_b]. destruct (negb (n =? n')); [done|].
  destruct (r' <? r); [done|]. destruct (r <? r'); [|apply IH].
  destruct Hp as [|[n2 r2] p [Hn2 _] Hp]; [done|]. simpl in *.
  destruct (Z.eqb_spec n2 (-1)); [lia|]. done.
Qed.

(** ** Distance *)

Lemma depth_nil : depth [] = 0.
Proof. reflexivity. Qed.

Lemma depth_cons n r p : depth ((n, r) :: p) = r + depth p.
Proof. reflexivity. Qed.

Lemma depth_app p q : depth (p ++ q) = depth p + depth q.
Proof.
  induction p as [|[n r] p IH]; [done|]. cbn [app]. rewrite !depth_cons. lia.
Qed.

Lemma depth_nonneg p : Forall (λ x, 0 <= x.1 /\ 1 <= x.2) p -> 0 <= depth p.
Proof.
  induction 1 as [|[n r] p [? ?] Hp IH]; [done|]. rewrite depth_cons. simpl in *. lia.
Qed.

Lemma parent_depth p q : parent p q -> depth q = depth p + 1.
Proof. destruct 1; rewrite !depth_app, !depth_cons, ?depth_nil; lia. Qed.

Lemma nsteps_depth k p q : nsteps parent k p q -> depth q = depth p + Z.of_nat k.
Proof. induction 1 as [|k p q u H _ IH]; [lia|]. apply parent_depth in H. lia. Qed.


Lemma distance_loop_flat p junk d :
  Forall (λ x, 0 <= x.1 /\ 1 <= x.2) p -> 0 <= d -> d + depth p < 2 ^ 31 ->
  distance_loop (flat p ++ -1 :: junk) d = Ok (d + depth p).
Proof.
  intros Hp. revert d. induction Hp as [|[n r] p [Hn Hr] Hp IH]; intros d Hd Hb.
  { rewrite flat_nil. simpl. f_equal. rewrite depth_nil. lia. }
  pose proof (depth_nonneg p Hp). rewrite flat_cons. rewrite depth_cons in *. simpl in *.
  bool_case; [lia|]. rewrite int_t_small by lia. rewrite IH by lia. f_equal. lia.
Qed.

Lemma distance_from_prefix_flat pre p junk :
  Forall (λ x, 0 <= x.1 /\ 1 <= x.2) p -> depth p < 2 ^ 31 ->
  distance_from_prefix (flat (pre ++ p) ++ -1 :: junk) (2 * length pre) = Ok (depth p).
Proof.
  intros Hp Hb. unfold distance_from_prefix. rewrite flat_app, <- app_assoc.
  rewrite <- flat_length, drop_app_length.
  rewrite distance_loop_flat; [f_equal; lia|done..].
Qed.

(** The ids that differ in their first pair, or one of which is empty. *)
Definition diverge (p q : nid) : Prop := head p <> head q \/ (p = [] /\ q = []).

Lemma skip_common_flat p q j1 j2 i :
  Forall (λ x, 0 <= x.1 /\ 1 <= x.2) p -> Forall (λ x, 0 <= x.1 /\ 1 <= x.2) q ->
  exists pre p' q', p = pre ++ p' /\ q = pre ++ q' /\ diverge p' q' /\
    skip_common (flat p ++ -1 :: j1) (flat q ++ -1 :: j2) i = Ok (i + 2 * length pre)%nat.
Proof.
  intros Hp. revert q i. induction Hp as [|[n r] p [Hn Hr] Hp IH]; intros q i Hq.
  - exists [], [], q. split_and!; try done.
    + destruct q; [by right|by left].
    + rewrite flat_nil. destruct (flat q ++ -1 :: j2) eqn:E; [by destruct (flat q)|].
      cbn [app skip_common]. change (negb (-1 =? -1)) with false.
      rewrite andb_false_r. f_equal. simpl. lia.
  - destruct Hq as [|[n' r'] q [Hn' Hr'] Hq]; simpl in Hn, Hr.
    + exists [], ((n, r) :: p), []. split_and!; try done; [by left|].
      rewrite flat_cons, flat_nil. cbn [app skip_common].
      destruct (Z.eqb_spec n (-1)); [lia|]. rewrite andb_true_r. f_equal. simpl. lia.
    + rewrite !flat_cons. simpl in Hn', Hr'. cbn [app skip_common].
      destruct (Z.eqb_spec n (-1)); [lia|]. rewrite andb_true_r.
      destruct (Z.eqb_spec n n') as [<-|]; [destruct (Z.eqb_spec r r') as [<-|]|].
      * destruct (IH q (i + 2)%nat Hq) as (pre & p' & q' & -> & -> & Hdiv & ->).
        exists ((n, r) :: pre), p', q'. split_and!; try done. f_equal. simpl. lia.
      * exists [], ((n, r) :: p), ((n, r') :: q). split_and!; try done.
        -- left. simpl. congruence.
        -- f_equal. simpl. lia.
      * exists [], ((n, r) :: p), ((n', r') :: q). split_and!; try done.
        -- left. simpl. congruence.
        -- f_equal. simpl. lia.
Qed.

Lemma lca_app pre p q : lca (pre ++ p) (pre ++ q) = pre ++ lca p q.
Proof.
  induction pre as [|[n r] pre IH]; simpl; [done|]. by rewrite !Z.eqb_refl, IH.
Qed.

(** [lca p q] has exactly the common ancestors of [p] and [q]. *)
Lemma anc_b_lca c p q : c <> [] -> anc_b c (lca p q) = anc_b c p && anc_b c q.
Proof.
  intros _. revert p q. induction c as [|[m s] c IH]; intros p q; [done|].
  destruct p as [|[n r] p]; [done|]. destruct q as [|[n' r'] q].
  { cbn [lca anc_b]. by rewrite andb_false_r. }
  cbn [lca]. destruct (Z.eqb_spec n n') as [<-|Hn].
  - destruct (Z.eqb_spec r r') as [<-|Hr]; cbn [anc_b]; destruct (Z.eqb_spec m n);
      cbn [negb]; try done.
    + rewrite IH. repeat bool_case; try done; by rewrite andb_diag.
    + clear IH. destruct (Z.min_spec r r') as [[? ->]|[? ->]].
      all: destruct c as [|[m1 s1] c]; [simpl|rewrite !bool_decide_eq_false_2 by done].
      all: destruct (Z.ltb_spec r s), (Z.ltb_spec r' s), (Z.ltb_spec s r),
        (Z.ltb_spec s r'); try lia; simpl; rewrite ?andb_false_r; try done.
  - cbn [anc_b]. destruct (Z.eqb_spec m n), (Z.eqb_spec m n'); simpl; try done;
      try lia; by rewrite andb_false_r.
Qed.

Lemma lca_diverge p q :
  diverge p q ->
  (exists n r r' p' q', p = (n, r) :: p' /\ q = (n, r') :: q' /\ r <> r' /\
     lca p q = [(n, Z.min r r')]) \/
  (lca p q = [] /\ (p = [] \/ q = [] \/ fst <$> head p <> fst <$> head q)).
Proof.
  intros Hd. destruct p as [|[n r] p]; [right; split; [done|by left]|].
  destruct q as [|[n' r'] q]; [right; split; [done|by right; left]|].
  destruct Hd as [Hd|[? _]]; [|done]. cbn [lca head fst] in *.
  destruct (Z.eqb_spec n n') as [<-|Hn].
  - left. assert (r <> r') by congruence. exists n, r, r', p, q.
    destruct (Z.eqb_spec r r'); done.
  - right. split; [done|]. right; right. simpl. congruence.
Qed.

Lemma rd_flat_app pre l j k :
  rd (flat (pre ++ l) ++ -1 :: j) (2 * length pre + k) = rd (flat l ++ -1 :: j) k.
Proof.
  unfold rd. rewrite flat_app, <- app_assoc, lookup_app_r, flat_length by
    (rewrite flat_length; lia).
  by replace (2 * length pre + k - 2 * length pre)%nat with k by lia.
Qed.

Lemma rd_flat_0 pre l j :
  rd (flat (pre ++ l) ++ -1 :: j) (2 * length pre) = rd (flat l ++ -1 :: j) 0.
Proof. rewrite <- (rd_flat_app pre l j 0). f_equal. lia. Qed.

Lemma distance_from_prefix_next pre n r l j :
  Forall (λ x, 0 <= x.1 /\ 1 <= x.2) l -> depth l < 2 ^ 31 ->
  distance_from_prefix (flat (pre ++ (n, r) :: l) ++ -1 :: j) (2 * length pre + 2) =
    Ok (depth l).
Proof.
  intros Hl Hb.
  replace (2 * length pre + 2)%nat with (2 * length (pre ++ [(n, r)]))%nat
    by (rewrite length_app; simpl; lia).
  replace (pre ++ (n, r) :: l) with ((pre ++ [(n, r)]) ++ l) by (by rewrite <- app_assoc).
  by apply distance_from_prefix_flat.
Qed.

(** The node number an array starts with. *)
Lemma rd_flat_head p j :
  rd (flat p ++ -1 :: j) 0 = Ok (match head p with Some (n, _) => n | None => -1 end).
Proof. by destruct p as [|[n r] p]. Qed.

(** The value computed, in terms of the deepest common ancestor. *)
Lemma id_distance_lca p q j1 j2 :
  wf_nid p -> wf_nid q -> depth p + depth q < 2 ^ 31 ->
  svn_fs_id_distance (flat p ++ -1 :: j1) (flat q ++ -1 :: j2) =
    if bool_decide (lca p q = []) then Ok (-1)
    else Ok ((depth p - depth (lca p q)) + (depth q - depth (lca p q))).
Proof.
  intros [Hnp Hp] [Hnq Hq] Hb.
  destruct (skip_common_flat p q j1 j2 0 Hp Hq) as (pre & p' & q' & -> & -> & Hdiv & Hskip).
  unfold svn_fs_id_distance. rewrite Hskip, !rd_flat_head. clear Hskip.
  cbn [Nat.add mbind outcome_bind].
  apply Forall_app in Hp as [Hpre Hp'], Hq as [_ Hq'].
  pose proof (depth_nonneg pre Hpre). pose proof (depth_nonneg p' Hp').
  pose proof (depth_nonneg q' Hq').
  rewrite !depth_app in *. rewrite lca_app, !rd_flat_0, !rd_flat_app, !rd_flat_head.
  destruct (lca_diverge p' q' Hdiv) as
    [(n & r & r' & p2 & q2 & -> & -> & Hr & ->)|[-> Hsplit]].
  - rewrite (bool_decide_eq_false_2 (_ = [])) by (by destruct pre).
    assert (head (pre ++ (n, r) :: p2) = head (pre ++ (n, r') :: q2) \/ pre = []) as Hhd
      by (destruct pre; [by right|by left]).
    destruct (negb _) eqn:E; [destruct Hhd as [Hhd|Hhd]|].
    { rewrite Hhd, Z.eqb_refl in E. done. }
    { subst pre. simpl in E. by rewrite Z.eqb_refl in E. }
    clear E Hhd. cbn [head]. rewrite !depth_cons in *. apply Forall_cons_iff in Hp' as [[Hn Hr1] Hp2], Hq' as [[_ Hr1'] Hq2].
    pose proof (depth_nonneg p2 Hp2). pose proof (depth_nonneg q2 Hq2). simpl in Hn, Hr1, Hr1', Hb.
    cbn [mbind outcome_bind]. destruct (Z.eqb_spec n (-1)); [lia|]. cbn [andb].
    rewrite Z.eqb_refl, !distance_from_prefix_next by (done || lia).
    rewrite !flat_cons. simpl. rewrite (int_t_small (r - r')), int_t_small by lia.
    rewrite depth_app, depth_cons, depth_nil. f_equal. lia.
  - rewrite app_nil_r. destruct pre as [|[n r] pre].
    + simpl app in *. simpl length. change (2 * 0)%nat with 0%nat.
      destruct Hsplit as [->|[->|Hsplit]]; [done..|].
      destruct p' as [|[n r] p']; [done|]. destruct q' as [|[n' r'] q']; [done|].
      simpl in *. destruct (Z.eqb_spec n n'); [congruence|]. done.
    + cbn [app head]. rewrite Z.eqb_refl. cbn [negb].
      rewrite bool_decide_eq_false_2 by done. cbn [mbind outcome_bind].
      enough (distance_from_prefix (flat ((n, r) :: pre ++ p') ++ -1 :: j1)
                (2 * length ((n, r) :: pre)) = Ok (depth p') /\
              distance_from_prefix (flat ((n, r) :: pre ++ q') ++ -1 :: j2)
                (2 * length ((n, r) :: pre)) = Ok (depth q')) as [-> ->].
      { simpl. rewrite int_t_small by lia.
        destruct p' as [|[m s] p']; destruct q' as [|[m' s'] q']; cbn [head].
        - simpl. f_equal. rewrite depth_nil. lia.
        - apply Forall_cons_iff in Hq' as [[Hm _] _]. simpl in Hm.
          destruct (Z.eqb_spec m' (-1)), (Z.eqb_spec (-1) m'); try lia. simpl. f_equal. lia.
        - apply Forall_cons_iff in Hp' as [[Hm _] _]. simpl in Hm.
          destruct (Z.eqb_spec m (-1)); try lia. simpl. f_equal. lia.
        - apply Forall_cons_iff in Hp' as [[Hm _] _]. simpl in Hm.
          destruct (Z.eqb_spec m (-1)); try lia. simpl.
          destruct Hsplit as [?|[?|Hsplit]]; [done..|]. simpl in Hsplit.
          destruct (Z.eqb_spec m m'); [congruence|]. f_equal. lia. }
      pose proof (distance_from_prefix_flat ((n, r) :: pre)) as Hd.
      split; apply Hd; done || lia.
Qed.

(** ** Predecessors *)

Lemma id_length_flat p junk :
  Forall (λ x, 0 <= x.1 /\ 1 <= x.2) p ->
  svn_fs__id_length (flat p ++ -1 :: junk) = Ok (2 * length p)%nat.
Proof.
  induction 1 as [|[n r] p [Hn Hr] Hp IH]; [done|]. rewrite flat_cons.
  cbn [app svn_fs__id_length]. simpl in *.
  destruct (Z.eqb_spec n (-1)), (Z.eqb_spec r (-1)); try lia.
  rewrite IH. simpl. f_equal. lia.
Qed.

Lemma id_copy_flat p junk :
  Forall (λ x, 0 <= x.1 /\ 1 <= x.2) p ->
  svn_fs__id_copy (flat p ++ -1 :: junk) = Ok (flat p ++ [-1]).
Proof.
  intros Hp. unfold svn_fs__id_copy. rewrite id_length_flat by done. simpl. f_equal.
  rewrite take_app_ge by (rewrite flat_length; lia). f_equal.
  rewrite flat_length. by replace (length p + (length p + 0) + 1 - 2 * length p)%nat with 1%nat by lia.
Qed.

Lemma id_predecessor_flat pre n r junk :
  Forall (λ x, 0 <= x.1 /\ 1 <= x.2) (pre ++ [(n, r)]) ->
  svn_fs__id_predecessor (flat (pre ++ [(n, r)]) ++ -1 :: junk) =
    Ok (if 0 <? r - 1 then Some (flat pre ++ [n; r - 1; -1])
        else if bool_decide (pre = []) then None
        else Some (flat pre ++ [-1; r - 1; -1])).
Proof.
  intros Hp. unfold svn_fs__id_predecessor. rewrite id_length_flat, id_copy_flat by done.
  cbn [mbind outcome_bind]. rewrite length_app, flat_app. cbn [length].
  rewrite <- app_assoc, flat_cons, flat_nil. cbn [app].
  assert (2 * (length pre + 1) - 1 = length (flat pre) + 1)%nat as ->
    by (rewrite flat_length; lia).
  assert (2 * (length pre + 1) - 2 = length (flat pre) + 0)%nat as ->
    by (rewrite flat_length; lia).
  unfold rd. rewrite lookup_app_r by lia.
  replace (length (flat pre) + 1 - length (flat pre))%nat with 1%nat by lia.
  cbn [lookup list_lookup mbind outcome_bind]. rewrite insert_app_r. cbn [insert list_insert].
  destruct (0 <? r - 1); [done|].
  destruct pre as [|x pre]; [done|]. rewrite bool_decide_eq_false_2 by done.
  destruct (Nat.ltb_spec 2 (2 * (length (x :: pre) + 1))); [|simpl in *; lia].
  by rewrite insert_app_r.
Qed.

(** ** The direct-parent test *)

(** [c] is the revision after [p] of the same node. *)
Definition next_revision (p c : nid) : Prop :=
  exists pre n r, p = pre ++ [(n, r)] /\ c = pre ++ [(n, r + 1)].

Lemma parent_loop_app l a b i :
  Forall (λ x, x <> -1) l ->
  parent_loop (l ++ a) (l ++ b) i = parent_loop a b (length l + i)%nat.
Proof.
  intros Hl. revert i. induction Hl as [|x l Hx Hl IH]; intros i; simpl; [done|].
  rewrite Z.eqb_refl. destruct (Z.eqb_spec x (-1)); [done|]. rewrite IH. f_equal. lia.
Qed.

Lemma flat_no_term p : Forall (λ x, 0 <= x.1 /\ 1 <= x.2) p -> Forall (λ x, x <> -1) (flat p).
Proof.
  induction 1 as [|[n r] p [Hn Hr] Hp IH]; [constructor|]. rewrite flat_cons.
  simpl in *. repeat constructor; [lia..|done].
Qed.

Lemma split_common p q :
  exists pre p' q', p = pre ++ p' /\ q = pre ++ q' /\ diverge p' q'.
Proof.
  revert q. induction p as [|x p IH]; intros q.
  - exists [], [], q. split_and!; try done. destruct q; [by right|by left].
  - destruct q as [|y q].
    + exists [], (x :: p), []. split_and!; try done. by left.
    + destruct (decide (x = y)) as [<-|Hne].
      * destruct (IH q) as (pre & p' & q' & -> & -> & Hd). by exists (x :: pre), p', q'.
      * exists [], (x :: p), (y :: q). split_and!; try done. left. simpl. congruence.
Qed.

Lemma next_revision_app pre p c :
  diverge p c ->
  next_revision (pre ++ p) (pre ++ c) <-> exists n r, p = [(n, r)] /\ c = [(n, r + 1)].
Proof.
  intros Hd. split.
  - intros (pre' & n & r & E1 & E2). revert pre' E1 E2.
    induction pre as [|x pre IH]; intros [|x' pre'] E1 E2; simplify_eq/=.
    + by exists n, r.
    + destruct Hd as [Hd|[? _]]; [by destruct Hd|done].
    + exfalso. apply (f_equal length) in H1 as ?. destruct pre; [|done]. simplify_eq/=. lia.
    + by apply (IH pre').
  - intros (n & r & -> & ->). by exists pre, n, r.
Qed.

Lemma rd_app pre l k : rd (flat pre ++ l) (2 * length pre + k) = rd l k.
Proof.
  unfold rd. rewrite lookup_app_r by (rewrite flat_length; lia).
  rewrite flat_length. by replace (2 * length pre + k - 2 * length pre)%nat with k by lia.
Qed.

Lemma rd_app_0 pre l : rd (flat pre ++ l) (2 * length pre) = rd l 0.
Proof. rewrite <- (rd_app pre l 0). f_equal. lia. Qed.

Lemma cell_test_app pre l k t : cell_test (flat pre ++ l) (2 * length pre + k) t = cell_test l k t.
Proof. unfold cell_test. by rewrite rd_app. Qed.

Lemma cell_test_app_0 pre l t : cell_test (flat pre ++ l) (2 * length pre) t = cell_test l 0 t.
Proof. unfold cell_test. by rewrite rd_app_0. Qed.

Lemma parity_even m : Nat.even (2 * m) = true /\ Nat.odd (2 * m) = false.
Proof. rewrite <- Nat.negb_even, Nat.even_mul. done. Qed.

Lemma parity_odd m : Nat.even (2 * m + 1) = false /\ Nat.odd (2 * m + 1) = true.
Proof. rewrite <- Nat.negb_even, Nat.even_add, Nat.even_mul. done. Qed.

Definition nid_ok (p : nid) : Prop := Forall (λ x, 0 <= x.1 /\ 1 <= x.2) p.

Ltac is_parent_prefix :=
  unfold svn_fs__id_is_parent;
  rewrite ?flat_app, <- ?app_assoc, ?parent_loop_app by (by apply flat_no_term);
  rewrite ?flat_cons; cbn [app parent_loop].

Lemma id_is_parent_node pre n r p n' r' c j1 j2 :
  nid_ok pre -> 0 <= n -> n <> n' ->
  svn_fs__id_is_parent (flat (pre ++ (n, r) :: p) ++ -1 :: j1)
    (flat (pre ++ (n', r') :: c) ++ -1 :: j2) = Ok false.
Proof.
  intros Hpre Hn0 Hn. is_parent_prefix. destruct (Z.eqb_spec n n'); [done|].
  cbn [mbind outcome_bind]. rewrite flat_length, Nat.add_0_r.
  destruct (parity_even (length pre)) as [-> ->]. cbn [c_and mbind outcome_bind].
  rewrite cell_test_app_0. cbn. by destruct (Z.eqb_spec n (-1)); [lia|].
Qed.

Lemma id_is_parent_revision pre n r p r' c j1 j2 :
  nid_ok pre -> nid_ok ((n, r) :: p) -> nid_ok ((n, r') :: c) -> r <> r' ->
  svn_fs__id_is_parent (flat (pre ++ (n, r) :: p) ++ -1 :: j1)
    (flat (pre ++ (n, r') :: c) ++ -1 :: j2) =
    Ok ((r' =? r + 1) && bool_decide (c = []) && bool_decide (p = [])).
Proof.
  intros Hpre Hp Hc Hr. is_parent_prefix.
  apply Forall_cons_iff in Hp as [[Hn Hr1] Hp], Hc as [[_ Hr1'] Hc].
  simpl in Hn, Hr1, Hr1'. rewrite Z.eqb_refl. destruct (Z.eqb_spec n (-1)); [lia|].
  destruct (Z.eqb_spec r r'); [done|].
  cbn [mbind outcome_bind]. rewrite flat_length, Nat.add_0_r.
  replace (S (2 * length pre)) with (2 * length pre + 1)%nat by lia.
  destruct (parity_odd (length pre)) as [-> ->]. cbn [c_and mbind outcome_bind].
  rewrite <- !Nat.add_assoc. simpl (1 + 1)%nat.
  rewrite rd_app. cbn [rd lookup list_lookup mbind outcome_bind].
  rewrite !cell_test_app. cbn. destruct (Z.eqb_spec r' (r + 1)); [|done]. cbn.
  destruct Hc as [|[m s] c [Hm _] Hc]; [destruct Hp as [|[m s] p [Hm _] Hp]|];
    rewrite ?flat_cons; cbn; try done; simpl in Hm; by destruct (Z.eqb_spec m (-1)); [lia|].
Qed.

Lemma id_is_parent_end pre n r p j1 j2 :
  nid_ok pre -> nid_ok ((n, r) :: p) ->
  svn_fs__id_is_parent (flat pre ++ -1 :: j1) (flat (pre ++ (n, r) :: p) ++ -1 :: j2)
    = Ok false /\
  svn_fs__id_is_parent (flat (pre ++ (n, r) :: p) ++ -1 :: j1) (flat pre ++ -1 :: j2)
    = Ok false.
Proof.
  intros Hpre Hp. apply Forall_cons_iff in Hp as [[Hn Hr1] Hp]. simpl in Hn, Hr1.
  is_parent_prefix. destruct (Z.eqb_spec (-1) n), (Z.eqb_spec n (-1)); try lia.
  cbn [mbind outcome_bind]. rewrite flat_length, Nat.add_0_r.
  destruct (parity_even (length pre)) as [-> ->]. cbn [c_and mbind outcome_bind].
  rewrite !cell_test_app_0, !cell_test_app. split.
  - cbn. destruct (Z.eqb_spec r (-1)); [lia|]. cbn.
    destruct Hp as [|[m s] p [_ Hs] Hp]; [done|]. rewrite flat_cons. simpl in Hs. cbn.
    destruct (m =? 1); [|done]. by destruct (Z.eqb_spec s (-1)); [lia|].
  - cbn. by destruct (Z.eqb_spec n (-1)); [lia|].
Qed.

Lemma id_is_parent_refl p j1 j2 :
  nid_ok p -> svn_fs__id_is_parent (flat p ++ -1 :: j1) (flat p ++ -1 :: j2) = Ok false.
Proof. intros Hp. unfold svn_fs__id_is_parent. by rewrite parent_loop_app by (by apply flat_no_term). Qed.

(** On well-formed ids the test is total, and true only for the next revision
    of the same node. *)
Lemma id_is_parent_spec p c j1 j2 :
  nid_ok p -> nid_ok c ->
  exists b, svn_fs__id_is_parent (flat p ++ -1 :: j1) (flat c ++ -1 :: j2) = Ok b /\
    (b = true <-> next_revision p c).
Proof.
  intros Hp Hc. destruct (split_common p c) as (pre & p' & c' & -> & -> & Hd).
  setoid_rewrite (next_revision_app pre p' c' Hd).
  apply Forall_app in Hp as [Hpre Hp], Hc as [_ Hc].
  destruct p' as [|[n r] p]; destruct c' as [|[n' r'] c].
  - rewrite app_nil_r, id_is_parent_refl by done. exists false. split; [done|].
    split; [done|]. by intros (? & ? & ? & _).
  - rewrite app_nil_r. destruct (id_is_parent_end pre n' r' c j1 j2) as [-> _]; [done..|].
    exists false. split; [done|]. split; [done|]. by intros (? & ? & ? & _).
  - rewrite app_nil_r. destruct (id_is_parent_end pre n r p j1 j2) as [_ ->]; [done..|].
    exists false. split; [done|]. split; [done|]. by intros (? & ? & _ & ?).
  - destruct (decide (n = n')) as [<-|Hn].
    + assert (r <> r') by (destruct Hd as [Hd|[? _]]; [simpl in Hd; congruence|done]).
      rewrite id_is_parent_revision by done. eexists. split; [done|].
      rewrite !andb_true_iff, Z.eqb_eq, !bool_decide_eq_true. split.
      * intros [[-> ->] ->]. by exists n, r.
      * intros (? & ? & ? & ?). by simplify_eq.
    + apply Forall_cons_iff in Hp as [[Hn0 _] _]. rewrite id_is_parent_node by done.
      exists false. split; [done|]. split; [done|]. intros (? & ? & ? & ?). by simplify_eq.
Qed.

(** ** Text form *)

(** Components a parsed id may have: at most 10^8. *)
Definition id_comp (x : Z) : Prop := 0 <= x <= 100000000.

Fixpoint id_text (l : list Z) : bytes :=
  match l with
  | [] => []
  | x :: l => default [] (svn_fs__putsize 200 x) ++
              match l with [] => [] | _ => c_dot :: id_text l end
  end.

Lemma id_comp_putsize x :
  id_comp x -> exists buf, svn_fs__putsize 200 (size_t x) = Some buf /\
    svn_fs__putsize 200 x = Some buf /\ all_digits buf /\ (1 <= length buf)%nat.
Proof.
  intros [H0 H1]. assert (0 <= x < two64) as Hx by (unfold two64; lia).
  destruct (putsize_200 x Hx) as [buf Hb]. rewrite size_t_small by done.
  pose proof (putsize_Some 200 x buf H0 Hb) as (? & _ & ?). by exists buf.
Qed.

Lemma unparse_id_text l junk :
  Forall id_comp l -> svn_fs_unparse_id (l ++ -1 :: junk) = Ok (id_text l).
Proof.
  induction 1 as [|x l Hx Hl IH]; [done|]. cbn [app svn_fs_unparse_id id_text].
  destruct (id_comp_putsize x Hx) as (buf & -> & -> & _ & _). destruct Hx as [Hx _].
  destruct (Z.eqb_spec x (-1)); [lia|]. rewrite IH. cbn [mbind outcome_bind from_option id].
  destruct Hl as [|y l [Hy _] Hl]; [done|]. cbn [app rd lookup list_lookup mbind outcome_bind].
  by destruct (Z.eqb_spec y (-1)); [lia|].
Qed.

Lemma count_loop_digits ds rest i ls n :
  all_digits ds -> count_loop (ds ++ rest) i ls n = count_loop rest (i + length ds) ls n.
Proof.
  intros Hd. revert i. induction Hd as [|c ds Hc Hd IH]; intros i; simpl.
  { by rewrite Nat.add_0_r. }
  rewrite bool_decide_eq_false_2 by (intros ->; done). rewrite Hc, IH. f_equal. lia.
Qed.

Lemma count_loop_text l i n :
  l <> [] -> Forall id_comp l -> 1 <= n ->
  exists i' ls' n', count_loop (id_text l) i i n = Some (i', ls', n') /\ i' <> ls' /\ 1 <= n' /\
    n' = n + Z.of_nat (length l) - 1.
Proof.
  intros Hne Hl. revert i n Hne. induction Hl as [|x l Hx Hl IH]; intros i n Hne Hn; [done|].
  cbn [id_text]. destruct (id_comp_putsize x Hx) as (buf & _ & -> & Hd & Hlen).
  cbn [from_option id]. rewrite count_loop_digits by done. destruct l as [|y l].
  - exists (i + length buf)%nat, i, n. split_and!; [done|lia|done|simpl; lia].
  - cbn [count_loop]. rewrite bool_decide_eq_true_2 by done.
    destruct (Nat.eqb_spec (i + length buf) i); [lia|].
    edestruct (IH (S (i + length buf))) as (i' & ls' & n' & E & ?); [done| |exists i', ls', n'; split; [exact E|]].
    + lia.
    + simpl length in *. lia.
Qed.

Lemma parse_id_loop_text l n :
  l <> [] -> Forall id_comp l -> (length l <= n)%nat ->
  parse_id_loop n (id_text l) = Some (l ++ [-1]).
Proof.
  intros Hne Hl. revert n Hne. induction Hl as [|x l Hx Hl IH]; intros n Hne Hn; [done|].
  destruct n as [|n]; [simpl in Hn; lia|]. cbn [id_text parse_id_loop].
  destruct (id_comp_putsize x Hx) as (buf & _ & Hb & Hd & Hlen). rewrite Hb. cbn [from_option id].
  rewrite (getsize_of_putsize 200 x buf); [|apply Hx|done|by destruct l|done].
  rewrite drop_app_length. destruct l as [|y l]; [done|].
  rewrite bool_decide_eq_true_2, IH by (done || (simpl in *; lia)). done.
Qed.

Lemma id_text_length l : Forall id_comp l -> (length l <= length (id_text l))%nat.
Proof.
  induction 1 as [|x l Hx Hl IH]; [done|]. cbn [id_text].
  destruct (id_comp_putsize x Hx) as (buf & _ & -> & _ & Hlen). cbn [from_option id].
  rewrite length_app. destruct l; simpl in *; lia.
Qed.

(** A component has nine digits at most. *)
Lemma id_text_bound l : Forall id_comp l -> (length (id_text l) <= 10 * length l)%nat.
Proof.
  induction 1 as [|x l Hx Hl IH]; [done|]. cbn [id_text].
  destruct (id_comp_putsize x Hx) as (buf & Eb & -> & _ & _). cbn [from_option id].
  assert (length buf <= 9)%nat.
  { unfold id_comp in Hx. rewrite size_t_small in Eb by (unfold two64; lia).
    apply (putsize_length 200 x buf 9); [lia|lia|exact Eb]. }
  rewrite length_app. destruct l; simpl in *; lia.
Qed.

Lemma parse_id_text l : l <> [] -> Forall id_comp l -> svn_fs_parse_id (id_text l) = Some (l ++ [-1]).
Proof.
  intros Hne Hl. unfold svn_fs_parse_id, svn_fs__count_id_components.
  destruct (count_loop_text l 0 1 Hne Hl) as (i' & ls' & n' & -> & Hi & Hn & _); [lia|].
  destruct (Nat.eqb_spec i' ls'); [done|]. destruct (Z.eqb_spec n' 0); [lia|].
  apply parse_id_loop_text; [done..|]. pose proof (id_text_length l Hl). lia.
Qed.

(** ** Properties *)

(** [svn_fs__id_is_ancestor] decides ancestry: on well-formed ids it never
    reads outside its arrays and answers true exactly when the first id is
    reached from the second by walking up parents (previous revision, or the
    revision a branch was made from). *)
Theorem id_is_ancestor_correct a b p q :
  wf_nid p -> wf_nid q -> repr a p -> repr b q ->
  exists r, svn_fs__id_is_ancestor a b = Ok r /\ (r = true <-> ancestor p q).
Proof.
  intros Hp Hq [j1 ->] [j2 ->]. exists (anc_b p q).
  split; [apply id_is_ancestor_anc_b, Hp|]. apply anc_b_iff; [apply Hp|done].
Qed.

(** [svn_fs_id_distance] is the length of the path between two node
    revisions in the forest: it is [k1 + k2] for a deepest common ancestor [c]
    that lies [k1] and [k2] steps above them, and [-1] exactly when there is no
    common ancestor (for ids whose total depth fits an [int]). *)
Theorem id_distance_correct a b p q :
  wf_nid p -> wf_nid q -> repr a p -> repr b q -> depth p + depth q < 2 ^ 31 ->
  (exists c k1 k2, nsteps parent k1 c p /\ nsteps parent k2 c q /\
     (forall c', c' <> [] -> ancestor c' p -> ancestor c' q -> anc_b c' c = true) /\
     svn_fs_id_distance a b = Ok (Z.of_nat k1 + Z.of_nat k2)) \/
  ((forall c, c <> [] -> ancestor c p -> ancestor c q -> False) /\
   svn_fs_id_distance a b = Ok (-1)).
Proof.
  intros Hp Hq [j1 ->] [j2 ->] Hb. rewrite id_distance_lca by done.
  assert (forall c, c <> [] -> ancestor c p -> ancestor c q -> anc_b c (lca p q) = true) as Hmax.
  { intros c Hc H1 H2. by rewrite anc_b_lca, (ancestor_anc_b c p), (ancestor_anc_b c q) by done. }
  destruct (bool_decide_reflect (lca p q = [])) as [E|E].
  - right. split; [|done]. intros c Hc H1 H2. specialize (Hmax c Hc H1 H2).
    rewrite E in Hmax. by destruct c as [|[m s] c].
  - left. pose proof (anc_b_lca (lca p q) p q E) as Hl. rewrite anc_b_refl in Hl.
    symmetry in Hl. apply andb_true_iff in Hl as [H1 H2].
    apply anc_b_iff in H1, H2; try done.
    apply rtc_nsteps in H1 as [k1 H1], H2 as [k2 H2].
    exists (lca p q), k1, k2. split_and!; try done.
    apply nsteps_depth in H1, H2. f_equal. lia.
Qed.

(** [svn_fs__id_predecessor] returns the unique parent of a node revision
    id (the previous revision, or the revision its branch was made from), and
    the null pointer exactly when it has none. *)
Theorem id_predecessor_correct a p :
  wf_nid p -> repr a p ->
  exists r, svn_fs__id_predecessor a = Ok r /\
    match r with
    | Some a' => exists q, repr a' q /\ wf_nid q /\
                   forall q', wf_nid q' -> parent q' p <-> q' = q
    | None => forall q', wf_nid q' -> ~ parent q' p
    end.
Proof.
  intros [Hne Hp] [junk ->].
  destruct (exists_last Hne) as (pre & [n r] & ->). clear Hne.
  rewrite id_predecessor_flat by done. eexists. split; [done|].
  apply Forall_app in Hp as [Hpre Hnr]. apply Forall_cons_iff in Hnr as [[Hn Hr] _].
  simpl in Hn, Hr.
  assert (forall q', parent q' (pre ++ [(n, r)]) <->
    q' = pre ++ [(n, r - 1)] \/ (r = 1 /\ pre <> [] /\ q' = pre)) as Hpar.
  { intros q'. split.
    - intros H. inversion H as [p0 n0 r0 E1 E2|p0 n0 Hp0 Hn0 E1 E2]; subst;
        apply app_inj_tail in E2 as [-> [= -> <-]].
      + left. by replace (r0 + 1 - 1) with r0 by lia.
      + by right.
    - intros [->|(-> & Hp & ->)]; [|by constructor].
      replace r with (r - 1 + 1) at 2 by lia. constructor. }
  destruct (Z.ltb_spec 0 (r - 1)); [|destruct (bool_decide_reflect (pre = []))].
  - exists (pre ++ [(n, r - 1)]). split_and!.
    + exists []. by rewrite flat_app, <- app_assoc.
    + split; [by destruct pre|]. apply Forall_app; split; [done|].
      repeat constructor; simpl; lia.
    + intros q' _. rewrite Hpar. split; [intros [?|[? _]]; [done|lia]|by left].
  - intros q' [_ Hq'] H'. apply Hpar in H' as [->|(_ & ? & _)]; [|done].
    apply Forall_app in Hq' as [_ Hq']. apply Forall_cons_iff in Hq' as [[_ ?] _].
    simpl in *. lia.
  - exists pre. split_and!; [by eexists|by split|].
    intros q' [_ Hq']. rewrite Hpar. split; [|intros ->; right; split_and!; [lia|done..]].
    intros [->|(_ & _ & ?)]; [|done]. apply Forall_app in Hq' as [_ Hq'].
    apply Forall_cons_iff in Hq' as [[_ ?] _]. simpl in *. lia.
Qed.

(** [svn_fs__id_is_parent] on well-formed ids: it never reads outside its
    arrays and answers true exactly for the next revision of the same node; the
    first revision of a branch, a child too by its own documentation, is never
    recognised (the test looks one cell too far). *)
Theorem id_is_parent_correct a b p c :
  wf_nid p -> wf_nid c -> repr a p -> repr b c ->
  exists r, svn_fs__id_is_parent a b = Ok r /\ (r = true <-> next_revision p c) /\
    forall n, 0 <= n -> c = p ++ [(n, 1)] -> parent p c /\ r = false.
Proof.
  intros Hp Hc [j1 ->] [j2 ->].
  destruct (id_is_parent_spec p c j1 j2) as (r & Hr & Hiff); [apply Hp|apply Hc|].
  exists r. split_and!; [done..|]. intros n Hn ->. split; [constructor; [apply Hp|done]|].
  destruct r; [|done]. destruct (proj1 Hiff eq_refl) as (pre & m & s & -> & E).
  apply (f_equal length) in E. rewrite !length_app in E. simpl in E. lia.
Qed.

(** Round trip of the text form: every id with components up to 10^8, the
    limit the parser sets, is unparsed without aborting and parsed back to the
    same array. *)
Theorem parse_unparse_id l junk :
  l <> [] -> Forall id_comp l ->
  exists txt, svn_fs_unparse_id (l ++ -1 :: junk) = Ok txt /\
    svn_fs_parse_id txt = Some (l ++ [-1]).
Proof.
  intros Hne Hl. exists (id_text l). split; [by apply unparse_id_text|by apply parse_id_text].
Qed.

(** ** Witnesses *)

Definition id_100_10 : nid := [(100, 10)].
Definition id_branch : nid := [(100, 10); (3, 2)].
Definition id_100_12 : nid := [(100, 12)].

Ltac wf_concrete := split; [discriminate|repeat constructor; simpl; lia].

Lemma id_is_ancestor_correct_witness :
  exists r, svn_fs__id_is_ancestor [100; 10; -1] [100; 10; 3; 2; -1] = Ok r /\
    (r = true <-> ancestor id_100_10 id_branch).
Proof.
  apply (id_is_ancestor_correct _ _ id_100_10 id_branch).
  - wf_concrete.
  - wf_concrete.
  - exists []. reflexivity.
  - exists []. reflexivity.
Defined.

Lemma id_distance_correct_witness :
  svn_fs_id_distance [100; 10; 3; 2; -1] [100; 12; -1] = Ok 4 /\
  ((exists c k1 k2, nsteps parent k1 c id_branch /\ nsteps parent k2 c id_100_12 /\
     (forall c', c' <> [] -> ancestor c' id_branch -> ancestor c' id_100_12 ->
        anc_b c' c = true) /\
     svn_fs_id_distance [100; 10; 3; 2; -1] [100; 12; -1] = Ok (Z.of_nat k1 + Z.of_nat k2)) \/
  ((forall c, c <> [] -> ancestor c id_branch -> ancestor c id_100_12 -> False) /\
   svn_fs_id_distance [100; 10; 3; 2; -1] [100; 12; -1] = Ok (-1))).
Proof.
  split; [reflexivity|]. apply (id_distance_correct _ _ id_branch id_100_12).
  - wf_concrete.
  - wf_concrete.
  - exists []. reflexivity.
  - exists []. reflexivity.
  - reflexivity.
Defined.

Lemma id_predecessor_correct_witness :
  exists r, svn_fs__id_predecessor [100; 10; 3; 1; -1] = Ok r /\
    match r with
    | Some a' => exists q, repr a' q /\ wf_nid q /\
                   forall q', wf_nid q' -> parent q' [(100, 10); (3, 1)] <-> q' = q
    | None => forall q', wf_nid q' -> ~ parent q' [(100, 10); (3, 1)]
    end.
Proof.
  apply (id_predecessor_correct _ [(100, 10); (3, 1)]).
  - wf_concrete.
  - exists []. reflexivity.
Defined.

Lemma id_is_parent_correct_witness :
  exists r, svn_fs__id_is_parent [100; 10; -1] [100; 10; 3; 1; -1] = Ok r /\
    (r = true <-> next_revision id_100_10 [(100, 10); (3, 1)]) /\
    forall n, 0 <= n -> [(100, 10); (3, 1)] = id_100_10 ++ [(n, 1)] ->
      parent id_100_10 [(100, 10); (3, 1)] /\ r = false.
Proof.
  apply (id_is_parent_correct _ _ id_100_10 [(100, 10); (3, 1)]).
  - wf_concrete.
  - wf_concrete.
  - exists []. reflexivity.
  - exists []. reflexivity.
Defined.

Lemma parse_unparse_id_witness :
  exists txt, svn_fs_unparse_id ([100; 10; 3; 2] ++ [-1]) = Ok txt /\
    svn_fs_parse_id txt = Some ([100; 10; 3; 2] ++ [-1]).
Proof.
  apply (parse_unparse_id [100; 10; 3; 2] []).
  - discriminate.
  - repeat constructor; lia.
Defined.
