(* ===== verification/NodeKeys.v ===== *)
(** * The keys of the [nodes] table ([libsvn_fs/nodes-table.c])

    The comparison function Berkeley DB is given for the [nodes] table, and the
    proof that it is an order on all byte strings, malformed keys included. *)

From S2P Require Import Prelude KeyGen Id Db.

(** [compare_ids], from the index [i] on; the parity of the index tells node and
    branch numbers from revision numbers.  The difference of two [long]
    components is returned as an [int]. *)
Fixpoint compare_ids_loop (a b : list Z) (i : nat) : outcome Z :=
  match a, b with
  | x :: a, y :: b =>
      if x =? y then if x =? -1 then Ok 0 else compare_ids_loop a b (S i)
      else if Nat.even i then Ok (int_t (x - y))
      else if (x =? -1) || (y =? -1) then Abort
      else
        x1 ← rd a 0; y1 ← rd b 0;
        if (x1 =? -1) && (y1 =? -1) then Ok (int_t (x - y))
        else if x1 =? -1 then Ok (-1)
        else if y1 =? -1 then Ok 1
        else Ok (int_t (x - y))
  | _, _ => Undef
  end.

Definition compare_ids (a b : list Z) : outcome Z := compare_ids_loop a b 0.

Definition parse_node_revision_dbt (d : bytes) : outcome (option (list Z)) :=
  match svn_fs_parse_id d with
  | None => Ok None
  | Some id =>
      len ← svn_fs__id_length id;
      Ok (if Nat.odd len then None else Some id)
  end.

Definition compare_nodes_keys (ak bk : bytes) : outcome Z :=
  a ← parse_node_revision_dbt ak;
  b ← parse_node_revision_dbt bk;
  match a, b with
  | Some a, Some b => compare_ids a b
  | Some _, None => Ok 1
  | None, Some _ => Ok (-1)
  | None, None => Ok (svn_fs__compare_dbt ak bk)
  end.

(** ** Parsed ids *)

Lemma getsize_loop_range max data i v k w :
  0 <= max < two64 -> 0 <= v <= max ->
  getsize_loop (max / 10) (max mod 10) data i v = Some (k, w) -> 0 <= w <= max.
Proof.
  intros Hmax. revert i v. induction data as [|c data IH]; intros i v Hv; cbn [getsize_loop].
  { by intros [= <- <-]. }
  destruct (is_digit c) eqn:Hc; [|by intros [= <- <-]].
  apply is_digit_range in Hc. unfold dec_digit in Hc. pose proof (Z.div_mod max 10 ltac:(lia)).
  pose proof (Z.mod_pos_bound max 10 ltac:(lia)).
  destruct (Z.ltb_spec (max / 10) v); cbn [orb]; [done|].
  destruct ((v =? max / 10) && (max mod 10 <? bsz c - 48)) eqn:E; [done|].
  apply andb_false_iff in E. rewrite Z.eqb_neq, Z.ltb_ge in E. apply IH.
  assert (0 <= v * 10 <= max) by lia. assert (0 <= v * 10 + (bsz c - 48) <= max) by (destruct E; lia).
  rewrite (size_t_small (v * 10)) by lia. by rewrite size_t_small by lia.
Qed.

Lemma parse_id_loop_shape n data a :
  parse_id_loop n data = Some a -> exists l, a = l ++ [-1] /\ l <> [] /\ Forall id_comp l.
Proof.
  revert data a. induction n as [|n IH]; intros data a; [done|]. cbn [parse_id_loop].
  destruct (svn_fs__getsize data 100000000) as [[v next]|] eqn:E; [|done].
  assert (id_comp v) as Hv.
  { unfold svn_fs__getsize in E. destruct (getsize_loop _ _ data 0 0) as [[k w]|] eqn:El; [|done].
    apply (getsize_loop_range 100000000) in El; [|done|lia]. destruct k; [done|]. by injection E as <- _. }
  destruct (drop next data) as [|c rest].
  { intros [= <-]. exists [v]. split_and!; [done|done|by constructor]. }
  destruct (bool_decide (c = c_dot)); [|done].
  destruct (parse_id_loop n rest) as [a'|] eqn:Ep; [|done]. intros [= <-].
  destruct (IH _ _ Ep) as (l & -> & Hl & Hf). exists (v :: l). split_and!; [done|done|by constructor].
Qed.

Lemma id_length_comps l junk : Forall id_comp l -> svn_fs__id_length (l ++ -1 :: junk) = Ok (length l).
Proof.
  induction 1 as [|x l [Hx _] Hl IH]; [done|]. cbn [app svn_fs__id_length].
  destruct (Z.eqb_spec x (-1)); [lia|]. by rewrite IH.
Qed.

(** An even number of components is a list of pairs. *)
Lemma flat_of_even l : Nat.odd (length l) = false -> exists p, l = flat p.
Proof.
  remember (length l) as n eqn:Hn. revert l Hn.
  induction n as [n IH] using lt_wf_ind. intros [|x [|y l]] Hn Ho.
  - by exists [].
  - by subst n.
  - cbn [length] in Hn. destruct (IH (length l) ltac:(lia) l eq_refl) as [p ->].
    { by subst n. }
    by exists ((x, y) :: p).
Qed.

Definition nid_comps (p : nid) : Prop := Forall (λ x, id_comp x.1 /\ id_comp x.2) p.

Lemma nid_comps_flat p : Forall id_comp (flat p) <-> nid_comps p.
Proof.
  unfold nid_comps. induction p as [|[x y] p IH]; [done|].
  rewrite flat_cons, !Forall_cons_iff, IH. simpl. tauto.
Qed.

Fixpoint pairs (a : list Z) : nid :=
  match a with x :: y :: a => (x, y) :: pairs a | _ => [] end.

Lemma pairs_flat p z : pairs (flat p ++ [z]) = p.
Proof. induction p as [|[x y] p IH]; [done|]. rewrite flat_cons. cbn [app pairs]. by rewrite IH. Qed.

(** A key holds either a node revision id with small components or garbage. *)
Definition key_nid (d : bytes) : option nid :=
  match parse_node_revision_dbt d with
  | Ok (Some a) => Some (pairs a)
  | _ => None
  end.

Lemma parse_node_revision_cases d :
  (parse_node_revision_dbt d = Ok None /\ key_nid d = None) \/
  exists p, parse_node_revision_dbt d = Ok (Some (flat p ++ [-1])) /\ key_nid d = Some p /\
    p <> [] /\ nid_comps p /\ svn_fs_parse_id d = Some (flat p ++ [-1]).
Proof.
  unfold key_nid, parse_node_revision_dbt.
  destruct (svn_fs_parse_id d) as [a|] eqn:E; [|by left].
  assert (exists l, a = l ++ [-1] /\ l <> [] /\ Forall id_comp l) as (l & -> & Hl & Hf).
  { unfold svn_fs_parse_id in E. destruct (_ =? 0); [done|]. by apply parse_id_loop_shape in E. }
  rewrite id_length_comps by done. cbn [mbind outcome_bind].
  destruct (Nat.odd (length l)) eqn:Ho; [by left|]. destruct (flat_of_even l Ho) as [p ->].
  right. exists p. split; [done|]. rewrite pairs_flat. split; [done|].
  split; [by intros ->|]. split; [by apply nid_comps_flat|done].
Qed.

(** ** The order *)

(** Every key is compared through a list of integers: garbage comes first, in the
    order of the bytes; a revision number that ends an id comes before those that
    a branch follows. *)
Definition branch_offset : Z := 1000000000.

Fixpoint nid_key (p : nid) : list Z :=
  match p with
  | [] => [-1]
  | (n, r) :: p => n :: (match p with [] => r | _ => r + branch_offset end) :: nid_key p
  end.

Definition node_key (d : bytes) : list Z :=
  match key_nid d with Some p => 1 :: nid_key p | None => 0 :: (bz <$> d) end.

Lemma compare_ids_flat p q i :
  nid_comps p -> nid_comps q -> Nat.even i = true ->
  exists v, compare_ids_loop (flat p ++ [-1]) (flat q ++ [-1]) i = Ok v /\
    Z.sgn v = lex (nid_key p) (nid_key q).
Proof.
  intros Hp. revert q i.
  assert (forall x y, id_comp x -> id_comp y -> int_t (x - y) = x - y) as Hsub.
  { intros x y [] []. apply int_t_small. lia. }
  assert (forall x y, Z.sgn (x - y) = if x =? y then 0 else if x <? y then -1 else 1) as Hsgn.
  { intros x y. destruct (Z.eqb_spec x y), (Z.ltb_spec x y); lia. }
  induction Hp as [|[n r] p [Hn Hr] Hp IH]; intros [|[n' r'] q] i Hq Hi; cbn [fst snd] in *.
  - exists 0. done.
  - apply Forall_cons_iff in Hq as [[[Hn' ?] _] _]. cbn [fst] in *. rewrite flat_nil, flat_cons.
    cbn [app compare_ids_loop]. destruct (Z.eqb_spec (-1) n'); [lia|]. rewrite Hi.
    eexists. split; [done|]. rewrite int_t_small by lia. cbn [nid_key lex].
    destruct (Z.eqb_spec (-1) n'), (Z.ltb_spec (-1) n'); lia.
  - destruct Hn as [Hn ?]. rewrite flat_nil, flat_cons.
    cbn [app compare_ids_loop]. destruct (Z.eqb_spec n (-1)); [lia|]. rewrite Hi.
    eexists. split; [done|]. rewrite int_t_small by lia. cbn [nid_key lex].
    destruct (Z.eqb_spec n (-1)), (Z.ltb_spec n (-1)); lia.
  - apply Forall_cons_iff in Hq as [[Hn' Hr'] Hq]. cbn [fst snd] in *. rewrite !flat_cons.
    cbn [app compare_ids_loop nid_key lex]. rewrite Hi, Nat.even_succ, <- Nat.negb_even, Hi. cbn [negb].
    destruct (Z.eqb_spec n n') as [<-|Hne].
    2:{ eexists. split; [done|]. rewrite Hsub, Hsgn by done. by rewrite (proj2 (Z.eqb_neq n n')). }
    rewrite (proj2 (Z.eqb_neq n (-1))) by (destruct Hn; lia).
    destruct (Z.eqb_spec r r') as [<-|Hner].
    + rewrite (proj2 (Z.eqb_neq r (-1))) by (destruct Hr; lia).
      destruct (IH q (S (S i)) Hq) as (v & -> & Hv); [done|]. exists v. split; [done|]. rewrite Hv.
      destruct p as [|[? ?] p], q as [|[? ?] q]; rewrite ?Z.eqb_refl; try done.
      * cbn [nid_key lex]. apply Forall_cons_iff in Hq as [[[] _] _]. cbn [fst] in *. unfold branch_offset.
        rewrite (proj2 (Z.eqb_neq r _)), (proj2 (Z.ltb_lt r _)) by lia.
        by rewrite (proj2 (Z.eqb_neq _ _)), (proj2 (Z.ltb_lt _ _)) by lia.
      * cbn [nid_key lex]. apply Forall_cons_iff in Hp as [[[] _] _]. cbn [fst] in *. unfold branch_offset.
        rewrite (proj2 (Z.eqb_neq _ r)), (proj2 (Z.ltb_ge _ r)) by lia.
        by rewrite (proj2 (Z.eqb_neq _ _)), (proj2 (Z.ltb_ge _ _)) by lia.
    + rewrite (proj2 (Z.eqb_neq r (-1))), (proj2 (Z.eqb_neq r' (-1))) by (destruct Hr, Hr'; lia).
      cbn [orb]. destruct Hr as [Hr1 Hr2], Hr' as [Hr1' Hr2'].
      destruct p as [|[a ?] p]; [|apply Forall_cons_iff in Hp as [[[Ha ?] _] _]; cbn [fst] in *];
      (destruct q as [|[b ?] q]; [|apply Forall_cons_iff in Hq as [[[Hb ?] _] _]; cbn [fst] in *]);
      rewrite ?flat_nil, ?flat_cons; cbn [app rd lookup list_lookup mbind outcome_bind];
      rewrite ?(proj2 (Z.eqb_neq a (-1))), ?(proj2 (Z.eqb_neq b (-1))) by lia; cbn [andb Z.eqb Z.opp Pos.eqb];
      eexists; (split; [done|]); rewrite ?Hsub, ?Hsgn by done; unfold branch_offset;
      repeat match goal with |- context [Z.eqb ?x ?y] => destruct (Z.eqb_spec x y) end;
      repeat match goal with |- context [Z.ltb ?x ?y] => destruct (Z.ltb_spec x y) end; try lia; done.
Qed.

Lemma compare_nodes_ok a b :
  exists v, compare_nodes_keys a b = Ok v /\ Z.sgn v = lex (node_key a) (node_key b).
Proof.
  unfold compare_nodes_keys, node_key.
  destruct (parse_node_revision_cases a) as [[-> ->]|(p & -> & -> & _ & Hp & _)],
    (parse_node_revision_cases b) as [[-> ->]|(q & -> & -> & _ & Hq & _)]; cbn [mbind outcome_bind].
  - eexists. split; [done|]. rewrite compare_dbt_order. done.
  - by eexists.
  - by eexists.
  - destruct (compare_ids_flat p q 0 Hp Hq eq_refl) as (v & E & Hv). by exists v.
Qed.

(** The comparison as a function, which it always is. *)
Definition nodes_cmp (a b : bytes) : Z := match compare_nodes_keys a b with Ok v => v | _ => 0 end.

Lemma nodes_cmp_key a b : Z.sgn (nodes_cmp a b) = lex (node_key a) (node_key b).
Proof. unfold nodes_cmp. by destruct (compare_nodes_ok a b) as (v & -> & Hv). Qed.

Definition nodes_order : key_order := lex_key_order nodes_cmp node_key nodes_cmp_key.

Lemma nid_key_inj p q : nid_comps p -> nid_comps q -> nid_key p = nid_key q -> p = q.
Proof.
  intros Hp. revert q. induction Hp as [|[n r] p [Hn Hr] Hp IH]; intros [|[n' r'] q] Hq.
  - done.
  - apply Forall_cons_iff in Hq as [[[] _] _]. simpl in *. intros E. injection E. lia.
  - destruct Hn. simpl in *. intros E. injection E. lia.
  - apply Forall_cons_iff in Hq as [[_ Hr'] Hq]. cbn [nid_key fst snd] in *. intros [= -> Er E].
    apply IH in E as ->; [|done]. assert (r = r') as -> by (destruct q; lia). done.
Qed.

(** Keys that are equal for the order: the same garbage, or texts of the same id. *)
Lemma node_key_eq a b :
  node_key a = node_key b <-> match key_nid a, key_nid b with
    | Some p, Some q => p = q | None, None => a = b | _, _ => False end.
Proof.
  unfold node_key.
  destruct (parse_node_revision_cases a) as [[_ ->]|(p & _ & -> & _ & Hp & _)],
    (parse_node_revision_cases b) as [[_ ->]|(q & _ & -> & _ & Hq & _)]; try done.
  - split; [|by intros ->]. intros [= E]. by apply list_fmap_eq_inj in E; [|apply _].
  - split; [|by intros ->]. intros [= E]. by apply nid_key_inj.
Qed.

(** ** Properties *)

(** C28. The key comparison of the [nodes] table is the order Berkeley DB needs on
    arbitrary byte strings: it always returns (it does not abort, read outside the
    parsed ids or overflow), is antisymmetric and transitive, and returns 0
    exactly for equal malformed keys and for texts of the same node revision id. *)
Theorem compare_nodes_keys_order a b c :
  exists v, compare_nodes_keys a b = Ok v /\
    (exists w, compare_nodes_keys b a = Ok w /\ Z.sgn w = - Z.sgn v) /\
    (v <= 0 -> forall w, compare_nodes_keys b c = Ok w -> w <= 0 ->
       exists x, compare_nodes_keys a c = Ok x /\ x <= 0) /\
    (v = 0 <-> match key_nid a, key_nid b with
       | Some p, Some q => p = q | None, None => a = b | _, _ => False end).
Proof.
  destruct (compare_nodes_ok a b) as (v & Ev & Hv). exists v. split; [done|]. split_and!.
  - destruct (compare_nodes_ok b a) as (w & Ew & Hw). exists w. split; [done|].
    rewrite Hw, Hv. apply lex_opp.
  - intros Hle w Ew Hw. destruct (compare_nodes_ok b c) as (w' & Ew' & Hw').
    rewrite Ew in Ew'. injection Ew' as <-. destruct (compare_nodes_ok a c) as (x & Ex & Hx).
    exists x. split; [done|]. pose proof (lex_le_trans (node_key a) (node_key b) (node_key c)). lia.
  - rewrite <- node_key_eq, <- lex_eq, <- Hv. lia.
Qed.
