(* ===== verification/Fs.v ===== *)
(** * A filesystem and its tables ([libsvn_fs/fs.h], [libsvn_fs/dbt.c])

    The operations of the filesystem run in a trail, a Berkeley DB transaction:
    they are computations on the tables of the filesystem.  An error ends the
    trail, which restores the tables (see [Trail]). *)

From S2P Require Import Prelude Skel Id Db NodeKeys.

Section fs.
Context `{db : BerkeleyDB}.

Record svn_fs_t := mk_fs {
  nodes : btree nodes_order;
  revisions : rectree;
  transactions : btree dbt_order;
  representations : btree dbt_order;
  strings : duptree;
}.

Definition set_nodes (t : btree nodes_order) (fs : svn_fs_t) : svn_fs_t :=
  mk_fs t (revisions fs) (transactions fs) (representations fs) (strings fs).
Definition set_revisions (t : rectree) (fs : svn_fs_t) : svn_fs_t :=
  mk_fs (nodes fs) t (transactions fs) (representations fs) (strings fs).
Definition set_transactions (t : btree dbt_order) (fs : svn_fs_t) : svn_fs_t :=
  mk_fs (nodes fs) (revisions fs) t (representations fs) (strings fs).
Definition set_representations (t : btree dbt_order) (fs : svn_fs_t) : svn_fs_t :=
  mk_fs (nodes fs) (revisions fs) (transactions fs) t (strings fs).
Definition set_strings (t : duptree) (fs : svn_fs_t) : svn_fs_t :=
  mk_fs (nodes fs) (revisions fs) (transactions fs) (representations fs) t.

(** The tables that the operations on representations and strings leave alone. *)
Definition node_tables (fs : svn_fs_t) : btree nodes_order * rectree * btree dbt_order :=
  (nodes fs, revisions fs, transactions fs).

(** The tables but that of the nodes. *)
Definition other_tables (fs : svn_fs_t) : rectree * btree dbt_order * btree dbt_order * duptree :=
  (revisions fs, transactions fs, representations fs, strings fs).

(** Reading the tables. *)
Definition reading {A} (f : svn_fs_t -> A) : state_m svn_fs_t A := λ fs, (Ok (f fs), fs).

(** Changing the tables. *)
Definition writing (f : svn_fs_t -> svn_fs_t) : state_m svn_fs_t unit := λ fs, (Ok tt, f fs).
Lemma reading_bind {A B} (f : svn_fs_t -> A) (k : A -> state_m svn_fs_t B) fs :
  (reading f ≫= k) fs = k (f fs) fs.
Proof. done. Qed.

Lemma writing_bind {B} (f : svn_fs_t -> svn_fs_t) (k : unit -> state_m svn_fs_t B) fs :
  (writing f ≫= k) fs = k tt (f fs).
Proof. done. Qed.
End fs.

(** Computations in a trail. *)
Abbreviation trail := (state_m svn_fs_t).

(** [svn_fs__str_to_dbt]. *)
Definition str_to_dbt (s : bytes) : bytes := take (strlen s) s.

(** [apr_pstrndup], as a C string. *)
Definition apr_pstrndup (data : bytes) : bytes := take (strlen data) data.

Lemma apr_pstrndup_id s : no_nul s -> apr_pstrndup s = s.
Proof. intros H. unfold apr_pstrndup. by rewrite strlen_ok, firstn_all by done. Qed.

Lemma str_to_dbt_id s : no_nul s -> str_to_dbt s = s.
Proof. intros H. unfold str_to_dbt. by rewrite strlen_ok, firstn_all. Qed.

(** Storing into an array. *)
Definition wr {A} (l : list A) (i : nat) (a : A) : outcome (list A) :=
  if (i <? length l)%nat then Ok (<[i := a]> l) else Undef.

Lemma wr_Ok {A} (l : list A) i a : (i < length l)%nat -> wr l i a = Ok (<[i := a]> l).
Proof. intros H. unfold wr. by rewrite (proj2 (Nat.ltb_lt _ _)). Qed.
