(* ===== verification/RevTable.v ===== *)
(** * The [revisions] table ([libsvn_fs/rev-table.c])

    Revision [n] is the record [n + 1] of the table: the id of its root directory
    and its properties. *)

From S2P Require Import Prelude Types Skel Proplist Id Db NodeKeys Fs.

Definition is_valid_filesystem_revision (s : skel) : bool :=
  if svn_fs__list_length (Some s) =? 3 then
    match kids s with
    | [kind; id; proplist] =>
        svn_fs__matches_atom (Some kind) (bstr "revision") && svn_fs__is_valid_proplist proplist &&
        is_atom id && (Z.land 1 (svn_fs__count_id_components (skel_data id)) =? 0)
    | _ => false
    end
  else false.

(** Revision numbers are [long]s. *)

(** A [db_recno_t] has 32 bits. *)
Definition recno (rev : svn_revnum_t) : Z := (rev + 1) mod 2 ^ 32.

Definition SVN_PROP_REVISION_DATE : bytes := bstr "svn:date".

Section revs.
Context `{db : BerkeleyDB}.

(** Berkeley DB rejects the record number 0. *)
Definition svn_fs__get_rev (rev : svn_revnum_t) : trail skel :=
  if recno rev =? 0 then fail (SVN_ERR_BERKELEY_DB EINVAL)
  else
    value ← reading (λ fs, rc_get (revisions fs) (recno rev));
    match value with
    | None => fail SVN_ERR_FS_NO_SUCH_REVISION
    | Some value =>
        match svn_fs__parse_skel value with
        | Some s => if is_valid_filesystem_revision s then mret s else fail SVN_ERR_FS_CORRUPT
        | None => fail SVN_ERR_FS_CORRUPT
        end
    end.

Definition svn_fs__put_rev (s : skel) : trail svn_revnum_t :=
  if negb (is_valid_filesystem_revision s) then fail SVN_ERR_FS_CORRUPT
  else
    value ← lift (svn_fs__unparse_skel s);
    n ← reading (λ fs, (rc_append (revisions fs) value).2);
    writing (λ fs, set_revisions (rc_append (revisions fs) value).1 fs);;
    mret ((n - 1) mod 2 ^ 32).

Definition svn_fs__rev_get_root (rev : svn_revnum_t) : trail (list Z) :=
  s ← svn_fs__get_rev rev;
  id ← lift (kid s 1);
  match svn_fs_parse_id (skel_data id) with
  | None => fail SVN_ERR_FS_CORRUPT
  | Some id => mret id
  end.

(** Also the body of [svn_fs_youngest_rev]. *)
Definition svn_fs__youngest_rev : trail svn_revnum_t :=
  last ← reading (λ fs, rc_last (revisions fs));
  match last with
  | None => fail SVN_ERR_FS_CORRUPT
  | Some n => mret ((n - 1) mod 2 ^ 32)
  end.

Definition txn_body_revision_prop (rev : svn_revnum_t) (propname : bytes) : trail (option bytes) :=
  s ← svn_fs__get_rev rev;
  proplist ← lift (kid s 2);
  lift (svn_fs__get_prop proplist propname).

Definition txn_body_revision_proplist (rev : svn_revnum_t) : trail (gmap bytes bytes) :=
  s ← svn_fs__get_rev rev;
  proplist ← lift (kid s 2);
  lift (svn_fs__make_prop_hash proplist).

(** Also the body of [svn_fs_change_rev_prop].  The property list is changed in
    place. *)
Definition svn_fs__set_rev_prop (rev : svn_revnum_t) (name : bytes) (value : option bytes) : trail unit :=
  s ← svn_fs__get_rev rev;
  proplist ← lift (kid s 2);
  proplist ← lift (svn_fs__set_prop proplist name value);
  data ← lift (svn_fs__unparse_skel (set_kids s (<[2%nat := proplist]> (kids s))));
  writing (λ fs, set_revisions (rc_put (revisions fs) (recno rev) data) fs).
End revs.

(** ** What a revision is *)

(** The skel of a revision: its root id [root] and its properties [m]. *)
Definition rev_is (s : skel) (root : list Z) (m : gmap bytes bytes) : Prop :=
  exists d p, s = SList d [Atom (bstr "revision"); Atom (id_text root); p] /\ proplist_is p m.

(** Node revision ids, without their terminator. *)
Definition rev_id (l : list Z) : Prop := l <> [] /\ Nat.even (length l) = true /\ Forall id_comp l.

Lemma rev_is_equiv s s' root m : s' ≡ s -> rev_is s root m -> rev_is s' root m.
Proof.
  intros E (d & p & -> & Hp). destruct (equiv_list _ _ _ E) as (d' & l' & -> & Hl).
  inversion Hl as [|a ? l1 ? Ha H1]; subst. inversion H1 as [|b ? l2 ? Hb H2]; subst.
  inversion H2 as [|c ? l3 ? Hc H3]; subst. inversion H3; subst.
  rewrite equiv_atom in Ha, Hb. subst. exists d', c. split; [done|]. by apply (proplist_equiv p).
Qed.

Lemma count_id_text l : l <> [] -> Forall id_comp l ->
  svn_fs__count_id_components (id_text l) = Z.of_nat (length l).
Proof.
  intros Hne Hl. unfold svn_fs__count_id_components.
  destruct (count_loop_text l 0 1 Hne Hl) as (i' & ls' & n' & -> & Hi & _ & Hn); [lia|].
  destruct (Nat.eqb_spec i' ls'); subst; lia.
Qed.

Lemma rev_is_valid s root m : rev_id root -> rev_is s root m -> is_valid_filesystem_revision s = true.
Proof.
  intros (Hne & He & Hc) (d & p & -> & Hp). unfold is_valid_filesystem_revision.
  rewrite list_length_eq. cbn [length kids is_atom skel_data Z.eqb Z.of_nat Pos.of_succ_nat Pos.succ Pos.eqb].
  rewrite count_id_text, (is_valid_is _ _ Hp) by done.
  replace (Z.land 1 (Z.of_nat (length root))) with 0; [done|]. symmetry.
  rewrite Z.land_comm. change 1 with (Z.ones 1). rewrite Z.land_ones by lia. change (2 ^ 1) with 2.
  apply Nat.even_spec in He as [k ->]. rewrite Nat2Z.inj_mul, Z.mul_comm. apply Z.mod_mul. lia.
Qed.

Section revs_ok.
Context `{db : BerkeleyDB}.

(** The revision [rev] is there, with the root [root] and the properties [m]. *)
Definition rev_at (fs : svn_fs_t) (rev : svn_revnum_t) (root : list Z) (m : gmap bytes bytes) : Prop :=
  0 <= rev < 2 ^ 32 - 1 /\ rev_id root /\
  exists value s, rc_get (revisions fs) (rev + 1) = Some value /\ svn_fs__parse_skel value = Some s /\
    rev_is s root m /\ skel_fits s.

(** The number of the next revision. *)
Definition next_rev (fs : svn_fs_t) : svn_revnum_t := default 0 (rc_last (revisions fs)).

Lemma recno_small rev : 0 <= rev < 2 ^ 32 - 1 -> recno rev = rev + 1.
Proof. intros H. unfold recno. apply Z.mod_small. lia. Qed.

Lemma get_rev_ok fs rev root m :
  rev_at fs rev root m -> exists s, svn_fs__get_rev rev fs = (Ok s, fs) /\ rev_is s root m /\ skel_fits s.
Proof.
  intros (Hr & Hid & value & s & Hg & Hp & Hs & Hf). exists s. split; [|done].
  unfold svn_fs__get_rev. rewrite recno_small by done. destruct (Z.eqb_spec (rev + 1) 0); [lia|].
  rewrite reading_bind, Hg, Hp, (rev_is_valid s root m) by done. done.
Qed.

(** Another table with the same record. *)
Lemma rev_at_same fs fs' rev root m :
  rc_get (revisions fs') (rev + 1) = rc_get (revisions fs) (rev + 1) -> rev_at fs rev root m -> rev_at fs' rev root m.
Proof. intros E (Hr & Hid & value & s & Hg & H). split; [done|]. split; [done|]. exists value, s. by rewrite E. Qed.

Lemma rev_at_stored fs rev root m s :
  0 <= rev < 2 ^ 32 - 1 -> rev_id root -> rev_is s root m -> skel_storable s ->
  rc_get (revisions fs) (rev + 1) = Some (text s) -> rev_at fs rev root m.
Proof.
  intros Hr Hid Hs Hst Hg. destruct (parse_skel_text s (proj1 Hst) (proj2 Hst)) as (s' & Hp & Es).
  split; [done|]. split; [done|]. exists (text s), s'. split; [done|]. split; [done|].
  split; [by apply (rev_is_equiv s)|]. by apply (storable_equiv s s').
Qed.

Lemma put_rev_ok fs s root m :
  rev_id root -> rev_is s root m -> skel_storable s -> next_rev fs < 2 ^ 32 - 1 ->
  exists fs', svn_fs__put_rev s fs = (Ok (next_rev fs), fs') /\ rev_at fs' (next_rev fs) root m /\
    next_rev fs' = next_rev fs + 1 /\
    (forall rev root m, rev_at fs rev root m -> rev_at fs' rev root m) /\
    (nodes fs', transactions fs', representations fs', strings fs') =
      (nodes fs, transactions fs, representations fs, strings fs).
Proof.
  intros Hid Hs Hst Hn. unfold svn_fs__put_rev. rewrite (rev_is_valid s root m) by done. cbn [negb].
  rewrite unparse_skel_text, lift_bind by apply Hst. rewrite reading_bind, writing_bind.
  set (t := revisions fs). assert ((rc_append t (text s)).2 = next_rev fs + 1) as E2 by apply rc_append_number.
  assert (0 <= next_rev fs) as H0.
  { unfold next_rev. destruct (rc_last (revisions fs)) as [n|] eqn:El; [|simpl; lia].
    apply rc_last_pos in El. simpl. lia. }
  exists (set_revisions (rc_append t (text s)).1 fs). split; [|split; [|split; [|split; [|reflexivity]]]].
  - rewrite E2, Z.add_simpl_r, Z.mod_small by lia. reflexivity.
  - apply (rev_at_stored _ _ _ _ s); [lia|done..|]. cbn [revisions set_revisions]. fold t.
    by rewrite rc_get_append, E2, decide_True.
  - unfold next_rev. cbn [revisions set_revisions]. fold t.
    destruct (rc_last (rc_append t (text s)).1) as [n|] eqn:El.
    + pose proof (rc_last_pos _ _ El). cbn [default from_option id].
      assert (is_Some (rc_get (rc_append t (text s)).1 n)) as Hin.
      { apply rc_get_range. rewrite El. simpl. lia. }
      rewrite rc_get_append, E2 in Hin. case_decide as E; [done|].
      apply rc_get_range in Hin. exfalso.
      assert (is_Some (rc_get (rc_append t (text s)).1 (next_rev fs + 1))) as Hl.
      { rewrite rc_get_append, E2, decide_True by done. done. }
      apply rc_get_range in Hl. rewrite El in Hl. simpl in Hl. unfold next_rev, t in *. lia.
    + exfalso. assert (is_Some (rc_get (rc_append t (text s)).1 (next_rev fs + 1))) as Hl.
      { rewrite rc_get_append, E2, decide_True by done. done. }
      apply rc_get_range in Hl. rewrite El in Hl. simpl in Hl. lia.
  - intros rev root' m' Hat. apply (rev_at_same fs); [|done]. cbn [revisions set_revisions]. fold t.
    rewrite rc_get_append, E2. case_decide as E; [|done]. exfalso.
    destruct Hat as (_ & _ & value & _ & Hg & _). fold t in Hg.
    assert (is_Some (rc_get t (rev + 1))) as Hin by (by rewrite Hg). apply rc_get_range in Hin.
    unfold next_rev in E. fold t in E. lia.
Qed.

(** The record of the revision is far from the limits of the address space. *)
Definition rev_small (fs : svn_fs_t) (rev : svn_revnum_t) : Prop :=
  forall s, svn_fs__get_rev rev fs = (Ok s, fs) -> estimate_unparsed_size s < 2 ^ 62.

(** Changing a property of a revision. *)
Lemma set_rev_prop_ok fs rev root m name value :
  rev_at fs rev root m -> Z.of_nat (length name) + Z.of_nat (length (default [] value)) < 2 ^ 62 ->
  rev_small fs rev ->
  exists fs', svn_fs__set_rev_prop rev name value fs = (Ok tt, fs') /\
    rev_at fs' rev root (partial_alter (λ _, value) name m) /\
    next_rev fs' = next_rev fs /\
    (forall rev' root' m', rev' <> rev -> rev_at fs rev' root' m' -> rev_at fs' rev' root' m') /\
    (nodes fs', transactions fs', representations fs', strings fs') =
      (nodes fs, transactions fs, representations fs, strings fs).
Proof.
  intros Hat Hlen Hsize. destruct (get_rev_ok fs rev root m Hat) as (s & Es & (d & p & -> & Hp) & Hf).
  specialize (Hsize _ Es). unfold svn_fs__set_rev_prop. rewrite (state_bind_step _ _ _ _ _ Es).
  cbn [kid kids rd lookup list_lookup]. rewrite lift_bind.
  destruct (set_prop_is p m name value Hp) as (p' & Ep & Hp'). rewrite Ep, lift_bind.
  apply skel_fits_list in Hf. apply Forall_cons_iff in Hf as [Hf1 Hf]. apply Forall_cons_iff in Hf as [Hf2 Hf].
  apply Forall_cons_iff in Hf as [Hf3 _]. destruct (set_prop_size p name value p' Hf3 Ep Hlen) as [Hfp Hep].
  cbn [set_kids kids insert list_insert]. set (s' := SList d [_; _; _]).
  assert (skel_storable s') as Hst.
  { apply skel_fits_small; [by apply skel_fits_list; repeat constructor|]. unfold s'.
    rewrite list_estimate in *. cbn [foldr] in *. pose proof (atom_pos (id_text root)).
    pose proof (atom_pos (bstr "revision")). unfold two64. lia. }
  rewrite unparse_skel_text, lift_bind by apply Hst.
  destruct Hat as (Hr & Hid & value' & s1 & Hg & _).
  assert (is_Some (rc_get (revisions fs) (rev + 1))) as Hin by (by rewrite Hg).
  eexists. split; [done|]. rewrite recno_small by done. split; [|split; [|split; [|reflexivity]]].
  - apply (rev_at_stored _ _ _ _ s'); [done|done| |done|].
    + exists d, p'. by split.
    + cbn [revisions set_revisions]. by rewrite rc_get_put, decide_True.
  - unfold next_rev. cbn [revisions set_revisions]. by rewrite rc_last_put.
  - intros rev' root' m' Hne Hat. apply (rev_at_same fs); [|done]. cbn [revisions set_revisions].
    rewrite rc_get_put by done. by rewrite decide_False by lia.
Qed.

(** The table holds the revisions [0 ..], with their roots and properties. *)
Definition revs_are (fs : svn_fs_t) (l : list (list Z * gmap bytes bytes)) : Prop :=
  next_rev fs = Z.of_nat (length l) /\ Z.of_nat (length l) < 2 ^ 32 - 1 /\
  forall i x, l !! i = Some x -> rev_at fs (Z.of_nat i) x.1 x.2.

Lemma get_rev_out fs l rev :
  revs_are fs l -> 0 <= rev < 2 ^ 32 - 1 -> l !! Z.to_nat rev = None ->
  svn_fs__get_rev rev fs = (Err SVN_ERR_FS_NO_SUCH_REVISION, fs).
Proof.
  intros (Hn & _) Hr Hl%lookup_ge_None. unfold svn_fs__get_rev. rewrite recno_small by done.
  destruct (Z.eqb_spec (rev + 1) 0); [lia|]. rewrite reading_bind.
  destruct (rc_get (revisions fs) (rev + 1)) eqn:E; [|done].
  assert (is_Some (rc_get (revisions fs) (rev + 1))) as Hin by (by rewrite E). apply rc_get_range in Hin.
  unfold next_rev in Hn. lia.
Qed.

Lemma youngest_ok fs l : revs_are fs l -> l <> [] -> svn_fs__youngest_rev fs = (Ok (Z.of_nat (length l) - 1), fs).
Proof.
  intros (Hn & Hlt & _) Hne. unfold svn_fs__youngest_rev. rewrite reading_bind.
  destruct l as [|x l]; [done|]. unfold next_rev in Hn.
  destruct (rc_last (revisions fs)) as [n|]; simpl in Hn; [|lia]. subst n.
  rewrite Z.mod_small by (cbn [length] in *; lia). done.
Qed.

Lemma get_root_ok fs rev root m :
  rev_at fs rev root m -> svn_fs__rev_get_root rev fs = (Ok (root ++ [-1]), fs).
Proof.
  intros Hat. destruct (get_rev_ok fs rev root m Hat) as (s & Es & (d & p & -> & _) & _).
  unfold svn_fs__rev_get_root. rewrite (state_bind_step _ _ _ _ _ Es).
  cbn [kid kids rd lookup list_lookup]. rewrite lift_bind. cbn [skel_data].
  destruct Hat as (_ & (Hne & _ & Hc) & _). by rewrite parse_id_text.
Qed.

Lemma rev_prop_ok fs rev root m name :
  rev_at fs rev root m ->
  txn_body_revision_prop rev name fs = (Ok (m !! name), fs) /\ txn_body_revision_proplist rev fs = (Ok m, fs).
Proof.
  intros Hat. destruct (get_rev_ok fs rev root m Hat) as (s & Es & (d & p & -> & Hp) & _).
  unfold txn_body_revision_prop, txn_body_revision_proplist. rewrite !(state_bind_step _ _ _ _ _ Es).
  cbn [kid kids rd lookup list_lookup]. rewrite !lift_bind.
  by rewrite (get_prop_is p m), (prop_hash_is p m).
Qed.

(** C17. The table of revisions implements a list of roots and property maps:
    reading gives what is in the list, or the error for revisions that are not
    there; a new revision is appended, under the number after the youngest one;
    changing a property changes the map of its revision alone. *)
Theorem revisions_refine fs l :
  revs_are fs l ->
  (l <> [] -> svn_fs__youngest_rev fs = (Ok (Z.of_nat (length l) - 1), fs)) /\
  (forall rev, 0 <= rev < 2 ^ 32 - 1 ->
    match l !! Z.to_nat rev with
    | Some (root, m) => svn_fs__rev_get_root rev fs = (Ok (root ++ [-1]), fs) /\
        forall name, txn_body_revision_prop rev name fs = (Ok (m !! name), fs)
    | None => svn_fs__get_rev rev fs = (Err SVN_ERR_FS_NO_SUCH_REVISION, fs)
    end) /\
  (forall s root m, rev_id root -> rev_is s root m -> skel_storable s -> Z.of_nat (length l) + 1 < 2 ^ 32 - 1 ->
    exists fs', svn_fs__put_rev s fs = (Ok (Z.of_nat (length l)), fs') /\ revs_are fs' (l ++ [(root, m)])) /\
  (forall i root m name value, l !! i = Some (root, m) ->
    Z.of_nat (length name) + Z.of_nat (length (default [] value)) < 2 ^ 62 -> rev_small fs (Z.of_nat i) ->
    exists fs', svn_fs__set_rev_prop (Z.of_nat i) name value fs = (Ok tt, fs') /\
      revs_are fs' (<[i := (root, partial_alter (λ _, value) name m)]> l)).
Proof.
  intros Hl. pose proof Hl as (Hn & Hlt & Hat). split; [by apply youngest_ok|]. split; [|split].
  - intros rev Hr. destruct (l !! Z.to_nat rev) as [[root m]|] eqn:E; [|by apply (get_rev_out fs l)].
    apply Hat in E. rewrite Z2Nat.id in E by lia. cbn [fst snd] in E. split; [by apply (get_root_ok _ _ _ m)|].
    intros name. by apply (rev_prop_ok _ _ root).
  - intros s root m Hid Hs Hst Hlt'.
    destruct (put_rev_ok fs s root m Hid Hs Hst) as (fs' & E & Hnew & Hn' & Hold & _); [lia|].
    exists fs'. rewrite <- Hn at 1. split; [done|]. split; [rewrite length_app; simpl; lia|].
    split; [rewrite length_app; simpl; lia|]. intros i x Hx.
    apply lookup_app_Some in Hx as [Hx|[Hge Hx]]; [by apply Hold, Hat|].
    apply list_lookup_singleton_Some in Hx as [Hi <-]. replace (Z.of_nat i) with (next_rev fs) by lia. done.
  - intros i root m name value Hi Hlen Hsm.
    destruct (set_rev_prop_ok fs (Z.of_nat i) root m name value) as (fs' & E & Hnew & Hn' & Hold & _);
      [by apply (Hat i (root, m))|done..|].
    exists fs'. split; [done|]. split; [by rewrite length_insert, Hn'|]. split; [by rewrite length_insert|].
    intros j x Hx. destruct (decide (j = i)) as [->|Hne].
    + rewrite list_lookup_insert_eq in Hx by (by apply lookup_lt_Some in Hi). by injection Hx as <-.
    + rewrite list_lookup_insert_ne in Hx by done. apply Hold; [lia|by apply Hat].
Qed.
End revs_ok.

(** ** Witness: the table of a new filesystem *)

Section sample.
#[local] Existing Instance mem_db.

Definition rev0_text : bytes := bstr "(revision 3 0.0 ())".
Definition rev0_fs : svn_fs_t := mk_fs [] [rev0_text] [] [] ∅.

Lemma rev0_is : revs_are rev0_fs [([0; 0], ∅)].
Proof.
  split; [done|]. split; [done|]. intros i x Hx. apply list_lookup_singleton_Some in Hx as [-> <-]. cbn [fst snd].
  split; [done|]. split; [split; [done|split; [done|]]; repeat constructor; unfold id_comp; lia|].
  exists rev0_text, (default (SList [] []) (svn_fs__parse_skel rev0_text)). split; [done|]. split; [by vm_compute|].
  split.
  - eexists _, (SList _ []). split; [by vm_compute|]. exists []. split; [done|]. split; [by eexists _, _|].
    split; [constructor|done].
  - vm_compute. by split_and!.
Qed.

Definition rev1_skel : skel := SList [] [Atom (bstr "revision"); Atom (bstr "0.1"); SList [] []].

Lemma revisions_refine_witness :
  revs_are rev0_fs [([0; 0], ∅)] /\
  svn_fs__youngest_rev rev0_fs = (Ok 0, rev0_fs) /\
  svn_fs__rev_get_root 0 rev0_fs = (Ok [0; 0; -1], rev0_fs) /\
  exists fs', svn_fs__put_rev rev1_skel rev0_fs = (Ok 1, fs') /\ revs_are fs' ([([0; 0], ∅)] ++ [([0; 1], ∅)]).
Proof.
  destruct (revisions_refine rev0_fs _ rev0_is) as (H1 & H2 & H3 & H4).
  split; [apply rev0_is|]. split; [by apply H1|]. split; [by apply (H2 0 ltac:(lia))|].
  apply (H3 rev1_skel [0; 1] ∅).
  - split; [done|]. split; [done|]. repeat constructor; unfold id_comp; lia.
  - eexists _, (SList [] []). split; [done|]. exists []. split; [done|]. split; [by eexists _, _|].
    split; [constructor|done].
  - split; [|done]. vm_compute. by split_and!.
  - done.
Defined.
End sample.
