(* ===== verification/TxnTable.v ===== *)
(** * The [transactions] table ([libsvn_fs/txn-table.c])

    The record of a transaction holds the ids of its root and of the root it is
    based on, and its properties; the record of ["next-id"] is the name of the next
    transaction, a decimal number. *)

From S2P Require Import Prelude KeyGen Skel Proplist Id Db NodeKeys Fs.

Definition next_id_key : bytes := bstr "next-id".

Definition is_valid_transaction (s : skel) : bool :=
  if svn_fs__list_length (Some s) =? 4 then
    match kids s with
    | [kind; root; base; proplist] =>
        svn_fs__matches_atom (Some kind) (bstr "transaction") && is_atom root && is_atom base &&
        svn_fs__is_valid_proplist proplist
    | _ => false
    end
  else false.

(** The array of names in [svn_fs__get_txn_list]; [size] is its capacity, which
    includes the null pointer at the end. *)
Fixpoint txn_list_loop (keys : list bytes) (names : list bytes) (size : nat) : outcome (list bytes) :=
  match keys with
  | [] => if (length names <? size)%nat then Ok names else Undef
  | key :: keys =>
      if decide (key = next_id_key) then txn_list_loop keys names size
      else
        let size := if (length names =? size - 1)%nat then (size * 2)%nat else size in
        if (length names <? size)%nat then txn_list_loop keys (names ++ [apr_pstrndup key]) size else Undef
  end.

Section txns.
Context `{db : BerkeleyDB}.

Definition put_txn (svn_txn : bytes) (root_id base_root_id : list Z) (proplist : skel) : trail unit :=
  unparsed_root_id ← lift (svn_fs_unparse_id root_id);
  unparsed_base_root_id ← lift (svn_fs_unparse_id base_root_id);
  txn_skel ← lift (
    s ← svn_fs__prepend proplist svn_fs__make_empty_list;
    s ← svn_fs__prepend (svn_fs__mem_atom unparsed_base_root_id (length unparsed_base_root_id)) s;
    s ← svn_fs__prepend (svn_fs__mem_atom unparsed_root_id (length unparsed_root_id)) s;
    svn_fs__prepend (svn_fs__str_atom (bstr "transaction")) s);
  if negb (is_valid_transaction txn_skel) then lift Abort
  else
    value ← lift (svn_fs__unparse_skel txn_skel);
    writing (λ fs, set_transactions (bt_put (transactions fs) (str_to_dbt svn_txn) value) fs).

Definition allocate_txn_id : trail bytes :=
  value ← reading (λ fs, bt_get (transactions fs) (str_to_dbt next_id_key));
  match value with
  | None => fail (SVN_ERR_BERKELEY_DB DB_NOTFOUND)
  | Some value =>
      match svn_fs__getsize value 1000000 with
      | None => fail SVN_ERR_FS_CORRUPT
      | Some (next_id, n) =>
          if negb (n =? length value)%nat then fail SVN_ERR_FS_CORRUPT
          else
            let buf := default [] (svn_fs__putsize 200 (size_t (next_id + 1))) in
            writing (λ fs, set_transactions (bt_put (transactions fs) (str_to_dbt next_id_key) buf) fs);;
            mret (apr_pstrndup value)
      end
  end.

Definition svn_fs__create_txn (root_id : list Z) : trail bytes :=
  svn_txn ← allocate_txn_id;
  put_txn svn_txn root_id root_id svn_fs__make_empty_list;;
  mret svn_txn.

Definition svn_fs__delete_txn (svn_txn : bytes) : trail unit :=
  t ← reading (λ fs, bt_del (transactions fs) (str_to_dbt svn_txn));
  match t with
  | None => fail (SVN_ERR_BERKELEY_DB DB_NOTFOUND)
  | Some t => writing (set_transactions t)
  end.

Definition svn_fs__get_txn (svn_txn : bytes) : trail skel :=
  value ← reading (λ fs, bt_get (transactions fs) (str_to_dbt svn_txn));
  match value with
  | None => fail SVN_ERR_FS_NO_SUCH_TRANSACTION
  | Some value =>
      match svn_fs__parse_skel value with
      | Some s => if is_valid_transaction s then mret s else fail SVN_ERR_FS_CORRUPT
      | None => fail SVN_ERR_FS_CORRUPT
      end
  end.

Definition get_proplist_from_txn_skel (txn_skel : skel) : outcome skel := kid txn_skel 3.

Definition get_ids_from_txn_skel (txn_skel : skel) : outcome (list Z * list Z) :=
  root_id_skel ← kid txn_skel 1;
  base_root_id_skel ← kid txn_skel 2;
  match svn_fs_parse_id (skel_data root_id_skel), svn_fs_parse_id (skel_data base_root_id_skel) with
  | Some root_id, Some base_root_id => Ok (root_id, base_root_id)
  | _, _ => Err SVN_ERR_FS_CORRUPT
  end.

Definition svn_fs__get_txn_ids (svn_txn : bytes) : trail (list Z * list Z) :=
  transaction ← svn_fs__get_txn svn_txn;
  lift (get_ids_from_txn_skel transaction).

Definition svn_fs__set_txn_root (svn_txn : bytes) (root_id : list Z) : trail unit :=
  txn_skel ← svn_fs__get_txn svn_txn;
  '(old_root_id, base_root_id) ← lift (get_ids_from_txn_skel txn_skel);
  same ← lift (svn_fs__id_eq old_root_id root_id);
  if (same : bool) then mret tt
  else
    proplist ← lift (get_proplist_from_txn_skel txn_skel);
    put_txn svn_txn root_id base_root_id proplist.

Definition svn_fs__set_txn_base (svn_txn : bytes) (new_id : list Z) : trail unit :=
  txn_skel ← svn_fs__get_txn svn_txn;
  '(root_id, base_root_id) ← lift (get_ids_from_txn_skel txn_skel);
  same ← lift (svn_fs__id_eq base_root_id new_id);
  if (same : bool) then mret tt
  else
    proplist ← lift (get_proplist_from_txn_skel txn_skel);
    put_txn svn_txn root_id new_id proplist.

Definition svn_fs__get_txn_list : trail (list bytes) :=
  keys ← reading (λ fs, bt_keys (transactions fs));
  lift (txn_list_loop keys [] 4).

(** The bodies of [svn_fs_txn_prop], [svn_fs_txn_proplist] and
    [svn_fs_change_txn_prop]. *)
Definition txn_body_txn_prop (id propname : bytes) : trail (option bytes) :=
  s ← svn_fs__get_txn id;
  proplist ← lift (get_proplist_from_txn_skel s);
  lift (svn_fs__get_prop proplist propname).

Definition txn_body_txn_proplist (id : bytes) : trail (gmap bytes bytes) :=
  s ← svn_fs__get_txn id;
  proplist ← lift (get_proplist_from_txn_skel s);
  lift (svn_fs__make_prop_hash proplist).

Definition txn_body_change_txn_prop (id name : bytes) (value : option bytes) : trail unit :=
  s ← svn_fs__get_txn id;
  '(root_id, base_root_id) ← lift (get_ids_from_txn_skel s);
  proplist ← lift (get_proplist_from_txn_skel s);
  proplist ← lift (svn_fs__set_prop proplist name value);
  put_txn id root_id base_root_id proplist.
End txns.

(** ** Names *)

Lemma dec_text_no_nul n : 0 <= n < two64 -> no_nul (dec_text n).
Proof. intros Hn. by apply digits_no_nul, dec_text_spec. Qed.

Lemma dec_text_not_next n : 0 <= n < two64 -> dec_text n <> next_id_key.
Proof.
  intros Hn E. destruct (dec_text_spec n Hn) as [Hd _]. rewrite E in Hd.
  unfold next_id_key in Hd. apply Forall_cons_iff in Hd as [Hd _]. vm_compute in Hd. discriminate Hd.
Qed.

Lemma dec_text_inj a b : 0 <= a < two64 -> 0 <= b < two64 -> dec_text a = dec_text b -> a = b.
Proof. intros Ha Hb E. by rewrite <- (proj1 (proj2 (dec_text_spec a Ha))), E, (proj1 (proj2 (dec_text_spec b Hb))). Qed.

(** ** What a transaction is *)

Record txn := mk_txn { t_root : list Z; t_base : list Z; t_props : gmap bytes bytes }.

Definition id_ok (l : list Z) : Prop := l <> [] /\ Forall id_comp l.

Definition txn_is (s : skel) (t : txn) : Prop :=
  exists d p, s = SList d [Atom (bstr "transaction"); Atom (id_text (t_root t)); Atom (id_text (t_base t)); p] /\
    proplist_is p (t_props t).

Lemma txn_is_equiv s s' t : s' ≡ s -> txn_is s t -> txn_is s' t.
Proof.
  intros E (d & p & -> & Hp). destruct (equiv_list _ _ _ E) as (d' & l' & -> & Hl).
  inversion Hl as [|a ? l1 ? Ha H1]; subst. inversion H1 as [|b ? l2 ? Hb H2]; subst.
  inversion H2 as [|c ? l3 ? Hc H3]; subst. inversion H3 as [|p' ? l4 ? Hp' H4]; subst. inversion H4; subst.
  rewrite equiv_atom in Ha, Hb, Hc. subst. exists d', p'. split; [done|]. by apply (proplist_equiv p).
Qed.

Lemma txn_is_valid s t : txn_is s t -> is_valid_transaction s = true.
Proof.
  intros (d & p & -> & Hp). unfold is_valid_transaction. rewrite list_length_eq.
  cbn [length kids is_atom Z.eqb Z.of_nat Pos.of_succ_nat Pos.succ Pos.eqb]. by rewrite (is_valid_is _ _ Hp).
Qed.

Lemma txn_ids s t : id_ok (t_root t) -> id_ok (t_base t) -> txn_is s t ->
  get_ids_from_txn_skel s = Ok (t_root t ++ [-1], t_base t ++ [-1]).
Proof.
  intros [] [] (d & p & -> & _). unfold get_ids_from_txn_skel. cbn [kid kids rd lookup list_lookup mbind outcome_bind].
  cbn [skel_data]. by rewrite !parse_id_text.
Qed.

Lemma id_eq_text a b j1 j2 : Forall id_comp a -> Forall id_comp b ->
  svn_fs__id_eq (a ++ -1 :: j1) (b ++ -1 :: j2) = Ok (bool_decide (a = b)).
Proof.
  intros Ha. revert b. induction Ha as [|x a Hx Ha IH]; intros b Hb; inversion Hb as [|y b' Hy Hb']; subst;
    cbn [app svn_fs__id_eq].
  - done.
  - unfold id_comp in Hy. destruct (Z.eqb_spec (-1) y); [lia|by rewrite bool_decide_false].
  - unfold id_comp in Hx. destruct (Z.eqb_spec x (-1)); [lia|by rewrite bool_decide_false].
  - unfold id_comp in *. destruct (Z.eqb_spec x y) as [->|Hne].
    + destruct (Z.eqb_spec y (-1)); [lia|]. rewrite IH by done. f_equal. apply bool_decide_ext.
      split; [by intros ->|by intros [= ->]].
    + rewrite bool_decide_false; [done|]. by intros [= ->].
Qed.

Section txns_ok.
Context `{db : BerkeleyDB}.

Definition txn_get (fs : svn_fs_t) (name : bytes) : option bytes := bt_get (transactions fs) name.

Lemma txn_get_put (fs : svn_fs_t) name v name' :
  txn_get (set_transactions (bt_put (transactions fs) name v) fs) name' =
  if decide (name = name') then Some v else txn_get fs name'.
Proof.
  unfold txn_get. cbn [transactions set_transactions]. rewrite bt_get_put, dbt_order_eq.
  by case_decide; [rewrite bool_decide_true|rewrite bool_decide_false].
Qed.

Record txn_at (fs : svn_fs_t) (name : bytes) (t : txn) : Prop := {
  at_root : id_ok (t_root t);
  at_base : id_ok (t_base t);
  at_skel : exists value s, txn_get fs name = Some value /\ svn_fs__parse_skel value = Some s /\ txn_is s t /\ skel_fits s;
}.

(** The table holds the transactions [m], and [next] is the number of the next one. *)
Record txns_are (fs : svn_fs_t) (m : gmap bytes txn) (next : Z) : Prop := {
  ta_next : txn_get fs next_id_key = Some (dec_text next);
  ta_range : 0 <= next <= 1000001;
  ta_some name t : m !! name = Some t -> txn_at fs name t;
  ta_none name : name <> next_id_key -> m !! name = None -> txn_get fs name = None;
  ta_names name : is_Some (m !! name) -> exists k, 0 <= k < next /\ name = dec_text k;
}.

(** The names of transactions are C strings and not ["next-id"]. *)
Lemma ta_name fs m next name : txns_are fs m next -> is_Some (m !! name) -> no_nul name /\ name <> next_id_key.
Proof.
  intros Ht Hn. destruct (ta_names _ _ _ Ht name Hn) as (k & Hk & ->). pose proof (ta_range _ _ _ Ht).
  split; [apply dec_text_no_nul|apply dec_text_not_next]; unfold two64; lia.
Qed.

Lemma get_txn_ok fs name t :
  no_nul name -> txn_at fs name t -> exists s, svn_fs__get_txn name fs = (Ok s, fs) /\ txn_is s t /\ skel_fits s.
Proof.
  intros Hn [_ _ (value & s & Hg & Hp & Hs & Hf)]. exists s. split; [|done]. unfold svn_fs__get_txn.
  rewrite str_to_dbt_id, reading_bind by done. change (bt_get (transactions fs) name) with (txn_get fs name).
  by rewrite Hg, Hp, (txn_is_valid s t).
Qed.

Lemma get_txn_none fs m next name :
  no_nul name -> name <> next_id_key -> txns_are fs m next -> m !! name = None ->
  svn_fs__get_txn name fs = (Err SVN_ERR_FS_NO_SUCH_TRANSACTION, fs).
Proof.
  intros Hn Hne Ht Hm. unfold svn_fs__get_txn. rewrite str_to_dbt_id, reading_bind by done.
  change (bt_get (transactions fs) name) with (txn_get fs name). by rewrite (ta_none _ _ _ Ht).
Qed.

(** The skel [put_txn] stores. *)
Definition txn_skel (root base : list Z) (p : skel) : skel :=
  SList [] [Atom (bstr "transaction"); Atom (id_text root); Atom (id_text base); p].

(** Storing a transaction changes its record alone. *)
Lemma put_txn_ok fs m next name root base p props j1 j2 :
  txns_are fs m next -> no_nul name -> (exists k, 0 <= k < next /\ name = dec_text k) ->
  id_ok root -> id_ok base -> proplist_is p props -> skel_storable (txn_skel root base p) ->
  exists fs', put_txn name (root ++ -1 :: j1) (base ++ -1 :: j2) p fs = (Ok tt, fs') /\
    txns_are fs' (<[name := mk_txn root base props]> m) next.
Proof.
  intros Ht Hn Hk Hr Hb Hp Hst. set (t := mk_txn root base props).
  assert (txn_is (txn_skel root base p) t) as Hs by (by exists [], p).
  assert (name <> next_id_key) as Hne.
  { destruct Hk as (k & ? & ->). pose proof (ta_range _ _ _ Ht). apply dec_text_not_next. unfold two64. lia. }
  exists (set_transactions (bt_put (transactions fs) name (text (txn_skel root base p))) fs). split.
  - unfold put_txn. rewrite !unparse_id_text by (apply Hr || apply Hb). rewrite !lift_bind.
    unfold svn_fs__mem_atom, svn_fs__str_atom. rewrite !firstn_all.
    cbn [svn_fs__prepend svn_fs__make_empty_list mbind outcome_bind]. rewrite lift_bind. fold (txn_skel root base p).
    rewrite (txn_is_valid _ _ Hs). cbn [negb]. rewrite unparse_skel_text, lift_bind by apply Hst.
    by rewrite str_to_dbt_id.
  - destruct (parse_skel_text _ (proj1 Hst) (proj2 Hst)) as (s' & Hps & Es). split.
    + rewrite txn_get_put, decide_False by done. apply Ht.
    + apply Ht.
    + intros name' t' Hm. destruct (decide (name = name')) as [<-|Hd].
      * rewrite lookup_insert_eq in Hm. injection Hm as <-. split; [done|done|].
        exists (text (txn_skel root base p)), s'. rewrite txn_get_put, decide_True by done.
        split; [done|]. split; [done|]. split; [by apply (txn_is_equiv (txn_skel root base p))|].
        by apply (storable_equiv (txn_skel root base p) s').
      * rewrite lookup_insert_ne in Hm by done. destruct (ta_some _ _ _ Ht name' t' Hm) as [H1 H2 H3].
        split; [done|done|]. by rewrite txn_get_put, decide_False.
    + intros name' Hne' Hm. apply lookup_insert_None in Hm as [Hm Hd].
      rewrite txn_get_put, decide_False by done. by apply (ta_none _ _ _ Ht).
    + intros name' [t' Hm]. apply lookup_insert_Some in Hm as [[<- _]|[_ Hm]]; [done|].
      apply (ta_names _ _ _ Ht). by exists t'.
Qed.

Lemma allocate_ok fs m next :
  txns_are fs m next -> next <= 1000000 ->
  exists fs', allocate_txn_id fs = (Ok (dec_text next), fs') /\ txns_are fs' m (next + 1).
Proof.
  intros Ht Hmax. pose proof (ta_range _ _ _ Ht) as Hr. pose proof (ta_next _ _ _ Ht) as Hn.
  assert (0 <= next < two64) as Hn64 by (unfold two64; lia).
  exists (set_transactions (bt_put (transactions fs) next_id_key (dec_text (next + 1))) fs). split.
  - unfold allocate_txn_id. change (str_to_dbt next_id_key) with next_id_key. rewrite reading_bind.
    change (bt_get (transactions fs) next_id_key) with (txn_get fs next_id_key). rewrite Hn.
    assert (svn_fs__getsize (dec_text next) 1000000 = Some (next, length (dec_text next))) as ->.
    { unfold dec_text. destruct (putsize_200 next Hn64) as [ds E]. rewrite E. cbn [default from_option id].
      rewrite <- (app_nil_r ds) at 1. apply (getsize_of_putsize 200); [lia|done|done|done]. }
    rewrite Nat.eqb_refl. cbn [negb]. rewrite size_t_small by (unfold two64; lia). fold (dec_text (next + 1)).
    rewrite writing_bind. unfold apr_pstrndup. rewrite strlen_ok, firstn_all by (by apply dec_text_no_nul). done.
  - split.
    + by rewrite txn_get_put, decide_True.
    + lia.
    + intros name t Hm. destruct (ta_name fs m next name Ht) as [_ Hne]; [by exists t|].
      destruct (ta_some _ _ _ Ht name t Hm) as [H1 H2 H3]. split; [done|done|]. by rewrite txn_get_put, decide_False.
    + intros name Hne Hm. rewrite txn_get_put, decide_False by done. by apply (ta_none _ _ _ Ht).
    + intros name Hm. destruct (ta_names _ _ _ Ht name Hm) as (k & Hk & ->). exists k. split; [lia|done].
Qed.

Lemma allocate_full fs m :
  txns_are fs m 1000001 -> allocate_txn_id fs = (Err SVN_ERR_FS_CORRUPT, fs).
Proof.
  intros Ht. pose proof (ta_next _ _ _ Ht) as Hn. unfold allocate_txn_id.
  change (str_to_dbt next_id_key) with next_id_key. rewrite reading_bind.
  change (bt_get (transactions fs) next_id_key) with (txn_get fs next_id_key). rewrite Hn. done.
Qed.

Lemma txn_skel_small root base p :
  skel_fits p -> Z.of_nat (length (id_text root)) < 2 ^ 62 -> Z.of_nat (length (id_text base)) < 2 ^ 62 ->
  estimate_unparsed_size p <= 2 ^ 62 + 2 ^ 61 -> skel_storable (txn_skel root base p).
Proof.
  intros Hf Hr Hb He. apply skel_fits_small.
  - apply skel_fits_list. repeat constructor; [..|done]; cbn; unfold two64; lia.
  - unfold txn_skel. rewrite list_estimate. cbn [foldr]. pose proof (atom_size (bstr "transaction")).
    pose proof (atom_size (id_text root)). pose proof (atom_size (id_text base)).
    change (length (bstr "transaction")) with 11%nat in *. unfold two64. lia.
Qed.

Lemma create_txn_ok fs m next root j :
  txns_are fs m next -> next <= 1000000 -> id_ok root -> Z.of_nat (length (id_text root)) < 2 ^ 62 ->
  exists fs', svn_fs__create_txn (root ++ -1 :: j) fs = (Ok (dec_text next), fs') /\
    m !! dec_text next = None /\ txns_are fs' (<[dec_text next := mk_txn root root ∅]> m) (next + 1).
Proof.
  intros Ht Hmax Hr Hl. pose proof (ta_range _ _ _ Ht). destruct (allocate_ok fs m next Ht Hmax) as (fs1 & E1 & Ht1).
  destruct (put_txn_ok fs1 m (next + 1) (dec_text next) root root svn_fs__make_empty_list ∅ j j Ht1)
    as (fs2 & E2 & Ht2); [|by exists next; split; [lia|]|done..| | |].
  - apply dec_text_no_nul. unfold two64. lia.
  - exists []. split; [done|]. split; [by eexists _, _|]. split; [constructor|done].
  - apply txn_skel_small; [by apply skel_fits_list|done..].
  - exists fs2. unfold svn_fs__create_txn. rewrite (state_bind_step _ _ _ _ _ E1), (state_bind_step _ _ _ _ _ E2).
    split; [done|]. split; [|done]. destruct (m !! dec_text next) eqn:Em; [|done]. exfalso.
    destruct (ta_names _ _ _ Ht (dec_text next)) as (k & Hk & Ek); [by rewrite Em|].
    apply dec_text_inj in Ek; unfold two64; lia.
Qed.

Lemma delete_txn_ok fs m next name t :
  txns_are fs m next -> m !! name = Some t ->
  exists fs', svn_fs__delete_txn name fs = (Ok tt, fs') /\ txns_are fs' (delete name m) next.
Proof.
  intros Ht Hm. destruct (ta_name fs m next name Ht) as [Hn Hne]; [by exists t|].
  unfold svn_fs__delete_txn. rewrite str_to_dbt_id, reading_bind by done.
  destruct (bt_del (transactions fs) name) as [tr|] eqn:Ed.
  2: { apply bt_del_none in Ed. destruct (ta_some _ _ _ Ht name t Hm) as [_ _ (v & s & Hg & _)].
       unfold txn_get in Hg. congruence. }
  exists (set_transactions tr fs). split; [done|].
  assert (forall name', txn_get (set_transactions tr fs) name' = if decide (name = name') then None else txn_get fs name') as Hg.
  { intros name'. unfold txn_get. cbn [transactions set_transactions]. rewrite (bt_get_del _ _ _ _ Ed), dbt_order_eq.
    by case_decide; [rewrite bool_decide_true|rewrite bool_decide_false]. }
  split.
  - rewrite Hg, decide_False by done. apply Ht.
  - apply Ht.
  - intros name' t' [Hd Hm']%lookup_delete_Some. destruct (ta_some _ _ _ Ht name' t' Hm') as [H1 H2 H3].
    split; [done|done|]. by rewrite Hg, decide_False.
  - intros name' Hne' Hm'. rewrite Hg. case_decide as Hd; [done|]. apply (ta_none _ _ _ Ht); [done|].
    by rewrite lookup_delete_ne in Hm'.
  - intros name' [t' [_ Hm']%lookup_delete_Some]. apply (ta_names _ _ _ Ht). by exists t'.
Qed.

(** The record of the transaction is far from the limits of the address space. *)
Definition txn_small (fs : svn_fs_t) (name : bytes) : Prop :=
  forall s, svn_fs__get_txn name fs = (Ok s, fs) -> estimate_unparsed_size s < 2 ^ 62.

Lemma txn_parts fs name t :
  no_nul name -> txn_at fs name t -> txn_small fs name ->
  exists d p, svn_fs__get_txn name fs = (Ok (SList d [Atom (bstr "transaction"); Atom (id_text (t_root t));
      Atom (id_text (t_base t)); p]), fs) /\
    proplist_is p (t_props t) /\ skel_fits p /\ estimate_unparsed_size p < 2 ^ 62 /\
    Z.of_nat (length (id_text (t_root t))) < 2 ^ 62 /\ Z.of_nat (length (id_text (t_base t))) < 2 ^ 62.
Proof.
  intros Hn Hat Hsm. destruct (get_txn_ok fs name t Hn Hat) as (s & Es & (d & p & -> & Hp) & Hf).
  specialize (Hsm _ Es). exists d, p. split; [done|]. split; [done|]. apply skel_fits_list in Hf.
  do 3 (apply Forall_cons_iff in Hf as [_ Hf]). apply Forall_cons_iff in Hf as [Hfp _]. split; [done|].
  rewrite list_estimate in Hsm. cbn [foldr] in Hsm. pose proof (skel_size_pos p).
  pose proof (atom_pos (bstr "transaction")). pose proof (atom_length (id_text (t_root t))).
  pose proof (atom_length (id_text (t_base t))). lia.
Qed.

Lemma get_ids_ok fs m next name t :
  txns_are fs m next -> m !! name = Some t ->
  svn_fs__get_txn_ids name fs = (Ok (t_root t ++ [-1], t_base t ++ [-1]), fs).
Proof.
  intros Ht Hm. destruct (ta_name fs m next name Ht) as [Hn _]; [by exists t|].
  pose proof (ta_some _ _ _ Ht name t Hm) as Hat. destruct (get_txn_ok fs name t Hn Hat) as (s & Es & Hs & _).
  unfold svn_fs__get_txn_ids. rewrite (state_bind_step _ _ _ _ _ Es). unfold lift.
  by rewrite (txn_ids s t (at_root _ _ _ Hat) (at_base _ _ _ Hat) Hs).
Qed.

Lemma txn_prop_ok fs m next name t propname :
  txns_are fs m next -> m !! name = Some t ->
  txn_body_txn_prop name propname fs = (Ok (t_props t !! propname), fs) /\
  txn_body_txn_proplist name fs = (Ok (t_props t), fs).
Proof.
  intros Ht Hm. destruct (ta_name fs m next name Ht) as [Hn _]; [by exists t|].
  destruct (get_txn_ok fs name t Hn (ta_some _ _ _ Ht name t Hm)) as (s & Es & (d & p & -> & Hp) & _).
  unfold txn_body_txn_prop, txn_body_txn_proplist. rewrite !(state_bind_step _ _ _ _ _ Es).
  unfold get_proplist_from_txn_skel. cbn [kid kids rd lookup list_lookup]. rewrite !lift_bind.
  by rewrite (get_prop_is p (t_props t)), (prop_hash_is p (t_props t)).
Qed.

Lemma set_root_ok fs m next name t root j :
  txns_are fs m next -> m !! name = Some t -> txn_small fs name -> id_ok root ->
  Z.of_nat (length (id_text root)) < 2 ^ 62 ->
  exists fs', svn_fs__set_txn_root name (root ++ -1 :: j) fs = (Ok tt, fs') /\
    txns_are fs' (<[name := mk_txn root (t_base t) (t_props t)]> m) next.
Proof.
  intros Ht Hm Hsm Hr Hl. destruct (ta_name fs m next name Ht) as [Hn _]; [by exists t|].
  pose proof (ta_some _ _ _ Ht name t Hm) as Hat.
  destruct (txn_parts fs name t Hn Hat Hsm) as (d & p & Es & Hp & Hf & He & Hl1 & Hl2).
  unfold svn_fs__set_txn_root. rewrite (state_bind_step _ _ _ _ _ Es).
  rewrite (txn_ids _ t (at_root _ _ _ Hat) (at_base _ _ _ Hat)), lift_bind by (by exists d, p).
  rewrite id_eq_text, lift_bind by (apply Hat || apply Hr).
  case_bool_decide as E.
  - exists fs. split; [done|]. subst root. replace (mk_txn _ _ _) with t by (by destruct t). by rewrite insert_id.
  - unfold get_proplist_from_txn_skel. cbn [kid kids rd lookup list_lookup]. rewrite lift_bind.
    apply (put_txn_ok fs m next); try done.
    + by apply (ta_names _ _ _ Ht); exists t.
    + apply Hat.
    + apply txn_skel_small; [done|done|done|lia].
Qed.

Lemma set_base_ok fs m next name t base j :
  txns_are fs m next -> m !! name = Some t -> txn_small fs name -> id_ok base ->
  Z.of_nat (length (id_text base)) < 2 ^ 62 ->
  exists fs', svn_fs__set_txn_base name (base ++ -1 :: j) fs = (Ok tt, fs') /\
    txns_are fs' (<[name := mk_txn (t_root t) base (t_props t)]> m) next.
Proof.
  intros Ht Hm Hsm Hr Hl. destruct (ta_name fs m next name Ht) as [Hn _]; [by exists t|].
  pose proof (ta_some _ _ _ Ht name t Hm) as Hat.
  destruct (txn_parts fs name t Hn Hat Hsm) as (d & p & Es & Hp & Hf & He & Hl1 & Hl2).
  unfold svn_fs__set_txn_base. rewrite (state_bind_step _ _ _ _ _ Es).
  rewrite (txn_ids _ t (at_root _ _ _ Hat) (at_base _ _ _ Hat)), lift_bind by (by exists d, p).
  rewrite id_eq_text, lift_bind by (apply Hat || apply Hr).
  case_bool_decide as E.
  - exists fs. split; [done|]. subst base. replace (mk_txn _ _ _) with t by (by destruct t). by rewrite insert_id.
  - unfold get_proplist_from_txn_skel. cbn [kid kids rd lookup list_lookup]. rewrite lift_bind.
    apply (put_txn_ok fs m next); try done.
    + by apply (ta_names _ _ _ Ht); exists t.
    + apply Hat.
    + apply txn_skel_small; [done|done|done|lia].
Qed.

Lemma change_prop_ok fs m next name t propname value :
  txns_are fs m next -> m !! name = Some t -> txn_small fs name ->
  Z.of_nat (length propname) + Z.of_nat (length (default [] value)) < 2 ^ 60 ->
  exists fs', txn_body_change_txn_prop name propname value fs = (Ok tt, fs') /\
    txns_are fs' (<[name := mk_txn (t_root t) (t_base t) (partial_alter (λ _, value) propname (t_props t))]> m) next.
Proof.
  intros Ht Hm Hsm Hl. destruct (ta_name fs m next name Ht) as [Hn _]; [by exists t|].
  pose proof (ta_some _ _ _ Ht name t Hm) as Hat.
  destruct (txn_parts fs name t Hn Hat Hsm) as (d & p & Es & Hp & Hf & He & Hl1 & Hl2).
  unfold txn_body_change_txn_prop. rewrite (state_bind_step _ _ _ _ _ Es).
  rewrite (txn_ids _ t (at_root _ _ _ Hat) (at_base _ _ _ Hat)), lift_bind by (by exists d, p).
  unfold get_proplist_from_txn_skel. cbn [kid kids rd lookup list_lookup]. rewrite lift_bind.
  destruct (set_prop_is p (t_props t) propname value Hp) as (p' & Ep & Hp'). rewrite Ep, lift_bind.
  destruct (set_prop_size p propname value p' Hf Ep) as [Hf' He']; [lia|].
  apply (put_txn_ok fs m next); try done.
  - by apply (ta_names _ _ _ Ht); exists t.
  - apply Hat.
  - apply Hat.
  - apply txn_skel_small; [done|done|done|lia].
Qed.

(** The array of names grows as needed. *)
Lemma txn_list_loop_ok keys names size :
  (length names < size)%nat -> (2 <= size)%nat ->
  txn_list_loop keys names size =
    Ok (names ++ (apr_pstrndup <$> filter (λ k, k <> next_id_key) keys)).
Proof.
  revert names size. induction keys as [|key keys IH]; intros names size Hl Hs; cbn [txn_list_loop].
  - rewrite (proj2 (Nat.ltb_lt _ _)), app_nil_r by done. done.
  - rewrite filter_cons. destruct (decide (key = next_id_key)) as [E|E].
    + rewrite decide_False by (by intros []). by apply IH.
    + rewrite decide_True by done. set (size' := if (length names =? size - 1)%nat then (size * 2)%nat else size).
      assert (length names + 1 < size')%nat.
      { unfold size'. destruct (Nat.eqb_spec (length names) (size - 1)); lia. }
      rewrite (proj2 (Nat.ltb_lt _ _)) by lia. rewrite IH by (rewrite ?length_app; simpl; lia).
      by rewrite <- app_assoc.
Qed.

Lemma txn_list_ok fs m next :
  txns_are fs m next ->
  exists l, svn_fs__get_txn_list fs = (Ok l, fs) /\ NoDup l /\ forall name, name ∈ l <-> is_Some (m !! name).
Proof.
  intros Ht. unfold svn_fs__get_txn_list. rewrite reading_bind. unfold lift. rewrite txn_list_loop_ok by (simpl; lia).
  set (keys := bt_keys (transactions fs)). cbn [app].
  assert (forall k, k ∈ keys <-> is_Some (txn_get fs k)) as Hkeys.
  { intros k. unfold txn_get. rewrite bt_keys_spec. split; [intros Hin; exists k; by rewrite ko_refl|].
    intros (k' & Hin & E%Z.eqb_eq). rewrite dbt_order_eq in E. by apply bool_decide_eq_true in E as ->. }
  assert (forall k, k ∈ filter (λ k, k <> next_id_key) keys <-> is_Some (m !! k)) as Hf.
  { intros k. rewrite list_elem_of_filter, Hkeys. split.
    - intros [Hne Hin]. destruct (m !! k) eqn:Em; [done|]. rewrite (ta_none _ _ _ Ht k Hne Em) in Hin. by destruct Hin.
    - intros Hm. split; [by apply (ta_name fs m next)|]. destruct Hm as [t Hm].
      destruct (ta_some _ _ _ Ht k t Hm) as [_ _ (v & s & -> & _)]. done. }
  assert (apr_pstrndup <$> filter (λ k, k <> next_id_key) keys = filter (λ k, k <> next_id_key) keys) as ->.
  { rewrite <- (list_fmap_id (filter (λ k, k <> next_id_key) keys)) at 2. apply list_fmap_ext. intros i k Hk.
    assert (k ∈ filter (λ k, k <> next_id_key) keys) as Hin by (by apply list_elem_of_lookup; exists i).
    apply Hf in Hin. unfold apr_pstrndup. destruct (ta_name fs m next k Ht Hin) as [Hn _].
    by rewrite strlen_ok, firstn_all. }
  exists (filter (λ k, k <> next_id_key) keys). split; [done|]. split; [|done].
  apply list.NoDup_filter, (sorted_nodup dbt_order), bt_keys_sorted.
Qed.

(** C18. The table of transactions implements a map from names to the root, the base
    root and the properties of each transaction: a new transaction gets a name that
    was not in use; the ids and the properties that were set are read back; every
    operation leaves the other transactions alone; the list of names is that of the
    map; names that are not there are reported. *)
Theorem transactions_refine fs m next :
  txns_are fs m next ->
  (forall root j, next <= 1000000 -> id_ok root -> Z.of_nat (length (id_text root)) < 2 ^ 62 ->
    exists name fs', svn_fs__create_txn (root ++ -1 :: j) fs = (Ok name, fs') /\ m !! name = None /\
      txns_are fs' (<[name := mk_txn root root ∅]> m) (next + 1)) /\
  (exists l, svn_fs__get_txn_list fs = (Ok l, fs) /\ NoDup l /\ forall name, name ∈ l <-> is_Some (m !! name)) /\
  (forall name, no_nul name -> name <> next_id_key -> m !! name = None ->
    svn_fs__get_txn name fs = (Err SVN_ERR_FS_NO_SUCH_TRANSACTION, fs)) /\
  (forall name t, m !! name = Some t ->
    svn_fs__get_txn_ids name fs = (Ok (t_root t ++ [-1], t_base t ++ [-1]), fs) /\
    (forall p, txn_body_txn_prop name p fs = (Ok (t_props t !! p), fs)) /\
    (exists fs', svn_fs__delete_txn name fs = (Ok tt, fs') /\ txns_are fs' (delete name m) next) /\
    (txn_small fs name ->
      (forall root j, id_ok root -> Z.of_nat (length (id_text root)) < 2 ^ 62 ->
        exists fs', svn_fs__set_txn_root name (root ++ -1 :: j) fs = (Ok tt, fs') /\
          txns_are fs' (<[name := mk_txn root (t_base t) (t_props t)]> m) next) /\
      (forall base j, id_ok base -> Z.of_nat (length (id_text base)) < 2 ^ 62 ->
        exists fs', svn_fs__set_txn_base name (base ++ -1 :: j) fs = (Ok tt, fs') /\
          txns_are fs' (<[name := mk_txn (t_root t) base (t_props t)]> m) next) /\
      (forall p value, Z.of_nat (length p) + Z.of_nat (length (default [] value)) < 2 ^ 60 ->
        exists fs', txn_body_change_txn_prop name p value fs = (Ok tt, fs') /\
          txns_are fs' (<[name := mk_txn (t_root t) (t_base t) (partial_alter (λ _, value) p (t_props t))]> m) next))).
Proof.
  intros Ht. split; [|split; [by apply (txn_list_ok fs m next)|split]].
  - intros root j Hn Hr Hl. exists (dec_text next). by apply create_txn_ok.
  - intros name Hn Hne Hm. by apply (get_txn_none fs m next).
  - intros name t Hm. split; [by apply (get_ids_ok fs m next)|].
    split; [intros p; by apply (txn_prop_ok fs m next name t)|].
    split; [by apply (delete_txn_ok fs m next name t)|]. intros Hsm. split; [|split].
    + intros root j Hr Hl. by apply set_root_ok.
    + intros base j Hb Hl. by apply set_base_ok.
    + intros p value Hl. by apply change_prop_ok.
Qed.

(** The names of transactions run out: the millionth and first is the last one,
    since [allocate_txn_id] does not accept its successor. *)
Theorem transaction_names_run_out fs m root :
  txns_are fs m 1000001 -> svn_fs__create_txn root fs = (Err SVN_ERR_FS_CORRUPT, fs).
Proof. intros Ht. unfold svn_fs__create_txn, mbind, state_bind. by rewrite (allocate_full fs m). Qed.
End txns_ok.

(** ** Witnesses *)

Section sample.
#[local] Existing Instance mem_db.

(** No transaction yet, [next] being the number of the first one. *)
Definition no_tables : svn_fs_t := mk_fs [] [] [] [] ∅.
Definition fresh_fs (next : Z) : svn_fs_t :=
  set_transactions (bt_put (transactions no_tables) next_id_key (dec_text next)) no_tables.

Lemma fresh_are next : 0 <= next <= 1000001 -> txns_are (fresh_fs next) ∅ next.
Proof.
  intros Hn. split; [by unfold fresh_fs; rewrite txn_get_put, decide_True|done| | |].
  - intros name t Hm. by rewrite lookup_empty in Hm.
  - intros name Hne _. unfold fresh_fs. by rewrite txn_get_put, decide_False.
  - intros name [t Hm]. by rewrite lookup_empty in Hm.
Qed.

Lemma transactions_refine_witness :
  txns_are (fresh_fs 0) ∅ 0 /\
  exists name fs', svn_fs__create_txn [0; 0; -1] (fresh_fs 0) = (Ok name, fs') /\
    txns_are fs' (<[name := mk_txn [0; 0] [0; 0] ∅]> ∅) 1 /\
    svn_fs__get_txn_ids name fs' = (Ok ([0; 0; -1], [0; 0; -1]), fs').
Proof.
  split; [by apply fresh_are|].
  destruct (transactions_refine (fresh_fs 0) ∅ 0) as [Hc _]; [by apply fresh_are|].
  destruct (Hc [0; 0] []) as (name & fs' & E & Hm & Ht); [done| |done|].
  { split; [done|]. repeat constructor; unfold id_comp; lia. }
  exists name, fs'. split; [done|]. split; [done|].
  destruct (transactions_refine fs' _ 1 Ht) as (_ & _ & _ & Hsome).
  apply (Hsome name (mk_txn [0; 0] [0; 0] ∅)). apply lookup_insert_eq.
Defined.

Lemma transaction_names_run_out_witness :
  svn_fs__create_txn [0; 0; -1] (fresh_fs 1000001) = (Err SVN_ERR_FS_CORRUPT, fresh_fs 1000001).
Proof. apply (transaction_names_run_out (fresh_fs 1000001) ∅). by apply fresh_are. Defined.
End sample.
