(* ===== verification/NodesTable.v ===== *)
(** * The [nodes] table and node revision ids
    ([libsvn_fs/nodes-table.c], [libsvn_fs/node-rev.c])

    Choosing ids for new nodes and for successors of a node revision, checking
    and storing [NODE-REVISION] skels. *)

From S2P Require Import Prelude KeyGen Skel Id Db NodeKeys Fs.

(** ** Validating [NODE-REVISION] skels; [None] is a null pointer *)

Definition is_valid_option (s : skel) : bool :=
  match s with
  | SList _ [c0; c1; c2] => svn_fs__matches_atom (Some c0) (bstr "copy") && is_atom c1 && is_atom c2
  | _ => false
  end.

(** The kind, when the header is valid. *)
Definition is_valid_header (s : skel) : option skel :=
  match s with
  | SList _ (kind :: rev :: options) =>
      if is_atom kind && is_atom rev && forallb is_valid_option options then Some kind else None
  | _ => None
  end.

Definition is_mutable_header (s : skel) : bool :=
  match s with
  | SList _ (_ :: Atom data :: _) | SList _ (_ :: SList data _ :: _) => (length data =? 0)%nat
  | _ => false
  end.

Definition is_valid_node_revision (s : skel) : bool :=
  match s with
  | SList _ (header :: rest) =>
      match is_valid_header header with
      | Some kind =>
          match rest with
          | [prop; data] =>
              is_atom prop && is_atom data &&
              (svn_fs__matches_atom (Some kind) (bstr "dir") ||
               svn_fs__matches_atom (Some kind) (bstr "file"))
          | [prop; data; edit] =>
              svn_fs__matches_atom (Some kind) (bstr "file") && is_atom prop && is_atom data &&
              is_mutable_header header && is_atom edit
          | _ => false
          end
      | None => false
      end
  | _ => false
  end.

Section nodes.
Context `{db : BerkeleyDB}.

(** ** Choosing ids *)

Definition svn_fs__new_node_id : trail (list Z) :=
  last ← reading (λ fs, bt_last (nodes fs));
  match last with
  | None => fail SVN_ERR_FS_CORRUPT
  | Some key =>
      match svn_fs_parse_id key with
      | None => fail SVN_ERR_FS_CORRUPT
      | Some id =>
          lift (
            len ← svn_fs__id_length id;
            if (len <? 2)%nat then Err SVN_ERR_FS_CORRUPT
            else
              n ← rd id 0;
              id ← wr id 0 (n + 1);
              id ← wr id 1 1;
              wr id 2 (-1))
      end
  end.

(** Berkeley DB errors of [last_key_before]: there is no key before. *)
Definition last_key_before (key : bytes) : trail bytes :=
  k ← reading (λ fs, bt_before (nodes fs) key);
  match k with
  | Some k => mret k
  | None => fail (SVN_ERR_BERKELEY_DB DB_NOTFOUND)
  end.

(** [new_id[at ..] = x, 1, -1]. *)
Definition put_branch (new_id : list Z) (id_len : nat) (x : Z) : outcome (list Z) :=
  new_id ← wr new_id id_len x;
  new_id ← wr new_id (id_len + 1) 1;
  wr new_id (id_len + 2) (-1).

Definition svn_fs__new_successor_id (id : list Z) : trail (list Z) :=
  id_len ← lift (svn_fs__id_length id);
  if Nat.odd id_len then fail SVN_ERR_FS_CORRUPT
  else
    (* the two extra cells are not initialised *)
    let new_id := take (id_len + 1) id ++ [0; 0] in
    r ← lift (rd new_id (id_len - 1));
    new_id ← lift (wr new_id (id_len - 1) (r + 1));
    key ← lift (svn_fs_unparse_id new_id);
    found ← reading (λ fs, bt_get (nodes fs) key);
    match found with
    | None => mret new_id
    | Some _ =>
        new_id ← lift (put_branch new_id id_len 1);
        key ← lift (svn_fs_unparse_id new_id);
        last ← last_key_before key;
        match svn_fs_parse_id last with
        | None => fail SVN_ERR_FS_CORRUPT
        | Some last_branch_id =>
            last_branch_len ← lift (svn_fs__id_length last_branch_id);
            if Nat.odd last_branch_len then fail SVN_ERR_FS_CORRUPT
            else if (last_branch_len =? id_len)%nat then
              lift (put_branch (take id_len id ++ drop id_len new_id) id_len 1)
            else if (id_len <? last_branch_len)%nat then
              let new_id := take (id_len + 1) last_branch_id ++ drop (id_len + 1) new_id in
              lift (b ← rd new_id id_len; put_branch new_id id_len (b + 1))
            else fail SVN_ERR_FS_CORRUPT
        end
    end.

(** ** Storing and retrieving *)

Definition svn_fs__delete_nodes_entry (id : list Z) : trail unit :=
  key ← lift (svn_fs_unparse_id id);
  t ← reading (λ fs, bt_del (nodes fs) key);
  match t with
  | None => fail (SVN_ERR_BERKELEY_DB DB_NOTFOUND)
  | Some t => writing (set_nodes t)
  end.

Definition svn_fs__get_node_revision (id : list Z) : trail skel :=
  key ← lift (svn_fs_unparse_id id);
  value ← reading (λ fs, bt_get (nodes fs) key);
  match value with
  | None => fail SVN_ERR_FS_ID_NOT_FOUND
  | Some value =>
      match svn_fs__parse_skel value with
      | Some s => if is_valid_node_revision s then mret s else fail SVN_ERR_FS_CORRUPT
      | None => fail SVN_ERR_FS_CORRUPT
      end
  end.

Definition svn_fs__put_node_revision (id : list Z) (s : skel) : trail unit :=
  if negb (is_valid_node_revision s) then fail SVN_ERR_FS_CORRUPT
  else
    key ← lift (svn_fs_unparse_id id);
    value ← lift (svn_fs__unparse_skel s);
    writing (λ fs, set_nodes (bt_put (nodes fs) key value) fs).

Definition svn_fs__create_node (s : skel) : trail (list Z) :=
  id ← svn_fs__new_node_id;
  svn_fs__put_node_revision id s;;
  mret id.

Definition svn_fs__create_successor (old_id : list Z) (new_skel : skel) : trail (list Z) :=
  new_id ← svn_fs__new_successor_id old_id;
  svn_fs__put_node_revision new_id new_skel;;
  mret new_id.

Definition svn_fs__delete_node_revision (id : list Z) : trail unit := svn_fs__delete_nodes_entry id.
End nodes.

(** ** Ids and keys *)

(** The ids that keys of the table hold: components below the limit of the parser,
    branches and their revisions numbered from 1. *)
Record stored_nid (p : nid) : Prop := {
  sn_ne : p <> [];
  sn_range : Forall (λ x, 0 <= x.1 < 100000000 /\ 0 <= x.2 < 100000000) p;
  sn_branch : Forall (λ x, 1 <= x.1 /\ 1 <= x.2) (tail p);
}.

Lemma stored_comps p : stored_nid p -> nid_comps p.
Proof. intros [_ H _]. refine (Forall_impl _ _ H). unfold id_comp. intros x ?. lia. Qed.

Lemma key_nid_text p : p <> [] -> nid_comps p -> key_nid (id_text (flat p)) = Some p.
Proof.
  intros Hne Hp. pose proof (proj2 (nid_comps_flat p) Hp) as Hf.
  assert (flat p <> []) as Hfl by (by destruct p as [|[] ?]).
  unfold key_nid, parse_node_revision_dbt.
  rewrite parse_id_text by done.
  rewrite id_length_comps by done. cbn [mbind outcome_bind].
  replace (Nat.odd (length (flat p))) with false; [by rewrite pairs_flat|].
  rewrite flat_length. symmetry. apply (parity_even (length p)).
Qed.

Lemma unparse_nid p junk : nid_comps p -> svn_fs_unparse_id (flat p ++ -1 :: junk) = Ok (id_text (flat p)).
Proof. intros Hp. by apply unparse_id_text, nid_comps_flat. Qed.

Lemma id_length_nid p junk : nid_comps p -> svn_fs__id_length (flat p ++ -1 :: junk) = Ok (2 * length p)%nat.
Proof. intros Hp. rewrite id_length_comps by (by apply nid_comps_flat). by rewrite flat_length. Qed.

Section choosing.
Context `{db : BerkeleyDB}.

Definition has_node (fs : svn_fs_t) (p : nid) : Prop := is_Some (bt_get (nodes fs) (id_text (flat p))).

(** The keys of the table are node revision ids. *)
Definition nodes_wf (fs : svn_fs_t) : Prop :=
  forall k, is_Some (bt_get (nodes fs) k) -> exists p, key_nid k = Some p /\ stored_nid p.

Lemma nodes_cmp_le a b : nodes_cmp a b <= 0 <-> lex (node_key a) (node_key b) <= 0.
Proof. rewrite <- nodes_cmp_key. lia. Qed.

Lemma nodes_cmp_lt a b : nodes_cmp a b < 0 <-> lex (node_key a) (node_key b) < 0.
Proof. rewrite <- nodes_cmp_key. lia. Qed.

Lemma node_key_nid k p : key_nid k = Some p -> node_key k = 1 :: nid_key p.
Proof. unfold node_key. by intros ->. Qed.

Lemma node_key_text p : p <> [] -> nid_comps p -> node_key (id_text (flat p)) = 1 :: nid_key p.
Proof. intros. by apply node_key_nid, key_nid_text. Qed.

Lemma has_node_key fs k p :
  key_nid k = Some p -> p <> [] -> nid_comps p -> is_Some (bt_get (nodes fs) k) <-> has_node fs p.
Proof.
  intros Hk Hne Hp. unfold has_node. rewrite (bt_get_eq (nodes fs) k (id_text (flat p))); [done|].
  apply (lex_cmp_eq _ _ nodes_cmp_key). rewrite (node_key_nid k p), node_key_text; done.
Qed.

Lemma has_node_wf fs p : nodes_wf fs -> p <> [] -> nid_comps p -> has_node fs p -> stored_nid p.
Proof.
  intros Hwf Hne Hp H. destruct (Hwf _ H) as (q & Hq & Hs). rewrite key_nid_text in Hq by done. by injection Hq as <-.
Qed.

(** The last key of the table, as an id. *)
Lemma last_node_ok fs p0 :
  nodes_wf fs -> has_node fs p0 ->
  exists k q, bt_last (nodes fs) = Some k /\ key_nid k = Some q /\ stored_nid q /\
    forall p, stored_nid p -> has_node fs p -> lex (nid_key p) (nid_key q) <= 0.
Proof.
  intros Hwf H0. pose proof (bt_last_spec (nodes fs)) as H. destruct (bt_last (nodes fs)) as [k|].
  - destruct H as [Hk Hmax]. destruct (Hwf _ Hk) as (q & Hq & Hs). exists k, q. split_and!; [done..|].
    intros p Hp Hp'. specialize (Hmax _ Hp'). apply nodes_cmp_le in Hmax.
    rewrite node_key_text, (node_key_nid k q) in Hmax by (done || apply Hp || by apply stored_comps).
    exact Hmax.
  - destruct H0 as [v Hv]. by rewrite H in Hv.
Qed.

Lemma parse_key_nid k q : key_nid k = Some q -> svn_fs_parse_id k = Some (flat q ++ [-1]).
Proof.
  destruct (parse_node_revision_cases k) as [[_ ->]|(p & _ & -> & _ & _ & E)]; [done|]. by intros [= <-].
Qed.

Lemma new_node_id_ok fs p0 :
  nodes_wf fs -> has_node fs p0 ->
  exists id n, svn_fs__new_node_id fs = (Ok id, fs) /\ repr id [(n, 1)] /\ 0 < n <= 100000000 /\
    forall m r p, stored_nid ((m, r) :: p) -> has_node fs ((m, r) :: p) -> m < n.
Proof.
  intros Hwf H0. destruct (last_node_ok fs p0 Hwf H0) as (k & q & Ek & Hk & Hq & Hmax).
  destruct q as [|[n v] q]; [by destruct Hq|].
  unfold svn_fs__new_node_id. rewrite reading_bind, Ek.
  rewrite (parse_key_nid k _ Hk). rewrite id_length_nid by (by apply stored_comps).
  cbn [mbind outcome_bind length lift]. destruct (Nat.ltb_spec (2 * S (length q)) 2); [lia|].
  rewrite flat_cons. destruct (flat q ++ [-1]) as [|x l] eqn:E; [by destruct (flat q)|].
  cbn [app]. rewrite E. cbn [rd lookup list_lookup mbind outcome_bind].
  rewrite !wr_Ok by (rewrite ?length_insert; simpl; lia). cbn [mbind outcome_bind].
  rewrite !wr_Ok by (rewrite ?length_insert; simpl; lia). cbn [mbind outcome_bind].
  rewrite !wr_Ok by (rewrite ?length_insert; simpl; lia).
  exists (n + 1 :: 1 :: -1 :: l), (n + 1). split; [done|]. split; [by exists l|].
  destruct Hq as [_ Hr _]. apply Forall_cons_iff in Hr as [[Hn _] _]. simpl in Hn. split; [lia|].
  intros m r p Hp Hh. specialize (Hmax _ Hp Hh). cbn [nid_key lex] in Hmax.
  destruct (Z.eqb_spec m n), (Z.ltb_spec m n); lia.
Qed.

Lemma nid_key_inner n r p : p <> [] -> nid_key ((n, r) :: p) = n :: r + branch_offset :: nid_key p.
Proof. by destruct p. Qed.

Definition small (p : nid) : Prop := Forall (λ x, 0 <= x.1 < 100000000 /\ 0 <= x.2 < 100000000) p.

(** What lies between the next revision of a node and the first branch off it:
    later revisions of the node, and branches off its earlier revisions. *)
Lemma between_next pre n v l :
  small pre -> 0 <= v -> small l -> Forall (λ x, 1 <= x.1 /\ 1 <= x.2) (tail l) ->
  lex (nid_key (pre ++ [(n, v + 1)])) (nid_key l) <= 0 ->
  lex (nid_key l) (nid_key (pre ++ [(n, v + 1); (1, 1)])) < 0 ->
  exists r rest, l = pre ++ (n, r) :: rest /\ ((rest = [] /\ v + 1 <= r) \/ (rest <> [] /\ r <= v)).
Proof.
  intros Hpre Hv. revert l. induction Hpre as [|[a b] pre [Ha Hb] Hpre IH]; intros [|[n' r'] l] Hl Ht H1 H2;
    cbn [app fst snd tail] in *.
  - cbn [nid_key] in *. rewrite !lex_cons_le, !lex_cons_lt in *. cbn [lex] in *. lia.
  - apply Forall_cons_iff in Hl as [[Hn' Hr'] Hl]. cbn [fst snd] in *.
    destruct l as [|[b s] l].
    + exists r', []. cbn [nid_key] in *. rewrite !lex_cons_le, !lex_cons_lt in *. unfold branch_offset in *.
      assert (n' = n) as -> by lia. split; [reflexivity|]. left. split; [done|lia].
    + apply Forall_cons_iff in Ht as [[Hb Hs] _]. cbn [fst snd] in *. exists r', ((b, s) :: l).
      rewrite (nid_key_inner n' r' ((b, s) :: l)) in H1, H2 by done.
      rewrite (nid_key_inner n (v + 1) [(1, 1)]) in H2 by done.
      cbn [nid_key] in *. unfold branch_offset in *.
      assert (n' = n) as -> by (rewrite !lex_cons_le, !lex_cons_lt in *; lia). split; [done|].
      right. split; [done|]. destruct (Z.le_gt_cases r' v); [done|]. exfalso.
      destruct l as [|[? ?] l]; cbn [nid_key] in *; rewrite !lex_cons_le, !lex_cons_lt in *;
        cbn [lex] in *; lia.
  - rewrite nid_key_inner in H1 by (by destruct pre). cbn [nid_key] in H1. rewrite lex_cons_le in H1. lia.
  - apply Forall_cons_iff in Hl as [[Hn' Hr'] Hl]. cbn [fst snd] in *.
    rewrite (nid_key_inner a b) in H1, H2 by (by destruct pre).
    destruct (decide (l = [])) as [->|Hne].
    + cbn [nid_key] in *. unfold branch_offset in *. rewrite !lex_cons_le, !lex_cons_lt in *. lia.
    + rewrite (nid_key_inner n' r') in H1, H2 by done. rewrite !lex_cons_le, !lex_cons_lt in *.
      assert (n' = a /\ r' = b) as [-> ->] by lia.
      destruct (IH l) as (r & rest & -> & Hc); [done| |lia|lia|].
      { destruct l as [|x l]; [done|]. by apply Forall_cons_iff in Ht as [_ Ht]. }
      by exists r, rest.
Qed.

Lemma put_branch_ok l a b c x len :
  length l = len -> put_branch (l ++ [a; b; c]) len x = Ok (l ++ [x; 1; -1]).
Proof.
  intros <-. unfold put_branch.
  rewrite wr_Ok by (rewrite length_app; simpl; lia). cbn [mbind outcome_bind].
  rewrite insert_app_r_alt, Nat.sub_diag by lia. cbn [insert list_insert].
  rewrite wr_Ok by (rewrite length_app; simpl; lia). cbn [mbind outcome_bind].
  rewrite insert_app_r_alt by lia. replace (length l + 1 - length l)%nat with 1%nat by lia.
  cbn [insert list_insert].
  rewrite wr_Ok by (rewrite length_app; simpl; lia).
  rewrite insert_app_r_alt by lia. by replace (length l + 2 - length l)%nat with 2%nat by lia.
Qed.

Lemma flat_branch p b : flat p ++ [b; 1; -1] = flat (p ++ [(b, 1)]) ++ [-1].
Proof. rewrite flat_app, <- app_assoc. done. Qed.

(** A revision of the node [pre, n] that has branches in the table. *)
Definition branched (fs : svn_fs_t) (pre : nid) (n r : Z) : Prop :=
  exists x rest, stored_nid (pre ++ (n, r) :: x :: rest) /\ has_node fs (pre ++ (n, r) :: x :: rest).

(** The successor chosen for the node revision [pre, n, v]. *)
Inductive successor_id (fs : svn_fs_t) (pre : nid) (n v : Z) : nid -> Prop :=
  | succ_next : ~ has_node fs (pre ++ [(n, v + 1)]) -> successor_id fs pre n v (pre ++ [(n, v + 1)])
  | succ_first_branch :
      has_node fs (pre ++ [(n, v + 1)]) -> (forall r, r <= v -> ~ branched fs pre n r) ->
      successor_id fs pre n v (pre ++ [(n, v); (1, 1)])
  | succ_last_branch r b :
      has_node fs (pre ++ [(n, v + 1)]) -> r <= v -> branched fs pre n r ->
      (forall r', r < r' <= v -> ~ branched fs pre n r') -> 2 <= b <= 100000000 ->
      successor_id fs pre n v (pre ++ [(n, r); (b, 1)]).

(** Order facts about keys that start with the same prefix. *)
Lemma lex_prefix pre n r r' p q :
  lex (nid_key (pre ++ (n, r) :: p)) (nid_key (pre ++ (n, r') :: q)) =
  lex (nid_key ((n, r) :: p)) (nid_key ((n, r') :: q)).
Proof.
  induction pre as [|[a b] pre IH]; [done|]. cbn [app].
  rewrite (nid_key_inner a b), (nid_key_inner a b) by (by destruct pre).
  cbn [lex]. by rewrite !Z.eqb_refl.
Qed.

(** The record found before the first branch off the next revision. *)
Lemma last_before_ok fs pre n v :
  nodes_wf fs -> stored_nid (pre ++ [(n, v)]) -> has_node fs (pre ++ [(n, v + 1)]) ->
  exists k r rest, bt_before (nodes fs) (id_text (flat (pre ++ [(n, v + 1); (1, 1)]))) = Some k /\
    key_nid k = Some (pre ++ (n, r) :: rest) /\ stored_nid (pre ++ (n, r) :: rest) /\
    has_node fs (pre ++ (n, r) :: rest) /\
    ((rest = [] /\ v + 1 <= r) \/ (rest <> [] /\ r <= v)) /\
    forall r' x rest', r' <= v -> stored_nid (pre ++ (n, r') :: x :: rest') ->
      has_node fs (pre ++ (n, r') :: x :: rest') ->
      lex (nid_key ((n, r') :: x :: rest')) (nid_key ((n, r) :: rest)) <= 0.
Proof.
  intros Hwf Hp Hnext. pose proof (sn_range _ Hp) as Hs. apply Forall_app in Hs as [Hpre Hnv].
  apply Forall_cons_iff in Hnv as [[Hn Hv] _]. cbn [fst snd] in Hn, Hv.
  assert (nid_comps (pre ++ [(n, v + 1)]) /\ nid_comps (pre ++ [(n, v + 1); (1, 1)])) as [Hc1 Hc2].
  { assert (nid_comps pre) by (refine (Forall_impl _ _ Hpre); unfold id_comp; intros x ?; lia).
    split; (apply Forall_app; split; [done|]); repeat constructor; unfold id_comp; simpl; lia. }
  assert (forall l, pre ++ (n, v + 1) :: l <> []) as Hne by (intros ? E; by destruct pre).
  pose proof (bt_before_spec (nodes fs) (id_text (flat (pre ++ [(n, v + 1); (1, 1)])))) as H.
  change (ko_cmp nodes_order) with nodes_cmp in H.
  assert (nodes_cmp (id_text (flat (pre ++ [(n, v + 1)]))) (id_text (flat (pre ++ [(n, v + 1); (1, 1)]))) < 0) as Hlt.
  { apply nodes_cmp_lt. rewrite !node_key_text by done. apply lex_cons_lt. right. split; [done|].
    rewrite lex_prefix. cbn [nid_key]. rewrite !lex_cons_lt. unfold branch_offset. lia. }
  destruct (bt_before (nodes fs) _) as [k|]; [|specialize (H _ Hnext); lia].
  destruct H as (Hk & HkK & Hmax). destruct (Hwf _ Hk) as (q & Hq & Hsq).
  pose proof (Hmax _ Hnext Hlt) as Hle. apply nodes_cmp_le in Hle. apply nodes_cmp_lt in HkK.
  rewrite node_key_text, (node_key_nid k q) in Hle, HkK by done. cbn in Hle, HkK.
  destruct (between_next pre n v q) as (r & rest & -> & Hcase); [done|lia|apply Hsq|apply Hsq|done|done|].
  exists k, r, rest. split_and!; [done|done|done| |done|].
  { apply (has_node_key fs k); [done|apply Hsq|by apply stored_comps|done]. }
  intros r' x rest' Hr' Hst Hh. specialize (Hmax _ Hh).
  rewrite nodes_cmp_lt, nodes_cmp_le, !node_key_text, (node_key_nid k _ Hq) in Hmax
    by (done || apply Hst || by apply stored_comps).
  rewrite lex_cons_lt, lex_cons_le in Hmax. rewrite !lex_prefix in Hmax.
  destruct Hmax as [Hbad|[_ Hmax]]; [|lia|done]. right. split; [done|].
  rewrite !nid_key_inner by done. rewrite !lex_cons_lt. lia.
Qed.

Lemma bump_revision pre n v l :
  rd (flat (pre ++ [(n, v)]) ++ l) (2 * length (pre ++ [(n, v)]) - 1) = Ok v /\
  wr (flat (pre ++ [(n, v)]) ++ l) (2 * length (pre ++ [(n, v)]) - 1) (v + 1) =
    Ok (flat (pre ++ [(n, v + 1)]) ++ l).
Proof.
  rewrite !flat_app, !flat_cons, !flat_nil.
  assert (2 * length (pre ++ [(n, v)]) - 1 = length (flat pre ++ [n]))%nat as ->
    by (rewrite !length_app, flat_length; simpl; lia).
  change [n; v] with ([n] ++ [v]). change [n; v + 1] with ([n] ++ [v + 1]).
  rewrite !(app_assoc (flat pre)), <- !(app_assoc (flat pre ++ [n])). cbn [app]. split.
  - apply rd_Ok. by apply list_lookup_middle.
  - rewrite wr_Ok by (rewrite (length_app (flat pre ++ [n])); simpl; lia).
    by rewrite insert_app_r_alt, Nat.sub_diag by lia.
Qed.

Lemma stored_branch pre n r rest x :
  stored_nid (pre ++ (n, r) :: rest) -> 1 <= x < 100000000 -> stored_nid (pre ++ [(n, r); (x, 1)]).
Proof.
  intros [_ Hs Ht] Hx. apply Forall_app in Hs as [Hs Hr]. apply Forall_cons_iff in Hr as [Hr _].
  split; [by destruct pre| |].
  - apply Forall_app. split; [done|]. repeat constructor; simpl in *; lia.
  - destruct pre as [|y pre]; cbn [app tail] in *; [repeat constructor; simpl; lia|].
    apply Forall_app in Ht as [Ht Hr']. apply Forall_cons_iff in Hr' as [Hr' _].
    apply Forall_app. split; [done|]. repeat constructor; simpl in *; lia.
Qed.

Lemma new_successor_ok fs pre n v junk :
  nodes_wf fs -> stored_nid (pre ++ [(n, v)]) ->
  exists id q, svn_fs__new_successor_id (flat (pre ++ [(n, v)]) ++ -1 :: junk) fs = (Ok id, fs) /\
    repr id q /\ successor_id fs pre n v q /\ ~ has_node fs q.
Proof.
  intros Hwf Hp. set (p := pre ++ [(n, v)]) in *. pose proof (stored_comps _ Hp) as Hc.
  pose proof (sn_range _ Hp) as Hs. apply Forall_app in Hs as [Hpre Hnv].
  apply Forall_cons_iff in Hnv as [[Hn Hv] _]. cbn [fst snd] in Hn, Hv.
  assert (svn_fs__id_length (flat p ++ -1 :: junk) = Ok (2 * length p)%nat) as Hlen by (by apply id_length_nid).
  assert (length p = S (length pre)) as Hlp by (unfold p; rewrite length_app; simpl; lia).
  unfold svn_fs__new_successor_id. rewrite Hlen, lift_bind.
  destruct (parity_even (length p)) as [_ ->].
  assert (take (2 * length p + 1) (flat p ++ -1 :: junk) = flat p ++ [-1]) as ->.
  { rewrite <- flat_length, take_app_add. done. }
  rewrite <- (app_assoc (flat p)). cbn [app].
  set (next := pre ++ [(n, v + 1)]).
  assert (rd (flat p ++ [-1; 0; 0]) (2 * length p - 1) = Ok v /\
    wr (flat p ++ [-1; 0; 0]) (2 * length p - 1) (v + 1) = Ok (flat next ++ [-1; 0; 0])) as [-> Hw]
    by (by apply bump_revision).
  rewrite lift_bind, Hw, lift_bind.
  assert (forall x l, nid_comps l -> id_comp x -> nid_comps (pre ++ (n, x) :: l)) as Hcx.
  { intros x l Hl Hx. apply Forall_app. split; [|constructor; [split; [unfold id_comp; simpl; lia|exact Hx]|exact Hl]].
    refine (Forall_impl _ _ Hpre); unfold id_comp; intros ? ?; lia. }
  assert (nid_comps next) as Hc1 by (apply Hcx; [constructor|unfold id_comp; lia]).
  assert (id_comp 1) as Hone by (unfold id_comp; lia).
  rewrite unparse_nid, lift_bind, reading_bind by done.
  destruct (bt_get (nodes fs) (id_text (flat next))) as [w|] eqn:Eg.
  2:{ exists (flat next ++ [-1; 0; 0]), next. split; [done|]. split; [by exists [0; 0]|].
      assert (~ has_node fs next) by (unfold has_node; rewrite Eg; by intros [? ?]).
      split; [by constructor|done]. }
  assert (has_node fs next) as Hnext by (by eexists).
  rewrite put_branch_ok, lift_bind by (rewrite flat_length; unfold next, p; by rewrite !length_app).
  rewrite flat_branch.
  replace (next ++ [(1, 1)]) with (pre ++ [(n, v + 1); (1, 1)]) by (unfold next; by rewrite <- app_assoc).
  assert (nid_comps [(1, 1)]) as H11 by (repeat constructor; done).
  rewrite unparse_nid, lift_bind by (apply Hcx; [done|unfold id_comp; lia]).
  destruct (last_before_ok fs pre n v Hwf Hp Hnext) as (k & r & rest & Ek & Hk & Hsr & Hhr & Hcase & Hmax).
  unfold last_key_before. unfold mbind at 1, state_bind at 1. rewrite reading_bind, Ek. cbn [mret state_ret].
  rewrite (parse_key_nid k _ Hk), id_length_nid, lift_bind by (by apply stored_comps).
  destruct (parity_even (length (pre ++ (n, r) :: rest))) as [_ ->].
  rewrite !length_app. cbn [length].
  assert (flat (pre ++ [(n, v + 1); (1, 1)]) ++ [-1] = flat next ++ [1; 1; -1]) as ->.
  { unfold next. rewrite flat_branch. by rewrite <- app_assoc. }
  assert (length (flat next) = 2 * length p)%nat as Hln
    by (rewrite flat_length; unfold next, p; by rewrite !length_app).
  assert (forall q, ~ branched fs pre n (q : Z) -> forall x, stored_nid (pre ++ [(n, q); (x, 1)]) ->
    ~ has_node fs (pre ++ [(n, q); (x, 1)])) as Hnb.
  { intros q Hq x Hst Hh. apply Hq. by exists (x, 1), []. }
  pose proof (sn_range _ Hsr) as Hrr. apply Forall_app in Hrr as [_ Hrr].
  apply Forall_cons_iff in Hrr as [[_ Hr2] Hrest]. cbn [fst snd] in Hr2.
  destruct Hcase as [[-> Hr]|[Hne Hr]].
  - cbn [length]. rewrite Hlp. destruct (Nat.eqb_spec (2 * (length pre + 1)) (2 * S (length pre))); [|lia].
    rewrite <- Hlp, <- (flat_length p), take_app_length.
    rewrite flat_length, <- Hln, drop_app_length, Hln.
    unfold lift. rewrite put_branch_ok by apply flat_length. rewrite flat_branch.
    assert (p ++ [(1, 1)] = pre ++ [(n, v); (1, 1)]) as -> by (unfold p; by rewrite <- app_assoc).
    assert (forall r', r' <= v -> ~ branched fs pre n r') as Hnone.
    { intros r' Hr' (x & rest & Hst & Hh). specialize (Hmax _ _ _ Hr' Hst Hh).
      rewrite nid_key_inner in Hmax by done. cbn [nid_key] in Hmax.
      apply sn_range, Forall_app in Hst as [_ Hst]. apply Forall_cons_iff in Hst as [[_ ?] _]. cbn [snd] in *.
      rewrite !lex_cons_le in Hmax. unfold branch_offset in Hmax. lia. }
    eexists _, _. split; [done|]. split; [by exists []|]. split; [by apply succ_first_branch|].
    apply Hnb; [by apply Hnone|]. eapply stored_branch; [exact Hp|lia].
  - destruct rest as [|[b s] rest]; [done|]. cbn [length]. rewrite Hlp.
    destruct (Nat.eqb_spec (2 * (length pre + S (S (length rest)))) (2 * S (length pre))); [lia|].
    destruct (Nat.ltb_spec (2 * S (length pre)) (2 * (length pre + S (S (length rest))))); [|lia].
    apply Forall_cons_iff in Hrest as [[Hb _] _]. cbn [fst] in Hb.
    assert (1 <= b) as Hb1.
    { pose proof (sn_branch _ Hsr) as Ht. destruct pre as [|y pre]; cbn [app tail] in Ht;
        [|apply Forall_app in Ht as [_ Ht]; apply Forall_cons_iff in Ht as [_ Ht]];
        by apply Forall_cons_iff in Ht as [[? _] _]. }
    assert (length (flat (pre ++ [(n, r)])) = 2 * S (length pre))%nat as Hlr
      by (rewrite flat_length, length_app; simpl; lia).
    assert (take (2 * S (length pre) + 1) (flat (pre ++ (n, r) :: (b, s) :: rest) ++ [-1]) =
      flat (pre ++ [(n, r)]) ++ [b]) as ->.
    { replace (pre ++ (n, r) :: (b, s) :: rest) with ((pre ++ [(n, r)]) ++ (b, s) :: rest)
        by (by rewrite <- app_assoc).
      rewrite flat_app, <- app_assoc, flat_cons, <- Hlr, take_app_add. done. }
    rewrite <- Hlp, <- Hln, drop_app_add, Hln, Hlp, <- app_assoc. cbn [app drop].
    rewrite (proj2 (rd_Ok _ _ b)) by (by apply list_lookup_middle).
    unfold lift. cbn [mbind outcome_bind]. rewrite put_branch_ok, flat_branch by done.
    rewrite <- app_assoc. cbn [app].
    assert (branched fs pre n r) as Hbr by (by exists (b, s), rest).
    assert (forall r', r < r' <= v -> ~ branched fs pre n r') as Hnone.
    { intros r' Hr' (x & rest' & Hst & Hh). specialize (Hmax r' x rest' ltac:(lia) Hst Hh).
      rewrite !nid_key_inner in Hmax by done. rewrite !lex_cons_le in Hmax. lia. }
    eexists _, _. split; [done|]. split; [by exists []|].
    split; [apply succ_last_branch; (done || lia)|].
    intros Hh. assert (stored_nid (pre ++ [(n, r); (b + 1, 1)])) as Hst.
    { apply (has_node_wf fs); [done|by destruct pre| |done]. apply Hcx; [|unfold id_comp; lia].
      repeat constructor; unfold id_comp; simpl; lia. }
    specialize (Hmax r _ _ Hr Hst Hh). rewrite !nid_key_inner in Hmax by done.
    destruct rest as [|? ?]; cbn [nid_key] in Hmax; rewrite !lex_cons_le in Hmax; lia.
Qed.
End choosing.

(** ** Validity does not depend on where lists were parsed from *)

Lemma is_atom_erase s : is_atom (erase s) = is_atom s.
Proof. by destruct s. Qed.

Lemma matches_atom_erase s str :
  svn_fs__matches_atom (Some (erase s)) str = svn_fs__matches_atom (Some s) str.
Proof. by destruct s. Qed.

Lemma is_valid_option_erase s : is_valid_option (erase s) = is_valid_option s.
Proof.
  destruct s as [|d [|c0 [|c1 [|c2 [|]]]]]; try done. cbn [erase fmap list_fmap is_valid_option].
  by rewrite matches_atom_erase, !is_atom_erase.
Qed.

Lemma is_valid_header_erase s : is_valid_header (erase s) = erase <$> is_valid_header s.
Proof.
  destruct s as [|d [|kind [|rev options]]]; try done.
  cbn [erase fmap list_fmap is_valid_header]. rewrite !is_atom_erase.
  replace (forallb is_valid_option (erase <$> options)) with (forallb is_valid_option options).
  - by destruct (is_atom kind && is_atom rev && forallb is_valid_option options).
  - induction options as [|o l IH]; [done|]. cbn [fmap list_fmap forallb]. by rewrite is_valid_option_erase, IH.
Qed.

Lemma is_valid_node_revision_erase s : is_valid_node_revision (erase s) = is_valid_node_revision s.
Proof.
  destruct s as [|d [|header rest]]; try done. cbn [erase fmap list_fmap is_valid_node_revision].
  rewrite is_valid_header_erase. destruct (is_valid_header header) as [kind|] eqn:E; [|done].
  cbn [fmap option_fmap option_map].
  destruct rest as [|prop [|data [|edit [|]]]]; try done; cbn [fmap list_fmap];
    rewrite !matches_atom_erase, !is_atom_erase; [done|].
  replace (is_mutable_header (erase header)) with (is_mutable_header header); [done|].
  destruct header as [|? [|? [|[] ?]]]; try done. cbn in E. by rewrite andb_false_r in E.
Qed.

Section storing.
Context `{db : BerkeleyDB}.

Lemma put_node_revision_ok fs q junk s :
  nid_comps q -> is_valid_node_revision s = true -> skel_fits s ->
  svn_fs__put_node_revision (flat q ++ -1 :: junk) s fs =
    (Ok tt, set_nodes (bt_put (nodes fs) (id_text (flat q)) (text s)) fs).
Proof.
  intros Hq Hs Hf. unfold svn_fs__put_node_revision. rewrite Hs. cbn [negb].
  rewrite unparse_nid, lift_bind by done. by rewrite unparse_skel_text, lift_bind.
Qed.

Lemma get_node_revision_ok fs q junk s :
  nid_comps q -> is_valid_node_revision s = true -> skel_fits s -> Z.of_nat (length (text s)) < two64 ->
  bt_get (nodes fs) (id_text (flat q)) = Some (text s) ->
  exists s', svn_fs__get_node_revision (flat q ++ -1 :: junk) fs = (Ok s', fs) /\ s' ≡ s.
Proof.
  intros Hq Hs Hf Hl Hg. unfold svn_fs__get_node_revision.
  rewrite unparse_nid, lift_bind, reading_bind, Hg by done.
  destruct (parse_skel_text s Hf Hl) as (s' & -> & He). exists s'.
  by rewrite <- is_valid_node_revision_erase, He, is_valid_node_revision_erase, Hs.
Qed.

(** Storing a node revision under an id changes that id only. *)
Lemma put_node_get fs q v p :
  q <> [] -> nid_comps q -> p <> [] -> nid_comps p ->
  bt_get (nodes (set_nodes (bt_put (nodes fs) (id_text (flat q)) v) fs)) (id_text (flat p)) =
  if decide (p = q) then Some v else bt_get (nodes fs) (id_text (flat p)).
Proof.
  intros Hqn Hq Hpn Hp. cbn [nodes set_nodes]. rewrite bt_get_put.
  change (ko_cmp nodes_order) with nodes_cmp.
  assert ((nodes_cmp (id_text (flat q)) (id_text (flat p)) =? 0) = bool_decide (p = q)) as ->.
  { apply eq_bool_prop_intro. rewrite bool_decide_spec, Is_true_true, Z.eqb_eq.
    rewrite (lex_cmp_eq _ _ nodes_cmp_key), node_key_eq, !key_nid_text by done. done. }
  destruct (decide (p = q)); [by rewrite bool_decide_true|by rewrite bool_decide_false].
Qed.

Lemma put_node_wf fs q v :
  nodes_wf fs -> stored_nid q -> nodes_wf (set_nodes (bt_put (nodes fs) (id_text (flat q)) v) fs).
Proof.
  intros Hwf Hq k. cbn [nodes set_nodes]. rewrite bt_get_put.
  destruct (Z.eqb_spec (ko_cmp nodes_order (id_text (flat q)) k) 0) as [E|]; [|apply Hwf].
  intros _. exists q. split; [|done].
  apply (lex_cmp_eq _ _ nodes_cmp_key), node_key_eq in E.
  rewrite key_nid_text in E by (apply Hq || by apply stored_comps). destruct (key_nid k); [by subst|done].
Qed.

(** Everything but the nodes table is left alone, and in it every id but [q]. *)
Definition only_node_changed (fs fs' : svn_fs_t) (q : nid) : Prop :=
  other_tables fs' = other_tables fs /\
  forall p, p <> [] -> nid_comps p -> p <> q ->
    bt_get (nodes fs') (id_text (flat p)) = bt_get (nodes fs) (id_text (flat p)).

Lemma store_new_node fs q junk s :
  q <> [] -> nid_comps q -> is_valid_node_revision s = true -> skel_fits s ->
  Z.of_nat (length (text s)) < two64 -> nodes_wf fs ->
  exists fs', svn_fs__put_node_revision (flat q ++ -1 :: junk) s fs = (Ok tt, fs') /\
    only_node_changed fs fs' q /\ (stored_nid q -> nodes_wf fs') /\
    exists s', svn_fs__get_node_revision (flat q ++ -1 :: junk) fs' = (Ok s', fs') /\ s' ≡ s.
Proof.
  intros Hne Hq Hs Hf Hl Hwf. eexists. split; [by apply put_node_revision_ok|]. split_and!.
  - split; [done|]. intros p Hpn Hp Hd. rewrite put_node_get by done. by rewrite decide_False.
  - intros Hst. by apply put_node_wf.
  - apply get_node_revision_ok; try done. rewrite put_node_get by done. by rewrite decide_True.
Qed.

Lemma successor_comps fs pre n v q :
  stored_nid (pre ++ [(n, v)]) -> successor_id fs pre n v q -> nid_comps q.
Proof.
  intros Hp Hs. pose proof (sn_range _ Hp) as Hr. apply Forall_app in Hr as [Hpre Hnv].
  apply Forall_cons_iff in Hnv as [[Hn Hv] _]. cbn [fst snd] in Hn, Hv.
  assert (nid_comps pre) as Hc by (refine (Forall_impl _ _ Hpre); unfold id_comp; intros x ?; lia).
  destruct Hs as [_|_ _|r b _ _ Hb _ Hb2]; (apply Forall_app; split; [done|]);
    repeat constructor; unfold id_comp; simpl; try lia.
  all: destruct Hb as (x & rest & Hst & _); apply sn_range, Forall_app in Hst as [_ Hst];
    apply Forall_cons_iff in Hst as [[_ ?] _]; simpl in *; lia.
Qed.

(** ** Properties *)

(** A node created in a table of node revision ids gets the id [n.1] for a node
    number [n] above all those in the table; reading it back gives its skel, the
    other records are untouched, and the table keeps its form while [n] is below
    10^8, the limit of the parser of ids. *)
Theorem create_node_correct fs p0 s :
  nodes_wf fs -> has_node fs p0 -> is_valid_node_revision s = true -> skel_fits s ->
  Z.of_nat (length (text s)) < two64 ->
  exists id n fs', svn_fs__create_node s fs = (Ok id, fs') /\ repr id [(n, 1)] /\
    (forall m r p, stored_nid ((m, r) :: p) -> has_node fs ((m, r) :: p) -> m < n) /\
    only_node_changed fs fs' [(n, 1)] /\ (n < 100000000 -> nodes_wf fs') /\
    exists s', svn_fs__get_node_revision id fs' = (Ok s', fs') /\ s' ≡ s.
Proof.
  intros Hwf H0 Hs Hf Hl. destruct (new_node_id_ok fs p0 Hwf H0) as (id & n & E & [junk ->] & Hn & Hfresh).
  destruct (store_new_node fs [(n, 1)] junk s) as (fs' & Ep & Ho & Hw & Hg); try done.
  { repeat constructor; unfold id_comp; simpl; lia. }
  exists (flat [(n, 1)] ++ -1 :: junk), n, fs'. unfold svn_fs__create_node.
  rewrite (state_bind_step _ _ _ _ _ E), (state_bind_step _ _ _ _ _ Ep).
  split_and!; [done|by exists junk|done|done| |done].
  intros Hlt. apply Hw. split; [done| |constructor]. repeat constructor; simpl; lia.
Qed.

(** C27. The successor of a stored node revision gets an id that is not in use: the
    next revision number, or else a branch of the last revision of the node, up to
    the given one, that has branches (of the given one when there is none);
    reading it back gives its skel and the other records are untouched. *)
Theorem create_successor_correct fs pre n v junk s :
  nodes_wf fs -> stored_nid (pre ++ [(n, v)]) -> is_valid_node_revision s = true -> skel_fits s ->
  Z.of_nat (length (text s)) < two64 ->
  exists id q fs',
    svn_fs__create_successor (flat (pre ++ [(n, v)]) ++ -1 :: junk) s fs = (Ok id, fs') /\
    repr id q /\ successor_id fs pre n v q /\ ~ has_node fs q /\
    only_node_changed fs fs' q /\ (stored_nid q -> nodes_wf fs') /\
    exists s', svn_fs__get_node_revision id fs' = (Ok s', fs') /\ s' ≡ s.
Proof.
  intros Hwf Hp Hs Hf Hl.
  destruct (new_successor_ok fs pre n v junk Hwf Hp) as (id & q & E & [j ->] & Hsucc & Hnew).
  destruct (store_new_node fs q j s) as (fs' & Ep & Ho & Hw & Hg); try done.
  { destruct Hsucc; by destruct pre. }
  { by apply (successor_comps fs pre n v). }
  exists (flat q ++ -1 :: j), q, fs'. unfold svn_fs__create_successor.
  rewrite (state_bind_step _ _ _ _ _ E), (state_bind_step _ _ _ _ _ Ep).
  split_and!; try done. by exists j.
Qed.
End storing.

(** ** Witnesses *)

Definition sample_skel_text : bytes := bstr "((dir 1 1) 0 0)".

Definition sample_fs (ps : list nid) : svn_fs_t (db := mem_db) :=
  foldr (λ p fs, set_nodes (db := mem_db) (bt_put (nodes fs) (id_text (flat p)) sample_skel_text) fs)
    (mk_fs (db := mem_db) [] [] [] [] ∅) ps.

Lemma sample_fs_wf ps : Forall stored_nid ps -> nodes_wf (db := mem_db) (sample_fs ps).
Proof.
  induction 1 as [|p ps Hp Hps IH]; [by intros k [? ?]|]. by apply (put_node_wf (db := mem_db)).
Qed.

Lemma stored_small p :
  p <> [] -> forallb (λ x, (1 <=? x.1) && (x.1 <? 100000000) && (1 <=? x.2) && (x.2 <? 100000000)) p = true ->
  stored_nid p.
Proof.
  intros Hne Hp. rewrite forallb_forall in Hp.
  assert (Forall (λ x, 1 <= x.1 < 100000000 /\ 1 <= x.2 < 100000000) p) as Hf.
  { apply List.Forall_forall. intros x Hx. specialize (Hp x Hx). lia. }
  split; [done| |].
  - refine (Forall_impl _ _ Hf). intros x ?. lia.
  - destruct p as [|x p]; [done|]. apply Forall_cons_iff in Hf as [_ Hf].
    refine (Forall_impl _ _ Hf). intros y ?. lia.
Qed.

Definition branchy : list nid := [[(1, 1)]; [(1, 2)]; [(1, 3)]; [(1, 1); (1, 1)]].

Lemma branchy_wf : nodes_wf (db := mem_db) (sample_fs branchy).
Proof. apply sample_fs_wf. unfold branchy. rewrite !Forall_cons_iff. split_and!; [by apply stored_small..|done]. Qed.

(** The id of a successor is not always the id of a child: when node 1 has the
    revisions 1, 2 and 3 and a branch off revision 1, the successor of 1.2 gets the
    id 1.1.2.1, a branch of 1.1. *)
Theorem successor_of_earlier_revision :
  nodes_wf (db := mem_db) (sample_fs branchy) /\
  fst (svn_fs__new_successor_id (db := mem_db) [1; 2; -1] (sample_fs branchy)) = Ok [1; 1; 2; 1; -1] /\
  ~ parent [(1, 2)] [(1, 1); (2, 1)].
Proof.
  split; [apply branchy_wf|]. split; [by vm_compute|]. intros H.
  remember [(1, 2)] as p eqn:Ep. remember [(1, 1); (2, 1)] as c eqn:Ec.
  destruct H as [p n r|p n _ _]; subst.
  - destruct p as [|? [|? ?]]; simplify_eq/=.
  - simplify_eq/=.
Qed.

Definition sample_node_skel : skel := SList [] [SList [] [Atom (bstr "dir"); Atom []]; Atom []; Atom []].

Lemma create_node_correct_witness :
  exists id fs', svn_fs__create_node (db := mem_db) sample_node_skel (sample_fs branchy) = (Ok id, fs') /\
    id = [2; 1; -1; 1; -1] /\ nodes_wf (db := mem_db) fs'.
Proof.
  destruct (create_node_correct (db := mem_db) (sample_fs branchy) [(1, 1)] sample_node_skel)
    as (id & n & fs' & E & Hid & Hfresh & Ho & Hw & Hg).
  - apply branchy_wf.
  - exists sample_skel_text. by vm_compute.
  - by vm_compute.
  - by vm_compute.
  - by vm_compute.
  - exists id, fs'. split; [exact E|]. pose proof (f_equal fst E) as E'. vm_compute in E'. injection E' as Ei.
    split; [symmetry; exact Ei|]. apply Hw. destruct Hid as [j Hj]. rewrite <- Ei in Hj.
    cbv in Hj. injection Hj as Hn _. lia.
Defined.

Lemma create_successor_correct_witness :
  exists id fs', svn_fs__create_successor (db := mem_db) [1; 3; -1] sample_node_skel (sample_fs branchy) =
    (Ok id, fs') /\ id = [1; 4; -1; 0; 0].
Proof.
  destruct (create_successor_correct (db := mem_db) (sample_fs branchy) [] 1 3 [] sample_node_skel)
    as (id & q & fs' & E & _).
  - apply branchy_wf.
  - by apply stored_small.
  - by vm_compute.
  - by vm_compute.
  - by vm_compute.
  - exists id, fs'. split; [exact E|]. apply (f_equal fst) in E. vm_compute in E. by injection E as <-.
Defined.
