(* ===== verification/Stream.v ===== *)
(** * Generic streams ([libsvn_subr/io.c], [include/svn_io.h])

    A stream is a record of callbacks over a baton.  The callbacks themselves
    belong to whoever created the stream; the obligations [svn_io.h] puts on
    them ("complete a read or write to the maximum extent possible") are the
    classes [ReadableStream] and [WritableStream], against which the delta code
    is verified. *)

From S2P Require Import Prelude.

(** ** [svn_stream_t] *)

(** The handlers over a baton of type [B]: a read handler is given the length
    wanted and returns the bytes read, a write handler the bytes to write. *)
Record stream_fns (B : Type) := mk_fns {
  read_fn : option (B -> nat -> outcome bytes * B);
  write_fn : option (B -> bytes -> outcome unit * B);
  close_fn : option (B -> outcome unit * B);
}.
Arguments mk_fns {B}.
Arguments read_fn {B}.
Arguments write_fn {B}.
Arguments close_fn {B}.

Record svn_stream_t (B : Type) := mk_stream { baton : B; fns : stream_fns B }.
Arguments mk_stream {B}.
Arguments baton {B}.
Arguments fns {B}.

Definition svn_stream_create {B} (b : B) : svn_stream_t B :=
  mk_stream b (mk_fns None None None).

Definition svn_stream_set_read {B} (s : svn_stream_t B) f : svn_stream_t B :=
  mk_stream (baton s) (mk_fns (Some f) (write_fn (fns s)) (close_fn (fns s))).

Definition svn_stream_set_write {B} (s : svn_stream_t B) f : svn_stream_t B :=
  mk_stream (baton s) (mk_fns (read_fn (fns s)) (Some f) (close_fn (fns s))).

Definition svn_stream_set_close {B} (s : svn_stream_t B) f : svn_stream_t B :=
  mk_stream (baton s) (mk_fns (read_fn (fns s)) (write_fn (fns s)) (Some f)).

Definition svn_stream_read {B} (s : svn_stream_t B) (len : nat) :
    outcome bytes * svn_stream_t B :=
  match read_fn (fns s) with
  | None => (Abort, s)
  | Some f => let '(r, b) := f (baton s) len in (r, mk_stream b (fns s))
  end.

Definition svn_stream_write {B} (s : svn_stream_t B) (data : bytes) :
    outcome unit * svn_stream_t B :=
  match write_fn (fns s) with
  | None => (Abort, s)
  | Some f => let '(r, b) := f (baton s) data in (r, mk_stream b (fns s))
  end.

Definition svn_stream_close {B} (s : svn_stream_t B) : outcome unit * svn_stream_t B :=
  match close_fn (fns s) with
  | None => (Ok tt, s)
  | Some f => let '(r, b) := f (baton s) in (r, mk_stream b (fns s))
  end.

(** Writing one piece after the other, and closing the stream. *)
Fixpoint write_all {B} (s : svn_stream_t B) (chunks : list bytes) : outcome unit * svn_stream_t B :=
  match chunks with
  | [] => (Ok tt, s)
  | d :: chunks =>
      let '(r, s) := svn_stream_write s d in
      match r with Ok _ => write_all s chunks | _ => (r, s) end
  end.

Definition write_and_close {B} (s : svn_stream_t B) (chunks : list bytes) : outcome unit * svn_stream_t B :=
  let '(r, s) := write_all s chunks in
  match r with Ok _ => svn_stream_close s | _ => (r, s) end.

(** The empty stream. *)
Definition read_handler_empty (b : unit) (len : nat) : outcome bytes * unit := (Ok [], b).

Definition svn_stream_empty : svn_stream_t unit :=
  svn_stream_set_read (svn_stream_create tt) read_handler_empty.

(** ** The obligations of the handlers *)

(** A stream that has some data left to deliver: a read returns as much as was
    asked for, short only at the end of the data. *)
Class ReadableStream {B} (f : stream_fns B) := {
  stream_delivers : B -> bytes -> Prop;
  stream_read_ok : forall b l n, stream_delivers b l -> Z.of_nat n < two63 -> exists b',
    svn_stream_read (mk_stream b f) n = (Ok (take n l), mk_stream b' f) /\
    stream_delivers b' (drop n l);
}.

(** A stream that accepts everything, [stream_written] being what it got; its
    close handler reports no error. *)
Class WritableStream {B} (f : stream_fns B) := {
  stream_written : B -> bytes;
  stream_write_ok : forall b d, exists b',
    svn_stream_write (mk_stream b f) d = (Ok tt, mk_stream b' f) /\
    stream_written b' = stream_written b ++ d;
  stream_close_ok : forall b, exists b',
    svn_stream_close (mk_stream b f) = (Ok tt, mk_stream b' f) /\
    stream_written b' = stream_written b;
}.

#[export] Program Instance empty_readable : ReadableStream (fns svn_stream_empty) :=
  {| stream_delivers _ l := l = [] |}.
Next Obligation. intros [] l n -> _. exists tt. simpl. by rewrite take_nil, drop_nil. Qed.

(** Streams over a byte string in memory, used to instantiate the classes. *)
Definition mem_reader : stream_fns bytes :=
  mk_fns (Some (λ b n, (Ok (take n b), drop n b))) None None.

Definition mem_writer : stream_fns bytes :=
  mk_fns None (Some (λ b d, (Ok tt, b ++ d))) None.

#[export] Program Instance mem_readable : ReadableStream mem_reader :=
  {| stream_delivers b l := b = l |}.
Next Obligation. intros b l n -> _. by exists (drop n l). Qed.

#[export] Program Instance mem_writable : WritableStream mem_writer :=
  {| stream_written b := b |}.
Next Obligation. intros b d. by exists (b ++ d). Qed.
Next Obligation. intros b. by exists b. Qed.
