(* ===== verification/Strings.v ===== *)
(** * The [strings] table ([libsvn_fs/strings-table.c])

    A string is kept in the records of its key, in order; the record of
    ["next-key"] is the key of the next string.  The operations are proved to
    implement a store of byte strings. *)

From S2P Require Import Prelude KeyGen Db NodeKeys Fs.

Section strings.
Context `{db : BerkeleyDB}.

(** The records of a key; [locate_key] gives the length of the first one. *)
Definition locate_key (key : bytes) : trail (bytes * list bytes) :=
  records ← reading (λ fs, dt_get (strings fs) (str_to_dbt key));
  match records with
  | [] => fail SVN_ERR_FS_NO_SUCH_STRING
  | r :: rs => mret (r, rs)
  end.

(** The loop of [string_read]: the record that includes the offset. *)
Fixpoint seek_record (r : bytes) (rs : list bytes) (offset len : nat) : bytes :=
  if (length r <=? offset)%nat then
    match rs with
    | [] => []
    | r' :: rs => seek_record r' rs (offset - length r) len
    end
  else take len (drop offset r).

(** [result.ulen] and [result.dlen] are the 32-bit fields of a [DBT], which cut a
    length of 4 GB or more: the definition is the code for [len] below [2 ^ 32]. *)
Definition string_read (key : bytes) (offset len : nat) : trail bytes :=
  '(r, rs) ← locate_key key;
  mret (seek_record r rs offset len).

(** The loop of [svn_fs__string_read]; [buf] is what has been read. *)
Fixpoint string_read_loop (fuel : nat) (key : bytes) (offset len : nat) (buf : bytes) : trail bytes :=
  match fuel with
  | O => lift Undef
  | S fuel =>
      data ← string_read key (offset + length buf) (len - length buf);
      let buf := buf ++ data in
      if (length data =? 0)%nat || (length buf =? len)%nat then mret buf
      else string_read_loop fuel key offset len buf
  end.

Definition svn_fs__string_read (key : bytes) (offset len : nat) : trail bytes :=
  string_read_loop (S len) key offset len [].

(** The new key in a buffer of 200 characters, which is not initialised when
    [svn_fs__next_key] rejects the old one. *)
Definition bump_key (key : bytes) : outcome bytes :=
  if (length key + 2 <=? 200)%nat then
    match svn_fs__next_key key with Some next => Ok next | None => Undef end
  else Undef.

Definition get_key_and_bump : trail bytes :=
  records ← reading (λ fs, dt_get (strings fs) (str_to_dbt svn_fs__next_key_key));
  match records with
  | [] => fail (SVN_ERR_BERKELEY_DB DB_NOTFOUND)
  | key :: _ =>
      next_key ← lift (bump_key key);
      writing (λ fs, set_strings (dt_set_first (strings fs) (str_to_dbt svn_fs__next_key_key)
                                    (str_to_dbt next_key)) fs);;
      mret key
  end.

(** The key afterwards; [None] is a null key.  [svn_fs__set_dbt] takes the size of
    the record as a [u_int32_t]: the definition is the code for a [buf] of less
    than [2 ^ 32] bytes. *)
Definition svn_fs__string_append (key : option bytes) (buf : bytes) : trail bytes :=
  key ← match key with None => get_key_and_bump | Some key => mret key end;
  writing (λ fs, set_strings (dt_put (strings fs) (str_to_dbt key) buf) fs);;
  mret key.

Definition svn_fs__string_clear (key : bytes) : trail unit :=
  t ← reading (λ fs, dt_del (strings fs) (str_to_dbt key));
  match t with
  | None => fail SVN_ERR_FS_NO_SUCH_STRING
  | Some t => writing (set_strings (dt_put t (str_to_dbt key) []))
  end.

Definition svn_fs__string_size (key : bytes) : trail nat :=
  '(r, rs) ← locate_key key;
  mret (foldl (λ total l, (total + length l)%nat) (length r) rs).

Definition svn_fs__string_delete (key : bytes) : trail unit :=
  t ← reading (λ fs, dt_del (strings fs) (str_to_dbt key));
  match t with
  | None => fail SVN_ERR_FS_NO_SUCH_STRING
  | Some t => writing (set_strings t)
  end.

(** The cursor walks the records of the old key while they are put under the new
    one; were the keys the same it would not end. *)
Definition svn_fs__string_copy (key : bytes) : trail bytes :=
  new_key ← get_key_and_bump;
  records ← reading (λ fs, dt_get (strings fs) (str_to_dbt key));
  match records with
  | [] => fail (SVN_ERR_BERKELEY_DB DB_NOTFOUND)
  | _ =>
      if decide (str_to_dbt new_key = str_to_dbt key) then lift Undef
      else
        writing (λ fs, set_strings (foldl (λ t r, dt_put t (str_to_dbt new_key) r) (strings fs) records) fs);;
        mret new_key
  end.

(** ** The store *)

(** The string of a key. *)
Definition string_of (fs : svn_fs_t) (key : bytes) : option bytes :=
  match dt_get (strings fs) key with [] => None | l => Some (mjoin l) end.

(** The abstract state: a map from keys to strings, and the next key. *)
Definition store : Type := gmap bytes bytes * bytes.

Definition bump (next : bytes) : bytes := default next (svn_fs__next_key next).

(** The table holds the store.  The keys in use are below the next one, which
    fits in the buffer for its successor. *)
Record stored (fs : svn_fs_t) (st : store) : Prop := {
  st_next : dt_get (strings fs) svn_fs__next_key_key = [st.2];
  st_valid : valid_key st.2;
  st_short : (length st.2 <= 198)%nat;
  st_used key : valid_key key -> is_Some (string_of fs key) -> (key_val key < key_val st.2)%Z;
  st_strings key : valid_key key -> string_of fs key = st.1 !! key;
}.

(** The rest of the filesystem is the same. *)
Definition only_strings (fs fs' : svn_fs_t) : Prop :=
  node_tables fs' = node_tables fs /\ representations fs' = representations fs.

(** The string of one key is changed. *)
Definition string_changed (fs fs' : svn_fs_t) (key : bytes) (s : option bytes) : Prop :=
  only_strings fs fs' /\ string_of fs' key = s /\
  forall k, k <> key -> dt_get (strings fs') k = dt_get (strings fs) k.

Lemma valid_key_nul k : valid_key k -> Forall (λ c, c <> NUL) k.
Proof.
  intros (_ & Hk & _). refine (Forall_impl _ _ Hk). intros c Hc ->. by vm_compute in Hc.
Qed.

Lemma str_to_dbt_valid k : valid_key k -> str_to_dbt k = k.
Proof. intros H. unfold str_to_dbt. by rewrite strlen_ok, firstn_all by (by apply valid_key_nul). Qed.

Lemma next_key_not_valid k : valid_key k -> k <> svn_fs__next_key_key.
Proof.
  intros (_ & Hk & _) ->. by apply (Forall_lookup_1 _ _ 4 (zb 45)) in Hk.
Qed.

Lemma bump_valid k :
  valid_key k ->
  svn_fs__next_key k = Some (bump k) /\ valid_key (bump k) /\ key_val (bump k) = key_val k + 1 /\
  (length (bump k) <= S (length k))%nat.
Proof.
  intros Hk. destruct (next_key_valid k Hk) as (k' & E & H1 & H2 & H3). unfold bump. rewrite E.
  split_and!; [done..|]. change (length k' <= S (length k))%nat. lia.
Qed.

(** The next key is not in use. *)
Lemma stored_fresh fs st : stored fs st -> st.1 !! st.2 = None.
Proof.
  intros Hst. pose proof (st_valid _ _ Hst) as Hv. rewrite <- (st_strings _ _ Hst) by done.
  destruct (string_of fs st.2) eqn:E; [|done].
  pose proof (st_used _ _ Hst st.2 Hv ltac:(by rewrite E)). lia.
Qed.

Lemma stored_used fs st key s : stored fs st -> valid_key key -> st.1 !! key = Some s -> key_val key < key_val st.2.
Proof. intros Hst Hv E. apply (st_used _ _ Hst); [done|]. by rewrite (st_strings _ _ Hst), E. Qed.

(** ** Reading *)

Lemma locate_key_ok fs key s :
  string_of fs (str_to_dbt key) = Some s ->
  exists r rs, locate_key key fs = (Ok (r, rs), fs) /\ s = r ++ mjoin rs.
Proof.
  unfold string_of, locate_key. rewrite reading_bind.
  destruct (dt_get (strings fs) (str_to_dbt key)) as [|r rs]; [done|]. intros [= <-]. by exists r, rs.
Qed.

Lemma locate_key_none fs key :
  string_of fs (str_to_dbt key) = None -> locate_key key fs = (Err SVN_ERR_FS_NO_SUCH_STRING, fs).
Proof.
  unfold string_of, locate_key. rewrite reading_bind. by destruct (dt_get (strings fs) (str_to_dbt key)).
Qed.

(** A read returns a prefix of what was asked for, empty only at the end. *)
Lemma seek_record_ok rs r offset len :
  exists rest, take len (drop offset (r ++ mjoin rs)) = seek_record r rs offset len ++ rest /\
    (seek_record r rs offset len = [] -> rest = []).
Proof.
  revert r offset. induction rs as [|r' rs IH]; intros r offset; cbn [seek_record mjoin list_join].
  - rewrite app_nil_r. destruct (Nat.leb_spec (length r) offset).
    + exists []. by rewrite drop_ge, take_nil by lia.
    + exists []. by rewrite app_nil_r.
  - destruct (Nat.leb_spec (length r) offset).
    + rewrite drop_app_ge by lia. apply IH.
    + rewrite drop_app_le, take_app by lia. eexists. split; [done|]. intros E.
      destruct len as [|len]; [done|].
      apply (f_equal length) in E. rewrite length_take, length_drop in E. cbn [length] in E. lia.
Qed.

Lemma string_read_loop_ok fs key s offset len fuel buf :
  string_of fs (str_to_dbt key) = Some s ->
  (length buf <= len)%nat -> (len - length buf < fuel)%nat ->
  buf = take (length buf) (drop offset s) ->
  string_read_loop fuel key offset len buf fs = (Ok (take len (drop offset s)), fs).
Proof.
  intros Hs. destruct (locate_key_ok fs key s Hs) as (r & rs & El & Es).
  revert buf. induction fuel as [|fuel IH]; intros buf Hb Hf Hbuf; [lia|].
  cbn [string_read_loop]. unfold string_read. unfold mbind at 1, state_bind at 1.
  rewrite (state_bind_step _ _ _ _ _ El). cbn [mret state_ret].
  destruct (seek_record_ok rs r (offset + length buf) (len - length buf)) as (rest & Hd & Hnil).
  set (d := seek_record r rs (offset + length buf) (len - length buf)) in *.
  rewrite <- Es, <- drop_drop in Hd.
  assert (take len (drop offset s) = buf ++ d ++ rest) as Hall.
  { rewrite <- Hd, Hbuf at 1. rewrite <- (take_drop (length buf) (drop offset s)) at 1. rewrite <- Hbuf at 1.
    rewrite take_app_ge by done. by rewrite <- Hbuf. }
  assert (length d <= len - length buf)%nat as Hdl.
  { apply (f_equal length) in Hd. rewrite length_take, length_app in Hd. lia. }
  destruct (Nat.eqb_spec (length d) 0) as [E|E]; cbn [orb].
  - apply nil_length_inv in E. rewrite Hall, E, (Hnil E). by rewrite !app_nil_r.
  - destruct (Nat.eqb_spec (length (buf ++ d)) len) as [E'|E'].
    + assert (rest = []) as ->; [|by rewrite Hall, app_nil_r].
      apply (f_equal length) in Hall. rewrite length_take, !length_app in Hall. rewrite length_app in E'.
      apply nil_length_inv. lia.
    + rewrite length_app in E'. apply IH; rewrite ?length_app; [lia|lia|].
      rewrite app_assoc in Hall. apply (f_equal (take (length (buf ++ d)))) in Hall.
      rewrite take_app_length, take_take in Hall. rewrite length_app in Hall.
      rewrite <- Hall at 1. f_equal. lia.
Qed.

(** [svn_fs__string_read] returns the bytes asked for, fewer at the end. *)
Lemma string_read_ok fs key s offset len :
  string_of fs (str_to_dbt key) = Some s ->
  svn_fs__string_read key offset len fs = (Ok (take len (drop offset s)), fs).
Proof. intros Hs. apply string_read_loop_ok; [done|simpl; lia|simpl; lia|done]. Qed.

Lemma sum_lengths (rs : list bytes) n :
  foldl (λ total l, (total + length l)%nat) n rs = (n + length (mjoin rs))%nat.
Proof.
  revert n. induction rs as [|r rs IH]; intros n; [simpl; lia|].
  rewrite join_cons, length_app. cbn [foldl]. rewrite IH. lia.
Qed.

Lemma string_size_ok fs key s :
  string_of fs (str_to_dbt key) = Some s -> svn_fs__string_size key fs = (Ok (length s), fs).
Proof.
  intros Hs. destruct (locate_key_ok fs key s Hs) as (r & rs & El & ->).
  unfold svn_fs__string_size. rewrite (state_bind_step _ _ _ _ _ El). cbn [mret state_ret].
  by rewrite sum_lengths, length_app.
Qed.

(** ** Writing *)

Lemma stored_changed fs fs' st key s :
  stored fs st -> string_changed fs fs' key s -> valid_key key -> (key_val key < key_val st.2) ->
  stored fs' (partial_alter (λ _, s) key st.1, st.2).
Proof.
  intros Hst (_ & Hs & Hsame) Hk Hlt.
  assert (forall k, k <> key -> string_of fs' k = string_of fs k) as Hsame'.
  { intros k Hne. unfold string_of. by rewrite Hsame. }
  split; cbn [fst snd].
  - rewrite Hsame; [apply Hst|]. intros E. by apply (next_key_not_valid key).
  - apply Hst.
  - apply Hst.
  - intros k Hv H. destruct (decide (k = key)) as [->|Hne]; [done|].
    rewrite Hsame' in H by done. by apply (st_used _ _ Hst).
  - intros k Hv. destruct (decide (k = key)) as [->|Hne]; [by rewrite lookup_partial_alter_eq|].
    rewrite lookup_partial_alter_ne, Hsame' by done. by apply (st_strings _ _ Hst).
Qed.

Lemma bump_key_ok k : valid_key k -> (length k <= 198)%nat -> bump_key k = Ok (bump k).
Proof.
  intros Hk Hl. destruct (bump_valid k Hk) as [E _]. unfold bump_key.
  rewrite (proj2 (Nat.leb_le _ _)) by lia. by rewrite E.
Qed.

Lemma get_key_and_bump_ok fs st :
  stored fs st -> (length st.2 < 198)%nat ->
  exists fs', get_key_and_bump fs = (Ok st.2, fs') /\ only_strings fs fs' /\ stored fs' (st.1, bump st.2).
Proof.
  intros Hst Hl. pose proof (st_valid _ _ Hst) as Hv. destruct (bump_valid _ Hv) as (_ & Hv' & Hval & Hlen).
  unfold get_key_and_bump. change (str_to_dbt svn_fs__next_key_key) with svn_fs__next_key_key.
  rewrite reading_bind, (st_next _ _ Hst), bump_key_ok, lift_bind, writing_bind by (done || lia).
  rewrite (str_to_dbt_valid (bump _)) by done. eexists. split; [done|]. split; [done|].
  set (fs' := set_strings _ fs).
  assert (forall k, valid_key k -> string_of fs' k = string_of fs k) as Hsame.
  { intros k Hk. unfold string_of, fs'. cbn [strings set_strings]. rewrite dt_get_set_first.
    rewrite decide_False; [done|]. intros E. by apply (next_key_not_valid k). }
  split; cbn [fst snd]; [|done|lia| |].
  - unfold fs'. cbn [strings set_strings]. by rewrite dt_get_set_first, decide_True, (st_next _ _ Hst).
  - intros k Hk H. rewrite Hsame in H by done. pose proof (st_used _ _ Hst k Hk H). lia.
  - intros k Hk. rewrite Hsame by done. by apply (st_strings _ _ Hst).
Qed.

Lemma string_of_put fs key v k :
  string_of (set_strings (dt_put (strings fs) key v) fs) k =
  if decide (key = k) then Some (default [] (string_of fs k) ++ v) else string_of fs k.
Proof.
  unfold string_of. cbn [strings set_strings]. rewrite dt_get_put. case_decide; [|done].
  assert (mjoin (dt_get (strings fs) k ++ [v]) = mjoin (dt_get (strings fs) k) ++ v) as E.
  { rewrite join_app, join_cons. by rewrite app_nil_r. }
  destruct (dt_get (strings fs) k) as [|r l]; cbn [app] in *; by rewrite E.
Qed.

Lemma put_changed fs key v :
  string_changed fs (set_strings (dt_put (strings fs) key v) fs) key (Some (default [] (string_of fs key) ++ v)).
Proof.
  split_and!; [done| |].
  - by rewrite string_of_put, decide_True.
  - intros k Hne. cbn [strings set_strings]. by rewrite dt_get_put, decide_False.
Qed.

Lemma string_append_ok fs key buf :
  exists fs', svn_fs__string_append (Some key) buf fs = (Ok key, fs') /\
    string_changed fs fs' (str_to_dbt key) (Some (default [] (string_of fs (str_to_dbt key)) ++ buf)).
Proof. eexists. split; [done|]. apply put_changed. Qed.

(** A change of the string of the key that has just been made. *)
Lemma stored_new fs fs1 fs2 st s :
  stored fs st -> only_strings fs fs1 -> stored fs1 (st.1, bump st.2) -> string_changed fs1 fs2 st.2 (Some s) ->
  only_strings fs fs2 /\ stored fs2 (<[st.2 := s]> st.1, bump st.2).
Proof.
  intros Hst [Hn Hr] H1 Hc. split.
  { destruct Hc as [[Hn' Hr'] _]. split; congruence. }
  destruct (bump_valid _ (st_valid _ _ Hst)) as (_ & _ & Hval & _).
  apply (stored_changed _ _ _ _ _ H1 Hc); [apply Hst|]. cbn [snd]. lia.
Qed.

(** A new string gets a key that was not in use. *)
Lemma string_new_ok fs st buf :
  stored fs st -> (length st.2 < 198)%nat ->
  exists fs', svn_fs__string_append None buf fs = (Ok st.2, fs') /\
    only_strings fs fs' /\ stored fs' (<[st.2 := buf]> st.1, bump st.2).
Proof.
  intros Hst Hl. destruct (get_key_and_bump_ok fs st Hst Hl) as (fs1 & E & Ho & H1).
  pose proof (st_valid _ _ Hst) as Hv.
  unfold svn_fs__string_append. rewrite (state_bind_step _ _ _ _ _ E), writing_bind, str_to_dbt_valid by done.
  eexists. split; [done|]. apply (stored_new fs fs1); [done..|].
  pose proof (put_changed fs1 st.2 buf) as H. pose proof (st_strings _ _ H1 _ Hv) as E1.
  cbn [fst] in E1. by rewrite E1, (stored_fresh _ _ Hst) in H.
Qed.

Lemma string_exists fs key s : string_of fs key = Some s -> exists t, dt_del (strings fs) key = Some t.
Proof.
  unfold string_of. intros H. destruct (dt_del (strings fs) key) eqn:E; [by eexists|].
  apply dt_del_none in E. by rewrite E in H.
Qed.

Lemma string_missing fs key : string_of fs key = None -> dt_del (strings fs) key = None.
Proof. unfold string_of. intros H. apply dt_del_none. by destruct (dt_get (strings fs) key). Qed.

Lemma del_changed fs key t :
  dt_del (strings fs) key = Some t -> string_changed fs (set_strings t fs) key None.
Proof.
  intros E. split_and!; [done| |]; cbn [strings set_strings].
  - unfold string_of. cbn [strings set_strings]. by rewrite (dt_get_del _ _ _ _ E), decide_True.
  - intros k Hne. by rewrite (dt_get_del _ _ _ _ E), decide_False.
Qed.

Lemma string_clear_ok fs key s :
  string_of fs (str_to_dbt key) = Some s ->
  exists fs', svn_fs__string_clear key fs = (Ok tt, fs') /\ string_changed fs fs' (str_to_dbt key) (Some []).
Proof.
  intros Hs. destruct (string_exists _ _ _ Hs) as [t Et].
  unfold svn_fs__string_clear. rewrite reading_bind, Et. eexists. split; [done|].
  destruct (del_changed _ _ _ Et) as (_ & Hd & Hsame).
  destruct (put_changed (set_strings t fs) (str_to_dbt key) []) as (_ & Hp & Hsame').
  split_and!; [done|by rewrite Hd in Hp|]. intros k Hne. rewrite <- Hsame by done. by apply Hsame'.
Qed.

Lemma string_clear_none fs key :
  string_of fs (str_to_dbt key) = None -> svn_fs__string_clear key fs = (Err SVN_ERR_FS_NO_SUCH_STRING, fs).
Proof. intros H. unfold svn_fs__string_clear. by rewrite reading_bind, string_missing. Qed.

Lemma string_delete_ok fs key s :
  string_of fs (str_to_dbt key) = Some s ->
  exists fs', svn_fs__string_delete key fs = (Ok tt, fs') /\ string_changed fs fs' (str_to_dbt key) None.
Proof.
  intros Hs. destruct (string_exists _ _ _ Hs) as [t Et].
  unfold svn_fs__string_delete. rewrite reading_bind, Et. eexists. split; [done|]. by apply del_changed.
Qed.

Lemma string_delete_none fs key :
  string_of fs (str_to_dbt key) = None -> svn_fs__string_delete key fs = (Err SVN_ERR_FS_NO_SUCH_STRING, fs).
Proof. intros H. unfold svn_fs__string_delete. by rewrite reading_bind, string_missing. Qed.

Lemma put_records t key l k :
  dt_get (foldl (λ t r, dt_put t key r) t l) k = if decide (key = k) then dt_get t k ++ l else dt_get t k.
Proof.
  revert t. induction l as [|r l IH]; intros t; cbn [foldl].
  - case_decide; [by rewrite app_nil_r|done].
  - rewrite IH, dt_get_put. case_decide; [by rewrite <- app_assoc|done].
Qed.

Lemma string_copy_ok fs st key s :
  stored fs st -> (length st.2 < 198)%nat -> valid_key key -> st.1 !! key = Some s ->
  exists fs', svn_fs__string_copy key fs = (Ok st.2, fs') /\
    only_strings fs fs' /\ stored fs' (<[st.2 := s]> st.1, bump st.2).
Proof.
  intros Hst Hl Hk Es. destruct (get_key_and_bump_ok fs st Hst Hl) as (fs1 & E & Ho & H1).
  pose proof (st_valid _ _ Hst) as Hv. pose proof (stored_used _ _ _ _ Hst Hk Es) as Hlt.
  assert (st.2 <> key) as Hne by (intros <-; lia).
  unfold svn_fs__string_copy. rewrite (state_bind_step _ _ _ _ _ E), reading_bind, !str_to_dbt_valid by done.
  pose proof (st_strings _ _ H1 key Hk) as E1. cbn [fst] in E1. rewrite Es in E1. unfold string_of in E1.
  pose proof (st_strings _ _ H1 _ Hv) as E0. cbn [fst] in E0. rewrite (stored_fresh _ _ Hst) in E0.
  destruct (dt_get (strings fs1) key) as [|r l]; [done|]. injection E1 as <-.
  rewrite decide_False, writing_bind by done. eexists. split; [done|].
  apply (stored_new fs fs1); [done..|]. split_and!; [done| |].
  - unfold string_of in *. cbn [strings set_strings]. rewrite put_records, decide_True by done.
    by destruct (dt_get (strings fs1) st.2).
  - intros k Hk'. cbn [strings set_strings]. by rewrite put_records, decide_False.
Qed.

Lemma string_copy_none fs st key :
  stored fs st -> (length st.2 < 198)%nat -> valid_key key -> st.1 !! key = None ->
  exists fs', svn_fs__string_copy key fs = (Err (SVN_ERR_BERKELEY_DB DB_NOTFOUND), fs') /\
    only_strings fs fs' /\ stored fs' (st.1, bump st.2).
Proof.
  intros Hst Hl Hk Es. destruct (get_key_and_bump_ok fs st Hst Hl) as (fs1 & E & Ho & H1).
  unfold svn_fs__string_copy. rewrite (state_bind_step _ _ _ _ _ E), reading_bind, !str_to_dbt_valid by done.
  pose proof (st_strings _ _ H1 key Hk) as E1. cbn [fst] in E1. rewrite Es in E1. unfold string_of in E1.
  destruct (dt_get (strings fs1) key) as [|r l]; [|done]. by exists fs1.
Qed.
End strings.

Section refinement.
Context `{db : BerkeleyDB}.

(** ** The promise: a store of byte strings

    Sequences of operations. *)

Inductive string_op :=
| OpNew (buf : bytes)
| OpAppend (key buf : bytes)
| OpClear (key : bytes)
| OpDelete (key : bytes)
| OpCopy (key : bytes)
| OpSize (key : bytes)
| OpRead (key : bytes) (offset len : nat).

Inductive string_result := RKey (key : bytes) | RUnit | RSize (n : nat) | RBytes (s : bytes).

Definition run_op (op : string_op) : trail string_result :=
  match op with
  | OpNew buf => k ← svn_fs__string_append None buf; mret (RKey k)
  | OpAppend key buf => k ← svn_fs__string_append (Some key) buf; mret (RKey k)
  | OpClear key => svn_fs__string_clear key;; mret RUnit
  | OpDelete key => svn_fs__string_delete key;; mret RUnit
  | OpCopy key => k ← svn_fs__string_copy key; mret (RKey k)
  | OpSize key => n ← svn_fs__string_size key; mret (RSize n)
  | OpRead key offset len => s ← svn_fs__string_read key offset len; mret (RBytes s)
  end.

Definition op_key (op : string_op) : option bytes :=
  match op with
  | OpNew _ => None
  | OpAppend key _ | OpClear key | OpDelete key | OpCopy key | OpSize key | OpRead key _ _ => Some key
  end.

Definition no_such_string (op : string_op) (st : store) : outcome string_result * store :=
  match op with
  | OpCopy _ => (Err (SVN_ERR_BERKELEY_DB DB_NOTFOUND), (st.1, bump st.2))
  | _ => (Err SVN_ERR_FS_NO_SUCH_STRING, st)
  end.

(** Appending to a key that is not in use makes a string, as for a null key. *)
Definition spec_op (op : string_op) (st : store) : outcome string_result * store :=
  let '(σ, next) := st in
  match op with
  | OpNew buf => (Ok (RKey next), (<[next := buf]> σ, bump next))
  | OpAppend key buf => (Ok (RKey key), (<[key := default [] (σ !! key) ++ buf]> σ, next))
  | OpClear key =>
      match σ !! key with Some _ => (Ok RUnit, (<[key := []]> σ, next)) | None => no_such_string op st end
  | OpDelete key =>
      match σ !! key with Some _ => (Ok RUnit, (delete key σ, next)) | None => no_such_string op st end
  | OpCopy key =>
      match σ !! key with
      | Some s => (Ok (RKey next), (<[next := s]> σ, bump next))
      | None => no_such_string op st
      end
  | OpSize key =>
      match σ !! key with Some s => (Ok (RSize (length s)), st) | None => no_such_string op st end
  | OpRead key offset len =>
      match σ !! key with
      | Some s => (Ok (RBytes (take len (drop offset s))), st)
      | None => no_such_string op st
      end
  end.

(** The bytes that an operation gives to the database or asks it for. *)
Definition op_size (op : string_op) : nat :=
  match op with
  | OpNew buf | OpAppend _ buf => length buf
  | OpRead _ _ len => len
  | OpClear _ | OpDelete _ | OpCopy _ | OpSize _ => 0
  end.

(** Keys given to the operations are keys that they returned; sizes are sizes of a
    [DBT], which has 32 bits for them. *)
Definition op_ok (op : string_op) (st : store) : Prop :=
  match op_key op with Some key => valid_key key /\ key_val key < key_val st.2 | None => True end /\
  (Z.of_nat (op_size op) < 2 ^ 32)%Z.

(** Two operations take a new key. *)
Definition takes_key (op : string_op) : bool :=
  match op with OpNew _ | OpCopy _ => true | _ => false end.

Definition new_keys (ops : list string_op) : nat := length (List.filter takes_key ops).

(** A sequence of operations, each after the state that the one before left. *)
Fixpoint run_ops (ops : list string_op) (fs : svn_fs_t) : list (outcome string_result) * svn_fs_t :=
  match ops with
  | [] => ([], fs)
  | op :: ops =>
      let '(r, fs) := run_op op fs in let '(rs, fs) := run_ops ops fs in (r :: rs, fs)
  end.

Fixpoint spec_ops (ops : list string_op) (st : store) : list (outcome string_result) * store :=
  match ops with
  | [] => ([], st)
  | op :: ops =>
      let '(r, st) := spec_op op st in let '(rs, st) := spec_ops ops st in (r :: rs, st)
  end.

Fixpoint ops_ok (ops : list string_op) (st : store) : Prop :=
  match ops with [] => True | op :: ops => op_ok op st /\ ops_ok ops (spec_op op st).2 end.

Lemma bind_ret {A B} (m : trail A) (f : A -> B) fs :
  (a ← m; mret (f a)) fs =
  (match (m fs).1 with Ok a => Ok (f a) | Err e => Err e | Abort => Abort | Undef => Undef end, (m fs).2).
Proof. unfold mbind, state_bind, mret, state_ret. by destruct (m fs) as [[] ?]. Qed.

(** One operation. *)
Lemma run_op_ok op fs st :
  stored fs st -> (length st.2 < 198)%nat -> op_ok op st ->
  exists fs', run_op op fs = ((spec_op op st).1, fs') /\ only_strings fs fs' /\ stored fs' (spec_op op st).2.
Proof.
  intros Hst Hl [Hop _]. destruct st as [σ next]. cbn [snd] in *.
  assert (forall key, op_key op = Some key ->
    str_to_dbt key = key /\ string_of fs key = σ !! key) as Hkey.
  { intros key Ek. rewrite Ek in Hop. destruct Hop as [Hk _]. split; [by apply str_to_dbt_valid|].
    by apply (st_strings _ _ Hst). }
  assert (forall key fs' s, op_key op = Some key -> string_changed fs fs' (str_to_dbt key) s ->
    only_strings fs fs' /\ stored fs' (partial_alter (λ _, s) key σ, next)) as Hchg.
  { intros key fs' s Ek Hc. rewrite (proj1 (Hkey key Ek)) in Hc. rewrite Ek in Hop. destruct Hop as [Hk Hlt].
    split; [apply Hc|]. by apply (stored_changed fs fs' (σ, next)). }
  destruct op as [buf|key buf|key|key|key|key|key offset len]; cbn [run_op spec_op op_key] in *;
    try (destruct (Hkey key eq_refl) as [Ed Es]); rewrite bind_ret.
  - destruct (string_new_ok fs (σ, next) buf Hst Hl) as (fs' & E & H). rewrite E. by exists fs'.
  - destruct (string_append_ok fs key buf) as (fs' & E & H). rewrite E. exists fs'. split; [done|].
    apply Hchg in H; [|done]. by rewrite Ed, Es in H.
  - destruct (σ !! key) as [s|] eqn:E0.
    + destruct (string_clear_ok fs key s) as (fs' & E & H); [by rewrite Ed|]. rewrite E. exists fs'.
      split; [done|]. by apply Hchg in H.
    + rewrite string_clear_none by (by rewrite Ed). by exists fs.
  - destruct (σ !! key) as [s|] eqn:E0.
    + destruct (string_delete_ok fs key s) as (fs' & E & H); [by rewrite Ed|]. rewrite E. exists fs'.
      split; [done|]. by apply Hchg in H.
    + rewrite string_delete_none by (by rewrite Ed). by exists fs.
  - destruct Hop as [Hk _]. destruct (σ !! key) as [s|] eqn:E0.
    + destruct (string_copy_ok fs (σ, next) key s Hst Hl Hk E0) as (fs' & E & H). rewrite E. by exists fs'.
    + destruct (string_copy_none fs (σ, next) key Hst Hl Hk E0) as (fs' & E & H). rewrite E. by exists fs'.
  - destruct (σ !! key) as [s|] eqn:E0.
    + rewrite (string_size_ok fs key s) by (by rewrite Ed). by exists fs.
    + unfold svn_fs__string_size, mbind, state_bind. rewrite locate_key_none by (by rewrite Ed). by exists fs.
  - destruct (σ !! key) as [s|] eqn:E0.
    + rewrite (string_read_ok fs key s) by (by rewrite Ed). by exists fs.
    + unfold svn_fs__string_read, string_read_loop, string_read, mbind, state_bind.
      rewrite locate_key_none by (by rewrite Ed). by exists fs.
Qed.

Lemma spec_op_next op st :
  valid_key st.2 -> key_val (spec_op op st).2.2 = (key_val st.2 + (if takes_key op then 1 else 0))%Z.
Proof.
  intros Hv. destruct (bump_valid _ Hv) as (_ & _ & Hval & _). destruct st as [σ next].
  destruct op; cbn [spec_op no_such_string takes_key]; try destruct (σ !! _); cbn [fst snd] in *; lia.
Qed.

Lemma run_ops_ok ops fs st :
  stored fs st -> (key_val st.2 + Z.of_nat (new_keys ops) < 36 ^ 197)%Z -> ops_ok ops st ->
  exists fs', run_ops ops fs = ((spec_ops ops st).1, fs') /\ only_strings fs fs' /\ stored fs' (spec_ops ops st).2.
Proof.
  revert fs st. induction ops as [|op ops IH]; intros fs st Hst Hl Hops; [by exists fs|].
  cbn [ops_ok length] in *. destruct Hops as [Hop Hops].
  pose proof (key_val_short st.2 197 (st_valid _ _ Hst) ltac:(lia) ltac:(lia)) as Hs.
  destruct (run_op_ok op fs st Hst ltac:(lia) Hop) as (fs1 & E & [Ho1 Ho2] & H1).
  pose proof (spec_op_next op st (st_valid _ _ Hst)) as Hn.
  assert (key_val (spec_op op st).2.2 + Z.of_nat (new_keys ops) < 36 ^ 197)%Z as Hl'.
  { rewrite Hn. revert Hl. unfold new_keys. cbn [List.filter]. destruct (takes_key op); cbn [length]; lia. }
  destruct (IH fs1 (spec_op op st).2 H1 Hl' Hops) as (fs2 & E2 & [Ho3 Ho4] & H2).
  cbn [run_ops spec_ops]. rewrite E, E2. destruct (spec_op op st) as [r st1]. cbn [fst snd] in *.
  destruct (spec_ops ops st1) as [rs st2]. cbn [fst snd] in *. exists fs2. split_and!; [done|split; congruence|done].
Qed.

(** C24. The strings table is a store of byte strings: a sequence of operations on
    keys that are in use, or have been, has the results that it has on a map from
    keys to strings, errors included, and the table afterwards holds the map
    afterwards.  New keys are not in use.  The rest of the filesystem is the same.
    The sequence may have any length as long as fewer than [36 ^ 197] keys are
    ever handed out (the key after them has to fit in the buffer of 200 bytes),
    and each append and each read is of less than 4 GB. *)
Theorem strings_refine ops fs st :
  stored fs st -> (key_val st.2 + Z.of_nat (new_keys ops) < 36 ^ 197)%Z -> ops_ok ops st ->
  st.1 !! st.2 = None /\
  exists fs', run_ops ops fs = ((spec_ops ops st).1, fs') /\ only_strings fs fs' /\ stored fs' (spec_ops ops st).2.
Proof. intros Hst Hl Hops. split; [by apply (stored_fresh fs)|by apply run_ops_ok]. Qed.
End refinement.

(** ** Witness *)

(** The tables after [svn_fs__open_strings_table]. *)
Definition new_strings : svn_fs_t (db := mem_db) :=
  mk_fs (db := mem_db) [] [] [] [] {[svn_fs__next_key_key := [bstr "0"]]}.

Lemma new_strings_stored : stored (db := mem_db) new_strings (∅, bstr "0").
Proof.
  assert (forall k, valid_key k -> string_of (db := mem_db) new_strings k = None) as H.
  { intros k Hk%next_key_not_valid. unfold string_of, new_strings. cbn.
    by rewrite lookup_insert_ne, lookup_empty by done. }
  split; cbn [fst snd]; [done| |simpl; lia| |].
  - split; [done|]. split; [repeat constructor|done].
  - intros k Hk [s Hs]. by rewrite H in Hs.
  - intros k Hk. by rewrite H, lookup_empty.
Qed.

Definition sample_ops : list string_op :=
  [OpNew (bstr "ab"); OpAppend (bstr "0") (bstr "cd"); OpCopy (bstr "0"); OpClear (bstr "0");
   OpRead (bstr "1") 1 9; OpDelete (bstr "1"); OpSize (bstr "1"); OpSize (bstr "0")].

Lemma strings_refine_witness :
  (run_ops (db := mem_db) sample_ops new_strings).1 =
    [Ok (RKey (bstr "0")); Ok (RKey (bstr "0")); Ok (RKey (bstr "1")); Ok RUnit;
     Ok (RBytes (bstr "bcd")); Ok RUnit; Err SVN_ERR_FS_NO_SUCH_STRING; Ok (RSize 0)].
Proof.
  destruct (strings_refine (db := mem_db) sample_ops new_strings (∅, bstr "0")) as (_ & fs' & E & _).
  - apply new_strings_stored.
  - by vm_compute.
  - assert (forall k, k ∈ [bstr "0"; bstr "1"] -> valid_key k) as Hv.
    { intros k [->|[->|[]%not_elem_of_nil]%elem_of_cons]%elem_of_cons;
        (split; [done|split; [repeat constructor|done]]). }
    repeat (split; [split; [first [exact I|split; [apply Hv; set_solver|by vm_compute]]|by vm_compute]|]).
    exact I.
  - rewrite E. by vm_compute.
Defined.
