(* ===== verification/TextDelta.v ===== *)
(** * Text deltas ([libsvn_delta/text_delta.c], [include/svn_delta.h])

    Delta windows, their construction ([svn_txdelta__insert_op]) and their
    application: the instruction interpreter ([apply_instructions]) and the
    window handler that keeps the sliding source view ([apply_window]). *)

From S2P Require Import Prelude Stream.

(** ** Windows *)

Inductive svn_delta_action := svn_txdelta_source | svn_txdelta_target | svn_txdelta_new.

#[export] Instance svn_delta_action_eq_dec : EqDecision svn_delta_action.
Proof. solve_decision. Defined.

Record svn_txdelta_op_t := mk_op {
  action_code : svn_delta_action;
  offset : Z;   (* apr_off_t *)
  length_ : Z;  (* apr_off_t *)
}.

#[export] Instance svn_txdelta_op_eq_dec : EqDecision svn_txdelta_op_t.
Proof. solve_decision. Defined.

(** [num_ops] is the length of [ops]. *)
Record svn_txdelta_window_t := mk_window {
  sview_offset : Z;
  sview_len : Z;
  tview_len : Z;
  ops : list svn_txdelta_op_t;
  new_data : bytes;
}.

#[export] Instance svn_txdelta_window_eq_dec : EqDecision svn_txdelta_window_t.
Proof. solve_decision. Defined.

(** ** Building an operation sequence *)

(** [num_ops] is the length of [b_ops]; [ops_size] the number allocated. *)
Record build_ops_baton_t := mk_bob {
  ops_size : nat;
  b_ops : list svn_txdelta_op_t;
  b_new_data : bytes;
}.

Definition svn_txdelta__insert_op (bob : build_ops_baton_t) (opcode : svn_delta_action)
    (off len : Z) (data : bytes) : build_ops_baton_t :=
  let size :=
    if (length (b_ops bob) =? ops_size bob)%nat
    then (if (ops_size bob =? 0)%nat then 16 else 2 * ops_size bob)%nat
    else ops_size bob in
  match opcode with
  | svn_txdelta_source | svn_txdelta_target =>
      mk_bob size (b_ops bob ++ [mk_op opcode off len]) (b_new_data bob)
  | svn_txdelta_new =>
      mk_bob size
        (b_ops bob ++ [mk_op opcode (Z.of_nat (length (b_new_data bob))) len])
        (b_new_data bob ++ take (Z.to_nat len) data)
  end.

(** [make_window], before its caller fills in the views. *)
Definition make_window (bob : build_ops_baton_t) : svn_txdelta_window_t :=
  mk_window 0 0 0 (b_ops bob) (b_new_data bob).

(** ** Applying a window *)

(** [memcpy] from [len] bytes at [off] of a buffer. *)
Definition rd_sub (l : bytes) (off len : nat) : outcome bytes :=
  if (off + len <=? length l)%nat then Ok (take len (drop off l)) else Undef.

(** The byte-by-byte loop of a target copy: [n] more bytes, from [i] on. *)
Fixpoint copy_target (n : nat) (i : nat) (tbuf : bytes) : outcome bytes :=
  match n with
  | O => Ok tbuf
  | S n => c ← rd tbuf i; copy_target n (S i) (tbuf ++ [c])
  end.

(** One iteration of [apply_instructions]; [tbuf] is the part of the target
    buffer written so far, so [tpos] is its length. *)
Definition apply_op (w : svn_txdelta_window_t) (sbuf : bytes) (op : svn_txdelta_op_t)
    (tbuf : bytes) : outcome bytes :=
  let tpos := Z.of_nat (length tbuf) in
  _ ← c_assert ((0 <=? offset op) && (0 <=? length_ op));
  _ ← c_assert (size_t (tpos + length_ op) <=? tview_len w);
  match action_code op with
  | svn_txdelta_source =>
      _ ← c_assert (size_t (offset op + length_ op) <=? sview_len w);
      d ← rd_sub sbuf (Z.to_nat (offset op)) (Z.to_nat (length_ op));
      Ok (tbuf ++ d)
  | svn_txdelta_target =>
      _ ← c_assert (offset op <? tpos);
      copy_target (Z.to_nat (length_ op)) (Z.to_nat (offset op)) tbuf
  | svn_txdelta_new =>
      _ ← c_assert (size_t (offset op + length_ op) <=? Z.of_nat (length (new_data w)));
      d ← rd_sub (new_data w) (Z.to_nat (offset op)) (Z.to_nat (length_ op));
      Ok (tbuf ++ d)
  end.

Fixpoint apply_ops (w : svn_txdelta_window_t) (sbuf : bytes)
    (l : list svn_txdelta_op_t) (tbuf : bytes) : outcome bytes :=
  match l with
  | [] => Ok tbuf
  | op :: l => tbuf ← apply_op w sbuf op tbuf; apply_ops w sbuf l tbuf
  end.

Definition apply_instructions (w : svn_txdelta_window_t) (sbuf : bytes) : outcome bytes :=
  tbuf ← apply_ops w sbuf (ops w) [];
  _ ← c_assert (Z.of_nat (length tbuf) =? tview_len w);
  Ok tbuf.

(** ** The applicator *)

(** A window handler over a baton of type [C]; a null window is [None]. *)
Definition svn_txdelta_window_handler_t (C : Type) : Type :=
  option svn_txdelta_window_t -> C -> outcome unit * C.

(** A caller pushing a sequence of windows at a handler until an error. *)
Fixpoint push_windows {C} (handler : svn_txdelta_window_handler_t C)
    (ws : list (option svn_txdelta_window_t)) (c : C) : outcome unit * C :=
  match ws with
  | [] => (Ok tt, c)
  | w :: ws =>
      let '(r, c) := handler w c in
      match r with Ok _ => push_windows handler ws c | _ => (r, c) end
  end.

(** [sbuf] is the valid part of the source buffer, of length [sbuf_len]. *)
Record apply_baton (S T : Type) := mk_ab {
  ab_source : svn_stream_t S;
  ab_target : svn_stream_t T;
  sbuf : bytes;
  sbuf_size : Z;
  sbuf_offset : Z;
  tbuf_size : Z;
}.
Arguments mk_ab {S T}.
Arguments ab_source {S T}.
Arguments ab_target {S T}.
Arguments sbuf {S T}.
Arguments sbuf_size {S T}.
Arguments sbuf_offset {S T}.
Arguments tbuf_size {S T}.

(** The new allocated size. *)
Definition size_buffer (buf_size view_len : Z) : Z :=
  if buf_size <? view_len then
    let buf_size := size_t (buf_size * 2) in
    if buf_size <? view_len then view_len else buf_size
  else buf_size.

Section apply_window.
Context {S T : Type}.

(** Prepare the source buffer: keep the overlap of the old and new views. *)
Definition slide_source (w : svn_txdelta_window_t) (ab : apply_baton S T) : apply_baton S T :=
let sbuf_len := Z.of_nat (length (sbuf ab)) in
if negb (sview_offset w =? sbuf_offset ab) || (sbuf_size ab <? sview_len w) then
  let kept :=
    if sview_offset w <? size_t (sbuf_offset ab + sbuf_len)
    then drop (Z.to_nat (sview_offset w - sbuf_offset ab)) (sbuf ab)
    else [] in
  mk_ab (ab_source ab) (ab_target ab) kept
    (size_buffer (sbuf_size ab) (sview_len w)) (sview_offset w) (tbuf_size ab)
else ab.

(** Read the remainder of the source view. *)
Definition fill_source (w : svn_txdelta_window_t) (ab : apply_baton S T) :
  outcome unit * apply_baton S T :=
let sbuf_len := Z.of_nat (length (sbuf ab)) in
if sbuf_len <? sview_len w then
  let len := Z.to_nat (sview_len w - sbuf_len) in
  let '(r, src) := svn_stream_read (ab_source ab) len in
  let short := mk_ab src (ab_target ab) (sbuf ab) (sbuf_size ab) (sbuf_offset ab)
                 (tbuf_size ab) in
  match r with
  | Ok d =>
      if (length d =? len)%nat
      then (Ok tt, mk_ab src (ab_target ab) (sbuf ab ++ d) (sbuf_size ab)
                     (sbuf_offset ab) (tbuf_size ab))
      else (Err SVN_ERR_INCOMPLETE_DATA, short)
  | Err e => (Err e, short) | Abort => (Abort, short) | Undef => (Undef, short)
  end
else (Ok tt, ab).

(** [apply_window]; a null window is [None]. *)
Definition apply_window (window : option svn_txdelta_window_t) (ab : apply_baton S T) :
  outcome unit * apply_baton S T :=
match window with
| None =>
    let '(_, tgt) := svn_stream_close (ab_target ab) in
    (Ok tt, mk_ab (ab_source ab) tgt (sbuf ab) (sbuf_size ab) (sbuf_offset ab) (tbuf_size ab))
| Some w =>
    let sbuf_len := Z.of_nat (length (sbuf ab)) in
    if (sbuf_offset ab <=? sview_offset w) &&
       (size_t (sbuf_offset ab + sbuf_len) <=? size_t (sview_offset w + sview_len w)) then
      let ab := mk_ab (ab_source ab) (ab_target ab) (sbuf ab) (sbuf_size ab)
                  (sbuf_offset ab) (size_buffer (tbuf_size ab) (tview_len w)) in
      let '(r, ab) := fill_source w (slide_source w ab) in
      match r with
      | Ok _ =>
          match apply_instructions w (sbuf ab) with
          | Ok tbuf =>
              let '(r, tgt) := svn_stream_write (ab_target ab) tbuf in
              (r, mk_ab (ab_source ab) tgt (sbuf ab) (sbuf_size ab) (sbuf_offset ab)
                    (tbuf_size ab))
          | Err e => (Err e, ab) | Abort => (Abort, ab) | Undef => (Undef, ab)
          end
      | Err e => (Err e, ab) | Abort => (Abort, ab) | Undef => (Undef, ab)
      end
    else (Abort, ab)
end.

Definition svn_txdelta_apply (source : svn_stream_t S) (target : svn_stream_t T) :
  apply_baton S T :=
mk_ab source target [] 0 0 0.

Definition apply_windows := push_windows apply_window.
End apply_window.

(** [svn_txdelta_send_string]: the windows it pushes at its handler. *)
Definition svn_txdelta_send_string (str : bytes) : list (option svn_txdelta_window_t) :=
  let len := Z.of_nat (length str) in
  [Some (mk_window 0 0 len [mk_op svn_txdelta_new 0 len] str); None].

(** ** Specification of the instructions *)

(** The conditions [svn_delta.h] puts on an instruction, at target position
    [tpos] of the window. *)
Definition op_valid (w : svn_txdelta_window_t) (tpos : Z) (op : svn_txdelta_op_t) : bool :=
  (0 <=? offset op) && (0 <=? length_ op) && (tpos + length_ op <=? tview_len w) &&
  match action_code op with
  | svn_txdelta_source => offset op + length_ op <=? sview_len w
  | svn_txdelta_target => offset op <? tpos
  | svn_txdelta_new => offset op + length_ op <=? Z.of_nat (length (new_data w))
  end.

Fixpoint ops_valid (w : svn_txdelta_window_t) (tpos : Z) (l : list svn_txdelta_op_t) : bool :=
  match l with
  | [] => tpos =? tview_len w
  | op :: l => op_valid w tpos op && ops_valid w (tpos + length_ op) l
  end.

Definition window_valid (w : svn_txdelta_window_t) : bool := ops_valid w 0 (ops w).

(** The machine ranges of the fields: offsets and lengths are [apr_off_t],
    view lengths [apr_size_t], and buffers are smaller than 2^63 bytes. *)
Definition op_ranges (op : svn_txdelta_op_t) : Prop :=
  - two63 <= offset op < two63 /\ - two63 <= length_ op < two63.

Definition window_sizes (w : svn_txdelta_window_t) : Prop :=
  0 <= sview_offset w < two63 /\ 0 <= sview_len w < two63 /\
  0 <= tview_len w < two63 /\ Z.of_nat (length (new_data w)) < two63.

Definition window_ranges (w : svn_txdelta_window_t) : Prop :=
  Forall op_ranges (ops w) /\ window_sizes w.

(** [d] is what an instruction appends to the target [t]: a block of the
    source view or of the new data, or a block of the target itself, which may
    overlap the bytes being produced. *)
Definition op_appends (w : svn_txdelta_window_t) (sview : bytes) (op : svn_txdelta_op_t)
    (t d : bytes) : Prop :=
  length d = Z.to_nat (length_ op) /\
  forall k, (k < length d)%nat ->
    match action_code op with
    | svn_txdelta_source => d !! k = sview !! (Z.to_nat (offset op) + k)%nat
    | svn_txdelta_target => d !! k = (t ++ d) !! (Z.to_nat (offset op) + k)%nat
    | svn_txdelta_new => d !! k = new_data w !! (Z.to_nat (offset op) + k)%nat
    end.

Lemma rd_sub_ok l off len :
  (off + len <= length l)%nat -> rd_sub l off len = Ok (take len (drop off l)).
Proof. intros. unfold rd_sub. by rewrite (proj2 (Nat.leb_le _ _)). Qed.

Lemma copy_target_ok n i t :
  (i < length t)%nat ->
  exists d, copy_target n i t = Ok (t ++ d) /\ length d = n /\
    forall k, (k < n)%nat -> d !! k = (t ++ d) !! (i + k)%nat.
Proof.
  revert i t. induction n as [|n IH]; intros i t Hi; simpl.
  - exists []. rewrite app_nil_r. split_and!; [done..|intros; lia].
  - destruct (lookup_lt_is_Some_2 t i Hi) as [c Hc]. unfold rd. rewrite Hc. cbn.
    destruct (IH (S i) (t ++ [c])) as (d & -> & Hlen & Hd).
    { rewrite length_app. simpl. lia. }
    exists (c :: d). rewrite <- app_assoc. split_and!; [done|simpl; lia|].
    intros [|k] Hk.
    + rewrite Nat.add_0_r. rewrite lookup_app_l by done. by rewrite Hc.
    + simpl. rewrite Hd by lia. rewrite <- app_assoc. simpl. f_equal. lia.
Qed.

Lemma op_appends_length w sview op t d :
  op_appends w sview op t d -> length d = Z.to_nat (length_ op).
Proof. by intros [? _]. Qed.

(** The byte-by-byte semantics determines the bytes appended. *)
Lemma op_appends_unique w sview op t d1 d2 :
  (action_code op = svn_txdelta_target -> (Z.to_nat (offset op) < length t)%nat) ->
  op_appends w sview op t d1 -> op_appends w sview op t d2 -> d1 = d2.
Proof.
  intros Hoff [Hl1 H1] [Hl2 H2]. apply list_eq_same_length with (length d1); [lia|lia|].
  intros k. induction k as [k IH] using lt_wf_ind. intros x y Hk Hx Hy.
  specialize (H1 k ltac:(lia)). specialize (H2 k ltac:(lia)).
  destruct (action_code op); [congruence| |congruence].
  specialize (Hoff eq_refl). rewrite Hx in H1. rewrite Hy in H2.
  destruct (decide (Z.to_nat (offset op) + k < length t)%nat).
  - rewrite lookup_app_l in H1, H2 by done. congruence.
  - rewrite lookup_app_r in H1, H2 by lia. eapply IH; [| |by symmetry|by symmetry]; lia.
Qed.

Lemma apply_op_ok w sview op t :
  window_sizes w -> op_ranges op -> Z.of_nat (length t) <= tview_len w ->
  sview_len w <= Z.of_nat (length sview) ->
  if op_valid w (Z.of_nat (length t)) op
  then exists d, apply_op w sview op t = Ok (t ++ d) /\ op_appends w sview op t d
  else apply_op w sview op t = Abort.
Proof.
  intros (Hso & Hsl & Htl & Hnd) [Ho Hl] Ht Hsv. unfold op_valid, apply_op.
  destruct (Z.leb_spec 0 (offset op)); [|by cbn].
  destruct (Z.leb_spec 0 (length_ op)); [|by cbn]. cbn [andb c_assert mbind outcome_bind].
  rewrite (size_t_small (Z.of_nat (length t) + length_ op)) by (unfold two63, two64 in *; lia).
  destruct (Z.leb_spec (Z.of_nat (length t) + length_ op) (tview_len w)); [|by cbn].
  cbn [andb c_assert mbind outcome_bind].
  destruct (action_code op) eqn:Ea.
  1,3: rewrite size_t_small by (unfold two63, two64 in *; lia);
       bool_case; [|done]; rewrite rd_sub_ok by lia; eexists; split; [done|];
       unfold op_appends; rewrite Ea, length_take, length_drop; split; [lia|];
       intros k Hk; rewrite lookup_take_lt by lia; by rewrite lookup_drop.
  bool_case; [|done].
  destruct (copy_target_ok (Z.to_nat (length_ op)) (Z.to_nat (offset op)) t)
    as (d & -> & Hd & Hk); [lia|].
  exists d. split; [done|]. unfold op_appends. rewrite Ea, Hd. split; [done|].
  intros k Hlt. apply Hk. lia.
Qed.

(** *** Whole windows *)

(** [t'] extends [t] by what the instructions append, in order. *)
Inductive ops_append (w : svn_txdelta_window_t) (sview : bytes) :
    list svn_txdelta_op_t -> bytes -> bytes -> Prop :=
  | ops_append_nil t : ops_append w sview [] t t
  | ops_append_cons op l t d t' :
      op_appends w sview op t d -> ops_append w sview l (t ++ d) t' ->
      ops_append w sview (op :: l) t t'.

Lemma op_valid_range w tpos op :
  op_valid w tpos op = true -> 0 <= length_ op /\ tpos + length_ op <= tview_len w.
Proof. unfold op_valid. rewrite !andb_true_iff, !Z.leb_le. lia. Qed.

Lemma apply_ops_ok w sview l t :
  window_ranges w -> Forall op_ranges l -> Z.of_nat (length t) <= tview_len w ->
  sview_len w <= Z.of_nat (length sview) ->
  if ops_valid w (Z.of_nat (length t)) l
  then exists t', apply_ops w sview l t = Ok t' /\ ops_append w sview l t t' /\
         Z.of_nat (length t') = tview_len w
  else apply_ops w sview l t = Abort \/
       exists t', apply_ops w sview l t = Ok t' /\ Z.of_nat (length t') <> tview_len w.
Proof.
  intros Hw Hl. revert t. induction Hl as [|op l Hop Hl IH]; intros t Ht Hsv; simpl.
  - bool_case; [|right; by eexists]. exists t. split_and!; [done|constructor|done].
  - pose proof (apply_op_ok w sview op t (proj2 Hw) Hop Ht Hsv) as Hstep.
    destruct (op_valid w (Z.of_nat (length t)) op) eqn:Ev; [|rewrite Hstep; by left].
    destruct Hstep as (d & -> & Hd). cbn [andb mbind outcome_bind].
    apply op_valid_range in Ev. specialize (IH (t ++ d)). rewrite length_app in IH.
    rewrite (op_appends_length _ _ _ _ _ Hd), Nat2Z.inj_add, Z2Nat.id in IH by lia.
    specialize (IH ltac:(lia) Hsv). destruct (ops_valid _ _ l); [|done].
    destruct IH as (t' & -> & Ha & Hlen). exists t'. split_and!; [done| |done].
    by apply ops_append_cons with d.
Qed.

Lemma apply_instructions_ok w sview :
  window_ranges w -> sview_len w <= Z.of_nat (length sview) ->
  if window_valid w
  then exists t, apply_instructions w sview = Ok t /\ ops_append w sview (ops w) [] t /\
         Z.of_nat (length t) = tview_len w
  else apply_instructions w sview = Abort.
Proof.
  intros Hw Hsv. unfold apply_instructions, window_valid.
  pose proof (apply_ops_ok w sview (ops w) [] Hw (proj1 Hw)) as H. simpl length in H.
  specialize (H ltac:(destruct Hw as (_ & _ & _ & ? & _); lia) Hsv).
  change (Z.of_nat 0) with 0 in H. destruct (ops_valid w 0 (ops w)).
  - destruct H as (t & -> & Ha & Hlen). cbn. rewrite Hlen, Z.eqb_refl. by exists t.
  - destruct H as [->|(t & -> & Hlen)]; [done|]. cbn. by bool_case.
Qed.

Lemma ops_append_prefix w sview l t t' : ops_append w sview l t t' -> exists d, t' = t ++ d.
Proof.
  induction 1 as [t|op l t d t' Hd Ha [d' ->]]; [by exists []; rewrite app_nil_r|].
  exists (d ++ d'). by rewrite app_assoc.
Qed.

(** ** The applicator over a sequence of windows *)

(** [n] bytes of [src] at [off]. *)
Definition sub (src : bytes) (off n : Z) : bytes := take (Z.to_nat n) (drop (Z.to_nat off) src).

Lemma sub_length src off n :
  0 <= off -> 0 <= n -> off + n <= Z.of_nat (length src) ->
  length (sub src off n) = Z.to_nat n.
Proof. intros. unfold sub. rewrite length_take, length_drop. lia. Qed.

(** The source view may slide forward only, and must touch the previous one:
    [off], [len] being the last view. *)
Fixpoint views_slide (srclen off len : Z) (ws : list svn_txdelta_window_t) : Prop :=
  match ws with
  | [] => True
  | w :: ws =>
      off <= sview_offset w <= off + len /\
      off + len <= sview_offset w + sview_len w <= srclen /\
      views_slide srclen (sview_offset w) (sview_len w) ws
  end.

Section applicator.
Context {S T : Type} (fs : stream_fns S) (ft : stream_fns T).
Context `{!ReadableStream fs} `{!WritableStream ft}.

(** The handler's state between windows: the buffer holds the last source
  view of [src], and the source stream is positioned just after it. *)
Record ab_inv (src : bytes) (off len : Z) (out : bytes) (ab : apply_baton S T) : Prop := {
inv_source : exists b, ab_source ab = mk_stream b fs /\
               stream_delivers b (drop (Z.to_nat (off + len)) src);
inv_target : exists b, ab_target ab = mk_stream b ft /\ stream_written b = out;
inv_offset : sbuf_offset ab = off;
inv_sbuf : sbuf ab = sub src off len;
inv_range : 0 <= off /\ 0 <= len /\ off + len <= Z.of_nat (length src);
}.

Lemma sub_slide src off len off' :
0 <= off -> off <= off' <= off + len ->
drop (Z.to_nat (off' - off)) (sub src off len) = sub src off' (off + len - off').
Proof.
intros. unfold sub. rewrite skipn_firstn_comm, drop_drop. f_equal; [lia|f_equal; lia].
Qed.

Lemma sub_extend src off n m :
0 <= off -> 0 <= n -> 0 <= m ->
sub src off n ++ take (Z.to_nat m) (drop (Z.to_nat (off + n)) src) = sub src off (n + m).
Proof.
intros. unfold sub. rewrite !Z2Nat.inj_add by lia. rewrite <- drop_drop.
by rewrite take_take_drop.
Qed.

Lemma slide_source_ok src off len out ab w :
Z.of_nat (length src) < two63 -> ab_inv src off len out ab ->
off <= sview_offset w <= off + len ->
off + len <= sview_offset w + sview_len w ->
ab_inv src (sview_offset w) (off + len - sview_offset w) out (slide_source w ab).
Proof.
intros Hsrc [Hs Ht Ho Hb (Hr1 & Hr2 & Hr3)] Hoff Hend. unfold slide_source.
rewrite Hb, Ho, sub_length, Z2Nat.id by lia.
destruct (_ || _) eqn:E.
- constructor; try done; simpl.
  + by replace (sview_offset w + (off + len - sview_offset w)) with (off + len) by lia.
  + rewrite size_t_small by (unfold two63, two64 in *; lia). bool_case.
    * apply sub_slide; lia.
    * by replace (off + len - sview_offset w) with 0 by lia.
  + lia.
- apply orb_false_iff in E as [E _]. apply negb_false_iff, Z.eqb_eq in E. rewrite E.
  replace (off + len - off) with len by lia. by constructor.
Qed.

Lemma fill_source_ok src n out ab w :
ab_inv src (sview_offset w) n out ab -> n <= sview_len w ->
sview_offset w + sview_len w <= Z.of_nat (length src) -> Z.of_nat (length src) < two63 ->
exists ab', fill_source w ab = (Ok tt, ab') /\
  ab_inv src (sview_offset w) (sview_len w) out ab'.
Proof.
intros [(b & Hs & Hleft) Ht Ho Hb (Hr1 & Hr2 & Hr3)] Hn Hend Hsrc. unfold fill_source.
rewrite Hb, sub_length, Z2Nat.id by lia. bool_case.
- rewrite Hs. destruct (stream_read_ok b _ (Z.to_nat (sview_len w - n)) Hleft ltac:(lia)) as (b' & -> & Hleft').
  rewrite length_take, length_drop.
  destruct (Nat.eqb_spec (Z.to_nat (sview_len w - n) `min`
    (length src - Z.to_nat (sview_offset w + n))) (Z.to_nat (sview_len w - n))); [|lia].
  eexists. split; [done|]. constructor; try done; simpl.
  + exists b'. split; [done|]. rewrite drop_drop in Hleft'.
    by replace (Z.to_nat (sview_offset w + sview_len w)) with
      (Z.to_nat (sview_offset w + n) + Z.to_nat (sview_len w - n))%nat by lia.
  + rewrite sub_extend by lia. f_equal. lia.
  + lia.
- replace n with (sview_len w) in * by lia. exists ab. split; [done|].
  constructor; try done. by exists b.
Qed.

Lemma apply_window_ok src off len out ab w :
Z.of_nat (length src) < two63 -> window_ranges w -> window_valid w = true ->
ab_inv src off len out ab ->
off <= sview_offset w <= off + len ->
off + len <= sview_offset w + sview_len w <= Z.of_nat (length src) ->
exists ab' t, apply_window (Some w) ab = (Ok tt, ab') /\
  apply_instructions w (sub src (sview_offset w) (sview_len w)) = Ok t /\
  ab_inv src (sview_offset w) (sview_len w) (out ++ t) ab'.
Proof.
intros Hsrc Hw Hv Hinv Hoff Hend.
assert (0 <= off /\ 0 <= len /\ off + len <= Z.of_nat (length src)) as (Ho0 & Hl0 & _)
  by apply Hinv.
cbn [apply_window]. rewrite (inv_offset _ _ _ _ _ Hinv), (inv_sbuf _ _ _ _ _ Hinv).
rewrite sub_length, Z2Nat.id by (destruct Hinv; lia).
rewrite !size_t_small by (unfold two63, two64 in *; lia).
destruct (Z.leb_spec off (sview_offset w)); [|lia].
destruct (Z.leb_spec (off + len) (sview_offset w + sview_len w)); [|lia]. cbn [andb].
set (ab0 := mk_ab _ _ _ _ _ _).
assert (ab_inv src off len out ab0) as Hinv0 by (destruct Hinv; by constructor).
destruct (fill_source_ok src (off + len - sview_offset w) out (slide_source w ab0) w)
  as (ab1 & -> & [Hs1 (bt & Ht1 & Hout) Ho1 Hb1 Hr1]); [..|lia|done|].
{ apply slide_source_ok; [done..|lia]. }
{ lia. }
pose proof (apply_instructions_ok w (sub src (sview_offset w) (sview_len w)) Hw) as Ha.
rewrite sub_length in Ha by lia. rewrite Hv in Ha. destruct Ha as (t & Ht & _); [lia|].
rewrite Hb1, Ht, Ht1. destruct (stream_write_ok bt t) as (bt' & -> & Hout').
eexists _, t. split_and!; [done..|]. constructor; simpl; try done.
exists bt'. split; [done|]. by rewrite Hout', Hout.
Qed.

Lemma apply_windows_ok src ws off len out ab :
Z.of_nat (length src) < two63 ->
Forall (λ w, window_ranges w /\ window_valid w = true) ws ->
views_slide (Z.of_nat (length src)) off len ws -> ab_inv src off len out ab ->
exists ab' ts off' len', apply_windows (Some <$> ws) ab = (Ok tt, ab') /\
  Forall2 (λ w t, apply_instructions w (sub src (sview_offset w) (sview_len w)) = Ok t) ws ts /\
  ab_inv src off' len' (out ++ concat ts) ab'.
Proof.
intros Hsrc Hws. revert off len out ab.
induction Hws as [|w ws [Hw Hv] Hws IH]; intros off len out ab Hsl Hinv.
- exists ab, [], off, len. simpl. rewrite app_nil_r. split_and!; [done|constructor|done].
- simpl in Hsl. destruct Hsl as (Hoff & Hend & Hsl).
  destruct (apply_window_ok src off len out ab w Hsrc Hw Hv Hinv) as (ab1 & t & E & Ht & Hinv1);
    [lia|lia|].
  rewrite fmap_cons. unfold apply_windows; cbn [push_windows]; fold (apply_windows (S:=S) (T:=T)). rewrite E.
  destruct (IH _ _ _ _ Hsl Hinv1) as (ab' & ts & off' & len' & -> & Hts & Hinv').
  exists ab', (t :: ts), off', len'. split_and!; [done|by constructor|].
  simpl. by rewrite app_assoc.
Qed.

Lemma svn_txdelta_apply_inv src bs bt :
stream_delivers bs src -> stream_written bt = [] ->
ab_inv src 0 0 [] (svn_txdelta_apply (mk_stream bs fs) (mk_stream bt ft)).
Proof.
intros Hs Ht. constructor; simpl; try done.
- exists bs. by rewrite drop_0.
- by exists bt.
- lia.
Qed.
End applicator.

(** ** Overlapping target copies *)

(** Every byte a target copy appends repeats the block between its offset and
    the end of the target, cyclically. *)
Lemma target_copy_periodic w sview op t d k :
  action_code op = svn_txdelta_target -> (Z.to_nat (offset op) < length t)%nat ->
  op_appends w sview op t d -> (k < length d)%nat ->
  d !! k = t !! (Z.to_nat (offset op) + k `mod` (length t - Z.to_nat (offset op)))%nat.
Proof.
  intros Ha Ho [Hlen Hd]. rewrite Ha in Hd. set (o := Z.to_nat (offset op)) in *.
  induction k as [k IH] using lt_wf_ind. intros Hk. rewrite Hd by done.
  destruct (decide (o + k < length t)%nat).
  - rewrite lookup_app_l by done. rewrite Nat.mod_small by lia. done.
  - rewrite lookup_app_r by lia. rewrite IH by lia. do 2 f_equal.
    replace k with (o + k - length t + 1 * (length t - o))%nat at 2 by lia.
    by rewrite Nat.Div0.mod_add.
Qed.

Lemma copy_target_doc_example :
  copy_target 7 6 (bstr "abcdefgh") = Ok (bstr "abcdefghghghghg").
Proof. reflexivity. Qed.

(** ** Building windows

    [bob_gives sview bob t]: the instructions collected so far, put into a
    window over the source view [sview], produce [t]. *)
Definition bob_window (sview : bytes) (bob : build_ops_baton_t) (tlen : nat) :=
  let w := make_window bob in
  mk_window 0 (Z.of_nat (length sview)) (Z.of_nat tlen) (ops w) (new_data w).

Definition bob_gives (sview : bytes) (bob : build_ops_baton_t) (t : bytes) : Prop :=
  apply_ops (bob_window sview bob (length t)) sview (b_ops bob) [] = Ok t.

Definition bob_empty : build_ops_baton_t := mk_bob 0 [] [].

Lemma apply_ops_app w sbuf l1 l2 t :
  apply_ops w sbuf (l1 ++ l2) t = (t' ← apply_ops w sbuf l1 t; apply_ops w sbuf l2 t').
Proof.
  revert t. induction l1 as [|op l1 IH]; intros t; [done|]. simpl.
  destruct (apply_op w sbuf op t); [apply IH|done..].
Qed.

Lemma c_assert_Ok b x : c_assert b = Ok x <-> b = true.
Proof. destruct x, b; cbn; split; congruence. Qed.

(** A larger window accepts the instructions of a smaller one. *)
Lemma apply_op_mono w w' sbuf op t t' d :
  sview_len w' = sview_len w -> tview_len w <= tview_len w' ->
  new_data w' = new_data w ++ d ->
  apply_op w sbuf op t = Ok t' -> apply_op w' sbuf op t = Ok t'.
Proof.
  intros Hs Ht Hd. unfold apply_op. rewrite Hs, Hd. intros H.
  apply bind_Ok in H. destruct H as (u & ? & H). apply bind_Ok in H. apply bind_Ok. destruct H as (v & Hv & H). exists u. split; [done|]. rewrite bind_Ok.
  exists v. split; [rewrite c_assert_Ok, Z.leb_le in *; lia|].
  destruct (action_code op); [exact H|exact H|]. apply bind_Ok. apply bind_Ok in H.
  destruct H as (x & Hx & H). apply bind_Ok in H. destruct H as (b & Hb & H). exists x. split.
  - rewrite c_assert_Ok, Z.leb_le in *. rewrite length_app. lia.
  - rewrite bind_Ok. exists b. split; [|done]. unfold rd_sub in *.
    rewrite length_app. destruct (Nat.leb_spec (Z.to_nat (offset op) + Z.to_nat (length_ op))
      (length (new_data w))); [|done].
    rewrite (proj2 (Nat.leb_le _ _)) by lia. injection Hb as <-.
    rewrite drop_app_le by lia. f_equal. apply take_app_le. rewrite length_drop. lia.
Qed.

Lemma apply_ops_mono w w' sbuf l t t' d :
  sview_len w' = sview_len w -> tview_len w <= tview_len w' ->
  new_data w' = new_data w ++ d ->
  apply_ops w sbuf l t = Ok t' -> apply_ops w' sbuf l t = Ok t'.
Proof.
  intros Hs Ht Hd. revert t. induction l as [|op l IH]; intros t; [done|]. simpl.
  intros (u & Hu & H)%bind_Ok. apply bind_Ok. exists u. split; [|auto].
  by apply apply_op_mono with w d.
Qed.

Lemma bob_gives_empty sview : bob_gives sview bob_empty [].
Proof. done. Qed.

(** Inserting an instruction that appends [d]. *)
Lemma bob_gives_snoc sview bob t d bob' op nd :
  bob_gives sview bob t ->
  b_ops bob' = b_ops bob ++ [op] -> b_new_data bob' = b_new_data bob ++ nd ->
  apply_op (bob_window sview bob' (length (t ++ d))) sview op t = Ok (t ++ d) ->
  bob_gives sview bob' (t ++ d).
Proof.
  intros Hb Hops Hnd Hop. unfold bob_gives. rewrite Hops, apply_ops_app.
  rewrite (apply_ops_mono (bob_window sview bob (length t)) _ sview _ [] t nd);
    [|done|simpl; rewrite length_app; lia|exact Hnd|exact Hb].
  cbn [mbind outcome_bind apply_ops]. by rewrite Hop.
Qed.

Lemma insert_op_fields bob opcode off len data :
  let bob' := svn_txdelta__insert_op bob opcode off len data in
  b_ops bob' = b_ops bob ++
    [mk_op opcode (if decide (opcode = svn_txdelta_new)
                   then Z.of_nat (length (b_new_data bob)) else off) len] /\
  b_new_data bob' = b_new_data bob ++
    (if decide (opcode = svn_txdelta_new) then take (Z.to_nat len) data else []).
Proof. destruct opcode; simpl; by rewrite ?app_nil_r. Qed.

(** The use of the new data: in order, without gaps. *)
Definition op_npos (npos : Z) (op : svn_txdelta_op_t) : Z :=
  match action_code op with svn_txdelta_new => npos + length_ op | _ => npos end.

Fixpoint new_consecutive (npos : Z) (l : list svn_txdelta_op_t) (total : Z) : Prop :=
  match l with
  | [] => npos = total
  | op :: l =>
      (action_code op = svn_txdelta_new -> offset op = npos) /\
      new_consecutive (op_npos npos op) l total
  end.

Definition bob_consecutive (bob : build_ops_baton_t) : Prop :=
  new_consecutive 0 (b_ops bob) (Z.of_nat (length (b_new_data bob))).

Lemma bob_consecutive_insert bob opcode off len data :
  bob_consecutive bob -> 0 <= len ->
  (opcode = svn_txdelta_new -> len <= Z.of_nat (length data)) ->
  bob_consecutive (svn_txdelta__insert_op bob opcode off len data).
Proof.
  unfold bob_consecutive. destruct (insert_op_fields bob opcode off len data) as [-> ->].
  generalize 0 at 1 3 as npos. intros npos Hb Hlen Hd. revert npos Hb.
  induction (b_ops bob) as [|op l IH]; intros npos; simpl.
  - intros ->. unfold op_npos. simpl. destruct (decide _) as [->|].
    + split; [done|]. rewrite length_app, length_take. specialize (Hd eq_refl). lia.
    + rewrite app_nil_r. destruct opcode; done.
  - intros [? ?]. split; [done|]. by apply IH.
Qed.

(** What one inserted instruction adds to the target, provided the result stays
    within the range of [apr_size_t]. *)
Lemma bob_gives_insert sview bob t opcode off len data d :
  bob_gives sview bob t ->
  let bob' := svn_txdelta__insert_op bob opcode off len data in
  let op := mk_op opcode (if decide (opcode = svn_txdelta_new)
                   then Z.of_nat (length (b_new_data bob)) else off) len in
  Z.of_nat (length sview) < two63 -> Z.of_nat (length (b_new_data bob')) < two63 ->
  Z.of_nat (length (t ++ d)) < two63 -> 0 <= off < two63 -> 0 <= len < two63 ->
  match opcode with
  | svn_txdelta_source => off + len <= Z.of_nat (length sview)
  | svn_txdelta_target => off < Z.of_nat (length t)
  | svn_txdelta_new => len <= Z.of_nat (length data)
  end ->
  op_appends (bob_window sview bob' (length (t ++ d))) sview op t d ->
  bob_gives sview bob' (t ++ d).
Proof.
  intros Hb bob' op Hsv Hnd Htd Hoff Hlen Hc Happ.
  destruct (insert_op_fields bob opcode off len data) as [Hops Hnew]. fold bob' op in Hops, Hnew.
  set (w := bob_window sview bob' (length (t ++ d))) in *.
  assert (op_valid w (Z.of_nat (length t)) op = true) as Hv.
  { pose proof (op_appends_length _ _ _ _ _ Happ) as Hld. cbn [op length_] in Hld.
    unfold op_valid. replace (tview_len w) with (Z.of_nat (length t) + len)
      by (unfold w, bob_window; cbn [tview_len]; rewrite length_app; lia).
    cbn [op action_code offset length_].
    rewrite !andb_true_iff, !Z.leb_le. split_and!; [destruct (decide _); lia|lia|lia|].
    destruct opcode; cbn [decide svn_delta_action_eq_dec]; simpl.
    - apply Z.leb_le. lia.
    - by apply Z.ltb_lt.
    - apply Z.leb_le. rewrite length_app, length_take. lia. }
  eapply bob_gives_snoc; [done..|]. fold w.
  pose proof (apply_op_ok w sview op t) as H. rewrite Hv in H.
  destruct H as (d' & E & Hd').
  - unfold w, bob_window. split_and!; cbn [sview_offset sview_len tview_len new_data make_window]; try lia; done.
  - split; simpl; [|unfold two63 in *; lia].
    destruct (decide _); [|unfold two63 in *; lia].
    rewrite Hnew, length_app in Hnd. unfold two63 in *; lia.
  - simpl. rewrite length_app. lia.
  - done.
  - rewrite E. do 2 f_equal. eapply op_appends_unique; [|done..].
    intros Ha. destruct opcode; try done. simpl in *. lia.
Qed.

Lemma bob_gives_new sview bob t len data :
  bob_gives sview bob t ->
  0 <= len <= Z.of_nat (length data) ->
  Z.of_nat (length sview) < two63 ->
  Z.of_nat (length (b_new_data bob)) + len < two63 ->
  Z.of_nat (length t) + len < two63 ->
  bob_gives sview (svn_txdelta__insert_op bob svn_txdelta_new 0 len data)
    (t ++ take (Z.to_nat len) data).
Proof.
  intros Hb Hlen Hs Hn Ht. apply bob_gives_insert; try done; simpl.
  - rewrite length_app, length_take. lia.
  - rewrite length_app, length_take. lia.
  - lia.
  - lia.
  - split; simpl; [rewrite length_take; lia|]. intros k Hk.
    rewrite lookup_app_r by lia. f_equal. lia.
Qed.

Lemma bob_gives_source sview bob t off len data :
  bob_gives sview bob t ->
  0 <= off -> 0 <= len -> off + len <= Z.of_nat (length sview) ->
  Z.of_nat (length sview) < two63 -> Z.of_nat (length (b_new_data bob)) < two63 ->
  Z.of_nat (length t) + len < two63 ->
  bob_gives sview (svn_txdelta__insert_op bob svn_txdelta_source off len data)
    (t ++ sub sview off len).
Proof.
  intros Hb Ho Hl Hol Hs Hn Ht. pose proof (sub_length sview off len Ho Hl Hol) as Hd.
  apply bob_gives_insert; try done; simpl; try lia.
  - rewrite length_app. lia.
  - split; simpl; [lia|]. intros k Hk. unfold sub.
    rewrite lookup_take_lt by lia. by rewrite lookup_drop.
Qed.

Lemma bob_gives_target sview bob t off len data d :
  bob_gives sview bob t ->
  0 <= off < Z.of_nat (length t) -> length d = Z.to_nat len -> 0 <= len ->
  (forall k, (k < length d)%nat -> d !! k = (t ++ d) !! (Z.to_nat off + k)%nat) ->
  Z.of_nat (length sview) < two63 -> Z.of_nat (length (b_new_data bob)) < two63 ->
  Z.of_nat (length t) + len < two63 ->
  bob_gives sview (svn_txdelta__insert_op bob svn_txdelta_target off len data) (t ++ d).
Proof.
  intros Hb Ho Hl Hl0 Hd Hs Hn Ht. apply bob_gives_insert; try done; simpl; try lia.
  rewrite length_app. lia.
Qed.

(** ** Properties *)

(** C34. [apply_instructions] checks every window it is given: when the window
    satisfies the conditions of [svn_delta.h] it produces exactly the target
    view the instructions describe (blocks of the source view, of the new data,
    and byte-by-byte copies of the target), of the announced length; otherwise
    an assertion stops it, and it never reads or writes outside its buffers. *)
Theorem apply_instructions_correct w sview :
  window_ranges w -> sview_len w <= Z.of_nat (length sview) ->
  if window_valid w
  then exists t, apply_instructions w sview = Ok t /\ ops_append w sview (ops w) [] t /\
         Z.of_nat (length t) = tview_len w
  else apply_instructions w sview = Abort.
Proof. apply apply_instructions_ok. Qed.

(** A target copy that runs past the end of the target repeats the copied
    block cyclically: the run-length trick of the delta format. *)
Theorem target_copy_repeats w sview op t d k :
  action_code op = svn_txdelta_target ->
  op_valid w (Z.of_nat (length t)) op = true ->
  op_appends w sview op t d -> (k < length d)%nat ->
  d !! k = t !! (Z.to_nat (offset op) + k `mod` (length t - Z.to_nat (offset op)))%nat.
Proof.
  intros Ha Hv. apply target_copy_periodic; [done|]. unfold op_valid in Hv.
  rewrite Ha, !andb_true_iff, !Z.leb_le, Z.ltb_lt in Hv. lia.
Qed.

(** The window handler of [svn_txdelta_apply] over any stream of valid
    windows whose source views slide forward without a gap: every window is
    applied to the bytes of its own source view, although the source is read
    once, sequentially, and the target stream receives the concatenation of
    the target views. *)
Theorem apply_stream_correct {S T} (fs : stream_fns S) (ft : stream_fns T)
    `{!ReadableStream fs} `{!WritableStream ft} src ws bs bt :
  Z.of_nat (length src) < two63 ->
  Forall (λ w, window_ranges w /\ window_valid w = true) ws ->
  views_slide (Z.of_nat (length src)) 0 0 ws ->
  stream_delivers bs src -> stream_written bt = [] ->
  exists ab ts bt', apply_windows (Some <$> ws)
      (svn_txdelta_apply (mk_stream bs fs) (mk_stream bt ft)) = (Ok tt, ab) /\
    Forall2 (λ w t, apply_instructions w (sub src (sview_offset w) (sview_len w)) = Ok t) ws ts /\
    ab_target ab = mk_stream bt' ft /\ stream_written bt' = concat ts.
Proof.
  intros Hsrc Hws Hsl Hs Ht.
  destruct (apply_windows_ok fs ft src ws 0 0 [] _ Hsrc Hws Hsl
    (svn_txdelta_apply_inv fs ft src bs bt Hs Ht)) as (ab & ts & off & len & -> & Hts & Hinv).
  destruct Hinv as [_ (bt' & Hbt & Hw) _ _ _]. by exists ab, ts, bt'.
Qed.

(** Two windows that copy their source views, with a gap between the views:
    the second view starts at 4, after the first one ended at 2. *)
Definition gap_windows : list svn_txdelta_window_t :=
  [mk_window 0 2 2 [mk_op svn_txdelta_source 0 2] [];
   mk_window 4 2 2 [mk_op svn_txdelta_source 0 2] []].

(** A defect: when the source view of a window starts beyond the end of the
    previous one (allowed by [svn_delta.h], which only asks views to slide
    forward), [apply_window] reads the skipped bytes instead of the view, and
    silently produces a wrong target: two valid windows that should give ["ab"]
    and ["ef"] out of ["abcdef"] give ["abcd"]. *)
Theorem apply_window_gap :
  forallb window_valid gap_windows = true /\
  (λ w, apply_instructions w (sub (bstr "abcdef") (sview_offset w) (sview_len w))) <$> gap_windows
    = [Ok (bstr "ab"); Ok (bstr "ef")] /\
  let '(r, ab) := apply_windows (Some <$> gap_windows)
    (svn_txdelta_apply (mk_stream (bstr "abcdef") mem_reader) (mk_stream [] mem_writer)) in
  r = Ok tt /\ baton (ab_target ab) = bstr "abcd".
Proof. split_and!; [reflexivity|reflexivity|]. vm_compute. by split. Qed.

(** [svn_txdelta_send_string] followed by the applicator is a copy: whatever
    the source, the target receives the string, and the handler succeeds. *)
Theorem send_string_correct {S T} (fs : stream_fns S) (ft : stream_fns T)
    `{!WritableStream ft} str bs bt :
  Z.of_nat (length str) < two63 -> stream_written bt = [] ->
  exists ab bt', apply_windows (svn_txdelta_send_string str)
      (svn_txdelta_apply (mk_stream bs fs) (mk_stream bt ft)) = (Ok tt, ab) /\
    ab_target ab = mk_stream bt' ft /\ stream_written bt' = str.
Proof.
  intros Hlen Ht. unfold svn_txdelta_send_string. unfold apply_windows; cbn [push_windows].
  set (w := mk_window _ _ _ _ _).
  assert (apply_instructions w [] = Ok str) as Hins.
  { unfold apply_instructions, w. cbn [ops apply_ops]. unfold apply_op.
    cbn [offset length_ action_code tview_len new_data length].
    change (Z.of_nat 0) with 0. rewrite Z.add_0_l.
    rewrite size_t_small by (unfold two63, two64 in *; lia). rewrite Z.leb_refl.
    destruct (Z.leb_spec 0 (Z.of_nat (length str))); [|lia].
    rewrite rd_sub_ok by lia. rewrite Nat2Z.id, drop_0, firstn_all.
    cbn [andb c_assert mbind outcome_bind apply_ops]. change (0 <=? 0) with true.
    cbn [andb c_assert mbind outcome_bind apply_ops]. by rewrite Z.eqb_refl. }
  set (ab := svn_txdelta_apply (mk_stream bs fs) (mk_stream bt ft)).
  assert (fill_source w (slide_source w (mk_ab (ab_source ab) (ab_target ab) (sbuf ab)
    (sbuf_size ab) (sbuf_offset ab) (size_buffer (tbuf_size ab) (tview_len w))))
    = (Ok tt, mk_ab (mk_stream bs fs) (mk_stream bt ft) [] 0 0
        (size_buffer 0 (tview_len w)))) as Hfill by reflexivity.
  unfold apply_windows; cbn [push_windows]. unfold apply_window at 1. rewrite Hfill.
  replace (_ && _) with true by reflexivity. cbn [sbuf ab_target]. rewrite Hins.
  destruct (stream_write_ok bt str) as (bt1 & -> & H1).
  cbn [apply_window ab_target]. destruct (stream_close_ok bt1) as (bt2 & -> & H2).
  eexists _, bt2. split_and!; [done..|]. by rewrite H2, H1, Ht.
Qed.

(** ** Witnesses *)

Definition sample_window : svn_txdelta_window_t :=
  mk_window 0 3 10 [mk_op svn_txdelta_source 1 2; mk_op svn_txdelta_new 0 1;
                    mk_op svn_txdelta_target 1 7] (bstr "x").

Lemma sample_window_ranges : window_ranges sample_window.
Proof. split_and!; repeat constructor; done. Qed.

Lemma apply_instructions_correct_witness :
  apply_instructions sample_window (bstr "abc") = Ok (bstr "bcxcxcxcxc") /\
  if window_valid sample_window
  then exists t, apply_instructions sample_window (bstr "abc") = Ok t /\
         ops_append sample_window (bstr "abc") (ops sample_window) [] t /\
         Z.of_nat (length t) = tview_len sample_window
  else apply_instructions sample_window (bstr "abc") = Abort.
Proof.
  split; [reflexivity|]. apply (apply_instructions_correct sample_window (bstr "abc")).
  - apply sample_window_ranges.
  - done.
Defined.

Lemma target_copy_repeats_witness :
  bstr "cxcxcxc" !! 4%nat = bstr "bcx" !! (1 + 4 `mod` (3 - 1))%nat.
Proof.
  apply (target_copy_repeats sample_window (bstr "abc") (mk_op svn_txdelta_target 1 7)
           (bstr "bcx") (bstr "cxcxcxc") 4).
  - reflexivity.
  - reflexivity.
  - split; [reflexivity|]. intros k Hk. simpl in *.
    do 7 (destruct k as [|k]; [reflexivity|]). lia.
  - simpl. lia.
Defined.

Lemma apply_stream_correct_witness :
  exists ab ts bt', apply_windows (Some <$> [sample_window])
      (svn_txdelta_apply (mk_stream (bstr "abc") mem_reader) (mk_stream [] mem_writer))
      = (Ok tt, ab) /\
    Forall2 (λ w t, apply_instructions w
      (sub (bstr "abc") (sview_offset w) (sview_len w)) = Ok t) [sample_window] ts /\
    ab_target ab = mk_stream bt' mem_writer /\ stream_written bt' = concat ts.
Proof.
  apply (apply_stream_correct mem_reader mem_writer (bstr "abc") [sample_window]).
  - reflexivity.
  - repeat constructor; apply sample_window_ranges || done.
  - simpl. lia.
  - reflexivity.
  - reflexivity.
Defined.

Lemma send_string_correct_witness :
  exists ab bt', apply_windows (svn_txdelta_send_string (bstr "hello"))
      (svn_txdelta_apply (mk_stream (bstr "abc") mem_reader) (mk_stream [] mem_writer))
      = (Ok tt, ab) /\
    ab_target ab = mk_stream bt' mem_writer /\ stream_written bt' = bstr "hello".
Proof. apply (send_string_correct mem_reader mem_writer); reflexivity. Defined.
