(* ===== verification/Vdelta.v ===== *)
(** * The vdelta generator ([libsvn_delta/vdelta.c])

    The block-matching delta generator: the multimap from four-byte keys to
    positions, the search for the longest match, and the main loop.  Pointers
    into the data window are indices; every read of the window, of the buckets
    and of the slots goes through [rd], so that leaving an array is [Undef]. *)

From S2P Require Import Prelude Stream TextDelta.

Definition VD_KEY_SIZE : nat := 4.

(** ** The hash table *)

(** A [hash_slot_t *] is the index of the slot in [slots], or [None] for the
    null pointer; a slot holds its [next] pointer. *)
Record hash_table_t := mk_table {
  num_buckets : Z;
  buckets : list (option nat);
  slots : list (option nat);
}.

Definition create_hash_table (num_slots : nat) : hash_table_t :=
  let n := int_t (Z.lor (Z.of_nat num_slots / 3) 1) in
  mk_table n (replicate (Z.to_nat n) None) (replicate num_slots None).

(** The hash of the [n] bytes at [key]; [char] is signed and the arithmetic is
    that of [apr_uint32_t]. *)
Fixpoint hash_key (data : bytes) (key n : nat) (hash : Z) : outcome Z :=
  match n with
  | O => Ok hash
  | S n => c ← rd data key; hash_key data (S key) n ((hash * 127 + bsz c) mod 2 ^ 32)
  end.

Definition get_bucket (table : hash_table_t) (data : bytes) (key : nat) : outcome nat :=
  hash ← hash_key data key VD_KEY_SIZE 0;
  Ok (Z.to_nat (hash mod (num_buckets table mod 2 ^ 32))).

Definition store_mapping (table : hash_table_t) (data : bytes) (key idx : nat) :
    outcome hash_table_t :=
  bucket ← get_bucket table data key;
  next ← rd (slots table) idx;
  _ ← c_assert (bool_decide (next = None));
  head ← rd (buckets table) bucket;
  Ok (mk_table (num_buckets table) (<[bucket := Some idx]> (buckets table))
        (<[idx := head]> (slots table))).

(** ** Matching *)

(** [end_ - here] iterations at most; the result is returned as an [int] and
    stored in an [apr_size_t]. *)
Fixpoint find_match_loop (data : bytes) (n match_ here : nat) : outcome nat :=
  match n with
  | O => Ok O
  | S n =>
      a ← rd data match_; b ← rd data here;
      if byte_eq_dec a b then k ← find_match_loop data n (S match_) (S here); Ok (S k)
      else Ok O
  end.

Definition find_match_len (data : bytes) (match_ from end_ : nat) : outcome nat :=
  len ← find_match_loop data (end_ - from) match_ from;
  Ok (Z.to_nat (size_t (int_t (Z.of_nat len)))).

(** The state of the search at one position: the best match so far, its length
    ([current_match] is meaningful when the length is not 0), and whether the
    current chain improved it. *)
Record search_state := mk_search {
  current_match : nat;
  current_match_len : nat;
  progress : bool;
}.

(** The loop over the slots of one chain; a chain that has not ended after
    [fuel] slots is [Undef]. *)
Fixpoint scan_chain (fuel : nat) (table : hash_table_t) (data : bytes)
    (start here end_ key : nat) (slot : option nat) (st : search_state) :
    outcome search_state :=
  match slot with
  | None => Ok st
  | Some idx =>
      match fuel with
      | O => Undef
      | S fuel =>
          next ← rd (slots table) idx;
          if (idx <? key - here)%nat then
            scan_chain fuel table data start here end_ key next st
          else
            let match_ := (idx - (key - here))%nat in
            match_len ← find_match_len data match_ here end_;
            let match_len :=
              if (match_ <? start)%nat && (start <? match_ + match_len)%nat
              then (start - match_)%nat else match_len in
            let st :=
              if (VD_KEY_SIZE <=? match_len)%nat && (current_match_len st <? match_len)%nat
              then mk_search match_ match_len true else st in
            scan_chain fuel table data start here end_ key next st
      end
  end.

(** The [do]/[while] loop that extends the match: [progress] in the result is
    that of the last chain. *)
Fixpoint search (fuel : nat) (table : hash_table_t) (data : bytes)
    (start here end_ key : nat) (st : search_state) : outcome search_state :=
  match fuel with
  | O => Undef
  | S fuel =>
      bucket ← get_bucket table data key;
      slot ← rd (buckets table) bucket;
      st ← scan_chain (S (length (slots table))) table data start here end_ key slot
             (mk_search (current_match st) (current_match_len st) false);
      let key :=
        if progress st then (here + current_match_len st - (VD_KEY_SIZE - 1))%nat else key in
      if progress st && (VD_KEY_SIZE <=? end_ - key)%nat
      then search fuel table data start here end_ key st
      else Ok st
  end.

(** ** The generator *)

(** Insert mappings for positions [last] to [last + n - 1]. *)
Fixpoint store_mappings (table : hash_table_t) (data : bytes) (last n : nat) :
    outcome hash_table_t :=
  match n with
  | O => Ok table
  | S n => table ← store_mapping table data last last; store_mappings table data (S last) n
  end.

Definition ptr_diff (a b : nat) : Z := Z.of_nat (a - b).

Fixpoint vdelta_loop (fuel : nat) (bob : build_ops_baton_t) (data : bytes)
    (start end_ : nat) (outputflag : bool) (table : hash_table_t)
    (here : nat) (insert_from : option nat) :
    outcome (build_ops_baton_t * hash_table_t) :=
  match fuel with
  | O => Undef
  | S fuel =>
      if (end_ - here <? VD_KEY_SIZE)%nat then
        let from := default here insert_from in
        Ok (if outputflag && (from <? end_)%nat
            then svn_txdelta__insert_op bob svn_txdelta_new 0 (ptr_diff end_ from) (drop from data)
            else bob, table)
      else
        st ← search (S end_) table data start here end_ here (mk_search 0 0 false);
        if (current_match_len st <? VD_KEY_SIZE)%nat then
          table ← store_mapping table data here here;
          vdelta_loop fuel bob data start end_ outputflag table (S here)
            (Some (default here insert_from))
        else
          let '(bob, insert_from) :=
            if outputflag then
              let bob :=
                match insert_from with
                | Some from =>
                    svn_txdelta__insert_op bob svn_txdelta_new 0 (ptr_diff here from)
                      (drop from data)
                | None => bob
                end in
              (if (current_match st <? start)%nat
               then svn_txdelta__insert_op bob svn_txdelta_source
                      (ptr_diff (current_match st) 0) (Z.of_nat (current_match_len st)) []
               else svn_txdelta__insert_op bob svn_txdelta_target
                      (ptr_diff (current_match st) start) (Z.of_nat (current_match_len st)) [],
               None)
            else (bob, insert_from) in
          let here := (here + current_match_len st)%nat in
          table ←
            (if (VD_KEY_SIZE <=? end_ - here)%nat
             then store_mappings table data (here - (VD_KEY_SIZE - 1)) (VD_KEY_SIZE - 1)
             else Ok table);
          vdelta_loop fuel bob data start end_ outputflag table here insert_from
  end.

Definition vdelta (bob : build_ops_baton_t) (data : bytes) (start end_ : nat)
    (outputflag : bool) (table : hash_table_t) : outcome (build_ops_baton_t * hash_table_t) :=
  vdelta_loop (S (end_ - start)) bob data start end_ outputflag table start None.

Definition svn_txdelta__vdelta (bob : build_ops_baton_t) (data : bytes)
    (source_len target_len : nat) : outcome build_ops_baton_t :=
  let table := create_hash_table (source_len + target_len) in
  '(bob, table) ← vdelta bob data 0 source_len false table;
  '(bob, _) ← vdelta bob data source_len (source_len + target_len) true table;
  Ok bob.

(** ** The hash table as a multimap

    [chain slots slot l]: following the slots from [slot] visits [l]. *)
Inductive chain (slots : list (option nat)) : option nat -> list nat -> Prop :=
  | chain_nil : chain slots None []
  | chain_cons i next l :
      slots !! i = Some next -> chain slots next l -> chain slots (Some i) (i :: l).

(** The table represents the positions [stored], latest first: the chain of
    every bucket holds exactly the stored positions whose key hashes there.
    Positions are stored in increasing order, [h] being the next free one. *)
Record table_rep (data : bytes) (n h : nat) (stored : list nat) (t : hash_table_t) : Prop := {
  rep_num : 0 < num_buckets t < 2 ^ 31;
  rep_buckets : length (buckets t) = Z.to_nat (num_buckets t);
  rep_slots : length (slots t) = n;
  rep_stored : Forall (λ i, (i < h)%nat) stored /\ (length stored <= h <= n)%nat;
  rep_chain : forall b, (b < length (buckets t))%nat -> exists head,
    buckets t !! b = Some head /\
    chain (slots t) head (filter (λ i, get_bucket t data i = Ok b) stored);
  rep_free : forall i, (h <= i < n)%nat -> slots t !! i = Some None;
}.

Lemma chain_insert sl slot l i x : chain sl slot l -> i ∉ l -> chain (<[i := x]> sl) slot l.
Proof.
  induction 1 as [|j next l Hj Hc IH]; intros Hi; [constructor|].
  apply not_elem_of_cons in Hi as [Hij Hi].
  apply chain_cons with next; [|by apply IH]. by rewrite list_lookup_insert_ne by done.
Qed.

Lemma num_buckets_range n :
  Z.of_nat n < 2 ^ 31 -> 0 < num_buckets (create_hash_table n) < 2 ^ 31.
Proof.
  intros Hn. unfold create_hash_table. simpl num_buckets.
  assert (0 <= Z.of_nat n / 3 < 2 ^ 30) as Hd
    by (split; [apply Z.div_pos; lia|apply Z.div_lt_upper_bound; lia]).
  assert (0 < Z.lor (Z.of_nat n / 3) 1 < 2 ^ 31) as Hr.
  { set (q := Z.of_nat n / 3) in *.
    assert (0 <= Z.lor q 1) by (apply Z.lor_nonneg; lia).
    assert (Z.lor q 1 <> 0) by (intros [_ Hz]%Z.lor_eq_0_iff; lia).
    split; [lia|]. apply Z.log2_lt_pow2; [lia|]. rewrite Z.log2_lor by lia.
    apply Z.max_lub_lt; [|reflexivity]. destruct (decide (q = 0)) as [->|]; [done|].
    apply Z.log2_lt_pow2; lia. }
  unfold int_t. rewrite Z.mod_small by lia. lia.
Qed.

Lemma create_hash_table_rep data n :
  Z.of_nat n < 2 ^ 31 -> table_rep data n 0 [] (create_hash_table n).
Proof.
  intros Hn. constructor.
  - by apply num_buckets_range.
  - simpl. by rewrite length_replicate.
  - simpl. by rewrite length_replicate.
  - split; [constructor|simpl; lia].
  - simpl. rewrite length_replicate. intros b Hb. exists None. split; [|constructor].
    by apply lookup_replicate.
  - intros i Hi. simpl. apply lookup_replicate. split; [done|lia].
Qed.

Lemma hash_key_ok data key n hash :
  (key + n <= length data)%nat -> 0 <= hash -> exists v, hash_key data key n hash = Ok v /\ 0 <= v.
Proof.
  revert key hash. induction n as [|n IH]; intros key hash Hk Hh; simpl; [by exists hash|].
  destruct (lookup_lt_is_Some_2 data key ltac:(lia)) as [c Hc].
  unfold rd. rewrite Hc. apply IH; [lia|]. apply Z.mod_pos_bound. lia.
Qed.

Lemma get_bucket_ok t data key :
  (key + VD_KEY_SIZE <= length data)%nat -> 0 < num_buckets t < 2 ^ 31 ->
  exists b, get_bucket t data key = Ok b /\ (b < Z.to_nat (num_buckets t))%nat.
Proof.
  intros Hk Hn. unfold get_bucket.
  destruct (hash_key_ok data key VD_KEY_SIZE 0 Hk) as (v & -> & Hv); [lia|].
  eexists. split; [done|]. rewrite (Z.mod_small (num_buckets t)) by lia.
  pose proof (Z.mod_pos_bound v (num_buckets t) ltac:(lia)). lia.
Qed.

Lemma hash_key_ext data i j n hash :
  (forall k, (k < n)%nat -> data !! (i + k)%nat = data !! (j + k)%nat) ->
  hash_key data i n hash = hash_key data j n hash.
Proof.
  revert i j hash. induction n as [|n IH]; intros i j hash H; [done|]. simpl. unfold rd.
  rewrite <- (Nat.add_0_r i) at 1. rewrite H, Nat.add_0_r by lia.
  destruct (data !! j); [|done]. cbn. apply IH. intros k Hk.
  specialize (H (S k) ltac:(lia)). by rewrite <- !plus_n_Sm in H.
Qed.

(** Equal keys share a bucket. *)
Lemma get_bucket_ext t data i j :
  (forall k, (k < VD_KEY_SIZE)%nat -> data !! (i + k)%nat = data !! (j + k)%nat) ->
  get_bucket t data i = get_bucket t data j.
Proof. intros H. unfold get_bucket. by rewrite (hash_key_ext data i j _ _ H). Qed.

Lemma store_mapping_ok data n h stored t idx :
  table_rep data n h stored t -> (h <= idx < n)%nat ->
  (idx + VD_KEY_SIZE <= length data)%nat ->
  exists t', store_mapping t data idx idx = Ok t' /\
    table_rep data n (S idx) (idx :: stored) t'.
Proof.
  intros [Hn Hb Hs [Hst Hlen] Hc Hf] Hi Hd.
  destruct (get_bucket_ok t data idx Hd Hn) as (b & Eb & Hlt).
  unfold store_mapping. rewrite Eb. cbn [mbind outcome_bind]. unfold rd.
  rewrite Hf by done. cbn [mbind outcome_bind]. rewrite bool_decide_true by done.
  destruct (Hc b ltac:(lia)) as (head & Ehead & Hchain). cbn [c_assert mbind outcome_bind].
  rewrite Ehead. eexists. split; [done|]. constructor; simpl.
  - done.
  - by rewrite length_insert.
  - by rewrite length_insert.
  - split; [|lia]. constructor; [lia|]. eapply Forall_impl; [|done]. simpl. lia.
  - rewrite length_insert. intros b' Hb'.
    assert (forall l, filter (λ i, get_bucket (mk_table (num_buckets t) (<[b:=Some idx]> (buckets t))
      (<[idx:=head]> (slots t))) data i = Ok b') l =
      filter (λ i, get_bucket t data i = Ok b') l) as -> by done.
    assert (idx ∉ stored) as Hfresh.
    { intros Hin. rewrite Forall_forall in Hst. apply list_elem_of_In in Hin. specialize (Hst _ Hin). lia. }
    assert (forall b, idx ∉ filter (λ i, get_bucket t data i = Ok b) stored)
      by (intros b0 [_ Hin]%list_elem_of_filter; by apply Hfresh).
    rewrite filter_cons. destruct (decide (get_bucket t data idx = Ok b')) as [E|E].
    + rewrite Eb in E. injection E as <-. exists (Some idx).
      rewrite list_lookup_insert_eq by done. split; [done|]. apply chain_cons with head.
      * apply list_lookup_insert_eq. lia.
      * by apply chain_insert.
    + rewrite list_lookup_insert_ne by congruence.
      destruct (Hc b' Hb') as (head' & Eh & Hch). exists head'. split; [done|].
      by apply chain_insert.
  - intros i Hi'. rewrite list_lookup_insert_ne by lia. apply Hf. lia.
Qed.

Lemma store_mappings_ok data n h stored t last k :
  table_rep data n h stored t -> (h <= last)%nat -> (last + k <= n)%nat ->
  (last + k + 3 <= length data)%nat ->
  exists t' stored', store_mappings t data last k = Ok t' /\
    table_rep data n (if (k =? 0)%nat then h else last + k)%nat (stored' ++ stored) t'.
Proof.
  revert h stored t last. induction k as [|k IH]; intros h stored t last Ht Hh Hk Hd; simpl.
  - exists t, []. split_and!; done.
  - destruct (store_mapping_ok data n h stored t last Ht) as (t1 & -> & Ht1);
      [lia|unfold VD_KEY_SIZE; lia|]. cbn.
    destruct (IH (S last) (last :: stored) t1 (S last) Ht1) as (t' & st' & -> & Ht'); [lia..|].
    exists t', (st' ++ [last]). split; [done|]. rewrite <- app_assoc. simpl.
    destruct (Nat.eqb_spec k 0).
    + subst. by replace (last + 1)%nat with (S last) by lia.
    + by replace (last + S k)%nat with (S last + k)%nat by lia.
Qed.

(** ** Matching *)

(** The longest common prefix. *)
Fixpoint lcp (l1 l2 : bytes) : nat :=
  match l1, l2 with
  | a :: l1, b :: l2 => if byte_eq_dec a b then S (lcp l1 l2) else O
  | _, _ => O
  end.

Lemma lcp_lookup l1 l2 k : (k < lcp l1 l2)%nat -> l1 !! k = l2 !! k.
Proof.
  revert l2 k. induction l1 as [|a l1 IH]; intros [|b l2] k; simpl; try lia.
  destruct (byte_eq_dec a b) as [->|]; [|lia]. destruct k; [done|]. intros. simpl. apply IH. lia.
Qed.

Lemma lcp_length l1 l2 : (lcp l1 l2 <= length l2)%nat.
Proof.
  revert l2. induction l1 as [|a l1 IH]; intros [|b l2]; simpl; try lia.
  destruct (byte_eq_dec a b); [|lia]. specialize (IH l2). lia.
Qed.

(** The length of the match between positions [m] and [here], up to [end_]. *)
Definition match_length (data : bytes) (m here end_ : nat) : nat :=
  lcp (drop m data) (take (end_ - here) (drop here data)).

Lemma match_length_le data m here end_ : (match_length data m here end_ <= end_ - here)%nat.
Proof. unfold match_length. pose proof (lcp_length (drop m data) (take (end_ - here) (drop here data))).
  rewrite length_take in *. lia. Qed.

Lemma match_length_lookup data m here end_ k :
  (k < match_length data m here end_)%nat -> data !! (m + k)%nat = data !! (here + k)%nat.
Proof.
  intros Hk. pose proof (match_length_le data m here end_).
  pose proof (lcp_lookup _ _ _ Hk) as E. rewrite lookup_take_lt in E by lia.
  by rewrite !lookup_drop in E.
Qed.

Lemma find_match_loop_ok data n m here :
  (m < here)%nat -> (here + n <= length data)%nat ->
  find_match_loop data n m here = Ok (lcp (drop m data) (take n (drop here data))).
Proof.
  revert m here. induction n as [|n IH]; intros m here Hm Hn.
  { simpl. by destruct (drop m data). }
  simpl. destruct (lookup_lt_is_Some_2 data m ltac:(lia)) as [a Ha].
  destruct (lookup_lt_is_Some_2 data here ltac:(lia)) as [b Hb].
  unfold rd. rewrite Ha, Hb. cbn [mbind outcome_bind].
  rewrite (drop_S _ _ _ Ha), (drop_S _ _ _ Hb). simpl.
  destruct (byte_eq_dec a b); [|done]. rewrite IH by lia. done.
Qed.

Lemma find_match_len_ok data m here end_ :
  (m < here <= end_)%nat -> (end_ <= length data)%nat -> Z.of_nat (length data) < 2 ^ 31 ->
  find_match_len data m here end_ = Ok (match_length data m here end_).
Proof.
  intros Hm He Hd. unfold find_match_len. rewrite find_match_loop_ok by lia.
  cbn [mbind outcome_bind]. fold (match_length data m here end_).
  pose proof (match_length_le data m here end_). unfold int_t.
  rewrite Z.mod_small by lia. rewrite size_t_small by (unfold two64; lia). f_equal. lia.
Qed.

(** The match that the candidate [idx] gives for the key at [key]: where it
    starts, and its length, cut where the target begins. *)
Definition candidate_length (data : bytes) (start here end_ m : nat) : nat :=
  let len := match_length data m here end_ in
  if (m <? start)%nat && (start <? m + len)%nat then (start - m)%nat else len.

Definition consider (data : bytes) (start here end_ key : nat) (st : search_state) (idx : nat) :
    search_state :=
  if (idx <? key - here)%nat then st else
  let m := (idx - (key - here))%nat in
  let len := candidate_length data start here end_ m in
  if (VD_KEY_SIZE <=? len)%nat && (current_match_len st <? len)%nat
  then mk_search m len true else st.

Section search.
Context (data : bytes) (start here end_ : nat).
Context (Hstart : (start <= here <= end_)%nat) (Hend : (end_ <= length data)%nat).
Context (Hsmall : Z.of_nat (length data) < 2 ^ 31).

(** The loop over a chain is a fold over the positions of the chain. *)
Lemma scan_chain_ok fuel t key slot l st :
chain (slots t) slot l -> Forall (λ i, (i < here)%nat) l -> (length l <= fuel)%nat ->
scan_chain fuel t data start here end_ key slot st =
Ok (foldl (consider data start here end_ key) st l).
Proof.
intros Hc. revert fuel st. induction Hc as [|i next l Hi Hc IH]; intros fuel st Hl Hf.
{ by destruct fuel. }
apply Forall_cons_iff in Hl as [Hih Hl]. simpl in Hf. destruct fuel as [|fuel]; [lia|].
simpl. unfold rd. rewrite Hi. cbn [mbind outcome_bind]. unfold consider at 2.
destruct (Nat.ltb_spec i (key - here)); [apply IH; [done|lia]|].
rewrite find_match_len_ok by lia. cbn [mbind outcome_bind]. apply IH; [done|lia].
Qed.

(** What a search state is entitled to claim. *)
Definition good_match (st : search_state) : Prop :=
current_match_len st = 0%nat \/
((VD_KEY_SIZE <= current_match_len st)%nat /\ (current_match st < here)%nat /\
 (here + current_match_len st <= end_)%nat /\
 ((current_match st < start)%nat -> (current_match st + current_match_len st <= start)%nat) /\
 forall k, (k < current_match_len st)%nat ->
 data !! (current_match st + k)%nat = data !! (here + k)%nat).

Lemma candidate_length_le m :
(candidate_length data start here end_ m <= match_length data m here end_)%nat.
Proof. unfold candidate_length. destruct (_ && _) eqn:E; [|done].
apply andb_true_iff in E as [_ E%Nat.ltb_lt]. lia. Qed.

Lemma consider_good key st i :
(i < here)%nat -> good_match st -> good_match (consider data start here end_ key st i).
Proof.
intros Hi Hg. unfold consider. destruct (Nat.ltb_spec i (key - here)); [done|].
destruct (_ && _) eqn:E; [|done]. right. set (m := (i - (key - here))%nat) in *.
apply andb_true_iff in E as [E1%Nat.leb_le _]. simpl.
pose proof (candidate_length_le m). pose proof (match_length_le data m here end_).
split_and!; [done|lia|lia| |].
- intros Hm. unfold candidate_length in *.
destruct (Nat.ltb_spec m start); [|lia].
destruct (Nat.ltb_spec start (m + match_length data m here end_)); simpl in *; lia.
- intros k Hk. apply match_length_lookup with end_. lia.
Qed.

Lemma consider_grows key st i :
(current_match_len st <= current_match_len (consider data start here end_ key st i))%nat /\
(progress (consider data start here end_ key st i) = progress st /\
 current_match_len (consider data start here end_ key st i) = current_match_len st \/
 progress (consider data start here end_ key st i) = true /\
 (current_match_len st < current_match_len (consider data start here end_ key st i))%nat).
Proof.
unfold consider. destruct (_ <? _)%nat; [auto|]. destruct (_ && _) eqn:E; [|auto].
apply andb_true_iff in E as [_ E%Nat.ltb_lt]. simpl. split; [lia|]. right. auto.
Qed.

(** The best of a chain: valid, at least as long as before and as every
candidate, strictly longer when it reports progress. *)
Lemma scan_good key st l :
Forall (λ i, (i < here)%nat) l -> good_match st -> progress st = false ->
let st' := foldl (consider data start here end_ key) st l in
good_match st' /\ (current_match_len st <= current_match_len st')%nat /\
(progress st' = true -> (current_match_len st < current_match_len st')%nat) /\
forall i, i ∈ l -> (key - here <= i)%nat ->
let len := candidate_length data start here end_ (i - (key - here)) in
(VD_KEY_SIZE <= len)%nat -> (len <= current_match_len st')%nat.
Proof.
intros Hl Hg Hp. cbn zeta.
induction l as [|i l IH] using rev_ind.
{ simpl. split_and!; [done|done|congruence|]. intros i Hi. by apply elem_of_nil in Hi. }
apply Forall_app in Hl as [Hl Hi]. apply Forall_cons_iff in Hi as [Hi _].
destruct (IH Hl) as (Hg' & Hge & Hpr & Hbest). rewrite foldl_snoc.
set (st1 := foldl _ st l) in *.
destruct (consider_grows key st1 i) as [Hgrow Hcase].
split_and!; [by apply consider_good|lia| |].
- intros Hp'. destruct Hcase as [[E1 E2]|[_ E]]; [|lia]. rewrite E2. apply Hpr. congruence.
- intros j Hj Hkj Hlen. apply elem_of_app in Hj as [Hj|Hj].
{ specialize (Hbest j Hj Hkj Hlen). lia. }
apply list_elem_of_singleton in Hj as ->. unfold consider.
destruct (Nat.ltb_spec i (key - here)); [lia|].
destruct (Nat.leb_spec VD_KEY_SIZE (candidate_length data start here end_ (i - (key - here)))); [|lia].
simpl. destruct (Nat.ltb_spec (current_match_len st1)
  (candidate_length data start here end_ (i - (key - here)))); simpl; lia.
Qed.

Lemma search_ok fuel t n stored key st :
table_rep data n here stored t -> good_match st ->
(here <= key)%nat -> (key + VD_KEY_SIZE <= end_)%nat ->
(end_ < here + current_match_len st + fuel)%nat ->
exists st', search fuel t data start here end_ key st = Ok st' /\ good_match st' /\
(current_match_len st <= current_match_len st')%nat /\
forall i, i ∈ stored -> get_bucket t data i = get_bucket t data key ->
  (key - here <= i)%nat ->
  let len := candidate_length data start here end_ (i - (key - here)) in
  (VD_KEY_SIZE <= len)%nat -> (len <= current_match_len st')%nat.
Proof.
intros Ht. revert key st. induction fuel as [|fuel IH]; intros key st Hg Hk Hke Hf.
{ exfalso. destruct Hg as [Hg|(? & ? & ? & _)]; unfold VD_KEY_SIZE in *; lia. }
cbn [search]. destruct Ht as [Hn Hb Hs [Hst Hlen] Hc Hfree] eqn:Et. clear Et.
destruct (get_bucket_ok t data key ltac:(lia) Hn) as (b & Eb & Hlt). rewrite Eb.
cbn [mbind outcome_bind]. destruct (Hc b ltac:(lia)) as (head & Eh & Hch).
unfold rd. rewrite Eh. cbn [mbind outcome_bind].
set (l := filter _ stored) in *.
assert (Forall (λ i, (i < here)%nat) l) as Hl
by (apply Forall_forall; intros i Hi; apply list_elem_of_In, list_elem_of_filter in Hi as [_ Hi];
    rewrite Forall_forall in Hst; by apply Hst, list_elem_of_In).
assert (length l <= length stored)%nat as Hll by apply length_filter.
rewrite (scan_chain_ok _ t key head l _ Hch Hl) by lia. cbn [mbind outcome_bind].
set (st0 := mk_search (current_match st) (current_match_len st) false).
destruct (scan_good key st0 l Hl Hg eq_refl) as (Hg' & Hge & Hpr & Hbest).
set (st1 := foldl _ st0 l) in *. change (current_match_len st0) with (current_match_len st) in *.
assert (forall i, i ∈ stored -> get_bucket t data i = Ok b -> (key - here <= i)%nat ->
let len := candidate_length data start here end_ (i - (key - here)) in
(VD_KEY_SIZE <= len)%nat -> (len <= current_match_len st1)%nat) as Hb1.
{ intros i Hi Hbi. apply Hbest. by apply list_elem_of_filter. }
destruct (progress st1) eqn:Ep; cbn [andb].
- specialize (Hpr eq_refl).
destruct (Nat.leb_spec VD_KEY_SIZE (end_ - (here + current_match_len st1 - (VD_KEY_SIZE - 1)))) as [Hgo|Hstop].
+ destruct (IH (here + current_match_len st1 - (VD_KEY_SIZE - 1))%nat st1 Hg') as (st' & -> & Hg'' & Hge' & _).
  * destruct Hg' as [Hg'|(? & _)]; unfold VD_KEY_SIZE in *; lia.
  * destruct Hg' as [Hg'|(? & ? & ? & _)]; unfold VD_KEY_SIZE in *; lia.
  * lia.
  * exists st'. split_and!; [done|done|lia|]. intros i Hi Hbi Hki H4.
    specialize (Hb1 i Hi Hbi Hki H4). lia.
+ exists st1. by split_and!.
- exists st1. by split_and!.
Qed.
End search.

(** ** The generator *)

Lemma table_rep_later data n h h' stored t :
  table_rep data n h stored t -> (h <= h' <= n)%nat -> table_rep data n h' stored t.
Proof.
  intros [Hn Hb Hs [Hst Hlen] Hc Hf] Hh. constructor; try done.
  - split; [|lia]. eapply Forall_impl; [|done]. simpl. lia.
  - intros i Hi. apply Hf. lia.
Qed.

(** The bytes of [data] from [a] to [b]. *)
Definition seg (data : bytes) (a b : nat) : bytes := take (b - a) (drop a data).

Lemma seg_length data a b : (a <= b <= length data)%nat -> length (seg data a b) = (b - a)%nat.
Proof. intros. unfold seg. rewrite length_take, length_drop. lia. Qed.

Lemma seg_app data a b c :
  (a <= b <= c)%nat -> seg data a b ++ seg data b c = seg data a c.
Proof.
  intros. unfold seg. replace (c - a)%nat with ((b - a) + (c - b))%nat by lia.
  replace (drop b data) with (drop (b - a) (drop a data)) by (rewrite drop_drop; f_equal; lia).
  apply take_take_drop.
Qed.

Lemma seg_lookup data a b k :
  (k < b - a)%nat -> seg data a b !! k = data !! (a + k)%nat.
Proof. intros. unfold seg. rewrite lookup_take_lt by done. by rewrite lookup_drop. Qed.

(** Copies are at least as long as a key, and insertions are not empty. *)
Definition worthwhile (op : svn_txdelta_op_t) : bool :=
  match action_code op with
  | svn_txdelta_new => 1 <=? length_ op
  | _ => Z.of_nat VD_KEY_SIZE <=? length_ op
  end.

Ltac solve_op :=
  unfold worthwhile, op_ranges, VD_KEY_SIZE, two63 in *; simpl; rewrite ?Z.leb_le; lia.

Section generator.
Context (data : bytes) (start end_ : nat).
Context (Hrange : (start <= end_ <= length data)%nat).
Context (Hsmall : Z.of_nat (length data) < 2 ^ 31).

(** The instructions collected so far produce the target up to [from]; nothing
  is collected when there is no output. *)
Definition out_inv (outputflag : bool) (bob0 bob : build_ops_baton_t) (from : nat) : Prop :=
if outputflag then
  bob_gives (take start data) bob (seg data start from) /\
  (length (b_new_data bob) <= from - start)%nat /\
  Forall (λ op, worthwhile op = true /\ op_ranges op) (b_ops bob) /\ bob_consecutive bob
else bob = bob0.

Lemma out_inv_insert bob0 bob from to :
(start <= from < to)%nat -> (to <= end_)%nat ->
out_inv true bob0 bob from ->
out_inv true bob0 (svn_txdelta__insert_op bob svn_txdelta_new 0 (ptr_diff to from)
  (drop from data)) to.
Proof.
intros Hf Ht (Hg & Hn & Hw & Hcons). pose proof (seg_length data start from ltac:(lia)) as Hlen.
unfold out_inv, ptr_diff. split_and!.
- rewrite <- (seg_app data start from to) by lia. unfold seg at 2.
  replace (to - from)%nat with (Z.to_nat (Z.of_nat (to - from))) at 2 by lia.
  apply bob_gives_new; rewrite ?length_take, ?length_drop, ?Hlen; unfold two63; try done; lia.
- simpl. rewrite length_app, length_take. lia.
- simpl. apply Forall_app. split; [done|]. repeat constructor; solve_op.
- apply bob_consecutive_insert; [done|lia|rewrite length_drop; lia].
Qed.

Lemma out_inv_copy bob0 bob here st :
(start <= here)%nat -> good_match data start here end_ st ->
(VD_KEY_SIZE <= current_match_len st)%nat ->
out_inv true bob0 bob here ->
out_inv true bob0
  (if (current_match st <? start)%nat
   then svn_txdelta__insert_op bob svn_txdelta_source (ptr_diff (current_match st) 0)
          (Z.of_nat (current_match_len st)) []
   else svn_txdelta__insert_op bob svn_txdelta_target (ptr_diff (current_match st) start)
          (Z.of_nat (current_match_len st)) [])
  (here + current_match_len st)%nat.
Proof.
intros Hs [Hg|(_ & Hm & He & Hcut & Heq)] H4 (Hb & Hn & Hw & Hcons); [unfold VD_KEY_SIZE in *; lia|].
pose proof (seg_length data start here ltac:(lia)) as Hlen. unfold ptr_diff.
set (m := current_match st) in *. set (len := current_match_len st) in *.
assert (length (seg data here (here + len)) = len) as Hl2 by (rewrite seg_length; lia).
unfold out_inv. rewrite <- (seg_app data start here (here + len)) by lia.
destruct (Nat.ltb_spec m start) as [Hms|Hms].
- specialize (Hcut Hms). split_and!.
  + replace (seg data here (here + len))
      with (sub (take start data) (Z.of_nat (m - 0)) (Z.of_nat len)).
    { apply bob_gives_source; rewrite ?length_take, ?Hlen; unfold two63; try done; lia. }
    apply list_eq_same_length with len;
      [by rewrite Hl2|unfold sub; rewrite length_take, length_drop, length_take; lia|].
    intros k x y Hk. unfold sub. rewrite lookup_take_lt by lia.
    rewrite lookup_drop, lookup_take_lt by lia. rewrite seg_lookup by lia.
    rewrite <- Heq by lia. replace (Z.to_nat (Z.of_nat (m - 0)) + k)%nat with (m + k)%nat by lia.
    congruence.
  + simpl. lia.
  + simpl. apply Forall_app. split; [done|]. repeat constructor; solve_op.
  + by apply bob_consecutive_insert; [|lia|].
- split_and!.
  + apply bob_gives_target; rewrite ?length_take, ?Hlen, ?Hl2; unfold two63; try done; try lia.
    intros k Hk. rewrite seg_app by lia. rewrite !seg_lookup by lia. rewrite <- Heq by lia.
    f_equal. lia.
  + simpl. lia.
  + simpl. apply Forall_app. split; [done|]. repeat constructor; solve_op.
  + by apply bob_consecutive_insert; [|lia|].
Qed.

Lemma vdelta_loop_ok fuel flag n bob0 bob table here insert_from h stored :
table_rep data n h stored table -> (h <= here)%nat -> (end_ <= n)%nat ->
(start <= default here insert_from <= here)%nat -> (here <= end_)%nat ->
(forall from, insert_from = Some from -> (from < here)%nat) ->
out_inv flag bob0 bob (default here insert_from) -> (end_ < here + fuel)%nat ->
exists bob' table' h' stored',
  vdelta_loop fuel bob data start end_ flag table here insert_from = Ok (bob', table') /\
  table_rep data n h' stored' table' /\ (h' <= end_)%nat /\ out_inv flag bob0 bob' end_.
Proof.
revert bob table here insert_from h stored.
induction fuel as [|fuel IH]; intros bob table here insert_from h stored Ht Hh Hn Hfr He Hlt Hout Hf;
  [lia|].
cbn [vdelta_loop]. destruct (Nat.ltb_spec (end_ - here) VD_KEY_SIZE) as [Hnear|Hfar].
{ eexists _, table, h, stored. split_and!; [done|done|lia|].
  destruct flag; [|done]. cbn [andb].
  destruct (Nat.ltb_spec (default here insert_from) end_).
  - apply out_inv_insert; [lia|lia|done].
  - by replace end_ with (default here insert_from) by lia. }
destruct (search_ok data start here end_ ltac:(lia) ltac:(lia) Hsmall (S end_) table n stored here
  (mk_search 0 0 false)) as (st & -> & Hg & _).
{ eapply table_rep_later; [done|lia]. }
{ by left. }
{ lia. }
{ lia. }
{ simpl. lia. }
cbn [mbind outcome_bind].
destruct (Nat.ltb_spec (current_match_len st) VD_KEY_SIZE) as [Hno|Hyes].
- destruct (store_mapping_ok data n h stored table here Ht) as (t' & -> & Ht'); [lia|lia|].
  cbn [mbind outcome_bind]. eapply IH; [done|lia|lia|simpl;lia|lia| |done|lia].
  intros from [= <-]. lia.
- remember (here + current_match_len st)%nat as here' eqn:Ehere.
  assert (here' <= end_)%nat as He'.
  { destruct Hg as [Hg|(_ & _ & Hg & _)]; unfold VD_KEY_SIZE in *; lia. }
  assert (exists t' h' stored', (if (VD_KEY_SIZE <=? end_ - here')%nat
      then store_mappings table data (here' - (VD_KEY_SIZE - 1)) (VD_KEY_SIZE - 1)
      else Ok table) = Ok t' /\ table_rep data n h' stored' t' /\ (h' <= here')%nat)
    as (t' & h' & stored' & Et & Ht' & Hh').
  { destruct (Nat.leb_spec VD_KEY_SIZE (end_ - here')).
    - destruct (store_mappings_ok data n h stored table (here' - (VD_KEY_SIZE - 1))
        (VD_KEY_SIZE - 1) Ht) as (t' & st' & -> & Ht'); unfold VD_KEY_SIZE in *; try lia.
      eexists t', _, _. split_and!; [done|exact Ht'|]. simpl. lia.
    - eexists table, h, stored. split_and!; [done..|lia]. }
  destruct flag.
  + rewrite Et. cbn [mbind outcome_bind].
    eapply IH; [done|done|lia|simpl; lia|done|done| |unfold VD_KEY_SIZE in *; lia].
    cbn [default]. rewrite Ehere. apply out_inv_copy; [lia|done|done|].
    destruct insert_from as [from|]; [|done].
    apply (out_inv_insert bob0); [cbn in Hfr; specialize (Hlt from eq_refl); lia|lia|done].
  + rewrite Et. cbn [mbind outcome_bind].
    eapply IH; [done|done|lia| |done| |done|unfold VD_KEY_SIZE in *; lia].
    * destruct insert_from; simpl in *; lia.
    * intros from ->. specialize (Hlt from eq_refl). lia.
Qed.
End generator.

Lemma vdelta_ok src tgt :
  Z.of_nat (length src + length tgt) < 2 ^ 31 ->
  exists bob, svn_txdelta__vdelta bob_empty (src ++ tgt) (length src) (length tgt) = Ok bob /\
    bob_gives src bob tgt /\ (length (b_new_data bob) <= length tgt)%nat /\
    Forall (λ op, worthwhile op = true /\ op_ranges op) (b_ops bob) /\ bob_consecutive bob.
Proof.
  intros Hsmall. rewrite <- length_app in Hsmall. unfold svn_txdelta__vdelta, vdelta.
  pose proof (length_app src tgt) as Hl.
  destruct (vdelta_loop_ok (src ++ tgt) 0 (length src) ltac:(lia) Hsmall
    (S (length src - 0)) false (length src + length tgt) bob_empty bob_empty
    (create_hash_table (length src + length tgt)) 0 None 0 [])
    as (bob1 & t1 & h1 & st1 & -> & Ht1 & Hh1 & ->); try done; try (simpl; lia).
  { apply create_hash_table_rep. by rewrite <- length_app. }
  cbn [mbind outcome_bind].
  destruct (vdelta_loop_ok (src ++ tgt) (length src) (length src + length tgt) ltac:(lia) Hsmall
    (S (length src + length tgt - length src)) true (length src + length tgt) bob_empty bob_empty
    t1 (length src) None h1 st1)
    as (bob2 & t2 & h2 & st2 & -> & _ & _ & Hg & Hn & Hw & Hcons); try done; try (simpl; lia).
  { simpl. unfold seg. rewrite Nat.sub_diag. split_and!; [done|lia|constructor|done]. }
  cbn [mbind outcome_bind]. exists bob2. split_and!; [done| |lia|done|done].
  rewrite take_app_length in Hg. unfold seg in Hg. rewrite drop_app_length in Hg.
  rewrite firstn_all2 in Hg by lia. done.
Qed.

(** The window [compute_window] makes of it is valid and in range. *)
Lemma bob_gives_window src bob tgt off :
  bob_gives src bob tgt -> Forall op_ranges (b_ops bob) -> 0 <= off < two63 ->
  Z.of_nat (length src) < two63 -> Z.of_nat (length tgt) < two63 ->
  Z.of_nat (length (b_new_data bob)) < two63 ->
  let w := mk_window off (Z.of_nat (length src)) (Z.of_nat (length tgt)) (b_ops bob)
             (b_new_data bob) in
  window_ranges w /\ window_valid w = true /\ apply_instructions w src = Ok tgt.
Proof.
  intros Hb Hops Hoff Hs Ht Hn w.
  assert (window_ranges w) as Hr.
  { split; [done|]. unfold w. split_and!; simpl; lia. }
  assert (apply_instructions w src = Ok tgt) as Ha.
  { unfold apply_instructions. replace (apply_ops w src (ops w) []) with (@Ok bytes tgt).
    - cbn [mbind outcome_bind]. unfold w. cbn [tview_len]. by rewrite Z.eqb_refl.
    - symmetry. eapply apply_ops_mono with (w := bob_window src bob (length tgt)) (d := []);
        [done|done|simpl; by rewrite app_nil_r|exact Hb]. }
  split_and!; [done| |done].
  pose proof (apply_instructions_ok w src Hr ltac:(simpl; lia)) as H.
  rewrite Ha in H. by destruct (window_valid w).
Qed.

(** ** Properties *)


(** The hash table is a multimap from key hashes to positions: a new table
    represents no position, and storing a fresh position, the keys of which lie
    in the window, succeeds (the assertion on the slot holds) and adds it at
    the head of exactly the chain its key hashes to. *)
Theorem hash_table_multimap data n :
  Z.of_nat n < 2 ^ 31 ->
  table_rep data n 0 [] (create_hash_table n) /\
  forall h stored t idx, table_rep data n h stored t -> (h <= idx < n)%nat ->
    (idx + VD_KEY_SIZE <= length data)%nat ->
    exists t', store_mapping t data idx idx = Ok t' /\
      table_rep data n (S idx) (idx :: stored) t'.
Proof.
  intros Hn. split; [by apply create_hash_table_rep|]. intros. by eapply store_mapping_ok.
Qed.

(** The search at a position terminates with a genuine match (or none) that
    does not run over the end of the window nor across the start of the
    target, and is at least as long as the match of every stored position
    that has the same four bytes. *)
Theorem search_longest data start here end_ n stored t :
  (start <= here)%nat -> (here + VD_KEY_SIZE <= end_)%nat -> (end_ <= length data)%nat ->
  Z.of_nat (length data) < 2 ^ 31 -> table_rep data n here stored t ->
  exists st, search (S end_) t data start here end_ here (mk_search 0 0 false) = Ok st /\
    good_match data start here end_ st /\
    forall i, i ∈ stored ->
      (forall k, (k < VD_KEY_SIZE)%nat -> data !! (i + k)%nat = data !! (here + k)%nat) ->
      (VD_KEY_SIZE <= candidate_length data start here end_ i)%nat ->
      (candidate_length data start here end_ i <= current_match_len st)%nat.
Proof.
  intros Hs Hk He Hd Ht.
  destruct (search_ok data start here end_ ltac:(lia) He Hd (S end_) t n stored here
    (mk_search 0 0 false) Ht) as (st & -> & Hg & _ & Hbest); [by left|lia|lia|simpl; lia|].
  exists st. split_and!; [done|done|]. intros i Hi Hkey H4.
  specialize (Hbest i Hi (get_bucket_ext t data i here Hkey) ltac:(lia)).
  rewrite Nat.sub_diag, Nat.sub_0_r in Hbest. by apply Hbest.
Qed.

(** ** Witnesses *)


Lemma hash_table_multimap_witness :
  table_rep (bstr "abcdabcd") 8 0 [] (create_hash_table 8) /\
  exists t', store_mapping (create_hash_table 8) (bstr "abcdabcd") 2 2 = Ok t' /\
    table_rep (bstr "abcdabcd") 8 3 [2%nat] t'.
Proof.
  split; [by apply (hash_table_multimap (bstr "abcdabcd") 8)|].
  apply (proj2 (hash_table_multimap (bstr "abcdabcd") 8 eq_refl) 0%nat []).
  - by apply create_hash_table_rep.
  - lia.
  - simpl. unfold VD_KEY_SIZE. lia.
Defined.

Lemma search_longest_witness :
  exists t, store_mapping (create_hash_table 8) (bstr "abcdabcd") 0 0 = Ok t /\
  exists st, search 9 t (bstr "abcdabcd") 4 4 8 4 (mk_search 0 0 false) = Ok st /\
    good_match (bstr "abcdabcd") 4 4 8 st /\
    (4 <= current_match_len st)%nat.
Proof.
  destruct (store_mapping_ok (bstr "abcdabcd") 8 0 [] (create_hash_table 8) 0)
    as (t & E & Ht); [by apply create_hash_table_rep|lia|simpl; unfold VD_KEY_SIZE; lia|].
  exists t. split; [done|].
  destruct (search_longest (bstr "abcdabcd") 4 4 8 8 [0%nat] t) as (st & Es & Hg & Hb);
    [lia|unfold VD_KEY_SIZE; lia|simpl; lia|done|by eapply table_rep_later; [done|lia]|].
  exists st. split_and!; [done|done|]. apply (Hb 0%nat); [by left| |].
  - intros k Hk. unfold VD_KEY_SIZE in Hk. do 4 (destruct k as [|k]; [done|]). lia.
  - vm_compute. lia.
Defined.
