(* ===== verification/Svndiff.v ===== *)
(** * The svndiff format ([libsvn_delta/svndiff.c])

    The encoder ([encode_int], [window_handler]) and the incremental decoder
    ([decode_int], [decode_instruction], [count_and_verify_instructions],
    [write_handler], [close_handler]).  A range [[p, end)] of the decoder's
    buffer is the list of its bytes; moving [p] forward drops a prefix. *)

From S2P Require Import Prelude Stream TextDelta.

(** ** Integers *)

(** The loop that counts the groups of seven bits. *)
Fixpoint count_groups (fuel : nat) (v : Z) (n : nat) : outcome nat :=
  match fuel with
  | O => Undef
  | S fuel => if 0 <? v then count_groups fuel (Z.shiftr v 7) (S n) else Ok n
  end.

Fixpoint encode_groups (n : nat) (val : Z) : bytes :=
  match n with
  | O => []
  | S n =>
      let cont := Z.shiftl (if (0 <? n)%nat then 1 else 0) 7 in
      zb (Z.lor (Z.land (Z.shiftr val (Z.of_nat n * 7)) 127) cont) :: encode_groups n val
  end.

(** The fuel 10 is enough for every [apr_off_t]: see [encode_int_ok]. *)
Definition encode_int (val : Z) : outcome bytes :=
  _ ← c_assert (0 <=? val);
  n ← count_groups 10 (Z.shiftr val 7) 1;
  Ok (encode_groups n val).

Fixpoint decode_int_loop (val : Z) (p : bytes) : option (Z * bytes) :=
  match p with
  | [] => None
  | c :: p =>
      let val := Z.lor (off_t (Z.shiftl val 7)) (Z.land (bz c) 127) in
      if Z.land (Z.shiftr (bz c) 7) 1 =? 0 then Some (val, p) else decode_int_loop val p
  end.

Definition decode_int (p : bytes) : option (Z * bytes) := decode_int_loop 0 p.

(** ** The encoder *)

Record encoder_baton (B : Type) := mk_eb {
  output : svn_stream_t B;
  header_done : bool;
}.
Arguments mk_eb {B}.
Arguments output {B}.
Arguments header_done {B}.

Definition selector (a : svn_delta_action) : Z :=
  match a with
  | svn_txdelta_source => 0
  | svn_txdelta_target => Z.shiftl 1 6
  | svn_txdelta_new => Z.shiftl 2 6
  end.

(** One iteration of the instruction loop of [window_handler]. *)
Definition encode_op (op : svn_txdelta_op_t) : outcome bytes :=
  let sel := selector (action_code op) in
  head ←
    (if Z.shiftr (length_ op) 6 =? 0 then Ok [zb (Z.lor sel (length_ op))]
     else l ← encode_int (length_ op); Ok (zb sel :: l));
  match action_code op with
  | svn_txdelta_new => Ok head
  | _ => o ← encode_int (offset op); Ok (head ++ o)
  end.

Fixpoint encode_ops (l : list svn_txdelta_op_t) : outcome bytes :=
  match l with
  | [] => Ok []
  | op :: l => b ← encode_op op; bs ← encode_ops l; Ok (b ++ bs)
  end.

(** The window header, given the instruction text; [append_encoded_int] takes
    an [apr_off_t], so that the sizes are converted. *)
Definition encode_header (w : svn_txdelta_window_t) (instructions : bytes) : outcome bytes :=
  a ← encode_int (sview_offset w);
  b ← encode_int (off_t (sview_len w));
  c ← encode_int (off_t (tview_len w));
  d ← encode_int (off_t (Z.of_nat (length instructions)));
  e ← encode_int (off_t (Z.of_nat (length (new_data w))));
  Ok (a ++ b ++ c ++ d ++ e).

Definition svndiff_magic : bytes := bstr "SVN" ++ [Byte.x00].

(** A write that is skipped when an earlier one failed or there is nothing to
    write. *)
Definition write_nonempty {B} (r : outcome unit) (s : svn_stream_t B) (data : bytes) :
    outcome unit * svn_stream_t B :=
  match r, data with
  | Ok _, _ :: _ => svn_stream_write s data
  | _, _ => (r, s)
  end.

Definition window_handler {B} (window : option svn_txdelta_window_t) (eb : encoder_baton B) :
    outcome unit * encoder_baton B :=
  let '(r, eb) :=
    if header_done eb then (Ok tt, eb)
    else let '(r, s) := svn_stream_write (output eb) svndiff_magic in
         (r, mk_eb s (match r with Ok _ => true | _ => false end)) in
  match r with
  | Ok _ =>
      match window with
      | None =>
          let '(r, s) := svn_stream_close (output eb) in (r, mk_eb s (header_done eb))
      | Some w =>
          match
            instructions ← encode_ops (ops w);
            header ← encode_header w instructions;
            Ok (header, instructions)
          with
          | Ok (header, instructions) =>
              let '(r, s) := svn_stream_write (output eb) header in
              let '(r, s) := write_nonempty r s instructions in
              let '(r, s) := write_nonempty r s (new_data w) in
              (r, mk_eb s (header_done eb))
          | Err e => (Err e, eb) | Abort => (Abort, eb) | Undef => (Undef, eb)
          end
      end
  | _ => (r, eb)
  end.

Definition svn_txdelta_to_svndiff {B} (output : svn_stream_t B) : encoder_baton B :=
  mk_eb output false.

(** ** The decoder *)

(** [op] is the storage the instruction is decoded into: a [new] instruction
    leaves its offset alone. *)
Definition decode_instruction (op : svn_txdelta_op_t) (p : bytes) :
    option (svn_txdelta_op_t * bytes) :=
  match p with
  | [] => None
  | c :: p =>
      let sel := Z.land (Z.shiftr (bz c) 6) 3 in
      if sel =? 3 then None
      else
        let action :=
          if sel =? 0 then svn_txdelta_source
          else if sel =? 1 then svn_txdelta_target else svn_txdelta_new in
        let len := Z.land (bz c) 63 in
        '(len, p) ← (if len =? 0 then decode_int p else Some (len, p));
        match action with
        | svn_txdelta_new => Some (mk_op action (offset op) len, p)
        | _ => '(off, p) ← decode_int p; Some (mk_op action off len, p)
        end
  end.

(** The loop of [count_and_verify_instructions]; each instruction takes at
    least a byte, so the length of the text is enough fuel. *)
Fixpoint verify_loop (fuel : nat) (op : svn_txdelta_op_t) (p : bytes)
    (sview_len tview_len new_len tpos npos : Z) (n : nat) : option nat :=
  match p with
  | [] => if (tpos =? tview_len) && (npos =? new_len) then Some n else None
  | _ :: _ =>
      match fuel with
      | O => None
      | S fuel =>
          '(op, p) ← decode_instruction op p;
          if (length_ op <? 0) || (size_t (tview_len - tpos) <? size_t (length_ op)) then None
          else
            npos ←
              match action_code op with
              | svn_txdelta_source =>
                  if (offset op <? 0) || (size_t (sview_len - offset op) <? size_t (length_ op))
                  then None else Some npos
              | svn_txdelta_target =>
                  if (offset op <? 0) || (tpos <=? size_t (offset op)) then None else Some npos
              | svn_txdelta_new =>
                  if size_t (new_len - npos) <? size_t (length_ op) then None
                  else Some (size_t (npos + length_ op))
              end;
            verify_loop fuel op p sview_len tview_len new_len (size_t (tpos + length_ op)) npos
              (S n)
      end
  end.

Definition op_uninit : svn_txdelta_op_t := mk_op svn_txdelta_source 0 0.

(** [None] is the result -1. *)
Definition count_and_verify_instructions (p : bytes) (sview_len tview_len new_len : Z) :
    option nat :=
  verify_loop (length p) op_uninit p sview_len tview_len new_len 0 0 0.

Record decode_baton (C : Type) := mk_db {
  consumer_func : svn_txdelta_window_handler_t C;
  consumer_baton : C;
  buffer : bytes;
  last_sview_offset : Z;
  last_sview_len : Z;
  header_bytes : nat;
  error_on_early_close : bool;
}.
Arguments mk_db {C}.
Arguments consumer_func {C}.
Arguments consumer_baton {C}.
Arguments buffer {C}.
Arguments last_sview_offset {C}.
Arguments last_sview_len {C}.
Arguments header_bytes {C}.
Arguments error_on_early_close {C}.

(** The five integers of a window header; the lengths are [apr_size_t]. *)
Record window_header := mk_wh {
  wh_sview_offset : Z;
  wh_sview_len : Z;
  wh_tview_len : Z;
  wh_inslen : Z;
  wh_newlen : Z;
}.

Definition read_window_header (p : bytes) : option (window_header * bytes) :=
  '(sview_offset, p) ← decode_int p;
  '(sview_len, p) ← decode_int p;
  '(tview_len, p) ← decode_int p;
  '(inslen, p) ← decode_int p;
  '(newlen, p) ← decode_int p;
  Some (mk_wh sview_offset (size_t sview_len) (size_t tview_len) (size_t inslen)
          (size_t newlen), p).

(** The loop that decodes the counted instructions. *)
Fixpoint decode_ops (ninst : nat) (p : bytes) (npos : Z) : list svn_txdelta_op_t * bytes :=
  match ninst with
  | O => ([], p)
  | S ninst =>
      match decode_instruction op_uninit p with
      | None => ([], p)
      | Some (op, p) =>
          let is_new := bool_decide (action_code op = svn_txdelta_new) in
          let op := if is_new then mk_op (action_code op) npos (length_ op) else op in
          let npos := if is_new then size_t (npos + length_ op) else npos in
          let '(l, p) := decode_ops ninst p npos in (op :: l, p)
      end
  end.

(** What one turn of the [while (1)] of [write_handler] finds in the buffer: it
    must wait for more data, fails, or has a window and the bytes after it.
    [WAccess]: the window announces more bytes than the buffer holds, so that a
    pointer is moved out of the buffer. *)
Inductive window_result :=
  | WWait
  | WError (e : svn_errno)
  | WAccess
  | WWindow (w : svn_txdelta_window_t) (rest : bytes).

Definition parse_window (last_offset last_len : Z) (buf : bytes) : window_result :=
  match read_window_header buf with
  | None => WWait
  | Some (mk_wh sview_offset sview_len tview_len inslen newlen, p) =>
      (* Of the tests for negative numbers only this one is not on an unsigned value. *)
      if sview_offset <? 0 then WError SVN_ERR_SVNDIFF_CORRUPT_WINDOW
      else if (sview_offset <? last_offset)
           || (size_t (sview_offset + sview_len) <? size_t (last_offset + last_len))
      then WError SVN_ERR_SVNDIFF_BACKWARD_VIEW
      else if Z.of_nat (length p) <? size_t (inslen + newlen) then WWait
      else if Z.of_nat (length p) <? inslen then WAccess
      else
        let text := take (Z.to_nat inslen) p in
        match count_and_verify_instructions text sview_len tview_len newlen with
        | None => WError SVN_ERR_SVNDIFF_INVALID_OPS
        | Some ninst =>
            let '(ops, left_) := decode_ops ninst text 0 in
            let p := left_ ++ drop (Z.to_nat inslen) p in
            if Z.of_nat (length p) <? newlen then WAccess
            else WWindow (mk_window sview_offset sview_len tview_len ops
                            (take (Z.to_nat newlen) p))
                   (drop (Z.to_nat newlen) p)
        end
  end.

Section decoder.
Context {C : Type}.

(** The [while (1)]; a window takes at least five bytes, so the fuel suffices. *)
Fixpoint write_loop (fuel : nat) (db : decode_baton C) : outcome unit * decode_baton C :=
match fuel with
| O => (Undef, db)
| S fuel =>
    match parse_window (last_sview_offset db) (last_sview_len db) (buffer db) with
    | WWait => (Ok tt, db)
    | WError e => (Err e, db)
    | WAccess => (Undef, db)
    | WWindow w rest =>
        let '(r, c) := consumer_func db (Some w) (consumer_baton db) in
        match r with
        | Ok _ =>
            write_loop fuel (mk_db (consumer_func db) c rest (sview_offset w) (sview_len w)
              (header_bytes db) (error_on_early_close db))
        | _ =>
            (r, mk_db (consumer_func db) c (buffer db) (last_sview_offset db)
                  (last_sview_len db) (header_bytes db) (error_on_early_close db))
        end
    end
end.

Definition write_handler (db : decode_baton C) (data : bytes) :
  outcome unit * decode_baton C :=
let nheader := Nat.min (4 - header_bytes db) (length data) in
if bool_decide (take nheader data = take nheader (drop (header_bytes db) svndiff_magic)) then
  let buf := buffer db ++ drop nheader data in
  write_loop (S (length buf))
    (mk_db (consumer_func db) (consumer_baton db) buf (last_sview_offset db)
      (last_sview_len db) (header_bytes db + nheader) (error_on_early_close db))
else (Err SVN_ERR_SVNDIFF_INVALID_HEADER, db).

Definition close_handler (db : decode_baton C) : outcome unit * decode_baton C :=
if error_on_early_close db && ((header_bytes db <? 4)%nat || negb (length (buffer db) =? 0)%nat)
then (Err SVN_ERR_SVNDIFF_UNEXPECTED_END, db)
else
  let '(r, c) := consumer_func db None (consumer_baton db) in
  (r, mk_db (consumer_func db) c (buffer db) (last_sview_offset db) (last_sview_len db)
        (header_bytes db) (error_on_early_close db)).

Definition svn_txdelta_parse_svndiff (handler : svn_txdelta_window_handler_t C) (c : C)
  (error_on_early_close : bool) : svn_stream_t (decode_baton C) :=
svn_stream_set_close
  (svn_stream_set_write
    (svn_stream_create (mk_db handler c [] 0 0 0 error_on_early_close)) write_handler)
  close_handler.
End decoder.

(** ** Integers round-trip *)

Lemma shiftr_7 v n : Z.shiftr v (Z.of_nat n * 7) = v / 128 ^ Z.of_nat n.
Proof.
  rewrite Z.shiftr_div_pow2 by lia. f_equal. rewrite Z.mul_comm, Z.pow_mul_r by lia. done.
Qed.

Lemma count_groups_S fuel v n :
  count_groups (S fuel) v n = if 0 <? v then count_groups fuel (Z.shiftr v 7) (S n) else Ok n.
Proof. done. Qed.

Lemma count_groups_ok fuel v n :
  0 <= v < 128 ^ Z.of_nat fuel -> exists k, count_groups (S fuel) v n = Ok (n + k)%nat /\
    (k <= fuel)%nat /\ v < 128 ^ Z.of_nat k.
Proof.
  revert v n. induction fuel as [|fuel IH]; intros v n Hv; rewrite count_groups_S.
  - simpl in Hv. destruct (Z.ltb_spec 0 v); [lia|]. exists 0%nat. rewrite Nat.add_0_r.
    simpl. split_and!; [done|lia|lia].
  - destruct (Z.ltb_spec 0 v);
      [|exists 0%nat; rewrite Nat.add_0_r; simpl; split_and!; [done|lia|lia]].
    rewrite Z.shiftr_div_pow2 by lia. change (2 ^ 7) with 128.
    rewrite Nat2Z.inj_succ, Z.pow_succ_r in Hv by lia.
    destruct (IH (v / 128) (S n)) as (k & -> & Hle & Hk).
    { split; [apply Z.div_pos; lia|apply Z.div_lt_upper_bound; lia]. }
    exists (S k). split_and!; [f_equal; lia|lia|].
    rewrite Nat2Z.inj_succ, Z.pow_succ_r by lia.
    pose proof (Z.mul_succ_div_gt v 128 ltac:(lia)). lia.
Qed.

(** Groups of seven bits put back together. *)
Lemma group_step a b :
  0 <= a -> 0 <= b -> a = b / 128 -> b < two63 ->
  Z.lor (off_t (Z.shiftl a 7)) (Z.land b 127) = b.
Proof.
  intros Ha Hb -> Hb2. rewrite Z.shiftl_mul_pow2 by lia. change (2 ^ 7) with 128.
  pose proof (Z.mul_div_le b 128 ltac:(lia)). rewrite off_t_small by (unfold two63 in *; lia).
  apply Z.bits_inj'. intros k Hk. rewrite Z.lor_spec, Z.land_spec.
  change 128 with (2 ^ 7). rewrite <- Z.shiftr_div_pow2, <- Z.shiftl_mul_pow2 by lia.
  change 127 with (Z.ones 7). rewrite Z.shiftl_spec by done.
  destruct (Z.ltb_spec k 7).
  - rewrite Z.testbit_neg_r, Z.ones_spec_low by lia. by rewrite andb_true_r.
  - rewrite Z.shiftr_spec, Z.ones_spec_high by lia. rewrite andb_false_r, orb_false_r. f_equal. lia.
Qed.

(** A byte of the encoding: its value bits and its continuation bit. *)
Lemma group_byte g (more : bool) :
  0 <= g < 128 ->
  let c := zb (Z.lor g (Z.shiftl (if more then 1 else 0) 7)) in
  Z.land (bz c) 127 = g /\ Z.land (Z.shiftr (bz c) 7) 1 = (if more then 1 else 0).
Proof.
  intros Hg. cbn zeta.
  pose proof (Z_forallb 128 (λ g,
    let c := zb (Z.lor g (Z.shiftl (if more then 1 else 0) 7)) in
    (Z.land (bz c) 127 =? g) && (Z.land (Z.shiftr (bz c) 7) 1 =? (if more then 1 else 0)))) as H.
  destruct more; specialize (H eq_refl g Hg); cbn beta zeta in H;
    by apply andb_true_iff in H as [->%Z.eqb_eq ->%Z.eqb_eq].
Qed.

Lemma decode_int_step acc b (more : bool) p :
  decode_int_loop acc
    (zb (Z.lor (Z.land b 127) (Z.shiftl (if more then 1 else 0) 7)) :: p) =
  let val := Z.lor (off_t (Z.shiftl acc 7)) (Z.land b 127) in
  if more then decode_int_loop val p else Some (val, p).
Proof.
  destruct (group_byte (Z.land b 127) more) as [H1 H2].
  { change 127 with (Z.ones 7). rewrite Z.land_ones by lia. by apply Z.mod_pos_bound. }
  cbn [decode_int_loop]. rewrite H1, H2. by destruct more.
Qed.

Lemma encode_groups_S n val :
  encode_groups (S n) val =
  zb (Z.lor (Z.land (Z.shiftr val (Z.of_nat n * 7)) 127)
       (Z.shiftl (if (0 <? n)%nat then 1 else 0) 7)) :: encode_groups n val.
Proof. done. Qed.

Lemma decode_groups n val rest :
  0 <= val < two63 ->
  decode_int_loop (val / 128 ^ Z.of_nat (S n)) (encode_groups (S n) val ++ rest) = Some (val, rest).
Proof.
  intros Hv. induction n as [|n IH]; rewrite encode_groups_S, <- app_comm_cons, decode_int_step,
    shiftr_7; cbn zeta.
  - cbn [Nat.ltb Nat.leb]. change (128 ^ Z.of_nat 0) with 1. change (128 ^ Z.of_nat 1) with 128.
    rewrite Z.div_1_r, group_step; try done; try lia. apply Z.div_pos; lia.
  - cbn [Nat.ltb Nat.leb]. set (q := val / 128 ^ Z.of_nat (S n)) in *.
    assert (0 <= q) by (apply Z.div_pos; lia).
    assert (q < two63).
    { eapply Z.le_lt_trans; [|apply Hv]. apply Z.div_le_upper_bound; nia. }
    rewrite group_step; try done.
    + apply Z.div_pos; lia.
    + unfold q. rewrite Z.div_div by lia. f_equal. rewrite (Nat2Z.inj_succ (S n)).
      rewrite Z.pow_succ_r by lia. lia.
Qed.

Lemma encode_int_ok val :
  0 <= val < two63 -> exists b, encode_int val = Ok b /\
    (1 <= length b <= 10)%nat /\ forall rest, decode_int (b ++ rest) = Some (val, rest).
Proof.
  intros Hv. unfold encode_int. destruct (Z.leb_spec 0 val); [|lia].
  cbn [c_assert mbind outcome_bind]. rewrite Z.shiftr_div_pow2 by lia. change (2 ^ 7) with 128.
  destruct (count_groups_ok 9 (val / 128) 1) as (k & -> & Hk9 & Hk).
  { split; [apply Z.div_pos; lia|]. apply Z.div_lt_upper_bound; [lia|].
    eapply Z.lt_trans; [apply Hv|]. done. }
  cbn [mbind outcome_bind]. eexists. split; [done|]. split.
  - assert (forall n, length (encode_groups n val) = n) as ->
      by (intros n; induction n; simpl; congruence). lia.
  - intros rest. unfold decode_int.
    replace 0 with (val / 128 ^ Z.of_nat (S k)) at 1; [by apply decode_groups|].
    rewrite Nat2Z.inj_succ, Z.pow_succ_r, <- Z.div_div by lia. apply Z.div_small.
    split; [apply Z.div_pos; lia|done].
Qed.

(** ** Instructions round-trip *)

Definition action_num (a : svn_delta_action) : Z :=
  match a with svn_txdelta_source => 0 | svn_txdelta_target => 1 | svn_txdelta_new => 2 end.

Lemma selector_byte a l :
  0 <= l < 64 ->
  let c := zb (Z.lor (selector a) l) in
  Z.land (Z.shiftr (bz c) 6) 3 = action_num a /\ Z.land (bz c) 63 = l.
Proof.
  intros Hl. cbn zeta.
  pose proof (Z_forallb 64 (λ l,
    let c := zb (Z.lor (selector a) l) in
    (Z.land (Z.shiftr (bz c) 6) 3 =? action_num a) && (Z.land (bz c) 63 =? l))) as H.
  destruct a; specialize (H eq_refl l Hl); cbn beta zeta in H;
    by apply andb_true_iff in H as [->%Z.eqb_eq ->%Z.eqb_eq].
Qed.

(** The instructions the format can carry: a zero length cannot be expressed. *)
Definition op_encodable (op : svn_txdelta_op_t) : Prop :=
  1 <= length_ op < two63 /\ 0 <= offset op < two63.

(** What remains of an instruction once decoded into the storage [op0]. *)
Definition op_decoded (op0 op : svn_txdelta_op_t) : svn_txdelta_op_t :=
  mk_op (action_code op)
    (if decide (action_code op = svn_txdelta_new) then offset op0 else offset op) (length_ op).

Lemma decode_instruction_eq op0 c p :
  decode_instruction op0 (c :: p) =
  let sel := Z.land (Z.shiftr (bz c) 6) 3 in
  if sel =? 3 then None
  else
    let action :=
      if sel =? 0 then svn_txdelta_source
      else if sel =? 1 then svn_txdelta_target else svn_txdelta_new in
    let len := Z.land (bz c) 63 in
    '(len, p) ← (if len =? 0 then decode_int p else Some (len, p));
    match action with
    | svn_txdelta_new => Some (mk_op action (offset op0) len, p)
    | _ => '(off, p) ← decode_int p; Some (mk_op action off len, p)
    end.
Proof. done. Qed.

Lemma encode_op_ok op :
  op_encodable op -> exists b, encode_op op = Ok b /\ (1 <= length b <= 21)%nat /\
    forall op0 rest, decode_instruction op0 (b ++ rest) = Some (op_decoded op0 op, rest).
Proof.
  intros [Hl Ho]. unfold encode_op.
  destruct (encode_int_ok (length_ op)) as (bl & El & Hbl & Dl); [lia|].
  destruct (encode_int_ok (offset op)) as (bo & Eo & Hbo & Do); [lia|].
  assert (exists head, (if Z.shiftr (length_ op) 6 =? 0
      then Ok [zb (Z.lor (selector (action_code op)) (length_ op))]
      else l ← encode_int (length_ op); Ok (zb (selector (action_code op)) :: l)) = Ok head /\
    (1 <= length head <= 11)%nat /\
    forall op0 rest, decode_instruction op0 (head ++ rest) =
      match action_code op with
      | svn_txdelta_new => Some (mk_op svn_txdelta_new (offset op0) (length_ op), rest)
      | a => '(off, p) ← decode_int rest; Some (mk_op a off (length_ op), p)
      end) as (head & -> & Hh & Dh).
  { rewrite Z.shiftr_div_pow2 by lia. change (2 ^ 6) with 64.
    destruct (Z.eqb_spec (length_ op / 64) 0) as [E|E].
    - eexists. split; [done|]. split; [simpl; lia|]. intros op0 rest.
      destruct (selector_byte (action_code op) (length_ op)) as [H1 H2].
      { apply Z.div_small_iff in E; lia. }
      rewrite <- app_comm_cons, decode_instruction_eq. cbn zeta. rewrite H1, H2.
      destruct (Z.eqb_spec (length_ op) 0); [lia|]. by destruct (action_code op).
    - rewrite El. cbn [mbind outcome_bind]. eexists. split; [done|]. split; [simpl; lia|].
      intros op0 rest. destruct (selector_byte (action_code op) 0) as [H1 H2]; [lia|].
      rewrite Z.lor_0_r in H1, H2.
      rewrite <- app_comm_cons, decode_instruction_eq. cbn zeta. rewrite H1, H2, Dl.
      by destruct (action_code op). }
  cbn [mbind outcome_bind]. rewrite Eo. unfold op_decoded.
  destruct (action_code op) eqn:Ea; cbn [mbind outcome_bind];
    (eexists; split; [done|]; split; [rewrite ?length_app; lia|]; intros op0 rest;
     rewrite <- ?app_assoc, Dh, ?Do; done).
Qed.

Lemma decode_instruction_shorter op0 p op p' :
  decode_instruction op0 p = Some (op, p') -> (length p' < length p)%nat.
Proof.
  assert (forall v p w p', decode_int_loop v p = Some (w, p') -> (length p' < length p)%nat) as Hi.
  { intros v q. revert v. induction q as [|c q IH]; intros v w q' H; [done|]. simpl in H.
    destruct (_ =? 0); [injection H as _ ->; simpl; lia|]. apply IH in H. simpl. lia. }
  destruct p as [|c p]; [done|]. rewrite decode_instruction_eq. cbn zeta.
  destruct (_ =? 3); [done|]. intros H.
  apply bind_Some in H as ([len q] & Hlen & H).
  assert (length q <= length p)%nat.
  { destruct (_ =? 0); [apply Hi in Hlen; lia|by injection Hlen as _ ->]. }
  assert (forall a, ('(off, q) ← decode_int q; Some (mk_op a off len, q)) = Some (op, p') ->
    (length p' <= length q)%nat) as Ho.
  { intros a H'. apply bind_Some in H' as ([off q'] & Hoff & [= _ <-]). apply Hi in Hoff. lia. }
  simpl. destruct (Z.land (Z.shiftr (bz c) 6) 3 =? 0); [apply Ho in H; lia|].
  destruct (Z.land (Z.shiftr (bz c) 6) 3 =? 1); [apply Ho in H; lia|].
  injection H as _ <-. lia.
Qed.

(** ** What the decoder checks *)

(** The conditions under which [count_and_verify_instructions] accepts a
    sequence of instructions, [new] instructions having consecutive offsets. *)
Definition op_checked (sview_len tview_len new_len tpos npos : Z) (op : svn_txdelta_op_t) : bool :=
  (0 <=? length_ op) && (length_ op <=? tview_len - tpos) &&
  match action_code op with
  | svn_txdelta_source =>
      (0 <=? offset op) && (length_ op <=? size_t (sview_len - offset op))
  | svn_txdelta_target => (0 <=? offset op) && (offset op <? tpos)
  | svn_txdelta_new => (offset op =? npos) && (length_ op <=? new_len - npos)
  end.

Fixpoint ops_checked (sview_len tview_len new_len tpos npos : Z) (l : list svn_txdelta_op_t) :
    bool :=
  match l with
  | [] => (tpos =? tview_len) && (npos =? new_len)
  | op :: l =>
      op_checked sview_len tview_len new_len tpos npos op &&
      ops_checked sview_len tview_len new_len (tpos + length_ op) (op_npos npos op) l
  end.

Lemma decode_int_range v p w q :
  decode_int_loop v p = Some (w, q) -> - two63 <= w < two63.
Proof.
  revert v. induction p as [|c p IH]; intros v; [done|]. simpl.
  destruct (Z.land (Z.shiftr (bz c) 7) 1 =? 0); [|apply IH]. intros [= <- _].
  set (x := off_t (Z.shiftl v 7)). set (y := Z.land (bz c) 127).
  assert (0 <= y < 128) as Hy.
  { unfold y. change 127 with (Z.ones 7). rewrite Z.land_ones by lia.
    by apply Z.mod_pos_bound. }
  assert (exists k, x = k * 128) as [k Hk].
  { unfold x, off_t. rewrite Z.shiftl_mul_pow2 by lia. change (2 ^ 7) with 128.
    exists (v - 2 ^ 57 * ((v * 128 + two63) / two64)). rewrite Z.mod_eq by done.
    unfold two64, two63. lia. }
  assert (Z.lor x y = x + y) as ->.
  { rewrite <- Z.lxor_lor, <- Z.add_nocarry_lxor; [done|..];
      (apply Z.bits_inj'; intros i Hi; rewrite Z.land_spec, Z.bits_0; subst x;
       rewrite Hk; change 128 with (2 ^ 7); rewrite <- Z.shiftl_mul_pow2, Z.shiftl_spec by lia;
       destruct (Z.ltb_spec i 7); [by rewrite (Z.testbit_neg_r k) by lia|];
       apply andb_false_iff; right; rewrite Z.testbit_false by done;
       rewrite Z.div_small; [done|]; split; [lia|]; eapply Z.lt_le_trans; [apply Hy|];
       change 128 with (2 ^ 7); by apply Z.pow_le_mono_r). }
  pose proof (off_t_range (Z.shiftl v 7)) as Hx. fold x in Hx. unfold two63 in *. lia.
Qed.

Lemma decode_instruction_range op0 p op q :
  decode_instruction op0 p = Some (op, q) ->
  - two63 <= length_ op < two63 /\
  (action_code op <> svn_txdelta_new -> - two63 <= offset op < two63) /\
  forall op1, decode_instruction op1 p = Some (op_decoded op1 op, q).
Proof.
  destruct p as [|c p]; [done|]. rewrite decode_instruction_eq. cbn zeta.
  destruct (Z.land (Z.shiftr (bz c) 6) 3 =? 3) eqn:E3; [done|]. intros H.
  apply bind_Some in H as ([len p'] & Hlen & H).
  assert (- two63 <= len < two63) as Hl.
  { destruct (Z.land (bz c) 63 =? 0).
    - by apply decode_int_range in Hlen.
    - injection Hlen as <- _. change 63 with (Z.ones 6). rewrite Z.land_ones by lia.
      pose proof (Z.mod_pos_bound (bz c) (2 ^ 6) eq_refl). unfold two63. lia. }
  destruct (Z.land (Z.shiftr (bz c) 6) 3 =? 0) eqn:E0;
    [|destruct (Z.land (Z.shiftr (bz c) 6) 3 =? 1) eqn:E1].
  1,2: apply bind_Some in H as ([off q'] & Hoff & [= <- ->]);
    pose proof (decode_int_range _ _ _ _ Hoff); cbn [length_ offset action_code];
    (split; [lia|split; [intros _; lia|]]);
    intros op1; rewrite decode_instruction_eq; cbn zeta; rewrite E3, E0, ?E1, Hlen;
    cbn; rewrite Hoff; done.
  injection H as <- ->. cbn [length_ offset action_code]. split; [lia|split; [done|]].
  intros op1. rewrite decode_instruction_eq. cbn zeta. by rewrite E3, E0, E1, Hlen.
Qed.

(** One turn of the loop, with the unsigned arithmetic of its tests resolved. *)
Lemma verify_step fuel op0 p q op sl tl nl tpos npos n :
  decode_instruction op0 p = Some (op, q) -> - two63 <= length_ op < two63 ->
  (action_code op <> svn_txdelta_new -> - two63 <= offset op < two63) ->
  0 <= tpos <= tl -> tl < two64 -> 0 <= npos <= nl -> nl < two64 ->
  verify_loop (S fuel) op0 p sl tl nl tpos npos n =
  if op_checked sl tl nl tpos npos (mk_op (action_code op)
       (if decide (action_code op = svn_txdelta_new) then npos else offset op) (length_ op))
  then verify_loop fuel op q sl tl nl (tpos + length_ op) (op_npos npos op) (S n)
  else None.
Proof.
  intros Hd Hl Ho Ht Htl Hn Hnl. destruct p as [|c p]; [done|]. cbn [verify_loop].
  rewrite Hd. cbn [mbind option_bind]. unfold op_checked, op_npos.
  cbn [length_ offset action_code]. rewrite (size_t_small (tl - tpos)) by lia.
  destruct (Z.ltb_spec (length_ op) 0) as [|Hl0].
  { destruct (Z.leb_spec 0 (length_ op)); [lia|done]. }
  destruct (Z.leb_spec 0 (length_ op)); [|lia]. cbn [orb andb].
  rewrite (size_t_small (length_ op)) by (unfold two63, two64 in *; lia).
  destruct (Z.ltb_spec (tl - tpos) (length_ op)), (Z.leb_spec (length_ op) (tl - tpos));
    try lia; [done|]. cbn [andb]. rewrite (size_t_small (tpos + length_ op)) by lia.
  destruct (action_code op);
    [rewrite decide_False by done..|rewrite decide_True by done].
  - specialize (Ho ltac:(done)).
    destruct (Z.ltb_spec (offset op) 0), (Z.leb_spec 0 (offset op)); try lia; [done|].
    cbn [orb andb]. rewrite Z.leb_antisym. by destruct (_ <? _).
  - specialize (Ho ltac:(done)).
    destruct (Z.ltb_spec (offset op) 0), (Z.leb_spec 0 (offset op)); try lia; [done|].
    cbn [orb andb]. rewrite size_t_small by (unfold two63, two64 in *; lia).
    rewrite Z.ltb_antisym. by destruct (_ <=? _).
  - rewrite Z.eqb_refl, (size_t_small (nl - npos)) by lia. cbn [andb].
    rewrite Z.leb_antisym. destruct (Z.ltb_spec (nl - npos) (length_ op)); [done|].
    cbn [negb mbind option_bind]. by rewrite size_t_small by lia.
Qed.

Lemma op_checked_range sl tl nl tpos npos op :
  op_checked sl tl nl tpos npos op = true -> 0 <= npos <= nl ->
  0 <= length_ op <= tl - tpos /\ 0 <= op_npos npos op <= nl /\
  (action_code op = svn_txdelta_new -> offset op = npos).
Proof.
  unfold op_checked, op_npos. rewrite !andb_true_iff, !Z.leb_le.
  destruct (action_code op); intros [Hl H] Hn.
  1,2: split; [lia|split; [lia|done]].
  rewrite andb_true_iff, Z.eqb_eq, Z.leb_le in H. split; [lia|split; lia].
Qed.

(** Whatever text is accepted, the second pass decodes it completely into
    instructions that satisfy the checks. *)
Lemma verify_sound fuel op0 p sl tl nl tpos npos n m :
  verify_loop fuel op0 p sl tl nl tpos npos n = Some m ->
  0 <= tpos <= tl -> tl < two64 -> 0 <= npos <= nl -> nl < two64 ->
  exists l, m = (n + length l)%nat /\ ops_checked sl tl nl tpos npos l = true /\
    decode_ops (length l) p npos = (l, []).
Proof.
  revert op0 p tpos npos n. induction fuel as [|fuel IH]; intros op0 p tpos npos n H Ht Htl Hn Hnl.
  { destruct p; [|done]. simpl in H. destruct (_ && _) eqn:E; [|done]. injection H as <-.
    exists []. simpl. split_and!; [lia|done|done]. }
  destruct (decode_instruction op0 p) as [[op q]|] eqn:Hd.
  - destruct (decode_instruction_range _ _ _ _ Hd) as (Hl & Ho & Hany).
    erewrite verify_step in H by done. set (op' := mk_op _ _ _) in H.
    destruct (op_checked sl tl nl tpos npos op') eqn:Ec; [|done].
    pose proof (op_checked_range _ _ _ _ _ _ Ec Hn) as (Hl' & Hn' & _).
    change (op_npos npos op') with (op_npos npos op) in Hn'. change (length_ op') with (length_ op) in Hl'.
    apply IH in H as (l & -> & Hc & Hdec); [|lia|done|done|done].
    exists (op' :: l). split_and!; [simpl; lia| |].
    + simpl. rewrite Ec. exact Hc.
    + simpl. rewrite Hany. unfold op_decoded. cbn [action_code length_ offset].
      unfold op', op_npos in *. destruct (action_code op); simpl in *.
      * by rewrite Hdec.
      * by rewrite Hdec.
      * rewrite size_t_small by lia. by rewrite Hdec.
  - destruct p as [|c p].
    + simpl in H. destruct (_ && _) eqn:E; [|done]. injection H as <-.
      exists []. simpl. split_and!; [lia|done|done].
    + cbn [verify_loop] in H. by rewrite Hd in H.
Qed.

Lemma verify_encode l sl tl nl tpos npos :
  ops_checked sl tl nl tpos npos l = true -> Forall op_encodable l ->
  0 <= tpos <= tl -> tl < two64 -> 0 <= npos <= nl -> nl < two64 ->
  exists b, encode_ops l = Ok b /\ (length b <= 21 * length l)%nat /\
    (forall fuel op0 n, (length b <= fuel)%nat ->
       verify_loop fuel op0 b sl tl nl tpos npos n = Some (n + length l)%nat) /\
    decode_ops (length l) b npos = (l, []).
Proof.
  intros Hc Hl. revert tpos npos Hc. induction Hl as [|op l Hop Hl IH];
    intros tpos npos Hc Ht Htl Hn Hnl.
  { exists []. simpl in *. split_and!; [done|lia| |done]. intros fuel op0 n _.
    rewrite Nat.add_0_r. destruct fuel; simpl; by rewrite Hc. }
  simpl in Hc. apply andb_true_iff in Hc as [Ho Hc].
  pose proof (op_checked_range _ _ _ _ _ _ Ho Hn) as (Hlen & Hn' & Hnew).
  destruct (IH _ _ Hc) as (b2 & E2 & Hb2 & Hv & Hd); [lia|done|done|done|].
  destruct (encode_op_ok op Hop) as (b1 & E1 & Hb1 & Hd1).
  exists (b1 ++ b2). simpl. rewrite E1, E2. cbn [mbind outcome_bind].
  split; [done|]. rewrite length_app. split; [lia|].
  assert (mk_op (action_code op) (if decide (action_code op = svn_txdelta_new) then npos
    else offset op) (length_ op) = op) as Hop_eq.
  { destruct op as [a o len]. simpl in *. destruct (decide _); [|done]. by rewrite Hnew. }
  split.
  - intros fuel op0 n Hf. destruct fuel as [|fuel]; [lia|]. destruct Hop as [Hol Hoo].
    erewrite verify_step; [|apply Hd1|cbn; unfold two63 in *; lia| |done..].
    + cbn [op_decoded action_code length_ offset]. unfold op_npos in *.
      cbn [op_decoded action_code length_ offset].
      replace (mk_op (action_code op) (if decide (action_code op = svn_txdelta_new) then npos
        else if decide (action_code op = svn_txdelta_new) then offset op0 else offset op)
        (length_ op)) with op by (rewrite <- Hop_eq at 1; by destruct (decide _)).
      rewrite Ho, Hv by lia. f_equal. lia.
    + intros Hna. cbn. destruct (decide _); [done|]. unfold two63 in *; lia.
  - rewrite Hd1. unfold op_decoded, op_npos in *. cbn [action_code length_ offset].
    destruct (decide (action_code op = svn_txdelta_new)) as [Hnw|Hnw].
    + rewrite bool_decide_true by done. rewrite Hnw in *.
      cbn [length_ action_code offset]. rewrite size_t_small by lia. rewrite Hd. by rewrite Hop_eq.
    + rewrite bool_decide_false by done. destruct (action_code op) eqn:Ea; try done;
        rewrite Hd; by rewrite Hop_eq.
Qed.

(** ** More data *)

Lemma decode_int_app p v q x : decode_int p = Some (v, q) -> decode_int (p ++ x) = Some (v, q ++ x).
Proof.
  unfold decode_int. generalize 0 as acc. induction p as [|c p IH]; intros acc; [done|].
  simpl. destruct (Z.land (Z.shiftr (bz c) 7) 1 =? 0); [by intros [= <- <-]|apply IH].
Qed.

Lemma decode_int_length p v q : decode_int p = Some (v, q) -> (length q < length p)%nat.
Proof.
  unfold decode_int. generalize 0 as acc. induction p as [|c p IH]; intros acc; [done|].
  simpl. destruct (Z.land (Z.shiftr (bz c) 7) 1 =? 0); [intros [= _ <-]; lia|].
  intros H%IH. lia.
Qed.

Lemma read_window_header_inv p h q :
  read_window_header p = Some (h, q) ->
  (length q < length p)%nat /\ (forall x, read_window_header (p ++ x) = Some (h, q ++ x)) /\
  - two63 <= wh_sview_offset h < two63 /\ 0 <= wh_sview_len h < two64 /\
  0 <= wh_tview_len h < two64 /\ 0 <= wh_inslen h < two64 /\ 0 <= wh_newlen h < two64.
Proof.
  unfold read_window_header. intros H.
  repeat (let v := fresh "v" in let r := fresh "r" in let E := fresh "E" in
          apply bind_Some in H as ([v r] & E & H)).
  injection H as <- <-. cbn. split.
  - apply decode_int_length in E, E0, E1, E2, E3. lia.
  - split.
    + intros x. rewrite (decode_int_app _ _ _ x E); cbn; rewrite (decode_int_app _ _ _ x E0); cbn; rewrite (decode_int_app _ _ _ x E1);
        cbn; rewrite (decode_int_app _ _ _ x E2); cbn; by rewrite (decode_int_app _ _ _ x E3).
    + split; [by apply decode_int_range in E|]. split_and!; apply size_t_range.
Qed.

(** The windows a call of [parse_window] can deliver. *)
Lemma parse_window_sound lo ll buf w rest :
  parse_window lo ll buf = WWindow w rest ->
  (length rest < length buf)%nat /\
  0 <= sview_offset w < two63 /\ lo <= sview_offset w /\
  size_t (lo + ll) <= size_t (sview_offset w + sview_len w) /\
  0 <= sview_len w < two64 /\ 0 <= tview_len w < two64 /\
  ops_checked (sview_len w) (tview_len w) (Z.of_nat (length (new_data w))) 0 0 (ops w) = true.
Proof.
  unfold parse_window. destruct (read_window_header buf) as [[[so sl tl il nl] p]|] eqn:Eh; [|done].
  apply read_window_header_inv in Eh as (Hp & _ & Hso & Hsl & Htl & Hil & Hnl); cbn in *.
  destruct (Z.ltb_spec so 0); [done|].
  destruct (Z.ltb_spec so lo); [done|]. cbn [orb].
  destruct (Z.ltb_spec (size_t (so + sl)) (size_t (lo + ll))); [done|].
  destruct (Z.ltb_spec (Z.of_nat (length p)) (size_t (il + nl))); [done|].
  destruct (Z.ltb_spec (Z.of_nat (length p)) il); [done|].
  destruct (count_and_verify_instructions _ sl tl nl) as [n|] eqn:Ec; [|done].
  unfold count_and_verify_instructions in Ec.
  apply verify_sound in Ec as (l & -> & Hc & Hd); [|lia..]. rewrite Nat.add_0_l, Hd.
  cbn [app]. rewrite length_drop.
  destruct (Z.ltb_spec (Z.of_nat (length p - Z.to_nat il)) nl); [done|].
  intros [= <- <-]. cbn. rewrite length_take, !length_drop, Nat.min_l by lia.
  rewrite Z2Nat.id by lia. split_and!; try lia. done.
Qed.

Lemma parse_window_app lo ll buf x :
  match parse_window lo ll buf with
  | WWait => True
  | WError e => parse_window lo ll (buf ++ x) = WError e
  | WAccess => Z.of_nat (length (buf ++ x)) < two64 ->
      parse_window lo ll (buf ++ x) = WAccess \/
      parse_window lo ll (buf ++ x) = WError SVN_ERR_SVNDIFF_INVALID_OPS
  | WWindow w rest => parse_window lo ll (buf ++ x) = WWindow w (rest ++ x)
  end.
Proof.
  unfold parse_window. destruct (read_window_header buf) as [[[so sl tl il nl] p]|] eqn:Eh; [|done].
  apply read_window_header_inv in Eh as (Hp & Happ & Hso & Hsl & Htl & Hil & Hnl); cbn in *.
  rewrite Happ. destruct (so <? 0); [done|]. destruct (_ || _); [done|].
  rewrite !length_app.
  destruct (Z.ltb_spec (Z.of_nat (length p)) (size_t (il + nl))) as [|Hlong]; [done|].
  destruct (Z.ltb_spec (Z.of_nat (length p + length x)) (size_t (il + nl))); [lia|].
  assert (Z.of_nat (length buf + length x) < two64 -> Z.of_nat (length p) < il + nl ->
    il + nl <= Z.of_nat (length p + length x) -> False) as Hwrap.
  { intros Hb Hlt Hle. rewrite size_t_small in Hlong by lia. lia. }
  destruct (Z.ltb_spec (Z.of_nat (length p)) il).
  - intros Hb. destruct (Z.ltb_spec (Z.of_nat (length p + length x)) il); [by left|].
    destruct (count_and_verify_instructions _ sl tl nl) as [n|] eqn:Ec; [|by right]. left.
    unfold count_and_verify_instructions in Ec.
    apply verify_sound in Ec as (l & -> & Hc & Hd); [|lia..]. rewrite Nat.add_0_l, Hd.
    cbn [app]. rewrite length_drop, length_app.
    destruct (Z.ltb_spec (Z.of_nat (length p + length x - Z.to_nat il)) nl); [done|].
    exfalso. apply Hwrap; lia.
  - destruct (Z.ltb_spec (Z.of_nat (length p + length x)) il); [lia|].
    rewrite take_app_le, drop_app_le by lia.
    destruct (count_and_verify_instructions _ sl tl nl) as [n|] eqn:Ec; [|done].
    unfold count_and_verify_instructions in Ec.
    apply verify_sound in Ec as (l & -> & Hc & Hd); [|lia..]. rewrite Nat.add_0_l, Hd.
    cbn [app]. rewrite length_app, length_drop.
    destruct (Z.ltb_spec (Z.of_nat (length p - Z.to_nat il)) nl).
    + intros Hb. left.
      destruct (Z.ltb_spec (Z.of_nat (length p - Z.to_nat il + length x)) nl); [done|].
      exfalso. apply Hwrap; lia.
    + destruct (Z.ltb_spec (Z.of_nat (length p - Z.to_nat il + length x)) nl); [lia|].
      rewrite take_app_le, drop_app_le by (rewrite length_drop; lia). done.
Qed.

(** ** Chunks *)

Section chunks.
Context {C : Type}.

(** The decoder with a different buffer. *)
Definition with_buffer (db : decode_baton C) (buf : bytes) : decode_baton C :=
mk_db (consumer_func db) (consumer_baton db) buf (last_sview_offset db) (last_sview_len db)
(header_bytes db) (error_on_early_close db).

(** The [while (1)] with the fuel [write_handler] gives it. *)
Definition run (db : decode_baton C) : outcome unit * decode_baton C :=
write_loop (S (length (buffer db))) db.

Lemma write_loop_fuel fuel (db : decode_baton C) :
(length (buffer db) < fuel)%nat -> write_loop fuel db = run db.
Proof.
unfold run. remember (length (buffer db)) as n eqn:En.
revert fuel db En. induction n as [n IH] using lt_wf_ind. intros fuel db -> Hf.
destruct fuel as [|fuel]; [lia|]. cbn [write_loop].
destruct (parse_window _ _ (buffer db)) as [|e| |w rest] eqn:Ep; [done..|].
apply parse_window_sound in Ep as [Hlen _].
destruct (consumer_func db (Some w) (consumer_baton db)) as [[u|e| |] c]; [|done..].
set (db' := mk_db _ _ _ _ _ _ _).
rewrite (IH (length rest) Hlen fuel db'), (IH (length rest) Hlen (length (buffer db)) db');
done || lia.
Qed.

Lemma run_eq (db : decode_baton C) :
run db =
match parse_window (last_sview_offset db) (last_sview_len db) (buffer db) with
| WWait => (Ok tt, db)
| WError e => (Err e, db)
| WAccess => (Undef, db)
| WWindow w rest =>
let '(r, c) := consumer_func db (Some w) (consumer_baton db) in
match r with
| Ok _ =>
  run (mk_db (consumer_func db) c rest (sview_offset w) (sview_len w)
    (header_bytes db) (error_on_early_close db))
| _ =>
  (r, mk_db (consumer_func db) c (buffer db) (last_sview_offset db)
        (last_sview_len db) (header_bytes db) (error_on_early_close db))
end
end.
Proof.
unfold run at 1. cbn [write_loop].
destruct (parse_window _ _ (buffer db)) as [|e| |w rest] eqn:Ep; [done..|].
apply parse_window_sound in Ep as [Hlen _].
destruct (consumer_func db (Some w) (consumer_baton db)) as [[u|e| |] c]; [|done..].
by apply write_loop_fuel.
Qed.

#[local] Arguments run : simpl never.

(** Induction on the windows in the buffer. *)
Lemma buffer_ind (P : decode_baton C -> Prop) :
(forall db, (forall w rest c,
 parse_window (last_sview_offset db) (last_sview_len db) (buffer db) = WWindow w rest ->
 P (mk_db (consumer_func db) c rest (sview_offset w) (sview_len w)
  (header_bytes db) (error_on_early_close db))) -> P db) ->
forall db, P db.
Proof.
intros H db. remember (length (buffer db)) as n eqn:En. revert db En.
induction n as [n IH] using lt_wf_ind. intros db ->. apply H. intros w rest c Hp.
apply parse_window_sound in Hp as [Hlen _]. by apply (IH (length rest)).
Qed.

(** The decoder has nothing to do before more data comes. *)
Definition settled (db : decode_baton C) : Prop :=
parse_window (last_sview_offset db) (last_sview_len db) (buffer db) = WWait.

Lemma run_settled db db' : run db = (Ok tt, db') -> settled db' /\ header_bytes db' = header_bytes db /\
(length (buffer db') <= length (buffer db))%nat.
Proof.
induction db as [db IH] using buffer_ind. rewrite run_eq.
destruct (parse_window _ _ (buffer db)) as [|e| |w rest] eqn:Ep; [|done..|].
- intros [= <-]. done.
- destruct (consumer_func db (Some w) (consumer_baton db)) as [[u|e| |] c]; [|done..].
intros H. apply (IH _ _ _ eq_refl) in H as (? & ? & Hl). split; [done|split; [done|]].
apply parse_window_sound in Ep as [? _]. cbn in Hl. lia.
Qed.

Lemma run_more db x r db1 :
run db = (r, db1) -> Z.of_nat (length (buffer db ++ x)) < two64 ->
match r with
| Ok _ => run (with_buffer db (buffer db ++ x)) = run (with_buffer db1 (buffer db1 ++ x))
| _ => fst (run (with_buffer db (buffer db ++ x))) <> Ok tt
end.
Proof.
induction db as [db IH] using buffer_ind. rewrite run_eq. intros H Hx.
pose proof (parse_window_app (last_sview_offset db) (last_sview_len db) (buffer db) x) as Ha.
destruct (parse_window _ _ (buffer db)) as [|e| |w rest] eqn:Ep.
- by injection H as <- <-.
- injection H as <- <-. rewrite run_eq. cbn. by rewrite Ha.
- injection H as <- <-. rewrite run_eq. cbn. by destruct (Ha Hx) as [-> | ->].
- rewrite run_eq. cbn. rewrite Ha.
destruct (consumer_func db (Some w) (consumer_baton db)) as [[u|e| |] c];
[|by injection H as <- <-..].
apply (IH w rest c eq_refl) in H; [done|].
apply parse_window_sound in Ep as [Hlen _]. rewrite length_app in *. cbn. lia.
Qed.

(** The number of header bytes seen does not matter any more. *)
Definition with_header (db : decode_baton C) (n : nat) : decode_baton C :=
mk_db (consumer_func db) (consumer_baton db) (buffer db) (last_sview_offset db)
(last_sview_len db) n (error_on_early_close db).

Lemma run_with_header db n :
run (with_header db n) = (fst (run db), with_header (snd (run db)) n).
Proof.
induction db as [db IH] using buffer_ind. rewrite (run_eq db), run_eq. cbn.
destruct (parse_window _ _ (buffer db)) as [|e| |w rest] eqn:Ep; [done..|].
destruct (consumer_func db (Some w) (consumer_baton db)) as [[u|e| |] c]; [|done..].
apply (IH w rest c eq_refl).
Qed.

Lemma write_handler_run (db : decode_baton C) data :
let n := Nat.min (4 - header_bytes db) (length data) in
write_handler db data =
if bool_decide (take n data = take n (drop (header_bytes db) svndiff_magic))
then run (with_header (with_buffer db (buffer db ++ drop n data)) (header_bytes db + n))
else (Err SVN_ERR_SVNDIFF_INVALID_HEADER, db).
Proof. done. Qed.

(** Between calls: the header comes first, and no window is left undelivered. *)
Definition db_ok (db : decode_baton C) : Prop :=
settled db /\ (header_bytes db <= 4)%nat /\ ((header_bytes db < 4)%nat -> buffer db = []).

Lemma write_handler_ok db c db1 :
db_ok db -> write_handler db c = (Ok tt, db1) -> db_ok db1.
Proof.
intros (Hs & Hh & Hb). rewrite write_handler_run. cbn zeta.
set (n := Nat.min (4 - header_bytes db) (length c)).
destruct (bool_decide _); [|done]. rewrite run_with_header.
destruct (run (with_buffer db (buffer db ++ drop n c))) as [r db'] eqn:Hr. intros [= -> <-].
destruct (run_settled _ _ Hr) as (Hs' & _ & _). split_and!; [done|cbn; lia|]. cbn.
intros Hlt. rewrite Hb, drop_ge, app_nil_l in Hr by lia. rewrite run_eq in Hr. cbn in Hr.
by injection Hr as <-.
Qed.

Lemma write_handler_header (db : decode_baton C) c1 c2 :
(header_bytes db <= 4)%nat ->
let n1 := Nat.min (4 - header_bytes db) (length c1) in
let n2 := Nat.min (4 - (header_bytes db + n1)) (length c2) in
let n := Nat.min (4 - header_bytes db) (length (c1 ++ c2)) in
n = (n1 + n2)%nat /\ drop n (c1 ++ c2) = drop n1 c1 ++ drop n2 c2 /\
(take n (c1 ++ c2) = take n (drop (header_bytes db) svndiff_magic) <->
 take n1 c1 = take n1 (drop (header_bytes db) svndiff_magic) /\
 take n2 c2 = take n2 (drop (header_bytes db + n1) svndiff_magic)).
Proof.
intros Hh n1 n2 n. pose proof (length_app c1 c2) as Hl12.
assert (n = n1 + n2)%nat as Hn by lia.
assert (n1 = length c1 \/ n2 = 0)%nat as Hor by lia.
assert (drop n (c1 ++ c2) = drop n1 c1 ++ drop n2 c2) as Hd.
{ destruct Hor as [E|E].
- rewrite Hn, E, drop_app_add, drop_all. done.
- rewrite Hn, E, Nat.add_0_r. apply drop_app_le. lia. }
assert (take n (c1 ++ c2) = take n1 c1 ++ take n2 c2) as Ht.
{ destruct Hor as [E|E].
- rewrite Hn, E, take_app_add, firstn_all. done.
- rewrite Hn, E, Nat.add_0_r. rewrite take_app_le by lia. by rewrite take_0, app_nil_r. }
split_and!; [done|done|]. rewrite Ht, Hn.
rewrite <- (take_take_drop (drop (header_bytes db) svndiff_magic) n1 n2), drop_drop.
assert (length (take n1 c1) = length (take n1 (drop (header_bytes db) svndiff_magic))) as Hl.
{ rewrite !length_take, length_drop. change (length svndiff_magic) with 4%nat. lia. }
split; [by intros [? ?]%app_inj_1|by intros [-> ->]].
Qed.

Lemma write_handler_app (db : decode_baton C) c1 c2 db1 :
db_ok db -> Z.of_nat (length (buffer db ++ c1 ++ c2)) < two64 ->
write_handler db c1 = (Ok tt, db1) ->
let '(r, db') := write_handler db1 c2 in
let '(r', db'') := write_handler db (c1 ++ c2) in
r = r' /\ consumer_baton db' = consumer_baton db'' /\ (r = Ok tt -> db' = db'').
Proof.
intros (Hset & Hh & Hbuf) Hlen H1.
pose proof (write_handler_header db c1 c2 Hh) as (Hn & Hd & Ht). rewrite Hn in Hd, Ht.
rewrite write_handler_run in H1. cbn zeta in H1. rewrite !write_handler_run, Hn, Hd.
set (n1 := Nat.min (4 - header_bytes db) (length c1)) in *.
destruct (bool_decide_reflect (take n1 c1 = take n1 (drop (header_bytes db) svndiff_magic)))
as [E1|]; [|done].
destruct (run_settled _ _ H1) as (_ & Hhb & _). cbn in Hhb. rewrite Hhb.
rewrite run_with_header in H1. injection H1 as H1 <-. cbn [header_bytes with_header] in Hhb |- *.
set (n2 := Nat.min (4 - (header_bytes db + n1)) (length c2)) in *.
destruct (run (with_buffer db (buffer db ++ drop n1 c1))) as [r0 db1] eqn:H0.
cbn [fst snd] in *. subst r0.
destruct (bool_decide_reflect (take n2 c2 = take n2 (drop (header_bytes db + n1) svndiff_magic)))
as [E2|E2].
- rewrite bool_decide_true by tauto.
apply run_more with (x := drop n2 c2) in H0.
+ cbn [buffer with_buffer] in H0. rewrite <- app_assoc in H0.
change (with_buffer (with_buffer db (buffer db ++ drop n1 c1))
(buffer db ++ drop n1 c1 ++ drop n2 c2))
with (with_buffer db (buffer db ++ drop n1 c1 ++ drop n2 c2)) in H0.
change (with_header (with_buffer (with_header db1 (header_bytes db + n1))
    (buffer (with_header db1 (header_bytes db + n1)) ++ drop n2 c2)) (header_bytes db + n1 + n2))
    with (with_header (with_buffer db1 (buffer db1 ++ drop n2 c2)) (header_bytes db + n1 + n2)).
rewrite (run_with_header (with_buffer db1 (buffer db1 ++ drop n2 c2))).
rewrite run_with_header, H0, Nat.add_assoc.
by destruct (run (with_buffer db1 _)) as [r db'].
+ cbn. rewrite !length_app, !length_drop in *. lia.
- rewrite bool_decide_false by tauto. split_and!; [done| |done]. cbn.
assert (n2 <> 0%nat) by (intros ->; by rewrite !take_0 in E2).
rewrite Hbuf, drop_ge, app_nil_l in H0 by lia. rewrite run_eq in H0. cbn in H0.
by injection H0 as <-.
Qed.

(** An error is not repaired by more data. *)
Lemma write_handler_stuck (db : decode_baton C) c1 c2 r db1 :
db_ok db -> Z.of_nat (length (buffer db ++ c1 ++ c2)) < two64 ->
write_handler db c1 = (r, db1) -> r <> Ok tt ->
fst (write_handler db (c1 ++ c2)) <> Ok tt.
Proof.
intros (Hset & Hh & Hbuf) Hlen H1 Hr.
pose proof (write_handler_header db c1 c2 Hh) as (Hn & Hd & Ht). rewrite Hn in Hd, Ht.
rewrite write_handler_run in H1. cbn zeta in H1. rewrite write_handler_run, Hn, Hd.
set (n1 := Nat.min (4 - header_bytes db) (length c1)) in *.
set (n2 := Nat.min (4 - (header_bytes db + n1)) (length c2)) in *.
destruct (bool_decide_reflect (take n1 c1 = take n1 (drop (header_bytes db) svndiff_magic)))
as [E1|]; [|rewrite bool_decide_false by tauto; done].
destruct (bool_decide _); [|done].
rewrite run_with_header in H1. injection H1 as H1 _. rewrite run_with_header. cbn [fst].
destruct (run (with_buffer db (buffer db ++ drop n1 c1))) as [r0 db0] eqn:H0. cbn in H1. subst r0.
apply run_more with (x := drop n2 c2) in H0.
- cbn [buffer with_buffer] in H0. rewrite <- app_assoc in H0. by destruct r as [[]|e| |].
- cbn. rewrite !length_app, !length_drop in *. lia.
Qed.

(** A caller writing a sequence of chunks until an error. *)
Fixpoint write_chunks (db : decode_baton C) (chunks : list bytes) :
outcome unit * decode_baton C :=
match chunks with
| [] => (Ok tt, db)
| c :: chunks =>
  let '(r, db) := write_handler db c in
  match r with Ok _ => write_chunks db chunks | _ => (r, db) end
end.

Lemma write_handler_nil db : db_ok db -> write_handler db [] = (Ok tt, db).
Proof.
intros (Hs & Hh & Hb). rewrite write_handler_run. cbn zeta.
rewrite Nat.min_0_r, drop_0, app_nil_r, Nat.add_0_r. rewrite run_eq. cbn.
unfold settled in Hs. rewrite Hs. by destruct db.
Qed.

(** A successful write succeeds in any chunks, and leaves the same state. *)
Lemma write_chunks_ok db chunks db' :
db_ok db -> Z.of_nat (length (buffer db ++ concat chunks)) < two64 ->
write_handler db (concat chunks) = (Ok tt, db') -> write_chunks db chunks = (Ok tt, db').
Proof.
revert db. induction chunks as [|c chunks IH]; intros db Hok Hlen H.
{ by rewrite <- H, concat_nil, write_handler_nil. }
rewrite concat_cons in *. cbn [write_chunks].
destruct (write_handler db c) as [r db1] eqn:E1.
destruct (decide (r = Ok tt)) as [->|Hne].
- pose proof (write_handler_app db c (concat chunks) db1 Hok Hlen E1) as Ha.
rewrite H in Ha. destruct (write_handler db1 (concat chunks)) as [r2 db2] eqn:E2.
destruct Ha as (-> & _ & Heq). specialize (Heq eq_refl) as ->. apply IH.
+ by eapply write_handler_ok.
+ rewrite write_handler_run in E1. cbn zeta in E1.
  destruct (bool_decide _); [|done].
  apply run_settled in E1 as (_ & _ & Hl). cbn [buffer with_header with_buffer] in Hl.
  rewrite !length_app, length_drop in *. lia.
+ done.
- exfalso. pose proof (write_handler_stuck db c (concat chunks) r db1 Hok Hlen E1 Hne) as Hs.
by rewrite H in Hs.
Qed.

End chunks.

(** ** Windows round-trip *)

(** The windows the format can carry: the instructions are valid, none is
    empty, and the new data is used in order, without gaps. *)
Definition window_encodable (w : svn_txdelta_window_t) : Prop :=
  window_sizes w /\ Forall op_encodable (ops w) /\ 21 * Z.of_nat (length (ops w)) < two63 /\
  ops_checked (sview_len w) (tview_len w) (Z.of_nat (length (new_data w))) 0 0 (ops w) = true.

(** Neither end of the source view moves backwards. *)
Definition slides_after (off len : Z) (w : svn_txdelta_window_t) : Prop :=
  off <= sview_offset w /\ off + len <= sview_offset w + sview_len w.

Fixpoint forward_views (off len : Z) (ws : list svn_txdelta_window_t) : Prop :=
  match ws with
  | [] => True
  | w :: ws => slides_after off len w /\ forward_views (sview_offset w) (sview_len w) ws
  end.

(** The text of a window. *)
Definition window_text (w : svn_txdelta_window_t) : outcome bytes :=
  instructions ← encode_ops (ops w);
  header ← encode_header w instructions;
  Ok (header ++ instructions ++ new_data w).

Lemma encode_int_size v : 0 <= v < two63 -> exists b, encode_int (off_t v) = Ok b /\
  forall rest, decode_int (b ++ rest) = Some (v, rest).
Proof.
  intros Hv. rewrite off_t_small by lia.
  destruct (encode_int_ok v Hv) as (b & -> & _ & Hd). by exists b.
Qed.

Lemma encode_header_ok w ins :
  window_sizes w -> Z.of_nat (length ins) < two63 ->
  exists hd, encode_header w ins = Ok hd /\ forall rest,
    read_window_header (hd ++ rest) =
    Some (mk_wh (sview_offset w) (sview_len w) (tview_len w) (Z.of_nat (length ins))
            (Z.of_nat (length (new_data w))), rest).
Proof.
  intros (Hso & Hsl & Htl & Hnd) Hins. unfold encode_header.
  destruct (encode_int_ok (sview_offset w) Hso) as (a & -> & _ & Da).
  destruct (encode_int_size (sview_len w) Hsl) as (b & -> & Db).
  destruct (encode_int_size (tview_len w) Htl) as (c & -> & Dc).
  destruct (encode_int_size (Z.of_nat (length ins))) as (d & -> & Dd); [lia|].
  destruct (encode_int_size (Z.of_nat (length (new_data w)))) as (e & -> & De); [lia|].
  cbn [mbind outcome_bind]. eexists. split; [done|]. intros rest. unfold read_window_header.
  rewrite <- !app_assoc. rewrite Da; cbn [mbind option_bind]. rewrite Db; cbn [mbind option_bind].
  rewrite Dc; cbn [mbind option_bind]. rewrite Dd; cbn [mbind option_bind].
  rewrite De; cbn [mbind option_bind].
  by rewrite !size_t_small by (unfold two63, two64 in *; lia).
Qed.

Lemma window_text_ok w :
  window_encodable w -> exists hd ins, encode_ops (ops w) = Ok ins /\ encode_header w ins = Ok hd /\
    forall lo ll rest, slides_after lo ll w -> 0 <= lo -> 0 <= ll ->
      parse_window lo ll (hd ++ ins ++ new_data w ++ rest) = WWindow w rest.
Proof.
  intros (Hs & Hops & Hn & Hc). pose proof Hs as (Hso & Hsl & Htl & Hnd).
  destruct (verify_encode (ops w) (sview_len w) (tview_len w) (Z.of_nat (length (new_data w))) 0 0
    Hc Hops) as (ins & Eins & Hlen & Hv & Hd); [lia|unfold two63, two64 in *; lia|lia|
    unfold two63, two64 in *; lia|].
  destruct (encode_header_ok w ins Hs) as (hd & Ehd & Hr); [lia|].
  exists hd, ins. split_and!; [done|done|]. intros lo ll rest [Hlo Hll] Hlo0 Hll0.
  unfold parse_window. rewrite Hr. destruct (Z.ltb_spec (sview_offset w) 0); [lia|].
  destruct (Z.ltb_spec (sview_offset w) lo); [lia|]. cbn [orb].
  rewrite !size_t_small by (unfold two63, two64 in *; lia).
  destruct (Z.ltb_spec (sview_offset w + sview_len w) (lo + ll)); [lia|].
  rewrite !length_app, !Nat2Z.inj_add.
  destruct (Z.ltb_spec (Z.of_nat (length ins) + (Z.of_nat (length (new_data w)) + Z.of_nat (length rest)))
    (Z.of_nat (length ins) + Z.of_nat (length (new_data w)))); [lia|].
  destruct (Z.ltb_spec (Z.of_nat (length ins) + (Z.of_nat (length (new_data w)) + Z.of_nat (length rest)))
    (Z.of_nat (length ins))); [lia|].
  rewrite !Nat2Z.id, take_app_length, drop_app_length. unfold count_and_verify_instructions.
  rewrite Hv, Nat.add_0_l, Hd by lia. cbn [app]. rewrite length_app, Nat2Z.inj_add.
  destruct (Z.ltb_spec (Z.of_nat (length (new_data w)) + Z.of_nat (length rest))
    (Z.of_nat (length (new_data w)))); [lia|].
  rewrite take_app_length, drop_app_length. by destruct w.
Qed.

Section roundtrip.
Context {B : Type} (f : stream_fns B) `{!WritableStream f}.

Lemma write_nonempty_ok b d :
  exists b', write_nonempty (Ok tt) (mk_stream b f) d = (Ok tt, mk_stream b' f) /\
    stream_written b' = stream_written b ++ d.
Proof.
  destruct d as [|c d]; simpl.
  - exists b. by rewrite app_nil_r.
  - apply stream_write_ok.
Qed.

Lemma window_handler_ok b done_ w :
  window_encodable w -> exists b' text,
    window_handler (Some w) (mk_eb (mk_stream b f) done_) = (Ok tt, mk_eb (mk_stream b' f) true) /\
    stream_written b' = stream_written b ++ (if done_ then [] else svndiff_magic) ++ text /\
    forall lo ll rest, slides_after lo ll w -> 0 <= lo -> 0 <= ll ->
      parse_window lo ll (text ++ rest) = WWindow w rest.
Proof.
  intros Hw. destruct (window_text_ok w Hw) as (hd & ins & Eins & Ehd & Hp).
  assert (exists b0, (if done_ then (Ok tt, mk_eb (mk_stream b f) true)
    else let '(r, s) := svn_stream_write (mk_stream b f) svndiff_magic in
         (r, mk_eb s (match r with Ok _ => true | _ => false end)))
    = (Ok tt, mk_eb (mk_stream b0 f) true) /\
    stream_written b0 = stream_written b ++ (if done_ then [] else svndiff_magic))
    as (b0 & E0 & H0).
  { destruct done_; [exists b; by rewrite app_nil_r|].
    destruct (stream_write_ok b svndiff_magic) as (b0 & -> & H). by exists b0. }
  destruct (stream_write_ok b0 hd) as (b1 & E1 & H1).
  destruct (write_nonempty_ok b1 ins) as (b2 & E2 & H2).
  destruct (write_nonempty_ok b2 (new_data w)) as (b3 & E3 & H3).
  exists b3, (hd ++ ins ++ new_data w). split_and!.
  - unfold window_handler. cbn [header_done output].
    replace (if done_ then (Ok (), mk_eb (mk_stream b f) done_) else _)
      with (@Ok unit tt, mk_eb (mk_stream b0 f) true) by (rewrite <- E0; by destruct done_).
    cbn [output]. rewrite Eins. cbn [mbind outcome_bind]. rewrite Ehd. cbn [mbind outcome_bind].
    by rewrite E1, E2, E3.
  - by rewrite H3, H2, H1, H0, <- !app_assoc.
  - intros lo ll rest ???. rewrite <- !app_assoc. by apply Hp.
Qed.

(** The texts of the windows, one after the other. *)
Lemma encode_windows_ok ws b done_ :
  Forall window_encodable ws -> exists b' texts,
    push_windows window_handler (Some <$> ws) (mk_eb (mk_stream b f) done_)
      = (Ok tt, mk_eb (mk_stream b' f) (done_ || bool_decide (ws <> []))) /\
    stream_written b' = stream_written b ++
      (if done_ || bool_decide (ws = []) then [] else svndiff_magic) ++ concat texts /\
    Forall2 (λ w text, forall lo ll rest, slides_after lo ll w -> 0 <= lo -> 0 <= ll ->
      parse_window lo ll (text ++ rest) = WWindow w rest) ws texts.
Proof.
  intros Hws. revert b done_. induction Hws as [|w ws Hw Hws IH]; intros b done_.
  - exists b, []. rewrite bool_decide_false, bool_decide_true by (done || by intros []).
    cbn [concat]. rewrite orb_true_r, orb_false_r, !app_nil_r. split_and!; [reflexivity|reflexivity|constructor].
  - rewrite fmap_cons. cbn [push_windows].
    destruct (window_handler_ok b done_ w Hw) as (b1 & text & -> & H1 & Hp).
    destruct (IH b1 true) as (b2 & texts & -> & H2 & Hps). exists b2, (text :: texts).
    cbn [orb] in *. rewrite (bool_decide_true (w :: ws <> [])), orb_true_r,
      (bool_decide_false (w :: ws = [])), orb_false_r by done.
    split_and!; [done| |by constructor].
    rewrite H2, H1. simpl. by rewrite <- !app_assoc.
Qed.
End roundtrip.

(** The decoder delivers the windows of a well-formed buffer. *)
Lemma run_texts {C} ws texts (db : decode_baton C) c' :
  Forall2 (λ w text, forall lo ll rest, slides_after lo ll w -> 0 <= lo -> 0 <= ll ->
    parse_window lo ll (text ++ rest) = WWindow w rest) ws texts ->
  Forall (λ w, 0 <= sview_len w) ws ->
  forward_views (last_sview_offset db) (last_sview_len db) ws ->
  0 <= last_sview_offset db -> 0 <= last_sview_len db -> buffer db = concat texts ->
  push_windows (consumer_func db) (Some <$> ws) (consumer_baton db) = (Ok tt, c') ->
  exists db', run db = (Ok tt, db') /\ consumer_baton db' = c' /\ buffer db' = [] /\
    consumer_func db' = consumer_func db /\ header_bytes db' = header_bytes db.
Proof.
  intros Hp. revert db. induction Hp as [|w text ws texts Hw Hp IH];
    intros db Hlen Hfw Ho Hl Hb Hpush; rewrite run_eq, Hb.
  - exists db. cbn in Hpush. injection Hpush as <-. done.
  - apply Forall_cons_iff in Hlen as [Hlw Hlen]. destruct Hfw as [Hs Hfw].
    rewrite concat_cons, Hw by done. rewrite fmap_cons in Hpush. cbn [push_windows] in Hpush.
    destruct (consumer_func db (Some w) (consumer_baton db)) as [[[]|e| |] c]; try done.
    destruct (IH (mk_db (consumer_func db) c (concat texts) (sview_offset w) (sview_len w)
      (header_bytes db) (error_on_early_close db))) as (db' & -> & H); try done.
    + unfold slides_after in Hs. cbn. lia.
    + by exists db'.
Qed.

Lemma push_windows_app {C} (h : svn_txdelta_window_handler_t C) ws1 ws2 c :
  push_windows h (ws1 ++ ws2) c =
  let '(r, c1) := push_windows h ws1 c in
  match r with Ok _ => push_windows h ws2 c1 | _ => (r, c1) end.
Proof.
  revert c. induction ws1 as [|w ws1 IH]; intros c; [done|]. simpl.
  destruct (h w c) as [[u|e| |] c1]; [apply IH|done..].
Qed.

(** A complete encoder run: the text is the magic and the windows' texts. *)
Lemma encoder_ok {B} (f : stream_fns B) `{!WritableStream f} ws b :
  Forall window_encodable ws -> exists b' texts,
    push_windows window_handler ((Some <$> ws) ++ [None]) (svn_txdelta_to_svndiff (mk_stream b f))
      = (Ok tt, mk_eb (mk_stream b' f) true) /\
    stream_written b' = stream_written b ++ svndiff_magic ++ concat texts /\
    Forall2 (λ w text, forall lo ll rest, slides_after lo ll w -> 0 <= lo -> 0 <= ll ->
      parse_window lo ll (text ++ rest) = WWindow w rest) ws texts.
Proof.
  intros Hws. destruct (encode_windows_ok f ws b false Hws) as (b1 & texts & E & H1 & Hp).
  rewrite push_windows_app. unfold svn_txdelta_to_svndiff. rewrite E. cbn [orb push_windows] in *.
  unfold window_handler. cbn [header_done output]. destruct ws as [|w ws].
  - apply Forall2_nil_inv_l in Hp as ->.
    destruct (stream_write_ok b1 svndiff_magic) as (b2 & E2 & H2).
    destruct (stream_close_ok b2) as (b3 & E3 & H3).
    exists b3, []. rewrite bool_decide_false by (by intros []). rewrite E2. cbn [output]. rewrite E3.
    split_and!; [done| |constructor]. rewrite H3, H2, H1. cbn. by rewrite !app_nil_r.
  - destruct (stream_close_ok b1) as (b3 & E3 & H3). exists b3, texts.
    rewrite bool_decide_true by done. cbn [output]. rewrite E3.
    split_and!; [done| |done]. rewrite H3, H1. by rewrite bool_decide_false.
Qed.

Lemma decoder_ok {C} (handler : svn_txdelta_window_handler_t C) ws texts c c' early :
  Forall2 (λ w text, forall lo ll rest, slides_after lo ll w -> 0 <= lo -> 0 <= ll ->
    parse_window lo ll (text ++ rest) = WWindow w rest) ws texts ->
  Forall (λ w, 0 <= sview_len w) ws -> forward_views 0 0 ws ->
  push_windows handler ((Some <$> ws) ++ [None]) c = (Ok tt, c') ->
  exists db db', write_handler (baton (svn_txdelta_parse_svndiff handler c early))
      (svndiff_magic ++ concat texts) = (Ok tt, db) /\
    close_handler db = (Ok tt, db') /\ consumer_baton db' = c'.
Proof.
  intros Hp Hlen Hfw Hpush. rewrite push_windows_app in Hpush.
  destruct (push_windows handler (Some <$> ws) c) as [[[]|e| |] c1] eqn:E1; try done.
  cbn [push_windows] in Hpush.
  destruct (handler None c1) as [[[]|e| |] c2] eqn:E2; try done. injection Hpush as ->.
  rewrite write_handler_run. cbn zeta.
  change (header_bytes (baton (svn_txdelta_parse_svndiff handler c early))) with 0%nat.
  rewrite length_app. change (length svndiff_magic) with 4%nat.
  replace (Nat.min (4 - 0) (4 + length (concat texts))) with (length svndiff_magic)
    by (change (length svndiff_magic) with 4%nat; lia).
  rewrite drop_0, take_app_length, firstn_all, drop_app_length, bool_decide_true by done.
  rewrite run_with_header.
  set (db0 := with_buffer _ _).
  destruct (run_texts ws texts db0 c1 Hp Hlen Hfw) as (db1 & -> & Hc & Hb & Hf & _); try done.
  cbn [fst snd]. eexists _, _. split; [done|]. unfold close_handler.
  cbn [with_header buffer header_bytes error_on_early_close consumer_func consumer_baton].
  rewrite Hb, Hf, Hc. change (consumer_func db0) with handler. rewrite E2.
  rewrite andb_false_r. done.
Qed.

Lemma fresh_decoder_ok {C} (handler : svn_txdelta_window_handler_t C) c early :
  db_ok (baton (svn_txdelta_parse_svndiff handler c early)).
Proof. split_and!; [done|cbn; lia|done]. Qed.

Lemma ops_checked_valid w nl l tpos npos :
  ops_checked (sview_len w) (tview_len w) nl tpos npos l = true ->
  nl = Z.of_nat (length (new_data w)) -> 0 <= npos <= nl -> 0 <= sview_len w < two64 ->
  Forall (λ op, action_code op = svn_txdelta_source -> offset op <= sview_len w) l ->
  ops_valid w tpos l = true.
Proof.
  intros Hc -> Hn Hs Hl. revert tpos npos Hc Hn.
  induction Hl as [|op l Hop Hl IH]; intros tpos npos Hc Hn; simpl in *.
  { by apply andb_true_iff in Hc as [-> _]. }
  apply andb_true_iff in Hc as [Ho Hc].
  pose proof (op_checked_range _ _ _ _ _ _ Ho Hn) as (Hlen & Hn' & _).
  rewrite (IH _ _ Hc Hn'), andb_true_r. unfold op_checked in Ho. unfold op_valid.
  rewrite !andb_true_iff, !Z.leb_le in *. destruct Ho as [? Ho].
  destruct (action_code op); rewrite andb_true_iff, ?Z.leb_le, ?Z.ltb_lt, ?Z.eqb_eq in Ho;
    rewrite ?Z.leb_le, ?Z.ltb_lt.
  - specialize (Hop eq_refl). rewrite size_t_small in Ho by lia. lia.
  - lia.
  - lia.
Qed.

Lemma ops_valid_checked w l tpos npos :
  ops_valid w tpos l = true -> new_consecutive npos l (Z.of_nat (length (new_data w))) ->
  0 <= sview_len w < two64 ->
  ops_checked (sview_len w) (tview_len w) (Z.of_nat (length (new_data w))) tpos npos l = true.
Proof.
  intros Hv Hn Hs. revert tpos npos Hv Hn. induction l as [|op l IH]; intros tpos npos; simpl.
  { intros -> ->. by rewrite Z.eqb_refl. }
  intros [Ho Hv]%andb_true_iff [Hnew Hn]. rewrite (IH _ _ Hv Hn), andb_true_r.
  unfold op_valid in Ho. unfold op_checked. rewrite !andb_true_iff, !Z.leb_le in *.
  destruct Ho as [((Ho0 & Hl0) & Ht) Ho].
  destruct (action_code op); rewrite ?andb_true_iff, ?Z.leb_le, ?Z.ltb_lt, ?Z.eqb_eq in *.
  - rewrite size_t_small by lia. lia.
  - lia.
  - specialize (Hnew eq_refl). lia.
Qed.

(** A consumer that records the windows it gets. *)
Definition recorder : svn_txdelta_window_handler_t (list svn_txdelta_window_t) :=
  λ w c, (Ok tt, match w with Some w => c ++ [w] | None => c end).

Lemma push_recorder ws c :
  push_windows recorder ((Some <$> ws) ++ [None]) c = (Ok tt, c ++ ws).
Proof.
  revert c. induction ws as [|w ws IH]; intros c; simpl; [by rewrite app_nil_r|].
  unfold fmap in IH. rewrite IH. by rewrite <- app_assoc.
Qed.

(** A window whose instructions are valid, source copies that start beyond the
    source view apart. *)
Definition window_checked (w : svn_txdelta_window_t) : Prop :=
  0 <= sview_offset w < two63 /\ 0 <= sview_len w < two64 /\ 0 <= tview_len w < two64 /\
  (forallb (λ op, match action_code op with
      | svn_txdelta_source => offset op <=? sview_len w | _ => true end) (ops w) = true ->
   window_valid w = true).

Lemma parse_window_checked lo ll buf w rest :
  parse_window lo ll buf = WWindow w rest -> window_checked w.
Proof.
  intros (_ & Ho & _ & _ & Hs & Ht & Hc)%parse_window_sound.
  split_and!; try lia. rewrite forallb_forall. intros H.
  eapply ops_checked_valid; [done|done|lia|done|].
  apply Forall_forall. intros op Hop Ha. specialize (H op Hop). rewrite Ha in H. lia.
Qed.

Lemma run_checked (db : decode_baton (list svn_txdelta_window_t)) :
  consumer_func db = recorder -> Forall window_checked (consumer_baton db) ->
  Forall window_checked (consumer_baton (snd (run db))) /\ consumer_func (snd (run db)) = recorder.
Proof.
  induction db as [db IH] using buffer_ind. intros Hf Hc. rewrite run_eq.
  destruct (parse_window _ _ (buffer db)) as [|e| |w rest] eqn:Ep; [done..|].
  pose proof (IH w rest (consumer_baton db ++ [w]) eq_refl Hf) as H.
  rewrite Hf in *. unfold recorder at 1 4. apply H. cbn.
  apply Forall_app. split; [done|]. apply Forall_singleton. by apply parse_window_checked in Ep.
Qed.

Lemma write_chunks_checked (db : decode_baton (list svn_txdelta_window_t)) chunks :
  consumer_func db = recorder -> Forall window_checked (consumer_baton db) ->
  Forall window_checked (consumer_baton (snd (write_chunks db chunks))).
Proof.
  revert db. induction chunks as [|c chunks IH]; intros db Hf Hc; [done|]. cbn [write_chunks].
  rewrite write_handler_run. cbn zeta. destruct (bool_decide _); [|done].
  rewrite run_with_header. set (db0 := with_buffer db _).
  destruct (run_checked db0 Hf Hc) as [Hc' Hf'].
  destruct (run db0) as [[u|e| |] db1]; cbn [fst snd] in *; [|done..].
  by apply IH.
Qed.

(** ** The size of the text of a window *)

Lemma ops_counts sl tl nl tpos npos l :
  ops_checked sl tl nl tpos npos l = true -> Forall op_encodable l ->
  tpos + Z.of_nat (length l) <= tl /\ nl - npos <= tl - tpos.
Proof.
  intros Hc Hl. revert tpos npos Hc. induction Hl as [|op l [Hop _] Hl IH]; intros tpos npos; cbn [ops_checked length].
  - rewrite andb_true_iff, !Z.eqb_eq. lia.
  - intros [Ho Hc]%andb_true_iff. destruct (IH _ _ Hc). unfold op_npos in *. destruct (action_code op); lia.
Qed.

Lemma encode_int_length v b : 0 <= v < two63 -> encode_int (off_t v) = Ok b -> (length b <= 10)%nat.
Proof.
  intros Hv. rewrite off_t_small by lia. destruct (encode_int_ok v Hv) as (b' & -> & Hb & _). intros [= <-]. lia.
Qed.

Lemma window_text_length w txt :
  window_encodable w -> window_text w = Ok txt ->
  Z.of_nat (length txt) <= 50 + 22 * tview_len w.
Proof.
  intros ((Hso & Hsl & Htl & Hnd) & Hops & Hn & Hc) E. destruct (ops_counts _ _ _ _ _ _ Hc Hops) as [H1 H2].
  destruct (verify_encode (ops w) (sview_len w) (tview_len w) (Z.of_nat (length (new_data w))) 0 0
    Hc Hops) as (ins & Eins & Hlen & _ & _); [lia|unfold two63, two64 in *; lia|lia|unfold two63, two64 in *; lia|].
  unfold window_text in E. rewrite Eins in E. cbn [mbind outcome_bind] in E. inv_ok E. injection E as <-.
  unfold encode_header in Ha. inv_ok Ha. injection Ha as <-.
  rewrite <- (off_t_small (sview_offset w)) in Ha0 by lia.
  apply encode_int_length in Ha0, Ha1, Ha2, Ha3, Ha4; try lia. rewrite !length_app. lia.
Qed.

(** ** Properties *)

(** The variable-length integers round-trip: every non-negative [apr_off_t]
    is encoded, in at most ten bytes; the decoder reads it back, whatever
    follows, and recognises every proper prefix as incomplete; a negative value
    fails the assertion of [encode_int]. *)
Theorem int_roundtrip v :
  - two63 <= v < two63 ->
  if 0 <=? v
  then exists b, encode_int v = Ok b /\ (1 <= length b <= 10)%nat /\
         (forall rest, decode_int (b ++ rest) = Some (v, rest)) /\
         (forall k, (k < length b)%nat -> decode_int (take k b) = None)
  else encode_int v = Abort.
Proof.
  intros Hv. destruct (Z.leb_spec 0 v) as [H0|H0].
  - destruct (encode_int_ok v) as (b & E & Hl & Hd); [lia|]. exists b. split_and!; try done; try lia.
    intros k Hk. destruct (decode_int (take k b)) as [[v' q]|] eqn:Ek; [|done].
    apply decode_int_app with (x := drop k b) in Ek. rewrite take_drop in Ek.
    specialize (Hd []). rewrite app_nil_r, Ek in Hd. injection Hd as _ Hq.
    apply (f_equal length) in Hq. rewrite length_app, length_drop in Hq. simpl in Hq. lia.
  - unfold encode_int. destruct (Z.leb_spec 0 v); [lia|done].
Qed.

(** C32. Encoding then decoding is the identity on delta streams: for any
    sequence of windows that the format can carry, whose source views do not
    slide backwards, the svndiff encoder succeeds on any stream, and the
    decoder, fed with the text cut into chunks at any places and then closed,
    passes exactly these windows and the final null window to its consumer. *)
Theorem svndiff_roundtrip {B C} (f : stream_fns B) `{!WritableStream f} ws b
    (handler : svn_txdelta_window_handler_t C) c c' early chunks :
  Forall window_encodable ws -> forward_views 0 0 ws -> stream_written b = [] ->
  push_windows handler ((Some <$> ws) ++ [None]) c = (Ok tt, c') ->
  exists b', push_windows window_handler ((Some <$> ws) ++ [None])
      (svn_txdelta_to_svndiff (mk_stream b f)) = (Ok tt, mk_eb (mk_stream b' f) true) /\
    (concat chunks = stream_written b' -> Z.of_nat (length (concat chunks)) < two64 ->
     exists db db', write_chunks (baton (svn_txdelta_parse_svndiff handler c early)) chunks
         = (Ok tt, db) /\
       close_handler db = (Ok tt, db') /\ consumer_baton db' = c').
Proof.
  intros Hws Hfw Hb Hpush. destruct (encoder_ok f ws b Hws) as (b' & texts & E & H & Hp).
  exists b'. split; [done|]. intros Hch Hlen. rewrite H, Hb, app_nil_l in Hch.
  destruct (decoder_ok handler ws texts c c' early Hp) as (db & db' & Ew & Hclose & Hc); try done.
  { eapply Forall_impl; [|done]. intros w ((_ & ? & _) & _). lia. }
  exists db, db'. split; [|done]. apply write_chunks_ok; [apply fresh_decoder_ok|done|].
  by rewrite Hch.
Qed.

(** C33. The decoder does not depend on how its input is cut: from any state it
    can be in between two writes, if writing some data succeeds, then so does
    writing it in chunks, with the same calls of the consumer and the same final
    state. *)
Theorem write_handler_chunks {C} (db : decode_baton C) chunks db' :
  db_ok db -> Z.of_nat (length (buffer db ++ concat chunks)) < two64 ->
  write_handler db (concat chunks) = (Ok tt, db') -> write_chunks db chunks = (Ok tt, db').
Proof. apply write_chunks_ok. Qed.

(** Whatever bytes the decoder is given, in whatever chunks, and whether or
    not it ends with an error, every window it delivered had been checked: its
    fields are in range, and it satisfies the conditions of [svn_delta.h] unless
    it copies from an offset beyond its source view. *)
Theorem delivered_windows_checked chunks early :
  Forall window_checked (consumer_baton
    (snd (write_chunks (baton (svn_txdelta_parse_svndiff recorder [] early)) chunks))).
Proof. apply write_chunks_checked; [done|constructor]. Qed.

(** An svndiff document: the magic and one window whose only instruction copies
    one byte from offset 5 of a source view of one byte. *)
Definition hostile_offset : bytes := svndiff_magic ++ map zb [0; 1; 1; 2; 0; 1; 5].

(** A defect: [count_and_verify_instructions] accepts a source copy whose
    offset is beyond the source view, because [sview_len - op.offset] is
    computed on unsigned integers; instead of reporting invalid data the decoder
    hands the window to its consumer, and the applicator is killed by its
    assertion. *)
Theorem source_offset_unchecked :
  fst (write_handler (baton (svn_txdelta_parse_svndiff apply_window
    (svn_txdelta_apply (mk_stream (bstr "a") mem_reader) (mk_stream [] mem_writer)) true))
    hostile_offset) = Abort /\
  map window_valid (consumer_baton (snd (write_handler
    (baton (svn_txdelta_parse_svndiff recorder [] true)) hostile_offset))) = [false].
Proof. split; vm_compute; reflexivity. Qed.

(** The magic and a window header that announces 8 bytes of instructions and
    2^64 - 8 bytes of new data. *)
Definition hostile_lengths : bytes :=
  svndiff_magic ++ map zb [0; 0; 0; 8; 129; 255; 255; 255; 255; 255; 255; 255; 255; 120].

(** A defect: the sum of the announced lengths wraps around, so that the test
    that the whole window has arrived succeeds, and the decoder runs over the
    end of its buffer. *)
Theorem announced_lengths_wrap :
  fst (write_handler (baton (svn_txdelta_parse_svndiff recorder [] true)) hostile_lengths) = Undef.
Proof. vm_compute. reflexivity. Qed.

(** A defect: the format cannot express an instruction of length zero, which
    is what [svn_txdelta_send_string] emits for an empty string; the encoder
    writes it nevertheless, and the decoder rejects the text. *)
Theorem empty_string_not_transmitted :
  let '(r, eb) := push_windows window_handler (svn_txdelta_send_string [])
      (svn_txdelta_to_svndiff (mk_stream [] mem_writer)) in
  r = Ok tt /\
    fst (write_handler (baton (svn_txdelta_parse_svndiff recorder [] true))
      (baton (output eb))) = Err SVN_ERR_SVNDIFF_INVALID_OPS.
Proof. vm_compute. split; reflexivity. Qed.

(** ** Witnesses *)

Lemma int_roundtrip_witness :
  encode_int 2000 = Ok [zb 143; zb 80] /\
  if 0 <=? 2000
  then exists b, encode_int 2000 = Ok b /\ (1 <= length b <= 10)%nat /\
         (forall rest, decode_int (b ++ rest) = Some (2000, rest)) /\
         (forall k, (k < length b)%nat -> decode_int (take k b) = None)
  else encode_int 2000 = Abort.
Proof. split; [reflexivity|]. apply (int_roundtrip 2000). by vm_compute. Defined.

Definition sample_windows : list svn_txdelta_window_t :=
  [mk_window 0 3 10 [mk_op svn_txdelta_source 1 2; mk_op svn_txdelta_new 0 1;
                     mk_op svn_txdelta_target 1 7] (bstr "x");
   mk_window 2 100 70 [mk_op svn_txdelta_source 3 70] []].

Lemma sample_windows_encodable : Forall window_encodable sample_windows.
Proof.
  repeat constructor; try (by vm_compute); cbn; rewrite ?Forall_cons_iff;
    unfold op_encodable; cbn; unfold two63; split_and!; lia || constructor || done.
Qed.

Definition sample_chunks : list bytes :=
  [bstr "SV"; map zb [78]; map zb [0; 0; 3; 10; 5]; map zb [1; 2; 1; 129; 71; 1];
   bstr "x" ++ map zb [2; 100; 70; 3; 0; 0]; map zb [70; 3]].

Lemma svndiff_roundtrip_witness :
  exists db db', write_chunks (baton (svn_txdelta_parse_svndiff recorder [] true)) sample_chunks
      = (Ok tt, db) /\
    close_handler db = (Ok tt, db') /\ consumer_baton db' = sample_windows.
Proof.
  destruct (svndiff_roundtrip mem_writer sample_windows [] recorder [] sample_windows true
    sample_chunks sample_windows_encodable) as (b' & E & H).
  - vm_compute. intuition congruence.
  - reflexivity.
  - reflexivity.
  - apply H; [|reflexivity]. vm_compute in E. injection E as <-. reflexivity.
Defined.

Lemma write_handler_chunks_witness :
  exists db, write_chunks (baton (svn_txdelta_parse_svndiff recorder [] true)) sample_chunks
    = (Ok tt, db) /\ consumer_baton db = sample_windows.
Proof.
  eexists. split.
  - apply (write_handler_chunks (baton (svn_txdelta_parse_svndiff recorder [] true))).
    + apply fresh_decoder_ok.
    + reflexivity.
    + vm_compute. reflexivity.
  - reflexivity.
Defined.
