(* ===== verification/TxStream.v ===== *)
(** * Delta streams ([libsvn_delta/text_delta.c])

    The stream of windows between two byte streams ([svn_txdelta],
    [svn_txdelta_next_window]), its MD5 digest, and [svn_txdelta_send_txstream].
    The end-to-end theorems of the delta library are proved here: generating,
    encoding, decoding and applying. *)

From S2P Require Import Prelude Stream TextDelta Vdelta Svndiff.

Definition SVN_STREAM_CHUNK_SIZE : nat := Z.to_nat 102400.

(** The MD5 accumulator of APR: [apr_md5_init], [apr_md5_update] and
    [apr_md5_final]. *)
Class Md5 (ctx digest : Type) := {
  apr_md5_init : ctx;
  apr_md5_update : ctx -> bytes -> ctx;
  apr_md5_final : ctx -> digest;
}.

(** The documented behaviour of the accumulator: data may be supplied in any
    number of pieces. *)
Class Md5Laws {ctx digest} (m : Md5 ctx digest) : Prop := {
  md5_update_app : forall c a b,
    apr_md5_update (apr_md5_update c a) b = apr_md5_update c (a ++ b);
  md5_update_nil : forall c, apr_md5_update c [] = c;
}.

Section txdelta.
Context {ctx dig : Type} `{m : Md5 ctx dig} {S T : Type}.

(** [buf] holds the saved source data only; [digest] is [None] until it has been
    computed, its memory being uninitialised. *)
Record svn_txdelta_stream_t := mk_txs {
  tx_source : svn_stream_t S;
  tx_target : svn_stream_t T;
  more : bool;
  pos : Z;
  buf : bytes;
  context : ctx;
  digest : option dig;
}.

Definition svn_txdelta (source : svn_stream_t S) (target : svn_stream_t T) :
  svn_txdelta_stream_t :=
mk_txs source target true 0 [] apr_md5_init None.

Definition svn_txdelta_next_window (stream : svn_txdelta_stream_t) :
  outcome (option svn_txdelta_window_t) * svn_txdelta_stream_t :=
if negb (more stream) then
  (Ok None, mk_txs (tx_source stream) (tx_target stream) (more stream) (pos stream) (buf stream)
              (context stream) (Some (apr_md5_final (context stream))))
else
  let saved := buf stream in
  let want :=
    (if (length saved =? 0)%nat
     then SVN_STREAM_CHUNK_SIZE + SVN_STREAM_CHUNK_SIZE / 2
     else SVN_STREAM_CHUNK_SIZE)%nat in
  let '(r, source) := svn_stream_read (tx_source stream) want in
  match r with
  | Ok new_source =>
      let src := saved ++ new_source in
      let context := apr_md5_update (context stream) new_source in
      let '(r, target) := svn_stream_read (tx_target stream) SVN_STREAM_CHUNK_SIZE in
      let failed := mk_txs source target true (pos stream) saved context (digest stream) in
      match r with
      | Ok tgt =>
          let pos := pos stream + Z.of_nat (length new_source) in
          if (length tgt =? 0)%nat then
            (Ok None, mk_txs source target false pos saved context (digest stream))
          else
            match svn_txdelta__vdelta bob_empty (src ++ tgt) (length src) (length tgt) with
            | Ok bob =>
                let w := make_window bob in
                let w := mk_window (pos - Z.of_nat (length src)) (Z.of_nat (length src))
                           (Z.of_nat (length tgt)) (ops w) (new_data w) in
                let saved_len :=
                  if (length src <? SVN_STREAM_CHUNK_SIZE)%nat then length src
                  else SVN_STREAM_CHUNK_SIZE in
                (Ok (Some w), mk_txs source target true pos
                   (drop (length src - saved_len) src) context (digest stream))
            | Err e => (Err e, failed) | Abort => (Abort, failed) | Undef => (Undef, failed)
            end
      | Err e => (Err e, failed) | Abort => (Abort, failed) | Undef => (Undef, failed)
      end
  | r =>
      (* the error of the first read; the target is not read *)
      let failed := mk_txs source (tx_target stream) true (pos stream) saved
                      (context stream) (digest stream) in
      (match r with Ok _ | Undef => Undef | Err e => Err e | Abort => Abort end, failed)
  end.

(** A null pointer is [None]; [Some None] points to uninitialised memory. *)
Definition svn_txdelta_md5_digest (stream : svn_txdelta_stream_t) : option (option dig) :=
if more stream then None else Some (digest stream).

Section send.
Context {C : Type}.

(** The [do]/[while] loop; every window but the last consumes target data. *)
Fixpoint svn_txdelta_send_txstream (fuel : nat) (txstream : svn_txdelta_stream_t)
  (handler : svn_txdelta_window_handler_t C) (c : C) :
  outcome unit * svn_txdelta_stream_t * C :=
match fuel with
| O => (Undef, txstream, c)
| Datatypes.S fuel =>
    let '(r, txstream) := svn_txdelta_next_window txstream in
    match r with
    | Ok window =>
        let '(r, c) := handler window c in
        match r with
        | Ok _ =>
            match window with
            | Some _ => svn_txdelta_send_txstream fuel txstream handler c
            | None => (Ok tt, txstream, c)
            end
        | _ => (r, txstream, c)
        end
    | Err e => (Err e, txstream, c)
    | Abort => (Abort, txstream, c)
    | Undef => (Undef, txstream, c)
    end
end.
End send.
End txdelta.

(** The delta stream that turns the empty string into [stream]. *)
Definition svn_txdelta_send_stream {ctx dig T C} `{m : Md5 ctx dig} (fuel : nat)
    (stream : svn_stream_t T) (handler : svn_txdelta_window_handler_t C) (c : C) :
    outcome unit * svn_txdelta_stream_t (ctx := ctx) (dig := dig) * C :=
  svn_txdelta_send_txstream fuel (svn_txdelta svn_stream_empty stream) handler c.

(** ** The windows of a delta stream *)

Lemma chunk_size : Z.of_nat SVN_STREAM_CHUNK_SIZE = 102400.
Proof. unfold SVN_STREAM_CHUNK_SIZE. lia. Qed.

#[export] Hint Rewrite chunk_size : svn.

#[global] Opaque SVN_STREAM_CHUNK_SIZE.

(** A window fit for every consumer, that produces [t] out of the whole source. *)
Record window_good (src : bytes) (w : svn_txdelta_window_t) (t : bytes) : Prop := {
  good_ranges : window_ranges w;
  good_valid : window_valid w = true;
  good_encodable : window_encodable w;
  good_apply : apply_instructions w (sub src (sview_offset w) (sview_len w)) = Ok t;
}.

Lemma seg_sub src a b :
  (a <= b)%nat -> seg src a b = sub src (Z.of_nat a) (Z.of_nat b - Z.of_nat a).
Proof. intros. unfold seg, sub. do 2 f_equal; lia. Qed.

Lemma worthwhile_pos op : worthwhile op = true -> 1 <= length_ op.
Proof. unfold worthwhile, VD_KEY_SIZE. destruct (action_code op); rewrite Z.leb_le; lia. Qed.

Lemma ops_worthwhile l w tpos :
  ops_valid w tpos l = true -> Forall (λ op, worthwhile op = true /\ op_ranges op) l ->
  tpos + Z.of_nat (length l) <= tview_len w /\ Forall op_encodable l.
Proof.
  intros Hv Hw. revert tpos Hv. induction Hw as [|op l [Hop Hr] Hw IH]; intros tpos; simpl.
  - rewrite Z.eqb_eq. split; [lia|constructor].
  - intros [Ho Hv]%andb_true_iff. apply IH in Hv as [Hc Hl].
    pose proof (worthwhile_pos op Hop). split; [lia|]. constructor; [|done].
    unfold op_valid in Ho. rewrite !andb_true_iff, !Z.leb_le in Ho.
    destruct Hr. split; lia.
Qed.

(** The window that [vdelta] produces, placed at [a]. *)
Lemma vdelta_window_good src a b tgt :
  (a <= b <= length src)%nat -> Z.of_nat (b - a + length tgt) < 2 ^ 31 ->
  Z.of_nat (length src) < two63 ->
  exists bob,
    svn_txdelta__vdelta bob_empty (seg src a b ++ tgt) (length (seg src a b)) (length tgt) = Ok bob /\
    window_good src (mk_window (Z.of_nat a) (Z.of_nat (b - a)) (Z.of_nat (length tgt))
      (b_ops bob) (b_new_data bob)) tgt.
Proof.
  intros Hab Hsmall Hsrc. pose proof (seg_length src a b Hab) as Hl.
  destruct (vdelta_ok (seg src a b) tgt) as (bob & E & Hg & Hn & Hw & Hcons); [by rewrite Hl|].
  exists bob. split; [done|].
  destruct (bob_gives_window (seg src a b) bob tgt (Z.of_nat a) Hg) as (Hr & Hv & Ha);
    try (rewrite ?Hl; unfold two63 in *; lia).
  { eapply Forall_impl; [|done]. by intros op [_ ?]. }
  rewrite Hl in *. set (w := mk_window _ _ _ _ _) in *.
  destruct (ops_worthwhile _ _ _ Hv Hw) as [Hcount Henc].
  constructor; [done|done| |].
  - split_and!; [apply Hr|exact Henc|cbn in *; unfold two63; lia|].
    apply ops_valid_checked; [done|exact Hcons|]. unfold w, two64. cbn. lia.
  - rewrite <- Ha. f_equal. unfold w. cbn [sview_offset sview_len].
    rewrite seg_sub by lia. f_equal. lia.
Qed.

Lemma take_seg (src : bytes) n : take n src = seg src 0 n.
Proof. unfold seg. by rewrite Nat.sub_0_r, drop_0. Qed.

Lemma take_min_length (src : bytes) n : take (Nat.min (length src) n) src = take n src.
Proof.
  destruct (Nat.le_gt_cases (length src) n).
  - rewrite Nat.min_l by done. by rewrite firstn_all, take_ge.
  - by rewrite Nat.min_r by lia.
Qed.

Section stream_ok.
Context {ctx dig : Type} `{m : Md5 ctx dig}.
Context {S T : Type} (fs : stream_fns S) (ft : stream_fns T).
Context `{!ReadableStream fs} `{!ReadableStream ft}.
Context (src : bytes) (Hsrc : Z.of_nat (length src) < two63).

(** Between windows: [p] bytes of the source have been read, the last [saved] of
    them are kept, and [left_] is still to come from the target. *)
Record tx_inv (left_ : bytes) (p saved : nat) 
  (st : svn_txdelta_stream_t (ctx:=ctx) (dig:=dig) (S:=S) (T:=T)) : Prop := {
  tx_src : exists b, tx_source st = mk_stream b fs /\ stream_delivers b (drop p src);
  tx_tgt : exists b, tx_target st = mk_stream b ft /\ stream_delivers b left_;
  tx_more : more st = true;
  tx_pos : pos st = Z.of_nat p;
  tx_buf : buf st = seg src (p - saved) p;
  tx_range : (saved <= p <= length src)%nat /\ (saved <= SVN_STREAM_CHUNK_SIZE)%nat;
  tx_context : Md5Laws m -> context st = apr_md5_update apr_md5_init (take p src);
  tx_digest : digest st = None;
}.

(** How far the source has been read after one more call. *)
Definition read_to (p saved : nat) : nat :=
  Nat.min (length src) (p + (if (saved =? 0)%nat
    then SVN_STREAM_CHUNK_SIZE + SVN_STREAM_CHUNK_SIZE / 2 else SVN_STREAM_CHUNK_SIZE)).

Lemma tx_inv_init bs bt tgt :
  stream_delivers bs src -> stream_delivers bt tgt ->
  tx_inv tgt 0 0 (svn_txdelta (mk_stream bs fs) (mk_stream bt ft)).
Proof.
  intros Hs. constructor; cbn; try done.
  - exists bs. by rewrite drop_0.
  - by exists bt.
  - lia.
  - intros L. by rewrite md5_update_nil.
Qed.

Lemma next_window_ok left_ p saved st :
  tx_inv left_ p saved st ->
  let p' := read_to p saved in
  (p <= p')%nat /\
  match left_ with
  | [] => exists st', svn_txdelta_next_window st = (Ok None, st') /\ more st' = false /\
      digest st' = None /\
      (Md5Laws m -> context st' = apr_md5_update apr_md5_init (take p' src))
  | _ => exists w st', svn_txdelta_next_window st = (Ok (Some w), st') /\
      tx_inv (drop SVN_STREAM_CHUNK_SIZE left_) p' (Nat.min SVN_STREAM_CHUNK_SIZE (p' - (p - saved))) st' /\
      window_good src w (take SVN_STREAM_CHUNK_SIZE left_) /\
      sview_offset w = Z.of_nat (p - saved) /\
      sview_len w = Z.of_nat (p' - (p - saved))
  end.
Proof.
  intros [(bs & Es & Hs) (bt & Et & Ht) Hm Hp Hb [Hr Hsv] Hc Hd] p'.
  pose proof chunk_size as HC.
  assert (SVN_STREAM_CHUNK_SIZE / 2 <= SVN_STREAM_CHUNK_SIZE)%nat as Hhalf
    by (apply Nat.Div0.div_le_upper_bound; lia).
  assert (p <= p' <= length src)%nat as Hpp by (unfold p', read_to; destruct (_ =? _)%nat; lia).
  split; [lia|].
  assert (length (buf st) = saved) as Hlb by (rewrite Hb, seg_length by lia; lia).
  set (want := (if (length (buf st) =? 0)%nat
    then SVN_STREAM_CHUNK_SIZE + SVN_STREAM_CHUNK_SIZE / 2 else SVN_STREAM_CHUNK_SIZE)%nat).
  assert (take want (drop p src) = seg src p p') as Hnew.
  { unfold seg, p', read_to, want. rewrite Hlb. rewrite <- (firstn_all (drop p src)) at 1.
    rewrite take_take, length_drop. f_equal. destruct (saved =? 0)%nat; lia. }
  assert (buf st ++ seg src p p' = seg src (p - saved) p') as Hbuf
    by (rewrite Hb; apply seg_app; lia).
  assert (read_to p saved - p <= SVN_STREAM_CHUNK_SIZE + SVN_STREAM_CHUNK_SIZE / 2)%nat as Hmax
.
  { clear. unfold read_to. generalize (SVN_STREAM_CHUNK_SIZE / 2)%nat as h; intros h. destruct (saved =? 0)%nat; lia. }
  unfold svn_txdelta_next_window. rewrite Hm. cbn [negb]. fold want.
  assert (Z.of_nat want < two63) as Hwant.
  { clear - HC Hhalf. unfold want, two63. destruct (_ =? _)%nat; lia. }
  rewrite Es, Et. destruct (stream_read_ok bs _ want Hs Hwant) as (bs' & -> & Hs').
  destruct (stream_read_ok bt _ SVN_STREAM_CHUNK_SIZE Ht ltac:(unfold two63; lia)) as (bt' & -> & Ht').
  rewrite Hnew, Hbuf.
  assert (drop want (drop p src) = drop p' src) as Hdrop.
  { rewrite drop_drop. unfold p', read_to, want. rewrite Hlb.
    destruct (Nat.le_gt_cases (length src) (p + want)) as [Hle|Hgt]; unfold want in *; rewrite Hlb in *.
    - rewrite !drop_ge; [done|..]; destruct (saved =? 0)%nat; lia.
    - f_equal. destruct (saved =? 0)%nat; lia. }
  assert (Md5Laws m -> apr_md5_update (context st) (seg src p p') =
    apr_md5_update apr_md5_init (take p' src)) as Hctx.
  { intros L. rewrite Hc, md5_update_app by done. f_equal.
    rewrite !take_seg. apply seg_app. lia. }
  fold p' in Hmax. clearbody p' want.
  destruct left_ as [|c left_].
  - rewrite take_nil. cbn [length Nat.eqb]. eexists. split; [reflexivity|]. split; [reflexivity|]. split; [exact Hd|exact Hctx].
  - set (t := take SVN_STREAM_CHUNK_SIZE (c :: left_)).
    assert (length t <= SVN_STREAM_CHUNK_SIZE)%nat by (unfold t; rewrite length_take; lia).
    assert (length t <> 0)%nat by (unfold t; rewrite length_take; cbn [length]; lia).
    destruct (Nat.eqb_spec (length t) 0); [done|].
    destruct (vdelta_window_good src (p - saved) p' t) as (bob & -> & Hgood); [lia|lia|done|].
    replace (length (seg src (p - saved) p')) with (p' - (p - saved))%nat
      by (rewrite seg_length by lia; lia).
    replace (pos st + Z.of_nat (length (seg src p p')) - Z.of_nat (p' - (p - saved)))
      with (Z.of_nat (p - saved)) by (rewrite Hp, seg_length by lia; lia).
    eexists _, _. split; [reflexivity|].
    split; [|split; [exact Hgood|split; reflexivity]]. constructor; cbn [tx_source tx_target more pos buf context digest].
    + exists bs'. split; [reflexivity|]. by rewrite <- Hdrop.
    + exists bt'. split; [reflexivity|exact Ht'].
    + reflexivity.
    + rewrite Hp, seg_length by lia. lia.
    + unfold seg. rewrite skipn_firstn_comm, drop_drop.
      destruct (Nat.ltb_spec (p' - (p - saved)) SVN_STREAM_CHUNK_SIZE);
        (f_equal; [lia|f_equal; lia]).
    + lia.
    + exact Hctx.
    + exact Hd.
Qed.

(** The source bytes asked for by [j] calls. *)
Definition reads (j : nat) : nat :=
  match j with
  | O => O
  | Datatypes.S _ => SVN_STREAM_CHUNK_SIZE / 2 + j * SVN_STREAM_CHUNK_SIZE
  end%nat.

Definition tx_reads (j p saved : nat) : Prop :=
  p = Nat.min (length src) (reads j) /\ (saved = 0%nat -> j = 0%nat \/ src = []).

Lemma read_to_reads j p saved :
  tx_reads j p saved -> (saved <= p)%nat ->
  read_to p saved = Nat.min (length src) (reads (j + 1)).
Proof.
  intros [Hp Hz] Hs. unfold read_to, reads in *. rewrite Nat.add_1_r.
  remember (SVN_STREAM_CHUNK_SIZE / 2)%nat as h eqn:Eh. clear Eh.
  generalize dependent SVN_STREAM_CHUNK_SIZE. intros C Hp.
  destruct (Nat.eqb_spec saved 0) as [E|E].
  - destruct (Hz E) as [-> | H0]; [lia|by rewrite H0].
  - destruct j; [lia|]. nia.
Qed.

(** Pulling all the windows: they cover the target, their source views slide
    forward without gaps, and sending them is pushing them one by one. *)
Lemma send_txstream_ok fuel left_ j p saved st off :
  tx_inv left_ p saved st -> tx_reads j p saved -> (length left_ < fuel)%nat ->
  0 <= off -> off <= Z.of_nat (p - saved) ->
  exists ws ts, Forall2 (window_good src) ws ts /\ concat ts = left_ /\
    views_slide (Z.of_nat (length src)) off (Z.of_nat p - off) ws /\
    forall C (h : svn_txdelta_window_handler_t C) c, exists st',
      let '(r, c') := push_windows h ((Some <$> ws) ++ [None]) c in
      svn_txdelta_send_txstream fuel st h c = (r, st', c') /\
      (r = Ok tt -> more st' = false /\ digest st' = None /\
        (Md5Laws m -> context st' = apr_md5_update apr_md5_init
          (take (reads (j + length ws + 1)) src))).
Proof.
  revert left_ j p saved st off.
  induction fuel as [|fuel IH]; intros left_ j p saved st off Hinv Hj Hf Ho Hoff; [lia|].
  destruct (next_window_ok left_ p saved st Hinv) as [Hp' H].
  pose proof (tx_range _ _ _ _ Hinv) as [Hr _].
  rewrite (read_to_reads j p saved Hj) in * by lia.
  destruct left_ as [|b left_].
  - destruct H as (st' & E & Hm & Hd & Hc). exists [], [].
    split; [constructor|split; [reflexivity|split; [exact I|]]].
    intros C h c. cbn [fmap list_fmap app push_windows svn_txdelta_send_txstream].
    rewrite E. destruct (h None c) as [[[]|e| |] c']; exists st'; (split; [reflexivity|]); try discriminate.
    intros _. split; [exact Hm|split; [exact Hd|]]. intros L. rewrite (Hc L). cbn [length].
    rewrite Nat.add_0_r. by rewrite take_min_length.
  - set (p' := Nat.min (length src) (reads (j + 1))) in *.
    destruct H as (w & st' & E & Hinv' & Hgood & Hwo & Hwl).
    pose proof chunk_size as HC.
    set (saved' := Nat.min SVN_STREAM_CHUNK_SIZE (p' - (p - saved))) in *.
    destruct (IH _ (j + 1)%nat p' saved' st' (Z.of_nat (p - saved)) Hinv')
      as (ws & ts & Hws & Hts & Hsl & Hpush).
    { split; [done|]. intros Hz. destruct Hj as [Hj1 Hj2].
      destruct (decide (saved = 0%nat)) as [E0|]; [|lia].
      destruct (Hj2 E0) as [-> | ->]; [|by right]. right.
      destruct src as [|b0 src']; [done|]. exfalso. subst p'.
      cbn [length reads Nat.add] in *. lia. }
    { rewrite length_drop. cbn [length] in *. lia. }
    { lia. }
    { unfold saved'. lia. }
    exists (w :: ws), (take SVN_STREAM_CHUNK_SIZE (b :: left_) :: ts).
    split; [|split; [|split]].
    + by constructor.
    + rewrite concat_cons, Hts. apply take_drop.
    + cbn [views_slide]. rewrite Hwo, Hwl. split_and!; try lia.
      replace (Z.of_nat (p' - (p - saved))) with (Z.of_nat p' - Z.of_nat (p - saved)) by lia. done.
    + intros C h c. rewrite fmap_cons. cbn [app push_windows svn_txdelta_send_txstream]. rewrite E.
      destruct (h (Some w) c) as [[u|e| |] c1].
      * destruct (Hpush C h c1) as (st2 & H2). exists st2.
        destruct (push_windows h _ c1) as [r c2]. destruct H2 as [-> H2]. split; [reflexivity|].
        intros Hr'. destruct (H2 Hr') as (? & ? & Hc). split; [done|split; [done|]].
        intros L. rewrite (Hc L). cbn [length]. do 2 f_equal. f_equal. lia.
      * exists st'. split; [reflexivity|discriminate].
      * exists st'. split; [reflexivity|discriminate].
      * exists st'. split; [reflexivity|discriminate].
Qed.
End stream_ok.

(** ** End to end *)

Lemma views_slide_forward srclen off len ws :
  views_slide srclen off len ws -> forward_views off len ws.
Proof.
  revert off len. induction ws as [|w ws IH]; intros off len; [done|].
  intros (? & ? & H). split; [split; lia|by apply IH].
Qed.

Section end_to_end.
Context {ctx dig : Type} `{m : Md5 ctx dig}.
Context {S T S2 O : Type} (fs : stream_fns S) (ft : stream_fns T) (fs2 : stream_fns S2)
  (fo : stream_fns O).
Context `{!ReadableStream fs} `{!ReadableStream ft} `{!ReadableStream fs2} `{!WritableStream fo}.

Lemma send_ok src tgt bs bt fuel :
  Z.of_nat (length src) < two63 -> stream_delivers bs src -> stream_delivers bt tgt ->
  (length tgt < fuel)%nat ->
  exists ws ts, Forall2 (window_good src) ws ts /\ concat ts = tgt /\
    views_slide (Z.of_nat (length src)) 0 0 ws /\
    forall C (h : svn_txdelta_window_handler_t C) c, exists st',
      let '(r, c') := push_windows h ((Some <$> ws) ++ [None]) c in
      svn_txdelta_send_txstream fuel (svn_txdelta (mk_stream bs fs) (mk_stream bt ft)) h c
        = (r, st', c') /\
      (r = Ok tt -> more st' = false /\ digest st' = None /\
        (Md5Laws m -> context st' = apr_md5_update apr_md5_init
          (take (reads (length ws + 1)) src))).
Proof.
  intros Hsrc Hs Htgt Hf.
  apply (send_txstream_ok fs ft src Hsrc fuel tgt 0 0 0 _ 0).
  - by apply tx_inv_init.
  - split; [|by left]. cbn. lia.
  - done.
  - lia.
  - lia.
Qed.

(** Applying good windows, followed by the null window. *)
Lemma apply_good_windows src ws ts bs bo :
  Z.of_nat (length src) < two63 -> stream_delivers bs src -> stream_written bo = [] ->
  Forall2 (window_good src) ws ts -> views_slide (Z.of_nat (length src)) 0 0 ws ->
  exists ab bo', push_windows apply_window ((Some <$> ws) ++ [None])
      (svn_txdelta_apply (mk_stream bs fs2) (mk_stream bo fo)) = (Ok tt, ab) /\
    ab_target ab = mk_stream bo' fo /\ stream_written bo' = concat ts.
Proof.
  intros Hsrc Hs Ho Hws Hsl.
  assert (Forall (λ w, window_ranges w /\ window_valid w = true) ws) as Hv.
  { clear Hsl. induction Hws as [|w t ws ts [] _ IH]; constructor; done. }
  destruct (apply_windows_ok fs2 fo src ws 0 0 [] _ Hsrc Hv Hsl
    (svn_txdelta_apply_inv fs2 fo src bs bo Hs Ho)) as (ab & ts' & off & len & E & Hts & Hinv).
  assert (ts' = ts) as ->.
  { clear - Hws Hts. revert ts' Hts. induction Hws as [|w t ws ts Hg _ IH]; intros ts' Hts.
    - by apply Forall2_nil_inv_l in Hts.
    - apply Forall2_cons_inv_l in Hts as (t' & ts2 & Ht' & Hts & ->).
      rewrite (good_apply _ _ _ Hg) in Ht'. injection Ht' as <-. by rewrite (IH _ Hts). }
  rewrite push_windows_app. unfold apply_windows in E. rewrite E. cbn [push_windows].
  destruct Hinv as [_ (bo1 & Et & Hw) _ _ _]. cbn [apply_window]. rewrite Et.
  destruct (stream_close_ok bo1) as (bo2 & -> & H2). eexists _, bo2.
  split; [reflexivity|split; [reflexivity|]]. by rewrite H2, Hw.
Qed.

Lemma good_encodable_windows src ws ts :
  Forall2 (window_good src) ws ts -> Forall window_encodable ws.
Proof. induction 1 as [|w t ws ts [] _ IH]; constructor; done. Qed.

(** Windows over the empty source apply to any source. *)
Lemma empty_views len ws srclen :
  Forall (λ w, 0 <= sview_len w) ws -> views_slide 0 0 len ws -> len = 0 -> 0 <= srclen ->
  views_slide srclen 0 0 ws /\ Forall (λ w, sview_offset w = 0 /\ sview_len w = 0) ws.
Proof.
  intros Hl. revert len. induction Hl as [|w ws Hw Hl IH]; intros len; [done|].
  intros (H1 & H2 & Hv) -> Hs. assert (sview_offset w = 0 /\ sview_len w = 0) as [E1 E2] by lia.
  rewrite E1, E2 in Hv. destruct (IH 0 Hv eq_refl Hs) as [Hv' Hf].
  split; [|by constructor]. cbn [views_slide]. rewrite E1, E2. split_and!; try lia. done.
Qed.

Lemma empty_windows ws ts src2 :
  Forall2 (window_good []) ws ts -> views_slide 0 0 0 ws ->
  Forall2 (window_good src2) ws ts /\ views_slide (Z.of_nat (length src2)) 0 0 ws.
Proof.
  intros Hws Hsl.
  assert (Forall (λ w, 0 <= sview_len w) ws) as Hl.
  { clear Hsl. induction Hws as [|w t ws ts [(_ & _ & ? & _)] _ IH]; constructor; [lia|done]. }
  destruct (empty_views 0 ws (Z.of_nat (length src2)) Hl Hsl eq_refl ltac:(lia)) as [Hv Hz].
  split; [|done]. clear - Hws Hz. induction Hws as [|w t ws ts [] _ IH]; [constructor|].
  apply Forall_cons_iff in Hz as [[E1 E2] Hz]. constructor; [|by apply IH].
  constructor; try done. rewrite <- good_apply0. by rewrite E1, E2.
Qed.
End end_to_end.

(** ** Properties *)

Section properties.
Context {ctx dig : Type} `{m : Md5 ctx dig}.
Context {S T S2 O : Type} (fs : stream_fns S) (ft : stream_fns T) (fs2 : stream_fns S2)
  (fo : stream_fns O).
Context `{!ReadableStream fs} `{!ReadableStream ft} `{!ReadableStream fs2} `{!WritableStream fo}.

(** C29. The delta library is correct from end to end: for any two byte streams,
    of any sizes, the windows of [svn_txdelta] sent to the applicator over
    another stream with the source bytes write exactly the target bytes; the
    loop terminates, no assertion fails, and nothing is read or written out of
    bounds. *)
Theorem txdelta_apply_correct src tgt bs bt bs2 bo fuel :
  Z.of_nat (length src) < two63 ->
  stream_delivers bs src -> stream_delivers bt tgt -> stream_delivers bs2 src -> stream_written bo = [] ->
  (length tgt < fuel)%nat ->
  exists st ab bo', svn_txdelta_send_txstream fuel
      (svn_txdelta (mk_stream bs fs) (mk_stream bt ft)) apply_window
      (svn_txdelta_apply (mk_stream bs2 fs2) (mk_stream bo fo)) = (Ok tt, st, ab) /\
    ab_target ab = mk_stream bo' fo /\ stream_written bo' = tgt.
Proof.
  intros Hsrc Hs Htgt Hs2 Ho Hf.
  destruct (send_ok fs ft src tgt bs bt fuel Hsrc Hs Htgt Hf) as (ws & ts & Hws & <- & Hsl & Hsend).
  destruct (apply_good_windows fs2 fo src ws ts bs2 bo) as (ab & bo' & E & Ht & Hw); try done.
  destruct (Hsend _ apply_window (svn_txdelta_apply (mk_stream bs2 fs2) (mk_stream bo fo)))
    as (st & H). rewrite E in H. destruct H as [H _]. by exists st, ab, bo'.
Qed.

(** C30. ... and so it is through the svndiff format: the windows of [svn_txdelta]
    are encoded without error, and the text, delivered in chunks cut anywhere
    to the decoder connected to the applicator, rebuilds the target. *)
Theorem txdelta_svndiff_correct {D} (fd : stream_fns D) `{!WritableStream fd}
    src tgt bs bt bs2 bo bd fuel early :
  Z.of_nat (length src) < two63 ->
  stream_delivers bs src -> stream_delivers bt tgt -> stream_delivers bs2 src -> stream_written bo = [] ->
  stream_written bd = [] -> (length tgt < fuel)%nat ->
  exists st bd', svn_txdelta_send_txstream fuel
      (svn_txdelta (mk_stream bs fs) (mk_stream bt ft)) window_handler
      (svn_txdelta_to_svndiff (mk_stream bd fd)) = (Ok tt, st, mk_eb (mk_stream bd' fd) true) /\
    forall chunks, concat chunks = stream_written bd' -> Z.of_nat (length (concat chunks)) < two64 ->
    exists db db' bo', write_chunks (baton (svn_txdelta_parse_svndiff apply_window
        (svn_txdelta_apply (mk_stream bs2 fs2) (mk_stream bo fo)) early)) chunks = (Ok tt, db) /\
      close_handler db = (Ok tt, db') /\
      ab_target (consumer_baton db') = mk_stream bo' fo /\ stream_written bo' = tgt.
Proof.
  intros Hsrc Hs Htgt Hs2 Ho Hd Hf.
  destruct (send_ok fs ft src tgt bs bt fuel Hsrc Hs Htgt Hf) as (ws & ts & Hws & <- & Hsl & Hsend).
  destruct (apply_good_windows fs2 fo src ws ts bs2 bo) as (ab & bo' & E & Ht & Hw); try done.
  destruct (encoder_ok fd ws bd (good_encodable_windows _ _ _ Hws)) as (bd' & texts & Ee & Hbd & Hp).
  destruct (Hsend _ window_handler (svn_txdelta_to_svndiff (mk_stream bd fd))) as (st & H).
  rewrite Ee in H. destruct H as [H _]. exists st, bd'. split; [done|].
  intros chunks Hch Hlen. rewrite Hbd, Hd, app_nil_l in Hch.
  destruct (decoder_ok apply_window ws texts
    (svn_txdelta_apply (mk_stream bs2 fs2) (mk_stream bo fo)) ab early Hp) as (db & db' & Ew & Hclose & Hc);
    [|by eapply views_slide_forward|exact E|].
  { clear - Hws. induction Hws as [|w t ws ts [(_ & _ & ? & _)] _ IH]; constructor; [lia|done]. }
  exists db, db', bo'. split; [|by rewrite Hc].
  apply write_chunks_ok; [apply fresh_decoder_ok|done|]. by rewrite Hch.
Qed.

(** [svn_txdelta_send_stream] is a copy: whatever the source the applicator
    reads, the target receives the stream. *)
Theorem send_stream_correct src tgt bt bs2 bo fuel :
  Z.of_nat (length src) < two63 -> stream_delivers bs2 src -> stream_delivers bt tgt -> stream_written bo = [] ->
  (length tgt < fuel)%nat ->
  exists st ab bo', svn_txdelta_send_stream fuel (mk_stream bt ft) apply_window
      (svn_txdelta_apply (mk_stream bs2 fs2) (mk_stream bo fo)) = (Ok tt, st, ab) /\
    ab_target ab = mk_stream bo' fo /\ stream_written bo' = tgt.
Proof.
  intros Hsrc Hs2 Htgt Ho Hf.
  destruct (send_ok (fns svn_stream_empty) ft [] tgt tt bt fuel) as (ws & ts & Hws & <- & Hsl & Hsend);
    [done..|].
  destruct (empty_windows ws ts src Hws Hsl) as [Hws' Hsl'].
  destruct (apply_good_windows fs2 fo _ ws ts bs2 bo Hsrc Hs2 Ho Hws' Hsl')
    as (ab & bo' & E & Ht & Hw).
  destruct (Hsend _ apply_window (svn_txdelta_apply (mk_stream bs2 fs2) (mk_stream bo fo)))
    as (st & H). rewrite E in H. destruct H as [H _]. by exists st, ab, bo'.
Qed.

(** The digest comes one call late, and is that of the wrong data.  When
    [svn_txdelta_next_window] returns the null window, [svn_txdelta_md5_digest]
    returns a pointer (no null pointer any more) to memory that has not been
    initialised yet; only one more call computes the digest, and it is that of
    the part of the {e source} read so far: [k] windows read the source up to one
    chunk and a half plus [k] chunks. *)
Theorem md5_digest_late `{!Md5Laws m} src tgt bs bt fuel :
  Z.of_nat (length src) < two63 -> stream_delivers bs src -> stream_delivers bt tgt ->
  (length tgt < fuel)%nat ->
  let '(r, st, ws) := svn_txdelta_send_txstream fuel
    (svn_txdelta (mk_stream bs fs) (mk_stream bt ft)) recorder [] in
  r = Ok tt /\ svn_txdelta_md5_digest st = Some None /\
  let '(r, st) := svn_txdelta_next_window st in
  r = Ok None /\
  svn_txdelta_md5_digest st = Some (Some (apr_md5_final (apr_md5_update apr_md5_init
    (take (SVN_STREAM_CHUNK_SIZE / 2 + (length ws + 1) * SVN_STREAM_CHUNK_SIZE) src)))).
Proof.
  intros Hsrc Hs Htgt Hf.
  destruct (send_ok fs ft src tgt bs bt fuel Hsrc Hs Htgt Hf) as (ws & ts & _ & _ & _ & Hsend).
  destruct (Hsend _ recorder []) as (st & H). rewrite push_recorder in H.
  destruct H as [-> H]. destruct (H eq_refl) as (Hm & Hd & Hc). split; [done|].
  unfold svn_txdelta_md5_digest, svn_txdelta_next_window. rewrite Hm, Hd. cbn [negb app].
  split; [done|]. split; [done|]. cbn [more digest]. do 3 f_equal. rewrite (Hc _).
  rewrite Nat.add_1_r. reflexivity.
Qed.
End properties.

(** ** Witnesses *)

(** An accumulator that keeps everything. *)
#[local] Instance keep_all : Md5 bytes bytes :=
  {| apr_md5_init := []; apr_md5_update c d := c ++ d; apr_md5_final c := c |}.

#[local] Instance keep_all_laws : Md5Laws keep_all.
Proof. split; intros; cbn; [by rewrite app_assoc|by rewrite app_nil_r]. Qed.

Lemma txdelta_apply_correct_witness :
  exists st ab bo', svn_txdelta_send_txstream 10
      (svn_txdelta (mk_stream (bstr "abcdef") mem_reader) (mk_stream (bstr "xabcde") mem_reader))
      apply_window
      (svn_txdelta_apply (mk_stream (bstr "abcdef") mem_reader) (mk_stream [] mem_writer))
      = (Ok tt, st, ab) /\
    ab_target ab = mk_stream bo' mem_writer /\ stream_written bo' = bstr "xabcde".
Proof.
  pose proof (txdelta_apply_correct mem_reader mem_reader mem_reader mem_writer (bstr "abcdef") (bstr "xabcde")
    (bstr "abcdef") (bstr "xabcde") (bstr "abcdef") [] 10) as H.
  apply H; try reflexivity. cbn. lia.
Defined.

Lemma txdelta_svndiff_correct_witness :
  exists st bd', svn_txdelta_send_txstream 10
      (svn_txdelta (mk_stream (bstr "abcdef") mem_reader) (mk_stream (bstr "xabcde") mem_reader))
      window_handler (svn_txdelta_to_svndiff (mk_stream [] mem_writer))
      = (Ok tt, st, mk_eb (mk_stream bd' mem_writer) true) /\
    forall chunks, concat chunks = stream_written bd' -> Z.of_nat (length (concat chunks)) < two64 ->
    exists db db' bo', write_chunks (baton (svn_txdelta_parse_svndiff apply_window
        (svn_txdelta_apply (mk_stream (bstr "abcdef") mem_reader) (mk_stream [] mem_writer)) true))
        chunks = (Ok tt, db) /\
      close_handler db = (Ok tt, db') /\
      ab_target (consumer_baton db') = mk_stream bo' mem_writer /\
      stream_written bo' = bstr "xabcde".
Proof.
  pose proof (txdelta_svndiff_correct mem_reader mem_reader mem_reader mem_writer mem_writer
    (bstr "abcdef") (bstr "xabcde") (bstr "abcdef") (bstr "xabcde") (bstr "abcdef") [] [] 10 true) as H.
  apply H; try reflexivity. cbn. lia.
Defined.

Lemma send_stream_correct_witness :
  exists st ab bo', svn_txdelta_send_stream 10 (mk_stream (bstr "xabcde") mem_reader) apply_window
      (svn_txdelta_apply (mk_stream (bstr "abc") mem_reader) (mk_stream [] mem_writer))
      = (Ok tt, st, ab) /\
    ab_target ab = mk_stream bo' mem_writer /\ stream_written bo' = bstr "xabcde".
Proof.
  pose proof (send_stream_correct mem_reader mem_reader mem_writer (bstr "abc") (bstr "xabcde") (bstr "xabcde") (bstr "abc") [] 10) as H.
  apply H; try reflexivity. cbn. lia.
Defined.

Lemma md5_digest_late_witness :
  let '(r, st, ws) := svn_txdelta_send_txstream 10
    (svn_txdelta (mk_stream (bstr "abcdef") mem_reader) (mk_stream (bstr "xyz") mem_reader))
    recorder [] in
  r = Ok tt /\ svn_txdelta_md5_digest st = Some None /\
  let '(r, st) := svn_txdelta_next_window st in
  r = Ok None /\
  svn_txdelta_md5_digest st = Some (Some (apr_md5_final (apr_md5_update apr_md5_init
    (take (SVN_STREAM_CHUNK_SIZE / 2 + (length ws + 1) * SVN_STREAM_CHUNK_SIZE) (bstr "abcdef"))))).
Proof.
  pose proof (md5_digest_late mem_reader mem_reader (bstr "abcdef") (bstr "xyz") (bstr "abcdef") (bstr "xyz") 10) as H.
  apply H; try reflexivity. cbn. lia.
Defined.
