(* ===== verification/Reps.v ===== *)
(** * Representations ([libsvn_fs/reps-table.c], [libsvn_fs/reps-strings.c])

    A representation is a skel that says how the contents of a node are stored:
    as one string, or as the svndiff windows of a delta against another
    representation.  The operations of the table, reading through chains of
    deltas, writing, and converting between the two kinds. *)

From S2P Require Import Prelude KeyGen Libc Skel Id Stream Db NodeKeys Fs Strings TextDelta Vdelta Svndiff TxStream.

(** ** Pieces of C *)

(** [strncmp (s, data, len) == 0] for a string literal and [len] bytes. *)
Fixpoint strncmp_eq (s data : bytes) : bool :=
  match data with
  | [] => true
  | c :: data =>
      match s with
      | [] => bool_decide (c = NUL)
      | d :: s => bool_decide (c = d) && strncmp_eq s data
      end
  end.

(** ** Examining representations *)

Definition rep_is_fulltext (rep : skel) : outcome bool :=
  header ← kid rep 0; Ok (svn_fs__matches_atom (head (kids header)) (bstr "fulltext")).

Definition rep_is_delta (rep : skel) : outcome bool :=
  header ← kid rep 0; Ok (svn_fs__matches_atom (head (kids header)) (bstr "delta")).

Definition is_mutable_flag (flag : skel) : bool := svn_fs__matches_atom (Some flag) (bstr "mutable").

Definition rep_is_mutable (rep : skel) : outcome bool :=
  header ← kid rep 0;
  kind ← kid header 0;
  Ok (existsb is_mutable_flag (tail (kids header))).

Definition rep_set_mutable_flag (rep : skel) : outcome skel :=
  is_mutable ← rep_is_mutable rep;
  if (is_mutable : bool) then Ok rep
  else
    header ← kid rep 0;
    header ← svn_fs__append (svn_fs__str_atom (bstr "mutable")) header;
    Ok (set_kids rep (header :: tail (kids rep))).

Definition make_fulltext_rep_skel (str_key : option bytes) (is_mutable : bool) : outcome skel :=
  header ← (if is_mutable then svn_fs__prepend (svn_fs__str_atom (bstr "mutable")) svn_fs__make_empty_list
            else Ok svn_fs__make_empty_list);
  header ← svn_fs__prepend (svn_fs__str_atom (bstr "fulltext")) header;
  rep_skel ← svn_fs__prepend
    (match str_key with Some k => svn_fs__str_atom k | None => svn_fs__mem_atom [] 0 end)
    svn_fs__make_empty_list;
  svn_fs__prepend header rep_skel.

Definition fulltext_string_key (rep : skel) : outcome bytes :=
  is_fulltext ← rep_is_fulltext rep;
  if negb is_fulltext then Err SVN_ERR_FS_GENERAL
  else key ← kid rep 1; Ok (apr_pstrndup (skel_data key)).

(** The loop of [delta_string_keys]. *)
Fixpoint window_keys (windows : list skel) : outcome (list bytes) :=
  match windows with
  | [] => Ok []
  | window :: windows =>
      wnd ← kid window 1;
      diff ← kid wnd 0;
      ty ← kid diff 0;
      if negb (strncmp_eq (bstr "svndiff") (skel_data ty)) then Err SVN_ERR_FS_CORRUPT
      else
        key ← kid diff 1;
        keys ← window_keys windows;
        Ok (apr_pstrndup (skel_data key) :: keys)
  end.

Definition delta_string_keys (rep : skel) : outcome (list bytes) :=
  is_delta ← rep_is_delta rep;
  if negb is_delta then Err SVN_ERR_FS_GENERAL else window_keys (tail (kids rep)).

(** The loop of [svn_fs__make_rep_immutable]: the flags once the first [mutable]
    has been taken out, with those after it when it is the first flag. *)
Fixpoint unset_mutable (first : bool) (flags : list skel) : option (list skel) :=
  match flags with
  | [] => None
  | flag :: flags =>
      if (match flag with Atom _ => true | SList _ _ => false end) && is_mutable_flag flag
      then Some (if first then [] else flags)
      else cons flag <$> unset_mutable false flags
  end.

(** ** The [representations] table *)

Section reps.
Context `{db : BerkeleyDB}.

(** [None]: the record is not a skel, and the pointer is null. *)
Definition svn_fs__read_rep (key : bytes) : trail (option skel) :=
  value ← reading (λ fs, bt_get (representations fs) (str_to_dbt key));
  match value with
  | None => fail SVN_ERR_FS_NO_SUCH_REPRESENTATION
  | Some value => mret (svn_fs__parse_skel value)
  end.

Definition svn_fs__write_rep (key : bytes) (s : skel) : trail unit :=
  value ← lift (svn_fs__unparse_skel s);
  writing (λ fs, set_representations (bt_put (representations fs) (str_to_dbt key) value) fs).

Definition svn_fs__write_new_rep (s : skel) : trail bytes :=
  value ← reading (λ fs, bt_get (representations fs) (str_to_dbt svn_fs__next_key_key));
  match value with
  | None => fail (SVN_ERR_BERKELEY_DB DB_NOTFOUND)
  | Some next =>
      let key := apr_pstrndup next in
      svn_fs__write_rep key s;;
      next_key ← lift (bump_key next);
      writing (λ fs, set_representations
        (bt_put (representations fs) (str_to_dbt svn_fs__next_key_key) (str_to_dbt next_key)) fs);;
      mret key
  end.

Definition svn_fs__delete_rep (key : bytes) : trail unit :=
  t ← reading (λ fs, bt_del (representations fs) (str_to_dbt key));
  match t with
  | None => fail SVN_ERR_FS_NO_SUCH_REPRESENTATION
  | Some t => writing (set_representations t)
  end.

Fixpoint delete_strings (keys : list bytes) : trail unit :=
  match keys with
  | [] => mret tt
  | key :: keys => svn_fs__string_delete key;; delete_strings keys
  end.
End reps.

(** ** Reading a range of the contents *)

Section reading.
Context `{db : BerkeleyDB}.

(** [struct window_handler_baton_t].  [wb_buf] is the part of the buffer written so
    far, [len_read] its length; the filesystem is the one that [fs] points to. *)
Record window_handler_baton_t := mk_whb {
  wb_fs : svn_fs_t;
  wb_buf : bytes;
  req_offset : nat;
  cur_offset : nat;
  base_rep : bytes;
  len_req : nat;
  wb_done : bool;
}.

Definition wb_set_fs (fs : svn_fs_t) (wb : window_handler_baton_t) : window_handler_baton_t :=
  mk_whb fs (wb_buf wb) (req_offset wb) (cur_offset wb) (base_rep wb) (len_req wb) (wb_done wb).
Definition wb_set_done (wb : window_handler_baton_t) : window_handler_baton_t :=
  mk_whb (wb_fs wb) (wb_buf wb) (req_offset wb) (cur_offset wb) (base_rep wb) (len_req wb) true.
Definition wb_set_window (cur : nat) (base : bytes) (wb : window_handler_baton_t) : window_handler_baton_t :=
  mk_whb (wb_fs wb) (wb_buf wb) (req_offset wb) cur base (len_req wb) (wb_done wb).

(** One operation, [sbuf] being what has been read of the source and [tbuf] what
    has been written of the target, a buffer of [tview_len] bytes.  The loop of a
    target copy has an index of type [int]. *)
Definition handle_op (w : svn_txdelta_window_t) (sbuf : bytes) (op : svn_txdelta_op_t) (tbuf : bytes) :
    outcome bytes :=
  if tview_len w <? Z.of_nat (length tbuf) + length_ op then Undef
  else
    match action_code op with
    | svn_txdelta_source =>
        d ← rd_sub sbuf (Z.to_nat (offset op)) (Z.to_nat (length_ op)); Ok (tbuf ++ d)
    | svn_txdelta_target =>
        if 2 ^ 31 <=? offset op + length_ op then Undef
        else copy_target (Z.to_nat (length_ op)) (Z.to_nat (offset op)) tbuf
    | svn_txdelta_new =>
        d ← rd_sub (new_data w) (Z.to_nat (offset op)) (Z.to_nat (length_ op)); Ok (tbuf ++ d)
    end.

(** The source view is read for the first operation that needs it. *)
Definition source_view (read_source : trail bytes) (op : svn_txdelta_op_t) (sbuf : option bytes) :
    trail (option bytes) :=
  match action_code op, sbuf with
  | svn_txdelta_source, None => s ← read_source; mret (Some s)
  | _, _ => mret sbuf
  end.

(** The loop over the operations; [sbuf] is [None] until [src_read], [room] is
    [len_req - len_read].  The result is [tbuf] and [copy_amt]. *)
Fixpoint handle_ops (read_source : trail bytes) (w : svn_txdelta_window_t) (discard_amt room : nat)
    (l : list svn_txdelta_op_t) (sbuf : option bytes) (tbuf : bytes) (copy_amt : nat) : trail (bytes * nat) :=
  match l with
  | [] => mret (tbuf, copy_amt)
  | op :: l =>
      sbuf ← source_view read_source op sbuf;
      tbuf ← lift (handle_op w (default [] sbuf) op tbuf);
      if (discard_amt <=? length tbuf)%nat then
        let copy_amt := (length tbuf - discard_amt)%nat in
        if (room <? copy_amt)%nat then mret (tbuf, room)
        else handle_ops read_source w discard_amt room l sbuf tbuf copy_amt
      else handle_ops read_source w discard_amt room l sbuf tbuf copy_amt
  end.

Section handler.
(** [rep_read_range] of a key, an offset and a length. *)
Context (read_range : bytes -> nat -> nat -> trail bytes).

Definition rep_window_handler (window : option svn_txdelta_window_t) (wb : window_handler_baton_t) :
    outcome unit * window_handler_baton_t :=
  match window with
  | None => (Ok tt, wb_set_done wb)
  | Some w =>
      if wb_done wb then (Ok tt, wb_set_done wb)
      else
        let discard_amt :=
          if (cur_offset wb <? req_offset wb)%nat then (req_offset wb - cur_offset wb)%nat else 0%nat in
        let read_source := read_range (base_rep wb) (Z.to_nat (sview_offset w)) (Z.to_nat (sview_len w)) in
        let '(r, fs) :=
          ('(tbuf, copy_amt) ← handle_ops read_source w discard_amt (len_req wb - length (wb_buf wb))
             (ops w) None [] 0;
           d ← lift (rd_sub tbuf discard_amt copy_amt);
           mret d) (wb_fs wb) in
        match r with
        | Ok d =>
            let cur := (cur_offset wb + length d)%nat in
            let is_done := size_t (Z.of_nat (req_offset wb) + Z.of_nat (len_req wb)) <=? Z.of_nat cur in
            (Ok tt, mk_whb fs (wb_buf wb ++ d) (req_offset wb) cur (base_rep wb) (len_req wb)
                      (is_done || wb_done wb))
        | Err e => (Err e, wb_set_fs fs wb) | Abort => (Abort, wb_set_fs fs wb) | Undef => (Undef, wb_set_fs fs wb)
        end
  end.
End handler.

(** The stream of windows; its baton is shared with [rep_read_range]. *)
Abbreviation wstream_t := (svn_stream_t (decode_baton window_handler_baton_t)).

Definition wb_of (s : wstream_t) : window_handler_baton_t := consumer_baton (baton s).

Definition set_wb (f : window_handler_baton_t -> window_handler_baton_t) (s : wstream_t) : wstream_t :=
  let d := baton s in
  mk_stream (mk_db (consumer_func d) (f (consumer_baton d)) (buffer d) (last_sview_offset d)
    (last_sview_len d) (header_bytes d) (error_on_early_close d)) (fns s).

Abbreviation wstream_m := (state_m wstream_t).

Definition in_fs {A} (m : trail A) : wstream_m A := λ s,
  let '(r, fs) := m (wb_fs (wb_of s)) in (r, set_wb (wb_set_fs fs) s).
Definition wb_get {A} (f : window_handler_baton_t -> A) : wstream_m A := λ s, (Ok (f (wb_of s)), s).
Definition wb_update (f : window_handler_baton_t -> window_handler_baton_t) : wstream_m unit :=
  λ s, (Ok tt, set_wb f s).
Definition write_chunk (data : bytes) : wstream_m unit := λ s, svn_stream_write s data.

(** The inner loop of [rep_read_range]: the svndiff text of one window, a chunk of
    4096 bytes at a time. *)
Fixpoint read_window (fuel : nat) (str_key : bytes) (off : nat) : wstream_m unit :=
  match fuel with
  | O => lift Undef
  | S fuel =>
      data ← in_fs (svn_fs__string_read str_key off 4096);
      write_chunk data;;
      is_done ← wb_get wb_done;
      if negb is_done && negb (length data =? 0)%nat
      then read_window fuel str_key (off + length data)
      else mret tt
  end.

(** One turn of the outer loop; [false] for [break]. *)
Definition window_step (fuel : nat) (req_off len : nat) (this_window : skel) : wstream_m bool :=
  wnd_skel ← lift (kid this_window 1);
  off_skel ← lift (kid this_window 0);
  this_off ← lift (atoi (apr_pstrndup (skel_data off_skel)));
  len_skel ← lift (kid wnd_skel 1);
  this_len ← lift (atoi (apr_pstrndup (skel_data len_skel)));
  let this_off := size_t this_off in
  let this_len := size_t this_len in
  if size_t (this_off + this_len - 1) <? Z.of_nat req_off then mret true
  else if size_t (Z.of_nat req_off + Z.of_nat len) <? this_off then mret false
  else
    diff ← lift (kid wnd_skel 0);
    key_skel ← lift (kid diff 1);
    base_skel ← lift (kid wnd_skel 3);
    wb_update (wb_set_window (Z.to_nat this_off) (apr_pstrndup (skel_data base_skel)));;
    read_window fuel (apr_pstrndup (skel_data key_skel)) 0;;
    mret true.

Fixpoint window_loop (fuel : nat) (req_off len : nat) (windows : list skel) : wstream_m unit :=
  match windows with
  | [] => mret tt
  | this_window :: windows =>
      continue ← window_step fuel req_off len this_window;
      is_done ← wb_get wb_done;
      if continue && negb is_done then window_loop fuel req_off len windows else mret tt
  end.

(** The fuel bounds the length of a chain of deltas and the number of chunks of a
    window: see [rep_read_range_ok]. *)
Fixpoint rep_read_range (fuel : nat) (rep_key : bytes) (req_off len : nat) : trail bytes :=
  match fuel with
  | O => lift Undef
  | S fuel =>
      rep ← svn_fs__read_rep rep_key;
      rep ← lift (deref rep);
      is_fulltext ← lift (rep_is_fulltext rep);
      if (is_fulltext : bool) then
        str_key ← lift (fulltext_string_key rep);
        svn_fs__string_read str_key req_off len
      else
        match tail (kids rep) with
        | [] => lift Abort
        | windows => λ fs,
            let wb := mk_whb fs [] req_off 0 [] len false in
            let '(r, s) :=
              (write_chunk svndiff_magic;;
               window_loop fuel req_off len windows;;
               (λ s, svn_stream_close s);;
               wb_get wb_buf)
              (svn_txdelta_parse_svndiff (rep_window_handler (rep_read_range fuel)) wb false) in
            (r, wb_fs (wb_of s))
        end
  end.
End reading.

(** ** What a representation denotes *)

(** The two forms; a window is its offset and length in the contents, the key of
    its svndiff text, and the representation it is a delta against. *)
Inductive rep_form :=
| Fulltext (str_key : bytes)
| Delta (windows : list (Z * Z * bytes * bytes)).

Definition window_view (s : skel) : option (Z * Z * bytes * bytes) :=
  match s with
  | SList _ [Atom off; SList _ [SList _ [Atom ty; Atom key]; Atom size; _; Atom base]] =>
      match atoi off, atoi size with
      | Ok off, Ok size => if decide (ty = bstr "svndiff") then Some (off, size, key, base) else None
      | _, _ => None
      end
  | _ => None
  end.

Definition rep_view (s : skel) : option rep_form :=
  match s with
  | SList _ (SList _ (Atom kind :: _) :: rest) =>
      if decide (kind = bstr "fulltext") then
        match rest with [Atom key] => Some (Fulltext key) | _ => None end
      else if decide (kind = bstr "delta") then Delta <$> mapM window_view rest
      else None
  | _ => None
  end.

Section denotation.
Context `{db : BerkeleyDB}.

Definition stored_rep (fs : svn_fs_t) (key : bytes) : option skel :=
  bt_get (representations fs) key ≫= svn_fs__parse_skel.

Definition form_of (fs : svn_fs_t) (key : bytes) : option rep_form := stored_rep fs key ≫= rep_view.

(** [denotes fs P n key s]: the contents of the representation are [s], all the
    representations it depends on satisfying [P]; [n] bounds the fuel needed to read
    it.  A delta has a window for each piece of the contents, in order; the source
    views slide forward, within the contents of the bases. *)
Inductive denotes (fs : svn_fs_t) (P : bytes -> Prop) : nat -> bytes -> bytes -> Prop :=
| den_fulltext n key str_key s :
    P key -> valid_key key -> form_of fs key = Some (Fulltext str_key) ->
    valid_key str_key -> string_of fs str_key = Some s -> denotes fs P (S n) key s
| den_delta n key windows s :
    P key -> valid_key key -> form_of fs key = Some (Delta windows) -> windows <> [] ->
    Z.of_nat (length s) < 2 ^ 31 -> windows_denote fs P n 0 0 0 windows s -> denotes fs P (S n) key s
with windows_denote (fs : svn_fs_t) (P : bytes -> Prop) :
    nat -> nat -> Z -> Z -> list (Z * Z * bytes * bytes) -> bytes -> Prop :=
| wd_nil n pos lo ll : windows_denote fs P n pos lo ll [] []
| wd_cons n pos lo ll str_key base ws w txt src t s :
    valid_key str_key -> string_of fs str_key = Some txt ->
    window_text w = Ok txt -> Z.of_nat (length txt) < two64 -> (length txt + 1 < n)%nat ->
    window_encodable w -> window_valid w = true ->
    slides_after lo ll w -> tview_len w = Z.of_nat (length t) -> t <> [] ->
    denotes fs P n base src -> Z.of_nat (length src) < two63 ->
    sview_offset w + sview_len w <= Z.of_nat (length src) ->
    apply_instructions w (sub src (sview_offset w) (sview_len w)) = Ok t ->
    windows_denote fs P n (pos + length t) (sview_offset w) (sview_len w) ws s ->
    windows_denote fs P n pos lo ll ((Z.of_nat pos, Z.of_nat (length t), str_key, base) :: ws) (t ++ s).

Scheme denotes_mut := Minimality for denotes Sort Prop
  with windows_denote_mut := Minimality for windows_denote Sort Prop.
Combined Scheme denotes_ind2 from denotes_mut, windows_denote_mut.
End denotation.

(** ** Examining a representation of a known form *)

Lemma matches_atom_data d str : svn_fs__matches_atom (Some (Atom d)) str = bool_decide (d = str).
Proof.
  simpl. destruct (bool_decide_reflect (d = str)) as [->|]; [by rewrite Nat.eqb_refl|by rewrite andb_false_r].
Qed.

Lemma pstrndup_valid k : valid_key k -> apr_pstrndup k = k.
Proof. apply str_to_dbt_valid. Qed.

Lemma fulltext_view s k :
  rep_view s = Some (Fulltext k) ->
  rep_is_fulltext s = Ok true /\ fulltext_string_key s = Ok (apr_pstrndup k).
Proof.
  destruct s as [|d [|[|d' [|[kind|] flags]] rest]]; try done. cbn [rep_view]. intros H.
  assert (rep_is_fulltext (SList d (SList d' (Atom kind :: flags) :: rest)) = Ok true) as Hf.
  { unfold rep_is_fulltext, kid, rd. cbn [kids lookup list_lookup mbind outcome_bind head].
    rewrite matches_atom_data. case_decide; [by rewrite bool_decide_true|].
    case_decide; [|done]. by destruct (mapM window_view rest). }
  split; [done|]. unfold fulltext_string_key. rewrite Hf. cbn [mbind outcome_bind negb].
  case_decide; [|case_decide; [by destruct (mapM window_view rest)|done]].
  destruct rest as [|[key|] [|]]; try done. by injection H as ->.
Qed.

Definition window_key (w : Z * Z * bytes * bytes) : bytes := w.1.2.

Lemma delta_view s ws :
  rep_view s = Some (Delta ws) ->
  rep_is_fulltext s = Ok false /\ rep_is_delta s = Ok true /\ mapM window_view (tail (kids s)) = Some ws.
Proof.
  destruct s as [|d [|[|d' [|[kind|] flags]] rest]]; try done. cbn [rep_view].
  case_decide as E1; [by destruct rest as [|[|] [|]]|]. case_decide as E2; [|done]. subst kind.
  intros H. destruct (mapM window_view rest) as [ws'|] eqn:E; [|done]. injection H as <-.
  split_and!; [done|done|exact E].
Qed.

(** What the code reads in a window. *)
Record window_fields (s : skel) (off len : Z) (key base : bytes) : Prop := {
  wf_wnd : exists wnd off_skel len_skel diff ty key_skel base_skel,
    kid s 1 = Ok wnd /\ kid s 0 = Ok off_skel /\ kid wnd 1 = Ok len_skel /\ kid wnd 0 = Ok diff /\
    kid diff 0 = Ok ty /\ kid diff 1 = Ok key_skel /\ kid wnd 3 = Ok base_skel /\
    atoi (skel_data off_skel) = Ok off /\ atoi (skel_data len_skel) = Ok len /\
    skel_data ty = bstr "svndiff" /\ skel_data key_skel = key /\ skel_data base_skel = base;
}.

Lemma window_view_fields s off len key base :
  window_view s = Some (off, len, key, base) -> window_fields s off len key base.
Proof.
  destruct s as [|d [|[o|] [|[|d1 [|[|d2 [|[ty|] [|[k|] [|]]]] [|[sz|] [|c [|[b|] [|]]]]]] [|]]]]; try done.
  cbn [window_view]. destruct (atoi o) as [o'| | |] eqn:Eo; try done.
  destruct (atoi sz) as [sz'| | |] eqn:Es; try done. case_decide; [|done]. intros [= <- <- <- <-].
  constructor. repeat eexists; done.
Qed.

Lemma delta_keys_view s ws :
  rep_view s = Some (Delta ws) -> delta_string_keys s = Ok (apr_pstrndup <$> (window_key <$> ws)).
Proof.
  intros H. destruct (delta_view s ws H) as (_ & Hd & Hm). unfold delta_string_keys. rewrite Hd.
  cbn [mbind outcome_bind negb]. clear H Hd. revert ws Hm. induction (tail (kids s)) as [|w l IH]; intros ws Hm.
  - by injection Hm as <-.
  - cbn [mapM] in Hm. destruct (window_view w) as [[[[off len] key] base]|] eqn:Ew; [|done].
    cbn [mbind option_bind] in Hm. destruct (mapM window_view l) as [ws'|]; [|done]. injection Hm as <-.
    destruct (window_view_fields _ _ _ _ _ Ew)
      as [(wnd & os & ls & diff & ty & ks & bs & E1 & _ & _ & E4 & E5 & E6 & _ & _ & _ & Et & Ek & _)].
    cbn [window_keys]. rewrite E1. cbn [mbind outcome_bind]. rewrite E4. cbn [mbind outcome_bind].
    rewrite E5. cbn [mbind outcome_bind]. rewrite Et. cbn [negb]. rewrite E6. cbn [mbind outcome_bind].
    rewrite (IH ws') by done. cbn [mbind outcome_bind fmap list_fmap window_key fst snd]. by rewrite Ek.
Qed.

Lemma pstrndup_cons c s : apr_pstrndup (c :: s) = if decide (c = NUL) then [] else c :: apr_pstrndup s.
Proof. unfold apr_pstrndup. cbn [strlen]. by destruct (byte_eq_dec c NUL), (decide (c = NUL)). Qed.

Lemma atoi_digits_pstrndup v s : atoi_digits v (apr_pstrndup s) = atoi_digits v s.
Proof.
  revert v. induction s as [|c s IH]; intros v; [done|]. rewrite pstrndup_cons.
  case_decide as E; cbn [atoi_digits]; [by subst c|]. by rewrite IH.
Qed.

Lemma atoi_space_pstrndup s : atoi_space (apr_pstrndup s) = apr_pstrndup (atoi_space s).
Proof.
  induction s as [|c s IH]; [done|]. rewrite pstrndup_cons. case_decide as E; cbn [atoi_space].
  - subst c. done.
  - destruct (_ || _); [done|]. by rewrite pstrndup_cons, decide_False.
Qed.

Lemma atoi_pstrndup s : atoi (apr_pstrndup s) = atoi s.
Proof.
  unfold atoi, ato_value. rewrite atoi_space_pstrndup. destruct (atoi_space s) as [|c l]; [done|].
  rewrite pstrndup_cons. case_decide as E.
  - subst c. done.
  - rewrite !atoi_digits_pstrndup. replace (atoi_digits 0 (c :: apr_pstrndup l)) with (atoi_digits 0 (c :: l)); [done|].
    cbn [atoi_digits]. by rewrite atoi_digits_pstrndup.
Qed.

(** ** The operations of a window *)

Section handler_ok.
Context `{db : BerkeleyDB}.

(** On a valid window an operation does what [apply_instructions] does. *)
Lemma handle_op_ok w sbuf op tbuf t :
  tview_len w < 2 ^ 31 -> op_valid w (Z.of_nat (length tbuf)) op = true ->
  apply_op w sbuf op tbuf = Ok t -> handle_op w sbuf op tbuf = Ok t.
Proof.
  intros Hw Hv E. unfold op_valid in Hv. rewrite !andb_true_iff, !Z.leb_le in Hv.
  destruct Hv as [[[Ho Hl] Ht] Hc]. unfold apply_op in E. inv_ok E. unfold handle_op.
  destruct (Z.ltb_spec (tview_len w) (Z.of_nat (length tbuf) + length_ op)); [lia|].
  destruct (action_code op); inv_ok E.
  - rewrite Ha2. done.
  - apply Z.ltb_lt in Hc. destruct (Z.leb_spec (2 ^ 31) (offset op + length_ op)); [lia|done].
  - rewrite Ha2. done.
Qed.

Lemma apply_op_length w sbuf op tbuf t :
  op_valid w (Z.of_nat (length tbuf)) op = true -> apply_op w sbuf op tbuf = Ok t ->
  Z.of_nat (length t) = Z.of_nat (length tbuf) + length_ op /\ take (length tbuf) t = tbuf.
Proof.
  intros Hv E. unfold op_valid in Hv. rewrite !andb_true_iff, !Z.leb_le in Hv.
  destruct Hv as [[[Ho Hl] Ht] Hc]. unfold apply_op in E. inv_ok E.
  destruct (action_code op); inv_ok E.
  - unfold rd_sub in Ha2. destruct (Nat.leb_spec (Z.to_nat (offset op) + Z.to_nat (length_ op)) (length sbuf)); [|done].
    injection Ha2 as <-. injection E as <-. rewrite take_app_length, length_app, length_take, length_drop. split; [lia|done].
  - apply Z.ltb_lt in Hc.
    destruct (copy_target_ok (Z.to_nat (length_ op)) (Z.to_nat (offset op)) tbuf ltac:(lia)) as (d & E' & Hd & _).
    rewrite E' in E. injection E as <-. rewrite take_app_length, length_app. split; [lia|done].
  - unfold rd_sub in Ha2. destruct (Nat.leb_spec (Z.to_nat (offset op) + Z.to_nat (length_ op)) (length (new_data w))); [|done].
    injection Ha2 as <-. injection E as <-. rewrite take_app_length, length_app, length_take, length_drop. split; [lia|done].
Qed.

Lemma apply_ops_prefix w sbuf l tbuf t :
  ops_valid w (Z.of_nat (length tbuf)) l = true -> apply_ops w sbuf l tbuf = Ok t ->
  take (length tbuf) t = tbuf /\ (length tbuf <= length t)%nat.
Proof.
  revert tbuf. induction l as [|op l IH]; intros tbuf Hv E; cbn [apply_ops ops_valid] in *.
  - injection E as <-. by rewrite firstn_all.
  - apply andb_true_iff in Hv as [Ho Hv]. inv_ok E.
    destruct (apply_op_length w sbuf op tbuf a Ho Ha) as [Hl Hp]. rewrite <- Hl in Hv.
    destruct (IH a Hv E) as [H1 H2]. pose proof Ho as Ho'. unfold op_valid in Ho'.
    rewrite !andb_true_iff, !Z.leb_le in Ho'. split; [|lia].
    rewrite <- Hp, <- H1, take_take. f_equal. rewrite length_take. lia.
Qed.

(** The loop ends as soon as the request can be filled. *)
Lemma handle_ops_ok read_source (fs : svn_fs_t) w sview discard room l sbuf tbuf t :
  read_source fs = (Ok sview, fs) -> tview_len w < 2 ^ 31 ->
  sbuf = None \/ sbuf = Some sview ->
  ops_valid w (Z.of_nat (length tbuf)) l = true -> apply_ops w sview l tbuf = Ok t ->
  (length tbuf - discard <= room)%nat ->
  exists tbuf' copy, handle_ops read_source w discard room l sbuf tbuf (length tbuf - discard) fs =
      (Ok (tbuf', copy), fs) /\
    copy = Nat.min room (length t - discard) /\ (copy <= length tbuf' - discard)%nat /\ take (length tbuf') t = tbuf' /\
    ((discard <= length t)%nat -> (discard <= length tbuf')%nat).
Proof.
  intros Hread Hw. revert sbuf tbuf. induction l as [|op l IH]; intros sbuf tbuf Hs Hv E Hc;
    cbn [handle_ops apply_ops ops_valid] in *.
  - injection E as <-. exists tbuf, (length tbuf - discard)%nat. rewrite firstn_all. split_and!; [done|lia|lia|done|done].
  - apply andb_true_iff in Hv as [Ho Hv]. inv_ok E. rename a into t1.
    destruct (apply_op_length w sview op tbuf t1 Ho Ha) as [Hl Hp].
    assert (exists sbuf', source_view read_source op sbuf fs = (Ok sbuf', fs) /\ (sbuf' = None \/ sbuf' = Some sview) /\
      (action_code op = svn_txdelta_source -> sbuf' = Some sview)) as (sbuf' & Es & Hs' & Hsrc).
    { unfold source_view. destruct (action_code op), sbuf as [s|]; destruct Hs as [Hs|Hs]; try done; simplify_eq;
        try (eexists; split; [done|]; split; [by (left + right)|done]).
      exists (Some sview). split; [by rewrite (state_bind_step _ _ _ _ _ Hread)|by auto]. }
    rewrite (state_bind_step _ _ _ _ _ Es).
    assert (handle_op w (default [] sbuf') op tbuf = Ok t1) as Eh.
    { apply handle_op_ok; [done..|]. rewrite <- Ha. unfold apply_op.
      destruct (action_code op); [by rewrite Hsrc|done|done]. }
    rewrite Eh, lift_bind. rewrite <- Hl in Hv.
    destruct (apply_ops_prefix w sview l t1 t Hv E) as [Hp1 Hl1].
    specialize (IH sbuf' t1 Hs' Hv E).
    destruct (Nat.leb_spec discard (length t1)).
    + destruct (Nat.ltb_spec room (length t1 - discard)).
      * exists t1, room. split_and!; [done|lia|lia|done|done].
      * by apply IH.
    + unfold op_valid in Ho. rewrite !andb_true_iff, !Z.leb_le in Ho.
      replace (length tbuf - discard)%nat with (length t1 - discard)%nat by lia. apply IH. lia.
Qed.
End handler_ok.

(** ** The stream of windows *)

(** A window is not delivered before its text is complete. *)
Lemma prefix_waits lo ll p x w :
  parse_window lo ll (p ++ x) = WWindow w [] -> x <> [] -> Z.of_nat (length (p ++ x)) < two64 ->
  parse_window lo ll p = WWait.
Proof.
  intros E Hx Hl. pose proof (parse_window_app lo ll p x) as Ha.
  destruct (parse_window lo ll p) as [|e| |w' rest]; [done| | |].
  - by rewrite Ha in E.
  - destruct (Ha Hl) as [H|H]; by rewrite H in E.
  - rewrite Ha in E. injection E as _ E. by apply app_eq_nil in E as [_ ->].
Qed.

Section wstream_ok.
Context `{db : BerkeleyDB}.
Context (handler : svn_txdelta_window_handler_t window_handler_baton_t).

(** The stream between two windows. *)
Definition wstream_at (wb : window_handler_baton_t) (buf : bytes) (lo ll : Z) :
    svn_stream_t (decode_baton window_handler_baton_t) :=
  mk_stream (mk_db handler wb buf lo ll 4 false)
    (fns (svn_txdelta_parse_svndiff (C := window_handler_baton_t) handler wb false)).

Lemma in_fs_ok {A} (m : trail A) wb buf lo ll a :
  m (wb_fs wb) = (Ok a, wb_fs wb) ->
  in_fs m (wstream_at wb buf lo ll) = (Ok a, wstream_at wb buf lo ll).
Proof. intros E. unfold in_fs, wb_of. cbn. rewrite E. by destruct wb. Qed.

Lemma write_chunk_run wb buf lo ll data :
  write_chunk data (wstream_at wb buf lo ll) =
  let '(r, db') := run (mk_db handler wb (buf ++ data) lo ll 4 false) in
  (r, mk_stream db' (fns (wstream_at wb buf lo ll))).
Proof. unfold write_chunk, svn_stream_write. cbn. rewrite write_handler_run. cbn. done. Qed.

Lemma write_chunk_waits wb buf lo ll data :
  parse_window lo ll (buf ++ data) = WWait ->
  write_chunk data (wstream_at wb buf lo ll) = (Ok tt, wstream_at wb (buf ++ data) lo ll).
Proof. intros E. rewrite write_chunk_run, run_eq. cbn [buffer last_sview_offset last_sview_len]. by rewrite E. Qed.

Lemma write_chunk_window wb buf lo ll data w wb' :
  parse_window lo ll (buf ++ data) = WWindow w [] -> handler (Some w) wb = (Ok tt, wb') ->
  write_chunk data (wstream_at wb buf lo ll) = (Ok tt, wstream_at wb' [] (sview_offset w) (sview_len w)).
Proof.
  intros E Eh. rewrite write_chunk_run, run_eq. cbn [buffer last_sview_offset last_sview_len consumer_func consumer_baton].
  rewrite E, Eh, run_eq. done.
Qed.

(** The text of a window is read: its window is handled once. *)
Lemma read_window_ok fuel str_key txt w wb wb' lo ll :
  string_of (wb_fs wb) (str_to_dbt str_key) = Some txt ->
  parse_window lo ll txt = WWindow w [] -> Z.of_nat (length txt) < two64 ->
  handler (Some w) wb = (Ok tt, wb') -> wb_fs wb' = wb_fs wb -> wb_done wb = false ->
  (length txt + 1 < fuel)%nat ->
  read_window fuel str_key 0 (wstream_at wb [] lo ll) =
    (Ok tt, wstream_at wb' [] (sview_offset w) (sview_len w)).
Proof.
  intros Hs Hp Hl Hh Hfs Hd Hf.
  assert (length txt <> 0)%nat as Hne by (intros E%nil_length_inv; by rewrite E in Hp).
  assert (forall fuel off, (off < length txt)%nat -> (length txt - off + 1 < fuel)%nat ->
    read_window fuel str_key off (wstream_at wb (take off txt) lo ll) =
    (Ok tt, wstream_at wb' [] (sview_offset w) (sview_len w))) as H.
  { clear fuel Hf. intros fuel. induction fuel as [|fuel IH]; intros off Hoff Hf; [lia|].
    cbn [read_window].
    rewrite (state_bind_step _ _ _ _ _ (in_fs_ok _ _ _ _ _ _ (string_read_ok _ _ _ off 4096 Hs))).
    set (d := take 4096 (drop off txt)).
    assert (length d = Nat.min 4096 (length txt - off)) as Hld by (unfold d; by rewrite length_take, length_drop).
    assert (take off txt ++ d = take (off + length d) txt) as Happ.
    { unfold d at 1. rewrite take_take_drop, Hld.
      destruct (Nat.le_gt_cases 4096 (length txt - off)); [by rewrite Nat.min_l|].
      rewrite !take_ge by lia. done. }
    destruct (decide (off + length d < length txt)%nat) as [Hlt|Hge].
    - rewrite (state_bind_step _ _ _ _ _ (write_chunk_waits wb (take off txt) lo ll d ltac:(
        rewrite Happ; apply (prefix_waits _ _ _ (drop (off + length d) txt) w);
        rewrite ?take_drop; [done|intros E; apply (f_equal length) in E; rewrite length_drop in E; simpl in E; lia|done]))).
      rewrite Happ. unfold wb_get at 1. unfold mbind at 1, state_bind at 1, wb_of. cbn [baton wstream_at consumer_baton].
      rewrite Hd. destruct (Nat.eqb_spec (length d) 0); [lia|]. cbn [negb andb]. apply IH; lia.
    - rewrite (state_bind_step _ _ _ _ _ (write_chunk_window wb (take off txt) lo ll d w wb' ltac:(
        rewrite Happ, take_ge by lia; done) Hh)).
      unfold wb_get at 1. unfold mbind at 1, state_bind at 1, wb_of. cbn [baton wstream_at consumer_baton].
      destruct (wb_done wb'); [done|]. destruct (Nat.eqb_spec (length d) 0); [lia|]. cbn [negb andb].
      destruct fuel as [|fuel]; [lia|]. cbn [read_window].
      assert (string_of (wb_fs wb') (str_to_dbt str_key) = Some txt) as Hs' by (by rewrite Hfs).
      rewrite (state_bind_step _ _ _ _ _ (in_fs_ok _ _ _ _ _ _ (string_read_ok _ _ _ (off + length d) 4096 Hs'))).
      rewrite drop_ge, take_nil by lia.
      rewrite (state_bind_step _ _ _ _ _ (write_chunk_waits wb' [] (sview_offset w) (sview_len w) [] ltac:(done))).
      unfold wb_get at 1. unfold mbind at 1, state_bind at 1. by rewrite andb_false_r. }
  apply (H fuel 0%nat); lia.
Qed.
End wstream_ok.

Lemma take_drop_app (len off : nat) (s t : bytes) :
  take len (drop off s) ++ take (len - length (take len (drop off s))) (drop (off - length s) t) =
  take len (drop off (s ++ t)).
Proof. rewrite drop_app, take_app, length_take. f_equal. f_equal. lia. Qed.

Section range_ok.
Context `{db : BerkeleyDB}.

(** The handler appends the part of the window that the request covers. *)
Lemma handler_ok read_range (fs : svn_fs_t) buf off pos base len w src t :
  read_range base (Z.to_nat (sview_offset w)) (Z.to_nat (sview_len w)) fs =
    (Ok (sub src (sview_offset w) (sview_len w)), fs) ->
  window_valid w = true -> tview_len w = Z.of_nat (length t) -> Z.of_nat (length t) < 2 ^ 31 ->
  apply_instructions w (sub src (sview_offset w) (sview_len w)) = Ok t -> (off - pos <= length t)%nat ->
  let d := take (len - length buf) (drop (off - pos) t) in
  rep_window_handler read_range (Some w) (mk_whb fs buf off pos base len false) =
    (Ok tt, mk_whb fs (buf ++ d) off (pos + length d) base len
       (size_t (Z.of_nat off + Z.of_nat len) <=? Z.of_nat (pos + length d))).
Proof.
  intros Hread Hv Ht Ht31 Ha Hd d. unfold apply_instructions in Ha. inv_ok Ha. rename a into t'.
  injection Ha as ->.
  unfold rep_window_handler. cbn [wb_done wb_fs wb_buf req_offset cur_offset base_rep len_req].
  replace (if (pos <? off)%nat then (off - pos)%nat else 0%nat) with (off - pos)%nat
    by (destruct (Nat.ltb_spec pos off); lia).
  destruct (handle_ops_ok _ fs w _ (off - pos) (len - length buf) (ops w) None [] t Hread ltac:(lia)
    ltac:(by left) Hv Ha0 ltac:(simpl; lia)) as (tbuf & copy & E & Hc & Hle & Hp & Hdt).
  change (length [] - (off - pos))%nat with 0%nat in E.
  rewrite (state_bind_step _ _ _ _ _ E). specialize (Hdt Hd).
  rewrite rd_sub_ok, lift_bind by lia. cbn [mret state_ret].
  assert (take copy (drop (off - pos) tbuf) = d) as ->; [|by rewrite orb_false_r].
  rewrite <- Hp, skipn_firstn_comm, take_take. unfold d. rewrite Nat.min_l by lia.
  rewrite Hc. destruct (Nat.le_gt_cases (len - length buf) (length t - (off - pos))); [by rewrite Nat.min_l|].
  rewrite !take_ge; rewrite ?length_drop; [done|lia|lia].
Qed.

(** What the loop has to do from one position on. *)
Definition loop_reads (fs : svn_fs_t) (fuel pos : nat) (lo ll : Z)
    (ws : list (Z * Z * bytes * bytes)) (s : bytes) : Prop :=
  forall off len windows lo' ll' before cur base,
    Z.of_nat off + Z.of_nat len < two64 -> mapM window_view windows = Some ws ->
    0 <= lo' <= lo -> 0 <= ll' -> lo' + ll' <= lo + ll -> length before = pos ->
    Z.of_nat (pos + length s) < 2 ^ 31 ->
    let h := rep_window_handler (rep_read_range fuel) in
    exists wb lo2 ll2,
      window_loop fuel off len windows
        (wstream_at h (mk_whb fs (take len (drop off before)) off cur base len false) [] lo' ll') =
      (Ok tt, wstream_at h wb [] lo2 ll2) /\
      wb_buf wb = take len (drop off (before ++ s)) /\ wb_fs wb = fs.

Lemma size_t_pos n : Z.of_nat n < two64 -> size_t (Z.of_nat n) = Z.of_nat n.
Proof. intros. apply size_t_small. lia. Qed.

(** A window that the request covers in part. *)
Lemma window_step_ok (fs : svn_fs_t) fuel off len window pos t str_key base w txt src lo ll before cur base0 :
  let h := rep_window_handler (rep_read_range fuel) in
  let before' := before ++ t in
  Z.of_nat off + Z.of_nat len < two64 -> length before = pos -> t <> [] -> Z.of_nat (pos + length t) < 2 ^ 31 ->
  window_view window = Some (Z.of_nat pos, Z.of_nat (length t), str_key, base) ->
  valid_key str_key -> string_of fs str_key = Some txt -> window_text w = Ok txt ->
  Z.of_nat (length txt) < two64 -> window_encodable w -> window_valid w = true -> slides_after lo ll w ->
  tview_len w = Z.of_nat (length t) -> 0 <= lo -> 0 <= ll -> valid_key base ->
  apply_instructions w (sub src (sview_offset w) (sview_len w)) = Ok t ->
  rep_read_range fuel base (Z.to_nat (sview_offset w)) (Z.to_nat (sview_len w)) fs =
    (Ok (sub src (sview_offset w) (sview_len w)), fs) ->
  (length txt + 1 < fuel)%nat ->
  let st := wstream_at h (mk_whb fs (take len (drop off before)) off cur base0 len false) [] lo ll in
  if (pos + length t <=? off)%nat then
    window_step fuel off len window st = (Ok true, st) /\ take len (drop off before') = take len (drop off before)
  else if (off + len <? pos)%nat then
    window_step fuel off len window st = (Ok false, st)
  else exists is_done,
    window_step fuel off len window st = (Ok true,
      wstream_at h (mk_whb fs (take len (drop off before')) off
        (pos + length (take (len - length (take len (drop off before))) (drop (off - pos) t))) base len is_done) []
        (sview_offset w) (sview_len w)) /\
    (is_done = true -> (len <= length (take len (drop off before')))%nat).
Proof.
  intros h before' Hoff Hb Ht H31 Hw Hk Hs Htxt Htl Henc Hv Hsl Htv Hlo Hll Hbase Ha Hread Hf st. subst pos.
  destruct (window_view_fields _ _ _ _ _ Hw)
    as [(wnd & os & ls & diff & ty & ks & bs & E1 & E2 & E3 & E4 & _ & E6 & E7 & E8 & E9 & _ & Ek & Eb)].
  unfold window_step. rewrite E1, lift_bind, E2, lift_bind, atoi_pstrndup, E8, lift_bind, E3, lift_bind,
    atoi_pstrndup, E9, lift_bind.
  assert (length t <> 0)%nat as Htn by (by intros E%nil_length_inv).
  rewrite !size_t_pos by (unfold two64; lia).
  rewrite (size_t_small (_ + _ - 1)), (size_t_small (_ + Z.of_nat len)) by (unfold two64 in *; lia).
  destruct (Nat.leb_spec ((length before) + length t) off).
  { destruct (Z.ltb_spec (Z.of_nat (length before) + Z.of_nat (length t) - 1) (Z.of_nat off)); [|lia].
    split; [done|]. unfold before'. rewrite !drop_ge; rewrite ?length_app; [done|lia|lia]. }
  destruct (Z.ltb_spec (Z.of_nat (length before) + Z.of_nat (length t) - 1) (Z.of_nat off)); [lia|].
  destruct (Nat.ltb_spec (off + len) (length before)).
  { destruct (Z.ltb_spec (Z.of_nat off + Z.of_nat len) (Z.of_nat (length before))); [done|lia]. }
  destruct (Z.ltb_spec (Z.of_nat off + Z.of_nat len) (Z.of_nat (length before))); [lia|].
  rewrite E4, lift_bind, E6, lift_bind, E7, lift_bind, Ek, Eb, Nat2Z.id, !pstrndup_valid by done.
  set (st1 := wstream_at h (mk_whb fs (take len (drop off before)) off (length before) base len false) [] lo ll).
  assert (wb_update (wb_set_window (length before) base) st = (Ok tt, st1)) as Eu by done.
  rewrite (state_bind_step _ _ _ _ _ Eu).
  destruct (window_text_ok w Henc) as (hd & ins & Eins & Ehd & Hp).
  unfold window_text in Htxt. rewrite Eins in Htxt. cbn [mbind outcome_bind] in Htxt.
  rewrite Ehd in Htxt. injection Htxt as <-.
  specialize (Hp lo ll [] Hsl Hlo Hll). rewrite app_nil_r in Hp.
  pose proof (handler_ok (rep_read_range fuel) fs (take len (drop off before)) off (length before) base len w src t
    Hread Hv Htv ltac:(lia) Ha ltac:(lia)) as Hh. cbn zeta in Hh.
  assert (string_of fs (str_to_dbt str_key) = Some (hd ++ ins ++ new_data w)) as Hs' by (by rewrite str_to_dbt_valid).
  pose proof (read_window_ok h fuel str_key _ w (mk_whb fs (take len (drop off before)) off (length before) base len false)
    _ lo ll Hs' Hp Htl Hh eq_refl eq_refl Hf) as Hrw.
  rewrite (state_bind_step _ _ _ _ _ Hrw).
  rewrite take_drop_app. eexists. split; [reflexivity|].
  rewrite size_t_small by lia. rewrite Z.leb_le, !length_take, !length_drop. unfold before'. rewrite length_app. lia.
Qed.
End range_ok.

Section read_ok.
Context `{db : BerkeleyDB}.

Lemma denotes_valid fs P n key s : denotes fs P n key s -> valid_key key.
Proof. by destruct 1. Qed.

(** The contents of any range. *)
Definition reads_with (fuel : nat) (fs : svn_fs_t) (key s : bytes) : Prop :=
  forall off len, Z.of_nat off + Z.of_nat len < two64 ->
    rep_read_range fuel key off len fs = (Ok (take len (drop off s)), fs).

Lemma loop_cons_ok (fs : svn_fs_t) fuel pos lo ll str_key base ws w txt src t s :
  valid_key str_key -> string_of fs str_key = Some txt ->
  window_text w = Ok txt -> Z.of_nat (length txt) < two64 -> window_encodable w -> window_valid w = true ->
  slides_after lo ll w -> tview_len w = Z.of_nat (length t) -> t <> [] -> valid_key base ->
  apply_instructions w (sub src (sview_offset w) (sview_len w)) = Ok t ->
  rep_read_range fuel base (Z.to_nat (sview_offset w)) (Z.to_nat (sview_len w)) fs =
    (Ok (sub src (sview_offset w) (sview_len w)), fs) ->
  (length txt + 1 < fuel)%nat ->
  loop_reads fs fuel (pos + length t) (sview_offset w) (sview_len w) ws s ->
  loop_reads fs fuel pos lo ll ((Z.of_nat pos, Z.of_nat (length t), str_key, base) :: ws) (t ++ s).
Proof.
  intros Hk Hs Htxt Htl Henc Hv Hsl Htv Ht Hbase Ha Hread Hf IH off len windows lo' ll' before cur base0
    Hoff Hm Hlo Hll Hsum Hb H31. rewrite length_app in H31.
  destruct windows as [|window windows]; [done|]. cbn [mapM] in Hm.
  destruct (window_view window) as [v|] eqn:Ew; [|done]. cbn [mbind option_bind] in Hm.
  destruct (mapM window_view windows) as [ws'|] eqn:Em; [|done]. injection Hm as -> ->.
  assert (slides_after lo' ll' w) as Hsl' by (unfold slides_after in *; lia).
  pose proof (window_step_ok fs fuel off len window pos t str_key base w txt src lo' ll' before cur base0
    Hoff Hb Ht ltac:(lia) Ew Hk Hs Htxt Htl Henc Hv Hsl' Htv ltac:(lia) Hll Hbase Ha Hread Hf) as Hstep.
  cbn zeta in Hstep. cbn zeta. cbn [window_loop]. pose proof Henc as ((Hso & Hsl0 & _) & _).
  assert (length (before ++ t) = (pos + length t)%nat) as Hbt by (rewrite length_app; lia).
  destruct (Nat.leb_spec (pos + length t) off).
  - destruct Hstep as [E Eb]. rewrite (state_bind_step _ _ _ _ _ E). unfold wb_get at 1.
    unfold mbind at 1, state_bind at 1, wb_of. cbn [baton wstream_at consumer_baton wb_done negb andb].
    rewrite <- Eb, app_assoc. unfold slides_after in Hsl. apply IH; try done; lia.
  - destruct (Nat.ltb_spec (off + len) pos).
    + rewrite (state_bind_step _ _ _ _ _ Hstep). unfold wb_get at 1. unfold mbind at 1, state_bind at 1.
      cbn [negb andb]. eexists _, _, _. split; [done|]. split; [|done]. cbn [wb_buf].
      rewrite drop_app_le by lia. by rewrite take_app_le by (rewrite length_drop; lia).
    + destruct Hstep as (is_done & E & Hdone). rewrite (state_bind_step _ _ _ _ _ E). unfold wb_get at 1.
      unfold mbind at 1, state_bind at 1, wb_of. cbn [baton wstream_at consumer_baton wb_done].
      rewrite app_assoc. destruct is_done; cbn [negb andb].
      * eexists _, _, _. split; [done|]. split; [|done]. cbn [wb_buf]. specialize (Hdone eq_refl).
        rewrite length_take, length_drop in Hdone.
        destruct (Nat.le_gt_cases off (length (before ++ t))).
        { rewrite (drop_app_le (before ++ t)) by lia. by rewrite take_app_le by (rewrite length_drop; lia). }
        assert (len = 0)%nat as -> by lia. done.
      * apply IH; try done; lia.
Qed.

Lemma denotes_reads (fs : svn_fs_t) P :
  (forall n key s, denotes fs P n key s -> forall fuel, (n <= fuel)%nat -> reads_with fuel fs key s) /\
  (forall n pos lo ll ws s, windows_denote fs P n pos lo ll ws s ->
     forall fuel, (n <= fuel)%nat -> loop_reads fs fuel pos lo ll ws s).
Proof.
  apply denotes_ind2.
  - intros n key str_key s _ Hk Hform Hsk Hs fuel Hf off len Hoff.
    destruct fuel as [|fuel]; [lia|]. cbn [rep_read_range]. unfold svn_fs__read_rep.
    rewrite str_to_dbt_valid by done. unfold form_of, stored_rep in Hform.
    destruct (bt_get (representations fs) key) as [v|] eqn:Ev; [|done]. cbn [mbind option_bind] in Hform.
    destruct (svn_fs__parse_skel v) as [rep|] eqn:Er; [|done]. cbn [mbind option_bind] in Hform.
    destruct (fulltext_view rep str_key Hform) as [E1 E2].
    unfold mbind at 1, state_bind at 1. rewrite reading_bind, Ev. cbn [mret state_ret]. rewrite Er.
    cbn [deref]. rewrite lift_bind, E1, lift_bind, E2, lift_bind.
    rewrite (pstrndup_valid str_key Hsk). apply string_read_ok. by rewrite str_to_dbt_valid.
  - intros n key ws s _ Hk Hform Hne H31 _ IH fuel Hf off len Hoff.
    destruct fuel as [|fuel]; [lia|]. cbn [rep_read_range]. unfold svn_fs__read_rep.
    rewrite str_to_dbt_valid by done. unfold form_of, stored_rep in Hform.
    destruct (bt_get (representations fs) key) as [v|] eqn:Ev; [|done]. cbn [mbind option_bind] in Hform.
    destruct (svn_fs__parse_skel v) as [rep|] eqn:Er; [|done]. cbn [mbind option_bind] in Hform.
    destruct (delta_view rep ws Hform) as (E1 & _ & Em).
    unfold mbind at 1, state_bind at 1. rewrite reading_bind, Ev. cbn [mret state_ret]. rewrite Er.
    cbn [deref]. rewrite lift_bind, E1, lift_bind.
    destruct (tail (kids rep)) as [|window windows] eqn:Et; [by injection Em as <-|].
    set (h := rep_window_handler (rep_read_range fuel)).
    set (wb := mk_whb fs [] off 0 [] len false).
    assert (write_chunk svndiff_magic (svn_txdelta_parse_svndiff h wb false) = (Ok tt, wstream_at h wb [] 0 0)) as Ew
      by done.
    destruct (IH fuel ltac:(lia) off len (window :: windows) 0 0 [] 0%nat [] Hoff Em)
      as (wb' & lo2 & ll2 & E & Hbuf & Hfs); [lia|lia|lia|done|simpl; lia|].
    fold h in E. change (take len (drop off [])) with (take len (drop off (@nil byte))) in E.
    rewrite drop_nil, take_nil in E. fold wb in E.
    rewrite (state_bind_step _ _ _ _ _ Ew), (state_bind_step _ _ _ _ _ E).
    unfold mbind at 1, state_bind at 1. cbn. by rewrite Hbuf, Hfs.
  - intros n pos lo ll fuel _ off len windows lo' ll' before cur base Hoff Hm _ _ _ _ _.
    destruct windows as [|w windows]; [|cbn in Hm; destruct (window_view w), (mapM window_view windows); done].
    cbn zeta. cbn [window_loop]. rewrite app_nil_r. by eexists _, _, _.
  - intros n pos lo ll str_key base ws w txt src t s Hk Hs Htxt Htl Hn Henc Hv Hsl Htv Ht Hbase IH1 Hsrc Hend Ha _ IH2
      fuel Hf. pose proof Henc as ((Hso & Hsl0 & _) & _).
    apply (loop_cons_ok fs fuel pos lo ll str_key base ws w txt src); try done.
    + by apply denotes_valid in Hbase.
    + apply IH1; [lia|]. unfold two63, two64 in *. lia.
    + lia.
    + by apply IH2.
Qed.

(** Reading returns the bytes of the contents. *)
Lemma rep_read_range_ok (fs : svn_fs_t) P n key s fuel :
  denotes fs P n key s -> (n <= fuel)%nat -> reads_with fuel fs key s.
Proof. intros H. by apply (proj1 (denotes_reads fs P) n key s H). Qed.

Lemma denotes_mono (fs : svn_fs_t) P :
  (forall n key s, denotes fs P n key s -> forall n', (n <= n')%nat -> denotes fs P n' key s) /\
  (forall n pos lo ll ws s, windows_denote fs P n pos lo ll ws s ->
     forall n', (n <= n')%nat -> windows_denote fs P n' pos lo ll ws s).
Proof.
  apply denotes_ind2.
  - intros n key str_key s HP Hk Hf Hsk Hs [|n'] Hn; [lia|]. by apply den_fulltext with str_key.
  - intros n key ws s HP Hk Hf Hne H31 _ IH [|n'] Hn; [lia|]. apply den_delta with ws; try done. apply IH. lia.
  - intros. constructor.
  - intros n pos lo ll str_key base ws w txt src t s Hk Hs Htxt Htl Hn Henc Hv Hsl Htv Ht _ IHb Hsrc Hend Ha _ IH n' Hn'.
    apply wd_cons with w txt src; try done; [lia|by apply IHb|by apply IH].
Qed.
End read_ok.

(** ** Changes that keep the contents *)

Section transfer.
Context `{db : BerkeleyDB}.

Definition rep_strings (f : rep_form) : list bytes :=
  match f with Fulltext str_key => [str_key] | Delta windows => window_key <$> windows end.

(** The record of a representation and its strings are the same. *)
Definition same_rep (fs fs' : svn_fs_t) (key : bytes) : Prop :=
  form_of fs' key = form_of fs key /\
  forall f k, form_of fs key = Some f -> k ∈ rep_strings f -> valid_key k -> string_of fs' k = string_of fs k.

(** The contents are kept when all representations are the same, except for some
    that keep their contents in another form. *)
Lemma denotes_transfer (fs fs' : svn_fs_t) (P P' other : bytes -> Prop) (c : nat) :
  (forall key, Decision (other key)) ->
  (forall key, P key -> valid_key key -> ~ other key -> P' key /\ same_rep fs fs' key) ->
  (forall n key s, other key -> denotes fs P n key s -> denotes fs' P' (n + c) key s) ->
  (forall n key s, denotes fs P n key s -> denotes fs' P' (n + c) key s) /\
  (forall n pos lo ll ws s, windows_denote fs P n pos lo ll ws s ->
     (forall w, w ∈ ws -> valid_key (window_key w) -> string_of fs' (window_key w) = string_of fs (window_key w)) ->
     windows_denote fs' P' (n + c) pos lo ll ws s).
Proof.
  intros Hdec Hsame Hother. apply denotes_ind2.
  - intros n key str_key s HP Hk Hform Hsk Hs. destruct (Hdec key) as [Ho|Ho].
    + apply Hother; [done|]. by apply den_fulltext with str_key.
    + destruct (Hsame key HP Hk Ho) as [HP' [Hf Hss]]. apply den_fulltext with str_key; try done.
      * by rewrite Hf.
      * rewrite (Hss _ str_key Hform); [done|by apply list_elem_of_singleton|done].
  - intros n key ws s HP Hk Hform Hne H31 Hws IH. destruct (Hdec key) as [Ho|Ho].
    + apply Hother; [done|]. by apply den_delta with ws.
    + destruct (Hsame key HP Hk Ho) as [HP' [Hf Hss]]. apply den_delta with ws; try done.
      * by rewrite Hf.
      * apply IH. intros w Hw Hv. apply (Hss _ _ Hform); [|done]. cbn [rep_strings].
        by apply (list_elem_of_fmap_2 window_key).
  - intros. constructor.
  - intros n pos lo ll str_key base ws w txt src t s Hk Hs Htxt Htl Hn Henc Hv Hsl Htv Ht _ IHb Hsrc Hend Ha _ IH Hss.
    apply wd_cons with w txt src; try done; [| lia|].
    + pose proof (Hss (Z.of_nat pos, Z.of_nat (length t), str_key, base) ltac:(by left) Hk) as E.
      cbn [window_key fst snd] in E. by rewrite E.
    + apply IH. intros w' Hw'. apply Hss. by right.
Qed.

Lemma denotes_same (fs fs' : svn_fs_t) (P P' : bytes -> Prop) n key s :
  (forall key, P key -> valid_key key -> P' key /\ same_rep fs fs' key) ->
  denotes fs P n key s -> denotes fs' P' n key s.
Proof.
  intros H Hd. rewrite <- (Nat.add_0_r n).
  refine (proj1 (denotes_transfer fs fs' P P' (λ _, False) 0 _ _ _) n key s Hd);
    [by intros; apply H|done].
Qed.

(** [s] is the contents of the representation. *)
Definition contents (fs : svn_fs_t) (key s : bytes) : Prop := exists n, denotes fs (λ _, True) n key s.

(** A representation has one contents. *)
Lemma denotes_unique (fs : svn_fs_t) P P' n n' key s s' :
  denotes fs P n key s -> denotes fs P' n' key s' -> s = s'.
Proof.
  intros H1 H2.
  assert (Z.of_nat (length s + length s') < two64 -> s = s') as Hshort.
  { intros Hl.
    pose proof (rep_read_range_ok fs P n key s (n + n')%nat H1 ltac:(lia) 0%nat (length s + length s')%nat ltac:(lia)) as E1.
    pose proof (rep_read_range_ok fs P' n' key s' (n + n')%nat H2 ltac:(lia) 0%nat (length s + length s')%nat ltac:(lia)) as E2.
    rewrite E1 in E2. injection E2 as E2. rewrite !drop_0, !take_ge in E2 by lia. done. }
  destruct H1 as [n key k s _ _ Hf _ Hs|n key ws s _ _ Hf _ H31 _];
    inversion H2 as [? ? k' ? ? ? Hf' ? Hs'|? ? ws' ? ? ? Hf' ? H31' ?]; subst;
    rewrite Hf' in Hf; simplify_eq; [congruence|]. apply Hshort. unfold two64. lia.
Qed.
End transfer.

(** ** The form does not depend on where lists were parsed from *)

Lemma window_view_erase s : window_view (erase s) = window_view s.
Proof.
  destruct s as [|d [|[o|] [|[|d1 [|[|d2 [|[ty|] [|[k|] [|]]]] [|[sz|] [|c [|[b|] [|]]]]]] [|]]]]; done.
Qed.

Lemma rep_view_erase s : rep_view (erase s) = rep_view s.
Proof.
  destruct s as [|d [|[|d' [|[kind|] flags]] rest]]; try done. cbn [erase fmap list_fmap rep_view].
  replace (mapM window_view (erase <$> rest)) with (mapM window_view rest).
  - destruct rest as [|[|] [|]]; done.
  - induction rest as [|s l IH]; [done|]. cbn [fmap list_fmap mapM]. rewrite window_view_erase, IH. done.
Qed.

#[export] Instance rep_view_proper : Proper ((≡) ==> (=)) rep_view.
Proof. intros s1 s2 E. by rewrite <- (rep_view_erase s1), E, rep_view_erase. Qed.
