(* ===== verification/RepOps.v ===== *)
(** * Operations on representations ([libsvn_fs/reps-strings.c])

    Sizes and contents, streams, mutable copies, writing, and conversion to and
    from deltas.  Reading a range and the meaning of a representation are in
    [Reps]. *)

From S2P Require Import Prelude KeyGen Libc Skel Id Stream Db NodeKeys Fs Strings TextDelta Vdelta Svndiff TxStream Reps.

Section operations.
Context `{db : BerkeleyDB}.

(** [fuel] is that of [rep_read_range]. *)
Context (fuel : nat).

Definition read_rep (key : bytes) : trail skel :=
  rep ← svn_fs__read_rep key; lift (deref rep).

(** ** Sizes and contents *)

Definition delta_contents_size (rep : skel) : outcome Z :=
  pkg_skel ← deref (list.last (tail (kids rep)));
  offset_skel ← kid pkg_skel 0;
  window_skel ← match kids pkg_skel !! 1%nat with Some s => Ok s | None => Abort end;
  size_skel ← kid window_skel 1;
  offset ← atoi (apr_pstrndup (skel_data offset_skel));
  size ← atoi (apr_pstrndup (skel_data size_skel));
  let sum := offset + size in
  if (- 2 ^ 31 <=? sum) && (sum <? 2 ^ 31) then Ok (size_t sum) else Undef.

Definition svn_fs__rep_contents_size (rep : bytes) : trail Z :=
  rep_skel ← read_rep rep;
  is_fulltext ← lift (rep_is_fulltext rep_skel);
  if (is_fulltext : bool) then
    str_key ← lift (fulltext_string_key rep_skel);
    n ← svn_fs__string_size str_key;
    mret (Z.of_nat n)
  else
    match tail (kids rep_skel) with
    | [] => lift Abort
    | _ => lift (delta_contents_size rep_skel)
    end.

Definition svn_fs__rep_contents (rep : bytes) : trail bytes :=
  len ← svn_fs__rep_contents_size rep;
  str ← rep_read_range fuel rep 0 (Z.to_nat len);
  if Z.of_nat (length str) =? len then mret str else fail SVN_ERR_FS_CORRUPT.

(** ** Streams

    Of the baton of a read stream only the offset changes.  A stream without a
    trail runs the same body in [svn_fs__retry_txn] (see [Trail]). *)

Definition txn_body_read_rep (rep_key : option bytes) (offset len : nat) : trail (bytes * nat) :=
  match rep_key with
  | Some rep_key =>
      data ← rep_read_range fuel rep_key offset len;
      mret (data, (offset + length data)%nat)
  | None => if (0 <? offset)%nat then fail SVN_ERR_FS_REP_CHANGED else mret ([], offset)
  end.

(** The filesystem is the one the baton points to; reading does not change it. *)
Definition rep_read_contents (fs : svn_fs_t) (rep_key : option bytes) (offset len : nat) : outcome bytes * nat :=
  match (txn_body_read_rep rep_key offset len fs).1 with
  | Ok (data, offset) => (Ok data, offset)
  | Err e => (Err e, offset) | Abort => (Abort, offset) | Undef => (Undef, offset)
  end.

Definition svn_fs__rep_contents_read_stream (fs : svn_fs_t) (rep : option bytes) (offset : nat) : svn_stream_t nat :=
  svn_stream_set_read (svn_stream_create offset) (rep_read_contents fs rep).

(** The error for a representation that is not mutable is built and dropped. *)
Definition rep_write (rep_key buf : bytes) : trail unit :=
  rep ← read_rep rep_key;
  is_mutable ← lift (rep_is_mutable rep);
  is_fulltext ← lift (rep_is_fulltext rep);
  if (is_fulltext : bool) then
    str_key ← lift (fulltext_string_key rep);
    str_key ← svn_fs__string_append (Some str_key) buf;
    mret tt
  else fail SVN_ERR_FS_CORRUPT.

Definition txn_body_write_rep : bytes -> bytes -> trail unit := rep_write.

(** The baton of a write stream, with the filesystem it points to. *)
Definition rep_write_contents (rep_key : bytes) (fs : svn_fs_t) (buf : bytes) : outcome unit * svn_fs_t :=
  txn_body_write_rep rep_key buf fs.

Definition svn_fs__rep_contents_write_stream (fs : svn_fs_t) (rep : bytes) : svn_stream_t svn_fs_t :=
  svn_stream_set_write (svn_stream_create fs) (rep_write_contents rep).

(** ** Mutable representations *)

(** The loop that copies the contents of a delta, 10000 bytes at a time. *)
Fixpoint copy_contents (n : nat) (rep : bytes) (new_str : option bytes) (offset size : nat) : trail (option bytes) :=
  match n with
  | O => lift Undef
  | S n =>
      if (offset <? size)%nat then
        let amount := if 10000 <? Z.of_nat (size - offset) then Z.to_nat 10000 else (size - offset)%nat in
        buf ← rep_read_range fuel rep offset amount;
        new_str ← svn_fs__string_append new_str buf;
        copy_contents n rep (Some new_str) (offset + length buf) size
      else mret new_str
  end.

(** The first character of a C string. *)
Definition empty_string (s : bytes) : bool := (strlen s =? 0)%nat.

Definition svn_fs__get_mutable_rep (rep : option bytes) : trail bytes :=
  match rep with
  | Some rep =>
      if empty_string rep then
        new_str ← svn_fs__string_append None [];
        rep_skel ← lift (make_fulltext_rep_skel (Some new_str) true);
        svn_fs__write_new_rep rep_skel
      else
        rep_skel ← read_rep rep;
        is_mutable ← lift (rep_is_mutable rep_skel);
        if (is_mutable : bool) then mret rep
        else
          is_fulltext ← lift (rep_is_fulltext rep_skel);
          if (is_fulltext : bool) then
            old_str ← lift (fulltext_string_key rep_skel);
            new_str ← svn_fs__string_copy old_str;
            rep_skel ← lift (rep_set_mutable_flag rep_skel);
            key_skel ← lift (kid rep_skel 1);
            svn_fs__write_new_rep (set_kids rep_skel (<[1%nat := set_data key_skel new_str]> (kids rep_skel)))
          else
            size ← svn_fs__rep_contents_size rep;
            new_str ← copy_contents fuel rep None 0 (Z.to_nat size);
            rep_skel ← lift (make_fulltext_rep_skel new_str true);
            svn_fs__write_new_rep rep_skel
  | None =>
      new_str ← svn_fs__string_append None [];
      rep_skel ← lift (make_fulltext_rep_skel (Some new_str) true);
      svn_fs__write_new_rep rep_skel
  end.

Definition svn_fs__make_rep_immutable (rep : bytes) : trail unit :=
  rep_skel ← read_rep rep;
  header ← lift (kid rep_skel 0);
  kind ← lift (kid header 0);
  match unset_mutable true (tail (kids header)) with
  | Some flags => svn_fs__write_rep rep (set_kids rep_skel (set_kids header (kind :: flags) :: tail (kids rep_skel)))
  | None => mret tt
  end.

Definition rep_string_keys (rep_skel : skel) : outcome (list bytes) :=
  is_fulltext ← rep_is_fulltext rep_skel;
  if (is_fulltext : bool) then str_key ← fulltext_string_key rep_skel; Ok [str_key]
  else delta_string_keys rep_skel.

Definition svn_fs__delete_rep_if_mutable (rep : bytes) : trail unit :=
  rep_skel ← read_rep rep;
  is_mutable ← lift (rep_is_mutable rep_skel);
  if negb is_mutable then mret tt
  else
    keys ← lift (rep_string_keys rep_skel);
    delete_strings keys;;
    svn_fs__delete_rep rep.

Definition svn_fs__rep_contents_clear (rep : bytes) : trail unit :=
  rep_skel ← read_rep rep;
  is_mutable ← lift (rep_is_mutable rep_skel);
  if negb is_mutable then fail SVN_ERR_FS_REP_NOT_MUTABLE
  else
    is_fulltext ← lift (rep_is_fulltext rep_skel);
    if (is_fulltext : bool) then
      str_key ← lift (fulltext_string_key rep_skel);
      if empty_string str_key then mret tt else svn_fs__string_clear str_key
    else
      orig_keys ← lift (delta_string_keys rep_skel);
      str_key ← svn_fs__string_append None [];
      rep_skel ← lift (make_fulltext_rep_skel (Some str_key) true);
      svn_fs__write_rep rep rep_skel;;
      delete_strings orig_keys.
End operations.

(** ** Deltified storage *)

Section deltify.
Context `{db : BerkeleyDB} {ctx : Type} `{m : Md5 ctx bytes}.
Context (fuel : nat).

(** What the memory of the digest holds before the digest is computed. *)
Context (digest_memory : bytes).

Definition write_string (key : option bytes) (data : bytes) : trail (option bytes) :=
  key ← svn_fs__string_append key data; mret (Some key).

(** [struct write_svndiff_strings_baton], with the filesystem it points to. *)
Record write_svndiff_strings_baton := mk_wsb {
  ws_fs : svn_fs_t;
  ws_key : option bytes;
  ws_size : nat;
  header_read : nat;
}.

(** A first piece shorter than the header wraps the length. *)
Definition write_svndiff_strings (wb : write_svndiff_strings_baton) (data : bytes) :
    outcome unit * write_svndiff_strings_baton :=
  let nheader := if (header_read wb <? 4)%nat then (4 - header_read wb)%nat else 0%nat in
  let header := (header_read wb + nheader)%nat in
  if (length data <? nheader)%nat then (Undef, wb)
  else
    let '(r, fs) := svn_fs__string_append (ws_key wb) (drop nheader data) (ws_fs wb) in
    match r with
    | Ok key => (Ok tt, mk_wsb fs (Some key) (ws_size wb + length data) header)
    | Err e => (Err e, mk_wsb fs (ws_key wb) (ws_size wb) header)
    | Abort => (Abort, mk_wsb fs (ws_key wb) (ws_size wb) header)
    | Undef => (Undef, mk_wsb fs (ws_key wb) (ws_size wb) header)
    end.

Record window_write_t := mk_ww { ww_key : option bytes; svndiff_len : nat; text_off : Z; text_len : Z }.

(** The state of the loop of [svn_fs__rep_deltify]. *)
Abbreviation txs_t := (svn_txdelta_stream_t (ctx := ctx) (dig := bytes) (S := nat) (T := nat)).
Abbreviation encoder_t := (encoder_baton write_svndiff_strings_baton).

Definition enc_baton (eb : encoder_t) : write_svndiff_strings_baton := baton (output eb).
Definition enc_set_baton (b : write_svndiff_strings_baton) (eb : encoder_t) : encoder_t :=
  mk_eb (mk_stream b (fns (output eb))) (header_done eb).

(** The streams read the filesystem as it is at the time of the call. *)
Definition read_from (fs : svn_fs_t) (source target : bytes) (s : txs_t) : txs_t :=
  mk_txs (mk_stream (baton (tx_source s)) (fns (svn_fs__rep_contents_read_stream fuel fs (Some source) 0)))
    (mk_stream (baton (tx_target s)) (fns (svn_fs__rep_contents_read_stream fuel fs (Some target) 0)))
    (more s) (pos s) (buf s) (context s) (digest s).

Fixpoint deltify_loop (n : nat) (source target : bytes) (txs : txs_t) (eb : encoder_t)
    (windows : list window_write_t) (tview_off : Z) (diffsize : nat) :
    outcome (txs_t * list window_write_t * nat) * encoder_t :=
  match n with
  | O => (Undef, eb)
  | S n =>
      let b := enc_baton eb in
      let eb := enc_set_baton (mk_wsb (ws_fs b) None 0 (header_read b)) eb in
      let '(r, txs) := svn_txdelta_next_window (read_from (ws_fs b) source target txs) in
      match r with
      | Ok window =>
          let '(r, eb) := window_handler window eb in
          match r with
          | Ok _ =>
              match window with
              | Some w =>
                  let b := enc_baton eb in
                  deltify_loop n source target txs eb
                    (windows ++ [mk_ww (ws_key b) (ws_size b) tview_off (tview_len w)])
                    (size_t (tview_off + tview_len w)) (diffsize + ws_size b)
              | None => (Ok (txs, windows, diffsize), eb)
              end
          | Err e => (Err e, eb) | Abort => (Abort, eb) | Undef => (Undef, eb)
          end
      | Err e => (Err e, eb) | Abort => (Abort, eb) | Undef => (Undef, eb)
      end
  end.

Fixpoint strings_size (keys : list bytes) : trail nat :=
  match keys with
  | [] => mret 0%nat
  | key :: keys => n ← svn_fs__string_size key; total ← strings_size keys; mret (n + total)%nat
  end.

Fixpoint delete_windows (windows : list window_write_t) : trail unit :=
  match windows with
  | [] => mret tt
  | ww :: windows => key ← lift (deref (ww_key ww)); svn_fs__string_delete key;; delete_windows windows
  end.

(** Elements prepended to an empty list, the last one first. *)
Definition make_list (l : list skel) : outcome skel :=
  foldr (λ s acc, acc ← acc; svn_fs__prepend s acc) (Ok svn_fs__make_empty_list) l.

Definition window_skel (source : bytes) (checksum_data : bytes) (ww : window_write_t) : outcome skel :=
  key ← deref (ww_key ww);
  diff ← make_list [svn_fs__str_atom (bstr "svndiff"); svn_fs__str_atom key];
  checksum ← make_list [svn_fs__str_atom (bstr "md5"); svn_fs__mem_atom checksum_data 16];
  win ← make_list [diff; svn_fs__str_atom (dec_text (text_len ww)); checksum; svn_fs__str_atom (str_to_dbt source)];
  make_list [svn_fs__str_atom (dec_text (text_off ww)); win].

Fixpoint window_skels (source checksum_data : bytes) (windows : list window_write_t) : outcome (list skel) :=
  match windows with
  | [] => Ok []
  | ww :: windows =>
      rest ← window_skels source checksum_data windows;
      win ← window_skel source checksum_data ww;
      Ok (win :: rest)
  end.

Definition delta_rep_skel (source checksum_data : bytes) (windows : list window_write_t) : outcome skel :=
  wins ← window_skels source checksum_data windows;
  header ← make_list [svn_fs__str_atom (bstr "delta")];
  make_list (header :: wins).

(** After the loop: the new strings replace the old ones if they are smaller. *)
Definition deltify_finish (target source : bytes) (digest : bytes) (windows : list window_write_t)
    (diffsize : nat) : trail unit :=
  old_rep ← read_rep target;
  orig_str_keys ← lift (rep_string_keys old_rep);
  old_size ← strings_size orig_str_keys;
  if (old_size <=? diffsize)%nat then delete_windows windows
  else
    rep ← lift (delta_rep_skel source digest windows);
    svn_fs__write_rep target rep;;
    delete_strings orig_str_keys.

Definition svn_fs__rep_deltify (target source : bytes) : trail unit :=
  if decide (str_to_dbt target = str_to_dbt source) then fail SVN_ERR_FS_CORRUPT
  else
    size ← svn_fs__rep_contents_size target;
    if Z.of_nat SVN_STREAM_CHUNK_SIZE <? size then mret tt
    else λ fs,
      let new_target_stream :=
        svn_stream_set_write (svn_stream_create (mk_wsb fs None 0 0)) write_svndiff_strings in
      let txs := svn_txdelta (svn_fs__rep_contents_read_stream fuel fs (Some source) 0)
                   (svn_fs__rep_contents_read_stream fuel fs (Some target) 0) in
      let '(r, eb) := deltify_loop fuel source target txs (svn_txdelta_to_svndiff new_target_stream) [] 0 0 in
      match r with
      | Ok (txs, windows, diffsize) =>
          match svn_txdelta_md5_digest txs with
          | None => (Err SVN_ERR_DELTA_MD5_CHECKSUM_ABSENT, ws_fs (enc_baton eb))
          | Some digest =>
              deltify_finish target source (default digest_memory digest) windows diffsize (ws_fs (enc_baton eb))
          end
      | Err e => (Err e, ws_fs (enc_baton eb)) | Abort => (Abort, ws_fs (enc_baton eb))
      | Undef => (Undef, ws_fs (enc_baton eb))
      end.

(** The loop of [svn_fs__rep_undeltify]; writing never changes the length. *)
Fixpoint undeltify_loop (n : nat) (rep : bytes) (key : option bytes) (offset : nat) : trail (option bytes) :=
  match n with
  | O => lift Undef
  | S n =>
      '(data, offset) ← txn_body_read_rep fuel (Some rep) offset (Z.to_nat 65536);
      key ← write_string key data;
      if (length data =? 0)%nat then mret key else undeltify_loop n rep key offset
  end.

Definition svn_fs__rep_undeltify (rep : bytes) : trail unit :=
  rep_skel ← read_rep rep;
  is_fulltext ← lift (rep_is_fulltext rep_skel);
  if (is_fulltext : bool) then mret tt
  else
    orig_keys ← lift (delta_string_keys rep_skel);
    key ← undeltify_loop fuel rep None 0;
    rep_skel ← lift (make_fulltext_rep_skel key false);
    svn_fs__write_rep rep rep_skel;;
    delete_strings orig_keys.
End deltify.

(** ** The table of representations *)

Section table_ok.
Context `{db : BerkeleyDB}.

Lemma read_rep_ok (fs : svn_fs_t) key f :
  valid_key key -> form_of fs key = Some f ->
  exists s, read_rep key fs = (Ok s, fs) /\ stored_rep fs key = Some s /\ rep_view s = Some f.
Proof.
  intros Hk Hf. unfold form_of in Hf. destruct (stored_rep fs key) as [s|] eqn:Es; [|done].
  cbn [mbind option_bind] in Hf. unfold stored_rep in Es.
  destruct (bt_get (representations fs) key) as [v|] eqn:Ev; [|done]. cbn [mbind option_bind] in Es.
  exists s. split; [|done]. unfold read_rep, svn_fs__read_rep. rewrite str_to_dbt_valid by done.
  unfold mbind at 1, state_bind at 1. rewrite reading_bind, Ev. cbn [mret state_ret]. by rewrite Es.
Qed.

Definition with_rep (fs : svn_fs_t) (key : bytes) (s : skel) : svn_fs_t :=
  set_representations (bt_put (representations fs) key (text s)) fs.

Lemma write_rep_ok (fs : svn_fs_t) key s :
  valid_key key -> skel_storable s -> svn_fs__write_rep key s fs = (Ok tt, with_rep fs key s).
Proof.
  intros Hk [Hf _]. unfold svn_fs__write_rep. rewrite unparse_skel_text, lift_bind by done.
  unfold writing. by rewrite str_to_dbt_valid.
Qed.

Lemma stored_rep_write (fs : svn_fs_t) key s k :
  skel_storable s ->
  (k = key -> exists s', stored_rep (with_rep fs key s) k = Some s' /\ s' ≡ s) /\
  (k <> key -> stored_rep (with_rep fs key s) k = stored_rep fs k).
Proof.
  intros [Hf Hl]. unfold stored_rep, with_rep. cbn [representations set_representations].
  rewrite bt_get_put, dbt_order_eq. split.
  - intros ->. rewrite bool_decide_true by done. cbn [mbind option_bind]. by apply parse_skel_text.
  - intros Hne. by rewrite bool_decide_false by congruence.
Qed.

Lemma form_of_write (fs : svn_fs_t) key s k :
  skel_storable s -> form_of (with_rep fs key s) k = if decide (k = key) then rep_view s else form_of fs k.
Proof.
  intros Hf. destruct (stored_rep_write fs key s k Hf) as [H1 H2]. unfold form_of. case_decide as E.
  - destruct (H1 E) as (s' & -> & Hs). cbn [mbind option_bind]. by rewrite Hs.
  - by rewrite H2.
Qed.

Lemma stored_with_rep (fs : svn_fs_t) key s st : stored fs st -> stored (with_rep fs key s) st.
Proof. by intros []. Qed.

Lemma rep_string_keys_ok s f :
  rep_view s = Some f -> Forall valid_key (rep_strings f) -> rep_string_keys s = Ok (rep_strings f).
Proof.
  intros Hv Hk. unfold rep_string_keys. destruct f as [k|ws]; cbn [rep_strings] in *.
  - destruct (fulltext_view s k Hv) as [-> ->]. cbn [mbind outcome_bind].
    apply Forall_cons_iff in Hk as [Hk _]. by rewrite pstrndup_valid.
  - destruct (delta_view s ws Hv) as (-> & _ & _). cbn [mbind outcome_bind].
    rewrite (delta_keys_view s ws Hv). f_equal. clear Hv. induction (window_key <$> ws) as [|k l IH]; [done|].
    apply Forall_cons_iff in Hk as [Hk Hl]. cbn [fmap list_fmap]. by rewrite pstrndup_valid, IH.
Qed.

(** ** Well-formed tables *)

(** The keys of the table are below the next one. *)
Record reps_next (fs : svn_fs_t) (next : bytes) : Prop := {
  rn_next : bt_get (representations fs) svn_fs__next_key_key = Some next;
  rn_valid : valid_key next;
  rn_short : (length next <= 198)%nat;
  rn_used key : valid_key key -> is_Some (bt_get (representations fs) key) -> key_val key < key_val next;
}.

Lemma reps_next_same fs fs' next : representations fs' = representations fs -> reps_next fs next -> reps_next fs' next.
Proof. intros E [H1 H2 H3 H4]. split; [by rewrite E|done|done|]. intros key. rewrite E. apply H4. Qed.

(** A record in use is overwritten. *)
Lemma reps_next_write (fs : svn_fs_t) key s f next :
  valid_key key -> form_of fs key = Some f -> reps_next fs next -> reps_next (with_rep fs key s) next.
Proof.
  intros Hk Hf [H1 H2 H3 H4].
  assert (is_Some (bt_get (representations fs) key)) as Hs.
  { unfold form_of, stored_rep in Hf. by destruct (bt_get (representations fs) key). }
  assert (forall k, bt_get (representations (with_rep fs key s)) k =
    if decide (key = k) then Some (text s) else bt_get (representations fs) k) as Hget.
  { intros k. unfold with_rep. cbn [representations set_representations]. rewrite bt_get_put, dbt_order_eq.
    case_decide; [by rewrite bool_decide_true|by rewrite bool_decide_false]. }
  split; [|done|done|].
  - rewrite Hget, decide_False; [done|]. by apply next_key_not_valid.
  - intros k Hkk. rewrite Hget. case_decide; [subst; by auto|by auto].
Qed.

(** The strings of the representations exist, and none is used twice. *)
Record reps_wf (fs : svn_fs_t) : Prop := {
  rw_used key f k : valid_key key -> form_of fs key = Some f -> k ∈ rep_strings f ->
    valid_key k /\ is_Some (string_of fs k);
  rw_nodup key f : valid_key key -> form_of fs key = Some f -> NoDup (rep_strings f);
  rw_once key1 key2 f1 f2 k : valid_key key1 -> valid_key key2 ->
    form_of fs key1 = Some f1 -> form_of fs key2 = Some f2 ->
    k ∈ rep_strings f1 -> k ∈ rep_strings f2 -> key1 = key2;
}.

Lemma rep_strings_valid fs key f : reps_wf fs -> valid_key key -> form_of fs key = Some f -> Forall valid_key (rep_strings f).
Proof. intros Hwf Hk Hf. apply list.Forall_forall. intros k Hin. by destruct (rw_used fs Hwf key f k Hk Hf Hin). Qed.

(** The strings of a representation in the store are the same afterwards, when the
    change of the store keeps them. *)
Lemma same_rep_stored (fs fs' : svn_fs_t) st st' key :
  stored fs st -> stored fs' st' -> form_of fs' key = form_of fs key ->
  (forall f k, form_of fs key = Some f -> k ∈ rep_strings f -> valid_key k -> st'.1 !! k = st.1 !! k) ->
  same_rep fs fs' key.
Proof.
  intros H1 H2 Hf H. split; [done|]. intros f k Hform Hk Hv.
  rewrite (st_strings _ _ H1), (st_strings _ _ H2) by done. by apply (H f).
Qed.

Lemma stored_string fs st key s :
  stored fs st -> valid_key key -> st.1 !! key = Some s -> string_of fs (str_to_dbt key) = Some s.
Proof. intros Hst Hk Hs. rewrite (str_to_dbt_valid key Hk). by rewrite (st_strings _ _ Hst key Hk). Qed.

(** Deleting strings. *)
Lemma delete_strings_ok fs st keys :
  stored fs st -> Forall valid_key keys -> NoDup keys -> (forall k, k ∈ keys -> is_Some (st.1 !! k)) ->
  exists fs' st', delete_strings keys fs = (Ok tt, fs') /\ only_strings fs fs' /\ stored fs' st' /\ st'.2 = st.2 /\
    (forall k, st'.1 !! k = if decide (k ∈ keys) then None else st.1 !! k).
Proof.
  revert fs st. induction keys as [|key keys IH]; intros fs st Hst Hv Hn Hin.
  - exists fs, st. by split_and!.
  - apply Forall_cons_iff in Hv as [Hk Hv]. apply list.NoDup_cons in Hn as [Hni Hn].
    destruct (Hin key ltac:(by left)) as [s Hs].
    pose proof (stored_string fs st key s Hst Hk Hs) as Hs'.
    destruct (string_delete_ok fs key s Hs') as (fs1 & E & Hc). rewrite str_to_dbt_valid in Hc by done.
    pose proof (stored_changed _ _ _ _ _ Hst Hc Hk (stored_used _ _ _ _ Hst Hk Hs)) as Hst1.
    destruct (IH fs1 (partial_alter (λ _, None) key st.1, st.2) Hst1 Hv Hn) as (fs2 & st2 & E2 & Ho & Hst2 & Hnext & Hl).
    { intros k Hk'. cbn [fst]. rewrite lookup_partial_alter_ne by (by intros ->). apply Hin. by right. }
    exists fs2, st2. cbn [delete_strings]. rewrite (state_bind_step _ _ _ _ _ E). split_and!; try done.
    + destruct Ho as [Ho1 Ho2], Hc as [[Hc1 Hc2] _]. split; congruence.
    + intros k. rewrite Hl. cbn [fst]. destruct (decide (k = key)) as [->|Hne].
      * rewrite lookup_partial_alter_eq, decide_False, decide_True by (done || by left). done.
      * rewrite lookup_partial_alter_ne by congruence. destruct (decide (k ∈ keys)) as [Hin'|Hin'].
        -- by rewrite decide_True by (by right).
        -- rewrite decide_False; [done|]. by intros [->|?]%elem_of_cons.
Qed.

Lemma strings_size_ok fs st keys :
  stored fs st -> Forall valid_key keys -> (forall k, k ∈ keys -> is_Some (st.1 !! k)) ->
  exists n, strings_size keys fs = (Ok n, fs).
Proof.
  intros Hst Hv. induction Hv as [|key keys Hk Hv IH]; intros Hin; [by exists 0%nat|].
  destruct (Hin key ltac:(by left)) as [s Hs]. destruct IH as [n E]; [by intros k ?; apply Hin; right|].
  exists (length s + n)%nat. cbn [strings_size].
  pose proof (stored_string fs st key s Hst Hk Hs) as Hs'.
  by rewrite (state_bind_step _ _ _ _ _ (string_size_ok fs key s Hs')), (state_bind_step _ _ _ _ _ E).
Qed.
End table_ok.

(** ** Sizes and contents *)

Section contents_ok.
Context `{db : BerkeleyDB}.

Lemma mapM_last l ws v :
  mapM window_view l = Some ws -> list.last ws = Some v -> exists w, list.last l = Some w /\ window_view w = Some v.
Proof.
  revert ws. induction l as [|w l IH]; intros ws Hm Hl; [by injection Hm as <-|].
  cbn [mapM] in Hm. destruct (window_view w) as [v'|] eqn:Ew; [|done]. cbn [mbind option_bind] in Hm.
  destruct (mapM window_view l) as [ws'|] eqn:Em; [|done]. injection Hm as <-.
  destruct ws' as [|v2 ws'].
  - injection Hl as <-. exists w. split; [|done]. destruct l as [|w2 l]; [done|].
    cbn [mapM] in Em. destruct (window_view w2), (mapM window_view l); done.
  - rewrite last_cons_cons in Hl. destruct (IH _ eq_refl Hl) as (w' & El & Ev). exists w'. split; [|done].
    destruct l; [done|]. by rewrite last_cons_cons.
Qed.

Lemma windows_last fs P n pos lo ll ws s :
  windows_denote fs P n pos lo ll ws s -> ws <> [] ->
  exists p l k b, list.last ws = Some (Z.of_nat p, Z.of_nat l, k, b) /\ (p + l = pos + length s)%nat.
Proof.
  induction 1 as [|n pos lo ll str_key base ws w txt src t s _ _ _ _ _ _ _ _ _ _ _ _ _ _ Hws IH]; [done|].
  intros _. destruct ws as [|w2 ws].
  - inversion Hws; subst. exists pos, (length t), str_key, base. rewrite app_nil_r. done.
  - destruct IH as (p & l & k & b & E & Hp); [done|]. exists p, l, k, b. rewrite last_cons_cons.
    split; [done|]. rewrite length_app. lia.
Qed.

Lemma contents_size_ok fs P n key s :
  denotes fs P n key s -> svn_fs__rep_contents_size key fs = (Ok (Z.of_nat (length s)), fs).
Proof.
  intros Hd. unfold svn_fs__rep_contents_size.
  destruct Hd as [n key str_key s _ Hk Hf Hsk Hs|n key ws s _ Hk Hf Hne H31 Hws];
    destruct (read_rep_ok fs key _ Hk Hf) as (rep & E & _ & Hv); rewrite (state_bind_step _ _ _ _ _ E).
  - destruct (fulltext_view rep str_key Hv) as [-> ->]. rewrite !lift_bind, (pstrndup_valid str_key Hsk).
    rewrite <- (str_to_dbt_valid str_key Hsk) in Hs.
    by rewrite (state_bind_step _ _ _ _ _ (string_size_ok fs str_key s Hs)).
  - destruct (delta_view rep ws Hv) as (-> & _ & Hm). rewrite lift_bind.
    destruct (windows_last _ _ _ _ _ _ _ _ Hws Hne) as (p & l & k & b & El & Hp).
    destruct (mapM_last _ _ _ Hm El) as (w & Ew & Evw).
    assert (delta_contents_size rep = Ok (Z.of_nat (length s))) as Ed.
    { unfold delta_contents_size. rewrite Ew. cbn [deref mbind outcome_bind].
      destruct (window_view_fields _ _ _ _ _ Evw)
        as [(wnd & os & ls & diff & ty & ks & bs & E1 & E2 & E3 & _ & _ & _ & _ & E8 & E9 & _)].
      rewrite E2. cbn [mbind outcome_bind]. apply rd_Ok in E1. rewrite E1. cbn [mbind outcome_bind].
      rewrite E3. cbn [mbind outcome_bind]. rewrite !atoi_pstrndup, E8. cbn [mbind outcome_bind].
      rewrite E9. cbn [mbind outcome_bind]. rewrite <- Nat2Z.inj_add, Hp, Nat.add_0_l.
      destruct (Z.leb_spec (- 2 ^ 31) (Z.of_nat (length s))); [|lia].
      destruct (Z.ltb_spec (Z.of_nat (length s)) (2 ^ 31)); [|lia]. cbn [andb].
      by rewrite size_t_small by (unfold two64; lia). }
    destruct (tail (kids rep)) as [|x l'] eqn:Et; [done|]. by rewrite Ed.
Qed.

(** Reading the whole contents. *)
Lemma rep_contents_ok fs P n key s fuel :
  denotes fs P n key s -> Z.of_nat (length s) < two64 -> (n <= fuel)%nat ->
  svn_fs__rep_contents fuel key fs = (Ok s, fs).
Proof.
  intros Hd Hl Hf. pose proof (rep_read_range_ok fs P n key s fuel Hd Hf 0%nat (length s) ltac:(lia)) as Hr.
  unfold svn_fs__rep_contents. rewrite (state_bind_step _ _ _ _ _ (contents_size_ok fs P n key s Hd)).
  rewrite Nat2Z.id. rewrite (state_bind_step _ _ _ _ _ Hr).
  rewrite drop_0, firstn_all, Z.eqb_refl. done.
Qed.

Lemma read_contents_ok fuel fs key s off len :
  reads_with fuel fs key s -> Z.of_nat off + Z.of_nat len < two64 ->
  rep_read_contents fuel fs (Some key) off len =
    (Ok (take len (drop off s)), (off + length (take len (drop off s)))%nat).
Proof.
  intros Hr Hl. unfold rep_read_contents, txn_body_read_rep.
  by rewrite (state_bind_step _ _ _ _ _ (Hr off len Hl)).
Qed.

(** A read stream delivers the contents. *)
#[refine] Definition rep_readable (fuel : nat) (fs : svn_fs_t) (key s : bytes) (Hr : reads_with fuel fs key s)
    (Hl : Z.of_nat (length s) < two63) :
    ReadableStream (fns (svn_fs__rep_contents_read_stream fuel fs (Some key) 0)) :=
  {| stream_delivers off l := l = drop off s /\ (off <= length s)%nat |}.
Proof.
  intros off l n [-> Ho] Hn. exists (off + length (take n (drop off s)))%nat. split.
  - unfold svn_stream_read. cbn. rewrite (read_contents_ok fuel fs key s) by (done || unfold two63, two64 in *; lia). done.
  - rewrite length_take, length_drop. split; [|lia]. rewrite drop_drop.
    destruct (Nat.le_gt_cases n (length s - off)); [by rewrite Nat.min_l|].
    rewrite !drop_ge by lia. done.
Defined.
End contents_ok.

(** ** Writing the windows of a delta *)

Section write_windows.
Context `{db : BerkeleyDB}.

Lemma only_strings_trans (fs1 fs2 fs3 : svn_fs_t) :
  only_strings fs1 fs2 -> only_strings fs2 fs3 -> only_strings fs1 fs3.
Proof. intros [] []. split; congruence. Qed.

Lemma string_append_stored fs st k x d :
  stored fs st -> valid_key k -> st.1 !! k = Some x ->
  exists fs', svn_fs__string_append (Some k) d fs = (Ok k, fs') /\ only_strings fs fs' /\
    stored fs' (<[k := x ++ d]> st.1, st.2).
Proof.
  intros Hst Hk Hx. destruct (string_append_ok fs k d) as (fs' & E & Hc). exists fs'.
  rewrite str_to_dbt_valid, (st_strings _ _ Hst k Hk), Hx in Hc by done.
  split; [done|]. split; [apply Hc|]. apply (stored_changed fs fs' st k _ Hst Hc Hk).
  by apply (stored_used _ _ _ _ Hst Hk Hx).
Qed.


(** The callbacks of the new target stream. *)
Definition strings_fns : stream_fns write_svndiff_strings_baton := mk_fns None (Some write_svndiff_strings) None.

Lemma write_strings_ok fs st k x n d :
  stored fs st -> valid_key k -> st.1 !! k = Some x ->
  exists fs', svn_stream_write (mk_stream (mk_wsb fs (Some k) n 4) strings_fns) d =
      (Ok tt, mk_stream (mk_wsb fs' (Some k) (n + length d) 4) strings_fns) /\
    only_strings fs fs' /\ stored fs' (<[k := x ++ d]> st.1, st.2).
Proof.
  intros Hst Hk Hx. destruct (string_append_stored fs st k x d Hst Hk Hx) as (fs' & E & H). exists fs'.
  split; [|done]. unfold svn_stream_write. cbn [write_fn fns strings_fns baton]. unfold write_svndiff_strings.
  cbn [header_read ws_fs ws_key ws_size Nat.ltb Nat.leb]. rewrite drop_0, E, Nat.add_0_r.
  destruct (Nat.ltb_spec (length d) 0); [lia|done].
Qed.

Lemma write_nonempty_strings_ok fs st k x n d :
  stored fs st -> valid_key k -> st.1 !! k = Some x ->
  exists fs', write_nonempty (Ok tt) (mk_stream (mk_wsb fs (Some k) n 4) strings_fns) d =
      (Ok tt, mk_stream (mk_wsb fs' (Some k) (n + length d) 4) strings_fns) /\
    only_strings fs fs' /\ stored fs' (<[k := x ++ d]> st.1, st.2).
Proof.
  intros Hst Hk Hx. destruct d as [|c d].
  - exists fs. cbn [write_nonempty length]. rewrite Nat.add_0_r, app_nil_r.
    rewrite (insert_id st.1 k x Hx). by destruct st.
  - by apply write_strings_ok.
Qed.

(** The header is not stored: its write makes a string, which is empty. *)
Lemma write_header_ok fs st :
  stored fs st -> (length st.2 < 198)%nat ->
  exists fs', svn_stream_write (mk_stream (mk_wsb fs None 0 0) strings_fns) svndiff_magic =
      (Ok tt, mk_stream (mk_wsb fs' (Some st.2) 4 4) strings_fns) /\
    only_strings fs fs' /\ stored fs' (<[st.2 := []]> st.1, bump st.2).
Proof.
  intros Hst Hl. destruct (string_new_ok fs st [] Hst Hl) as (fs' & E & H). exists fs'. split; [|done].
  unfold svn_stream_write. cbn [write_fn fns strings_fns baton]. unfold write_svndiff_strings.
  cbn [header_read ws_fs ws_key ws_size Nat.ltb Nat.leb Nat.sub]. change (drop 4 svndiff_magic) with (@nil byte).
  by rewrite E.
Qed.

Lemma write_first_window_ok fs st w :
  stored fs st -> (length st.2 < 198)%nat -> window_encodable w ->
  exists fs' txt, window_text w = Ok txt /\
    window_handler (Some w) (mk_eb (mk_stream (mk_wsb fs None 0 0) strings_fns) false) =
      (Ok tt, mk_eb (mk_stream (mk_wsb fs' (Some st.2) (4 + length txt) 4) strings_fns) true) /\
    only_strings fs fs' /\ stored fs' (<[st.2 := txt]> st.1, bump st.2).
Proof.
  intros Hst Hl Hw. destruct (window_text_ok w Hw) as (hd & ins & Ei & Eh & _).
  destruct (write_header_ok fs st Hst Hl) as (fs1 & E1 & Ho1 & H1). pose proof (st_valid _ _ Hst) as Hk.
  destruct (write_strings_ok fs1 _ st.2 [] 4 hd H1 Hk) as (fs2 & E2 & Ho2 & H2).
  { cbn [fst]. by rewrite lookup_insert_eq. }
  destruct (write_nonempty_strings_ok fs2 _ st.2 hd (4 + length hd) ins H2 Hk) as (fs3 & E3 & Ho3 & H3).
  { cbn [fst]. by rewrite lookup_insert_eq. }
  destruct (write_nonempty_strings_ok fs3 _ st.2 (hd ++ ins) (4 + length hd + length ins) (new_data w) H3 Hk)
    as (fs4 & E4 & Ho4 & H4).
  { cbn [fst]. by rewrite lookup_insert_eq. }
  exists fs4, (hd ++ ins ++ new_data w). split_and!.
  - unfold window_text. rewrite Ei. cbn [mbind outcome_bind]. by rewrite Eh.
  - unfold window_handler. cbn [header_done output]. rewrite E1. cbn [output]. rewrite Ei. cbn [mbind outcome_bind].
    rewrite Eh. cbn [mbind outcome_bind]. rewrite E2, E3, E4. rewrite !length_app. cbn [header_done].
    by rewrite !Nat.add_assoc.
  - by eapply only_strings_trans, only_strings_trans, only_strings_trans.
  - cbn [fst snd] in H4. by rewrite !insert_insert_eq, <- app_assoc in H4.
Qed.
End write_windows.

(** ** The loop of [svn_fs__rep_deltify] *)

Section loop_ok.
Context `{db : BerkeleyDB} {ctx : Type} `{m : Md5 ctx bytes}.
Context (fuel : nat) (fs : svn_fs_t) (st : store) (source target s t : bytes).
Context (Hst : stored fs st) (Hlen : (length st.2 < 198)%nat).
Context (Hs : Z.of_nat (length s) < two63) (Ht : (length t <= SVN_STREAM_CHUNK_SIZE)%nat).

(** New strings do not change what is read. *)
Context (Hreads : forall fs' st', only_strings fs fs' -> stored fs' st' ->
  (forall k, is_Some (st.1 !! k) -> st'.1 !! k = st.1 !! k) ->
  reads_with fuel fs' source s /\ reads_with fuel fs' target t).

Lemma target_small : Z.of_nat (length t) < two63.
Proof. pose proof chunk_size. unfold two63. lia. Qed.

(** The streams, once they read from [fs']. *)
Definition txs_inv (fs' : svn_fs_t) (Hr : reads_with fuel fs' source s) (Hr' : reads_with fuel fs' target t)
    (left_ : bytes) (p saved : nat) (txs : svn_txdelta_stream_t (ctx := ctx) (dig := bytes)) : Prop :=
  @tx_inv ctx bytes m nat nat _ _ (rep_readable fuel fs' source s Hr Hs) (rep_readable fuel fs' target t Hr' target_small)
    s left_ p saved (read_from fuel fs' source target txs).

Lemma txs_inv_init Hr Hr' :
  txs_inv fs Hr Hr' t 0 0 (svn_txdelta (svn_fs__rep_contents_read_stream fuel fs (Some source) 0)
    (svn_fs__rep_contents_read_stream fuel fs (Some target) 0)).
Proof.
  unfold txs_inv. apply (@tx_inv_init ctx bytes m nat nat _ _ (rep_readable fuel fs source s Hr Hs)
    (rep_readable fuel fs target t Hr' target_small) s 0%nat 0%nat t); cbn; rewrite drop_0; (split; [done|lia]).
Qed.

(** The streams do not depend on the filesystem they are read from. *)
Lemma txs_inv_move fs1 fs2 Hr1 Hr1' Hr2 Hr2' left_ p saved txs :
  @tx_inv ctx bytes m nat nat _ _ (rep_readable fuel fs1 source s Hr1 Hs)
    (rep_readable fuel fs1 target t Hr1' target_small) s left_ p saved txs ->
  txs_inv fs2 Hr2 Hr2' left_ p saved txs.
Proof.
  intros [(b & Eb & Hb) (b' & Eb' & Hb') H3 H4 H5 H6 H7 H8]. constructor; try done.
  - exists b. cbn. by rewrite Eb.
  - exists b'. cbn. by rewrite Eb'.
Qed.

Lemma deltify_loop_empty txs n eb Hr Hr' p saved windows off size :
  txs_inv fs Hr Hr' [] p saved txs -> (0 < n)%nat ->
  output eb = mk_stream (mk_wsb fs None 0 0) strings_fns -> header_done eb = false ->
  exists txs' fs', deltify_loop fuel n source target txs eb windows off size =
      (Ok (txs', windows, size), mk_eb (mk_stream (mk_wsb fs' (Some st.2) 4 4) strings_fns) true) /\
    svn_txdelta_md5_digest txs' = Some None /\ only_strings fs fs' /\ stored fs' (<[st.2 := []]> st.1, bump st.2).
Proof.
  intros Hinv Hn Eo Eh. destruct n as [|n]; [lia|]. cbn [deltify_loop].
  destruct eb as [o hd]. cbn [output header_done] in Eo, Eh. subst o hd.
  unfold enc_baton, enc_set_baton. cbn [output baton ws_fs header_read fns header_done].
  destruct (next_window_ok _ _ s Hs [] p saved _ Hinv) as [_ (txs' & E & Hm & Hd & _)]. rewrite E.
  destruct (write_header_ok fs st Hst Hlen) as (fs' & E1 & Ho & H1).
  unfold window_handler. cbn [header_done output fns baton ws_fs header_read]. rewrite E1. cbn [output header_done].
  exists txs', fs'. split; [done|]. split; [|done]. unfold svn_txdelta_md5_digest. by rewrite Hm, Hd.
Qed.

Lemma deltify_loop_end fs1 (txs : svn_txdelta_stream_t (ctx := ctx) (dig := bytes)) n b Hr Hr' p saved windows off size :
  txs_inv fs1 Hr Hr' [] p saved txs -> (0 < n)%nat -> ws_fs b = fs1 ->
  exists txs' b', deltify_loop fuel n source target txs (mk_eb (mk_stream b strings_fns) true) windows off size =
      (Ok (txs', windows, size), mk_eb (mk_stream b' strings_fns) true) /\
    svn_txdelta_md5_digest txs' = Some None /\ ws_fs b' = fs1.
Proof.
  intros Hinv Hn Eb. destruct n as [|n]; [lia|]. cbn [deltify_loop].
  unfold enc_baton, enc_set_baton. cbn [output baton ws_fs header_read fns header_done]. rewrite Eb.
  destruct (next_window_ok _ _ s Hs [] p saved _ Hinv) as [_ (txs' & E & Hm & Hd & _)]. rewrite E.
  unfold window_handler. cbn [header_done output svn_stream_close close_fn strings_fns fns].
  eexists txs', _. split; [done|]. split; [|done]. unfold svn_txdelta_md5_digest. by rewrite Hm, Hd.
Qed.

Lemma match_cons {A} (l : list A) (P Q : Prop) : l <> [] -> match l with [] => P | _ :: _ => Q end -> Q.
Proof. by destruct l. Qed.

(** The loop makes one window, unless there is nothing to encode. *)
Lemma deltify_loop_ok n :
  (2 <= n)%nat ->
  exists txs fs' k windows diffsize s0,
    deltify_loop fuel n source target
      (svn_txdelta (svn_fs__rep_contents_read_stream fuel fs (Some source) 0)
        (svn_fs__rep_contents_read_stream fuel fs (Some target) 0) : svn_txdelta_stream_t (ctx := ctx) (dig := bytes))
      (svn_txdelta_to_svndiff (svn_stream_set_write (svn_stream_create (mk_wsb fs None 0 0)) write_svndiff_strings))
      [] 0 0 = (Ok (txs, windows, diffsize), mk_eb (mk_stream k strings_fns) true) /\
    ws_fs k = fs' /\ svn_txdelta_md5_digest txs = Some None /\
    only_strings fs fs' /\ stored fs' (<[st.2 := s0]> st.1, bump st.2) /\
    (t = [] -> windows = [] /\ diffsize = 0%nat /\ s0 = []) /\
    (t <> [] -> exists w, window_good s w t /\ tview_len w = Z.of_nat (length t) /\ window_text w = Ok s0 /\
       0 <= sview_offset w /\ sview_offset w + sview_len w <= Z.of_nat (length s) /\
       windows = [mk_ww (Some st.2) (4 + length s0) 0 (Z.of_nat (length t))] /\ diffsize = (4 + length s0)%nat).
Proof.
  intros Hn. destruct (Hreads fs st) as [Hr Hr']; [done|done|done|].
  pose proof (txs_inv_init Hr Hr') as Hinv.
  set (txs0 := svn_txdelta _ _) in *.
  change (svn_txdelta_to_svndiff _) with (mk_eb (mk_stream (mk_wsb fs None 0 0) strings_fns) false).
  destruct (decide (t = [])) as [Et|Et].
  - revert Hinv. generalize 0%nat at 1 2. intros p Hinv.
    assert (exists p', txs_inv fs Hr Hr' [] p p' txs0) as [p' Hinv'].
    { exists p. by rewrite <- Et. }
    destruct (deltify_loop_empty txs0 n
      (mk_eb (mk_stream (mk_wsb fs None 0 0) strings_fns) false) Hr Hr' p p' [] 0 0 Hinv')
      as (txs & fs' & E & Hd & Ho & H1); [lia|done|done|].
    exists txs, fs', (mk_wsb fs' (Some st.2) 4 4), [], 0%nat, []. split_and!; done.
  - destruct n as [|n]; [lia|]. cbn [deltify_loop].
    unfold enc_baton, enc_set_baton. cbn [output baton ws_fs header_read fns header_done].
    destruct (next_window_ok _ _ s Hs t 0 0 _ Hinv) as [Hp H].
    apply match_cons in H; [|done].
    destruct H as (w & txs1 & E & Hinv1 & Hg & Hso & Hsl). rewrite E.
    rewrite drop_ge in Hinv1 by lia. rewrite take_ge in Hg by lia.
    destruct (write_first_window_ok fs st w Hst Hlen (good_encodable _ _ _ Hg)) as (fs1 & txt & Etxt & E1 & Ho & H1).
    rewrite E1. cbn [output baton ws_fs ws_key ws_size header_read].
    destruct (Hreads fs1 _ Ho H1) as [Hr1 Hr1'].
    { intros k Hk. cbn [fst]. apply lookup_insert_ne. intros <-. rewrite (stored_fresh _ _ Hst) in Hk. by destruct Hk. }
    set (b1 := mk_wsb fs1 _ _ _).
    destruct (deltify_loop_end fs1 txs1 n b1 Hr1 Hr1' _ _
      ([] ++ [mk_ww (Some st.2) (4 + length txt) 0 (tview_len w)]) (size_t (0 + tview_len w)) (4 + length txt)
      (txs_inv_move fs fs1 Hr Hr' Hr1 Hr1' [] _ _ txs1 Hinv1) ltac:(lia) eq_refl) as (txs2 & b2 & E2 & Hd & Hb2).
    assert (tview_len w = Z.of_nat (length t)) as Htv.
    { pose proof (good_apply _ _ _ Hg) as Ha. unfold apply_instructions in Ha. inv_ok Ha. injection Ha as ->.
      unfold c_assert in Ha1. by destruct (Z.eqb_spec (Z.of_nat (length t)) (tview_len w)). }
    exists txs2, fs1, b2, [mk_ww (Some st.2) (4 + length txt) 0 (tview_len w)], (4 + length txt)%nat, txt.
    split_and!; [exact E2|exact Hb2|exact Hd|done|done|done|]. intros _. exists w.
    assert (read_to s 0 0 <= length s)%nat by (unfold read_to; lia).
    split_and!; [done|done|done|lia|lia|by rewrite Htv|done].
Qed.
End loop_ok.

(** ** The representation that replaces the old one *)

Lemma atoi_dec_text n :
  0 <= n < 2 ^ 31 -> atoi (dec_text n) = Ok n /\ (length (dec_text n) <= 200)%nat.
Proof.
  intros Hn. unfold dec_text. destruct (putsize_200 n) as [ds E]; [unfold two64; lia|]. rewrite E. cbn [default from_option id].
  pose proof (putsize_spec 200 n ltac:(lia)) as H. rewrite E in H. destruct H as (Hd & Hv & Hl & _). split; [|lia].
  pose proof (atoi_text ds [] n Hd ltac:(lia) Hv Hn I) as Ha. by rewrite app_nil_r in Ha.
Qed.

(** The skel of a delta of one window. *)
Definition one_window (k source checksum : bytes) (len : Z) : skel :=
  SList [] [SList [] [Atom (bstr "delta")];
    SList [] [Atom (dec_text 0);
      SList [] [SList [] [Atom (bstr "svndiff"); Atom k]; Atom (dec_text len);
        SList [] [Atom (bstr "md5"); Atom (take 16 checksum)]; Atom source]]].

Lemma delta_rep_skel_ok k n len source checksum :
  delta_rep_skel source checksum [mk_ww (Some k) n 0 len] = Ok (one_window k (str_to_dbt source) checksum len).
Proof. done. Qed.

Lemma one_window_view k source checksum len :
  0 <= len < 2 ^ 31 -> rep_view (one_window k source checksum len) = Some (Delta [(0, len, k, source)]).
Proof.
  intros Hl. unfold one_window. cbn [rep_view mapM window_view].
  destruct (atoi_dec_text 0 ltac:(lia)) as [-> _]. destruct (atoi_dec_text len Hl) as [-> _]. done.
Qed.

Lemma one_window_fits k source checksum len :
  0 <= len < 2 ^ 31 -> Z.of_nat (length k) < 2 ^ 31 -> Z.of_nat (length source) < 2 ^ 31 ->
  skel_storable (one_window k source checksum len).
Proof.
  intros Hl Hk Hs. destruct (atoi_dec_text 0 ltac:(lia)) as [_ H0]. destruct (atoi_dec_text len Hl) as [_ H1].
  assert (length (take 16 checksum) <= 16)%nat as H2 by (rewrite length_take; lia).
  unfold one_window. generalize dependent (dec_text 0). generalize dependent (dec_text len).
  generalize dependent (take 16 checksum). intros a Ha b Hb c Hc. apply skel_fits_small.
  - cbn [skel_fits foldr]. split_and!; try exact I; unfold two64; try lia; by vm_compute.
  - pose proof (atom_size k). pose proof (atom_size source). pose proof (atom_size a). pose proof (atom_size b).
    pose proof (atom_size c). pose proof (atom_size (bstr "delta")). pose proof (atom_size (bstr "svndiff")).
    pose proof (atom_size (bstr "md5")). change (length (bstr "delta")) with 5%nat in *.
    change (length (bstr "svndiff")) with 7%nat in *. change (length (bstr "md5")) with 3%nat in *.
    repeat (rewrite list_estimate; cbn [foldr]). unfold two64. lia.
Qed.

Section replace.
Context `{db : BerkeleyDB}.

(** One representation gets other strings. *)
Lemma reps_wf_replace (fs fs' : svn_fs_t) target f' :
  reps_wf fs -> (forall key, valid_key key -> key <> target -> same_rep fs fs' key) ->
  form_of fs' target = Some f' -> NoDup (rep_strings f') ->
  (forall k, k ∈ rep_strings f' -> valid_key k /\ is_Some (string_of fs' k)) ->
  (forall k key f, k ∈ rep_strings f' -> valid_key key -> key <> target -> form_of fs key = Some f -> k ∉ rep_strings f) ->
  reps_wf fs'.
Proof.
  intros [Hu Hn Ho] Hsame Hf' Hnd Hk' Hfresh.
  assert (forall key f, valid_key key -> key <> target -> form_of fs' key = Some f -> form_of fs key = Some f) as Hform.
  { intros key f Hk Hne Hf. destruct (Hsame key Hk Hne) as [E _]. by rewrite <- E. }
  split.
  - intros key f k Hk Hf Hin. destruct (decide (key = target)) as [->|Hne]; [rewrite Hf' in Hf; simplify_eq; by apply Hk'|].
    destruct (Hu key f k Hk (Hform _ _ Hk Hne Hf) Hin) as [Hv He]. split; [done|].
    destruct (Hsame key Hk Hne) as [_ E]. by rewrite (E f k) by auto.
  - intros key f Hk Hf. destruct (decide (key = target)) as [->|Hne]; [rewrite Hf' in Hf; by simplify_eq|].
    by apply (Hn key); [|apply Hform].
  - intros k1 k2 f1 f2 k Hk1 Hk2 Hf1 Hf2 Hin1 Hin2.
    destruct (decide (k1 = target)) as [E1|Hne1], (decide (k2 = target)) as [E2|Hne2]; [congruence| | |].
    + subst k1. rewrite Hf' in Hf1. simplify_eq. by destruct (Hfresh k k2 f2 Hin1 Hk2 Hne2 (Hform _ _ Hk2 Hne2 Hf2)).
    + subst k2. rewrite Hf' in Hf2. simplify_eq. by destruct (Hfresh k k1 f1 Hin2 Hk1 Hne1 (Hform _ _ Hk1 Hne1 Hf1)).
    + apply (Ho k1 k2 f1 f2 k); auto.
Qed.

(** The contents of all are kept, when the contents of one are. *)
Lemma contents_replace (fs fs' : svn_fs_t) target n t :
  (forall key, valid_key key -> key <> target -> same_rep fs fs' key) ->
  contents fs target t -> denotes fs' (λ _, True) n target t ->
  forall key x, contents fs key x -> contents fs' key x.
Proof.
  intros Hsame [n0 Ht] Ht' key x [n1 Hx]. exists (n1 + n)%nat.
  refine (proj1 (denotes_transfer fs fs' (λ _, True) (λ _, True) (λ k, k = target) n _ _ _) n1 key x Hx).
  - intros k _ Hk Hne. split; [done|]. by apply Hsame.
  - intros n2 k y -> Hy. rewrite (denotes_unique fs _ _ _ _ _ _ _ Hy Ht).
    apply (proj1 (denotes_mono fs' _) n target t Ht'). lia.
Qed.
End replace.

(** ** [svn_fs__rep_deltify] *)

Section deltify_ok.
Context `{db : BerkeleyDB} {ctx : Type} `{m : Md5 ctx bytes}.
Context (fuel : nat) (digest_memory : bytes).

Lemma form_of_reps (fs fs' : svn_fs_t) key : representations fs' = representations fs -> form_of fs' key = form_of fs key.
Proof. unfold form_of, stored_rep. by intros ->. Qed.

(** Representations are the same when their strings are in a larger store. *)
Lemma same_rep_store (fs fs' : svn_fs_t) st st' key :
  reps_wf fs -> stored fs st -> stored fs' st' -> valid_key key -> form_of fs' key = form_of fs key ->
  (forall k f, valid_key k -> form_of fs key = Some f -> k ∈ rep_strings f -> is_Some (st.1 !! k) -> st'.1 !! k = st.1 !! k) ->
  same_rep fs fs' key.
Proof.
  intros Hwf H1 H2 Hk Hf H. apply (same_rep_stored _ _ st st'); [done..|]. intros f k Hform Hin Hv.
  apply (H k f); [done..|]. rewrite <- (st_strings _ _ H1) by done. by apply (rw_used fs Hwf key f).
Qed.

Lemma insert_fresh fs st (k x : bytes) :
  stored fs st -> is_Some (st.1 !! k) -> <[st.2 := x]> st.1 !! k = st.1 !! k.
Proof.
  intros Hst Hk. apply lookup_insert_ne. intros <-. rewrite (stored_fresh _ _ Hst) in Hk. by destruct Hk.
Qed.

Lemma reps_wf_same (fs fs' : svn_fs_t) :
  reps_wf fs -> (forall key, valid_key key -> same_rep fs fs' key) -> reps_wf fs'.
Proof.
  intros [Hu Hn Ho] Hsame.
  assert (forall key f, valid_key key -> form_of fs' key = Some f -> form_of fs key = Some f) as Hf.
  { intros key f Hk. by destruct (Hsame key Hk) as [-> _]. }
  split.
  - intros key f k Hk Hf' Hin. destruct (Hu key f k Hk (Hf _ _ Hk Hf') Hin) as [Hv He]. split; [done|].
    destruct (Hsame key Hk) as [_ E]. by rewrite (E f k) by auto.
  - intros key f Hk Hf'. apply (Hn key); auto.
  - intros k1 k2 f1 f2 k Hk1 Hk2 Hf1 Hf2. apply Ho; auto.
Qed.

Lemma contents_same (fs fs' : svn_fs_t) key x :
  (forall key, valid_key key -> same_rep fs fs' key) -> contents fs key x -> contents fs' key x.
Proof.
  intros Hsame [n Hx]. exists n. apply (denotes_same fs fs' (λ _, True) (λ _, True)); [|done].
  intros k _ Hk. by auto.
Qed.

(** What [svn_fs__rep_deltify] keeps: the nodes, the contents of all the
    representations, and the records of those other than [target]. *)
Record deltified (fs fs' : svn_fs_t) (target : bytes) : Prop := {
  dl_nodes : node_tables fs' = node_tables fs;
  dl_wf : reps_wf fs';
  dl_stored : exists st', stored fs' st';
  dl_contents key x : contents fs key x -> contents fs' key x;
  dl_others key : key <> target -> form_of fs' key = form_of fs key;
  dl_next next : reps_next fs next -> reps_next fs' next;
}.

(** The new string is deleted. *)
Lemma delete_new_ok fs fs1 st target txt ww :
  reps_wf fs -> stored fs st -> only_strings fs fs1 -> stored fs1 (<[st.2 := txt]> st.1, bump st.2) ->
  ww_key ww = Some st.2 ->
  exists fs', delete_windows [ww] fs1 = (Ok tt, fs') /\ deltified fs fs' target /\ form_of fs' target = form_of fs target.
Proof.
  intros Hwf Hst [Hn1 Hr1] Hst1 Hww. pose proof (st_valid _ _ Hst) as Hkv.
  destruct (delete_strings_ok fs1 _ [st.2] Hst1) as (fs2 & st2 & E2 & [Hn2 Hr2] & Hst2 & _ & Hl2).
  { constructor; [done|constructor]. } { apply NoDup_singleton. }
  { intros k ->%list_elem_of_singleton. cbn [fst]. by rewrite lookup_insert_eq. }
  assert (forall key, form_of fs2 key = form_of fs key) as Hform by (intros; apply form_of_reps; congruence).
  assert (forall key, valid_key key -> same_rep fs fs2 key) as Hsame.
  { intros key Hk. apply (same_rep_store _ _ st st2); try done.
    intros k f' Hv Hf' Hin Hsome. rewrite Hl2. cbn [fst]. rewrite decide_False; [by apply (insert_fresh fs)|].
    intros ->%list_elem_of_singleton. rewrite (stored_fresh _ _ Hst) in Hsome. by destruct Hsome. }
  exists fs2. cbn [delete_windows]. rewrite Hww. split; [exact E2|]. split; [|done]. split.
  - congruence.
  - by apply (reps_wf_same fs).
  - by exists st2.
  - intros key x. by apply contents_same.
  - done.
  - intros next. apply reps_next_same. congruence.
Qed.

(** A representation is rewritten to use a new string, and its old strings are
    deleted. *)
Lemma swap_rep_ok fs fs1 st target f new f' txt :
  reps_wf fs -> stored fs st -> only_strings fs fs1 -> stored fs1 (<[st.2 := txt]> st.1, bump st.2) ->
  valid_key target -> form_of fs target = Some f -> rep_view new = Some f' -> skel_storable new ->
  rep_strings f' = [st.2] ->
  exists fs', (svn_fs__write_rep target new;; delete_strings (rep_strings f)) fs1 = (Ok tt, fs') /\
    node_tables fs' = node_tables fs /\ (exists st', stored fs' st') /\ reps_wf fs' /\
    form_of fs' target = Some f' /\ string_of fs' st.2 = Some txt /\
    (forall key, key <> target -> form_of fs' key = form_of fs key) /\
    (forall key, valid_key key -> key <> target -> same_rep fs fs' key) /\
    (forall next, reps_next fs next -> reps_next fs' next).
Proof.
  intros Hwf Hst [Hn1 Hr1] Hst1 Htk Hf Hview Hfits Hnew. pose proof (st_valid _ _ Hst) as Hkv.
  rewrite (state_bind_step _ _ _ _ _ (write_rep_ok fs1 target new Htk Hfits)).
  assert (forall k, k ∈ rep_strings f -> is_Some (st.1 !! k)) as Hused.
  { intros k Hin. destruct (rw_used fs Hwf target f k Htk Hf Hin) as [Hv He]. by rewrite <- (st_strings _ _ Hst). }
  destruct (delete_strings_ok (with_rep fs1 target new) _ (rep_strings f) (stored_with_rep _ _ _ _ Hst1))
    as (fs2 & st2 & E2 & [Hn2 Hr2] & Hst2 & _ & Hl2).
  { by apply (rep_strings_valid fs target). } { by apply (rw_nodup fs Hwf target). }
  { intros k Hin. cbn [fst]. rewrite (insert_fresh fs) by auto. auto. }
  assert (forall key, form_of fs2 key = if decide (key = target) then Some f' else form_of fs key) as Hform.
  { intros key. rewrite (form_of_reps (with_rep fs1 target new)), form_of_write by done.
    case_decide; [done|]. by apply form_of_reps. }
  assert (st.2 ∉ rep_strings f) as Hni.
  { intros Hin. apply Hused in Hin. rewrite (stored_fresh _ _ Hst) in Hin. by destruct Hin. }
  assert (string_of fs2 st.2 = Some txt) as Hs2.
  { rewrite (st_strings _ _ Hst2), Hl2, decide_False by done. cbn [fst]. apply lookup_insert_eq. }
  assert (forall key, valid_key key -> key <> target -> same_rep fs fs2 key) as Hsame.
  { intros key Hk Hne. apply (same_rep_store _ _ st st2); try done; [by rewrite Hform, decide_False|].
    intros k f0 Hv Hf0 Hin Hsome. rewrite Hl2, decide_False; [by apply (insert_fresh fs)|].
    intros Hin'. apply Hne. by apply (rw_once fs Hwf key target f0 f k). }
  exists fs2. split_and!; try done.
  - cbn in Hn2. unfold node_tables in *. cbn in *. congruence.
  - by exists st2.
  - apply (reps_wf_replace fs fs2 target f'); try done.
    + by rewrite Hform, decide_True.
    + rewrite Hnew. apply NoDup_singleton.
    + rewrite Hnew. intros k ->%list_elem_of_singleton. by rewrite Hs2.
    + rewrite Hnew. intros k key f0 ->%list_elem_of_singleton Hk Hne Hf0 Hin.
      destruct (rw_used fs Hwf key f0 _ Hk Hf0 Hin) as [_ He].
      rewrite (st_strings _ _ Hst) in He by done. rewrite (stored_fresh _ _ Hst) in He. by destruct He.
  - by rewrite Hform, decide_True.
  - intros key Hne. by rewrite Hform, decide_False.
  - intros next Hnext. apply (reps_next_same _ _ _ Hr2).
    apply (reps_next_write _ _ _ f _ Htk); [by rewrite (form_of_reps fs)|]. by apply (reps_next_same _ _ _ Hr1).
Qed.

(** The contents of a representation stored as one window of a delta. *)
Lemma one_window_denotes fs P n target k source s t w txt :
  P target -> valid_key target -> form_of fs target = Some (Delta [(0, Z.of_nat (length t), k, source)]) ->
  valid_key k -> string_of fs k = Some txt -> denotes fs P n source s -> Z.of_nat (length s) < two63 ->
  Z.of_nat (length t) < 2 ^ 31 -> Z.of_nat (length txt) < two64 ->
  window_good s w t -> tview_len w = Z.of_nat (length t) -> window_text w = Ok txt -> t <> [] ->
  0 <= sview_offset w -> sview_offset w + sview_len w <= Z.of_nat (length s) ->
  denotes fs P (S (n + length txt + 2)) target t.
Proof.
  intros HP Hk Hf Hkv Hstr Hd Hs Ht31 Htxt64 Hg Htv Htxt Ht Hso Hend.
  apply den_delta with [(0, Z.of_nat (length t), k, source)]; try done.
  rewrite <- (app_nil_r t) at 2. pose proof (good_encodable _ _ _ Hg) as ((_ & Hsl & _) & _).
  apply (wd_cons fs P (n + length txt + 2) 0 0 0 k source [] w txt s t []); try done.
  - lia.
  - by apply Hg.
  - by apply Hg.
  - unfold slides_after. lia.
  - apply (proj1 (denotes_mono fs P) n source s Hd). lia.
  - apply Hg.
  - constructor.
Qed.

Lemma deltify_finish_ok fs fs1 st n target source t s w txt digest :
  reps_wf fs -> stored fs st -> only_strings fs fs1 -> stored fs1 (<[st.2 := txt]> st.1, bump st.2) ->
  contents fs target t -> denotes fs (λ k, k <> target) n source s ->
  Z.of_nat (length source) < 2 ^ 31 -> Z.of_nat (length s) < two63 -> Z.of_nat (length t) < 2 ^ 31 ->
  Z.of_nat (length txt) < two64 ->
  window_good s w t -> tview_len w = Z.of_nat (length t) -> window_text w = Ok txt -> t <> [] ->
  0 <= sview_offset w -> sview_offset w + sview_len w <= Z.of_nat (length s) ->
  exists fs', deltify_finish target source digest [mk_ww (Some st.2) (4 + length txt) 0 (Z.of_nat (length t))]
      (4 + length txt) fs1 = (Ok tt, fs') /\ deltified fs fs' target /\
    (form_of fs' target = form_of fs target \/ form_of fs' target = Some (Delta [(0, Z.of_nat (length t), st.2, source)])).
Proof.
  intros Hwf Hst [Hn1 Hr1] Hst1 Hct Hds Hsl Hs63 Ht31 Htxt64 Hg Htv Htxt Ht Hso Hend.
  pose proof (st_valid _ _ Hst) as Hkv. pose proof (denotes_valid _ _ _ _ _ Hds) as Hsk.
  assert (exists f, valid_key target /\ form_of fs target = Some f) as (f & Htk & Hf)
    by (destruct Hct as [? []]; eauto).
  destruct (read_rep_ok fs1 target f Htk) as (rep & Erep & _ & Hview); [by rewrite (form_of_reps fs)|].
  pose proof (rep_strings_valid fs target f Hwf Htk Hf) as Hfv.
  destruct (strings_size_ok fs1 _ (rep_strings f) Hst1 Hfv) as [old_size Esize].
  { intros k Hin. destruct (rw_used fs Hwf target f k Htk Hf Hin) as [Hv He].
    rewrite (st_strings _ _ Hst) in He by done. cbn [fst]. by rewrite (insert_fresh fs). }
  unfold deltify_finish. rewrite (state_bind_step _ _ _ _ _ Erep), (rep_string_keys_ok rep f), lift_bind by done.
  rewrite (state_bind_step _ _ _ _ _ Esize). destruct (Nat.leb_spec old_size (4 + length txt)).
  { destruct (delete_new_ok fs fs1 st target txt (mk_ww (Some st.2) (4 + length txt) 0 (Z.of_nat (length t))) Hwf Hst)
      as (fs' & E & Hd & Hf'); [done|done|done|]. exists fs'. auto. }
  rewrite delta_rep_skel_ok, lift_bind, (str_to_dbt_valid source Hsk).
  destruct (swap_rep_ok fs fs1 st target f (one_window st.2 source digest (Z.of_nat (length t)))
    (Delta [(0, Z.of_nat (length t), st.2, source)]) txt Hwf Hst (conj Hn1 Hr1) Hst1 Htk Hf)
    as (fs' & E & Hn & Hst' & Hwf' & Hf' & Hs' & Hoth & Hsame & Hnext).
  { apply one_window_view. lia. } { apply one_window_fits; [lia| |done]. pose proof (st_short _ _ Hst). lia. }
  { done. }
  exists fs'. split; [exact E|]. split; [|by right]. split; try done.
  apply (contents_replace fs fs' target (S (n + length txt + 2)) t Hsame Hct).
  apply (one_window_denotes fs' (λ _, True) n target st.2 source s t w txt); try done.
  apply (denotes_same fs fs' (λ k, k <> target) (λ _, True)); [|done]. intros k Hne Hk. split; [done|]. by apply Hsame.
Qed.
(** Nothing is encoded for empty contents; the string made for the header of the
    encoder stays in the table. *)
Lemma deltify_finish_empty fs fs1 st n target source digest :
  reps_wf fs -> stored fs st -> only_strings fs fs1 -> stored fs1 (<[st.2 := []]> st.1, bump st.2) ->
  denotes fs (λ _, True) n target [] ->
  deltify_finish target source digest [] 0 fs1 = (Ok tt, fs1) /\ deltified fs fs1 target /\
  form_of fs1 target = form_of fs target.
Proof.
  intros Hwf Hst [Hn1 Hr1] Hst1 Hd.
  assert (forall key, form_of fs1 key = form_of fs key) as Hform by (intros; by apply form_of_reps).
  assert (forall key, valid_key key -> same_rep fs fs1 key) as Hsame.
  { intros key Hk. apply (same_rep_store fs fs1 st _ key Hwf Hst Hst1 Hk); [done|].
    intros k f _ _ _ Hsome. by apply (insert_fresh fs). }
  split; [|split; [split; try done|done]].
  - assert (denotes fs1 (λ _, True) n target []) as Hd1.
    { apply (denotes_same fs fs1 (λ _, True)); [|done]. intros k _ Hk. auto. }
    remember [] as e eqn:Ee. destruct Hd1 as [n key k x _ Hk Hf Hkv Hs|n key ws x _ Hk Hf Hne _ Hws]; subst x.
    + destruct (read_rep_ok fs1 key _ Hk Hf) as (rep & Erep & _ & Hview). unfold deltify_finish.
      rewrite (state_bind_step _ _ _ _ _ Erep), (rep_string_keys_ok rep (Fulltext k)), lift_bind
        by (done || (constructor; [done|constructor])).
      cbn [rep_strings strings_size]. rewrite <- (str_to_dbt_valid k Hkv) in Hs.
      pose proof (string_size_ok fs1 k [] Hs) as Es. unfold mbind at 1, state_bind at 1.
      rewrite (state_bind_step _ _ _ _ _ Es). done.
    + exfalso. remember [] as e eqn:Ee. destruct Hws as [|? ? ? ? ? ? ? ? ? ? t ? _ _ _ _ _ _ _ _ _ Ht]; [done|].
      apply app_eq_nil in Ee as [-> _]. done.
  - by apply (reps_wf_same fs).
  - by eexists.
  - intros key x. by apply contents_same.
  - intros next. by apply reps_next_same.
Qed.

Lemma rep_deltify_ok fs st n target source t s :
  reps_wf fs -> stored fs st -> (length st.2 < 198)%nat ->
  denotes fs (λ _, True) n target t -> denotes fs (λ k, k <> target) n source s -> target <> source ->
  Z.of_nat (length source) < 2 ^ 31 -> Z.of_nat (length s) < two63 -> (n <= fuel)%nat -> (2 <= fuel)%nat ->
  exists fs', svn_fs__rep_deltify fuel digest_memory target source fs = (Ok tt, fs') /\ deltified fs fs' target /\
    (form_of fs' target = form_of fs target \/
     form_of fs' target = Some (Delta [(0, Z.of_nat (length t), st.2, source)])).
Proof.
  intros Hwf Hst Hl Hdt Hds Hne Hsl Hs63 Hn H2.
  pose proof (denotes_valid _ _ _ _ _ Hdt) as Htk. pose proof (denotes_valid _ _ _ _ _ Hds) as Hsk.
  unfold svn_fs__rep_deltify. rewrite (str_to_dbt_valid target Htk), (str_to_dbt_valid source Hsk), decide_False by done.
  rewrite (state_bind_step _ _ _ _ _ (contents_size_ok fs _ n target t Hdt)). rewrite chunk_size.
  assert (forall fs' st', only_strings fs fs' -> stored fs' st' ->
    (forall k, is_Some (st.1 !! k) -> st'.1 !! k = st.1 !! k) ->
    forall key, valid_key key -> same_rep fs fs' key) as Hkeep.
  { intros fs' st' [_ Hr] Hst' Hsub key Hk. apply (same_rep_store fs fs' st st'); try done; [by apply form_of_reps|].
    intros k f _ _ _ Hk'. by apply Hsub. }
  destruct (Z.ltb_spec 102400 (Z.of_nat (length t))) as [Hbig|Hsmall].
  { exists fs. split; [done|]. split; [|by left]. split; try done. by exists st. }
  assert (length t <= SVN_STREAM_CHUNK_SIZE)%nat as Ht by (pose proof chunk_size; lia).
  destruct (deltify_loop_ok (m := m) fuel fs st source target s t Hst Hl Hs63 Ht) with (n := fuel)
    as (txs & fs1 & b & windows & diffsize & s0 & E & Eb & Hd & Ho & Hst1 & Hempty & Hwin).
  { intros fs' st' Ho Hst' Hsub. specialize (Hkeep fs' st' Ho Hst' Hsub). split.
    - apply (rep_read_range_ok fs' (λ _, True) n source s fuel); [|done].
      apply (denotes_same fs fs' (λ k, k <> target)); [|done]. intros k _ Hk. by auto.
    - apply (rep_read_range_ok fs' (λ _, True) n target t fuel); [|done].
      apply (denotes_same fs fs' (λ _, True)); [|done]. intros k _ Hk. by auto. }
  { done. }
  rewrite E, Hd. cbn [default from_option id enc_baton output baton]. rewrite Eb.
  destruct (decide (t = [])) as [->|Htne].
  - destruct (Hempty eq_refl) as (-> & -> & ->). exists fs1.
    destruct (deltify_finish_empty fs fs1 st n target source digest_memory) as (E1 & Hdl & Hf); try done. auto.
  - destruct (Hwin Htne) as (w & Hg & Htv & Htxt & Hso & Hend & -> & ->).
    pose proof (window_text_length w s0 (good_encodable _ _ _ Hg) Htxt).
    apply (deltify_finish_ok fs fs1 st n target source t s w s0); try done; [by exists n|lia|unfold two64; lia].
Qed.

End deltify_ok.

(** ** [svn_fs__rep_undeltify] *)

Section undeltify_ok.
Context `{db : BerkeleyDB}.
Context (fuel : nat).

(** A loop that copies contents to a new string: what is kept on the way. *)
Record copying (fs : svn_fs_t) (st : store) (s : bytes) (fs1 : svn_fs_t) : Prop := {
  cp_only : only_strings fs fs1;
  cp_stored : stored fs1 (<[st.2 := s]> st.1, bump st.2);
}.

Lemma copying_reads fs st rep n x s fs1 :
  reps_wf fs -> stored fs st -> denotes fs (λ _, True) n rep x -> (n <= fuel)%nat ->
  copying fs st s fs1 -> reads_with fuel fs1 rep x.
Proof.
  intros Hwf Hst Hd Hn [[_ Hr] Hst1]. apply (rep_read_range_ok fs1 (λ _, True) n rep x fuel); [|done].
  apply (denotes_same fs fs1 (λ _, True)); [|done]. intros k _ Hk. split; [done|].
  apply (same_rep_store fs fs1 st _ k Hwf Hst Hst1 Hk); [by apply form_of_reps|].
  intros k' f _ _ _ Hsome. by apply (insert_fresh fs).
Qed.

Lemma copying_append fs st s fs1 d :
  stored fs st -> copying fs st s fs1 ->
  exists fs2, svn_fs__string_append (Some st.2) d fs1 = (Ok st.2, fs2) /\ copying fs st (s ++ d) fs2.
Proof.
  intros Hst [Ho Hst1].
  destruct (string_append_stored fs1 _ st.2 s d Hst1 (st_valid _ _ Hst)) as (fs2 & E & Ho2 & Hst2).
  { cbn [fst]. by rewrite lookup_insert_eq. }
  exists fs2. split; [done|]. split; [by apply (only_strings_trans _ fs1)|].
  cbn [fst snd] in Hst2. by rewrite insert_insert_eq in Hst2.
Qed.

Lemma txn_body_read_ok fs rep x off len :
  reads_with fuel fs rep x -> Z.of_nat off + Z.of_nat len < two64 ->
  txn_body_read_rep fuel (Some rep) off len fs =
    (Ok (take len (drop off x), (off + length (take len (drop off x)))%nat), fs).
Proof. intros Hr Hl. unfold txn_body_read_rep. by rewrite (state_bind_step _ _ _ _ _ (Hr off len Hl)). Qed.

Lemma undeltify_loop_ok fs st rep n x m off fs1 :
  reps_wf fs -> stored fs st -> denotes fs (λ _, True) n rep x -> (n <= fuel)%nat ->
  Z.of_nat (length x) < 2 ^ 31 -> copying fs st (take off x) fs1 -> (off <= length x)%nat ->
  (length x - off < m)%nat ->
  exists fs2, undeltify_loop fuel m rep (Some st.2) off fs1 = (Ok (Some st.2), fs2) /\ copying fs st x fs2.
Proof.
  intros Hwf Hst Hd Hn H31. revert off fs1. induction m as [|m IH]; intros off fs1 Hc Hoff Hm; [lia|].
  cbn [undeltify_loop]. pose proof (copying_reads fs st rep n x _ fs1 Hwf Hst Hd Hn Hc) as Hr.
  rewrite (state_bind_step _ _ _ _ _ (txn_body_read_ok fs1 rep x off (Z.to_nat 65536) Hr ltac:(unfold two64; lia))).
  set (d := take (Z.to_nat 65536) (drop off x)).
  destruct (copying_append fs st (take off x) fs1 d Hst Hc) as (fs2 & E & Hc2).
  unfold write_string. unfold mbind at 1, state_bind at 1. rewrite (state_bind_step _ _ _ _ _ E). cbn [mret state_ret].
  assert (length d = Nat.min (Z.to_nat 65536) (length x - off)) as Hld by (unfold d; by rewrite length_take, length_drop).
  assert (take off x ++ d = take (off + length d) x) as Happ.
  { unfold d at 1. rewrite take_take_drop, Hld.
    destruct (Nat.le_gt_cases (Z.to_nat 65536) (length x - off)); [by rewrite Nat.min_l|].
    rewrite !take_ge by lia. done. }
  rewrite Happ in Hc2. destruct (Nat.eqb_spec (length d) 0) as [E0|E0].
  - exists fs2. split; [done|]. rewrite take_ge in Hc2 by lia. done.
  - apply IH; [done|lia|lia].
Qed.

Lemma undeltify_loop_first fs st rep n x m :
  reps_wf fs -> stored fs st -> (length st.2 < 198)%nat -> denotes fs (λ _, True) n rep x -> (n <= fuel)%nat ->
  Z.of_nat (length x) < 2 ^ 31 -> (length x + 1 < m)%nat ->
  exists fs2, undeltify_loop fuel m rep None 0 fs = (Ok (Some st.2), fs2) /\ copying fs st x fs2.
Proof.
  intros Hwf Hst Hl Hd Hn H31 Hm. destruct m as [|m]; [lia|]. cbn [undeltify_loop].
  pose proof (rep_read_range_ok fs _ n rep x fuel Hd Hn) as Hr.
  rewrite (state_bind_step _ _ _ _ _ (txn_body_read_ok fs rep x 0 (Z.to_nat 65536) Hr ltac:(unfold two64; lia))).
  rewrite drop_0. set (d := take (Z.to_nat 65536) x).
  destruct (string_new_ok fs st d Hst Hl) as (fs1 & E & Ho & H1).
  unfold write_string. unfold mbind at 1, state_bind at 1. rewrite (state_bind_step _ _ _ _ _ E). cbn [mret state_ret].
  assert (length d = Nat.min (Z.to_nat 65536) (length x)) as Hld by (unfold d; by rewrite length_take).
  assert (d = take (length d) x) as Hdx by (rewrite Hld, Nat.min_comm, take_min_length; done).
  destruct (Nat.eqb_spec (length d) 0) as [E0|E0].
  - exists fs1. split; [done|]. assert (x = []) as -> by (apply nil_length_inv; lia).
    apply nil_length_inv in E0. rewrite E0 in H1. by split.
  - apply (undeltify_loop_ok fs st rep n); try done; [|rewrite Nat.add_0_l; lia|rewrite Nat.add_0_l; lia].
    rewrite Nat.add_0_l. split; [done|]. by rewrite <- Hdx.
Qed.

Definition fulltext_skel (k : bytes) (is_mutable : bool) : skel :=
  SList [] [SList [] (Atom (bstr "fulltext") :: if is_mutable then [Atom (bstr "mutable")] else []); Atom k].

Lemma fulltext_skel_eq k is_mutable : make_fulltext_rep_skel (Some k) is_mutable = Ok (fulltext_skel k is_mutable).
Proof. by destruct is_mutable. Qed.

Lemma fulltext_skel_view k is_mutable : rep_view (fulltext_skel k is_mutable) = Some (Fulltext k).
Proof. done. Qed.

Lemma fulltext_skel_fits k is_mutable : Z.of_nat (length k) < 2 ^ 31 -> skel_storable (fulltext_skel k is_mutable).
Proof.
  intros Hk. pose proof (atom_size k). pose proof (atom_size (bstr "fulltext")). pose proof (atom_size (bstr "mutable")).
  change (length (bstr "fulltext")) with 8%nat in *. change (length (bstr "mutable")) with 7%nat in *.
  apply skel_fits_small; destruct is_mutable; unfold fulltext_skel.
  1, 2: cbn [skel_fits foldr]; change (length (bstr "fulltext")) with 8%nat;
    change (length (bstr "mutable")) with 7%nat; unfold two64; lia.
  all: repeat (rewrite list_estimate; cbn [foldr]); unfold two64; lia.
Qed.

Lemma rep_undeltify_ok fs st n rep x :
  reps_wf fs -> stored fs st -> (length st.2 < 198)%nat -> denotes fs (λ _, True) n rep x ->
  (n + length x + 2 <= fuel)%nat -> Z.of_nat (length x) < 2 ^ 31 ->
  exists fs', svn_fs__rep_undeltify fuel rep fs = (Ok tt, fs') /\ deltified fs fs' rep /\
    exists k, form_of fs' rep = Some (Fulltext k).
Proof.
  intros Hwf Hst Hl Hd Hn H31. pose proof (denotes_valid _ _ _ _ _ Hd) as Hk.
  assert (exists f, form_of fs rep = Some f) as [f Hf] by (destruct Hd; eauto).
  destruct (read_rep_ok fs rep f Hk Hf) as (skel & Erep & _ & Hview).
  unfold svn_fs__rep_undeltify. rewrite (state_bind_step _ _ _ _ _ Erep). destruct f as [k|ws].
  { destruct (fulltext_view skel k Hview) as [-> _]. rewrite lift_bind. exists fs. split; [done|].
    split; [|by exists k]. split; try done. by exists st. }
  destruct (delta_view skel ws Hview) as (E1 & _ & _). rewrite E1, lift_bind.
  pose proof (rep_string_keys_ok skel _ Hview (rep_strings_valid fs rep _ Hwf Hk Hf)) as Ekeys.
  unfold rep_string_keys in Ekeys. rewrite E1 in Ekeys. cbn [mbind outcome_bind] in Ekeys. rewrite Ekeys, lift_bind.
  destruct (undeltify_loop_first fs st rep n x fuel Hwf Hst Hl Hd) as (fs1 & E & [Ho Hst1]); [lia|done|lia|].
  rewrite (state_bind_step _ _ _ _ _ E), fulltext_skel_eq, lift_bind.
  destruct (swap_rep_ok fs fs1 st rep (Delta ws) (fulltext_skel st.2 false) (Fulltext st.2) x Hwf Hst Ho Hst1 Hk Hf)
    as (fs' & E' & Hnodes & Hst' & Hwf' & Hf' & Hs' & Hoth & Hsame & Hnext); [done| |done|].
  { apply fulltext_skel_fits. pose proof (st_short _ _ Hst). lia. }
  exists fs'. split; [exact E'|]. split; [|by exists st.2]. split; try done.
  apply (contents_replace fs fs' rep 1 x Hsame); [by exists n|].
  apply den_fulltext with st.2; try done. apply Hst.
Qed.
End undeltify_ok.

(** ** New representations *)

Section new_reps.
Context `{db : BerkeleyDB}.

Lemma reps_next_unused fs next : reps_next fs next -> stored_rep fs next = None.
Proof.
  intros [_ Hv _ Hu]. unfold stored_rep. destruct (bt_get (representations fs) next) eqn:E; [|done].
  specialize (Hu next Hv ltac:(by rewrite E)). lia.
Qed.

Lemma reps_next_fresh fs next : reps_next fs next -> form_of fs next = None.
Proof. intros H. unfold form_of. by rewrite (reps_next_unused fs next). Qed.

Lemma write_new_rep_ok fs next s :
  reps_next fs next -> skel_storable s ->
  exists fs', svn_fs__write_new_rep s fs = (Ok next, fs') /\ node_tables fs' = node_tables fs /\ strings fs' = strings fs /\
    ((length next < 198)%nat -> reps_next fs' (bump next)) /\
    (exists s', stored_rep fs' next = Some s' /\ s' ≡ s) /\
    (forall key, valid_key key -> key <> next -> stored_rep fs' key = stored_rep fs key).
Proof.
  intros [Hn Hv Hl Hu] Hf. destruct (bump_valid next Hv) as (_ & Hbv & Hbval & Hbl).
  unfold svn_fs__write_new_rep. change (str_to_dbt svn_fs__next_key_key) with svn_fs__next_key_key.
  rewrite reading_bind, Hn, (pstrndup_valid next Hv). rewrite (state_bind_step _ _ _ _ _ (write_rep_ok fs next s Hv Hf)).
  rewrite bump_key_ok, lift_bind, writing_bind by done. rewrite (str_to_dbt_valid (bump next) Hbv).
  eexists. split; [done|]. split; [done|]. split; [done|].
  pose proof (next_key_not_valid next Hv) as Hnk.
  assert (forall k v, bt_get (representations (set_representations
    (bt_put (representations (with_rep fs next s)) svn_fs__next_key_key v) (with_rep fs next s))) k =
    if decide (k = svn_fs__next_key_key) then Some v else if decide (k = next) then Some (text s)
    else bt_get (representations fs) k) as Hget.
  { intros k v. unfold with_rep. cbn [representations set_representations]. rewrite !bt_get_put, !dbt_order_eq.
    repeat case_decide; repeat case_bool_decide; congruence. }
  split_and!.
  - intros Hlt. split; [by rewrite Hget, decide_True|done|lia|]. intros key Hk. rewrite Hget.
    rewrite decide_False by (by apply next_key_not_valid). case_decide as E; [subst key; lia|].
    intros Hs. specialize (Hu key Hk Hs). lia.
  - unfold stored_rep. rewrite Hget, decide_False, decide_True by done. cbn [mbind option_bind].
    destruct Hf. by apply parse_skel_text.
  - intros key Hk Hne. unfold stored_rep. rewrite Hget, decide_False, decide_False; [done|done|].
    by apply next_key_not_valid.
Qed.

(** A new representation with a new string: nothing else changes. *)
Record added (fs fs' : svn_fs_t) (key x : bytes) : Prop := {
  ad_nodes : node_tables fs' = node_tables fs;
  ad_wf : reps_wf fs';
  ad_stored : exists st', stored fs' st';
  ad_next : exists next', reps_next fs' next';
  ad_key : valid_key key;
  ad_fresh : stored_rep fs key = None;
  ad_new : form_of fs key = None;
  ad_contents : denotes fs' (λ k, k = key) 1 key x;
  ad_mutable : exists s, stored_rep fs' key = Some s /\ rep_is_mutable s = Ok true;
  ad_same k : valid_key k -> k <> key -> same_rep fs fs' k;
  ad_recs k : valid_key k -> k <> key -> stored_rep fs' k = stored_rep fs k;
}.

Lemma rep_is_mutable_equiv s1 s2 : s1 ≡ s2 -> rep_is_mutable s1 = rep_is_mutable s2.
Proof.
  enough (forall s, rep_is_mutable (erase s) = rep_is_mutable s) as H.
  { unfold equiv, skel_equiv. intros E. by rewrite <- (H s1), E, H. }
  intros s. unfold rep_is_mutable, kid, rd. destruct s as [|d [|header rest]]; try done.
  cbn [kids erase fmap list_fmap lookup list_lookup mbind outcome_bind].
  destruct header as [|d' [|kind flags]]; try done.
  cbn [kids erase fmap list_fmap lookup list_lookup mbind outcome_bind tail]. f_equal.
  induction flags as [|f l IH]; [done|]. cbn [fmap list_fmap existsb]. rewrite IH. f_equal. by destruct f.
Qed.

Lemma add_rep_ok fs fs1 st next x s :
  reps_wf fs -> stored fs st -> reps_next fs next -> copying fs st x fs1 -> (length next < 198)%nat ->
  skel_storable s -> rep_view s = Some (Fulltext st.2) -> rep_is_mutable s = Ok true ->
  exists fs', svn_fs__write_new_rep s fs1 = (Ok next, fs') /\ added fs fs' next x.
Proof.
  intros Hwf Hst Hnext [[Hn1 Hr1] Hst1] Hl Hfits Hview Hmut.
  assert (reps_next fs1 next) as Hnext1.
  { destruct Hnext as [H1 H2 H3 H4]. split; [by rewrite Hr1|done|done|]. intros key. rewrite Hr1. apply H4. }
  destruct (write_new_rep_ok fs1 next s Hnext1 Hfits) as (fs' & E & Hn & Hs & Hnext' & (s' & Hs' & He) & Hoth).
  pose proof (rn_valid _ _ Hnext) as Hnv. pose proof (reps_next_fresh _ _ Hnext) as Hfresh.
  pose proof (st_valid _ _ Hst) as Hkv.
  assert (stored fs' (<[st.2 := x]> st.1, bump st.2)) as Hst'.
  { destruct Hst1 as [H1 H2 H3 H4 H5]. split; unfold string_of in *; rewrite ?Hs; done. }
  assert (form_of fs' next = Some (Fulltext st.2)) as Hform.
  { unfold form_of. rewrite Hs'. cbn [mbind option_bind]. by rewrite He. }
  assert (string_of fs' st.2 = Some x) as Hstr.
  { rewrite (st_strings _ _ Hst') by done. cbn [fst]. by rewrite lookup_insert_eq. }
  assert (forall k, valid_key k -> k <> next -> same_rep fs fs' k) as Hsame.
  { intros k Hk Hne. apply (same_rep_store fs fs' st _ k Hwf Hst Hst' Hk).
    - unfold form_of. rewrite Hoth by done. unfold stored_rep. by rewrite Hr1.
    - intros k' f _ _ _ Hsome. by apply (insert_fresh fs). }
  exists fs'. split; [done|]. split; try done.
  - congruence.
  - apply (reps_wf_replace fs fs' next (Fulltext st.2)); try done.
    + apply NoDup_singleton.
    + intros k ->%list_elem_of_singleton. by rewrite Hstr.
    + intros k key f ->%list_elem_of_singleton Hk Hne Hf Hin. destruct (rw_used fs Hwf key f _ Hk Hf Hin) as [_ Hu].
      rewrite (st_strings _ _ Hst) in Hu by done. rewrite (stored_fresh _ _ Hst) in Hu. by destruct Hu.
  - by eexists.
  - eexists. by apply Hnext'.
  - by apply reps_next_unused.
  - by apply den_fulltext with st.2.
  - exists s'. split; [done|]. by rewrite (rep_is_mutable_equiv _ _ He).
  - intros k Hk Hne. rewrite Hoth by done. unfold stored_rep. by rewrite Hr1.
Qed.
End new_reps.

(** ** [svn_fs__get_mutable_rep] *)

Section mutable_ok.
Context `{db : BerkeleyDB}.
Context (fuel : nat).

Lemma copy_contents_ok fs st rep n x m off fs1 :
  reps_wf fs -> stored fs st -> denotes fs (λ _, True) n rep x -> (n <= fuel)%nat ->
  Z.of_nat (length x) < 2 ^ 31 -> copying fs st (take off x) fs1 -> (off <= length x)%nat ->
  (length x - off < m)%nat ->
  exists fs2, copy_contents fuel m rep (Some st.2) off (length x) fs1 = (Ok (Some st.2), fs2) /\ copying fs st x fs2.
Proof.
  intros Hwf Hst Hd Hn H31. revert off fs1. induction m as [|m IH]; intros off fs1 Hc Hoff Hm; [lia|].
  cbn [copy_contents]. destruct (Nat.ltb_spec off (length x)).
  2: { exists fs1. split; [done|]. by rewrite take_ge in Hc by lia. }
  set (amount := if _ <? _ then _ else _).
  assert (0 < amount <= length x - off)%nat as Ham.
  { unfold amount. destruct (Z.ltb_spec 10000 (Z.of_nat (length x - off))); lia. }
  clearbody amount. pose proof (copying_reads fuel fs st rep n x _ fs1 Hwf Hst Hd Hn Hc) as Hr.
  rewrite (state_bind_step _ _ _ _ _ (Hr off amount ltac:(unfold two64; lia))).
  set (d := take amount (drop off x)).
  assert (length d = amount) as Hld by (unfold d; rewrite length_take, length_drop; lia).
  destruct (copying_append fs st (take off x) fs1 d Hst Hc) as (fs2 & E & Hc2).
  rewrite (state_bind_step _ _ _ _ _ E), Hld. unfold d in Hc2. rewrite take_take_drop in Hc2.
  apply IH; [done|lia|lia].
Qed.

Lemma copy_contents_first fs st rep n x m :
  reps_wf fs -> stored fs st -> (length st.2 < 198)%nat -> denotes fs (λ _, True) n rep x -> (n <= fuel)%nat ->
  Z.of_nat (length x) < 2 ^ 31 -> x <> [] -> (length x + 1 < m)%nat ->
  exists fs2, copy_contents fuel m rep None 0 (length x) fs = (Ok (Some st.2), fs2) /\ copying fs st x fs2.
Proof.
  intros Hwf Hst Hl Hd Hn H31 Hne Hm. destruct m as [|m]; [lia|]. cbn [copy_contents].
  assert (0 < length x)%nat as Hpos by (destruct x; [done|simpl; lia]).
  destruct (Nat.ltb_spec 0 (length x)); [|lia]. rewrite Nat.sub_0_r.
  set (amount := if _ <? _ then _ else _).
  assert (0 < amount <= length x)%nat as Ham.
  { unfold amount. destruct (Z.ltb_spec 10000 (Z.of_nat (length x))); lia. }
  clearbody amount. pose proof (rep_read_range_ok fs _ n rep x fuel Hd Hn) as Hr.
  rewrite (state_bind_step _ _ _ _ _ (Hr 0%nat amount ltac:(unfold two64; lia))). rewrite drop_0.
  destruct (string_new_ok fs st (take amount x) Hst Hl) as (fs1 & E & Ho & H1).
  rewrite (state_bind_step _ _ _ _ _ E). rewrite length_take, Nat.min_l, Nat.add_0_l by lia.
  apply (copy_contents_ok fs st rep n); try done; lia.
Qed.

(** The skel of the mutable copy. *)
Lemma mutable_copy_ok s k new :
  rep_view s = Some (Fulltext k) -> rep_is_mutable s = Ok false -> skel_small s -> Z.of_nat (length new) < 2 ^ 31 ->
  exists s1 key_skel, rep_set_mutable_flag s = Ok s1 /\ kid s1 1 = Ok key_skel /\
    let s2 := set_kids s1 (<[1%nat := set_data key_skel new]> (kids s1)) in
    rep_view s2 = Some (Fulltext new) /\ rep_is_mutable s2 = Ok true /\ skel_storable s2.
Proof.
  destruct s as [|d [|[|d' [|[kind|] flags]] rest]]; try done. cbn [rep_view]. intros Hv Hm [Hfit Hest] Hnew.
  case_decide as Ek; [|case_decide; [by destruct (mapM window_view rest)|done]]. subst kind.
  destruct rest as [|[key|] [|]]; try done. injection Hv as ->.
  exists (SList d [SList d' (Atom (bstr "fulltext") :: flags ++ [Atom (bstr "mutable")]); Atom k]), (Atom k).
  split; [unfold rep_set_mutable_flag; by rewrite Hm|]. split; [done|]. cbn zeta.
  change (set_kids _ _) with
    (SList d [SList d' (Atom (bstr "fulltext") :: flags ++ [Atom (bstr "mutable")]); Atom new]).
  split; [done|]. split.
  - unfold rep_is_mutable. cbn [kid rd kids lookup list_lookup mbind outcome_bind tail].
    by rewrite existsb_app, orb_comm.
  - apply skel_fits_list in Hfit. apply Forall_cons_iff in Hfit as [Hh Hk]. apply skel_fits_list in Hh.
    apply Forall_cons_iff in Hh as [Hfull Hflags].
    pose proof (atom_size new). pose proof (atom_size (bstr "mutable")).
    change (length (bstr "mutable")) with 7%nat in *. apply skel_fits_small.
    + apply skel_fits_list. apply Forall_cons; [|apply Forall_cons; [|constructor]].
      * apply skel_fits_list. apply Forall_cons; [done|]. apply Forall_app. split; [done|].
        apply Forall_cons; [|constructor]. by vm_compute.
      * cbn [skel_fits]. unfold two64. lia.
    + rewrite !list_estimate in *. cbn [foldr] in *. rewrite !list_estimate in *. cbn [foldr] in *.
      rewrite estimate_app. pose proof (atom_pos k). unfold two64. lia.
Qed.

Lemma new_empty_rep_ok fs st next :
  reps_wf fs -> stored fs st -> (length st.2 < 198)%nat -> reps_next fs next -> (length next < 198)%nat ->
  exists fs', (new_str ← svn_fs__string_append None [];
               rep_skel ← lift (make_fulltext_rep_skel (Some new_str) true);
               svn_fs__write_new_rep rep_skel) fs = (Ok next, fs') /\ added fs fs' next [].
Proof.
  intros Hwf Hst Hl Hnext Hln. destruct (string_new_ok fs st [] Hst Hl) as (fs1 & E & Ho & H1).
  rewrite (state_bind_step _ _ _ _ _ E), fulltext_skel_eq, lift_bind.
  apply (add_rep_ok fs fs1 st next []); try done. apply fulltext_skel_fits. pose proof (st_short _ _ Hst). lia.
Qed.

Lemma get_mutable_rep_ok fs st next n rep x s :
  reps_wf fs -> stored fs st -> (length st.2 < 198)%nat -> reps_next fs next -> (length next < 198)%nat ->
  denotes fs (λ _, True) n rep x -> (n + length x + 2 <= fuel)%nat -> Z.of_nat (length x) < 2 ^ 31 ->
  stored_rep fs rep = Some s -> rep_is_mutable s = Ok false -> skel_small s ->
  exists fs', svn_fs__get_mutable_rep fuel (Some rep) fs = (Ok next, fs') /\ added fs fs' next x.
Proof.
  intros Hwf Hst Hl Hnext Hln Hd Hn H31 Hs Hm Hsmall. pose proof (denotes_valid _ _ _ _ _ Hd) as Hk.
  pose proof (st_short _ _ Hst) as Hshort.
  assert (exists f, form_of fs rep = Some f) as [f Hf] by (destruct Hd; eauto).
  destruct (read_rep_ok fs rep f Hk Hf) as (s' & Erep & Es' & Hview).
  assert (s' = s) as -> by congruence.
  unfold svn_fs__get_mutable_rep, empty_string. rewrite strlen_ok by (by apply valid_key_nul).
  destruct (Nat.eqb_spec (length rep) 0) as [E0|_]; [destruct Hk; by destruct rep|].
  rewrite (state_bind_step _ _ _ _ _ Erep), Hm, lift_bind. destruct f as [k|ws].
  - destruct (fulltext_view s k Hview) as [-> ->]. rewrite lift_bind, lift_bind.
    inversion Hd as [? ? k' ? _ _ Hf' Hkv Hstr|? ? ? ? _ _ Hf']; subst; rewrite Hf in Hf'; [|done].
    injection Hf' as <-. rewrite (pstrndup_valid k Hkv).
    rewrite (st_strings _ _ Hst) in Hstr by done.
    destruct (string_copy_ok fs st k x Hst Hl Hkv Hstr) as (fs1 & E & Ho & H1).
    rewrite (state_bind_step _ _ _ _ _ E).
    destruct (mutable_copy_ok s k st.2 Hview Hm Hsmall) as (s1 & ks & E1 & E2 & Hv2 & Hm2 & Hf2); [lia|].
    rewrite E1, lift_bind, E2, lift_bind. by apply (add_rep_ok fs fs1 st next x).
  - destruct (delta_view s ws Hview) as (-> & _ & _). rewrite lift_bind.
    rewrite (state_bind_step _ _ _ _ _ (contents_size_ok fs _ n rep x Hd)), Nat2Z.id.
    assert (x <> []) as Hne.
    { inversion Hd as [? ? ? ? _ _ Hf'|? ? ws' ? _ _ Hf' Hwne _ Hws]; subst; rewrite Hf in Hf'; [done|].
      injection Hf' as <-. destruct Hws as [|? ? ? ? ? ? ? ? ? ? t ? _ _ _ _ _ _ _ _ _ Ht]; [done|].
      intros [-> _]%app_eq_nil. done. }
    destruct (copy_contents_first fs st rep n x fuel Hwf Hst Hl Hd) as (fs1 & E & Hc); [lia|done|done|lia|].
    rewrite (state_bind_step _ _ _ _ _ E), fulltext_skel_eq, lift_bind.
    apply (add_rep_ok fs fs1 st next x); try done. apply fulltext_skel_fits. lia.
Qed.
End mutable_ok.

(** ** Writing and clearing *)

Section write_ok.
Context `{db : BerkeleyDB}.

Lemma rep_view_mutable s f : rep_view s = Some f -> exists b, rep_is_mutable s = Ok b.
Proof.
  destruct s as [|d [|[|d' [|[kind|] flags]] rest]]; try done. intros _.
  unfold rep_is_mutable. cbn [kid rd kids lookup list_lookup mbind outcome_bind]. by eexists.
Qed.

(** A change of the string of a representation stored in full. *)
Record rewritten (fs fs' : svn_fs_t) (rep x : bytes) : Prop := {
  rw_nodes : node_tables fs' = node_tables fs;
  rw_reps : representations fs' = representations fs;
  rw_wf : reps_wf fs';
  rw_stored : exists st', stored fs' st';
  rw_contents : denotes fs' (λ k, k = rep) 1 rep x;
  rw_same k : valid_key k -> k <> rep -> same_rep fs fs' k;
}.

Lemma string_rewritten fs fs1 st rep k x :
  reps_wf fs -> stored fs st -> valid_key rep -> form_of fs rep = Some (Fulltext k) ->
  string_changed fs fs1 k (Some x) -> rewritten fs fs1 rep x.
Proof.
  intros Hwf Hst Hk Hf Hc. destruct (rw_used fs Hwf rep _ k Hk Hf) as [Hkv Hu]; [by apply list_elem_of_singleton|].
  pose proof Hc as ([Hn Hr] & Hstr & Hoth).
  pose proof (stored_changed fs fs1 st k _ Hst Hc Hkv (st_used _ _ Hst k Hkv Hu)) as Hst1.
  assert (forall key, form_of fs1 key = form_of fs key) as Hform by (intros; by apply form_of_reps).
  assert (forall key, valid_key key -> key <> rep -> same_rep fs fs1 key) as Hsame.
  { intros key Hkk Hne. split; [done|]. intros f k' Hf' Hin Hv. unfold string_of. rewrite Hoth; [done|].
    intros ->. apply Hne. apply (rw_once fs Hwf key rep f (Fulltext k) k); try done. by apply list_elem_of_singleton. }
  split; try done.
  - apply (reps_wf_replace fs fs1 rep (Fulltext k)); try done.
    + by rewrite Hform.
    + apply NoDup_singleton.
    + intros k' ->%list_elem_of_singleton. by rewrite Hstr.
    + intros k' key f ->%list_elem_of_singleton Hkk Hne Hf' Hin. apply Hne.
      apply (rw_once fs Hwf key rep f (Fulltext k) k); try done. by apply list_elem_of_singleton.
  - by eexists.
  - apply den_fulltext with k; try done. by rewrite Hform.
Qed.

(** Writing appends, whether the representation is mutable or not. *)
Lemma rep_write_ok fs st P n rep x k buf :
  reps_wf fs -> stored fs st -> form_of fs rep = Some (Fulltext k) -> denotes fs P n rep x ->
  exists fs', rep_write rep buf fs = (Ok tt, fs') /\ rewritten fs fs' rep (x ++ buf).
Proof.
  intros Hwf Hst Hf Hd. pose proof (denotes_valid _ _ _ _ _ Hd) as Hk.
  destruct (read_rep_ok fs rep _ Hk Hf) as (s & Erep & _ & Hview).
  destruct (rep_view_mutable s _ Hview) as [b Hb]. destruct (fulltext_view s k Hview) as [E1 E2].
  inversion Hd as [? ? k' ? _ _ Hf' Hkv Hstr|? ? ? ? _ _ Hf']; subst; rewrite Hf in Hf'; [|done]. injection Hf' as <-.
  destruct (string_append_ok fs k buf) as (fs' & E & Hc). rewrite (str_to_dbt_valid k Hkv), Hstr in Hc.
  exists fs'. split; [|by apply (string_rewritten fs fs' st rep k)].
  unfold rep_write. rewrite (state_bind_step _ _ _ _ _ Erep), Hb, lift_bind, E1, lift_bind, E2, lift_bind.
  by rewrite (pstrndup_valid k Hkv), (state_bind_step _ _ _ _ _ E).
Qed.

Lemma rep_clear_ok fs st P n rep x k s :
  reps_wf fs -> stored fs st -> form_of fs rep = Some (Fulltext k) -> denotes fs P n rep x ->
  stored_rep fs rep = Some s -> 
  if decide (rep_is_mutable s = Ok true) then
    exists fs', svn_fs__rep_contents_clear rep fs = (Ok tt, fs') /\ rewritten fs fs' rep []
  else svn_fs__rep_contents_clear rep fs = (Err SVN_ERR_FS_REP_NOT_MUTABLE, fs).
Proof.
  intros Hwf Hst Hf Hd Hs. pose proof (denotes_valid _ _ _ _ _ Hd) as Hk.
  destruct (read_rep_ok fs rep _ Hk Hf) as (s' & Erep & Es' & Hview). assert (s' = s) as -> by congruence.
  destruct (rep_view_mutable s _ Hview) as [b Hb]. destruct (fulltext_view s k Hview) as [E1 E2].
  inversion Hd as [? ? k' ? _ _ Hf' Hkv Hstr|? ? ? ? _ _ Hf']; subst; rewrite Hf in Hf'; [|done]. injection Hf' as <-.
  unfold svn_fs__rep_contents_clear. rewrite (state_bind_step _ _ _ _ _ Erep), Hb, lift_bind.
  case_decide as Eb; [injection Eb as ->|destruct b; [done|reflexivity]]. cbn [negb].
  rewrite E1, lift_bind, E2, lift_bind, (pstrndup_valid k Hkv). unfold empty_string.
  rewrite strlen_ok by (by apply valid_key_nul).
  destruct (Nat.eqb_spec (length k) 0) as [E0|_]; [destruct Hkv; by destruct k|].
  destruct (string_clear_ok fs k x) as (fs' & E & Hc); [by rewrite (str_to_dbt_valid k Hkv)|].
  rewrite (str_to_dbt_valid k Hkv) in Hc. exists fs'. split; [done|]. by apply (string_rewritten fs fs' st rep k).
Qed.

Lemma denotes_weaken (fs : svn_fs_t) (P P' : bytes -> Prop) n k y :
  denotes fs P n k y -> (forall k, P k -> P' k) -> denotes fs P' n k y.
Proof. intros Hd HP. apply (denotes_same fs fs P); [|done]. intros k' Hk' _. split; [by apply HP|by split]. Qed.

(** Only a full text takes no more fuel than that of its record. *)
Lemma denotes_full (fs : svn_fs_t) P key x : denotes fs P 1 key x -> exists k, form_of fs key = Some (Fulltext k).
Proof.
  intros Hc. inversion Hc as [? ? k ? _ _ Hf|? ? ws ? _ _ _ Hne _ Hws]; subst; [by exists k|].
  inversion Hws; subst; [done|lia].
Qed.

(** What there was does not depend on what is new. *)
Lemma contents_added fs fs' key x k y :
  added fs fs' key x -> contents fs k y -> exists n, denotes fs' (λ k, k <> key) n k y.
Proof.
  intros Ha [n Hd]. exists n. rewrite <- (Nat.add_0_r n).
  refine (proj1 (denotes_transfer fs fs' (λ _, True) (λ k, k <> key) (λ k, k = key) 0 _ _ _) n k y Hd).
  - intros k' _ Hk Hne. split; [done|]. by apply (ad_same _ _ _ _ Ha).
  - intros n' k' s -> Hs. exfalso. destruct Hs as [? ? ? ? _ _ Hf|? ? ? ? _ _ Hf]; by rewrite (ad_new _ _ _ _ Ha) in Hf.
Qed.

Lemma contents_rewritten fs fs' key x n k y :
  rewritten fs fs' key x -> denotes fs (λ k, k <> key) n k y -> contents fs' k y.
Proof.
  intros Hr Hd. exists n. apply (denotes_same fs fs' (λ k, k <> key)); [|done].
  intros k' Hne Hk. split; [done|]. by apply (rw_same _ _ _ _ Hr).
Qed.
End write_ok.

(** ** Properties *)

Section properties.
Context `{db : BerkeleyDB} {ctx : Type} `{m : Md5 ctx bytes}.

(** C20. Reading a representation gives its contents, through any chain of deltas:
    any range that is asked for, cut at the end, the size and the whole contents;
    the filesystem is not changed and no recursion, loop or buffer is exceeded.
    Less than 4 GB are asked for at once, the 32 bits of a length of Berkeley DB:
    that bounds the range, and the contents read as a whole. *)
Theorem rep_read_correct (fs : svn_fs_t) n rep x fuel :
  denotes fs (λ _, True) n rep x -> (n <= fuel)%nat -> Z.of_nat (length x) < two64 ->
  (forall off len, Z.of_nat off + Z.of_nat len < two64 -> Z.of_nat len < 2 ^ 32 ->
     rep_read_range fuel rep off len fs = (Ok (take len (drop off x)), fs)) /\
  svn_fs__rep_contents_size rep fs = (Ok (Z.of_nat (length x)), fs) /\
  (Z.of_nat (length x) < 2 ^ 32 -> svn_fs__rep_contents fuel rep fs = (Ok x, fs)).
Proof.
  intros Hd Hf Hl. split_and!.
  - intros off len H64 _. by apply (rep_read_range_ok fs (λ _, True) n rep x).
  - by apply (contents_size_ok fs (λ _, True) n).
  - intros _. by apply (rep_contents_ok fs (λ _, True) n).
Qed.

(** C21. Storing a representation as a delta against another one, which does not
    depend on it, keeps the contents of every representation, those that are deltas
    against it included; the other records are untouched, and the tables stay well
    formed.  The representation is left as it is when it is longer than a window,
    or when the delta is not smaller. *)
Theorem rep_deltify_correct (fs : svn_fs_t) st n target source t s fuel digest_memory :
  reps_wf fs -> stored fs st -> (length st.2 < 198)%nat ->
  denotes fs (λ _, True) n target t -> denotes fs (λ k, k <> target) n source s -> target <> source ->
  Z.of_nat (length source) < 2 ^ 31 -> Z.of_nat (length s) < two63 -> (n <= fuel)%nat -> (2 <= fuel)%nat ->
  exists fs', svn_fs__rep_deltify fuel digest_memory target source fs = (Ok tt, fs') /\ deltified fs fs' target /\
    (form_of fs' target = form_of fs target \/
     form_of fs' target = Some (Delta [(0, Z.of_nat (length t), st.2, source)])).
Proof. apply rep_deltify_ok. Qed.

(** C23. Turning a delta back into a full text keeps the contents of every
    representation. *)
Theorem rep_undeltify_correct (fs : svn_fs_t) st n rep x fuel :
  reps_wf fs -> stored fs st -> (length st.2 < 198)%nat -> denotes fs (λ _, True) n rep x ->
  (n + length x + 2 <= fuel)%nat -> Z.of_nat (length x) < 2 ^ 31 ->
  exists fs', svn_fs__rep_undeltify fuel rep fs = (Ok tt, fs') /\ deltified fs fs' rep /\
    exists k, form_of fs' rep = Some (Fulltext k).
Proof. apply rep_undeltify_ok. Qed.

(** C22. Copy on write: the mutable copy of a representation that is not mutable has
    a key that was not in use, and the contents of the original; what is written to
    it (less than 4 GB at once, as Berkeley DB takes them) is appended to the copy,
    and all the representations there were keep their contents. *)
Theorem mutable_copy_isolated (fs : svn_fs_t) st next n rep x s buf fuel :
  reps_wf fs -> stored fs st -> (length st.2 < 198)%nat -> reps_next fs next -> (length next < 198)%nat ->
  denotes fs (λ _, True) n rep x -> (n + length x + 2 <= fuel)%nat -> Z.of_nat (length x) < 2 ^ 31 ->
  stored_rep fs rep = Some s -> rep_is_mutable s = Ok false -> skel_small s -> Z.of_nat (length buf) < 2 ^ 32 ->
  form_of fs next = None /\
  exists fs1 fs2, svn_fs__get_mutable_rep fuel (Some rep) fs = (Ok next, fs1) /\ contents fs1 next x /\
    rep_write next buf fs1 = (Ok tt, fs2) /\ contents fs2 next (x ++ buf) /\
    (forall key y, contents fs key y -> contents fs2 key y) /\ reps_wf fs2 /\ node_tables fs2 = node_tables fs.
Proof.
  intros Hwf Hst Hl Hnext Hln Hd Hn H31 Hs Hm Hsm _. split; [by apply reps_next_fresh|].
  destruct (get_mutable_rep_ok fuel fs st next n rep x s) as (fs1 & E1 & Ha); try done.
  destruct (ad_stored _ _ _ _ Ha) as [st1 Hst1]. pose proof (ad_contents _ _ _ _ Ha) as Hc.
  destruct (denotes_full _ _ _ _ Hc) as [k Hf].
  destruct (rep_write_ok fs1 st1 _ _ next x k buf (ad_wf _ _ _ _ Ha) Hst1 Hf Hc) as (fs2 & E2 & Hr).
  exists fs1, fs2. split; [done|]. split; [|split; [done|split; [|split; [|split]]]].
  - exists 1%nat. apply (denotes_weaken fs1 _ _ _ _ _ Hc). done.
  - exists 1%nat. apply (denotes_weaken fs2 _ _ _ _ _ (rw_contents _ _ _ _ Hr)). done.
  - intros key y Hy. destruct (contents_added _ _ _ _ _ _ Ha Hy) as [n' Hy']. by apply (contents_rewritten _ _ _ _ _ _ _ Hr Hy').
  - apply Hr.
  - rewrite (rw_nodes _ _ _ _ Hr). apply Ha.
Qed.
End properties.

(** ** Witnesses *)

Section sample.
#[local] Existing Instance mem_db.

Definition empty_fs : svn_fs_t := mk_fs [] [] [] [(svn_fs__next_key_key, bstr "0")] {[svn_fs__next_key_key := [bstr "0"]]}.

Definition key0 : bytes := bstr "0".
Definition key1 : bytes := bstr "1".
Definition text0 : bytes := bstr "abcabcxyz".
Definition text1 : bytes := bstr "abcabc".

(** Two representations are made and written to. *)
Definition fs_a : svn_fs_t := (svn_fs__get_mutable_rep 1 None empty_fs).2.
Definition fs_b : svn_fs_t := (rep_write key0 text0 fs_a).2.
Definition fs_c : svn_fs_t := (svn_fs__get_mutable_rep 1 None fs_b).2.
Definition fs_d : svn_fs_t := (rep_write key1 text1 fs_c).2.

Lemma valid_key_b k : k <> [] -> forallb is_key_char k = true -> head k <> Some (zb 48) \/ k = [zb 48] -> valid_key k.
Proof.
  intros Hne Hk Hh. split; [done|]. split; [|by destruct Hh].
  apply list.Forall_forall. intros c Hc. rewrite forallb_forall in Hk. apply Hk. by apply list_elem_of_In.
Qed.

Lemma valid_key0 : valid_key key0.
Proof. apply valid_key_b; [done|done|by right]. Qed.
Lemma valid_key1 : valid_key key1.
Proof. apply valid_key_b; [done|done|by left]. Qed.
Lemma valid_key2 : valid_key (bstr "2").
Proof. apply valid_key_b; [done|done|by left]. Qed.

Lemma empty_reps key : valid_key key -> bt_get (representations empty_fs) key = None.
Proof.
  intros Hk. change (representations empty_fs) with
    (bt_put (ko := dbt_order) ([] : btree dbt_order) svn_fs__next_key_key (bstr "0")).
  rewrite bt_get_put, dbt_order_eq, bool_decide_false; [done|].
  intros E. by apply (next_key_not_valid key).
Qed.

Lemma empty_form key : valid_key key -> form_of empty_fs key = None.
Proof. intros Hk. unfold form_of, stored_rep. by rewrite empty_reps. Qed.

Lemma empty_wf : reps_wf empty_fs.
Proof.
  split; [intros key f k Hk Hf|intros key f Hk Hf|intros k1 k2 f1 f2 k Hk _ Hf _]; by rewrite empty_form in Hf.
Qed.

Lemma empty_stored : stored empty_fs (∅, bstr "0").
Proof. by destruct new_strings_stored. Qed.

Lemma empty_next : reps_next empty_fs (bstr "0").
Proof.
  split; [by vm_compute|apply valid_key0|simpl; lia|].
  intros key Hk [v Hv]. by rewrite empty_reps in Hv.
Qed.

(** The next key of a table of strings, when it can be computed. *)
Lemma stored_next fs st k : stored fs st -> dt_get (strings fs) svn_fs__next_key_key = [k] -> st.2 = k.
Proof. intros [H _ _ _ _]. rewrite H. by intros [= ->]. Qed.

Lemma reps_next_eq fs next k :
  reps_next fs next -> bt_get (representations fs) svn_fs__next_key_key = Some k -> next = k.
Proof. intros [H _ _ _]. rewrite H. by intros [= ->]. Qed.

Lemma fs_a_added : added empty_fs fs_a key0 [].
Proof.
  destruct (new_empty_rep_ok empty_fs (∅, bstr "0") (bstr "0") empty_wf empty_stored) as (fs' & E & Ha);
    [simpl; lia|apply empty_next|simpl; lia|].
  apply (f_equal snd) in E. change (fs_a = fs') in E. by rewrite E.
Qed.

Lemma written_ok fs key x buf :
  reps_wf fs -> (exists st, stored fs st) -> denotes fs (λ k, k = key) 1 key x ->
  rewritten fs (rep_write key buf fs).2 key (x ++ buf).
Proof.
  intros Hwf [st Hst] Hd. destruct (denotes_full _ _ _ _ Hd) as [k Hf].
  destruct (rep_write_ok fs st _ _ key x k buf Hwf Hst Hf Hd) as (fs' & E & Hr). by rewrite E.
Qed.

Lemma fs_b_rewritten : rewritten fs_a fs_b key0 text0.
Proof. pose proof fs_a_added as Ha. apply (written_ok fs_a key0 [] text0); apply Ha. Qed.

Lemma fs_c_added : added fs_b fs_c key1 [].
Proof.
  pose proof fs_b_rewritten as Hb. destruct (rw_stored _ _ _ _ Hb) as [st Hst].
  destruct (ad_next _ _ _ _ fs_a_added) as [next Hnext].
  apply (reps_next_same fs_a fs_b) in Hnext; [|apply Hb].
  assert (next = key1) as -> by (apply (reps_next_eq _ _ _ Hnext); by vm_compute).
  assert (st.2 = key1) as E2 by (apply (stored_next fs_b _ _ Hst); by vm_compute).
  destruct (new_empty_rep_ok fs_b st key1 (rw_wf _ _ _ _ Hb) Hst) as (fs' & E & Ha);
    [rewrite E2; simpl; lia|done|simpl; lia|].
  apply (f_equal snd) in E. change (fs_c = fs') in E. by rewrite E.
Qed.

Lemma fs_d_rewritten : rewritten fs_c fs_d key1 text1.
Proof. pose proof fs_c_added as Ha. apply (written_ok fs_c key1 [] text1); apply Ha. Qed.

(** The sample: two representations stored in full. *)
Lemma sample_ok :
  reps_wf fs_d /\ (exists st, stored fs_d st /\ st.2 = bstr "2") /\ reps_next fs_d (bstr "2") /\
  denotes fs_d (λ k, k = key0) 1 key0 text0 /\ denotes fs_d (λ k, k = key1) 1 key1 text1.
Proof.
  pose proof fs_d_rewritten as Hd. split; [apply Hd|]. split.
  { destruct (rw_stored _ _ _ _ Hd) as [st Hst]. exists st. split; [done|].
    apply (stored_next fs_d _ _ Hst). by vm_compute. }
  split.
  { destruct (ad_next _ _ _ _ fs_c_added) as [next Hnext].
    apply (reps_next_same fs_c fs_d) in Hnext; [|apply Hd].
    assert (next = bstr "2") as -> by (apply (reps_next_eq _ _ _ Hnext); by vm_compute). done. }
  split; [|apply Hd].
  assert (key0 <> key1) as Hne by (by vm_compute).
  apply (denotes_same fs_c fs_d (λ k, k = key0)).
  { intros k -> Hk. split; [done|]. by apply (rw_same _ _ _ _ Hd). }
  apply (denotes_same fs_b fs_c (λ k, k = key0)); [|apply fs_b_rewritten].
  intros k -> Hk. split; [done|]. by apply (ad_same _ _ _ _ fs_c_added).
Qed.

(** An accumulator that keeps everything. *)
#[local] Instance keep_all : Md5 bytes bytes :=
  {| apr_md5_init := []; apr_md5_update c d := c ++ d; apr_md5_final c := c |}.

Lemma rep_deltify_correct_witness :
  exists fs', svn_fs__rep_deltify 2 (replicate 16 (zb 0)) key0 key1 fs_d = (Ok tt, fs') /\ deltified fs_d fs' key0 /\
    (form_of fs' key0 = form_of fs_d key0 \/
     form_of fs' key0 = Some (Delta [(0, 9, bstr "2", key1)])).
Proof.
  destruct sample_ok as (Hwf & (st & Hst & Hst2) & _ & H0 & H1). rewrite <- Hst2.
  pose proof (rep_deltify_correct fs_d st 1 key0 key1 text0 text1 2 (replicate 16 (zb 0))) as H.
  apply H; try done; try lia.
  - rewrite Hst2. simpl. lia.
  - by apply (denotes_weaken fs_d (λ k, k = key0)).
  - apply (denotes_weaken fs_d (λ k, k = key1)); [done|]. by intros k ->.
Defined.

(** The first representation becomes a delta against the second. *)
Definition window0 : svn_txdelta_window_t :=
  mk_window 0 6 9 [mk_op svn_txdelta_source 0 6; mk_op svn_txdelta_new 0 3] (bstr "xyz").

Definition delta0 : bytes := match window_text window0 with Ok txt => txt | _ => [] end.

Definition rep0 : skel := one_window (bstr "2") key1 [] 9.

Definition fs_e : svn_fs_t :=
  ((svn_fs__write_rep key0 rep0;; delete_strings [key0]) (svn_fs__string_append None delta0 fs_d).2).2.

Lemma window0_good : window_good text1 window0 text0.
Proof.
  split; [|by vm_compute| |by vm_compute].
  - split; [repeat constructor; by vm_compute|]. split_and!; by vm_compute.
  - split; [split_and!; by vm_compute|]. split; [repeat constructor; by vm_compute|]. split; by vm_compute.
Qed.

(** The filesystem with a delta. *)
Lemma sample_delta_ok :
  reps_wf fs_e /\ (exists st, stored fs_e st /\ st.2 = bstr "3") /\ reps_next fs_e (bstr "2") /\
  denotes fs_e (λ _, True) 20 key0 text0.
Proof.
  destruct sample_ok as (Hwf & (st & Hst & Hst2) & Hnext & H0 & H1).
  destruct (denotes_full _ _ _ _ H0) as [k Hf0].
  assert (Some (Fulltext k) = Some (Fulltext key0)) as E by (rewrite <- Hf0; by vm_compute). injection E as ->.
  destruct (string_new_ok fs_d st delta0 Hst) as (fs1 & E1 & Ho & Hst1); [rewrite Hst2; simpl; lia|].
  assert (rep_view rep0 = Some (Delta [(0, 9, bstr "2", key1)])) as Hview by (by vm_compute).
  assert (skel_storable rep0) as Hfits by (by apply (one_window_fits (bstr "2") key1 [] 9)).
  assert (rep_strings (Delta [(0, 9, bstr "2", key1)]) = [st.2]) as Hnew by (by rewrite Hst2).
  destruct (swap_rep_ok fs_d fs1 st key0 (Fulltext key0) rep0 _ delta0 Hwf Hst Ho Hst1 valid_key0 Hf0 Hview Hfits Hnew)
    as (fs' & E & _ & Hs' & Hwf' & Hf' & Hstr & _ & Hsame & Hn').
  assert (fs_e = fs') as <-.
  { unfold fs_e. rewrite E1. cbn [snd]. change [key0] with (rep_strings (Fulltext key0)). by rewrite E. }
  split; [done|]. split.
  { destruct Hs' as [st' Hst']. exists st'. split; [done|]. apply (stored_next fs_e _ _ Hst'). by vm_compute. }
  split; [by apply Hn'|]. rewrite Hst2 in Hstr.
  apply (denotes_weaken fs_e (λ k, k = key0 \/ k = key1)); [|done].
  apply (proj1 (denotes_mono fs_e _)) with (n := S (1 + length delta0 + 2)); [|vm_compute; lia].
  assert (denotes fs_e (λ k, k = key0 \/ k = key1) 1 key1 text1) as Hd1.
  { apply (denotes_same fs_d fs_e (λ k, k = key1)); [|exact H1].
    intros k' -> Hk. split; [by right|]. apply Hsame; [done|by vm_compute]. }
  pose proof (one_window_denotes fs_e (λ k, k = key0 \/ k = key1) 1 key0 (bstr "2") key1 text1 text0 window0 delta0
    (or_introl eq_refl) valid_key0 Hf' valid_key2 Hstr Hd1) as H.
  apply H; clear; [vm_compute; reflexivity..|apply window0_good|vm_compute; reflexivity|vm_compute; reflexivity| | |]; by vm_compute.
Qed.

Lemma rep_read_correct_witness :
  rep_read_range 20 key0 2 5 fs_e = (Ok (take 5 (drop 2 text0)), fs_e) /\
  svn_fs__rep_contents_size key0 fs_e = (Ok (Z.of_nat (length text0)), fs_e) /\
  svn_fs__rep_contents 20 key0 fs_e = (Ok text0, fs_e).
Proof.
  destruct sample_delta_ok as (_ & _ & _ & Hd).
  destruct (rep_read_correct fs_e 20 key0 text0 20 Hd) as (Hr & Hs & Hc); [lia|done|].
  split; [by apply Hr|]. split; [done|by apply Hc].
Defined.

Lemma rep_undeltify_correct_witness :
  exists fs', svn_fs__rep_undeltify 40 key0 fs_e = (Ok tt, fs') /\ deltified fs_e fs' key0 /\
    exists k, form_of fs' key0 = Some (Fulltext k).
Proof.
  destruct sample_delta_ok as (Hwf & (st & Hst & Hst2) & _ & Hd).
  apply (rep_undeltify_correct fs_e st 20 key0 text0 40 Hwf Hst); [rewrite Hst2; simpl; lia|done|simpl; lia|done].
Defined.

(** The record of the delta, as it is read back. *)
Definition rep0_stored : skel := default (SList [] []) (stored_rep fs_e key0).

Lemma mutable_copy_isolated_witness :
  form_of fs_e (bstr "2") = None /\
  exists fs1 fs2, svn_fs__get_mutable_rep 40 (Some key0) fs_e = (Ok (bstr "2"), fs1) /\ contents fs1 (bstr "2") text0 /\
    rep_write (bstr "2") (bstr "!") fs1 = (Ok tt, fs2) /\ contents fs2 (bstr "2") (text0 ++ bstr "!") /\
    (forall key y, contents fs_e key y -> contents fs2 key y) /\ reps_wf fs2 /\ node_tables fs2 = node_tables fs_e.
Proof.
  destruct sample_delta_ok as (Hwf & (st & Hst & Hst2) & Hnext & Hd).
  assert (stored_rep fs_e key0 = Some rep0_stored) as Hs by (vm_compute; reflexivity).
  assert (rep_is_mutable rep0_stored = Ok false) as Hm by (vm_compute; reflexivity).
  assert (skel_small rep0_stored) as Hsm.
  { split; [|by vm_compute]. vm_compute. by split_and!. }
  assert (length st.2 < 198)%nat as Hl by (rewrite Hst2; simpl; lia).
  refine (mutable_copy_isolated fs_e st (bstr "2") 20 key0 text0 rep0_stored (bstr "!") 40 Hwf Hst Hl Hnext _ Hd _ _ Hs Hm Hsm _);
    [simpl; lia|simpl; lia|by vm_compute|by vm_compute].
Defined.
End sample.
