(* ===== verification/SvnString.v ===== *)
(** * Counted strings ([libsvn_subr/svn_string.c], [include/svn_string.h])

    [svn_stringbuf_t] as a block of memory with a length: cells that have not
    been written are [None], and reading them, or any access outside the block,
    is [Undef].  The operations are proved to implement those of byte strings and
    to maintain the invariant stated in [svn_string.h] (a null byte follows the
    data), where they do. *)

From S2P Require Import Prelude.

(** ** Memory blocks *)

Abbreviation block := (list (option byte)).

(** Reading an initialised cell, writing a cell, [memcpy] into a block. *)
Definition blk_rd (b : block) (i : nat) : outcome byte :=
  match b !! i with Some (Some c) => Ok c | _ => Undef end.

Definition blk_wr (b : block) (i : nat) (c : byte) : outcome block :=
  if (i <? length b)%nat then Ok (<[i := Some c]> b) else Undef.

Definition blk_cpy (b : block) (i : nat) (d : bytes) : outcome block :=
  if (i + length d <=? length b)%nat
  then Ok (take i b ++ (Some <$> d) ++ drop (i + length d) b) else Undef.

(** The characters [apr_isspace] accepts. *)
Definition apr_isspace (c : byte) : bool :=
  ((9 <=? bz c) && (bz c <=? 13)) || (bz c =? 32).

(** ** [svn_stringbuf_t]: [blocksize] is the length of the block *)

Record svn_stringbuf_t := mk_sb { sb_data : block; sb_len : nat }.

(** [svn_stringbuf_ncreate], [bytes] being what is readable at the pointer. *)
Definition svn_stringbuf_ncreate (b : bytes) (size : nat) : outcome svn_stringbuf_t :=
  if (size <=? length b)%nat
  then Ok (mk_sb ((Some <$> take size b) ++ [Some NUL]) size) else Undef.

Definition svn_stringbuf_create (cstring : bytes) : outcome svn_stringbuf_t :=
  svn_stringbuf_ncreate cstring (strlen cstring).

(** The doubling loop of [svn_stringbuf_ensure]; it ends within 64 turns unless
    the size wraps around to 0. *)
Fixpoint grow (fuel : nat) (blocksize minimum_size : Z) : outcome Z :=
  match fuel with
  | O => Undef
  | S fuel =>
      if blocksize <? minimum_size then grow fuel (size_t (blocksize * 2)) minimum_size
      else Ok blocksize
  end.

(** [my__realloc] copies [sb_len] bytes into a fresh block. *)
Definition svn_stringbuf_ensure (str : svn_stringbuf_t) (minimum_size : nat) :
    outcome svn_stringbuf_t :=
  let blocksize := Z.of_nat (length (sb_data str)) in
  if blocksize <? Z.of_nat minimum_size then
    blocksize ←
      (if blocksize =? 0 then Ok (Z.of_nat minimum_size)
       else grow 66 blocksize (Z.of_nat minimum_size));
    Ok (mk_sb (take (sb_len str) (sb_data str) ++
               replicate (Z.to_nat blocksize - sb_len str) None) (sb_len str))
  else Ok str.

Definition svn_stringbuf_appendbytes (str : svn_stringbuf_t) (b : bytes) (count : nat) :
    outcome svn_stringbuf_t :=
  let total_len := (sb_len str + count)%nat in
  str ← svn_stringbuf_ensure str (total_len + 1);
  if (count <=? length b)%nat then
    data ← blk_cpy (sb_data str) (sb_len str) (take count b);
    data ← blk_wr data total_len NUL;
    Ok (mk_sb data total_len)
  else Undef.

Definition svn_stringbuf_isempty (str : svn_stringbuf_t) : bool := (sb_len str =? 0)%nat.

Definition svn_stringbuf_setempty (str : svn_stringbuf_t) : outcome svn_stringbuf_t :=
  data ← (if (0 <? sb_len str)%nat then blk_wr (sb_data str) 0 NUL else Ok (sb_data str));
  Ok (mk_sb data 0).

Definition svn_stringbuf_set (str : svn_stringbuf_t) (value : bytes) : outcome svn_stringbuf_t :=
  let amt := strlen value in
  str ← svn_stringbuf_ensure str (amt + 1);
  data ← blk_cpy (sb_data str) 0 (take amt value ++ [NUL]);
  Ok (mk_sb data amt).

Definition svn_stringbuf_chop (str : svn_stringbuf_t) (nbytes : nat) : outcome svn_stringbuf_t :=
  let len := if (sb_len str <? nbytes)%nat then O else (sb_len str - nbytes)%nat in
  data ← blk_wr (sb_data str) len NUL;
  Ok (mk_sb data len).

Definition svn_stringbuf_fillchar (str : svn_stringbuf_t) (c : byte) : outcome svn_stringbuf_t :=
  data ← blk_cpy (sb_data str) 0 (replicate (sb_len str) c);
  Ok (mk_sb data (sb_len str)).

(** The readable bytes of a string passed as a pointer and a length. *)
Fixpoint blk_bytes (b : block) (i n : nat) : outcome bytes :=
  match n with
  | O => Ok []
  | S n => c ← blk_rd b i; l ← blk_bytes b (S i) n; Ok (c :: l)
  end.

Definition svn_stringbuf_dup (str : svn_stringbuf_t) : outcome svn_stringbuf_t :=
  b ← blk_bytes (sb_data str) 0 (sb_len str);
  svn_stringbuf_ncreate b (sb_len str).

Definition svn_stringbuf_appendstr (targetstr appendstr : svn_stringbuf_t) :
    outcome svn_stringbuf_t :=
  b ← blk_bytes (sb_data appendstr) 0 (sb_len appendstr);
  svn_stringbuf_appendbytes targetstr b (sb_len appendstr).

Definition svn_stringbuf_appendcstr (targetstr : svn_stringbuf_t) (cstr : bytes) :
    outcome svn_stringbuf_t :=
  svn_stringbuf_appendbytes targetstr cstr (strlen cstr).

(** [memcmp] of two blocks, as an equality test. *)
Definition svn_stringbuf_compare (str1 str2 : svn_stringbuf_t) : outcome bool :=
  if negb (sb_len str1 =? sb_len str2)%nat then Ok false
  else
    a ← blk_bytes (sb_data str1) 0 (sb_len str1);
    b ← blk_bytes (sb_data str2) 0 (sb_len str1);
    Ok (bool_decide (a = b)).

(** [n] is the number of characters left to look at; [None] is the result -1. *)
Fixpoint first_non_whitespace (data : block) (i n : nat) : outcome (option nat) :=
  match n with
  | O => Ok None
  | S n =>
      c ← blk_rd data i;
      if negb (apr_isspace c) then Ok (Some i) else first_non_whitespace data (S i) n
  end.

Definition svn_stringbuf_first_non_whitespace (str : svn_stringbuf_t) : outcome (option nat) :=
  first_non_whitespace (sb_data str) 0 (sb_len str).

(** The backward loop of [svn_stringbuf_strip_whitespace], over the first [n]
    characters; its test [i >= 0] holds of every [apr_size_t], so that it leaves
    the block when no character stops it. *)
Fixpoint last_non_whitespace (data : block) (n : nat) : outcome nat :=
  match n with
  | O => Undef
  | S i =>
      c ← blk_rd data i;
      if negb (apr_isspace c) then Ok i else last_non_whitespace data i
  end.

Definition svn_stringbuf_strip_whitespace (str : svn_stringbuf_t) : outcome svn_stringbuf_t :=
  offset ← svn_stringbuf_first_non_whitespace str;
  match offset with
  | None => Undef (* the data pointer moves one byte before the block *)
  | Some offset =>
      let data := drop offset (sb_data str) in
      i ← last_non_whitespace data (sb_len str - offset);
      data ← blk_wr data (i + 1) NUL;
      Ok (mk_sb data (i + 1))
  end.

(** The backward loop of [svn_stringbuf_find_char_backward], over the first [n]
    characters. *)
Fixpoint find_char_backward (data : block) (ch : byte) (n : nat) : outcome (option nat) :=
  match n with
  | O => Ok None
  | S i =>
      c ← blk_rd data i;
      if byte_eq_dec c ch then Ok (Some i) else find_char_backward data ch i
  end.

(** The index is a signed [int]: the loop starts at what remains of [len - 1] in 32
    bits, and is not entered when that is negative. *)
Definition svn_stringbuf_find_char_backward (str : svn_stringbuf_t) (ch : byte) : outcome nat :=
  let i := int_t (size_t (Z.of_nat (sb_len str) - 1)) in
  found ← find_char_backward (sb_data str) ch (Z.to_nat (i + 1));
  Ok (default (sb_len str) found).

(** The number of bytes chopped, and the string. *)
Definition svn_stringbuf_chop_back_to_char (str : svn_stringbuf_t) (ch : byte) :
    outcome (nat * svn_stringbuf_t) :=
  i ← svn_stringbuf_find_char_backward str ch;
  if (i <? sb_len str)%nat then
    let nbytes := (sb_len str - i)%nat in
    str ← svn_stringbuf_chop str nbytes;
    Ok (nbytes, str)
  else Ok (O, str).

(** ** Byte strings represented in a block *)

(** The contents are [s]; nothing is said of what follows. *)
Definition sb_pre (sb : svn_stringbuf_t) (s : bytes) : Prop :=
  sb_len sb = length s /\ exists junk, sb_data sb = (Some <$> s) ++ junk.

(** The invariant of [svn_string.h]: a null byte follows. *)
Definition sb_rep (sb : svn_stringbuf_t) (s : bytes) : Prop :=
  sb_len sb = length s /\ exists junk, sb_data sb = (Some <$> s) ++ Some NUL :: junk.

Lemma sb_rep_pre sb s : sb_rep sb s -> sb_pre sb s.
Proof. intros [? [junk ?]]. split; [done|]. by exists (Some NUL :: junk). Qed.

Lemma sb_rep_inj sb s1 s2 : sb_rep sb s1 -> sb_rep sb s2 -> s1 = s2.
Proof.
  intros [H1 [j1 E1]] [H2 [j2 E2]]. rewrite E1 in E2.
  apply app_inj_1 in E2 as [E _]; [|rewrite !length_fmap; congruence].
  by apply list_fmap_eq_inj in E; [|apply _].
Qed.

Lemma blk_bytes_ok b i l :
  (forall k, (k < length l)%nat -> b !! (i + k)%nat = Some <$> (l !! k)) ->
  blk_bytes b i (length l) = Ok l.
Proof.
  revert i. induction l as [|c l IH]; intros i H; [done|]. simpl. unfold blk_rd.
  pose proof (H 0%nat ltac:(simpl; lia)) as H0. rewrite Nat.add_0_r in H0. rewrite H0.
  cbn. rewrite (IH (S i)); [done|]. intros k Hk. specialize (H (S k) ltac:(simpl; lia)).
  by rewrite <- plus_n_Sm in H.
Qed.

Lemma sb_pre_bytes sb s : sb_pre sb s -> blk_bytes (sb_data sb) 0 (sb_len sb) = Ok s.
Proof.
  intros [-> [junk ->]]. apply blk_bytes_ok. intros k Hk. rewrite Nat.add_0_l.
  by rewrite lookup_app_l, list_lookup_fmap by (rewrite length_fmap; done).
Qed.

Lemma sb_pre_rd sb s i c : sb_pre sb s -> s !! i = Some c -> blk_rd (sb_data sb) i = Ok c.
Proof.
  intros [_ [junk ->]] Hi. unfold blk_rd. apply lookup_lt_Some in Hi as Hl.
  by rewrite lookup_app_l, list_lookup_fmap, Hi by (rewrite length_fmap; done).
Qed.

Lemma ncreate_ok b size :
  (size <= length b)%nat -> exists sb, svn_stringbuf_ncreate b size = Ok sb /\ sb_rep sb (take size b).
Proof.
  intros H. unfold svn_stringbuf_ncreate. rewrite (proj2 (Nat.leb_le _ _)) by done.
  eexists. split; [done|]. split; simpl; [by rewrite length_take_le|]. by exists [].
Qed.

(** *** Growing *)

Definition size_limit : Z := 2 ^ 62.

Lemma grow_ok fuel b m :
  0 < b -> m <= size_limit -> m <= b * 2 ^ Z.of_nat fuel ->
  (b < m -> b * 2 < two64) ->
  exists b', grow (S fuel) b m = Ok b' /\ m <= b' /\ b <= b'.
Proof.
  revert b. induction fuel as [|fuel IH]; intros b Hb Hm Hf Hlt.
  - simpl in *. destruct (Z.ltb_spec b m); [lia|]. exists b. split_and!; [done|lia|lia].
  - change (grow (S (S fuel)) b m) with
      (if b <? m then grow (S fuel) (size_t (b * 2)) m else Ok b).
    destruct (Z.ltb_spec b m) as [Hbm|]; [|exists b; split_and!; [done|lia|lia]].
    rewrite size_t_small by lia. rewrite Nat2Z.inj_succ, Z.pow_succ_r in Hf by lia.
    destruct (IH (b * 2)) as (b' & -> & ? & ?); [lia|lia|nia| |].
    + unfold size_limit, two64 in *. lia.
    + exists b'. split_and!; [done|lia|lia].
Qed.

Lemma ensure_ok sb s m :
  sb_pre sb s -> Z.of_nat m <= size_limit ->
  exists sb', svn_stringbuf_ensure sb m = Ok sb' /\ sb_pre sb' s /\ (m <= length (sb_data sb'))%nat /\
    (length (sb_data sb) <= length (sb_data sb'))%nat.
Proof.
  intros Hp Hm. pose proof Hp as [Hl [junk Hd]]. unfold svn_stringbuf_ensure.
  destruct (Z.ltb_spec (Z.of_nat (length (sb_data sb))) (Z.of_nat m)) as [Hlt|];
    [|exists sb; split_and!; [done|done|lia|lia]].
  assert (exists b', (if Z.of_nat (length (sb_data sb)) =? 0 then Ok (Z.of_nat m)
    else grow 66 (Z.of_nat (length (sb_data sb))) (Z.of_nat m)) = Ok b' /\
    Z.of_nat m <= b' /\ Z.of_nat (length (sb_data sb)) <= b') as (b' & -> & Hb1 & Hb2).
  { destruct (Z.eqb_spec (Z.of_nat (length (sb_data sb))) 0); [eexists; split_and!; [done|lia|lia]|].
    apply (grow_ok 65); [lia|done| |unfold size_limit, two64 in *; lia].
    unfold size_limit in *. change (2 ^ Z.of_nat 65) with (2 ^ 62 * 8). nia. }
  cbn [mbind outcome_bind].
  assert (length s <= length (sb_data sb))%nat by (rewrite Hd, length_app, length_fmap; lia).
  eexists. split; [done|]. split_and!; simpl.
  - split; [done|]. simpl. eexists. rewrite Hd, Hl at 1. rewrite take_app_le by (rewrite length_fmap; lia).
    rewrite <- (length_fmap Some s) at 1. rewrite firstn_all. done.
  - rewrite length_app, length_take, length_replicate. lia.
  - rewrite length_app, length_take, length_replicate. lia.
Qed.

(** *** Operations *)

Lemma blk_wr_app (l : bytes) x junk i c :
  i = length l -> blk_wr ((Some <$> l) ++ x :: junk) i c = Ok ((Some <$> l) ++ Some c :: junk).
Proof.
  intros ->. unfold blk_wr. rewrite (proj2 (Nat.ltb_lt _ _))
    by (rewrite length_app, length_fmap; simpl; lia).
  f_equal. rewrite insert_app_r_alt by (rewrite length_fmap; lia).
  by rewrite length_fmap, Nat.sub_diag.
Qed.

Lemma appendbytes_ok sb s b count :
  sb_pre sb s -> (count <= length b)%nat -> Z.of_nat (length s + count + 1) <= size_limit ->
  exists sb', svn_stringbuf_appendbytes sb b count = Ok sb' /\ sb_rep sb' (s ++ take count b).
Proof.
  intros Hp Hc Hm. unfold svn_stringbuf_appendbytes. pose proof Hp as [Hl _].
  destruct (ensure_ok sb s (sb_len sb + count + 1) Hp ltac:(lia)) as (sb1 & -> & [Hl1 [junk Hd1]] & Hcap & _).
  cbn [mbind outcome_bind]. rewrite (proj2 (Nat.leb_le _ _)) by done.
  rewrite Hd1 in Hcap |- *. rewrite length_app, length_fmap in Hcap.
  unfold blk_cpy. rewrite length_take_le, Hl1 by done.
  rewrite (proj2 (Nat.leb_le _ _)) by (rewrite length_app, length_fmap; lia).
  cbn [mbind outcome_bind].
  rewrite take_app_le, <- (length_fmap Some s), firstn_all by (rewrite length_fmap; lia).
  rewrite drop_app_ge by lia. rewrite length_fmap.
  replace (length s + count - length s)%nat with count by lia.
  destruct (drop count junk) as [|x junk'] eqn:Ej.
  { apply (f_equal length) in Ej. rewrite length_drop in Ej. simpl in Ej. lia. }
  rewrite app_assoc, <- fmap_app.
  rewrite blk_wr_app by (rewrite length_app, length_take_le by done; lia).
  cbn [mbind outcome_bind]. eexists. split; [done|]. split; simpl.
  - rewrite length_app, length_take_le by done. lia.
  - by exists junk'.
Qed.

Lemma chop_ok sb s n :
  sb_rep sb s -> exists sb', svn_stringbuf_chop sb n = Ok sb' /\ sb_rep sb' (take (length s - n) s).
Proof.
  intros [Hl [junk Hd]]. unfold svn_stringbuf_chop. rewrite Hl, Hd.
  replace (if (length s <? n)%nat then 0%nat else (length s - n)%nat) with (length s - n)%nat
    by (destruct (Nat.ltb_spec (length s) n); lia).
  set (k := (length s - n)%nat).
  replace (Some <$> s) with ((Some <$> take k s) ++ (Some <$> drop k s))
    by (by rewrite <- fmap_app, take_drop).
  rewrite <- app_assoc.
  assert (exists x j, (Some <$> drop k s) ++ Some NUL :: junk = x :: j) as (x & j & ->).
  { destruct (drop k s); simpl; by eexists _, _. }
  rewrite blk_wr_app by (rewrite length_take; lia).
  cbn [mbind outcome_bind]. eexists. split; [done|]. split; simpl.
  - rewrite length_take. lia.
  - by exists j.
Qed.

Lemma setempty_ok sb s :
  sb_rep sb s -> exists sb', svn_stringbuf_setempty sb = Ok sb' /\ sb_rep sb' [].
Proof.
  intros [Hl [junk Hd]]. unfold svn_stringbuf_setempty. rewrite Hl, Hd.
  destruct s as [|c s].
  - simpl. eexists. split; [done|]. split; [done|]. by exists junk.
  - change ((Some <$> c :: s) ++ Some NUL :: junk)
      with ((Some <$> []) ++ Some c :: ((Some <$> s) ++ Some NUL :: junk)).
    cbn [length Nat.ltb Nat.leb]. rewrite blk_wr_app by done.
    cbn [mbind outcome_bind]. eexists. split; [done|]. split; [done|]. simpl. by eexists.
Qed.

Lemma dup_ok sb s :
  sb_pre sb s -> exists sb', svn_stringbuf_dup sb = Ok sb' /\ sb_rep sb' s.
Proof.
  intros Hp. unfold svn_stringbuf_dup. rewrite (sb_pre_bytes sb s Hp). cbn [mbind outcome_bind].
  destruct Hp as [Hl _]. rewrite Hl. destruct (ncreate_ok s (length s)) as (sb' & E & H); [done|].
  exists sb'. by rewrite firstn_all in H.
Qed.

Lemma compare_ok sb1 s1 sb2 s2 :
  sb_pre sb1 s1 -> sb_pre sb2 s2 ->
  svn_stringbuf_compare sb1 sb2 = Ok (bool_decide (s1 = s2)).
Proof.
  intros H1 H2. unfold svn_stringbuf_compare. destruct H1 as [Hl1 Hd1] eqn:E1.
  destruct H2 as [Hl2 Hd2] eqn:E2. rewrite Hl1, Hl2.
  destruct (Nat.eqb_spec (length s1) (length s2)) as [E|E]; cbn [negb].
  - rewrite <- Hl1, (sb_pre_bytes sb1 s1) by done. cbn [mbind outcome_bind].
    rewrite Hl1, E, <- Hl2, (sb_pre_bytes sb2 s2) by done. done.
  - rewrite bool_decide_false by congruence. done.
Qed.

(** The last occurrence of a character. *)
Definition last_index (c : byte) (s : bytes) (i : nat) : Prop :=
  s !! i = Some c /\ forall j, (i < j)%nat -> s !! j <> Some c.

Lemma find_char_backward_ok sb s c n :
  sb_pre sb s -> (n <= length s)%nat ->
  match find_char_backward (sb_data sb) c n with
  | Ok (Some i) => last_index c (take n s) i
  | Ok None => c ∉ take n s
  | _ => False
  end.
Proof.
  intros Hp. induction n as [|n IH]; intros Hn; simpl.
  - by apply not_elem_of_nil.
  - destruct (lookup_lt_is_Some_2 s n ltac:(lia)) as [x Hx].
    rewrite (sb_pre_rd _ _ _ _ Hp Hx). cbn [mbind outcome_bind].
    rewrite (take_S_r _ _ _ Hx). destruct (byte_eq_dec x c) as [->|Hne].
    + assert (length (take n s) = n) as Hl by (rewrite length_take; lia). split.
      * rewrite lookup_app_r, Hl, Nat.sub_diag by lia. done.
      * intros j Hj. rewrite lookup_app_r, Hl by lia. destruct (j - n)%nat eqn:E; [lia|done].
    + specialize (IH ltac:(lia)). destruct (find_char_backward _ c n) as [[i|]|e| |]; try done.
      * destruct IH as [Hi Hj]. split.
        -- apply lookup_app_l_Some. done.
        -- intros j Hij Hjc. apply lookup_app_Some in Hjc as [Hjc|[Hge Hjc]]; [by apply (Hj j)|].
           apply list_lookup_singleton_Some in Hjc as [_ Hjc]. done.
      * apply not_elem_of_app. split; [done|]. by apply not_elem_of_cons; split; [|apply not_elem_of_nil].
Qed.

(** The index fits: the loop looks at all the characters. *)
Lemma backward_start (n : nat) : Z.of_nat n <= 2 ^ 31 -> Z.to_nat (int_t (size_t (Z.of_nat n - 1)) + 1) = n.
Proof.
  intros Hn. destruct n as [|n]; [done|]. rewrite size_t_small by (unfold two64; lia).
  rewrite int_t_small by lia. lia.
Qed.

(** The string before the last occurrence of a character. *)
Lemma chop_back_ok sb s c :
  sb_rep sb s -> Z.of_nat (length s) <= 2 ^ 31 ->
  exists n sb', svn_stringbuf_chop_back_to_char sb c = Ok (n, sb') /\
    ((n = 0%nat /\ (c ∉ s) /\ sb' = sb) \/
     exists i, last_index c s i /\ n = (length s - i)%nat /\ sb_rep sb' (take i s)).
Proof.
  intros Hr H31. pose proof (sb_rep_pre _ _ Hr) as Hp.
  pose proof (find_char_backward_ok sb s c (length s) Hp ltac:(lia)) as H.
  unfold svn_stringbuf_chop_back_to_char, svn_stringbuf_find_char_backward.
  destruct Hr as [Hl Hd] eqn:Er. rewrite Hl, backward_start by done. rewrite firstn_all in H.
  destruct (find_char_backward _ c (length s)) as [[i|]|e| |]; try done; cbn [mbind outcome_bind default].
  - destruct H as [Hi Hj]. pose proof (lookup_lt_Some _ _ _ Hi).
    cbn [from_option id]. rewrite (proj2 (Nat.ltb_lt _ _)) by done.
    destruct (chop_ok sb s (length s - i)) as (sb' & -> & Hr'); [done|]. cbn [mbind outcome_bind].
    eexists _, sb'. split; [done|]. right. exists i. split_and!; [done|done|].
    by replace (length s - (length s - i))%nat with i in Hr' by lia.
  - cbn [from_option id]. rewrite (proj2 (Nat.ltb_ge _ _)) by lia.
    eexists _, _. split; [done|]. by left.
Qed.

(** The index is negative: no character is looked at. *)
Lemma chop_back_long sb s c :
  sb_rep sb s -> 2 ^ 31 < Z.of_nat (length s) <= 2 ^ 32 -> svn_stringbuf_chop_back_to_char sb c = Ok (0%nat, sb).
Proof.
  intros [Hl _] Hs. unfold svn_stringbuf_chop_back_to_char, svn_stringbuf_find_char_backward. rewrite Hl.
  rewrite size_t_small by (unfold two64; lia). unfold int_t.
  rewrite <- (Z.mod_unique _ _ 1 (Z.of_nat (length s) - 1 + 2 ^ 31 - 2 ^ 32)) by lia.
  replace (Z.to_nat _) with 0%nat by lia.
  cbn [find_char_backward mbind outcome_bind default from_option id].
  by rewrite (proj2 (Nat.ltb_ge _ _)) by lia.
Qed.

(** *** Whitespace *)

Fixpoint ltrim (s : bytes) : bytes :=
  match s with [] => [] | c :: l => if apr_isspace c then ltrim l else s end.

Fixpoint rtrim (s : bytes) : bytes :=
  match s with
  | [] => []
  | c :: l => match rtrim l with
              | [] => if apr_isspace c then [] else [c]
              | r => c :: r
              end
  end.

Lemma rtrim_snoc s c : rtrim (s ++ [c]) = if apr_isspace c then rtrim s else s ++ [c].
Proof.
  induction s as [|x s IH]; simpl; [by destruct (apr_isspace c)|]. rewrite IH.
  destruct (apr_isspace c); [done|]. by destruct (s ++ [c]) eqn:E; [destruct s|].
Qed.

Lemma ltrim_nil s : forallb apr_isspace s = true <-> ltrim s = [].
Proof. induction s as [|c s IH]; [done|]. simpl. by destruct (apr_isspace c). Qed.

Lemma first_non_whitespace_ok data pre s junk :
  data = (Some <$> pre) ++ (Some <$> s) ++ junk ->
  first_non_whitespace data (length pre) (length s) =
  Ok (if forallb apr_isspace s then None else Some (length pre + (length s - length (ltrim s)))%nat).
Proof.
  revert pre. induction s as [|c s IH]; intros pre Hd; [done|].
  cbn [length first_non_whitespace].
  assert (blk_rd data (length pre) = Ok c) as ->.
  { unfold blk_rd. rewrite Hd, lookup_app_r, length_fmap, Nat.sub_diag by (rewrite length_fmap; lia).
    done. }
  cbn [mbind outcome_bind forallb ltrim]. destruct (apr_isspace c); cbn [negb andb].
  - replace (S (length pre)) with (length (pre ++ [c])) by (rewrite length_app; simpl; lia).
    rewrite IH by (by rewrite Hd, fmap_app, <- app_assoc). rewrite length_app. simpl length.
    assert (length (ltrim s) <= length s)%nat.
    { clear. induction s as [|x s IHs]; simpl; [lia|]. destruct (apr_isspace x); simpl; lia. }
    destruct (forallb _ s); [done|]. do 2 f_equal. lia.
  - simpl. do 2 f_equal. lia.
Qed.

Lemma last_non_whitespace_ok data s junk :
  data = (Some <$> s) ++ junk -> forallb apr_isspace s = false ->
  last_non_whitespace data (length s) = Ok (length (rtrim s) - 1)%nat /\
  rtrim s = take (length (rtrim s)) s /\ (0 < length (rtrim s) <= length s)%nat.
Proof.
  revert junk. induction s as [|c s IH] using rev_ind; intros junk Hd Hs; [done|].
  rewrite length_app, Nat.add_1_r. cbn [last_non_whitespace length].
  assert (blk_rd data (length s) = Ok c) as ->.
  { unfold blk_rd. rewrite Hd, fmap_app, <- app_assoc, lookup_app_r, length_fmap, Nat.sub_diag
      by (rewrite length_fmap; lia). done. }
  cbn [mbind outcome_bind]. rewrite rtrim_snoc. rewrite forallb_app in Hs. simpl in Hs.
  destruct (apr_isspace c); cbn [negb] in *.
  - rewrite !andb_true_r in Hs.
    destruct (IH (Some c :: junk)) as (-> & Ht & Hl); [by rewrite Hd, fmap_app, <- app_assoc|done|].
    split_and!; [done| |lia|lia]. rewrite take_app_le by lia. done.
  - rewrite length_app. simpl length. split_and!; [f_equal; lia| |lia|lia].
    symmetry. apply take_ge. rewrite length_app. simpl. lia.
Qed.

Lemma strip_whitespace_ok sb s :
  sb_rep sb s ->
  if forallb apr_isspace s then svn_stringbuf_strip_whitespace sb = Undef
  else exists sb', svn_stringbuf_strip_whitespace sb = Ok sb' /\ sb_rep sb' (rtrim (ltrim s)).
Proof.
  intros [Hl [junk Hd]]. unfold svn_stringbuf_strip_whitespace, svn_stringbuf_first_non_whitespace.
  rewrite Hl. pose proof (first_non_whitespace_ok (sb_data sb) [] s (Some NUL :: junk) Hd) as Hf.
  cbn [length Nat.add] in Hf. rewrite Hf.
  destruct (forallb apr_isspace s) eqn:Es; [done|]. cbn [mbind outcome_bind].
  set (k := (length s - length (ltrim s))%nat).
  assert (drop k s = ltrim s /\ forallb apr_isspace (ltrim s) = false /\
    length (ltrim s) = (length s - k)%nat) as (Hk & Hn & Hlk).
  { subst k. clear - Es. induction s as [|c s IH]; [done|]. simpl in Es |- *.
    destruct (apr_isspace c) eqn:Ec.
    - destruct (IH Es) as (H1 & H2 & H3).
      assert (length (ltrim s) <= length s)%nat
        by (rewrite <- H1, length_drop; lia).
      rewrite Nat.sub_succ_l by lia. simpl. split_and!; [done|done|lia].
    - simpl. rewrite Ec, Nat.sub_diag. split_and!; [done|done|lia]. }
  assert (drop k (sb_data sb) = (Some <$> ltrim s) ++ Some NUL :: junk) as Hdk.
  { rewrite Hd, drop_app_le by (rewrite length_fmap; lia). by rewrite <- fmap_drop, Hk. }
  rewrite Hdk, <- Hlk.
  destruct (last_non_whitespace_ok ((Some <$> ltrim s) ++ Some NUL :: junk) (ltrim s) _ eq_refl Hn) as (-> & Ht & Hlen).
  cbn [mbind outcome_bind].
  replace (length (rtrim (ltrim s)) - 1 + 1)%nat with (length (rtrim (ltrim s))) by lia.
  set (r := length (rtrim (ltrim s))) in *.
  replace (Some <$> ltrim s) with ((Some <$> take r (ltrim s)) ++ (Some <$> drop r (ltrim s)))
    by (by rewrite <- fmap_app, take_drop).
  rewrite <- app_assoc.
  assert (exists x j, (Some <$> drop r (ltrim s)) ++ Some NUL :: junk = x :: j) as (x & j & ->).
  { destruct (drop r (ltrim s)); simpl; by eexists _, _. }
  rewrite blk_wr_app by (rewrite length_take; lia). cbn [mbind outcome_bind].
  eexists. split; [done|]. split; simpl; [done|].
  exists j. f_equal. f_equal. by symmetry.
Qed.

(** ** Properties *)

(** C36. The string buffers implement byte strings: from buffers that hold [s] and
    [s2] followed by their null byte, and below 2^62 bytes, every operation
    stays within its block, succeeds, and leaves a buffer that holds the
    expected string, again followed by a null byte.  Chopping back to a character,
    whose index is an [int], does so up to 2^31 bytes; from there to 2^32 bytes it
    looks at no character and chops nothing. *)
Theorem stringbuf_refines sb s sb2 s2 b count n c :
  sb_rep sb s -> sb_rep sb2 s2 -> (count <= length b)%nat ->
  Z.of_nat (length s + length s2 + count + 1) <= size_limit ->
  (exists r, svn_stringbuf_appendbytes sb b count = Ok r /\ sb_rep r (s ++ take count b)) /\
  (exists r, svn_stringbuf_appendstr sb sb2 = Ok r /\ sb_rep r (s ++ s2)) /\
  (exists r, svn_stringbuf_dup sb = Ok r /\ sb_rep r s) /\
  (exists r, svn_stringbuf_setempty sb = Ok r /\ sb_rep r []) /\
  (exists r, svn_stringbuf_chop sb n = Ok r /\ sb_rep r (take (length s - n) s)) /\
  svn_stringbuf_compare sb sb2 = Ok (bool_decide (s = s2)) /\
  (Z.of_nat (length s) <= 2 ^ 31 -> exists n r, svn_stringbuf_chop_back_to_char sb c = Ok (n, r) /\
     ((n = 0%nat /\ (c ∉ s) /\ r = sb) \/
      exists i, last_index c s i /\ n = (length s - i)%nat /\ sb_rep r (take i s))) /\
  (2 ^ 31 < Z.of_nat (length s) <= 2 ^ 32 -> svn_stringbuf_chop_back_to_char sb c = Ok (0%nat, sb)).
Proof.
  intros H1 H2 Hc Hlim. pose proof (sb_rep_pre _ _ H1) as P1. pose proof (sb_rep_pre _ _ H2) as P2.
  split; [apply appendbytes_ok; [done|done|lia]|]. split.
  { unfold svn_stringbuf_appendstr. rewrite (sb_pre_bytes _ _ P2). cbn [mbind outcome_bind].
    destruct P2 as [Hl2 _]. rewrite Hl2.
    destruct (appendbytes_ok sb s s2 (length s2) P1) as (r & E & Hr); [done|lia|].
    rewrite firstn_all in Hr. by exists r. }
  split; [by apply dup_ok|]. split; [by eapply setempty_ok|]. split; [by apply chop_ok|].
  split; [by apply compare_ok|]. split; [by apply chop_back_ok|by apply (chop_back_long sb s)].
Qed.

(** [svn_stringbuf_strip_whitespace] removes the white space on both sides
    of a string that has some other character; on an empty or blank string it
    moves the data pointer before the start of the block (the backward loop
    tests [i >= 0] on an unsigned integer, and the offset -1 is not tested). *)
Theorem strip_whitespace_correct sb s :
  sb_rep sb s ->
  if forallb apr_isspace s then svn_stringbuf_strip_whitespace sb = Undef
  else exists sb', svn_stringbuf_strip_whitespace sb = Ok sb' /\ sb_rep sb' (rtrim (ltrim s)).
Proof. apply strip_whitespace_ok. Qed.

(** ** Witnesses *)

Definition sample_sb (s : bytes) : svn_stringbuf_t := mk_sb ((Some <$> s) ++ [Some NUL]) (length s).

Lemma sample_sb_rep s : sb_rep (sample_sb s) s.
Proof. split; [done|]. by exists []. Qed.

Lemma stringbuf_refines_witness :
  (exists r, svn_stringbuf_appendbytes (sample_sb (bstr "a/b")) (bstr "cde") 2 = Ok r /\
     sb_rep r (bstr "a/bcd")) /\
  exists n r, svn_stringbuf_chop_back_to_char (sample_sb (bstr "a/b")) (zb 47) = Ok (n, r) /\
    n = 2%nat.
Proof.
  destruct (stringbuf_refines (sample_sb (bstr "a/b")) (bstr "a/b") (sample_sb []) [] (bstr "cde") 2 0
    (zb 47)) as (H1 & _ & _ & _ & _ & _ & Hb & _).
  - apply sample_sb_rep.
  - apply sample_sb_rep.
  - simpl. lia.
  - by vm_compute.
  - destruct (Hb ltac:(by vm_compute)) as (n & r & E & _).
    split; [exact H1|]. exists n, r. split; [exact E|]. vm_compute in E. by injection E as <- _.
Defined.

Lemma strip_whitespace_correct_witness :
  exists sb', svn_stringbuf_strip_whitespace (sample_sb (bstr "  a b ")) = Ok sb' /\
    sb_rep sb' (bstr "a b").
Proof. apply (strip_whitespace_correct (sample_sb (bstr "  a b ")) (bstr "  a b ")), sample_sb_rep. Defined.
