(* ===== verification/Path.v ===== *)
(** * Paths ([libsvn_subr/path.c])

    A path in a [svn_stringbuf_t] or a [svn_string_t] is given by its bytes (see
    [SvnString]): reading the cell after the last one gives the null byte, and
    any other access outside is [Undef].  The URI functions, which compute the
    size of their buffers, are modelled on [svn_stringbuf_t] blocks. *)

From S2P Require Import Prelude SvnString.

Definition SVN_PATH_SEPARATOR : byte := zb 47.

Abbreviation sep := SVN_PATH_SEPARATOR.

(** [path->data[i]]. *)
Definition char_at (path : bytes) (i : nat) : outcome byte :=
  match path !! i with
  | Some c => Ok c
  | None => if (i =? length path)%nat then Ok NUL else Undef
  end.

(** Does the path end with this character? *)
Definition ends_with (path : bytes) (c : byte) : bool :=
  match list.last path with Some d => bool_decide (d = c) | None => false end.

(** ** Canonical form *)

Fixpoint canonicalize_loop (n : nat) (path : bytes) : bytes :=
  match n with
  | O => path
  | S n => if ends_with path sep then canonicalize_loop n (take (length path - 1) path) else path
  end.

Definition svn_path_canonicalize (path : bytes) : bytes := canonicalize_loop (length path) path.

(** The loops that replace one separator by the other, up to a null byte. *)
Fixpoint replace_chars (a b : byte) (p : bytes) : bytes :=
  match p with
  | [] => []
  | c :: p =>
      if byte_eq_dec c NUL then c :: p
      else (if byte_eq_dec c a then b else c) :: replace_chars a b p
  end.

Section local_style.
Context (SVN_PATH_LOCAL_SEPARATOR : byte).

Definition svn_path_internal_style (path : bytes) : bytes :=
let path :=
if byte_eq_dec sep SVN_PATH_LOCAL_SEPARATOR then path
else replace_chars SVN_PATH_LOCAL_SEPARATOR sep path in
svn_path_canonicalize path.

Definition svn_path_local_style (path : bytes) : bytes :=
let path := svn_path_canonicalize path in
if byte_eq_dec sep SVN_PATH_LOCAL_SEPARATOR then path
else replace_chars sep SVN_PATH_LOCAL_SEPARATOR path.
End local_style.

(** ** Joining; the arguments are C strings, given by the bytes before their
    terminator *)

Definition svn_path_join (base component : bytes) : bytes :=
  if (length base =? 0)%nat || bool_decide (head component = Some sep) then component
  else if (length component =? 0)%nat then base
  else
    let blen := if ends_with base sep then (length base - 1)%nat else length base in
    take blen base ++ sep :: component.

Definition MAX_SAVED_LENGTHS : nat := 10.

(** The length of a component without a trailing slash. *)
Definition component_len (s : bytes) : nat :=
  if (1 <? length s)%nat && ends_with s sep then (length s - 1)%nat else length s.

(** The state of the first loop of [svn_path_join_many]. *)
Record join_state := mk_join {
  total_len : nat;
  base_arg : nat;
  nargs : nat;
  base_is_root : bool;
  saved_lengths : list nat;
}.

Definition join_measure (st : join_state) (s : bytes) : outcome join_state :=
  let len := component_len s in
  let nargs' := S (nargs st) in
  saved ←
    (if (nargs st <? MAX_SAVED_LENGTHS)%nat then
       if (nargs' <? MAX_SAVED_LENGTHS)%nat then Ok (<[nargs' := len]> (saved_lengths st))
       else Undef (* the array has MAX_SAVED_LENGTHS elements *)
     else Ok (saved_lengths st));
  Ok (if (len =? 0)%nat then
        mk_join (total_len st)
          (if (total_len st =? 0)%nat then (nargs' + 1)%nat else base_arg st)
          nargs' (base_is_root st) saved
      else if bool_decide (head s = Some sep) then
        mk_join len nargs' nargs' (len =? 1)%nat saved
      else if (nargs' =? base_arg st)%nat
           || ((nargs' =? base_arg st + 1)%nat && base_is_root st) then
        mk_join (total_len st + len) (base_arg st) nargs' (base_is_root st) saved
      else mk_join (total_len st + (1 + len)) (base_arg st) nargs' (base_is_root st) saved).

Fixpoint join_measure_all (st : join_state) (args : list bytes) : outcome join_state :=
  match args with
  | [] => Ok st
  | s :: args => st ← join_measure st s; join_measure_all st args
  end.

(** [memcpy] to the end of what has been written of a block of [size] bytes. *)
Definition out_cpy (size : nat) (out d : bytes) : outcome bytes :=
  if (length out + length d <=? size)%nat then Ok (out ++ d) else Undef.

(** The second loop; [n] arguments have been seen. *)
Fixpoint join_copy (st : join_state) (size : nat) (args : list bytes) (n : nat) (out : bytes) :
    outcome bytes :=
  match args with
  | [] => Ok out
  | s :: args =>
      let n := S n in
      if (n <? base_arg st)%nat then join_copy st size args n out
      else
        len ← (if (n <? MAX_SAVED_LENGTHS)%nat then rd (saved_lengths st) n
               else Ok (component_len s));
        if (len =? 0)%nat then join_copy st size args n out
        else
          out ← (if negb (length out =? 0)%nat && negb (ends_with out sep)
                 then out_cpy size out [sep] else Ok out);
          if (len <=? length s + 1)%nat then
            out ← out_cpy size out (take len (s ++ [NUL]));
            join_copy st size args n out
          else Undef
  end.

Definition svn_path_join_many (base : bytes) (args : list bytes) : outcome bytes :=
  if (length base =? 0)%nat then Undef (* reads base[-1] *)
  else
    let '(total, root) :=
      if ends_with base sep then
        if (length base =? 1)%nat then (1%nat, true) else ((length base - 1)%nat, false)
      else (length base, false) in
    st ← join_measure_all
           (mk_join total 0 0 root (total :: replicate (MAX_SAVED_LENGTHS - 1) 0%nat)) args;
    if base_is_root st && (total_len st =? 1)%nat then Ok [sep]
    else
      let size := (total_len st + 1)%nat in
      out ←
        (if (base_arg st =? 0)%nat then
           len ← rd (saved_lengths st) 0;
           out_cpy size [] (take len base)
         else Ok []);
      out ← join_copy st size args 0 out;
      _ ← out_cpy size out [NUL];
      _ ← c_assert (length out =? total_len st)%nat;
      Ok out.

(** ** Components *)

Definition add_component_internal (path component : bytes) : bytes :=
  let path :=
    if negb (length path =? 0)%nat && negb (bool_decide (path = [sep]))
    then path ++ [sep] else path in
  svn_path_canonicalize (path ++ component).

Definition svn_path_add_component_nts (path component : bytes) : bytes :=
  add_component_internal path (take (strlen component) component).

Definition svn_path_add_component (path component : bytes) : bytes :=
  add_component_internal path component.

(** The index of the last separator among the first [n] characters. *)
Fixpoint last_sep (path : bytes) (n : nat) : option nat :=
  match n with
  | O => None
  | S i => if bool_decide (path !! i = Some sep) then Some i else last_sep path i
  end.

Definition svn_path_remove_component (path : bytes) : outcome bytes :=
  let path := svn_path_canonicalize path in
  match last_sep path (length path) with
  | None => Ok []
  | Some i =>
      let path := take i path in
      if (length path =? 0)%nat then Undef (* reads data[-1] *)
      else Ok (if ends_with path sep then take (length path - 1) path else path)
  end.

Definition svn_path_basename (path : bytes) : bytes :=
  if (length path =? 0)%nat then []
  else
    let path := canonicalize_loop (length path) path in
    if (length path =? 0)%nat then [sep]
    else match last_sep path (length path) with
         | Some i => drop (i + 1) path
         | None => path
         end.

(** The directory and the base name. *)
Definition svn_path_split (path : bytes) : outcome (bytes * bytes) :=
  dirpath ← svn_path_remove_component (svn_path_canonicalize path);
  Ok (dirpath, svn_path_basename (take (strlen path) path)).

(** A null pointer is [None]. *)
Definition svn_path_is_empty (path : option bytes) : bool :=
  match path with
  | None => true
  | Some path =>
      (length path =? 0)%nat || bool_decide (path = bstr ".") || bool_decide (path = bstr "./")
  end.

(** ** Comparing *)

Fixpoint skip_common_prefix (fuel : nat) (path1 path2 : bytes) (min_len i : nat) : outcome nat :=
  match fuel with
  | O => Undef
  | S fuel =>
      if (i <? min_len)%nat then
        a ← char_at path1 i; b ← char_at path2 i;
        if byte_eq_dec a b then skip_common_prefix fuel path1 path2 min_len (S i) else Ok i
      else Ok i
  end.

Definition svn_path_compare_paths (path1 path2 : bytes) : outcome Z :=
  let min_len :=
    if (length path1 <? length path2)%nat then length path1 else length path2 in
  i ← skip_common_prefix (S min_len) path1 path2 min_len 0;
  if (length path1 =? length path2)%nat && (min_len <=? i)%nat then Ok 0
  else
    a ← char_at path1 i;
    if byte_eq_dec a sep then Ok 1
    else
      b ← char_at path2 i;
      if byte_eq_dec b sep then Ok (-1)
      else Ok (if bsz a <? bsz b then -1 else 1).

(** The loop of [svn_path_get_longest_ancestor]: [i] and [last_dirsep]. *)
Fixpoint ancestor_loop (fuel : nat) (path1 path2 : bytes) (i last_dirsep : nat) :
    outcome (nat * nat) :=
  match fuel with
  | O => Undef
  | S fuel =>
      a ← char_at path1 i; b ← char_at path2 i;
      if byte_eq_dec a b then
        let last_dirsep := if byte_eq_dec a sep then i else last_dirsep in
        let i := S i in
        if (i =? length path1)%nat || (i =? length path2)%nat then Ok (i, last_dirsep)
        else ancestor_loop fuel path1 path2 i last_dirsep
      else Ok (i, last_dirsep)
  end.

Definition svn_path_get_longest_ancestor (path1 path2 : option bytes) : outcome (option bytes) :=
  match path1, path2 with
  | Some path1, Some path2 =>
      if (length path1 =? 0)%nat || (length path2 =? 0)%nat then Ok None
      else
        '(i, last_dirsep) ← ancestor_loop (S (length path1)) path1 path2 0 0;
        let ends1 := (i =? length path1)%nat in
        let ends2 := (i =? length path2)%nat in
        whole ←
          (s2 ← (if ends1 then c ← char_at path2 i; Ok (bool_decide (c = sep)) else Ok false);
           if s2 : bool then Ok true
           else
             s1 ← (if ends2 then c ← char_at path1 i; Ok (bool_decide (c = sep)) else Ok false);
             Ok (s1 || (ends1 && ends2)));
        Ok (Some (svn_path_canonicalize (take (if whole : bool then i else last_dirsep) path1)))
  | _, _ => Ok None
  end.

Definition svn_path_is_child (path1 path2 : option bytes) : outcome (option bytes) :=
  match path1, path2 with
  | Some path1, Some path2 =>
      if (length path1 =? 0)%nat || (length path2 =? 0)%nat then Ok None
      else if (length path2 <=? length path1)%nat then Ok None
      else
        let i := length path1 in
        if bool_decide (take i path2 = path1) then
          if ends_with path1 sep then Ok (Some (drop i path2))
          else
            c ← char_at path2 i;
            Ok (if byte_eq_dec c sep then Some (drop (i + 1) path2) else None)
        else Ok None
  | _, _ => Ok None
  end.

(** The loop of [svn_path_decompose]: [oldi] is where the current component
    starts, [n] the number of characters, the terminator included, left. *)
Fixpoint decompose_loop (n : nat) (path : bytes) (i oldi : nat) : outcome (list bytes) :=
  match n with
  | O => Ok []
  | S n =>
      c ← char_at path i;
      if bool_decide (c = sep) || bool_decide (c = NUL) then
        l ← decompose_loop n path (S i) (S i);
        Ok (take (i - oldi) (drop oldi path) :: l)
      else decompose_loop n path (S i) oldi
  end.

Definition svn_path_decompose (path : bytes) : outcome (list bytes) :=
  if svn_path_is_empty (Some path) then Ok []
  else
    c ← char_at path 0;
    if byte_eq_dec c sep then
      l ← decompose_loop (length path) path 1 1;
      Ok ([sep] :: l)
    else decompose_loop (S (length path)) path 0 0.

(** ** URIs *)

(** [strchr]: the terminator of the string counts. *)
Definition strchr (s : bytes) (c : byte) : bool := bool_decide (c ∈ s ++ [NUL]).

Fixpoint is_url_loop (n : nat) (path : bytes) (j : nat) : outcome bool :=
  match n with
  | O => Ok false
  | S n =>
      c ← char_at path j;
      if byte_eq_dec c sep then Ok false
      else if negb (bool_decide (c = zb 58)) then is_url_loop n path (S j)
      else if (j =? 0)%nat then Ok false
      else
        a ← char_at path (j + 1); b ← char_at path (j + 2);
        let rest := drop (j + 3) path in
        Ok (bool_decide (a = sep) && bool_decide (b = sep) &&
            bool_decide (sep ∈ take (strlen rest) rest))
  end.

Definition svn_path_is_url (path : bytes) : outcome bool :=
  if (length path <? 5)%nat then Ok false else is_url_loop (length path - 3) path 0.

Definition char_is_uri_safe (c : byte) : bool :=
  ((65 <=? bsz c) && (bsz c <=? 90)) || ((97 <=? bsz c) && (bsz c <=? 122)) ||
  ((48 <=? bsz c) && (bsz c <=? 57)) || strchr (bstr "/:.-_!~'()@=+$,&*") c.

Definition svn_path_is_uri_safe (path : bytes) : bool := forallb char_is_uri_safe path.

Definition hex_digit (n : Z) : byte := zb (if n <? 10 then 48 + n else 55 + n).

(** [n] upper-case hexadecimal digits. *)
Fixpoint hex_digits (n : nat) (v : Z) : bytes :=
  match n with O => [] | S n => hex_digits n (v / 16) ++ [hex_digit (v mod 16)] end.

(** [sprintf ("%%%02X", c)]: the [char] is promoted to [int], and the conversion
    takes an [unsigned int]. *)
Definition sprintf_escape (c : byte) : bytes :=
  zb 37 :: hex_digits (if bsz c <? 0 then 8 else 2) (bsz c mod 2 ^ 32).

(** The loop of [svn_path_uri_encode], at [i]. *)
Fixpoint uri_encode_loop (path rest : bytes) (i copied : nat) (retstr : svn_stringbuf_t) :
    outcome (nat * svn_stringbuf_t) :=
  match rest with
  | [] => Ok (copied, retstr)
  | c :: rest =>
      if char_is_uri_safe c then uri_encode_loop path rest (S i) copied retstr
      else
        retstr ← (if negb (i - copied =? 0)%nat
                  then svn_stringbuf_appendbytes retstr (drop copied path) (i - copied)
                  else Ok retstr);
        retstr ← svn_stringbuf_ensure retstr (sb_len retstr + 3);
        data ← blk_cpy (sb_data retstr) (sb_len retstr) (sprintf_escape c ++ [NUL]);
        uri_encode_loop path rest (S i) (S i) (mk_sb data (sb_len retstr + 3))
  end.

Definition svn_path_uri_encode (path : bytes) : outcome svn_stringbuf_t :=
  retstr ← svn_stringbuf_create [];
  '(copied, retstr) ← uri_encode_loop path path 0 0 retstr;
  retstr ← (if negb (length path - copied =? 0)%nat
            then svn_stringbuf_appendbytes retstr (drop copied path) (length path - copied)
            else Ok retstr);
  retstr ← svn_stringbuf_ensure retstr (sb_len retstr + 1);
  data ← blk_wr (sb_data retstr) (sb_len retstr) NUL;
  Ok (mk_sb data (sb_len retstr)).

(** The value of a hexadecimal digit. *)
Definition hex_value (c : byte) : option Z :=
  let z := bz c in
  if (48 <=? z) && (z <=? 57) then Some (z - 48)
  else if (65 <=? z) && (z <=? 70) then Some (z - 55)
  else if (97 <=? z) && (z <=? 102) then Some (z - 87)
  else None.

Fixpoint strtol_digits (s : bytes) (v : Z) : Z :=
  match s with
  | [] => v
  | c :: s => match hex_value c with Some d => strtol_digits s (v * 16 + d) | None => v end
  end.

(** [strtol (s, NULL, 16)] of a string of at most two characters: white space, a
    sign, digits (an [0x] prefix needs a digit after it, and is read as 0). *)
Fixpoint strtol16 (s : bytes) : Z :=
  match s with
  | [] => 0
  | c :: s' =>
      if apr_isspace c then strtol16 s'
      else if bool_decide (c = zb 45) then - strtol_digits s' 0
      else if bool_decide (c = zb 43) then strtol_digits s' 0
      else strtol_digits s 0
  end.

Fixpoint uri_decode_loop (fuel : nat) (path : bytes) (i : nat) (query_start : bool)
    (retstr : svn_stringbuf_t) : outcome svn_stringbuf_t :=
  if (i <? length path)%nat then
    match fuel with
    | O => Undef
    | S fuel =>
        c ← char_at path i;
        '(c, i, query_start) ←
          (if bool_decide (c = zb 63) then Ok (c, i, true)
           else if bool_decide (c = zb 43) && query_start then Ok (zb 32, i, query_start)
           else if bool_decide (c = zb 37) then
             d0 ← char_at path (i + 1); d1 ← char_at path (i + 2);
             Ok (zb (strtol16 (take (strlen [d0; d1]) [d0; d1])), (i + 2)%nat, query_start)
           else Ok (c, i, query_start));
        data ← blk_wr (sb_data retstr) (sb_len retstr) c;
        uri_decode_loop fuel path (S i) query_start (mk_sb data (S (sb_len retstr)))
    end
  else Ok retstr.

Definition svn_path_uri_decode (path : bytes) : outcome svn_stringbuf_t :=
  retstr ← svn_stringbuf_create [];
  retstr ← svn_stringbuf_ensure retstr (length path);
  retstr ← uri_decode_loop (length path) path 0 false (mk_sb (sb_data retstr) 0);
  data ← blk_wr (sb_data retstr) (sb_len retstr) NUL;
  Ok (mk_sb data (sb_len retstr)).

(** ** Canonical form *)

Lemma ends_with_spec path c :
  ends_with path c = true <-> exists p, path = p ++ [c].
Proof.
  unfold ends_with. destruct path as [|d p] using rev_ind.
  - simpl. split; [done|]. intros [p E]. by destruct p.
  - rewrite last_snoc, bool_decide_eq_true. split; [intros ->; by exists p|].
    intros [p' E]. by apply app_inj_tail in E as [_ ->].
Qed.

Lemma canonicalize_loop_spec n path :
  (length path <= n)%nat -> exists k, canonicalize_loop n path = take k path /\
    (k <= length path)%nat /\ ends_with (take k path) sep = false /\
    forall j, (k <= j < length path)%nat -> path !! j = Some sep.
Proof.
  revert path. induction n as [|n IH]; intros path Hn.
  - destruct path; [|simpl in Hn; lia]. exists 0%nat. split_and!; simpl; done || lia.
  - cbn [canonicalize_loop]. destruct (ends_with path sep) eqn:E.
    + apply ends_with_spec in E as [p ->]. rewrite length_app, Nat.add_sub, take_app_length.
      rewrite length_app in Hn. simpl in Hn. destruct (IH p ltac:(lia)) as (k & -> & Hk & He & Hs).
      exists k. rewrite take_app_le by done. simpl. split_and!; [done|lia|done|].
      intros j Hj. destruct (decide (j < length p)%nat).
      * rewrite lookup_app_l by done. apply Hs. lia.
      * rewrite lookup_app_r by lia. by replace (j - length p)%nat with 0%nat by lia.
    + exists (length path). rewrite firstn_all. split_and!; [done|lia|done|lia].
Qed.

Lemma canonicalize_spec path :
  exists k, svn_path_canonicalize path = take k path /\ (k <= length path)%nat /\
    ends_with (take k path) sep = false /\
    forall j, (k <= j < length path)%nat -> path !! j = Some sep.
Proof. by apply canonicalize_loop_spec. Qed.

(** ** The order of paths *)

(** Every character has a key: the separator comes last, the others in the order
    of the signed [char]; the terminator has the key 0. *)
Definition path_key (c : byte) : Z := if byte_eq_dec c sep then 1000 else bsz c.

Definition path_keys (p : bytes) : list Z := (path_key <$> p) ++ [0].

Lemma bsz_inj c d : bsz c = bsz d -> c = d.
Proof.
  unfold bsz. pose proof (bz_range c). pose proof (bz_range d). intros E.
  apply (inj bz). destruct (128 <=? bz c) eqn:E1, (128 <=? bz d) eqn:E2; lia.
Qed.

Lemma bsz_range c : -128 <= bsz c < 128.
Proof. unfold bsz. pose proof (bz_range c). destruct (Z.leb_spec 128 (bz c)); lia. Qed.

Lemma path_key_inj c d : path_key c = path_key d -> c = d.
Proof.
  unfold path_key. pose proof (bsz_range c). pose proof (bsz_range d).
  destruct (byte_eq_dec c sep), (byte_eq_dec d sep); subst; try done; try lia. apply bsz_inj.
Qed.

Lemma path_key_nul c : path_key c = 0 -> c = NUL.
Proof. change 0 with (path_key NUL). apply path_key_inj. Qed.

Lemma path_keys_inj p q :
  Forall (λ c, c <> NUL) p -> Forall (λ c, c <> NUL) q -> path_keys p = path_keys q -> p = q.
Proof.
  unfold path_keys. intros Hp. revert q. induction Hp as [|c p Hc Hp IH]; intros q Hq E.
  - destruct q as [|d q]; [done|]. injection E as E. apply Forall_cons_iff in Hq as [Hd _].
    symmetry in E. by apply path_key_nul in E.
  - destruct q as [|d q].
    + injection E as E. by apply path_key_nul in E.
    + injection E as E1 E2. apply Forall_cons_iff in Hq as [_ Hq].
      f_equal; [by apply path_key_inj|by apply IH].
Qed.

Lemma skip_common_prefix_ok pre p q fuel m :
  m = (length pre + Nat.min (length p) (length q))%nat ->
  (Nat.min (length p) (length q) < fuel)%nat ->
  exists c, skip_common_prefix fuel (pre ++ p) (pre ++ q) m (length pre) = Ok (length pre + length c)%nat /\
    exists p' q', p = c ++ p' /\ q = c ++ q' /\
      match p', q' with a :: _, b :: _ => a <> b | _, _ => True end.
Proof.
  intros ->. revert pre p q. induction fuel as [|fuel IH]; intros pre p q Hf; [lia|].
  cbn [skip_common_prefix].
  destruct p as [|a p], q as [|b q]; cbn [length Nat.min] in *; rewrite ?Nat.add_0_r, ?Nat.ltb_irrefl.
  1-3: exists []; rewrite Nat.add_0_r; split; [done|]; eexists _, _; (split; [reflexivity|split; [reflexivity|done]]).
  rewrite (proj2 (Nat.ltb_lt _ _)) by lia. unfold char_at.
  rewrite !list_lookup_middle by done. cbn [mbind outcome_bind].
  destruct (byte_eq_dec a b) as [->|Hne].
  - destruct (IH (pre ++ [b]) p q) as (c & E & p' & q' & -> & -> & Hd); [lia|].
    rewrite length_app in E. simpl in E. rewrite <- !app_assoc in E. simpl in E.
    exists (b :: c). simpl. split.
    + replace (length pre + S (Nat.min (length (c ++ p')) (length (c ++ q'))))%nat
        with (length pre + 1 + Nat.min (length (c ++ p')) (length (c ++ q')))%nat by lia.
      replace (S (length pre)) with (length pre + 1)%nat by lia. rewrite E. f_equal. lia.
    + by exists p', q'.
  - exists []. rewrite Nat.add_0_r. split; [done|]. by exists (a :: p), (b :: q).
Qed.

(** The comparison is the lexicographic order of the keys. *)
Lemma compare_paths_ok p q :
  Forall (λ c, c <> NUL) p -> Forall (λ c, c <> NUL) q ->
  svn_path_compare_paths p q = Ok (lex (path_keys p) (path_keys q)).
Proof.
  intros Hp Hq. unfold svn_path_compare_paths.
  replace (if (length p <? length q)%nat then length p else length q)
    with (Nat.min (length p) (length q)) by (destruct (Nat.ltb_spec (length p) (length q)); lia).
  destruct (skip_common_prefix_ok [] p q (S (Nat.min (length p) (length q)))
    (Nat.min (length p) (length q))) as (c & E & p' & q' & -> & -> & Hd); [done|lia|].
  cbn [app length Nat.add] in E. rewrite E. cbn [mbind outcome_bind].
  assert (forall c, lex (path_keys (c ++ p')) (path_keys (c ++ q')) =
    lex (path_keys p') (path_keys q')) as Hlex.
  { unfold path_keys. intros l. induction l as [|x l IH]; [done|]. simpl. by rewrite Z.eqb_refl. }
  rewrite Hlex. apply Forall_app in Hp as [_ Hp], Hq as [_ Hq]. rewrite !length_app.
  assert (forall r, char_at (c ++ r) (length c) = Ok (default NUL (head r))) as Hat.
  { intros [|x r]; unfold char_at.
    - rewrite app_nil_r, lookup_ge_None_2, Nat.eqb_refl by lia. done.
    - by rewrite list_lookup_middle. }
  rewrite !Hat. destruct p' as [|a p'], q' as [|b q']; cbn [head default length from_option id].
  - rewrite Nat.add_0_r, Nat.eqb_refl, Nat.min_id, Nat.leb_refl. done.
  - rewrite Nat.add_0_r.
    destruct (Nat.eqb_spec (length c) (length c + S (length q'))); [lia|]. cbn [andb mbind outcome_bind].
    destruct (byte_eq_dec NUL sep); [done|]. apply Forall_cons_iff in Hq as [Hb _].
    unfold path_keys; cbn [fmap list_fmap app lex]; unfold path_key. destruct (byte_eq_dec b sep); [done|].
    change (bsz NUL) with 0. destruct (Z.eqb_spec 0 (bsz b)) as [E0|]; [|by destruct (_ <? _)].
    by apply (bsz_inj NUL b) in E0.
  - rewrite Nat.add_0_r.
    destruct (Nat.eqb_spec (length c + S (length p')) (length c)); [lia|]. cbn [andb mbind outcome_bind].
    apply Forall_cons_iff in Hp as [Ha _].
    unfold path_keys; cbn [fmap list_fmap app lex]; unfold path_key. destruct (byte_eq_dec a sep); [done|].
    change (bsz NUL) with 0. destruct (Z.eqb_spec (bsz a) 0) as [E0|]; [|by destruct (_ <? _)].
    by apply (bsz_inj a NUL) in E0.
  - replace ((length c + S (length p') =? length c + S (length q'))%nat &&
      (Nat.min (length c + S (length p')) (length c + S (length q')) <=? length c)%nat) with false.
    2: { symmetry. apply andb_false_iff. right. apply Nat.leb_gt. lia. }
    cbn [mbind outcome_bind]. unfold path_keys; cbn [fmap list_fmap app lex]; unfold path_key.
    pose proof (bsz_range a). pose proof (bsz_range b).
    destruct (byte_eq_dec a sep) as [->|].
    + destruct (byte_eq_dec b sep) as [->|]; [done|].
      destruct (Z.eqb_spec 1000 (bsz b)); [lia|]. destruct (Z.ltb_spec 1000 (bsz b)); [lia|done].
    + destruct (byte_eq_dec b sep) as [->|].
      * destruct (Z.eqb_spec (bsz a) 1000); [lia|]. destruct (Z.ltb_spec (bsz a) 1000); [done|lia].
      * destruct (Z.eqb_spec (bsz a) (bsz b)) as [E0|]; [by apply bsz_inj in E0|].
        by destruct (_ <? _).
Qed.

(** ** Ancestors *)

(** [q] is [p] or one of its ancestors. *)
Definition path_prefix (q p : bytes) : Prop := p = q \/ exists r, p = q ++ sep :: r.

Lemma path_prefix_iff q p :
  path_prefix q p <->
  take (length q) p = q /\ (length q = length p \/ p !! length q = Some sep).
Proof.
  split.
  - intros [->|[r ->]].
    + by rewrite firstn_all; split; [|left].
    + rewrite take_app_length. split; [done|right]. by rewrite list_lookup_middle.
  - intros [Ht [Hl|Hs]].
    + left. by rewrite <- Ht, Hl, firstn_all.
    + right. exists (drop (S (length q)) p). rewrite <- (drop_S _ _ _ Hs).
      by rewrite <- Ht at 1; rewrite take_drop.
Qed.

Lemma char_at_lt path i : (i < length path)%nat -> exists c, path !! i = Some c /\ char_at path i = Ok c.
Proof.
  intros Hi. destruct (lookup_lt_is_Some_2 path i Hi) as [c Hc]. exists c. unfold char_at. by rewrite Hc.
Qed.

(** What [ancestor_loop] computes, starting at [i]. *)
Record common_ok (p1 p2 : bytes) (i ld : nat) : Prop := {
  co_le : (i <= length p1)%nat /\ (i <= length p2)%nat;
  co_eq : forall j, (j < i)%nat -> p1 !! j = p2 !! j;
  co_dir : ld = 0%nat \/ ((ld < i)%nat /\ p1 !! ld = Some sep);
  co_last : forall j, (j < i)%nat -> p1 !! j = Some sep -> (j <= ld)%nat;
}.

Lemma ancestor_loop_ok fuel p1 p2 i ld :
  (i < length p1)%nat -> (i < length p2)%nat -> (length p1 < i + fuel)%nat ->
  common_ok p1 p2 i ld ->
  exists i' ld', ancestor_loop fuel p1 p2 i ld = Ok (i', ld') /\ common_ok p1 p2 i' ld' /\
    (i' = length p1 \/ i' = length p2 \/ p1 !! i' <> p2 !! i').
Proof.
  revert i ld. induction fuel as [|fuel IH]; intros i ld H1 H2 Hf Hc; [lia|].
  cbn [ancestor_loop]. destruct (char_at_lt p1 i H1) as (a & Ha & ->).
  destruct (char_at_lt p2 i H2) as (b & Hb & ->). cbn [mbind outcome_bind].
  destruct (byte_eq_dec a b) as [->|Hne].
  - set (ld' := if byte_eq_dec b sep then i else ld).
    assert (common_ok p1 p2 (S i) ld') as Hc'.
    { destruct Hc as [Hle Heq Hd Hl]. constructor; [lia| | |].
      - intros j Hj. destruct (decide (j = i)) as [->|]; [congruence|]. apply Heq. lia.
      - subst ld'. destruct (byte_eq_dec b sep) as [->|]; [right; split; [lia|done]|].
        destruct Hd as [->|[? ?]]; [by left|right; split; [lia|done]].
      - intros j Hj Hs. subst ld'. destruct (byte_eq_dec b sep) as [->|Hn]; [lia|].
        destruct (decide (j = i)) as [->|]; [congruence|]. apply Hl; [lia|done]. }
    destruct (Nat.eqb_spec (S i) (length p1)), (Nat.eqb_spec (S i) (length p2)); cbn [orb];
      [eexists _, _; split; [done|]; auto..|].
    apply IH; [lia|lia|lia|done].
  - exists i, ld. split_and!; [done|done|]. right; right. rewrite Ha, Hb. congruence.
Qed.

(** Every common ancestor that does not end with a separator fits into [i]. *)
Lemma longest_ancestor_ok p1 p2 :
  p1 <> [] -> p2 <> [] -> exists a,
  svn_path_get_longest_ancestor (Some p1) (Some p2) = Ok (Some a) /\
  ends_with a sep = false /\
  (a = [] \/ (path_prefix a p1 /\ path_prefix a p2)) /\
  forall q, q <> [] -> ends_with q sep = false -> path_prefix q p1 -> path_prefix q p2 ->
    path_prefix q a.
Proof.
  intros H1 H2. assert (0 < length p1)%nat as L1 by (destruct p1; [done|simpl; lia]).
  assert (0 < length p2)%nat as L2 by (destruct p2; [done|simpl; lia]).
  unfold svn_path_get_longest_ancestor.
  destruct (Nat.eqb_spec (length p1) 0); [lia|]. destruct (Nat.eqb_spec (length p2) 0); [lia|].
  cbn [orb]. destruct (ancestor_loop_ok (S (length p1)) p1 p2 0 0) as (i & ld & -> & Hc & Hend); try lia.
  { constructor; [lia|lia|by left|lia]. }
  cbn [mbind outcome_bind]. destruct Hc as [[Hi1 Hi2] Heq Hdir Hlast].
  set (whole := (i =? length p1)%nat && bool_decide (p2 !! i = Some sep)
    || ((i =? length p2)%nat && bool_decide (p1 !! i = Some sep)
    || ((i =? length p1)%nat && (i =? length p2)%nat))).
  assert (forall p, (i <= length p)%nat -> exists c, char_at p i = Ok c /\
    bool_decide (c = sep) = bool_decide (p !! i = Some sep)) as Hat.
  { intros p Hp. unfold char_at. destruct (p !! i) as [c|] eqn:E.
    - exists c. split; [done|]. apply bool_decide_ext. split; [by intros ->|by intros [= ->]].
    - apply lookup_ge_None_1 in E. rewrite (proj2 (Nat.eqb_eq _ _)) by lia. by exists NUL. }
  destruct (Hat p1 Hi1) as (c1 & E1 & B1). destruct (Hat p2 Hi2) as (c2 & E2 & B2).
  assert ((s2 ← (if (i =? length p1)%nat then c ← char_at p2 i; Ok (bool_decide (c = sep)) else Ok false);
    if s2 : bool then Ok true
    else s1 ← (if (i =? length p2)%nat then c ← char_at p1 i; Ok (bool_decide (c = sep)) else Ok false);
         Ok (s1 || ((i =? length p1)%nat && (i =? length p2)%nat))) = Ok whole) as ->.
  { unfold whole. rewrite E1, E2. cbn [mbind outcome_bind]. rewrite B1, B2.
    destruct (i =? length p1)%nat, (i =? length p2)%nat; cbn;
      by destruct (bool_decide (p2 !! i = Some sep)), (bool_decide (p1 !! i = Some sep)). }
  cbn [mbind outcome_bind]. set (k := if whole then i else ld).
  assert (k <= i)%nat as Hki by (subst k; destruct whole; lia).
  assert (k = 0%nat \/ (k = length p1 \/ p1 !! k = Some sep) /\ (k = length p2 \/ p2 !! k = Some sep))
    as Hk.
  { subst k. destruct whole eqn:Ew.
    - right. unfold whole in Ew. rewrite !orb_true_iff, !andb_true_iff, !bool_decide_eq_true,
        !Nat.eqb_eq in Ew. destruct Ew as [[? ?]|[[? ?]|[? ?]]]; auto.
    - destruct Hdir as [->|[Hd ?]]; [by left|right]. rewrite <- Heq by done. auto. }
  destruct (canonicalize_spec (take k p1)) as (n1 & -> & Hn1 & He & Hs).
  rewrite length_take, Nat.min_l in Hn1, Hs by lia.
  rewrite take_take, Nat.min_l in * by lia.
  eexists. split; [done|]. split; [done|].
  assert (forall j, (j <= k)%nat -> take j p1 = take j p2) as Htk.
  { intros j Hj. apply list_eq_same_length with j; rewrite ?length_take; [lia|lia|].
    intros m x y Hm Hx Hy. rewrite lookup_take_lt in Hx, Hy by done.
    rewrite Heq in Hx by lia. congruence. }
  split.
  - destruct (decide (n1 = 0%nat)) as [->|]; [by left|right].
    assert (forall p, (k <= length p)%nat -> take n1 p1 = take n1 p -> (k = length p \/ p !! k = Some sep) ->
      (forall j, (j < k)%nat -> p1 !! j = p !! j) -> path_prefix (take n1 p1) p) as Hpre.
    { intros p Hkp Et Hor Hj. apply path_prefix_iff. rewrite length_take, Nat.min_l by lia.
      split; [done|]. destruct (decide (n1 = k)) as [->|]; [tauto|right].
      rewrite <- Hj by lia. specialize (Hs n1 ltac:(lia)). by rewrite lookup_take_lt in Hs by lia. }
    destruct Hk as [?|[Hk1 Hk2]]; [lia|]. split; apply Hpre; try done; try lia.
    + apply Htk. lia.
    + intros j Hj. apply Heq. lia.
  - intros q Hq Hqe Hq1 Hq2. apply path_prefix_iff in Hq1 as [T1 S1], Hq2 as [T2 S2].
    set (l := length q) in *.
    assert (0 < l)%nat by (subst l; destruct q; [done|simpl; lia]).
    assert (l <= length p1)%nat as Hl1
      by (apply (f_equal length) in T1; rewrite length_take in T1; lia).
    assert (l <= length p2)%nat as Hl2
      by (apply (f_equal length) in T2; rewrite length_take in T2; lia).
    assert (forall j, (j < l)%nat -> p1 !! j = p2 !! j) as Hjq.
    { intros j Hj. rewrite <- (lookup_take_lt p1 l), <- (lookup_take_lt p2 l) by done. congruence. }
    assert (l <= i)%nat as Hli.
    { destruct (decide (l <= i)%nat); [done|exfalso].
      destruct Hend as [->|[->|Hne]]; [lia|lia|]. apply Hne, Hjq. lia. }
    assert (l <= k)%nat as Hlk.
    { subst k. destruct whole eqn:Ew; [done|]. destruct (decide (l = i)) as [El|].
      - exfalso. rewrite El in *. unfold whole in Ew.
        rewrite !orb_false_iff, !andb_false_iff, !Nat.eqb_neq, !bool_decide_eq_false in Ew.
        destruct S1 as [S1|S1], S2 as [S2|S2]; try tauto.
        destruct Hend as [?|[?|Hne]]; [tauto|tauto|]. apply Hne. congruence.
      - destruct S1 as [S1|S1]; [lia|]. apply Hlast; [lia|done]. }
    assert (l <= n1)%nat as Hln.
    { destruct (decide (l <= n1)%nat); [done|exfalso].
      specialize (Hs (l - 1)%nat ltac:(lia)). rewrite lookup_take_lt in Hs by lia.
      assert (q !! (l - 1)%nat = Some sep) as Hqs.
      { rewrite <- T1, lookup_take_lt by lia. done. }
      unfold ends_with in Hqe. rewrite last_lookup in Hqe.
      replace (Nat.pred (length q)) with (l - 1)%nat in Hqe by (subst l; lia).
      rewrite Hqs, bool_decide_true in Hqe; done. }
    apply path_prefix_iff. fold l. rewrite take_take, Nat.min_l, length_take, Nat.min_l by lia.
    split; [done|]. destruct (decide (l = n1)) as [|]; [by left|right].
    rewrite lookup_take_lt by lia. destruct S1 as [S1|S1]; [lia|done].
Qed.

(** ** Joining many components *)

(** A component without its trailing slash. *)
Definition norm (s : bytes) : bytes := take (component_len s) s.

(** The specification: joining one component after the other. *)
Definition join_spec (base : bytes) (args : list bytes) : bytes :=
  foldl svn_path_join (norm base) (norm <$> args).

(** The root, or a string that does not end with a slash. *)
Definition tidy (s : bytes) : Prop := s <> [] /\ (s = [sep] \/ ends_with s sep = false).

Lemma component_len_le s : (component_len s <= length s)%nat.
Proof. unfold component_len. destruct (_ && _); lia. Qed.

Lemma norm_length s : length (norm s) = component_len s.
Proof. unfold norm. rewrite length_take. pose proof (component_len_le s). lia. Qed.

Lemma norm_nonempty s : s <> [] -> (component_len s <> 0)%nat.
Proof.
  intros Hs. unfold component_len. destruct s; [done|]. cbn [length].
  destruct (Nat.ltb_spec 1 (S (length s))); cbn [andb]; [destruct (ends_with _ _); lia|lia].
Qed.

Lemma norm_head s : head (norm s) = head s.
Proof.
  unfold norm. destruct s as [|c s]; [done|].
  pose proof (norm_nonempty (c :: s) ltac:(done)). by destruct (component_len (c :: s)).
Qed.

Lemma svn_path_join_tidy a c :
  tidy a -> tidy c ->
  tidy (svn_path_join a c) /\
  svn_path_join a c =
    if bool_decide (head c = Some sep) then c
    else if bool_decide (a = [sep]) then a ++ c else a ++ sep :: c.
Proof.
  intros [Ha Ha'] [Hc Hc']. unfold svn_path_join.
  destruct (Nat.eqb_spec (length a) 0); [by destruct a|]. cbn [orb].
  destruct (bool_decide_reflect (head c = Some sep)) as [|Hh]; [done|].
  destruct (Nat.eqb_spec (length c) 0); [by destruct c|].
  assert (c <> [sep]) as Hcs by (by intros ->).
  assert (ends_with c sep = false) as Hce by tauto.
  assert (forall l, ends_with (l ++ c) sep = false) as He.
  { intros l. unfold ends_with in *. rewrite last_app. destruct (list.last c) eqn:E; [done|].
    by apply last_None in E. }
  destruct (bool_decide_reflect (a = [sep])) as [->|Hna].
  - cbn. split; [|done]. split; [done|]. right. apply (He [sep]).
  - assert (ends_with a sep = false) as -> by tauto. rewrite firstn_all. split; [|done].
    split; [by destruct a|]. right. change (sep :: c) with ([sep] ++ c). rewrite app_assoc. apply He.
Qed.

Lemma foldl_join_tidy a cs :
  tidy a -> Forall tidy cs -> tidy (foldl svn_path_join a cs) /\
  (Forall (λ c, head c <> Some sep) cs -> (length a <= length (foldl svn_path_join a cs))%nat).
Proof.
  intros Ha Hcs. revert a Ha. induction Hcs as [|c cs Hc Hcs IH]; intros a Ha; [by split|]. simpl.
  destruct (svn_path_join_tidy a c Ha Hc) as [Ht E]. destruct (IH _ Ht) as [Ht' Hl].
  split; [done|]. intros [Hh Hr]%Forall_cons_iff. specialize (Hl Hr). rewrite E in Hl |- *.
  rewrite bool_decide_false in * by done.
  destruct (bool_decide (a = [sep])); rewrite length_app in Hl; lia.
Qed.

(** After the first loop has seen [pre]: [piece] is the last absolute component,
    or the base. *)
Record measured (base : bytes) (pre : list bytes) (st : join_state) (piece : bytes) : Prop := {
  ms_nargs : nargs st = length pre;
  ms_saved : length (saved_lengths st) = MAX_SAVED_LENGTHS /\
    saved_lengths st !! 0%nat = Some (component_len base) /\
    forall j c, pre !! j = Some c -> saved_lengths st !! (S j) = Some (component_len c);
  ms_arg : (base_arg st <= length pre)%nat;
  ms_piece : if (base_arg st =? 0)%nat then piece = norm base
    else exists c, pre !! (base_arg st - 1)%nat = Some c /\ piece = norm c;
  ms_root : base_is_root st = bool_decide (piece = [sep]);
  ms_rel : Forall (λ c, head c <> Some sep) (norm <$> drop (base_arg st) pre);
  ms_total : total_len st = length (foldl svn_path_join piece (norm <$> drop (base_arg st) pre));
}.

(** The value joined so far. *)
Definition joined (pre : list bytes) (st : join_state) (piece : bytes) : bytes :=
  foldl svn_path_join piece (norm <$> drop (base_arg st) pre).

Lemma joined_root pre st piece base :
  measured base pre st piece -> tidy piece -> Forall (λ c, tidy (norm c)) pre ->
  joined pre st piece = [sep] <-> base_is_root st = true /\ base_arg st = length pre.
Proof.
  intros Hm Ht Hp. unfold joined. rewrite (ms_root _ _ _ _ Hm), bool_decide_eq_true.
  pose proof (ms_arg _ _ _ _ Hm). pose proof (ms_rel _ _ _ _ Hm) as Hrel.
  assert (Forall tidy (norm <$> drop (base_arg st) pre)) as Hd.
  { apply Forall_fmap. apply Forall_drop. done. }
  destruct (drop (base_arg st) pre) as [|c l] eqn:E.
  - apply (f_equal length) in E. rewrite length_drop in E. simpl in *. split; [split; [done|lia]|tauto].
  - apply (f_equal length) in E. rewrite length_drop in E. simpl in E.
    split; [|intros [_ ?]; lia]. intros Hj. exfalso.
    rewrite fmap_cons in *. simpl in Hj. apply Forall_cons_iff in Hd as [Hc Hd], Hrel as [Hh Hrel].
    destruct (svn_path_join_tidy piece (norm c) Ht Hc) as [Ht' Ej].
    pose proof (proj2 (foldl_join_tidy _ _ Ht' Hd) Hrel) as Hlen. rewrite Hj, Ej in Hlen.
    rewrite bool_decide_false in Hlen by done.
    assert (0 < length piece)%nat by (destruct Ht as [Ht _]; destruct piece; [done|simpl; lia]).
    assert (0 < length (norm c))%nat by (destruct Hc as [Hc _]; destruct (norm c); [done|simpl; lia]).
    destruct (bool_decide (piece = [sep])); rewrite length_app in Hlen; simpl in Hlen; lia.
Qed.

Lemma join_measure_ok base pre st piece c :
  measured base pre st piece -> tidy piece -> Forall (λ c, tidy (norm c)) pre ->
  c <> [] -> tidy (norm c) -> (S (length pre) < MAX_SAVED_LENGTHS)%nat ->
  exists st' piece', join_measure st c = Ok st' /\ measured base (pre ++ [c]) st' piece' /\
    tidy piece' /\
    joined (pre ++ [c]) st' piece' = svn_path_join (joined pre st piece) (norm c).
Proof.
  intros Hm Ht Hp Hc Htc Hn. pose proof (joined_root _ _ _ _ Hm Ht Hp) as Hroot.
  pose proof Hm as [Hnargs (Hsl & Hs0 & Hs) Harg Hpiece Hr Hrel Htot].
  assert (tidy (joined pre st piece)) as Htj.
  { apply foldl_join_tidy; [done|]. apply Forall_fmap, Forall_drop. done. }
  destruct (svn_path_join_tidy _ _ Htj Htc) as [_ Ej]. rewrite Ej.
  unfold join_measure. rewrite Hnargs.
  rewrite (proj2 (Nat.ltb_lt (length pre) MAX_SAVED_LENGTHS)) by lia.
  rewrite (proj2 (Nat.ltb_lt (S (length pre)) MAX_SAVED_LENGTHS)) by lia.
  cbn [mbind outcome_bind].
  rewrite (proj2 (Nat.eqb_neq (component_len c) 0)) by (by apply norm_nonempty).
  rewrite norm_head. set (saved := <[S (length pre) := component_len c]> (saved_lengths st)).
  assert (length saved = MAX_SAVED_LENGTHS /\ saved !! 0%nat = Some (component_len base) /\
    forall j d, (pre ++ [c]) !! j = Some d -> saved !! (S j) = Some (component_len d)) as Hsaved.
  { subst saved. rewrite length_insert. split_and!; [done|by rewrite list_lookup_insert_ne by lia|].
    intros j d Hj. apply lookup_app_Some in Hj as [Hj|[Hge Hj]].
    - apply lookup_lt_Some in Hj as Hlt. rewrite list_lookup_insert_ne by lia. by apply Hs.
    - apply list_lookup_singleton_Some in Hj as [Hj <-].
      replace j with (length pre) by lia. apply list_lookup_insert_eq. lia. }
  destruct (bool_decide_reflect (head c = Some sep)) as [Habs|Habs].
  - eexists _, (norm c). split; [done|]. rewrite <- Nat.add_1_r.
    assert (drop (length pre + 1) (pre ++ [c]) = []) as Hd.
    { apply drop_ge. rewrite length_app. simpl. lia. }
    split; [|split; [done|unfold joined; cbn [base_arg]; by rewrite Hd]].
    constructor; cbn [nargs saved_lengths base_arg base_is_root total_len]; rewrite ?Hd.
    + rewrite length_app. simpl. lia.
    + done.
    + rewrite length_app. simpl. lia.
    + rewrite (proj2 (Nat.eqb_neq _ _)) by lia. exists c. rewrite Nat.add_sub.
      by rewrite list_lookup_middle.
    + rewrite <- norm_length. rewrite <- norm_head in Habs. clear - Habs.
      destruct (norm c) as [|x [|y l]]; [done| |by rewrite bool_decide_false].
      injection Habs as ->. by rewrite bool_decide_true.
    + constructor.
    + simpl. by rewrite norm_length.
  - assert (drop (base_arg st) (pre ++ [c]) = drop (base_arg st) pre ++ [c]) as Hd
      by (by apply drop_app_le).
    assert (forall b st', base_arg st' = base_arg st ->
      joined (pre ++ [c]) st' b = svn_path_join (joined pre st b) (norm c)) as Hjoin.
    { intros b st' Hb. unfold joined. by rewrite Hb, Hd, fmap_app, foldl_app. }
    rewrite (proj2 (Nat.eqb_neq (S (length pre)) (base_arg st))) by lia. cbn [orb].
    set (total := (if (S (length pre) =? base_arg st + 1)%nat && base_is_root st
      then (total_len st + component_len c)%nat else (total_len st + (1 + component_len c))%nat)).
    exists (mk_join total (base_arg st) (S (length pre)) (base_is_root st) saved), piece.
    split; [unfold total; by destruct (_ && _)|].
    assert (total = length (svn_path_join (joined pre st piece) (norm c))) as Htotal.
    { rewrite Ej, norm_head, (bool_decide_false (head c = Some sep)) by done.
      unfold total. rewrite Htot. fold (joined pre st piece).
      destruct (bool_decide_reflect (joined pre st piece = [sep])) as [E|E].
      - apply Hroot in E as [-> ->]. rewrite Nat.add_1_r, Nat.eqb_refl. cbn [andb].
        by rewrite length_app, norm_length.
      - rewrite length_app. cbn [length]. rewrite norm_length.
        destruct (Nat.eqb_spec (S (length pre)) (base_arg st + 1)); cbn [andb]; [|lia].
        destruct (base_is_root st); [|lia]. exfalso. apply E, Hroot. split; [done|lia]. }
    split; [|split; [done|]].
    + constructor; cbn [nargs saved_lengths base_arg base_is_root total_len].
      * rewrite length_app. simpl. lia.
      * done.
      * rewrite length_app. lia.
      * destruct (base_arg st =? 0)%nat; [done|]. destruct Hpiece as (d & Hd' & ->).
        exists d. split; [|done]. by apply lookup_app_l_Some.
      * done.
      * rewrite Hd, fmap_app. apply Forall_app. split; [done|]. apply Forall_singleton.
        by rewrite norm_head.
      * rewrite Htotal. f_equal. rewrite Hd, fmap_app, foldl_app. done.
    + rewrite Hjoin by done. by rewrite Ej, norm_head, (bool_decide_false (head c = Some sep)).
Qed.

Lemma join_measure_all_ok base args : forall pre st piece,
  measured base pre st piece -> tidy piece -> Forall (λ c, tidy (norm c)) pre ->
  Forall (λ c, c <> [] /\ tidy (norm c)) args -> (length pre + length args < MAX_SAVED_LENGTHS)%nat ->
  exists st' piece', join_measure_all st args = Ok st' /\ measured base (pre ++ args) st' piece' /\
    tidy piece' /\
    joined (pre ++ args) st' piece' = foldl svn_path_join (joined pre st piece) (norm <$> args).
Proof.
  induction args as [|c args IH]; intros pre st piece Hm Ht Hp Ha Hn; cbn [join_measure_all].
  - exists st, piece. rewrite app_nil_r. done.
  - apply Forall_cons_iff in Ha as [[Hc Htc] Ha]. cbn [length] in Hn.
    destruct (join_measure_ok base pre st piece c Hm Ht Hp Hc Htc) as (st1 & piece1 & -> & Hm1 & Ht1 & Ej);
      [lia|]. cbn [mbind outcome_bind].
    destruct (IH (pre ++ [c]) st1 piece1 Hm1 Ht1) as (st' & piece' & -> & Hm' & Ht' & Ej').
    + apply Forall_app. split; [done|]. by apply Forall_singleton.
    + done.
    + rewrite length_app. simpl. lia.
    + rewrite <- app_assoc in Hm', Ej'. cbn [app] in Hm', Ej'. exists st', piece'. split; [done|split; [done|split; [done|]]].
      by rewrite Ej', Ej.
Qed.

Lemma out_cpy_ok size out d :
  (length out + length d <= size)%nat -> out_cpy size out d = Ok (out ++ d).
Proof. intros. unfold out_cpy. by rewrite (proj2 (Nat.leb_le _ _)). Qed.

(** One component copied to the output. *)
Definition copy_step (out c : bytes) : bytes :=
  if negb (length out =? 0)%nat && negb (ends_with out sep) then out ++ sep :: norm c
  else out ++ norm c.

Lemma join_copy_cons st size c args n out :
  (base_arg st <= S n)%nat -> c <> [] -> (S n < MAX_SAVED_LENGTHS)%nat ->
  saved_lengths st !! (S n) = Some (component_len c) ->
  (length (copy_step out c) <= size)%nat ->
  join_copy st size (c :: args) n out = join_copy st size args (S n) (copy_step out c).
Proof.
  intros Hb Hc Hn Hs Hsize. cbn [join_copy]. rewrite (proj2 (Nat.ltb_ge _ _)) by done.
  rewrite (proj2 (Nat.ltb_lt _ _)) by done. unfold rd. rewrite Hs. cbn [mbind outcome_bind].
  rewrite (proj2 (Nat.eqb_neq _ _)) by (by apply norm_nonempty). unfold copy_step in *.
  pose proof (component_len_le c) as Hl.
  assert (take (component_len c) (c ++ [NUL]) = norm c) as Ht by (by apply take_app_le).
  destruct (_ && _); rewrite length_app in Hsize; cbn [length] in Hsize.
  - rewrite out_cpy_ok by (cbn [length]; lia). cbn [mbind outcome_bind].
    rewrite (proj2 (Nat.leb_le _ _)) by lia. rewrite Ht, out_cpy_ok by (rewrite length_app; cbn [length]; lia).
    cbn [mbind outcome_bind]. by rewrite <- app_assoc.
  - cbn [mbind outcome_bind]. rewrite (proj2 (Nat.leb_le _ _)) by lia.
    rewrite Ht, out_cpy_ok by lia. done.
Qed.

Lemma copy_step_join out c :
  tidy out -> tidy (norm c) -> head c <> Some sep -> copy_step out c = svn_path_join out (norm c).
Proof.
  intros Ho Hc Hh. destruct (svn_path_join_tidy out (norm c) Ho Hc) as [_ ->].
  rewrite norm_head, bool_decide_false by done. unfold copy_step.
  destruct Ho as [Hn Ho]. destruct (Nat.eqb_spec (length out) 0); [by destruct out|].
  destruct (bool_decide_reflect (out = [sep])) as [->|Hns]; [done|].
  destruct Ho as [?| ->]; done.
Qed.

Lemma join_copy_rel st size args n out :
  tidy out -> Forall (λ c, c <> [] /\ tidy (norm c)) args ->
  Forall (λ c, head c <> Some sep) args ->
  (base_arg st <= S n)%nat -> (n + length args < MAX_SAVED_LENGTHS)%nat ->
  (forall j c, args !! j = Some c -> saved_lengths st !! (S (n + j)) = Some (component_len c)) ->
  (length (foldl svn_path_join out (norm <$> args)) <= size)%nat ->
  join_copy st size args n out = Ok (foldl svn_path_join out (norm <$> args)).
Proof.
  intros Ho Ha Hr. revert n out Ho. induction args as [|c args IH]; intros n out Ho Hb Hn Hs Hsize; [done|].
  apply Forall_cons_iff in Ha as [[Hc Htc] Ha], Hr as [Hh Hr]. cbn [length] in Hn.
  rewrite fmap_cons in *. cbn [foldl] in *.
  pose proof (copy_step_join out c Ho Htc Hh) as Ec.
  destruct (svn_path_join_tidy out (norm c) Ho Htc) as [Ht _].
  rewrite join_copy_cons; [|done|done|lia| |].
  - rewrite Ec. apply IH; try done; try lia. intros j d Hj.
    replace (S n + j)%nat with (n + S j)%nat by lia. by apply Hs.
  - rewrite <- (Nat.add_0_r n) at 1. by apply Hs.
  - rewrite Ec. eapply Nat.le_trans; [|exact Hsize]. apply foldl_join_tidy; [done| |].
    + apply Forall_fmap. eapply Forall_impl; [|exact Ha]. by intros ? [_ ?].
    + apply Forall_fmap. eapply Forall_impl; [|exact Hr]. intros ? ?. cbn. by rewrite norm_head.
Qed.

Lemma join_copy_skip st size pre args n out :
  (n + length pre < base_arg st)%nat ->
  join_copy st size (pre ++ args) n out = join_copy st size args (n + length pre) out.
Proof.
  revert n. induction pre as [|c pre IH]; intros n Hn; [by rewrite Nat.add_0_r|].
  cbn [app join_copy length] in *. rewrite (proj2 (Nat.ltb_lt _ _)) by lia.
  rewrite IH by lia. f_equal. lia.
Qed.

Lemma foldl_join_prefix a cs :
  tidy a -> Forall tidy cs -> Forall (λ c, head c <> Some sep) cs ->
  exists l, foldl svn_path_join a cs = a ++ l.
Proof.
  intros Ha Hcs. revert a Ha. induction Hcs as [|c cs Hc Hcs IH]; intros a Ha Hr.
  { exists []. by rewrite app_nil_r. }
  apply Forall_cons_iff in Hr as [Hh Hr]. cbn [foldl].
  destruct (svn_path_join_tidy a c Ha Hc) as [Ht E]. destruct (IH _ Ht Hr) as [l ->].
  rewrite E, bool_decide_false by done.
  destruct (bool_decide (a = [sep])); rewrite <- app_assoc; by eexists.
Qed.

Lemma join_many_ok base args :
  base <> [] -> (base = [sep] \/ ends_with (norm base) sep = false) ->
  Forall (λ c, c <> [] /\ tidy (norm c)) args -> (length args < MAX_SAVED_LENGTHS)%nat ->
  svn_path_join_many base args = Ok (join_spec base args).
Proof.
  intros Hb Htb Ha Hn. unfold svn_path_join_many.
  destruct (Nat.eqb_spec (length base) 0) as [|Hlb]; [by destruct base|].
  assert (tidy (norm base)) as Ht0.
  { split; [|destruct Htb as [->|]; [left|right]; done].
    intros E. apply (f_equal length) in E. rewrite norm_length in E. by apply (norm_nonempty base). }
  assert ((if ends_with base sep then
        if (length base =? 1)%nat then (1%nat, true) else ((length base - 1)%nat, false)
      else (length base, false)) = (component_len base, bool_decide (norm base = [sep]))) as ->.
  { destruct Htb as [->|Htb]; [done|].
    rewrite bool_decide_false by (intros E; by rewrite E in Htb).
    unfold component_len. destruct (ends_with base sep) eqn:E; [|by rewrite andb_false_r].
    destruct base as [|x [|y l]]; [done| |done].
    change (ends_with (norm [x]) sep) with (ends_with [x] sep) in Htb. congruence. }
  set (st0 := mk_join _ _ _ _ _).
  destruct (join_measure_all_ok base args [] st0 (norm base)) as (st & piece & -> & Hm & Htp & Ej);
    [|done|constructor|done|cbn [length]; lia|].
  { constructor; cbn [st0 nargs saved_lengths base_arg base_is_root total_len drop]; try done.
    - cbn [foldl fmap list_fmap]. by rewrite norm_length. }
  cbn [app] in Hm, Ej. cbn [mbind outcome_bind].
  change (joined [] st0 (norm base)) with (norm base) in Ej. fold (join_spec base args) in Ej.
  assert (Forall (λ c, tidy (norm c)) args) as Hta
    by (eapply Forall_impl; [|exact Ha]; by intros ? [_ ?]).
  assert (tidy (join_spec base args)) as Htj
    by (apply foldl_join_tidy; [done|by apply Forall_fmap]).
  pose proof (joined_root _ _ _ _ Hm Htp Hta) as Hroot. rewrite Ej in Hroot.
  pose proof Hm as [Hnargs (Hsl & Hs0 & Hs) Harg Hpiece Hr Hrel Htot].
  fold (joined args st piece) in Htot. rewrite Ej in Htot.
  destruct (base_is_root st && (total_len st =? 1)%nat) eqn:Eroot.
  { apply andb_true_iff in Eroot as [Er El%Nat.eqb_eq]. f_equal. symmetry.
    rewrite Er in Hr. symmetry in Hr. apply bool_decide_eq_true in Hr as ->.
    unfold joined in Ej. destruct (foldl_join_prefix [sep] (norm <$> drop (base_arg st) args)) as [l E].
    - done.
    - by apply Forall_fmap, Forall_drop.
    - done.
    - rewrite E in Ej. rewrite <- Ej in Htot. rewrite length_app in Htot. cbn [length] in Htot.
      destruct l; [done|cbn [length] in Htot; lia]. }
  rewrite <- Ej. rewrite <- Ej in Htot. clear Eroot Hroot.
  assert (forall out, out = joined args st piece ->
    (_ ← out_cpy (total_len st + 1) out [NUL]; _ ← c_assert (length out =? total_len st)%nat; Ok out)
    = Ok (joined args st piece)) as Hend.
  { intros out ->. rewrite Htot, out_cpy_ok by (cbn [length]; lia). cbn [mbind outcome_bind].
    by rewrite Nat.eqb_refl. }
  assert (forall c n, args !! n = Some c -> saved_lengths st !! (S n) = Some (component_len c)) as Hs'
    by (intros c n Hcn; by apply Hs).
  destruct (Nat.eqb_spec (base_arg st) 0) as [E0|E0].
  - unfold rd. rewrite Hs0. cbn [mbind outcome_bind]. fold (norm base).
    unfold joined in Htot, Hend |- *. rewrite E0, drop_0 in *. subst piece.
    destruct (foldl_join_tidy (norm base) (norm <$> args)) as [_ Hge]; [done|by apply Forall_fmap|].
    specialize (Hge Hrel). rewrite out_cpy_ok by (cbn [length]; lia).
    cbn [mbind outcome_bind app]. rewrite join_copy_rel; try done; try lia.
    + cbn [mbind outcome_bind]. by apply Hend.
    + clear - Hrel. rewrite Forall_fmap in Hrel. eapply Forall_impl; [|exact Hrel].
      intros c Hc. cbn in Hc. by rewrite norm_head in Hc.
  - destruct Hpiece as (c & Hc & ->). cbn [mbind outcome_bind].
    assert (args = take (base_arg st - 1) args ++ c :: drop (base_arg st) args) as Hsplit.
    { rewrite <- (take_drop (base_arg st - 1) args) at 1. f_equal.
      rewrite (drop_S _ _ _ Hc). do 2 f_equal. lia. }
    assert (length (take (base_arg st - 1) args) = base_arg st - 1)%nat as Hlt
      by (rewrite length_take; lia).
    assert (c <> [] /\ tidy (norm c)) as [Hcn Hct].
    { rewrite Forall_forall in Ha. apply Ha. apply list_elem_of_In, list_elem_of_lookup. eauto. }
    assert (Forall tidy (norm <$> drop (base_arg st) args)) as Hdt
      by (by apply Forall_fmap, Forall_drop).
    destruct (foldl_join_tidy (norm c) _ Hct Hdt) as [_ Hge]. specialize (Hge Hrel).
    unfold joined in *. rewrite Hsplit at 1. rewrite join_copy_skip by lia. rewrite Hlt, Nat.add_0_l.
    assert (copy_step [] c = norm c) as Hcs by done.
    rewrite join_copy_cons; [|lia|done|lia| |].
    + rewrite Hcs, join_copy_rel; try done; try lia.
      * cbn [mbind outcome_bind]. by apply Hend.
      * by apply Forall_drop.
      * clear - Hrel. rewrite Forall_fmap in Hrel. eapply Forall_impl; [|exact Hrel].
        intros d Hd. cbn in Hd. by rewrite norm_head in Hd.
      * rewrite length_drop. lia.
      * intros j d Hj. rewrite lookup_drop in Hj. replace (S (S (base_arg st - 1) + j))
          with (S (base_arg st + j)) by lia. by apply Hs.
    + replace (S (base_arg st - 1)) with (S (base_arg st - 1)) by done. by apply Hs.
    + rewrite Hcs. lia.
Qed.

(** ** The size of a block that grows by doubling *)

(** The smallest power of two that is not below [n]. *)
Definition pow2_above (n : nat) : Z := 2 ^ Z.log2_up (Z.of_nat n).

Lemma pow2_above_le n : Z.of_nat n <= pow2_above n.
Proof.
  unfold pow2_above. destruct (Z.le_gt_cases (Z.of_nat n) 1).
  - rewrite Z.log2_up_eqn0 by lia. simpl. lia.
  - pose proof (Z.log2_up_spec (Z.of_nat n)). lia.
Qed.

Lemma pow2_above_mono n m : (n <= m)%nat -> pow2_above n <= pow2_above m.
Proof. intros. apply Z.pow_le_mono_r; [lia|]. apply Z.log2_up_le_mono. lia. Qed.

Lemma pow2_above_absorb n m :
  (n <= m)%nat -> Z.of_nat m <= pow2_above n -> pow2_above n = pow2_above m.
Proof.
  intros H1 H2. apply Z.le_antisymm; [by apply pow2_above_mono|].
  apply Z.pow_le_mono_r; [lia|]. destruct (Nat.eq_dec m 0%nat) as [->|].
  { apply Z.log2_up_nonneg. }
  apply Z.log2_up_le_pow2; [lia|done].
Qed.

Lemma grow_pow2 fuel k m :
  0 <= k -> 0 < m <= size_limit -> Z.log2_up m - k <= Z.of_nat fuel ->
  2 ^ k < m -> grow (S fuel) (2 ^ k) m = Ok (2 ^ Z.log2_up m).
Proof.
  revert k. induction fuel as [|fuel IH]; intros k Hk Hm Hf Hlt.
  - exfalso. apply Z.log2_up_lt_pow2 in Hlt; lia.
  - change (grow (S (S fuel)) (2 ^ k) m) with
      (if 2 ^ k <? m then grow (S fuel) (size_t (2 ^ k * 2)) m else Ok (2 ^ k)).
    rewrite (proj2 (Z.ltb_lt _ _)) by done.
    assert (0 < 2 ^ k) by (apply Z.pow_pos_nonneg; lia).
    rewrite size_t_small by (unfold size_limit, two64 in *; lia).
    replace (2 ^ k * 2) with (2 ^ (k + 1)) by (rewrite Z.pow_add_r by lia; lia).
    apply Z.log2_up_lt_pow2 in Hlt; [|lia].
    destruct (Z.lt_ge_cases (2 ^ (k + 1)) m) as [Hlt'|Hge].
    + apply IH; [lia|lia|lia|done].
    + assert (Z.log2_up m = k + 1) as ->.
      { apply Z.log2_up_le_pow2 in Hge; lia. }
      destruct fuel; simpl grow; by rewrite (proj2 (Z.ltb_ge _ _)) by done.
Qed.

(** A buffer with contents [s] whose block has the size [pow2_above r]. *)
Definition sb_block (sb : svn_stringbuf_t) (s : bytes) (r : nat) : Prop :=
  sb_pre sb s /\ Z.of_nat (length (sb_data sb)) = pow2_above r.

Lemma ensure_block sb s r m :
  sb_block sb s r -> (r <= m)%nat -> Z.of_nat m <= size_limit ->
  exists sb', svn_stringbuf_ensure sb m = Ok sb' /\ sb_block sb' s m.
Proof.
  intros [Hp Hr] Hrm Hm. destruct (ensure_ok sb s m Hp Hm) as (sb' & E & Hp' & _ & _).
  exists sb'. split; [done|]. split; [done|]. unfold svn_stringbuf_ensure in E. rewrite Hr in E.
  destruct (Z.ltb_spec (pow2_above r) (Z.of_nat m)) as [Hlt|Hge].
  - assert (0 < pow2_above r) by (apply Z.pow_pos_nonneg; [lia|apply Z.log2_up_nonneg]).
    rewrite (proj2 (Z.eqb_neq _ _)) in E by lia. unfold pow2_above at 1 in E.
    rewrite (grow_pow2 65) in E; [|apply Z.log2_up_nonneg|lia| |done].
    + cbn [mbind outcome_bind] in E. injection E as <-. cbn [sb_data].
      rewrite length_app, length_take, length_replicate.
      destruct Hp as [Hl [junk Hd]].
      assert (sb_len sb <= length (sb_data sb))%nat by (rewrite Hd, length_app, length_fmap; lia).
      pose proof (pow2_above_le m). fold (pow2_above m). lia.
    + pose proof (Z.log2_up_nonneg (Z.of_nat r)).
      assert (Z.log2_up (Z.of_nat m) <= 62); [|lia].
      apply Z.log2_up_le_pow2; [lia|]. unfold size_limit in Hm. lia.
  - injection E as <-. rewrite Hr. by apply pow2_above_absorb.
Qed.

Lemma create_block sb : svn_stringbuf_create [] = Ok sb -> sb_block sb [] 1.
Proof. intros [= <-]. split; [|done]. split; [done|]. by eexists. Qed.

Lemma blk_cpy_length b i d b' : blk_cpy b i d = Ok b' -> length b' = length b.
Proof.
  unfold blk_cpy. destruct (Nat.leb_spec (i + length d) (length b)); [|done]. intros [= <-].
  rewrite !length_app, length_fmap, length_take, length_drop. lia.
Qed.

Lemma blk_wr_length b i c b' : blk_wr b i c = Ok b' -> length b' = length b.
Proof.
  unfold blk_wr. destruct (i <? length b)%nat; [|done]. intros [= <-]. apply length_insert.
Qed.

Lemma append_block sb s r b count :
  sb_block sb s r -> (r <= length s + count + 1)%nat -> (count <= length b)%nat ->
  Z.of_nat (length s + count + 1) <= size_limit ->
  exists sb', svn_stringbuf_appendbytes sb b count = Ok sb' /\
    sb_block sb' (s ++ take count b) (length s + count + 1).
Proof.
  intros Hb Hr Hc Hm. pose proof Hb as [Hp _].
  destruct (appendbytes_ok sb s b count Hp Hc Hm) as (sb' & E & Hrep).
  exists sb'. split; [done|]. split; [by apply sb_rep_pre|].
  unfold svn_stringbuf_appendbytes in E. destruct Hp as [Hl _].
  destruct (ensure_block sb s r (sb_len sb + count + 1) Hb) as (sb1 & E1 & Hp1 & H1); [lia|lia|].
  rewrite E1 in E. cbn [mbind outcome_bind] in E. rewrite (proj2 (Nat.leb_le _ _)) in E by done.
  apply bind_Ok in E as (d1 & Ed1 & E). apply bind_Ok in E as (d2 & Ed2 & [= <-]). cbn [sb_data].
  apply blk_cpy_length in Ed1. apply blk_wr_length in Ed2. by rewrite Ed2, Ed1, <- Hl.
Qed.

(** ** URI encoding *)

(** What the encoder leaves of a character: the character, or the first three
    characters of the escape (for a plain [char] below 0, [%FF]). *)
Definition uri_escape_char (c : byte) : bytes :=
  if char_is_uri_safe c then [c] else take 3 (sprintf_escape c).

Definition uri_escape (p : bytes) : bytes := p ≫= uri_escape_char.

(** Does every [sprintf], with its terminator, stay within the block that
    [svn_stringbuf_ensure] provides for three characters; [m] characters are
    there before. *)
Fixpoint encode_fits (m : nat) (p : bytes) : bool :=
  match p with
  | [] => true
  | c :: p =>
      (char_is_uri_safe c ||
       (Z.of_nat (m + length (sprintf_escape c) + 1) <=? pow2_above (m + 3))) &&
      encode_fits (m + length (uri_escape_char c)) p
  end.

Lemma hex_digits_length n v : length (hex_digits n v) = n.
Proof.
  revert v. induction n as [|n IH]; intros v; [done|]. simpl. rewrite length_app, IH. simpl. lia.
Qed.

Lemma sprintf_escape_length c : (3 <= length (sprintf_escape c))%nat.
Proof. unfold sprintf_escape. simpl. rewrite hex_digits_length. case_match; lia. Qed.

Lemma uri_escape_char_length c : (1 <= length (uri_escape_char c) <= 3)%nat.
Proof.
  unfold uri_escape_char. pose proof (sprintf_escape_length c).
  destruct (char_is_uri_safe c); [simpl; lia|]. rewrite length_take. lia.
Qed.

(** The contents, in a block that was last made large enough for them and at
    most one byte more. *)
Definition sb_tight (sb : svn_stringbuf_t) (s : bytes) : Prop :=
  exists r, sb_block sb s r /\ (r <= length s + 1)%nat.

Lemma append_tight sb s b count :
  sb_tight sb s -> (count <= length b)%nat -> Z.of_nat (length s + count + 1) <= size_limit ->
  exists sb', (if negb (count =? 0)%nat then svn_stringbuf_appendbytes sb b count else Ok sb) = Ok sb' /\
    sb_tight sb' (s ++ take count b).
Proof.
  intros (r & Hb & Hr) Hc Hm. destruct (Nat.eqb_spec count 0) as [->|]; simpl negb; cbn iota.
  - exists sb. split; [done|]. rewrite take_0, app_nil_r. by exists r.
  - destruct (append_block sb s r b count) as (sb' & E & Hb'); [done|lia|done|done|].
    exists sb'. split; [done|]. exists (length s + count + 1)%nat. split; [done|].
    rewrite length_app, length_take_le by done. lia.
Qed.

(** One escape. *)
Lemma escape_tight sb s c :
  sb_tight sb s -> char_is_uri_safe c = false -> Z.of_nat (length s + 3) <= size_limit ->
  exists sb1, svn_stringbuf_ensure sb (sb_len sb + 3) = Ok sb1 /\
    if Z.of_nat (length s + length (sprintf_escape c) + 1) <=? pow2_above (length s + 3)
    then exists data, blk_cpy (sb_data sb1) (sb_len sb1) (sprintf_escape c ++ [NUL]) = Ok data /\
      sb_tight (mk_sb data (sb_len sb1 + 3)) (s ++ uri_escape_char c)
    else blk_cpy (sb_data sb1) (sb_len sb1) (sprintf_escape c ++ [NUL]) = Undef.
Proof.
  intros (r & Hb & Hr) Hc Hm. pose proof Hb as [[Hl _] _]. rewrite Hl.
  destruct (ensure_block sb s r (length s + 3) Hb ltac:(lia) Hm) as (sb1 & -> & [Hl1 [junk Hd1]] & H1).
  exists sb1. split; [done|]. unfold blk_cpy. rewrite Hl1, length_app. change (length [NUL]) with 1%nat.
  rewrite <- H1. destruct (Z.leb_spec (Z.of_nat (length s + length (sprintf_escape c) + 1))
    (Z.of_nat (length (sb_data sb1)))) as [H|H];
    [rewrite (proj2 (Nat.leb_le _ _)) by lia|by rewrite (proj2 (Nat.leb_gt _ _)) by lia].
  eexists. split; [done|]. unfold uri_escape_char. rewrite Hc.
  pose proof (sprintf_escape_length c) as H3.
  exists (length s + 3)%nat. rewrite length_app, length_take_le by done. split; [|lia]. split.
  - split; cbn [sb_len sb_data]; [rewrite length_app, length_take_le by done; lia|].
    eexists. rewrite Hd1 at 1. rewrite take_app_length' by (by rewrite length_fmap).
    rewrite (fmap_app _ s), <- app_assoc. f_equal.
    rewrite <- (take_app_le _ [NUL] 3) by done.
    rewrite <- (take_drop 3 (sprintf_escape c ++ [NUL])) at 1. by rewrite fmap_app, <- app_assoc.
  - cbn [sb_data]. rewrite <- H1. f_equal.
    rewrite !length_app, length_fmap, length_take, length_drop, length_app.
    change (length [NUL]) with 1%nat. lia.
Qed.

Lemma uri_escape_cons c p : uri_escape (c :: p) = uri_escape_char c ++ uri_escape p.
Proof. done. Qed.

Lemma safe_escape p : Forall (λ c, char_is_uri_safe c = true) p -> uri_escape p = p.
Proof.
  induction 1 as [|c p Hc Hp IH]; [done|]. rewrite uri_escape_cons, IH. unfold uri_escape_char.
  by rewrite Hc.
Qed.

Lemma uri_escape_length p : (length p <= length (uri_escape p) <= 3 * length p)%nat.
Proof.
  induction p as [|c p IH]; [done|]. rewrite uri_escape_cons, length_app.
  pose proof (uri_escape_char_length c). cbn [length]. lia.
Qed.

Lemma uri_encode_loop_ok rest : forall pre pend sb out,
  sb_tight sb out -> Forall (λ c, char_is_uri_safe c = true) pend ->
  Z.of_nat (length out + length pend + 3 * length rest + 3) <= size_limit ->
  if encode_fits (length (out ++ pend)) rest then
    exists copied sb' out', uri_encode_loop (pre ++ pend ++ rest) rest (length (pre ++ pend)) (length pre) sb =
      Ok (copied, sb') /\ sb_tight sb' out' /\ (copied <= length (pre ++ pend ++ rest))%nat /\
      out' ++ drop copied (pre ++ pend ++ rest) = out ++ pend ++ uri_escape rest
  else uri_encode_loop (pre ++ pend ++ rest) rest (length (pre ++ pend)) (length pre) sb = Undef.
Proof.
  induction rest as [|c rest IH]; intros pre pend sb out Hsb Hp Hm; cbn [encode_fits uri_encode_loop].
  - exists (length pre), sb, out. split_and!; [done|done|rewrite length_app; lia|].
    rewrite drop_app_length. done.
  - cbn [length] in Hm. destruct (char_is_uri_safe c) eqn:Hc; cbn [orb andb].
    + specialize (IH pre (pend ++ [c]) sb out Hsb). rewrite <- app_assoc in IH. cbn [app] in IH.
      replace (length (pre ++ pend ++ [c])) with (S (length (pre ++ pend))) in IH
        by (rewrite !length_app; simpl; lia).
      replace (length (out ++ pend ++ [c])) with (length (out ++ pend) + length (uri_escape_char c))%nat in IH
        by (unfold uri_escape_char; rewrite Hc, !length_app; simpl; lia).
      assert (Forall (λ c, char_is_uri_safe c = true) (pend ++ [c])) as Hp'
        by (apply Forall_app; split; [done|by apply Forall_singleton]).
      specialize (IH Hp' ltac:(rewrite length_app; simpl; lia)).
      destruct (encode_fits _ rest); [|done].
      destruct IH as (copied & sb' & out' & E & Ht & Hcl & Ho). exists copied, sb', out'.
      split_and!; [done|done|done|]. rewrite Ho, uri_escape_cons, <- app_assoc.
      unfold uri_escape_char. by rewrite Hc.
    + rewrite drop_app_length.
      replace (length (pre ++ pend) - length pre)%nat with (length pend) by (rewrite length_app; lia).
      destruct (append_tight sb out (pend ++ c :: rest) (length pend) Hsb) as (sb1 & -> & H1);
        [rewrite length_app; lia|lia|]. rewrite take_app_length in H1. cbn [mbind outcome_bind].
      destruct (escape_tight sb1 (out ++ pend) c H1 Hc) as (sb2 & -> & H2);
        [rewrite length_app; lia|]. cbn [mbind outcome_bind].
      destruct (_ <=? _); cbn [andb]; [|by rewrite H2].
      destruct H2 as (data & -> & H2). cbn [mbind outcome_bind].
      specialize (IH (pre ++ pend ++ [c]) [] _ _ H2 (Forall_nil_2 _)).
      rewrite !app_nil_r, (length_app (out ++ pend)) in IH. rewrite <- !app_assoc in IH. cbn [app] in IH.
      replace (length (pre ++ pend ++ [c])) with (S (length (pre ++ pend))) in IH
        by (rewrite !length_app; simpl; lia).
      pose proof (uri_escape_char_length c).
      specialize (IH ltac:(rewrite !length_app; cbn [length]; lia)).
      destruct (encode_fits _ rest); [|done].
      destruct IH as (copied & sb' & out' & E & Ht & Hcl & Ho). exists copied, sb', out'.
      split_and!; [done|done|done|]. by rewrite Ho, uri_escape_cons.
Qed.

Lemma uri_encode_ok p :
  3 * Z.of_nat (length p) + 3 <= size_limit ->
  if encode_fits 0 p then exists sb, svn_path_uri_encode p = Ok sb /\ sb_rep sb (uri_escape p)
  else svn_path_uri_encode p = Undef.
Proof.
  intros Hm. unfold svn_path_uri_encode. destruct (svn_stringbuf_create []) as [sb| | |] eqn:E0; try done.
  cbn [mbind outcome_bind].
  assert (sb_tight sb []) as H0 by (exists 1%nat; split; [by apply create_block|done]).
  pose proof (uri_encode_loop_ok p [] [] sb [] H0 (Forall_nil_2 _) ltac:(cbn [length]; lia)) as H.
  cbn [app length] in H. destruct (encode_fits 0 p); [|by rewrite H].
  destruct H as (copied & sb' & out' & -> & Ht & Hc & Ho). cbn [mbind outcome_bind].
  assert (length out' + (length p - copied) = length (uri_escape p))%nat as Hl.
  { by rewrite <- Ho, length_app, length_drop. }
  pose proof (uri_escape_length p).
  destruct (append_tight sb' out' (drop copied p) (length p - copied) Ht) as (sb1 & -> & r & H1 & Hr);
    [rewrite length_drop; lia|lia|]. cbn [mbind outcome_bind].
  rewrite <- length_drop, firstn_all, Ho in H1, Hr.
  pose proof H1 as [[Hl1 _] _]. rewrite Hl1.
  destruct (ensure_block sb1 _ r (length (uri_escape p) + 1) H1) as (sb2 & -> & [Hl2 [junk Hd2]] & Hs2);
    [lia|lia|]. cbn [mbind outcome_bind]. rewrite Hl2.
  pose proof (pow2_above_le (length (uri_escape p) + 1)) as Hp2. rewrite <- Hs2, Hd2 in Hp2.
  rewrite Hd2. destruct junk as [|x junk];
    [rewrite length_app, length_fmap in Hp2; simpl in Hp2; lia|].
  rewrite blk_wr_app by done. cbn [mbind outcome_bind]. eexists. split; [done|].
  split; [done|]. by exists junk.
Qed.

(** ** URI decoding *)

Definition escaped_char (d : bytes) : byte := zb (strtol16 (take (strlen d) d)).

(** The decoded characters, [q] telling that a query has started; [None] when
    the last character is a [%]. *)
Fixpoint uri_unescape (q : bool) (p : bytes) : option bytes :=
  match p with
  | [] => Some []
  | c :: p =>
      if bool_decide (c = zb 63) then cons c <$> uri_unescape true p
      else if bool_decide (c = zb 43) && q then cons (zb 32) <$> uri_unescape q p
      else if bool_decide (c = zb 37) then
        match p with
        | d0 :: d1 :: p => cons (escaped_char [d0; d1]) <$> uri_unescape q p
        | [d0] => Some [escaped_char [d0; NUL]]
        | [] => None
        end
      else cons c <$> uri_unescape q p
  end.

Lemma char_at_app pre c rest k :
  k = length pre -> char_at (pre ++ c :: rest) k = Ok c.
Proof. intros ->. unfold char_at. by rewrite list_lookup_middle. Qed.

Lemma char_at_app1 pre c d rest : char_at (pre ++ c :: d :: rest) (length pre + 1) = Ok d.
Proof.
  change (c :: d :: rest) with ([c] ++ d :: rest). rewrite app_assoc.
  apply char_at_app. by rewrite length_app.
Qed.

Lemma char_at_app2 pre c d e rest : char_at (pre ++ c :: d :: e :: rest) (length pre + 2) = Ok e.
Proof.
  change (c :: d :: e :: rest) with ([c; d] ++ e :: rest). rewrite app_assoc.
  apply char_at_app. by rewrite length_app.
Qed.

Lemma char_at_end p : char_at p (length p) = Ok NUL.
Proof. unfold char_at. by rewrite lookup_ge_None_2, Nat.eqb_refl by lia. Qed.

Lemma char_at_beyond p k : (length p < k)%nat -> char_at p k = Undef.
Proof.
  intros H. unfold char_at. rewrite lookup_ge_None_2 by lia. by rewrite (proj2 (Nat.eqb_neq _ _)) by lia.
Qed.

Lemma blk_wr_pre sb s c :
  sb_pre sb s -> (length s < length (sb_data sb))%nat ->
  exists data, blk_wr (sb_data sb) (sb_len sb) c = Ok data /\
    sb_pre (mk_sb data (S (sb_len sb))) (s ++ [c]) /\ length data = length (sb_data sb) /\
    exists junk, data = (Some <$> s) ++ Some c :: junk.
Proof.
  intros [Hl [junk Hd]] H. rewrite Hl, Hd in *. rewrite length_app, length_fmap in H.
  destruct junk as [|x junk]; [simpl in H; lia|]. rewrite blk_wr_app by done.
  eexists. split; [done|]. split_and!; [| |by eexists].
  - split; [cbn [sb_len]; rewrite length_app; simpl; lia|]. cbn [sb_data]. exists junk.
    by rewrite fmap_app, <- app_assoc.
  - rewrite !length_app. done.
Qed.

Lemma uri_decode_loop_ok fuel : forall pre rest q sb out,
  (length rest <= fuel)%nat -> sb_pre sb out ->
  (length out + length rest <= length (sb_data sb))%nat ->
  match uri_unescape q rest with
  | Some d => exists sb', uri_decode_loop fuel (pre ++ rest) (length pre) q sb = Ok sb' /\
      sb_pre sb' (out ++ d) /\ length (sb_data sb') = length (sb_data sb)
  | None => uri_decode_loop fuel (pre ++ rest) (length pre) q sb = Undef
  end.
Proof.
  induction fuel as [|fuel IH]; intros pre rest q sb out Hf Hsb Hlen.
  { destruct rest; [|simpl in Hf; lia]. cbn [uri_unescape uri_decode_loop]. rewrite app_nil_r, Nat.ltb_irrefl.
    exists sb. by rewrite app_nil_r. }
  destruct rest as [|c rest].
  { cbn [uri_unescape uri_decode_loop]. rewrite app_nil_r, Nat.ltb_irrefl.
    exists sb. by rewrite app_nil_r. }
  cbn [length] in Hf, Hlen. cbn [uri_unescape uri_decode_loop].
  rewrite (proj2 (Nat.ltb_lt _ _)) by (rewrite length_app; simpl; lia).
  rewrite (char_at_app pre c rest _ eq_refl). cbn [mbind outcome_bind].
  (* one more character, [pre'] read *)
  assert (forall x pre' rest' q', pre ++ c :: rest = pre' ++ rest' -> (length rest' <= length rest)%nat ->
    match cons x <$> uri_unescape q' rest' with
    | Some d => exists sb',
        (data ← blk_wr (sb_data sb) (sb_len sb) x;
         uri_decode_loop fuel (pre ++ c :: rest) (length pre') q' (mk_sb data (S (sb_len sb)))) = Ok sb' /\
        sb_pre sb' (out ++ d) /\ length (sb_data sb') = length (sb_data sb)
    | None =>
        (data ← blk_wr (sb_data sb) (sb_len sb) x;
         uri_decode_loop fuel (pre ++ c :: rest) (length pre') q' (mk_sb data (S (sb_len sb)))) = Undef
    end) as Hone.
  { intros x pre' rest' q' E Hr. destruct (blk_wr_pre sb out x Hsb) as (data & -> & Hp & Hd & _); [lia|].
    cbn [mbind outcome_bind]. rewrite E.
    specialize (IH pre' rest' q' _ _ ltac:(lia) Hp).
    cbn [sb_data] in IH. rewrite length_app, Hd in IH. specialize (IH ltac:(simpl; lia)).
    destruct (uri_unescape q' rest') as [d|]; cbn [fmap option_fmap option_map]; [|done].
    destruct IH as (sb' & -> & H1 & H2). exists sb'. by rewrite <- app_assoc in H1. }
  assert (forall x q', match cons x <$> uri_unescape q' rest with
    | Some d => exists sb',
        (data ← blk_wr (sb_data sb) (sb_len sb) x;
         uri_decode_loop fuel (pre ++ c :: rest) (S (length pre)) q' (mk_sb data (S (sb_len sb)))) = Ok sb' /\
        sb_pre sb' (out ++ d) /\ length (sb_data sb') = length (sb_data sb)
    | None =>
        (data ← blk_wr (sb_data sb) (sb_len sb) x;
         uri_decode_loop fuel (pre ++ c :: rest) (S (length pre)) q' (mk_sb data (S (sb_len sb)))) = Undef
    end) as Hstep.
  { intros x q'. specialize (Hone x (pre ++ [c]) rest q'). rewrite length_app in Hone.
    cbn [length] in Hone. rewrite Nat.add_1_r in Hone. apply Hone; [by rewrite <- app_assoc|done]. }
  destruct (bool_decide (c = zb 63)); [apply Hstep|]. destruct (bool_decide (c = zb 43) && q); [apply Hstep|].
  destruct (bool_decide (c = zb 37)); [|apply Hstep]. clear Hstep.
  destruct rest as [|d0 [|d1 rest]].
  - replace (length pre + 1)%nat with (length (pre ++ [c])) by (rewrite length_app; done).
    rewrite char_at_end. cbn [mbind outcome_bind]. by rewrite char_at_beyond by (rewrite length_app; simpl; lia).
  - rewrite char_at_app1. cbn [mbind outcome_bind].
    replace (length pre + 2)%nat with (length (pre ++ [c; d0])) by (by rewrite length_app).
    rewrite char_at_end. cbn [mbind outcome_bind].
    destruct (blk_wr_pre sb out (escaped_char [d0; NUL]) Hsb) as (data & E & Hp & Hd & _); [lia|].
    unfold escaped_char in E. rewrite E. cbn [mbind outcome_bind].
    exists (mk_sb data (S (sb_len sb))). split; [|done].
    destruct fuel; cbn [uri_decode_loop]; by rewrite (proj2 (Nat.ltb_ge _ _)) by lia.
  - rewrite char_at_app1, char_at_app2. cbn [mbind outcome_bind].
    specialize (Hone (escaped_char [d0; d1]) (pre ++ [c; d0; d1]) rest q). rewrite length_app in Hone.
    cbn [length] in Hone. replace (length pre + 3)%nat with (S (length pre + 2)) in Hone by lia.
    apply Hone; [by rewrite <- app_assoc|lia].
Qed.

Lemma uri_decode_ok p :
  Z.of_nat (length p) <= size_limit ->
  match uri_unescape false p with
  | Some d =>
      if Z.of_nat (length d) <? pow2_above (length p)
      then exists sb, svn_path_uri_decode p = Ok sb /\ sb_rep sb d
      else svn_path_uri_decode p = Undef
  | None => svn_path_uri_decode p = Undef
  end.
Proof.
  intros Hm. unfold svn_path_uri_decode. destruct (svn_stringbuf_create []) as [sb| | |] eqn:E0; try done.
  cbn [mbind outcome_bind].
  assert (sb_block sb [] 0) as H0 by (by apply create_block).
  destruct (ensure_block sb [] 0 (length p) H0) as (sb1 & -> & [Hl1 [junk Hd1]] & H1); [lia|done|].
  cbn [mbind outcome_bind]. pose proof (pow2_above_le (length p)) as Hp.
  pose proof (uri_decode_loop_ok (length p) [] p false (mk_sb (sb_data sb1) 0) [] ltac:(lia)) as H.
  cbn [app length sb_data] in H.
  specialize (H ltac:(split; [done|by exists junk]) ltac:(lia)).
  destruct (uri_unescape false p) as [d|]; [|by rewrite H].
  destruct H as (sb2 & -> & H2 & Hlen). cbn [mbind outcome_bind]. rewrite <- H1.
  destruct (Z.ltb_spec (Z.of_nat (length d)) (Z.of_nat (length (sb_data sb1)))) as [Hlt|Hge].
  - destruct (blk_wr_pre sb2 d NUL H2) as (data & -> & Hp' & _ & j & Hj); [lia|].
    cbn [mbind outcome_bind]. eexists. split; [done|]. destruct H2 as [Hl2 _]. split; [done|]. by exists j.
  - destruct H2 as [Hl2 _]. unfold blk_wr. by rewrite (proj2 (Nat.ltb_ge _ _)) by lia.
Qed.

(** The escape of an ASCII character is decoded to it. *)
Definition escape_inverse (c : byte) : bool :=
  (128 <=? bz c) ||
  if char_is_uri_safe c then negb (bool_decide (c = zb 63)) && negb (bool_decide (c = zb 37))
  else match uri_escape_char c with
       | [x; d0; d1] => bool_decide (x = zb 37) && bool_decide (escaped_char [d0; d1] = c)
       | _ => false
       end.

Lemma escape_inverse_ok c : escape_inverse c = true.
Proof. revert c. apply byte_forallb. by vm_compute. Qed.

Lemma uri_unescape_char c l :
  bz c < 128 -> uri_unescape false (uri_escape_char c ++ l) = cons c <$> uri_unescape false l.
Proof.
  intros Hc. pose proof (escape_inverse_ok c) as H. unfold escape_inverse in H.
  rewrite (proj2 (Z.leb_gt _ _)) in H by done. cbn [orb] in H.
  destruct (char_is_uri_safe c) eqn:Hs.
  - unfold uri_escape_char. rewrite Hs. cbn [app uri_unescape].
    apply andb_true_iff in H as [H1 H2]. apply negb_true_iff in H1, H2. rewrite H1, H2.
    by rewrite andb_false_r.
  - destruct (uri_escape_char c) as [|x [|d0 [|d1 [|]]]]; try done.
    apply andb_true_iff in H as [H1 H2]. apply bool_decide_eq_true in H1 as ->.
    apply bool_decide_eq_true in H2. rewrite <- H2. cbn [app uri_unescape].
    by rewrite andb_false_r.
Qed.

Lemma uri_unescape_escape p :
  Forall (λ c, bz c < 128) p -> uri_unescape false (uri_escape p) = Some p.
Proof.
  induction 1 as [|c p Hc Hp IH]; [done|]. by rewrite uri_escape_cons, uri_unescape_char, IH.
Qed.

Lemma uri_escape_grows p :
  forallb char_is_uri_safe p = false -> Forall (λ c, bz c < 128) p ->
  (length p < length (uri_escape p))%nat.
Proof.
  induction p as [|c p IH]; [done|]. cbn [forallb]. intros H Hp. apply Forall_cons_iff in Hp as [Hc Hp].
  rewrite uri_escape_cons, length_app. unfold uri_escape_char.
  destruct (char_is_uri_safe c); cbn [andb length] in *.
  - specialize (IH H Hp). lia.
  - rewrite length_take_le by apply sprintf_escape_length. pose proof (uri_escape_length p). lia.
Qed.

(** ** More on the order *)

Lemma path_keys_app p q : path_keys (p ++ q) = (path_key <$> p) ++ path_keys q.
Proof. unfold path_keys. by rewrite fmap_app, <- app_assoc. Qed.

Lemma path_key_pos c : 0 < bsz c -> 0 < path_key c.
Proof. unfold path_key. case_match; lia. Qed.

(** ** Properties *)

(** [svn_path_compare_paths] is a total order on paths without null bytes: it
    always returns -1, 0 or 1, is antisymmetric and transitive, and returns 0 for
    equal paths only.  A path comes before the paths that extend it by an ASCII
    character, a slash for instance; what a directory contains comes after the
    siblings whose name extends the name of the directory. *)
Theorem compare_paths_total_order p q r x :
  Forall (λ c, c <> NUL) p -> Forall (λ c, c <> NUL) q -> Forall (λ c, c <> NUL) r -> 0 < bsz x ->
  exists v, svn_path_compare_paths p q = Ok v /\ (v = -1 \/ v = 0 \/ v = 1) /\
    svn_path_compare_paths q p = Ok (- v) /\ (v = 0 <-> p = q) /\
    (v = -1 -> svn_path_compare_paths q r = Ok (-1) -> svn_path_compare_paths p r = Ok (-1)) /\
    svn_path_compare_paths p (p ++ x :: q) = Ok (-1) /\
    (x <> sep -> svn_path_compare_paths (p ++ sep :: q) (p ++ x :: r) = Ok 1).
Proof.
  intros Hp Hq Hr Hx. assert (x <> NUL) as Hx0 by (by intros ->).
  exists (lex (path_keys p) (path_keys q)). split_and!; [by apply compare_paths_ok|..].
  - pose proof (lex_range (path_keys p) (path_keys q)). tauto.
  - rewrite compare_paths_ok by done. f_equal. apply lex_opp.
  - rewrite lex_eq. split; [by apply path_keys_inj|by intros ->].
  - intros H1 H2. rewrite compare_paths_ok in * by done. f_equal. injection H2 as H2. by eapply lex_trans.
  - rewrite compare_paths_ok by auto using Forall_app_2, Forall_cons_2. f_equal.
    rewrite <- (app_nil_r p) at 1. rewrite !path_keys_app, lex_app.
    by apply lex_head, path_key_pos.
  - intros Hs. rewrite compare_paths_ok by (apply Forall_app; split; [done|by apply Forall_cons]).
    f_equal. rewrite !path_keys_app, lex_app. apply lex_head_gt. pose proof (bsz_range x).
    unfold path_key at 1. destruct (byte_eq_dec x sep); [done|]. change (path_key sep) with 1000. lia.
Qed.

(** ** Components *)

Lemma canonicalize_id p : ends_with p sep = false -> svn_path_canonicalize p = p.
Proof.
  intros H. unfold svn_path_canonicalize. destruct (length p); cbn [canonicalize_loop]; by rewrite ?H.
Qed.

Lemma ends_with_app p x c d : ends_with (p ++ x :: c) d = ends_with (x :: c) d.
Proof. unfold ends_with. by rewrite last_app_cons. Qed.

Lemma ends_with_notin c d : d ∉ c -> ends_with c d = false.
Proof.
  intros H. destruct (ends_with c d) eqn:E; [|done]. apply ends_with_spec in E as [p ->].
  destruct H. apply elem_of_app. right. by apply list_elem_of_singleton.
Qed.

Lemma last_sep_none c n : sep ∉ c -> last_sep c n = None.
Proof.
  intros H. induction n as [|n IH]; [done|]. cbn [last_sep].
  rewrite bool_decide_false; [done|]. intros E. destruct H. by eapply list_elem_of_lookup_2.
Qed.

Lemma last_sep_app p c n :
  sep ∉ c -> (n <= length c)%nat -> last_sep (p ++ sep :: c) (length p + 1 + n) = Some (length p).
Proof.
  intros Hc. induction n as [|n IH]; intros Hn.
  - rewrite Nat.add_0_r, Nat.add_1_r. cbn [last_sep]. by rewrite bool_decide_true by (by apply list_lookup_middle).
  - rewrite <- plus_n_Sm. cbn [last_sep]. rewrite bool_decide_false; [apply IH; lia|].
    intros E. rewrite lookup_app_r in E by lia.
    replace (length p + 1 + n - length p)%nat with (S n) in E by lia.
    destruct Hc. by eapply list_elem_of_lookup_2.
Qed.

(** A directory that can be given a component, and a component. *)
Record path_parts (dir c : bytes) : Prop := {
  parts_dir : dir <> [];
  parts_tail : ends_with dir sep = false;
  parts_comp : c <> [];
  parts_sep : sep ∉ c;
  parts_nul : Forall (λ x, x <> NUL) (dir ++ sep :: c);
}.

Lemma parts_end dir c : path_parts dir c -> ends_with (dir ++ sep :: c) sep = false.
Proof.
  intros [_ _ Hc Hs _]. rewrite ends_with_app. destruct c as [|x c]; [done|].
  change (sep :: x :: c) with ([sep] ++ x :: c). rewrite ends_with_app. by apply ends_with_notin.
Qed.

Lemma last_sep_parts dir c :
  sep ∉ c -> last_sep (dir ++ sep :: c) (length (dir ++ sep :: c)) = Some (length dir).
Proof.
  intros Hc. rewrite length_app. cbn [length].
  replace (length dir + S (length c))%nat with (length dir + 1 + length c)%nat by lia.
  by apply last_sep_app.
Qed.

Lemma add_component_ok dir c :
  path_parts dir c -> svn_path_add_component dir c = dir ++ sep :: c.
Proof.
  intros H. pose proof (parts_end _ _ H) as He. destruct H as [Hd Ht _ _ _].
  unfold svn_path_add_component, add_component_internal.
  destruct (Nat.eqb_spec (length dir) 0) as [E|]; [by destruct dir|].
  rewrite bool_decide_false by (intros ->; done). cbn [negb andb].
  rewrite <- app_assoc. cbn [app]. by apply canonicalize_id.
Qed.

Lemma remove_component_ok dir c :
  path_parts dir c -> svn_path_remove_component (dir ++ sep :: c) = Ok dir.
Proof.
  intros H. pose proof (parts_end _ _ H) as He. destruct H as [Hd Ht _ Hs _].
  unfold svn_path_remove_component. rewrite canonicalize_id by done.
  rewrite last_sep_parts by done. rewrite take_app_length, Ht.
  destruct (Nat.eqb_spec (length dir) 0) as [E|]; [by destruct dir|done].
Qed.

Lemma basename_ok dir c : path_parts dir c -> svn_path_basename (dir ++ sep :: c) = c.
Proof.
  intros H. pose proof (parts_end _ _ H) as He. destruct H as [Hd Ht _ Hs _].
  unfold svn_path_basename. fold (svn_path_canonicalize (dir ++ sep :: c)).
  rewrite canonicalize_id by done.
  destruct (Nat.eqb_spec (length (dir ++ sep :: c)) 0) as [E|];
    [rewrite length_app in E; simpl in E; lia|].
  rewrite last_sep_parts by done. change (sep :: c) with ([sep] ++ c). rewrite app_assoc.
  by rewrite drop_app_length' by (by rewrite length_app).
Qed.

Lemma is_child_ok dir c :
  path_parts dir c -> svn_path_is_child (Some dir) (Some (dir ++ sep :: c)) = Ok (Some c).
Proof.
  intros [Hd Ht _ _ _]. unfold svn_path_is_child. rewrite length_app. cbn [length].
  destruct (Nat.eqb_spec (length dir) 0) as [E|]; [by destruct dir|].
  rewrite (proj2 (Nat.eqb_neq _ _)), (proj2 (Nat.leb_gt _ _)) by lia. cbn [orb].
  rewrite take_app_length, bool_decide_true, Ht by done. rewrite char_at_app by done.
  cbn [mbind outcome_bind]. destruct (byte_eq_dec sep sep); [|done].
  change (sep :: c) with ([sep] ++ c). rewrite app_assoc.
  by rewrite drop_app_length' by (by rewrite length_app).
Qed.

(** The longest common ancestor of two non-empty paths exists, is canonical, is
    empty or an ancestor of (or equal to) both paths, and every common ancestor
    that does not end with a slash is an ancestor of it or is it. *)
Theorem longest_ancestor_correct p1 p2 :
  p1 <> [] -> p2 <> [] -> exists a,
  svn_path_get_longest_ancestor (Some p1) (Some p2) = Ok (Some a) /\
  ends_with a sep = false /\
  (a = [] \/ (path_prefix a p1 /\ path_prefix a p2)) /\
  forall q, q <> [] -> ends_with q sep = false -> path_prefix q p1 -> path_prefix q p2 ->
    path_prefix q a.
Proof. apply longest_ancestor_ok. Qed.

(** The two passes of [svn_path_join_many] (measure, then copy into a block of
    the measured size) give what joining the components one after the other
    gives, an absolute component discarding what is before it, without writing
    outside the block and without failing the final assertion; for a base and
    components that have at most one trailing slash, are not empty, and number
    fewer than 10. *)
Theorem join_many_correct base args :
  base <> [] -> (base = [sep] \/ ends_with (norm base) sep = false) ->
  Forall (λ c, c <> [] /\ tidy (norm c)) args -> (length args < MAX_SAVED_LENGTHS)%nat ->
  svn_path_join_many base args = Ok (foldl svn_path_join (norm base) (norm <$> args)).
Proof. apply join_many_ok. Qed.

(** [svn_path_uri_encode] either writes outside its block, exactly when the text
    before some escape has a length [m] for which the escape and its terminator
    exceed the power of two that [m + 3] is rounded up to, or returns the path
    with every unsafe character escaped. *)
Theorem uri_encode_exact p :
  3 * Z.of_nat (length p) + 3 <= size_limit ->
  if encode_fits 0 p then exists sb, svn_path_uri_encode p = Ok sb /\ sb_rep sb (uri_escape p)
  else svn_path_uri_encode p = Undef.
Proof. apply uri_encode_ok. Qed.

(** [svn_path_uri_decode] reads past the end of a path that ends with an
    incomplete escape [%]; otherwise it returns the decoded characters, unless
    they fill the block (the smallest power of two that holds the encoded path),
    in which case it writes the terminator after the block. *)
Theorem uri_decode_exact p :
  Z.of_nat (length p) <= size_limit ->
  match uri_unescape false p with
  | Some d =>
      if Z.of_nat (length d) <? pow2_above (length p)
      then exists sb, svn_path_uri_decode p = Ok sb /\ sb_rep sb d
      else svn_path_uri_decode p = Undef
  | None => svn_path_uri_decode p = Undef
  end.
Proof. apply uri_decode_ok. Qed.

(** Encoding an ASCII path and decoding the result gives the path back,
    provided the encoder stays in its block and either something was escaped or
    the length of the path is not a power of two. *)
Theorem uri_roundtrip p :
  Forall (λ c, bz c < 128) p -> 3 * Z.of_nat (length p) + 3 <= size_limit ->
  encode_fits 0 p = true ->
  svn_path_is_uri_safe p = false \/ Z.of_nat (length p) < pow2_above (length p) ->
  exists e sb sb', svn_path_uri_encode p = Ok sb /\ sb_rep sb e /\
    svn_path_uri_decode e = Ok sb' /\ sb_rep sb' p.
Proof.
  intros Hp Hm Hf Hs. pose proof (uri_encode_ok p Hm) as He. rewrite Hf in He.
  destruct He as (sb & E & Hsb). pose proof (uri_escape_length p).
  pose proof (uri_decode_ok (uri_escape p) ltac:(lia)) as Hd.
  rewrite uri_unescape_escape in Hd by done.
  pose proof (pow2_above_le (length (uri_escape p))).
  assert (Z.of_nat (length p) < pow2_above (length (uri_escape p))) as Hlt.
  { destruct Hs as [Hs|Hs]; [pose proof (uri_escape_grows p Hs Hp); lia|].
    pose proof (pow2_above_mono (length p) (length (uri_escape p)) ltac:(lia)). lia. }
  rewrite (proj2 (Z.ltb_lt _ _)) in Hd by done. destruct Hd as (sb' & Ed & Hsb').
  by exists (uri_escape p), sb, sb'.
Qed.

(** Appending a component to a directory and taking the path apart: the last
    component and the directory are found again, and the component is what
    makes the path a child of the directory. *)
Theorem component_roundtrip dir c :
  path_parts dir c ->
  let p := svn_path_add_component dir c in
  p = dir ++ sep :: c /\ svn_path_remove_component p = Ok dir /\ svn_path_basename p = c /\
  svn_path_split p = Ok (dir, c) /\ svn_path_is_child (Some dir) (Some p) = Ok (Some c).
Proof.
  intros H p. assert (p = dir ++ sep :: c) as -> by (by apply add_component_ok).
  split_and!; [done|by apply remove_component_ok|by apply basename_ok| |by apply is_child_ok].
  unfold svn_path_split. rewrite canonicalize_id by (by apply parts_end).
  rewrite remove_component_ok by done. cbn [mbind outcome_bind].
  rewrite strlen_ok, firstn_all by apply H. by rewrite basename_ok.
Qed.

(** Inputs on which path functions leave their buffers or fail an assertion:
    removing the component of [/foo]; joining with an empty base, with a base
    that is only slashes, with an empty component after the root, or with ten
    components; decoding a single character; encoding a space after one
    character. *)
Lemma path_edge_cases :
  svn_path_remove_component (bstr "/foo") = Undef /\
  svn_path_join_many [] [bstr "a"] = Undef /\
  svn_path_join_many (bstr "//") [bstr "a"] = Abort /\
  svn_path_join_many (bstr "/") [[]; bstr "foo"] = Abort /\
  svn_path_join_many (bstr "a") (replicate 10 (bstr "b")) = Undef /\
  svn_path_uri_decode (bstr "a") = Undef /\
  svn_path_uri_encode (bstr "a b") = Undef /\
  svn_path_decompose (bstr "/") = Ok [[sep]; []].
Proof. split_and!; by vm_compute. Qed.

(** ** Witnesses *)

Lemma compare_paths_total_order_witness :
  svn_path_compare_paths (bstr "a") (bstr "a/b") = Ok (-1).
Proof.
  destruct (compare_paths_total_order (bstr "a") (bstr "b") (bstr "c") sep) as (v & _ & _ & _ & _ & _ & H & _).
  - by repeat constructor.
  - by repeat constructor.
  - by repeat constructor.
  - done.
  - exact H.
Defined.

Lemma longest_ancestor_correct_witness :
  exists a, svn_path_get_longest_ancestor (Some (bstr "a/b")) (Some (bstr "a/c")) = Ok (Some a) /\
    a = bstr "a".
Proof.
  destruct (longest_ancestor_correct (bstr "a/b") (bstr "a/c")) as (a & E & _); [done|done|].
  exists a. split; [exact E|]. vm_compute in E. by injection E as <-.
Defined.

Lemma join_many_correct_witness :
  svn_path_join_many (bstr "/") [bstr "a/"; bstr "b"] = Ok (bstr "/a/b").
Proof.
  apply (join_many_correct (bstr "/") [bstr "a/"; bstr "b"]).
  - done.
  - by left.
  - repeat (constructor; [split; [done|split; [done|by right]]|]). constructor.
  - unfold MAX_SAVED_LENGTHS. simpl. lia.
Defined.

Lemma uri_encode_exact_witness :
  exists sb, svn_path_uri_encode (bstr "ab c") = Ok sb /\ sb_rep sb (bstr "ab%20c").
Proof. apply (uri_encode_exact (bstr "ab c")). by vm_compute. Defined.

Lemma uri_decode_exact_witness :
  (exists sb, svn_path_uri_decode (bstr "a%20b+") = Ok sb /\ sb_rep sb (bstr "a b+")) /\
  svn_path_uri_decode (bstr "a%") = Undef.
Proof.
  split.
  - apply (uri_decode_exact (bstr "a%20b+")). by vm_compute.
  - apply (uri_decode_exact (bstr "a%")). by vm_compute.
Defined.

Lemma uri_roundtrip_witness :
  exists e sb sb', svn_path_uri_encode (bstr "ab c") = Ok sb /\ sb_rep sb e /\
    svn_path_uri_decode e = Ok sb' /\ sb_rep sb' (bstr "ab c").
Proof.
  apply (uri_roundtrip (bstr "ab c")).
  - by repeat constructor.
  - by vm_compute.
  - by vm_compute.
  - by left.
Defined.

Lemma component_roundtrip_witness :
  svn_path_split (svn_path_add_component (bstr "a/b") (bstr "c")) = Ok (bstr "a/b", bstr "c").
Proof.
  apply (component_roundtrip (bstr "a/b") (bstr "c")). split.
  - done.
  - done.
  - done.
  - apply (bool_decide_unpack _). by vm_compute.
  - by repeat constructor.
Defined.
