(* ===== verification/Sorts.v ===== *)
(** * Sorting and property kinds ([libsvn_subr/sorts.c])

    The comparison functions, the sorted contents of a hash table, and the kinds of
    properties.  [qsort] of the C library is an insertion sort: for the orders of
    this code the sorted array does not depend on the algorithm. *)

From Stdlib Require Import Sorting.Sorted.
From S2P Require Import Prelude SvnString Path.

(** ** [qsort] *)

Section qsort.
Context {A : Type} (compar : A -> A -> outcome Z).

Fixpoint insert_sorted (x : A) (l : list A) : outcome (list A) :=
  match l with
  | [] => Ok [x]
  | y :: l' =>
      c ← compar x y;
      if c <=? 0 then Ok (x :: l) else l' ← insert_sorted x l'; Ok (y :: l')
  end.

Fixpoint qsort (l : list A) : outcome (list A) :=
  match l with
  | [] => Ok []
  | x :: l => l ← qsort l; insert_sorted x l
  end.

(** A comparison that decides an order on the elements in question. *)
Record compares (P : A -> Prop) (le : relation A) : Prop := {
  cmp_le : forall x y, P x -> P y -> exists c, compar x y = Ok c /\ (c <= 0 <-> le x y);
  cmp_total : forall x y, P x -> P y -> le x y \/ le y x;
  cmp_trans : forall x y z, P x -> P y -> P z -> le x y -> le y z -> le x z;
}.

Context (P : A -> Prop) (le : relation A) (Hc : compares P le).

Lemma insert_sorted_ok x l : P x -> Forall P l -> StronglySorted le l ->
  exists l', insert_sorted x l = Ok l' /\ l' ≡ₚ x :: l /\ StronglySorted le l'.
Proof.
  intros Hx. induction l as [|y l IH]; intros Hl Hs.
  - exists [x]. by repeat constructor.
  - apply list.Forall_cons in Hl as [Hy Hl]. apply StronglySorted_inv in Hs as [Hs Hle].
    destruct (cmp_le _ _ Hc x y Hx Hy) as (c & E & Hcle). cbn [insert_sorted]. rewrite E. cbn [mbind outcome_bind].
    destruct (Z.leb_spec c 0) as [H|H].
    + exists (x :: y :: l). split_and!; [done|done|].
      apply Hcle in H. constructor; [by constructor|]. constructor; [done|].
      rewrite list.Forall_forall in Hl, Hle |- *. intros z Hz. apply (cmp_trans _ _ Hc x y z); auto.
    + destruct (IH Hl Hs) as (l' & -> & Hp & Hs'). cbn [mbind outcome_bind].
      exists (y :: l'). split_and!; [done|rewrite Hp; apply Permutation_swap|].
      constructor; [done|]. rewrite Hp. constructor; [|done].
      destruct (cmp_total _ _ Hc x y Hx Hy) as [Hxy|Hxy]; [apply Hcle in Hxy; lia|done].
Qed.

Lemma qsort_ok l : Forall P l -> exists l', qsort l = Ok l' /\ l' ≡ₚ l /\ StronglySorted le l'.
Proof.
  induction 1 as [|x l Hx Hl IH].
  - exists []. repeat constructor.
  - destruct IH as (l1 & E & Hp & Hs). cbn [qsort]. rewrite E. cbn [mbind outcome_bind].
    destruct (insert_sorted_ok x l1 Hx) as (l' & E' & Hp' & Hs'); [by rewrite Hp|done|].
    exists l'. split_and!; [done|by rewrite Hp', Hp|done].
Qed.

End qsort.

(** Sorted permutations by an antisymmetric order are the same. *)
Lemma sorted_unique {A} (P : A -> Prop) (le : relation A) (l1 l2 : list A) :
  (forall x y, P x -> P y -> le x y -> le y x -> x = y) -> Forall P l1 ->
  StronglySorted le l1 -> StronglySorted le l2 -> l1 ≡ₚ l2 -> l1 = l2.
Proof.
  intros Ha. revert l2. induction l1 as [|x l1 IH]; intros l2 HP H1 H2 Hp.
  - by apply Permutation_nil in Hp as ->.
  - destruct l2 as [|y l2]; [by symmetry in Hp; apply Permutation_nil_cons in Hp|].
    assert (Forall P (y :: l2)) as HP2 by (by rewrite <- Hp).
    apply StronglySorted_inv in H1 as [H1 F1]. apply StronglySorted_inv in H2 as [H2 F2].
    apply list.Forall_cons in HP as [Px HP1]. apply list.Forall_cons in HP2 as [Py _].
    assert (x = y) as ->.
    { assert (x ∈ y :: l2) as Hx by (rewrite <- Hp; left).
      assert (y ∈ x :: l1) as Hy by (rewrite Hp; left).
      apply elem_of_cons in Hx as [Hx|Hx]; [done|]. apply elem_of_cons in Hy as [Hy|Hy]; [done|].
      rewrite list.Forall_forall in F1, F2. apply Ha; auto. }
    f_equal. apply IH; try done. by apply Permutation_cons_inv in Hp.
Qed.

(** ** Comparison functions *)

(** An entry of a hash table: its key and its value. *)
Definition svn_sort_compare_items_as_paths {V} (a b : bytes * V) : outcome Z :=
  svn_path_compare_paths a.1 b.1.

Definition svn_sort_compare_strings_as_paths (a b : bytes) : outcome Z := svn_path_compare_paths a b.

Definition svn_sort_compare_revisions (a_rev b_rev : Z) : outcome Z :=
  Ok (if a_rev =? b_rev then 0 else if a_rev <? b_rev then 1 else -1).

(** [items]: what [apr_hash_next] enumerates. *)
Definition apr_hash_sorted_keys {V} (items : list (bytes * V))
    (comparison_func : bytes * V -> bytes * V -> outcome Z) : outcome (list (bytes * V)) :=
  qsort comparison_func items.

Definition path_le (p q : bytes) : Prop := lex (path_keys p) (path_keys q) <= 0.

Lemma items_compares {V} :
  compares (svn_sort_compare_items_as_paths (V := V)) (λ a, no_nul a.1) (λ a b, path_le a.1 b.1).
Proof.
  split.
  - intros [p v] [q w] Hp Hq. eexists. split; [by apply compare_paths_ok|done].
  - intros [p v] [q w] _ _. unfold path_le. cbn [fst]. rewrite (lex_opp (path_keys p) (path_keys q)). lia.
  - intros [p v] [q w] [r u] _ _ _. apply lex_le_trans.
Qed.

Lemma revisions_compares : compares svn_sort_compare_revisions (λ _, True) (λ a b, b <= a).
Proof.
  split; [|lia|lia]. intros a b _ _. eexists. split; [done|].
  destruct (Z.eqb_spec a b), (Z.ltb_spec a b); lia.
Qed.

(** ** Kinds of properties *)

Inductive svn_prop_kind := svn_prop_entry_kind | svn_prop_wc_kind | svn_prop_regular_kind.

#[global] Instance svn_prop_kind_eq_dec : EqDecision svn_prop_kind.
Proof. solve_decision. Defined.

Record svn_prop_t := mk_prop { prop_name : bytes; prop_value : option bytes }.

Definition SVN_PROP_WC_PREFIX : bytes := bstr "svn:wc:".
Definition SVN_PROP_ENTRY_PREFIX : bytes := bstr "svn:entry:".

(** [strncmp (a, b, n) == 0]. *)
Fixpoint strncmp_zero (n : nat) (a b : bytes) : bool :=
  match n with
  | O => true
  | S n =>
      let c := default NUL (head a) in
      if byte_eq_dec c (default NUL (head b)) then
        if byte_eq_dec c NUL then true else strncmp_zero n (tail a) (tail b)
      else false
  end.

(** The kind and [*prefix_len]. *)
Definition svn_property_kind (name : bytes) : svn_prop_kind * Z :=
  let wc_prefix_len := length SVN_PROP_WC_PREFIX in
  let entry_prefix_len := length SVN_PROP_ENTRY_PREFIX in
  if strncmp_zero wc_prefix_len name SVN_PROP_WC_PREFIX then (svn_prop_wc_kind, Z.of_nat wc_prefix_len)
  else if strncmp_zero entry_prefix_len name SVN_PROP_ENTRY_PREFIX
  then (svn_prop_entry_kind, Z.of_nat entry_prefix_len)
  else (svn_prop_regular_kind, 0).

(** The entry, wc and regular properties. *)
Fixpoint categorize_loop (proplist entry_props wc_props regular_props : list svn_prop_t) :
    list svn_prop_t * list svn_prop_t * list svn_prop_t :=
  match proplist with
  | [] => (entry_props, wc_props, regular_props)
  | prop :: proplist =>
      let newprop := mk_prop (prop_name prop) (prop_value prop) in
      match (svn_property_kind (prop_name prop)).1 with
      | svn_prop_regular_kind => categorize_loop proplist entry_props wc_props (regular_props ++ [newprop])
      | svn_prop_wc_kind => categorize_loop proplist entry_props (wc_props ++ [newprop]) regular_props
      | svn_prop_entry_kind => categorize_loop proplist (entry_props ++ [newprop]) wc_props regular_props
      end
  end.

Definition svn_categorize_props (proplist : list svn_prop_t) :
    list svn_prop_t * list svn_prop_t * list svn_prop_t :=
  categorize_loop proplist [] [] [].

Lemma strncmp_prefix p s : no_nul p -> strncmp_zero (length p) s p = bool_decide (p `prefix_of` s).
Proof.
  intros H. revert s. induction H as [|c p Hc Hp IH]; intros s.
  - cbn. symmetry. apply bool_decide_eq_true. apply prefix_nil.
  - cbn [length strncmp_zero head default tail from_option id]. destruct s as [|d s]; cbn [head default tail from_option id].
    + destruct (byte_eq_dec NUL c); [congruence|]. symmetry. apply bool_decide_eq_false. apply prefix_nil_not.
    + destruct (byte_eq_dec d c) as [->|Hd].
      * destruct (byte_eq_dec c NUL); [done|]. rewrite IH. apply bool_decide_ext.
        split; [apply prefix_cons|apply prefix_cons_inv_2].
      * symmetry. apply bool_decide_eq_false. intros ->%prefix_cons_inv_1. done.
Qed.

Definition kind_is (k : svn_prop_kind) (p : svn_prop_t) : Prop := (svn_property_kind (prop_name p)).1 = k.

#[local] Instance kind_is_dec k p : Decision (kind_is k p).
Proof. unfold kind_is. apply _. Defined.

Lemma categorize_loop_ok l e w r : categorize_loop l e w r =
  (e ++ filter (kind_is svn_prop_entry_kind) l, w ++ filter (kind_is svn_prop_wc_kind) l,
   r ++ filter (kind_is svn_prop_regular_kind) l).
Proof.
  revert e w r. induction l as [|p l IH]; intros e w r; cbn [categorize_loop].
  - by rewrite !app_nil_r.
  - destruct p as [n v]. cbn [prop_name prop_value].
    assert (forall k, kind_is k (mk_prop n v) <-> (svn_property_kind n).1 = k) as Hk by done.
    destruct ((svn_property_kind n).1) as []; rewrite IH, !filter_cons;
      repeat (let H := fresh in destruct (decide (kind_is _ _)) as [H|H]; rewrite Hk in H; [try discriminate H|try done]);
      by rewrite <- app_assoc.
Qed.

(** ** Properties *)

(** [apr_hash_sorted_keys] with the order of paths: whatever the order in which
    the hash table is enumerated, the array holds each entry once, ordered by
    path, and it is the only such array. *)
Theorem sorted_keys_correct {V} (table : gmap bytes V) (items : list (bytes * V)) :
  items ≡ₚ map_to_list table -> (forall k v, table !! k = Some v -> no_nul k) ->
  exists l, apr_hash_sorted_keys items svn_sort_compare_items_as_paths = Ok l /\ l ≡ₚ map_to_list table /\
    StronglySorted (λ a b, path_le a.1 b.1) l /\
    forall items', items' ≡ₚ map_to_list table ->
      apr_hash_sorted_keys items' svn_sort_compare_items_as_paths = Ok l.
Proof.
  intros Hp Hk. unfold apr_hash_sorted_keys.
  assert (forall l, l ≡ₚ map_to_list table -> Forall (λ a : bytes * V, no_nul a.1) l) as HF.
  { intros l ->. apply list.Forall_forall. intros [k v] H%elem_of_map_to_list. by eapply Hk. }
  destruct (qsort_ok _ _ _ items_compares items (HF _ Hp)) as (l & E & Hl & Hs).
  assert (l ≡ₚ map_to_list table) as Hl' by (by rewrite Hl).
  exists l. split_and!; [done|done|done|].
  intros items' Hp'. destruct (qsort_ok _ _ _ items_compares items' (HF _ Hp')) as (l2 & -> & Hl2 & Hs2).
  f_equal. apply sorted_unique with (P := λ a, a ∈ map_to_list table) (le := λ a b, path_le a.1 b.1); try done.
  - intros [p v] [q w] Hx%elem_of_map_to_list Hy%elem_of_map_to_list H1 H2.
    assert (p = q) as ->; [|congruence].
    apply path_keys_inj; [by eapply Hk|by eapply Hk|]. apply lex_eq. unfold path_le in *. cbn [fst] in *.
    rewrite (lex_opp (path_keys p) (path_keys q)) in H2. lia.
  - apply list.Forall_forall. intros x. by rewrite Hl2, Hp'.
  - by rewrite Hl2, Hl', Hp'.
Qed.

(** [svn_categorize_props] puts each property, in the order given, into the list
    of its kind: a name that starts with "svn:wc:" is a working copy property, one
    that starts with "svn:entry:" an entry property, any other a regular one; and
    the reported length is that of the prefix. *)
Theorem categorize_props_correct (l : list svn_prop_t) :
  svn_categorize_props l = (filter (kind_is svn_prop_entry_kind) l, filter (kind_is svn_prop_wc_kind) l,
                            filter (kind_is svn_prop_regular_kind) l) /\
  forall name,
    (svn_property_kind name = (svn_prop_wc_kind, 7) <-> SVN_PROP_WC_PREFIX `prefix_of` name) /\
    (svn_property_kind name = (svn_prop_entry_kind, 10) <-> SVN_PROP_ENTRY_PREFIX `prefix_of` name) /\
    (svn_property_kind name = (svn_prop_regular_kind, 0) <->
       ~ SVN_PROP_WC_PREFIX `prefix_of` name /\ ~ SVN_PROP_ENTRY_PREFIX `prefix_of` name).
Proof.
  split; [apply categorize_loop_ok|]. intros name. unfold svn_property_kind.
  rewrite !strncmp_prefix by (by repeat constructor).
  destruct (bool_decide_reflect (SVN_PROP_WC_PREFIX `prefix_of` name)) as [H1|H1];
    destruct (bool_decide_reflect (SVN_PROP_ENTRY_PREFIX `prefix_of` name)) as [H2|H2]; try (split_and!; naive_solver).
  exfalso. destruct H1 as [k1 ->], H2 as [k2 H2]. vm_compute in H2. discriminate H2.
Qed.

Lemma sorted_keys_correct_witness :
  let table : gmap bytes Z := {[bstr "b/c" := 1; bstr "b" := 2; bstr "b-d" := 3]} in
  exists l, apr_hash_sorted_keys (map_to_list table) svn_sort_compare_items_as_paths = Ok l /\
    l.*2 = [2; 3; 1].
Proof.
  intros table. destruct (sorted_keys_correct table (map_to_list table)) as (l & E & _); [done|..].
  - intros k v H. apply elem_of_map_to_list in H.
    assert (Forall (λ a : bytes * Z, no_nul a.1) (map_to_list table)) as HF
      by (vm_compute; repeat constructor; discriminate).
    rewrite list.Forall_forall in HF. exact (HF _ H).
  - exists l. split; [exact E|]. vm_compute in E. injection E as <-. reflexivity.
Defined.
