(* ===== verification/Base64.v ===== *)
(** * Base64 ([libsvn_subr/svn_base64.c])

    The encoder and the decoder as streams over another stream, and on whole
    strings.  A [svn_stringbuf_t] that is appended to is given by its bytes (see
    [SvnString]); the bytes that wait for the rest of their group are a list, of the
    length kept in [buflen]. *)

From S2P Require Import Prelude Stream Svndiff.

Definition BASE64_LINELEN : Z := 76.

Definition base64tab : bytes := bstr "ABCDEFGHIJKLMNOPQRSTUVWXYZabcdefghijklmnopqrstuvwxyz0123456789+/".

Definition newline : byte := zb 10.
Definition equals : byte := zb 61.

(** ** Encoding *)

Record encode_baton (B : Type) := mk_enc { output : svn_stream_t B; buf : bytes; linelen : Z }.
Arguments mk_enc {B}.
Arguments output {B}.
Arguments buf {B}.
Arguments linelen {B}.

Definition table (z : Z) : outcome byte := rd base64tab (Z.to_nat z).

Definition encode_group (in_ : bytes) : outcome bytes :=
  in0 ← rd in_ 0; in1 ← rd in_ 1; in2 ← rd in_ 2;
  out0 ← table (Z.shiftr (bz in0) 2);
  out1 ← table (Z.lor (Z.shiftl (Z.land (bz in0) 3) 4) (Z.shiftr (bz in1) 4));
  out2 ← table (Z.lor (Z.shiftl (Z.land (bz in1) 15) 2) (Z.shiftr (bz in2) 6));
  out3 ← table (Z.land (bz in2) 63);
  Ok [out0; out1; out2; out3].

(** The loop takes at least one byte of the data, or ends a group that was full:
    [n] bounds its turns. *)
Fixpoint encode_loop (n : nat) (str data inbuf : bytes) (linelen : Z) : outcome (bytes * bytes * Z) :=
  match n with
  | O => Undef
  | S n =>
      if (3 <=? length inbuf + length data)%nat then
        let missing := (3 - length inbuf)%nat in
        group ← encode_group (inbuf ++ take missing data);
        let str := str ++ group in
        let linelen := linelen + 4 in
        if linelen =? BASE64_LINELEN then encode_loop n (str ++ [newline]) (drop missing data) [] 0
        else encode_loop n str (drop missing data) [] linelen
      else Ok (str, inbuf ++ data, linelen)
  end.

(** What is appended to the string, the leftover data and the length of the line. *)
Definition encode_bytes (str data inbuf : bytes) (linelen : Z) : outcome (bytes * bytes * Z) :=
  encode_loop (S (length data)) str data inbuf linelen.

Definition encode_partial_group (str extra : bytes) (linelen : Z) : outcome bytes :=
  let len := length extra in
  '(str, linelen) ←
    (if (0 <? len)%nat then
       group ← encode_group (extra ++ replicate (3 - len) NUL);
       Ok (str ++ take (len + 1) group ++ replicate (4 - (len + 1)) equals, linelen + 4)
     else Ok (str, linelen));
  Ok (if 0 <? linelen then str ++ [newline] else str).

Section encode.
Context {B : Type}.

Definition encode_data (eb : encode_baton B) (data : bytes) : outcome unit * encode_baton B :=
  match encode_bytes [] data (buf eb) (linelen eb) with
  | Ok (encoded, buf, linelen) =>
      let '(r, s) := write_nonempty (Ok tt) (output eb) encoded in (r, mk_enc s buf linelen)
  | Err e => (Err e, eb) | Abort => (Abort, eb) | Undef => (Undef, eb)
  end.

Definition finish_encoding_data (eb : encode_baton B) : outcome unit * encode_baton B :=
  match encode_partial_group [] (buf eb) (linelen eb) with
  | Ok encoded =>
      let '(r, s) := write_nonempty (Ok tt) (output eb) encoded in
      let '(r, s) := match r with Ok _ => svn_stream_close s | _ => (r, s) end in
      (r, mk_enc s (buf eb) (linelen eb))
  | Err e => (Err e, eb) | Abort => (Abort, eb) | Undef => (Undef, eb)
  end.

Definition svn_base64_encode (output : svn_stream_t B) : svn_stream_t (encode_baton B) :=
  svn_stream_set_close (svn_stream_set_write (svn_stream_create (mk_enc output [] 0)) encode_data)
    finish_encoding_data.
End encode.

Definition svn_base64_encode_string (str : bytes) : outcome bytes :=
  '(encoded, ingroup, linelen) ← encode_bytes [] str [] 0; encode_partial_group encoded ingroup linelen.

(** ** Decoding *)

Record decode_baton (B : Type) := mk_dec { doutput : svn_stream_t B; dbuf : bytes; done_ : bool }.
Arguments mk_dec {B}.
Arguments doutput {B}.
Arguments dbuf {B}.
Arguments done_ {B}.

(** [strchr (base64tab, c)]: the null byte is found at the end of the table. *)
Definition find_table (c : byte) : option nat := fst <$> list_find (λ d, d = c) (base64tab ++ [NUL]).

Definition decode_group (in_ : bytes) : outcome bytes :=
  in0 ← rd in_ 0; in1 ← rd in_ 1; in2 ← rd in_ 2; in3 ← rd in_ 3;
  Ok [zb (Z.lor (Z.shiftl (bz in0) 2) (Z.shiftr (bz in1) 4));
      zb (Z.lor (Z.shiftl (Z.land (bz in1) 15) 4) (Z.shiftr (bz in2) 2));
      zb (Z.lor (Z.shiftl (Z.land (bz in2) 3) 6) (bz in3))].

Fixpoint decode_bytes (str data inbuf : bytes) (done : bool) : outcome (bytes * bytes * bool) :=
  match data with
  | [] => Ok (str, inbuf, done)
  | p :: data =>
      if done then Ok (str, inbuf, done)
      else if byte_eq_dec p equals then
        str ← (if (2 <=? length inbuf)%nat then
                 group ← decode_group (inbuf ++ replicate (4 - length inbuf) NUL);
                 Ok (str ++ take (length inbuf - 1) group)
               else Ok str);
        decode_bytes str data inbuf true
      else
        let inbuf := match find_table p with Some i => inbuf ++ [zb (Z.of_nat i)] | None => inbuf end in
        if (length inbuf =? 4)%nat then
          group ← decode_group inbuf; decode_bytes (str ++ group) data [] false
        else decode_bytes str data inbuf false
  end.

Section decode.
Context {B : Type}.

Definition decode_data (db : decode_baton B) (data : bytes) : outcome unit * decode_baton B :=
  match decode_bytes [] data (dbuf db) (done_ db) with
  | Ok (decoded, buf, done) =>
      let '(r, s) := write_nonempty (Ok tt) (doutput db) decoded in (r, mk_dec s buf done)
  | Err e => (Err e, db) | Abort => (Abort, db) | Undef => (Undef, db)
  end.

Definition finish_decoding_data (db : decode_baton B) : outcome unit * decode_baton B :=
  let '(r, s) := svn_stream_close (doutput db) in (r, mk_dec s (dbuf db) (done_ db)).

Definition svn_base64_decode (output : svn_stream_t B) : svn_stream_t (decode_baton B) :=
  svn_stream_set_close (svn_stream_set_write (svn_stream_create (mk_dec output [] false)) decode_data)
    finish_decoding_data.
End decode.

Definition svn_base64_decode_string (str : bytes) : outcome bytes :=
  '(decoded, _, _) ← decode_bytes [] str [] false; Ok decoded.

(** ** Groups *)

Lemma lor_add x y n : 0 <= n -> 0 <= y < 2 ^ n -> Z.lor (Z.shiftl x n) y = x * 2 ^ n + y.
Proof.
  intros Hn Hy. assert (Z.land (Z.shiftl x n) y = 0) as H.
  { apply Z.bits_inj'. intros i Hi. rewrite Z.land_spec, Z.bits_0.
    destruct (decide (i < n)); [by rewrite Z.shiftl_spec_low|].
    rewrite <- (Z.mod_small y (2 ^ n)), Z.mod_pow2_bits_high, andb_false_r by lia. done. }
  rewrite <- Z.lxor_lor, <- Z.add_nocarry_lxor by done. by rewrite Z.shiftl_mul_pow2.
Qed.

(** The four numbers of a group. *)
Definition sextets (a b c : byte) : list Z :=
  [bz a / 4; bz a mod 4 * 16 + bz b / 16; bz b mod 16 * 4 + bz c / 64; bz c mod 64].

Ltac bits := rewrite ?(Z.land_ones _ 2), ?(Z.land_ones _ 4), ?(Z.land_ones _ 6), ?Z.shiftr_div_pow2, ?lor_add by done.

Lemma sextets_range a b c : Forall (λ z, 0 <= z < 64) (sextets a b c).
Proof.
  pose proof (bz_range a). pose proof (bz_range b). pose proof (bz_range c).
  unfold sextets. repeat constructor; Z.div_mod_to_equations; lia.
Qed.

(** The characters of the table. *)
Definition entry_ok (z : Z) : bool :=
  match table z with
  | Ok t => negb (bz t =? bz equals) && bool_decide (find_table t = Some (Z.to_nat z))
  | _ => false
  end.

Lemma table_ok z : 0 <= z < 64 -> exists t, table z = Ok t /\ t <> equals /\ find_table t = Some (Z.to_nat z).
Proof.
  intros Hz. assert (entry_ok z = true) as H by (apply (Z_forallb 64); [by vm_compute|lia]).
  unfold entry_ok in H. destruct (table z) as [t|e| |]; try done. apply andb_true_iff in H as [H1 H2].
  apply bool_decide_eq_true in H2. exists t. split; [done|]. split; [|done]. intros ->. by rewrite Z.eqb_refl in H1.
Qed.

Lemma encode_group_ok a b c : exists g0 g1 g2 g3,
  encode_group [a; b; c] = Ok [g0; g1; g2; g3] /\
  Forall2 (λ g z, g <> equals /\ find_table g = Some (Z.to_nat z)) [g0; g1; g2; g3] (sextets a b c).
Proof.
  pose proof (bz_range a). pose proof (bz_range b). pose proof (bz_range c).
  pose proof (sextets_range a b c) as Hs. unfold sextets in *. rewrite !list.Forall_cons in Hs.
  destruct Hs as (R0 & R1 & R2 & R3 & _).
  destruct (table_ok _ R0) as (g0 & E0 & G0), (table_ok _ R1) as (g1 & E1 & G1),
    (table_ok _ R2) as (g2 & E2 & G2), (table_ok _ R3) as (g3 & E3 & G3).
  exists g0, g1, g2, g3. split; [|do 4 (constructor; [done|]); constructor]. unfold encode_group. cbn [rd lookup list_lookup mbind outcome_bind].
  change 3 with (Z.ones 2). change 15 with (Z.ones 4). change 63 with (Z.ones 6).
  rewrite !Z.land_ones, !Z.shiftr_div_pow2, !lor_add by (try done; Z.div_mod_to_equations; lia).
  change (2 ^ 2) with 4. change (2 ^ 4) with 16. change (2 ^ 6) with 64.
  by rewrite E0, E1, E2, E3.
Qed.

Lemma decode_group_ok a b c x0 x1 x2 x3 :
  bz <$> [x0; x1; x2; x3] = sextets a b c -> decode_group [x0; x1; x2; x3] = Ok [a; b; c].
Proof.
  pose proof (bz_range a). pose proof (bz_range b). pose proof (bz_range c).
  intros [= E0 E1 E2 E3]. unfold decode_group. cbn [rd lookup list_lookup mbind outcome_bind].
  rewrite E0, E1, E2, E3. change 15 with (Z.ones 4). change 3 with (Z.ones 2).
  rewrite !Z.land_ones, !Z.shiftr_div_pow2, !lor_add by (try done; Z.div_mod_to_equations; lia).
  change (2 ^ 2) with 4. change (2 ^ 4) with 16. change (2 ^ 6) with 64. do 2 f_equal; [|f_equal; [|f_equal]].
  all: etransitivity; [|apply zb_bz]; f_equal; Z.div_mod_to_equations; lia.
Qed.

(** ** Decoding what was encoded *)

(** A character of the encoding. *)
Lemma decode_char s g z rest inbuf :
  g <> equals -> find_table g = Some (Z.to_nat z) -> 0 <= z < 64 ->
  decode_bytes s (g :: rest) inbuf false =
    if (length inbuf =? 3)%nat then group ← decode_group (inbuf ++ [zb z]); decode_bytes (s ++ group) rest [] false
    else decode_bytes s rest (inbuf ++ [zb z]) false.
Proof.
  intros Hg Hf Hz. cbn [decode_bytes]. destruct (byte_eq_dec g equals); [done|]. rewrite Hf, Z2Nat.id by lia.
  by rewrite length_app, Nat.add_1_r.
Qed.

Lemma bz_zb_64 z : 0 <= z < 64 -> bz (zb z) = z.
Proof. intros. rewrite bz_zb. apply Z.mod_small. lia. Qed.

Lemma decode_line s rest inbuf : decode_bytes s (newline :: rest) inbuf false =
  if (length inbuf =? 4)%nat then group ← decode_group inbuf; decode_bytes (s ++ group) rest [] false
  else decode_bytes s rest inbuf false.
Proof. done. Qed.

(** The group of [a], [b], [c], of which the first [k] are wanted. *)
Lemma group_decoded a b c g : encode_group [a; b; c] = Ok g ->
  length g = 4%nat /\
  (forall s rest, decode_bytes s (g ++ rest) [] false = decode_bytes (s ++ [a; b; c]) rest [] false) /\
  (forall s, b = NUL -> c = NUL -> exists ib, decode_bytes s (take 2 g ++ [equals; equals]) [] false = Ok (s ++ [a], ib, true)) /\
  (forall s, c = NUL -> exists ib, decode_bytes s (take 3 g ++ [equals]) [] false = Ok (s ++ [a; b], ib, true)).
Proof.
  intros Eg. destruct (encode_group_ok a b c) as (g0 & g1 & g2 & g3 & E & H). rewrite E in Eg. injection Eg as <-.
  pose proof (sextets_range a b c) as Hs. unfold sextets in *. rewrite !list.Forall_cons in Hs.
  destruct Hs as (R0 & R1 & R2 & R3 & _).
  inversion_clear H as [|? ? ? ? [N0 F0] H']. inversion_clear H' as [|? ? ? ? [N1 F1] H]. 
  inversion_clear H as [|? ? ? ? [N2 F2] H']. inversion_clear H' as [|? ? ? ? [N3 F3] _].
  split; [done|]. cbn [take app]. split; [|split].
  - intros s rest. rewrite !(decode_char _ g0 _ _ _ N0 F0), !(decode_char _ g1 _ _ _ N1 F1),
      !(decode_char _ g2 _ _ _ N2 F2), !(decode_char _ g3 _ _ _ N3 F3) by done. cbn [app length Nat.eqb].
    rewrite (decode_group_ok a b c); [done|]. cbn [fmap list_fmap]. by rewrite !bz_zb_64.
  - intros s -> ->. rewrite !(decode_char _ g0 _ _ _ N0 F0), !(decode_char _ g1 _ _ _ N1 F1) by done.
    cbn [app length Nat.eqb]. cbn [decode_bytes]. destruct (byte_eq_dec equals equals); [|done]. cbn [length Nat.leb app replicate Nat.sub].
    rewrite (decode_group_ok a NUL NUL); [by eexists|]. cbn [fmap list_fmap]. by rewrite !bz_zb_64.
  - intros s ->. rewrite !(decode_char _ g0 _ _ _ N0 F0), !(decode_char _ g1 _ _ _ N1 F1), !(decode_char _ g2 _ _ _ N2 F2) by done.
    cbn [app length Nat.eqb]. cbn [decode_bytes]. destruct (byte_eq_dec equals equals); [|done]. cbn [length Nat.leb app replicate Nat.sub].
    rewrite (decode_group_ok a b NUL); [by eexists|]. cbn [fmap list_fmap]. by rewrite !bz_zb_64.
Qed.

(** ** Encoding piece by piece *)

Definition group (a b c : byte) : bytes := match encode_group [a; b; c] with Ok g => g | _ => [] end.

Definition next_line (ll : Z) : bytes * Z :=
  if ll + 4 =? BASE64_LINELEN then ([newline], 0) else ([], ll + 4).

(** The text of the full groups, what is left, and the length of the last line. *)
Fixpoint full_groups (l : bytes) (ll : Z) : bytes * bytes * Z :=
  match l with
  | a :: b :: c :: l =>
      let '(nl, ll) := next_line ll in
      let '(t, rest, ll) := full_groups l ll in (group a b c ++ nl ++ t, rest, ll)
  | _ => ([], l, ll)
  end.

Lemma group_ok a b c : encode_group [a; b; c] = Ok (group a b c).
Proof. unfold group. by destruct (encode_group_ok a b c) as (g0 & g1 & g2 & g3 & -> & _). Qed.

(** Induction by groups of three. *)
Lemma groups_ind (P : bytes -> Prop) :
  (forall l, (length l < 3)%nat -> P l) -> (forall a b c l, P l -> P (a :: b :: c :: l)) -> forall l, P l.
Proof.
  intros H0 H3 l. induction l as [l IH] using (induction_ltof1 _ (@length byte)). unfold ltof in IH.
  destruct l as [|a [|b [|c l]]]; try (apply H0; cbn; lia). apply H3, IH. cbn. lia.
Qed.

Lemma encode_loop_groups n : forall str data inbuf ll, (length data < n)%nat -> (length inbuf < 3)%nat ->
  encode_loop n str data inbuf ll =
    let '(t, rest, ll) := full_groups (inbuf ++ data) ll in Ok (str ++ t, rest, ll).
Proof.
  induction n as [|n IH]; intros str data inbuf ll Hn Hi; [lia|]. cbn [encode_loop].
  destruct (Nat.leb_spec 3 (length inbuf + length data)) as [H|H].
  - assert (exists a b c l, inbuf ++ data = a :: b :: c :: l /\ inbuf ++ take (3 - length inbuf) data = [a; b; c] /\
      drop (3 - length inbuf) data = l /\ (length l < length data)%nat) as (a & b & c & l & El & E1 & E2 & Hl).
    { destruct inbuf as [|? [|? [|]]], data as [|? [|? [|? ?]]]; cbn in *; try lia; do 4 eexists; (split; [done|]); (split; [done|]); (split; [done|]); cbn; lia. }
    rewrite E1, E2, El, group_ok. cbn [mbind outcome_bind full_groups]. unfold next_line.
    destruct (ll + 4 =? BASE64_LINELEN); rewrite IH by (cbn; lia); cbn [app];
      destruct (full_groups l _) as [[t rest] ll']; by rewrite <- !app_assoc.
  - destruct (inbuf ++ data) as [|a [|b [|c l]]] eqn:E; apply (f_equal length) in E as El;
      rewrite length_app in El; cbn in El; try lia; cbn [full_groups]; by rewrite app_nil_r.
Qed.

Lemma encode_bytes_groups str data inbuf ll : (length inbuf < 3)%nat ->
  encode_bytes str data inbuf ll = let '(t, rest, ll) := full_groups (inbuf ++ data) ll in Ok (str ++ t, rest, ll).
Proof. intros H. apply encode_loop_groups; [lia|done]. Qed.

Lemma full_groups_rest l ll : (length (full_groups l ll).1.2 < 3)%nat.
Proof.
  revert l ll. refine (groups_ind _ _ _).
  - intros l Hl ll. by destruct l as [|a [|b [|c l]]]; cbn in *; try lia.
  - intros a b c l IH ll. cbn [full_groups]. destruct (next_line ll) as [nl ll']. specialize (IH ll').
    by destruct (full_groups l ll') as [[t rest] ll''].
Qed.

Lemma full_groups_app l1 l2 ll : full_groups (l1 ++ l2) ll =
  let '(t1, rest, ll) := full_groups l1 ll in
  let '(t2, rest, ll) := full_groups (rest ++ l2) ll in (t1 ++ t2, rest, ll).
Proof.
  revert l1 ll. refine (groups_ind _ _ _).
  - intros l Hl ll. destruct l as [|a [|b [|c l]]]; cbn in Hl; try lia; cbn [full_groups];
      by destruct (full_groups _ _) as [[t rest] ll'].
  - intros a b c l IH ll. cbn [app full_groups]. destruct (next_line ll) as [nl ll']. rewrite IH.
    destruct (full_groups l ll') as [[t rest] ll'']. destruct (full_groups (rest ++ l2) ll'') as [[t2 rest2] ll2].
    by rewrite <- !app_assoc.
Qed.

(** ** The text *)

(** No line is longer than the limit; [col] is the length of the current one. *)
Fixpoint lines_fit (col : Z) (t : bytes) : bool :=
  match t with
  | [] => true
  | c :: t => if byte_eq_dec c newline then lines_fit 0 t else (col <? BASE64_LINELEN) && lines_fit (col + 1) t
  end.

Lemma group_chars a b c : exists g0 g1 g2 g3, group a b c = [g0; g1; g2; g3] /\
  Forall (λ g, g <> newline) [g0; g1; g2; g3].
Proof.
  unfold group. destruct (encode_group_ok a b c) as (g0 & g1 & g2 & g3 & -> & H). exists g0, g1, g2, g3. split; [done|].
  eapply Forall2_Forall_l; [exact H|]. eapply list.Forall_impl; [apply (sextets_range a b c)|].
  intros z _ g [_ Hf] ->. discriminate Hf.
Qed.

Lemma chars_fit col g0 g1 g2 g3 t : Forall (λ g, g <> newline) [g0; g1; g2; g3] -> col + 4 <= BASE64_LINELEN ->
  lines_fit col (g0 :: g1 :: g2 :: g3 :: t) = lines_fit (col + 4) t.
Proof.
  rewrite !list.Forall_cons. intros (H0 & H1 & H2 & H3 & _) Hc. cbn [lines_fit].
  repeat (case_match; [done|]). rewrite !(proj2 (Z.ltb_lt _ _)) by lia. cbn [andb].
  by replace (col + 1 + 1 + 1 + 1) with (col + 4) by lia.
Qed.

(** A position at which a group may begin. *)
Definition group_col (col : Z) : Prop := 0 <= col < BASE64_LINELEN /\ col mod 4 = 0.

Lemma group_fits a b c ll t : group_col ll ->
  lines_fit ll (group a b c ++ t) = lines_fit (ll + 4) t /\
  (exists nl ll', next_line ll = (nl, ll') /\ group_col ll' /\ lines_fit (ll + 4) (nl ++ t) = lines_fit ll' t /\
     forall s r, decode_bytes s (nl ++ r) [] false = decode_bytes s r [] false).
Proof.
  intros [Hr Hm]. assert (ll + 4 <= BASE64_LINELEN) as Hle.
  { unfold BASE64_LINELEN in *. Z.div_mod_to_equations. lia. }
  split.
  - destruct (group_chars a b c) as (g0 & g1 & g2 & g3 & -> & H). by apply chars_fit.
  - unfold next_line. destruct (Z.eqb_spec (ll + 4) BASE64_LINELEN) as [E|E]; eexists _, _; (split; [done|]).
    + split; [done|]. split; [|done]. cbn [app lines_fit]. by destruct (byte_eq_dec newline newline).
    + split; [|done]. split; [lia|]. Z.div_mod_to_equations. lia.
Qed.

Lemma full_groups_text l : forall ll, group_col ll -> exists t d rest ll',
  full_groups l ll = (t, rest, ll') /\ l = d ++ rest /\ group_col ll' /\
  (forall s r, decode_bytes s (t ++ r) [] false = decode_bytes (s ++ d) r [] false) /\
  forall r, lines_fit ll (t ++ r) = lines_fit ll' r.
Proof.
  revert l. refine (groups_ind _ _ _).
  - intros l Hl ll Hll. exists [], [], l, ll. split; [by destruct l as [|? [|? [|? ?]]]; cbn in Hl; try lia|].
    split; [done|]. split; [done|]. split; [|done]. intros s r. by rewrite app_nil_r.
  - intros a b c l IH ll Hll. cbn [full_groups].
    destruct (proj2 (group_fits a b c ll [] Hll)) as (nl & ll' & E & Hll' & _). rewrite E.
    destruct (IH ll' Hll') as (t & d & rest & ll2 & Et & -> & H2 & Hd & Hf). rewrite Et.
    exists (group a b c ++ nl ++ t), (a :: b :: c :: d), rest, ll2. split; [done|]. split; [done|]. split; [done|].
    destruct (group_decoded a b c _ (group_ok a b c)) as (_ & Hg & _). split.
    + intros s r. rewrite <- !app_assoc, Hg. destruct (proj2 (group_fits a b c ll [] Hll)) as (nl' & ? & E' & _ & _ & Hnl).
      rewrite E in E'. injection E' as <- <-. rewrite Hnl, Hd, <- app_assoc. done.
    + intros r. rewrite <- !app_assoc. rewrite (proj1 (group_fits a b c ll _ Hll)).
      destruct (proj2 (group_fits a b c ll (t ++ r) Hll)) as (nl' & ? & E' & _ & Hnl & _).
      rewrite E in E'. injection E' as <- <-. by rewrite Hnl.
Qed.

Lemma decode_done s l ib : decode_bytes s l ib true = Ok (s, ib, true).
Proof. by destruct l. Qed.

(** The decoder does not depend on how its input is cut. *)
Lemma decode_bytes_app a b s ib dn :
  decode_bytes s (a ++ b) ib dn = ('(s, ib, dn) ← decode_bytes s a ib dn; decode_bytes s b ib dn).
Proof.
  revert s ib dn. induction a as [|x a IH]; intros s ib dn; [done|]. cbn [app decode_bytes].
  destruct dn; [cbn; by rewrite decode_done|]. destruct (byte_eq_dec x equals) as [->|Hx].
  - destruct (2 <=? length ib)%nat; [|apply IH]. destruct (decode_group _) as [g|e| |]; [apply IH|done..].
  - case_match; [|apply IH]. destruct (decode_group _) as [g|e| |]; [apply IH|done..].
Qed.

Lemma decode_bytes_prefix a s ib dn :
  decode_bytes s a ib dn = ('(t, ib, dn) ← decode_bytes [] a ib dn; Ok (s ++ t, ib, dn)).
Proof.
  enough (forall s2, decode_bytes (s ++ s2) a ib dn = ('(t, ib, dn) ← decode_bytes s2 a ib dn; Ok (s ++ t, ib, dn))) as H
    by (specialize (H []); by rewrite app_nil_r in H).
  revert ib dn. induction a as [|x a IH]; intros ib dn s2; [done|]. cbn [decode_bytes].
  destruct dn; [done|]. destruct (byte_eq_dec x equals) as [->|Hx].
  - destruct (2 <=? length ib)%nat; [|apply IH]. destruct (decode_group _) as [g|e| |]; [|done..].
    cbn [mbind outcome_bind]. by rewrite <- app_assoc, IH.
  - case_match; [|apply IH]. destruct (decode_group _) as [g|e| |]; [|done..].
    cbn [mbind outcome_bind]. by rewrite <- app_assoc, IH.
Qed.

(** The end of the text. *)
Lemma partial_group_text extra ll : group_col ll -> (length extra < 3)%nat -> exists t,
  (forall str, encode_partial_group str extra ll = Ok (str ++ t)) /\ lines_fit ll t = true /\
  forall s, exists ib done, decode_bytes s t [] false = Ok (s ++ extra, ib, done).
Proof.
  intros Hll Hl. unfold encode_partial_group. destruct (Nat.ltb_spec 0 (length extra)) as [H|H].
  - assert (exists a b, extra = [a] /\ b = NUL \/ extra = [a; b]) as (a & b & Ex).
    { destruct extra as [|a [|b [|]]]; cbn in *; try lia; [exists a, NUL; by left|exists a, b; by right]. }
    destruct (group_decoded a b NUL _ (group_ok a b NUL)) as (Hg & _ & H1 & H2).
    destruct (group_chars a b NUL) as (g0 & g1 & g2 & g3 & Eg & Hc). rewrite Eg in *.
    rewrite list.Forall_cons in Hc. destruct Hc as [C0 Hc]. rewrite !list.Forall_cons in Hc. destruct Hc as (C1 & C2 & _).
    assert (ll + 4 <= BASE64_LINELEN) as Hle.
    { destruct Hll as [Hr Hm]. unfold BASE64_LINELEN in *. Z.div_mod_to_equations. lia. }
    assert (forall c2, c2 <> newline -> lines_fit ll [g0; g1; c2; equals; newline] = true) as Hfit.
    { intros c2 Hc2. rewrite chars_fit; [cbn [lines_fit]; by destruct (byte_eq_dec newline newline)| |done].
      repeat (constructor; [done|]). constructor. }
    destruct Ex as [[-> ->]| ->]; cbn [length Nat.sub replicate app]; rewrite group_ok, Eg; cbn [mbind outcome_bind];
      cbn [length Nat.sub Nat.add replicate app take] in *;
      rewrite (proj2 (Z.ltb_lt _ _)) by (destruct Hll; lia).
    + exists [g0; g1; equals; equals; newline]. split; [by intros str; rewrite <- app_assoc|]. split; [by apply Hfit|].
      intros s. destruct (H1 s eq_refl eq_refl) as (ib & E). exists ib, true.
      change [g0; g1; equals; equals; newline] with ([g0; g1; equals; equals] ++ [newline]).
      by rewrite decode_bytes_app, E.
    + exists [g0; g1; g2; equals; newline]. split; [by intros str; rewrite <- app_assoc|]. split; [by apply Hfit|].
      intros s. destruct (H2 s eq_refl) as (ib & E). exists ib, true.
      change [g0; g1; g2; equals; newline] with ([g0; g1; g2; equals] ++ [newline]).
      by rewrite decode_bytes_app, E.
  - destruct extra; [|cbn in H; lia]. cbn [mbind outcome_bind]. destruct (0 <? ll).
    + exists [newline]. split; [done|]. split; [cbn; by destruct (byte_eq_dec newline newline)|]. intros s.
      exists [], false. by rewrite app_nil_r.
    + exists []. split; [intros str; by rewrite app_nil_r|]. split; [done|]. intros s. exists [], false. by rewrite app_nil_r.
Qed.

(** The text of a string. *)
Lemma encode_string_ok str : exists t, svn_base64_encode_string str = Ok t /\ lines_fit 0 t = true /\
  svn_base64_decode_string t = Ok str.
Proof.
  destruct (full_groups_text str 0) as (t & d & rest & ll & E & -> & Hll & Hd & Hf); [done|].
  assert (length rest < 3)%nat as Hr by (pose proof (full_groups_rest (d ++ rest) 0) as H; by rewrite E in H).
  destruct (partial_group_text rest ll Hll Hr) as (t2 & Ep & Hf2 & Hd2). exists (t ++ t2). split; [|split].
  - unfold svn_base64_encode_string. rewrite encode_bytes_groups by (cbn; lia). cbn [app]. rewrite E.
    cbn [mbind outcome_bind app]. apply Ep.
  - by rewrite Hf.
  - unfold svn_base64_decode_string. rewrite Hd. destruct (Hd2 ([] ++ d)) as (ib & dn & ->). done.
Qed.

(** ** Other characters *)

(** What is decoded, whatever is left in the group. *)
Definition decoded (str data inbuf : bytes) (done : bool) : outcome bytes :=
  '(t, _, _) ← decode_bytes str data inbuf done; Ok t.

(** A character that is neither in the table nor the one that ends the text. *)
Definition ignored (c : byte) : Prop := c <> equals /\ c <> NUL /\ c ∉ base64tab.

Lemma ignored_none c : ignored c -> find_table c = None.
Proof.
  intros (_ & H0 & Ht). unfold find_table. destruct (list_find _ _) as [[i d]|] eqn:E; [|done].
  apply list_find_Some in E as (Hi & -> & _). apply list_elem_of_lookup_2 in Hi.
  apply elem_of_app in Hi as [Hi|Hi]; [done|]. by apply list_elem_of_singleton in Hi.
Qed.

(** Such a character is skipped. *)
Lemma decoded_skip c pre post : ignored c -> forall str ib dn, (length ib < 4)%nat ->
  decoded str (pre ++ c :: post) ib dn = decoded str (pre ++ post) ib dn.
Proof.
  intros Hc. pose proof (ignored_none c Hc) as Hn. destruct Hc as (He & _ & _).
  induction pre as [|x pre IH]; intros str ib dn Hib; unfold decoded in *; cbn [app decode_bytes].
  - destruct dn; [by destruct post|]. destruct (byte_eq_dec c equals); [done|]. rewrite Hn.
    by rewrite (proj2 (Nat.eqb_neq _ _)) by lia.
  - destruct dn; [done|]. destruct (byte_eq_dec x equals) as [_|_].
    + destruct (2 <=? length ib)%nat; [|by apply IH]. destruct (decode_group _) as [g|e| |]; [by apply IH|done..].
    + set (ib' := match find_table x with Some i => ib ++ [zb (Z.of_nat i)] | None => ib end).
      assert (length ib' <= 4)%nat as Hl by (unfold ib'; destruct (find_table x); rewrite ?length_app; cbn [length]; lia).
      destruct (Nat.eqb_spec (length ib') 4) as [_|Hne]; [|apply IH; lia].
      destruct (decode_group _) as [g|e| |]; [apply IH; cbn; lia|done..].
Qed.

(** Of the first digit of a group six bits count. *)
Lemma decode_group_first l : decode_group (zb 64 :: l) = decode_group (zb 0 :: l).
Proof.
  unfold decode_group. destruct l as [|b l]; [done|]. cbn [rd lookup list_lookup mbind outcome_bind].
  assert (zb (Z.lor (Z.shiftl (bz (zb 64)) 2) (Z.shiftr (bz b) 4)) =
          zb (Z.lor (Z.shiftl (bz (zb 0)) 2) (Z.shiftr (bz b) 4))) as ->; [|done].
  by destruct b.
Qed.

Lemma decoded_done str data ib : decoded str data ib true = Ok str.
Proof. by destruct data. Qed.

Lemma decoded_first data : forall str l, (length l < 3)%nat ->
  decoded str data (zb 64 :: l) false = decoded str data (zb 0 :: l) false.
Proof.
  induction data as [|x data IH]; intros str l Hl; [done|]. unfold decoded in *. cbn [decode_bytes].
  destruct (byte_eq_dec x equals) as [_|_].
  - cbn [app length]. rewrite decode_group_first.
    destruct (if (2 <=? _)%nat then _ else _) as [t|e| |]; [|done..]. cbn [mbind outcome_bind].
    apply eq_trans with (2 := eq_sym (decoded_done t data _)). apply decoded_done.
  - set (l' := match find_table x with Some i => l ++ [zb (Z.of_nat i)] | None => l end).
    assert (forall d, match find_table x with Some i => (d :: l) ++ [zb (Z.of_nat i)] | None => d :: l end = d :: l') as E
      by (intros d; unfold l'; by destruct (find_table x)).
    rewrite !E. cbn [length]. destruct (Nat.eqb_spec (S (length l')) 4) as [_|Hne]; [by rewrite decode_group_first|].
    apply IH. revert Hne. unfold l'. destruct (find_table x); rewrite ?length_app; cbn [length]; lia.
Qed.

(** The null byte is found behind the last digit, and is the digit 64. *)
Lemma decode_nul data : svn_base64_decode_string (NUL :: data) = svn_base64_decode_string (bstr "A" ++ data).
Proof. apply (decoded_first data [] []). cbn. lia. Qed.

(** ** The streams *)

Section streams.
Context {C : Type} (f : stream_fns C) `{!WritableStream f}.

Definition encoder : stream_fns (encode_baton C) :=
  mk_fns None (Some encode_data) (Some finish_encoding_data).
Definition decoder : stream_fns (decode_baton C) :=
  mk_fns None (Some decode_data) (Some finish_decoding_data).

Lemma encode_chunks chunks : forall c ib ll t rest ll', (length ib < 3)%nat ->
  full_groups (ib ++ concat chunks) ll = (t, rest, ll') -> exists c',
    write_all (mk_stream (mk_enc (mk_stream c f) ib ll) encoder) chunks =
      (Ok tt, mk_stream (mk_enc (mk_stream c' f) rest ll') encoder) /\
    stream_written c' = stream_written c ++ t.
Proof.
  induction chunks as [|d chunks IH]; intros c ib ll t rest ll' Hib E; cbn [concat write_all] in *.
  - rewrite app_nil_r in E. exists c. destruct ib as [|? [|? [|]]]; cbn in Hib; try lia; injection E as <- <- <-;
      by rewrite app_nil_r.
  - rewrite app_assoc, full_groups_app in E. pose proof (full_groups_rest (ib ++ d) ll) as Hr.
    destruct (full_groups (ib ++ d) ll) as [[t1 rest1] ll1] eqn:E1. cbn [fst snd] in Hr.
    destruct (full_groups (rest1 ++ concat chunks) ll1) as [[t2 rest2] ll2] eqn:E2. injection E as <- <- <-.
    assert (svn_stream_write (mk_stream (mk_enc (mk_stream c f) ib ll) encoder) d =
      let '(r, s) := write_nonempty (Ok tt) (mk_stream c f) t1 in (r, mk_stream (mk_enc s rest1 ll1) encoder)) as ->.
    { unfold svn_stream_write. cbn [encoder fns write_fn baton]. unfold encode_data. cbn [buf linelen output].
      rewrite encode_bytes_groups, E1 by done. cbn [app]. by destruct (write_nonempty _ _ _). }
    destruct (write_nonempty_ok f c t1) as (c1 & -> & Hc1).
    destruct (IH c1 rest1 ll1 t2 rest2 ll2 Hr E2) as (c2 & -> & Hc2).
    exists c2. split; [done|]. by rewrite Hc2, Hc1, <- app_assoc.
Qed.

Lemma encode_stream c chunks t : svn_base64_encode_string (concat chunks) = Ok t -> exists eb c',
  write_and_close (svn_base64_encode (mk_stream c f)) chunks = (Ok tt, mk_stream eb encoder) /\
  output eb = mk_stream c' f /\ stream_written c' = stream_written c ++ t.
Proof.
  intros E. unfold svn_base64_encode_string in E. rewrite encode_bytes_groups in E by (cbn; lia).
  destruct (full_groups_text (concat chunks) 0) as (t1 & d & rest & ll & Eg & Ec & Hll & _); [done|].
  pose proof (full_groups_rest (concat chunks) 0) as Hr. cbn [app] in E. rewrite Eg in E, Hr. cbn [fst snd] in Hr.
  destruct (partial_group_text rest ll Hll Hr) as (t2 & Ep & _). cbn [mbind outcome_bind app] in E.
  rewrite Ep in E. injection E as <-.
  destruct (encode_chunks chunks c [] 0 t1 rest ll) as (c1 & E1 & H1); [cbn; lia|done|].
  destruct (write_nonempty_ok f c1 t2) as (c2 & E2 & H2). destruct (stream_close_ok c2) as (c3 & E3 & H3).
  exists (mk_enc (mk_stream c3 f) rest ll), c3. split; [|split; [done|by rewrite H3, H2, H1, <- app_assoc]].
  unfold write_and_close. change (svn_base64_encode (mk_stream c f)) with (mk_stream (mk_enc (mk_stream c f) [] 0) encoder).
  rewrite E1. unfold svn_stream_close. cbn [encoder fns close_fn baton]. unfold finish_encoding_data.
  cbn [buf linelen output]. rewrite Ep. cbn [app]. by rewrite E2, E3.
Qed.

Lemma decode_chunks chunks : forall c ib dn t ib' dn',
  decode_bytes [] (concat chunks) ib dn = Ok (t, ib', dn') -> exists c',
    write_all (mk_stream (mk_dec (mk_stream c f) ib dn) decoder) chunks =
      (Ok tt, mk_stream (mk_dec (mk_stream c' f) ib' dn') decoder) /\
    stream_written c' = stream_written c ++ t.
Proof.
  induction chunks as [|d chunks IH]; intros c ib dn t ib' dn' E; cbn [concat write_all] in *.
  - injection E as <- <- <-. exists c. by rewrite app_nil_r.
  - rewrite decode_bytes_app in E. destruct (decode_bytes [] d ib dn) as [[[t1 ib1] dn1]|e| |] eqn:E1; try done.
    cbn [mbind outcome_bind] in E. rewrite decode_bytes_prefix in E.
    destruct (decode_bytes [] (concat chunks) ib1 dn1) as [[[t2 ib2] dn2]|e| |] eqn:E2; try done.
    injection E as <- <- <-.
    assert (svn_stream_write (mk_stream (mk_dec (mk_stream c f) ib dn) decoder) d =
      let '(r, s) := write_nonempty (Ok tt) (mk_stream c f) t1 in (r, mk_stream (mk_dec s ib1 dn1) decoder)) as ->.
    { unfold svn_stream_write. cbn [decoder fns write_fn baton]. unfold decode_data. cbn [dbuf done_ doutput].
      rewrite E1. by destruct (write_nonempty _ _ _). }
    destruct (write_nonempty_ok f c t1) as (c1 & -> & Hc1).
    destruct (IH c1 ib1 dn1 t2 ib2 dn2 E2) as (c2 & -> & Hc2).
    exists c2. split; [done|]. by rewrite Hc2, Hc1, <- app_assoc.
Qed.

Lemma decode_stream c chunks t : svn_base64_decode_string (concat chunks) = Ok t -> exists db c',
  write_and_close (svn_base64_decode (mk_stream c f)) chunks = (Ok tt, mk_stream db decoder) /\
  doutput db = mk_stream c' f /\ stream_written c' = stream_written c ++ t.
Proof.
  intros E. unfold svn_base64_decode_string in E.
  destruct (decode_bytes [] (concat chunks) [] false) as [[[t1 ib] dn]|e| |] eqn:E1; try done. injection E as <-.
  destruct (decode_chunks chunks c [] false t1 ib dn E1) as (c1 & Ew & Hc1).
  destruct (stream_close_ok c1) as (c2 & E2 & H2). exists (mk_dec (mk_stream c2 f) ib dn), c2.
  split; [|split; [done|by rewrite H2]]. unfold write_and_close.
  change (svn_base64_decode (mk_stream c f)) with (mk_stream (mk_dec (mk_stream c f) [] false) decoder).
  rewrite Ew. unfold svn_stream_close. cbn [decoder fns close_fn baton]. unfold finish_decoding_data.
  cbn [doutput dbuf done_]. by rewrite E2.
Qed.
End streams.

(** C39. Base64 gives every byte string back: the text of a string, in which no line
    is longer than 76 characters, decodes to the string; writing the string to an
    encoding stream, in any pieces, and closing it writes this text to the stream
    below; and writing the text to a decoding stream, in any pieces, and closing it
    writes the string.  In any text a character that is not in the table is skipped,
    except for the null byte: that is taken as a digit, at the beginning of the text
    with the same bits as the digit A. *)
Theorem base64_roundtrip {C} (f : stream_fns C) `{!WritableStream f} str (c : C) :
  exists text, svn_base64_encode_string str = Ok text /\ lines_fit 0 text = true /\
    svn_base64_decode_string text = Ok str /\
    (forall chunks, concat chunks = str -> exists eb c',
       write_and_close (svn_base64_encode (mk_stream c f)) chunks = (Ok tt, mk_stream eb (encoder (C := C))) /\
       output eb = mk_stream c' f /\ stream_written c' = stream_written c ++ text) /\
    (forall chunks, concat chunks = text -> exists db c',
       write_and_close (svn_base64_decode (mk_stream c f)) chunks = (Ok tt, mk_stream db (decoder (C := C))) /\
       doutput db = mk_stream c' f /\ stream_written c' = stream_written c ++ str) /\
    (forall ch pre post, ignored ch ->
       svn_base64_decode_string (pre ++ ch :: post) = svn_base64_decode_string (pre ++ post)) /\
    (forall data, svn_base64_decode_string (NUL :: data) = svn_base64_decode_string (bstr "A" ++ data)).
Proof.
  destruct (encode_string_ok str) as (t & Et & Hf & Hd). exists t. split; [done|]. split; [done|]. split; [done|].
  split; [|split; [|split; [|apply decode_nul]]].
  - intros chunks E. apply encode_stream. by rewrite E.
  - intros chunks E. apply decode_stream. by rewrite E.
  - intros ch pre post Hc. apply (decoded_skip ch pre post Hc). cbn. lia.
Qed.

(** ** A witness *)

Lemma base64_roundtrip_witness :
  exists text, svn_base64_encode_string (bstr "delta") = Ok text /\ text = bstr "ZGVsdGE=" ++ [newline] /\
    exists db c', write_and_close (svn_base64_decode (mk_stream [] mem_writer)) [bstr "ZGV"; bstr "sdG"; bstr "E="; [newline]] =
      (Ok tt, mk_stream db (decoder (C := bytes))) /\ doutput db = mk_stream c' mem_writer /\ c' = [] ++ bstr "delta".
Proof.
  destruct (base64_roundtrip mem_writer (bstr "delta") ([] : bytes)) as (text & Et & _ & _ & _ & Hd & _).
  assert (text = bstr "ZGVsdGE=" ++ [newline]) as Ht.
  { assert (svn_base64_encode_string (bstr "delta") = Ok (bstr "ZGVsdGE=" ++ [newline])) as E by (by vm_compute).
    rewrite E in Et. by injection Et. }
  exists text. split; [exact Et|]. split; [exact Ht|]. apply Hd. rewrite Ht. by vm_compute.
Defined.
