(* ===== verification/Quoprint.v ===== *)
(** * Quoted-printable ([libsvn_subr/quoprint.c])

    The encoder and the decoder as streams over another stream, and on whole
    strings, as in [Base64].  The decoder reads the byte after its data as well:
    [beyond] is what it finds there. *)

From S2P Require Import Prelude Stream Svndiff.

Definition QUOPRINT_LINELEN : Z := 76.

Definition newline : byte := zb 10.
Definition equals : byte := zb 61.

(** For a plain [char] and for an unsigned one. *)
Definition VALID_LITERAL (c : Z) : bool := (c =? 9) || ((32 <=? c) && (c <=? 126) && negb (c =? 61)).

(** Literals that are not special in XML either. *)
Definition ENCODE_AS_LITERAL (c : Z) : bool :=
  VALID_LITERAL c && negb (c =? 9) && negb (c =? 60) && negb (c =? 62) && negb (c =? 39) && negb (c =? 34)
  && negb (c =? 38).

Definition hextab : bytes := bstr "0123456789ABCDEF".

(** ** Encoding *)

Record encode_baton (B : Type) := mk_enc { output : svn_stream_t B; linelen : Z }.
Arguments mk_enc {B}.
Arguments output {B}.
Arguments linelen {B}.

Definition encode_char (p : byte) : outcome bytes :=
  if ENCODE_AS_LITERAL (bsz p) then Ok [p]
  else
    buf1 ← rd hextab (Z.to_nat (Z.land (Z.shiftr (bsz p) 4) 15));
    buf2 ← rd hextab (Z.to_nat (Z.land (bsz p) 15));
    Ok [equals; buf1; buf2].

Fixpoint encode_bytes (str data : bytes) (linelen : Z) : outcome (bytes * Z) :=
  match data with
  | [] => Ok (str, linelen)
  | p :: data =>
      text ← encode_char p;
      let str := str ++ text in
      let linelen := linelen + Z.of_nat (length text) in
      if QUOPRINT_LINELEN <? linelen + 3 then encode_bytes (str ++ [equals; newline]) data 0
      else encode_bytes str data linelen
  end.

Section encode.
Context {B : Type}.

Definition encode_data (eb : encode_baton B) (data : bytes) : outcome unit * encode_baton B :=
  match encode_bytes [] data (linelen eb) with
  | Ok (encoded, linelen) =>
      let '(r, s) := write_nonempty (Ok tt) (output eb) encoded in (r, mk_enc s linelen)
  | Err e => (Err e, eb) | Abort => (Abort, eb) | Undef => (Undef, eb)
  end.

Definition finish_encoding_data (eb : encode_baton B) : outcome unit * encode_baton B :=
  let '(r, s) := if 0 <? linelen eb then svn_stream_write (output eb) [equals; newline] else (Ok tt, output eb) in
  let '(r, s) := match r with Ok _ => svn_stream_close s | _ => (r, s) end in
  (r, mk_enc s (linelen eb)).

Definition svn_quoprint_encode (output : svn_stream_t B) : svn_stream_t (encode_baton B) :=
  svn_stream_set_close (svn_stream_set_write (svn_stream_create (mk_enc output 0)) encode_data)
    finish_encoding_data.
End encode.

Definition svn_quoprint_encode_string (str : bytes) : outcome bytes :=
  '(encoded, linelen) ← encode_bytes [] str 0;
  Ok (if 0 <? linelen then encoded ++ [equals; newline] else encoded).

(** ** Decoding *)

Record decode_baton (B : Type) := mk_dec { doutput : svn_stream_t B; dbuf : bytes }.
Arguments mk_dec {B}.
Arguments doutput {B}.
Arguments dbuf {B}.

(** [strchr (hextab, c)]: the null byte is found at the end of the table. *)
Definition find_hex (c : byte) : option nat := fst <$> list_find (λ d, d = c) (hextab ++ [NUL]).

Definition decode_char (str inbuf : bytes) (p : byte) : outcome (bytes * bytes) :=
  let inbuf := inbuf ++ [p] in
  inbuf0 ← rd inbuf 0;
  if negb (bool_decide (inbuf0 = equals)) then
    Ok (if VALID_LITERAL (bz inbuf0) then str ++ [inbuf0] else str, [])
  else if (length inbuf =? 2)%nat && bool_decide (inbuf !! 1%nat = Some newline) then Ok (str, [])
  else if (length inbuf =? 3)%nat then
    inbuf1 ← rd inbuf 1; inbuf2 ← rd inbuf 2;
    Ok (match find_hex inbuf1, find_hex inbuf2 with
        | Some find1, Some find2 => str ++ [zb (Z.lor (Z.shiftl (Z.of_nat find1) 4) (Z.of_nat find2))]
        | _, _ => str
        end, [])
  else Ok (str, inbuf).

Fixpoint decode_loop (str inbuf data : bytes) : outcome (bytes * bytes) :=
  match data with
  | [] => Ok (str, inbuf)
  | p :: data => '(str, inbuf) ← decode_char str inbuf p; decode_loop str inbuf data
  end.

(** The loop does not end before the end of the data, but after the next byte. *)
Definition decode_bytes (beyond : outcome byte) (str data inbuf : bytes) : outcome (bytes * bytes) :=
  '(str, inbuf) ← decode_loop str inbuf data;
  p ← beyond;
  decode_char str inbuf p.

Section decode.
Context {B : Type} (beyond : outcome byte).

Definition decode_data (db : decode_baton B) (data : bytes) : outcome unit * decode_baton B :=
  match decode_bytes beyond [] data (dbuf db) with
  | Ok (decoded, buf) =>
      let '(r, s) := write_nonempty (Ok tt) (doutput db) decoded in (r, mk_dec s buf)
  | Err e => (Err e, db) | Abort => (Abort, db) | Undef => (Undef, db)
  end.

Definition finish_decoding_data (db : decode_baton B) : outcome unit * decode_baton B :=
  let '(r, s) := svn_stream_close (doutput db) in (r, mk_dec s (dbuf db)).

Definition svn_quoprint_decode (output : svn_stream_t B) : svn_stream_t (decode_baton B) :=
  svn_stream_set_close (svn_stream_set_write (svn_stream_create (mk_dec output [])) decode_data)
    finish_decoding_data.
End decode.

(** A string is followed by a null byte. *)
Definition svn_quoprint_decode_string (str : bytes) : outcome bytes :=
  '(decoded, _) ← decode_bytes (Ok NUL) [] str []; Ok decoded.

(** ** What is decoded *)

Definition plain (c : byte) : bool := negb (bz c =? 60) && negb (bz c =? 62) && negb (bz c =? 39)
  && negb (bz c =? 34) && negb (bz c =? 38) && (32 <=? bz c) && (bz c <=? 126).

(** A character and its code. *)
Definition char_ok (p : byte) : bool :=
  match encode_char p with
  | Ok t =>
      (1 <=? length t)%nat && (length t <=? 3)%nat && forallb plain t &&
      match decode_loop [] [] t with Ok ([c], []) => bz c =? bz p | _ => false end
  | _ => false
  end.

Lemma encode_char_ok p : exists t, encode_char p = Ok t /\ (1 <= length t <= 3)%nat /\ Forall plain t /\
  decode_loop [] [] t = Ok ([p], []).
Proof.
  assert (char_ok p = true) as H by (revert p; apply byte_forallb; by vm_compute).
  unfold char_ok in H. destruct (encode_char p) as [t|e| |]; try done. exists t. split; [done|].
  apply andb_true_iff in H as [H Hd]. apply andb_true_iff in H as [H Hp]. apply andb_true_iff in H as [H1 H2].
  apply Nat.leb_le in H1, H2. split; [done|]. split.
  - apply forallb_True. by rewrite Hp.
  - destruct (decode_loop [] [] t) as [[[|c [|]] [|]]|e| |]; try done. apply Z.eqb_eq in Hd.
    do 3 f_equal. by rewrite <- (zb_bz c), Hd, zb_bz.
Qed.

Lemma decode_loop_app s ib a b : decode_loop s ib (a ++ b) = ('(s, ib) ← decode_loop s ib a; decode_loop s ib b).
Proof.
  revert s ib. induction a as [|x a IH]; intros s ib; [done|]. cbn [app decode_loop].
  destruct (decode_char s ib x) as [[s' ib']|e| |]; [apply IH|done..].
Qed.

Lemma decode_char_prefix s s2 ib p :
  decode_char (s ++ s2) ib p = ('(t, ib) ← decode_char s2 ib p; Ok (s ++ t, ib)).
Proof.
  unfold decode_char. destruct (rd (ib ++ [p]) 0) as [c0|e| |]; try done. cbn [mbind outcome_bind].
  case_match; [cbn; destruct (VALID_LITERAL _); by rewrite ?app_assoc|]. case_match; [done|]. case_match; [|done].
  destruct (rd (ib ++ [p]) 1) as [c1|e| |]; try done. destruct (rd (ib ++ [p]) 2) as [c2|e| |]; try done.
  cbn [mbind outcome_bind]. destruct (find_hex c1), (find_hex c2); by rewrite ?app_assoc.
Qed.

Lemma decode_loop_prefix s ib a : decode_loop s ib a = ('(t, ib) ← decode_loop [] ib a; Ok (s ++ t, ib)).
Proof.
  enough (forall s2, decode_loop (s ++ s2) ib a = ('(t, ib) ← decode_loop s2 ib a; Ok (s ++ t, ib))) as H
    by (specialize (H []); by rewrite app_nil_r in H).
  revert ib. induction a as [|x a IH]; intros ib s2; [done|]. cbn [decode_loop]. rewrite decode_char_prefix.
  destruct (decode_char s2 ib x) as [[s' ib']|e| |]; [|done..]. apply IH.
Qed.

(** The null byte after a string is not a literal. *)
Lemma decode_bytes_whole s data t : decode_loop s [] data = Ok (t, []) -> decode_bytes (Ok NUL) s data [] = Ok (t, []).
Proof. intros E. unfold decode_bytes. by rewrite E. Qed.

(** ** The text *)

(** No line is longer than the limit, and every character is plain or ends a line;
    [col] is the length of the current line. *)
Fixpoint lines_fit (limit col : Z) (t : bytes) : bool :=
  match t with
  | [] => true
  | c :: t =>
      if byte_eq_dec c newline then lines_fit limit 0 t
      else plain c && (col <? limit) && lines_fit limit (col + 1) t
  end.

Lemma plain_fit limit t : forall col r, Forall plain t -> col + Z.of_nat (length t) <= limit ->
  lines_fit limit col (t ++ r) = lines_fit limit (col + Z.of_nat (length t)) r.
Proof.
  induction t as [|c t IH]; intros col r Ht Hc; cbn [app length] in *; [by rewrite Z.add_0_r|].
  rewrite list.Forall_cons in Ht. destruct Ht as [Hp Ht]. apply Is_true_true in Hp. cbn [lines_fit].
  destruct (byte_eq_dec c newline) as [->|_]; [done|]. rewrite Hp, (proj2 (Z.ltb_lt _ _)) by lia. cbn [andb].
  rewrite IH by (done || lia). f_equal. lia.
Qed.

(** A position at which a character may begin: there is room for three. *)
Definition char_col (col : Z) : Prop := 0 <= col <= QUOPRINT_LINELEN - 3.

Lemma soft_newline s r : decode_loop s [] ([equals; newline] ++ r) = decode_loop s [] r.
Proof. done. Qed.

Lemma soft_newline_fits limit col r : col <= limit - 1 -> lines_fit limit col ([equals; newline] ++ r) = lines_fit limit 0 r.
Proof.
  intros H. change ([equals; newline] ++ r) with ([equals] ++ newline :: r). rewrite plain_fit.
  - cbn [lines_fit]. by destruct (byte_eq_dec newline newline).
  - by repeat constructor.
  - cbn [length]. lia.
Qed.

Lemma encode_bytes_ok data : forall ll, char_col ll -> exists t ll',
  (forall str, encode_bytes str data ll = Ok (str ++ t, ll')) /\ char_col ll' /\
  (forall s r, decode_loop s [] (t ++ r) = decode_loop (s ++ data) [] r) /\
  forall r, lines_fit (QUOPRINT_LINELEN + 1) ll (t ++ r) = lines_fit (QUOPRINT_LINELEN + 1) ll' r.
Proof.
  induction data as [|p data IH]; intros ll Hll.
  - exists [], ll. split; [intros str; by rewrite app_nil_r|]. split; [done|]. split; [|done].
    intros s r. by rewrite app_nil_r.
  - destruct (encode_char_ok p) as (t & Et & Hl & Hp & Hd). unfold char_col, QUOPRINT_LINELEN in *.
    assert (forall s r, decode_loop s [] (t ++ r) = decode_loop (s ++ [p]) [] r) as Hdec.
    { intros s r. by rewrite decode_loop_app, decode_loop_prefix, Hd. }
    assert (forall r, lines_fit (76 + 1) ll (t ++ r) = lines_fit (76 + 1) (ll + Z.of_nat (length t)) r) as Hfit.
    { intros r. apply plain_fit; [done|]. lia. }
    destruct (QUOPRINT_LINELEN <? ll + Z.of_nat (length t) + 3) eqn:El; unfold QUOPRINT_LINELEN in El.
    + destruct (IH 0) as (u & ll' & Eu & Hll' & Hu & Hf); [lia|]. exists (t ++ [equals; newline] ++ u), ll'.
      split; [|split; [done|split]].
      * intros str. cbn [encode_bytes]. rewrite Et. cbn [mbind outcome_bind]. unfold QUOPRINT_LINELEN. rewrite El, Eu.
        by rewrite <- !app_assoc.
      * intros s r. by rewrite <- !app_assoc, Hdec, soft_newline, Hu, <- app_assoc.
      * intros r. rewrite <- !app_assoc, Hfit, soft_newline_fits, Hf; [done|]. lia.
    + destruct (IH (ll + Z.of_nat (length t))) as (u & ll' & Eu & Hll' & Hu & Hf); [lia|]. exists (t ++ u), ll'.
      split; [|split; [done|split]].
      * intros str. cbn [encode_bytes]. rewrite Et. cbn [mbind outcome_bind]. unfold QUOPRINT_LINELEN. rewrite El, Eu.
        by rewrite <- !app_assoc.
      * intros s r. by rewrite <- !app_assoc, Hdec, Hu, <- app_assoc.
      * intros r. by rewrite <- !app_assoc, Hfit, Hf.
Qed.

Lemma quoprint_string_ok str : exists text, svn_quoprint_encode_string str = Ok text /\
  lines_fit (QUOPRINT_LINELEN + 1) 0 text = true /\ svn_quoprint_decode_string text = Ok str.
Proof.
  destruct (encode_bytes_ok str 0) as (t & ll & Et & Hll & Hd & Hf); [done|].
  assert (exists u, (if 0 <? ll then t ++ [equals; newline] else t) = t ++ u /\
    lines_fit (QUOPRINT_LINELEN + 1) ll u = true /\ forall s, decode_loop s [] u = Ok (s, [])) as (u & Eu & Hu & Hdu).
  { destruct (0 <? ll); [exists [equals; newline]|exists []; by rewrite app_nil_r].
    split; [done|]. split; [|done]. change [equals; newline] with ([equals; newline] ++ []).
    rewrite soft_newline_fits; [done|]. unfold char_col in Hll. lia. }
  exists (t ++ u). unfold svn_quoprint_encode_string. rewrite Et. cbn [mbind outcome_bind app]. split; [by rewrite Eu|].
  split; [by rewrite Hf|]. unfold svn_quoprint_decode_string. rewrite (decode_bytes_whole _ _ str); [done|].
  by rewrite Hd, Hdu.
Qed.

(** ** The streams *)

Section streams.
Context {C : Type} (f : stream_fns C) `{!WritableStream f}.

Definition decoder : stream_fns (decode_baton C) :=
  mk_fns None (Some (decode_data (Ok NUL))) (Some finish_decoding_data).
Definition encoder : stream_fns (encode_baton (decode_baton C)) :=
  mk_fns None (Some encode_data) (Some finish_encoding_data).

(** A decoding stream that is given whole escapes. *)
Lemma decoder_write c t d : decode_loop [] [] t = Ok (d, []) -> exists c',
  write_nonempty (Ok tt) (mk_stream (mk_dec (mk_stream c f) []) decoder) t =
    (Ok tt, mk_stream (mk_dec (mk_stream c' f) []) decoder) /\ stream_written c' = stream_written c ++ d.
Proof.
  intros E. destruct t as [|x t].
  - injection E as <-. exists c. by rewrite app_nil_r.
  - cbn [write_nonempty]. unfold svn_stream_write. cbn [decoder fns write_fn baton]. unfold decode_data.
    cbn [dbuf doutput]. rewrite (decode_bytes_whole _ _ d E).
    destruct (write_nonempty_ok f c d) as (c' & -> & Hc). by exists c'.
Qed.

Lemma quoprint_chunks chunks : forall c ll, char_col ll -> exists c' ll', char_col ll' /\
  write_all (mk_stream (mk_enc (mk_stream (mk_dec (mk_stream c f) []) decoder) ll) encoder) chunks =
    (Ok tt, mk_stream (mk_enc (mk_stream (mk_dec (mk_stream c' f) []) decoder) ll') encoder) /\
  stream_written c' = stream_written c ++ concat chunks.
Proof.
  induction chunks as [|d chunks IH]; intros c ll Hll; cbn [concat write_all].
  - exists c, ll. by rewrite app_nil_r.
  - destruct (encode_bytes_ok d ll Hll) as (t & ll1 & Et & Hll1 & Hd & _).
    specialize (Hd [] []). rewrite app_nil_r in Hd. destruct (decoder_write c t d Hd) as (c1 & E1 & H1).
    unfold svn_stream_write. cbn [encoder fns write_fn baton]. unfold encode_data. cbn [linelen output].
    rewrite Et. cbn [app]. rewrite E1. destruct (IH c1 ll1 Hll1) as (c2 & ll2 & H2 & E2 & Hc2).
    exists c2, ll2. split; [done|]. split; [exact E2|]. by rewrite Hc2, H1, <- app_assoc.
Qed.

Lemma encode_then_decode c chunks : exists eb db c',
  write_and_close (svn_quoprint_encode (svn_quoprint_decode (Ok NUL) (mk_stream c f))) chunks =
    (Ok tt, mk_stream eb encoder) /\
  output eb = mk_stream db decoder /\ doutput db = mk_stream c' f /\ stream_written c' = stream_written c ++ concat chunks.
Proof.
  destruct (quoprint_chunks chunks c 0) as (c1 & ll & Hll & E & Hc); [done|].
  assert (exists s, (if 0 <? ll then svn_stream_write (mk_stream (mk_dec (mk_stream c1 f) []) decoder) [equals; newline]
    else (Ok tt, mk_stream (mk_dec (mk_stream c1 f) []) decoder)) = (Ok tt, mk_stream (mk_dec (mk_stream s f) []) decoder) /\
    stream_written s = stream_written c1) as (c2 & E2 & Hc2).
  { destruct (0 <? ll); [|by exists c1]. destruct (decoder_write c1 [equals; newline] [] eq_refl) as (c2 & E2 & Hc2).
    exists c2. split; [exact E2|]. by rewrite Hc2, app_nil_r. }
  destruct (stream_close_ok c2) as (c3 & E3 & Hc3).
  exists (mk_enc (mk_stream (mk_dec (mk_stream c3 f) []) decoder) ll), (mk_dec (mk_stream c3 f) []), c3.
  split; [|split; [done|split; [done|by rewrite Hc3, Hc2, Hc]]]. unfold write_and_close.
  change (svn_quoprint_encode _) with (mk_stream (mk_enc (mk_stream (mk_dec (mk_stream c f) []) decoder) 0) encoder).
  rewrite E. unfold svn_stream_close at 1. cbn [encoder fns close_fn baton]. unfold finish_encoding_data.
  cbn [linelen output]. rewrite E2. unfold svn_stream_close. cbn [decoder fns close_fn baton].
  unfold finish_decoding_data. cbn [dbuf doutput]. rewrite E3. done.
Qed.
End streams.

(** Whether something was written, and what. *)
Definition decoded_pieces (chunks : list bytes) : bytes :=
  baton (doutput (baton (write_and_close (svn_quoprint_decode (Ok NUL) (mk_stream [] mem_writer)) chunks).2)).

(** A line of a text that is too long. *)
Definition long_line : bytes := replicate 73 (zb 97) ++ [equals].

(** Quoted-printable gives every byte string back: decoding the text of a string
    gives the string, and so does writing it, in any pieces, to an encoding stream
    that writes to a decoding stream.  The text has no characters that are special
    in XML, and lines of at most 77 characters: the limit of 76 that the code means
    to observe is exceeded by one.  The decoding stream does depend on how its
    input is cut: an escape that is cut is decoded with the byte after the piece. *)
Theorem quoprint_roundtrip {C} (f : stream_fns C) `{!WritableStream f} str (c : C) :
  (exists text, svn_quoprint_encode_string str = Ok text /\ lines_fit (QUOPRINT_LINELEN + 1) 0 text = true /\
     svn_quoprint_decode_string text = Ok str) /\
  (forall chunks, concat chunks = str -> exists eb db c',
     write_and_close (svn_quoprint_encode (svn_quoprint_decode (Ok NUL) (mk_stream c f))) chunks =
       (Ok tt, mk_stream eb (encoder (C := C))) /\
     output eb = mk_stream db decoder /\ doutput db = mk_stream c' f /\ stream_written c' = stream_written c ++ str) /\
  (lines_fit QUOPRINT_LINELEN 0 <$> svn_quoprint_encode_string long_line) = Ok false /\
  decoded_pieces [bstr "=41"] = bstr "A" /\ decoded_pieces [bstr "=4"; bstr "1"] = bstr "P1".
Proof.
  split; [apply quoprint_string_ok|]. split; [intros chunks <-; apply encode_then_decode|].
  split; [by vm_compute|]. split; by vm_compute.
Qed.

(** ** A witness *)

Lemma quoprint_roundtrip_witness : exists eb db,
  write_and_close (svn_quoprint_encode (svn_quoprint_decode (Ok NUL) (mk_stream [] mem_writer))) [bstr "a<"; bstr "=b"] =
    (Ok tt, mk_stream eb (encoder (C := bytes))) /\
  output eb = mk_stream db decoder /\ doutput db = mk_stream (bstr "a<=b") mem_writer.
Proof.
  destruct (quoprint_roundtrip mem_writer (bstr "a<=b") ([] : bytes)) as (_ & H & _).
  destruct (H [bstr "a<"; bstr "=b"] eq_refl) as (eb & db & c' & E & Eo & Ed & Hc). exists eb, db.
  split; [exact E|]. split; [exact Eo|]. rewrite Ed. f_equal. exact Hc.
Defined.
