(* ===== verification/Translate.v ===== *)
(** * Keywords and line endings ([libsvn_wc/translate.c])

    Copying a file while its line endings are converted and its keywords expanded or
    contracted.  The files are those of [Apr].  A keyword buffer is given by the
    bytes it holds; writing behind its end is [Undef].  The properties of a
    versioned file, which say what to translate, are arguments here. *)

From S2P Require Import Prelude KeyGen Libc Apr SvnString Path.

Definition SVN_KEYWORD_MAX_LEN : nat := 255.
Definition SVN_KEYWORD_REVISION_LONG : bytes := bstr "LastChangedRevision".
Definition SVN_KEYWORD_REVISION_SHORT : bytes := bstr "Rev".
Definition SVN_KEYWORD_DATE_LONG : bytes := bstr "LastChangedDate".
Definition SVN_KEYWORD_DATE_SHORT : bytes := bstr "Date".
Definition SVN_KEYWORD_AUTHOR_LONG : bytes := bstr "LastChangedBy".
Definition SVN_KEYWORD_AUTHOR_SHORT : bytes := bstr "Author".
Definition SVN_KEYWORD_URL_LONG : bytes := bstr "HeadURL".
Definition SVN_KEYWORD_URL_SHORT : bytes := bstr "URL".

Definition dollar : byte := zb 36.
Definition colon : byte := zb 58.
Definition space : byte := zb 32.
Definition LF : byte := zb 10.
Definition CR : byte := zb 13.

(** The values of the keywords: [None] where a keyword is not to be translated. *)
Record svn_wc_keywords_t := mk_keywords {
  revision : option bytes;
  date : option bytes;
  author : option bytes;
  url : option bytes;
}.

(** ** Keywords *)

(** [strncpy]: the value up to a null byte, filled up with null bytes. *)
Definition strncpy (s : bytes) (n : nat) : bytes :=
  let s := take n (take (strlen s) s) in s ++ replicate (n - length s) NUL.

(** What the buffer holds after the writes. *)
Definition in_buffer (text : bytes) : outcome bytes :=
  if (length text <=? SVN_KEYWORD_MAX_LEN)%nat then Ok text else Undef.

Definition expanded (keyword value : bytes) : bytes :=
  if (length value =? 0)%nat then [dollar] ++ keyword ++ [colon; space; dollar]
  else
    let vallen := Nat.min (length value) (SVN_KEYWORD_MAX_LEN - 5) in
    [dollar] ++ keyword ++ [colon; space] ++ strncpy value vallen ++ [space; dollar].

(** [None]: this is not the keyword. *)
Definition translate_keyword_subst (buf keyword : bytes) (value : option bytes) : outcome (option bytes) :=
  let len := length buf in
  let keyword_len := length keyword in
  c_assert (len <=? SVN_KEYWORD_MAX_LEN)%nat;;
  c_assert (bool_decide (head buf = Some dollar) && bool_decide (list.last buf = Some dollar));;
  if (len <? keyword_len + 2)%nat then Ok None
  else if negb (bool_decide (take keyword_len (drop 1 buf) = keyword)) then Ok None
  else
    c0 ← rd buf (1 + keyword_len);
    if bool_decide (c0 = dollar) then
      match value with
      | Some value => text ← in_buffer (expanded keyword value); Ok (Some text)
      | None => Ok (Some buf)
      end
    else if (4 + keyword_len <=? len)%nat && bool_decide (c0 = colon)
            && bool_decide (buf !! (2 + keyword_len)%nat = Some space) && bool_decide (buf !! (len - 2)%nat = Some space)
    then
      match value with
      | None => Ok (Some ([dollar] ++ keyword ++ [dollar]))
      | Some value => text ← in_buffer (expanded keyword value); Ok (Some text)
      end
    else Ok None.

(** One keyword under its two names. *)
Definition translate_names (buf long short : bytes) (expand : bool) (value : option bytes) : outcome (option bytes) :=
  match value with
  | None => Ok None
  | Some value =>
      let value := if expand then Some value else None in
      result ← translate_keyword_subst buf long value;
      match result with
      | Some buf => Ok (Some buf)
      | None => translate_keyword_subst buf short value
      end
  end.

Definition or_else (result : outcome (option bytes)) (next : outcome (option bytes)) : outcome (option bytes) :=
  r ← result; match r with Some buf => Ok (Some buf) | None => next end.

Definition translate_keyword (buf : bytes) (expand : bool) (keywords : option svn_wc_keywords_t) :
    outcome (option bytes) :=
  c_assert (length buf <=? SVN_KEYWORD_MAX_LEN)%nat;;
  c_assert (bool_decide (head buf = Some dollar) && bool_decide (list.last buf = Some dollar));;
  match keywords with
  | None => Ok None
  | Some keywords =>
      or_else (translate_names buf SVN_KEYWORD_REVISION_LONG SVN_KEYWORD_REVISION_SHORT expand (revision keywords))
      (or_else (translate_names buf SVN_KEYWORD_DATE_LONG SVN_KEYWORD_DATE_SHORT expand (date keywords))
      (or_else (translate_names buf SVN_KEYWORD_AUTHOR_LONG SVN_KEYWORD_AUTHOR_SHORT expand (author keywords))
      (translate_names buf SVN_KEYWORD_URL_LONG SVN_KEYWORD_URL_SHORT expand (url keywords))))
  end.

Definition no_keywords (k : svn_wc_keywords_t) : bool :=
  match k with mk_keywords None None None None => true | _ => false end.

(** One field of the two: whether both have a value, and the values up to a null
    byte. *)
Definition values_differ (compare_values : bool) (a b : option bytes) : bool :=
  match a, b with
  | None, None => false
  | Some a, Some b => compare_values && negb (bool_decide (take (strlen a) a = take (strlen b) b))
  | _, _ => true
  end.

Definition svn_wc_keywords_differ (a b : option svn_wc_keywords_t) (compare_values : bool) : bool :=
  match a, b with
  | None, None => false
  | None, Some b => negb (no_keywords b)
  | Some a, None => negb (no_keywords a)
  | Some a, Some b =>
      if no_keywords a && no_keywords b then false
      else values_differ compare_values (revision a) (revision b) || values_differ compare_values (date a) (date b)
           || values_differ compare_values (author a) (author b) || values_differ compare_values (url a) (url b)
  end.

(** ** The translation of a file *)

Section translate.
Context `{apr : !Apr}.

(** An error without a code when less was written than was given. *)
Definition translate_write (buf : bytes) : state_m writer unit := λ w,
  match apr_file_write w buf with
  | (Ok wrote, w) => if (wrote =? length buf)%nat then (Ok tt, w) else (Err (APR_ERR (APR_EOTHER 0)), w)
  | (Err e, w) => (Err e, w)
  | (Abort, w) => (Abort, w)
  | (Undef, w) => (Undef, w)
  end.

Context (eol_str : option bytes) (repair : bool) (keywords : option svn_wc_keywords_t) (expand : bool).

(** The variables of the loop.  [len] has no value at first. *)
Record scan := mk_scan {
  newline_buf : bytes;
  keyword_buf : bytes;
  src_format : bytes;
  len : option nat;
}.

(** The format that is remembered. *)
Definition translate_newline (src_format newline_buf : bytes) : state_m writer bytes :=
  let eol := default [] eol_str in
  if negb (length src_format =? 0)%nat then
    if negb repair && negb (bool_decide (src_format = newline_buf)) then lift (Err SVN_ERR_IO_INCONSISTENT_EOL)
    else translate_write eol;; mret src_format
  else translate_write eol;; mret newline_buf.

(** A newline that was collected ends here. *)
Definition flush_newline (st : scan) : state_m writer scan :=
  if (length (newline_buf st) =? 0)%nat then mret st
  else
    src_format ← translate_newline (src_format st) (newline_buf st);
    mret (mk_scan [] (keyword_buf st) src_format (len st)).

Definition at_dollar (c : byte) (st : scan) : state_m writer scan :=
  if negb (length (newline_buf st) =? 0)%nat then flush_newline st
  else
    match keywords with
    | None => translate_write [c];; mret st
    | Some _ =>
        let buf := keyword_buf st ++ [c] in
        if (length buf =? 1)%nat then mret (mk_scan (newline_buf st) buf (src_format st) (len st))
        else
          result ← lift (translate_keyword buf expand keywords);
          match result with
          | Some text =>
              translate_write text;;
              mret (mk_scan (newline_buf st) [] (src_format st) (Some (length text)))
          | None =>
              translate_write (keyword_buf st);;
              mret (mk_scan (newline_buf st) [c] (src_format st) (Some (length buf)))
          end
    end.

Definition at_newline (c : byte) (st : scan) : state_m writer scan :=
  let len := length (keyword_buf st) in
  (if negb (len =? 0)%nat then translate_write (keyword_buf st) else mret tt);;
  let st := mk_scan (newline_buf st) [] (src_format st) (Some len) in
  match eol_str with
  | None => translate_write [c];; mret st
  | Some _ =>
      match newline_buf st with
      | [] => mret (mk_scan [c] [] (src_format st) (Some len))
      | c0 :: _ =>
          if bool_decide (c0 = c) || (bool_decide (c0 = LF) && bool_decide (c = CR)) then
            src_format ← translate_newline (src_format st) [c0];
            mret (mk_scan [c] [] src_format (Some len))
          else
            src_format ← translate_newline (src_format st) (newline_buf st ++ [c]);
            mret (mk_scan [] [] src_format (Some len))
      end
  end.

Definition at_other (c : byte) (st : scan) : state_m writer scan :=
  match keyword_buf st with
  | [] => st ← flush_newline st; translate_write [c];; mret st
  | _ =>
      let buf := keyword_buf st ++ [c] in
      if (SVN_KEYWORD_MAX_LEN <=? length buf)%nat then
        len' ← lift (match len st with Some len => Ok len | None => Undef end);
        translate_write (take len' buf);;
        mret (mk_scan (newline_buf st) [] (src_format st) (len st))
      else mret (mk_scan (newline_buf st) buf (src_format st) (len st))
  end.

Definition translate_byte (c : byte) (st : scan) : state_m writer scan :=
  if byte_eq_dec c dollar then at_dollar c st
  else if byte_eq_dec c LF then at_newline c st
  else if byte_eq_dec c CR then at_newline c st
  else at_other c st.

(** At the end of the source. *)
Definition translate_eof (st : scan) : state_m writer unit :=
  st ← flush_newline st;
  if (length (keyword_buf st) =? 0)%nat then mret tt else translate_write (keyword_buf st).

(** The loop: at most [n] turns, [None] if they do not suffice.  The files are given
    back with the outcome. *)
Fixpoint translate_loop (n : nat) (st : scan) (s : reader) (d : writer) : option (outcome unit * reader * writer) :=
  match n with
  | O => None
  | S n =>
      match apr_file_getc s with
      | (Ok c, s) =>
          match translate_byte c st d with
          | (Ok st, d) => translate_loop n st s d
          | (Err e, d) => Some (Err e, s, d)
          | (Abort, d) => Some (Abort, s, d)
          | (Undef, d) => Some (Undef, s, d)
          end
      | (Err (APR_ERR APR_EOF), s) => let '(r, d) := translate_eof st d in Some (r, s, d)
      | (Err e, s) => Some (Err e, s, d)
      | (Abort, s) => Some (Abort, s, d)
      | (Undef, s) => Some (Undef, s, d)
      end
  end.

(** [cleanup]: [d] is [None] when its closing failed; errors are dropped. *)
Definition cleanup (dst : bytes) (d : option writer) (err : svn_errno) : state_m disk unit := λ dk,
  let dk := match d with Some d => snd (apr_close_write d dk) | None => dk end in
  (Err err, snd (apr_file_remove dst dk)).

Definition svn_wc_copy_and_translate (n : nat) (src dst : bytes) (dk : disk) : option (outcome unit * disk) :=
  match eol_str, keywords with
  | None, None => Some (apr_file_copy false src dst dk)
  | _, _ =>
      match apr_open_read src dk with
      | Ok s =>
          match apr_open_write dst dk with
          | (Ok d, dk) =>
              '(r, s, d) ← translate_loop n (mk_scan [] [] [] None) s d;
              Some match r with
              | Ok _ =>
                  match apr_close_read s with
                  | Ok _ =>
                      match apr_close_write d dk with
                      | (Err e, dk) => cleanup dst None e dk
                      | (r, dk) => (r, dk)
                      end
                  | Err e => cleanup dst (Some d) e dk
                  | Abort => (Abort, dk)
                  | Undef => (Undef, dk)
                  end
              | Err e => cleanup dst (Some d) e dk
              | Abort => (Abort, dk)
              | Undef => (Undef, dk)
              end
          | (Err e, dk) => Some (Err e, dk)
          | (Abort, dk) => Some (Abort, dk)
          | (Undef, dk) => Some (Undef, dk)
          end
      | Err e => Some (Err e, dk)
      | Abort => Some (Abort, dk)
      | Undef => Some (Undef, dk)
      end
  end.
End translate.

(** ** What is written *)

Section runs.
Context `{apr : !Apr} `{laws : !AprLaws}.

(** [m] writes [out] and has the outcome [r]. *)
Definition runs {A} (m : state_m writer A) (r : outcome A) (out : bytes) : Prop :=
  forall w, exists w', m w = (r, w') /\ goes_to w' = goes_to w /\ written w' = written w ++ out.

Lemma runs_write buf : runs (translate_write buf) (Ok tt) buf.
Proof.
  intros w. destruct (write_ok w buf) as (w' & E & H). exists w'. split; [|done]. unfold translate_write.
  by rewrite E, Nat.eqb_refl.
Qed.

Lemma runs_lift {A} (r : outcome A) : runs (lift r) r [].
Proof. intros w. exists w. by rewrite app_nil_r. Qed.

Lemma runs_ret {A} (a : A) : runs (mret a) (Ok a) [].
Proof. apply (runs_lift (Ok a)). Qed.

Lemma runs_bind {A B} (m : state_m writer A) (f : A -> state_m writer B) a o1 r o2 :
  runs m (Ok a) o1 -> runs (f a) r o2 -> runs (m ≫= f) r (o1 ++ o2).
Proof.
  intros H1 H2 w. destruct (H1 w) as (w1 & E1 & D1 & W1). destruct (H2 w1) as (w2 & E2 & D2 & W2). exists w2.
  rewrite (state_bind_step _ _ _ _ _ E1). split; [done|]. split; [by rewrite D2|]. by rewrite W2, W1, app_assoc.
Qed.

Lemma runs_bind_err {A B} (m : state_m writer A) (f : A -> state_m writer B) e o :
  runs m (Err e) o -> runs (m ≫= f) (Err e) o.
Proof. intros H w. destruct (H w) as (w1 & E1 & D1). exists w1. unfold mbind, state_bind. by rewrite E1. Qed.

Lemma runs_eq {A} (m : state_m writer A) r o o' : runs m r o -> o = o' -> runs m r o'.
Proof. by intros H <-. Qed.

(** [outs st s r]: with the bytes [s] left, the loop writes so much and ends. *)
Context (eol_str : option bytes) (repair : bool) (keywords : option svn_wc_keywords_t) (expand : bool).

Inductive outs : scan -> bytes -> outcome unit -> bytes -> Prop :=
  | Outs_end st r o : runs (translate_eof eol_str repair st) r o -> outs st [] r o
  | Outs_step st c s st' o1 r o2 : runs (translate_byte eol_str repair keywords expand c st) (Ok st') o1 ->
      outs st' s r o2 -> outs st (c :: s) r (o1 ++ o2)
  | Outs_err st c s e o : runs (translate_byte eol_str repair keywords expand c st) (Err e) o ->
      outs st (c :: s) (Err e) o.

Lemma loop_outs st x r o : outs st x r o -> forall n s d, left_ s = x -> (length x < n)%nat ->
  exists s' d', translate_loop eol_str repair keywords expand n st s d = Some (r, s', d') /\
    goes_to d' = goes_to d /\ written d' = written d ++ o.
Proof.
  induction 1 as [st r o H|st c x st' o1 r o2 H Ho IH|st c x e o H]; intros [|n] s d Hs Hn; cbn [length] in Hn; try lia;
    cbn [translate_loop]; destruct (getc_ok s) as (s1 & E1 & H1); rewrite Hs in E1, H1; rewrite E1.
  - destruct (H d) as (d1 & E & Hd). rewrite E. by exists s1, d1.
  - destruct (H d) as (d1 & E & Hd & Hw). rewrite E. destruct (IH n s1 d1 H1 ltac:(lia)) as (s2 & d2 & E2 & Hd2 & Hw2).
    exists s2, d2. split; [done|]. split; [by rewrite Hd2|]. by rewrite Hw2, Hw, app_assoc.
  - destruct (H d) as (d1 & E & Hd). rewrite E. by exists s1, d1.
Qed.

(** The whole function, when something is translated. *)
Lemma copy_outs n src dst dk x r o : (eol_str <> None \/ keywords <> None) -> src <> dst -> file_at dk src = Some x ->
  (length x < n)%nat -> outs (mk_scan [] [] [] None) x r o -> (r = Ok tt \/ exists e, r = Err e) ->
  exists dk', svn_wc_copy_and_translate eol_str repair keywords expand n src dst dk = Some (r, dk') /\
    file_at dk' dst = (if r is Ok _ then Some o else None) /\
    forall q, q <> dst -> file_at dk' q = file_at dk q.
Proof.
  intros Hne Hsrc Hx Hn Ho Hr.
  destruct (open_read_ok dk src x Hx) as (s & Es & Hs). destruct (open_write_ok dk dst) as (d & dk1 & Ed & Hd & Hw & Hk1).
  destruct (loop_outs _ _ _ _ Ho n s d Hs Hn) as (s' & d' & El & Hd' & Hw'). rewrite Hd in Hd'. rewrite Hw in Hw'.
  destruct (close_write_ok d' dk1) as (dk2 & Ec & Hf & Hk2). rewrite Hd' in Hf, Hk2. rewrite Hw' in Hf.
  assert (forall q, q <> dst -> file_at dk2 q = file_at dk q) as Hk by (intros q Hq; by rewrite Hk2, Hk1).
  assert (svn_wc_copy_and_translate eol_str repair keywords expand n src dst dk =
    Some match r with Ok _ => (Ok tt, dk2) | Err e => cleanup dst (Some d') e dk1 | r => (r, dk1) end) as ->.
  { unfold svn_wc_copy_and_translate. destruct eol_str, keywords; try (by destruct Hne);
      rewrite Es, Ed, El; destruct Hr as [->|[e ->]]; cbn [mbind option_bind]; by rewrite ?close_read_ok, ?Ec. }
  destruct Hr as [->|[e ->]]; [by exists dk2|]. unfold cleanup. rewrite Ec. cbn [snd].
  destruct (remove_ok dk2 dst) as (dk3 & -> & Hf3 & Hk3). exists dk3. split; [done|]. split; [done|].
  intros q Hq. by rewrite Hk3, Hk.
Qed.
End runs.

(** ** Line endings *)

Inductive piece := Char (c : byte) | Newline (nl : bytes).

(** The text as characters and newlines, CR LF being one. *)
Fixpoint pieces (s : bytes) : list piece :=
  match s with
  | [] => []
  | c :: s1 =>
      if byte_eq_dec c LF then Newline [LF] :: pieces s1
      else if byte_eq_dec c CR then
        match s1 with
        | c1 :: s2 => if byte_eq_dec c1 LF then Newline [CR; LF] :: pieces s2 else Newline [CR] :: pieces s1
        | [] => [Newline [CR]]
        end
      else Char c :: pieces s1
  end.

(** The dollar sign that follows a newline of one character. *)
Definition lost_dollar (nl : bytes) (ps : list piece) : list piece :=
  match ps with
  | Char c :: ps' => if bool_decide (c = dollar) && (length nl =? 1)%nat then ps' else ps
  | _ => ps
  end.

Section eol.
Context (eol : bytes) (repair expand : bool).

(** [fmt]: the first newline of the file, or nothing. *)
Fixpoint convert (fmt : bytes) (ps : list piece) : outcome bytes :=
  match ps with
  | [] => Ok []
  | Char c :: ps => out ← convert fmt ps; Ok (c :: out)
  | Newline nl :: ps =>
      if repair || bool_decide (fmt = []) || bool_decide (fmt = nl) then
        let fmt := if (length fmt =? 0)%nat then nl else fmt in
        out ← match ps with
              | Char c :: ps' => if bool_decide (c = dollar) && (length nl =? 1)%nat then convert fmt ps' else convert fmt ps
              | _ => convert fmt ps
              end;
        Ok (eol ++ out)
      else Err SVN_ERR_IO_INCONSISTENT_EOL
  end.

Lemma convert_newline fmt nl ps : convert fmt (Newline nl :: ps) =
  if repair || bool_decide (fmt = []) || bool_decide (fmt = nl) then
    out ← convert (if (length fmt =? 0)%nat then nl else fmt) (lost_dollar nl ps); Ok (eol ++ out)
  else Err SVN_ERR_IO_INCONSISTENT_EOL.
Proof.
  unfold lost_dollar. cbn [convert]. destruct ps as [|[c|nl0] ps]; [done| |done].
  destruct (bool_decide (c = dollar) && (length nl =? 1)%nat); done.
Qed.

Context `{apr : !Apr} `{laws : !AprLaws}.

Definition eol_outs := outs (Some eol) repair None expand.

(** A newline that is written. *)
Lemma runs_newline fmt nl :
  runs (translate_newline (Some eol) repair fmt nl)
    (if repair || bool_decide (fmt = []) || bool_decide (fmt = nl) then Ok (if (length fmt =? 0)%nat then nl else fmt)
     else Err SVN_ERR_IO_INCONSISTENT_EOL)
    (if repair || bool_decide (fmt = []) || bool_decide (fmt = nl) then eol else []).
Proof.
  assert (forall b : bytes, runs (translate_write eol;; mret b) (Ok b) eol) as Hw.
  { intros b. eapply runs_eq; [eapply runs_bind; [apply runs_write|apply runs_ret]|]. apply app_nil_r. }
  unfold translate_newline. cbn [default from_option id]. destruct fmt as [|c fmt]; cbn [length Nat.eqb negb].
  - rewrite (bool_decide_true ([] = [])), orb_true_r by done. apply Hw.
  - rewrite (bool_decide_false (c :: fmt = [])) by done. destruct repair; cbn [negb andb orb]; [apply Hw|].
    case_bool_decide; cbn [negb]; [apply Hw|]. apply (runs_lift (Err _)).
Qed.

Definition pending (nl : bytes) : Prop := nl = [] \/ nl = [LF] \/ nl = [CR].

Definition state (nl fmt : bytes) (len : option nat) : scan := mk_scan nl [] fmt len.

(** What the rest of the loop has to write: nothing is said of what is written
    before an error. *)
Definition finishes (st : scan) (s : bytes) (res : outcome bytes) : Prop :=
  match res with
  | Ok out => eol_outs st s (Ok tt) out
  | Err e => exists out, eol_outs st s (Err e) out
  | _ => False
  end.

Lemma finishes_step st c s st' o res :
  runs (translate_byte (Some eol) repair None expand c st) (Ok st') o -> finishes st' s res ->
  finishes st (c :: s) (out ← res; Ok (o ++ out)).
Proof.
  intros H. destruct res as [out|e| |]; cbn [finishes mbind outcome_bind]; [by apply Outs_step| |done..].
  intros [out Ho]. exists (o ++ out). by eapply Outs_step.
Qed.

Lemma finishes_err st c s o e : runs (translate_byte (Some eol) repair None expand c st) (Err e) o ->
  finishes st (c :: s) (Err e).
Proof. intros H. exists o. by apply Outs_err. Qed.

Lemma char_piece c s : c <> LF -> c <> CR -> pieces (c :: s) = Char c :: pieces s.
Proof. intros H1 H2. cbn [pieces]. destruct (byte_eq_dec c LF); [done|]. by destruct (byte_eq_dec c CR). Qed.

(** A newline of one character that was collected, when something else follows. *)
Lemma pending_pieces nl s : pending nl -> (head s = Some LF -> nl <> [CR]) ->
  pieces (nl ++ s) = (if (length nl =? 0)%nat then [] else [Newline nl]) ++ pieces s.
Proof.
  intros [-> |[-> | ->]] Hs; [done|done|]. cbn [app length Nat.eqb]. cbn [pieces].
  destruct (byte_eq_dec CR LF); [done|]. destruct (byte_eq_dec CR CR); [|done].
  destruct s as [|c s]; [done|]. destruct (byte_eq_dec c LF) as [->|]; [|done]. by destruct (Hs eq_refl).
Qed.

Lemma runs_flush nl fmt len : pending nl ->
  runs (flush_newline (Some eol) repair (state nl fmt len))
    (if (length nl =? 0)%nat || repair || bool_decide (fmt = []) || bool_decide (fmt = nl)
     then Ok (state [] (if (length fmt =? 0)%nat then nl else fmt) len) else Err SVN_ERR_IO_INCONSISTENT_EOL)
    (if (length nl =? 0)%nat then [] else if repair || bool_decide (fmt = []) || bool_decide (fmt = nl) then eol else []).
Proof.
  intros Hnl. unfold flush_newline. cbn [state newline_buf src_format keyword_buf].
  destruct (Nat.eqb_spec (length nl) 0) as [E|E].
  - destruct nl; [|done]. cbn [orb]. destruct fmt; apply runs_ret.
  - cbn [orb]. pose proof (runs_newline fmt nl) as H. destruct (repair || bool_decide (fmt = []) || bool_decide (fmt = nl)).
    + eapply runs_eq; [eapply runs_bind; [exact H|apply runs_ret]|]. apply app_nil_r.
    + eapply runs_bind_err, H.
Qed.

Lemma ok_app_nil (res : outcome bytes) : res = (out ← res; Ok ([] ++ out)).
Proof. by destruct res. Qed.

Lemma newline_pieces c s : c = LF \/ c = CR -> exists nl ps, pieces (c :: s) = Newline nl :: ps.
Proof.
  intros Hc. cbn [pieces]. destruct (byte_eq_dec c LF); [by eexists _, _|]. destruct (byte_eq_dec c CR).
  - destruct s as [|c1 s2]; [by eexists _, _|]. destruct (byte_eq_dec c1 LF); by eexists _, _.
  - by destruct Hc.
Qed.

(** The newlines before this one. *)
Lemma eol_at_newline c s nl fmt len : c = LF \/ c = CR -> pending nl ->
  (forall nl' fmt' len', pending nl' -> finishes (state nl' fmt' len') s (convert fmt' (pieces (nl' ++ s)))) ->
  finishes (state nl fmt len) (c :: s) (convert fmt (pieces (nl ++ c :: s))).
Proof.
  intros Hc Hnl IH. assert (pending [c]) as Hpc by (destruct Hc as [-> | ->]; right; first [by left|by right]).
  assert (forall st o r, runs (at_newline (Some eol) repair c st) r o -> runs (translate_byte (Some eol) repair None expand c st) r o) as Hb.
  { intros st o r H. unfold translate_byte. destruct (byte_eq_dec c dollar) as [->|]; [by destruct Hc|].
    destruct (byte_eq_dec c LF); [done|]. destruct (byte_eq_dec c CR); [done|]. by destruct Hc. }
  destruct nl as [|c0 nl].
  - cbn [app]. rewrite (ok_app_nil (convert fmt _)). eapply finishes_step; [|apply (IH [c] fmt (Some 0%nat) Hpc)].
    apply Hb. unfold at_newline. cbn [state keyword_buf newline_buf src_format length Nat.eqb negb].
    eapply runs_eq; [eapply runs_bind; [apply runs_ret|apply runs_ret]|done].
  - assert (nl = []) as -> by (destruct Hnl as [|[|]]; congruence).
    assert (c0 = LF \/ c0 = CR) as Hc0 by (destruct Hnl as [|[|]]; [done|left; congruence|right; congruence]).
    set (same := bool_decide (c0 = c) || (bool_decide (c0 = LF) && bool_decide (c = CR))).
    set (nl := if same then [c0] else [c0; c]). set (nl' := if same then [c] else []).
    assert (pieces ([c0] ++ c :: s) = Newline nl :: pieces (nl' ++ s) /\ lost_dollar nl (pieces (nl' ++ s)) = pieces (nl' ++ s))
      as [Hp Hl].
    { unfold nl, nl'. destruct same eqn:Es; unfold same in Es.
      - destruct (newline_pieces c s Hc) as (n1 & ps & En). cbn [app]. rewrite En. split; [|done]. rewrite <- En.
        cbn [pieces]. destruct (byte_eq_dec c0 LF) as [->|H0]; [done|]. destruct (byte_eq_dec c0 CR) as [->|]; [|by destruct Hc0].
        destruct (byte_eq_dec c LF) as [->|]; [|done]. done.
      - apply orb_false_iff in Es as [E1%bool_decide_eq_false E2]. apply andb_false_iff in E2.
        rewrite !bool_decide_eq_false in E2. assert (c0 = CR /\ c = LF) as [-> ->].
        { destruct Hc as [-> | ->], Hc0 as [-> | ->]; try done; by destruct E2. }
        cbn [app pieces]. destruct (byte_eq_dec CR LF); [done|]. destruct (byte_eq_dec CR CR); [|done].
        destruct (byte_eq_dec LF LF); [|done]. split; [done|]. unfold lost_dollar. destruct (pieces s) as [|[c1|n1] ps]; [done| |done].
        by rewrite andb_false_r. }
    rewrite Hp, convert_newline, Hl. pose proof (runs_newline fmt nl) as Hr.
    assert (pending nl') as Hnl' by (unfold nl'; destruct same; [done|by left]).
    assert (forall o r, runs (fmt' ← translate_newline (Some eol) repair fmt nl; mret (state nl' fmt' (Some 0%nat))) r o ->
      runs (translate_byte (Some eol) repair None expand c (state [c0] fmt len)) r o) as Hb2.
    { intros o r H. apply Hb. unfold at_newline. cbn [state keyword_buf newline_buf src_format length Nat.eqb negb].
      eapply runs_eq; [eapply (runs_bind _ _ tt []); [apply runs_ret|]|done]. fold same. unfold nl, nl' in H.
      destruct same; exact H. }
    destruct (repair || bool_decide (fmt = []) || bool_decide (fmt = nl)).
    + eapply finishes_step; [|apply (IH nl' _ (Some 0%nat) Hnl')]. apply Hb2.
      eapply runs_eq; [eapply runs_bind; [exact Hr|apply runs_ret]|]. apply app_nil_r.
    + eapply finishes_err. apply Hb2. eapply runs_bind_err, Hr.
Qed.

Lemma translate_eol s : forall nl fmt len, pending nl -> finishes (state nl fmt len) s (convert fmt (pieces (nl ++ s))).
Proof.
  induction s as [|c s IH]; intros nl fmt len Hnl.
  - rewrite (pending_pieces nl []) by done. change (pieces []) with (@nil piece). rewrite app_nil_r.
    pose proof (runs_flush nl fmt len Hnl) as Hf. destruct (Nat.eqb_spec (length nl) 0) as [E|E].
    + destruct nl; [|done]. cbn [convert finishes]. apply Outs_end. unfold translate_eof.
      eapply runs_eq; [eapply runs_bind; [exact Hf|apply runs_ret]|]. done.
    + rewrite convert_newline. cbn [orb] in Hf. destruct (repair || bool_decide (fmt = []) || bool_decide (fmt = nl)).
      * cbn [lost_dollar convert mbind outcome_bind finishes]. apply Outs_end. unfold translate_eof.
        eapply runs_eq; [eapply runs_bind; [exact Hf|apply runs_ret]|]. done.
      * cbn [finishes]. exists []. apply Outs_end. unfold translate_eof. eapply runs_bind_err, Hf.
  - destruct (decide (c = LF \/ c = CR)) as [Hc|Hc].
    + by apply eol_at_newline.
    + assert (c <> LF /\ c <> CR) as [Hlf Hcr] by (split; intros ->; apply Hc; first [by left|by right]).
      rewrite pending_pieces, (char_piece c s Hlf Hcr) by (done || (intros [= ->]; done)).
      pose proof (runs_flush nl fmt len Hnl) as Hf.
      destruct (Nat.eqb_spec (length nl) 0) as [E|E].
      * destruct nl; [|done]. cbn [app convert]. 
        apply (finishes_step _ _ _ (state [] fmt len) [c]); [|apply (IH [] fmt len); by left].
        unfold translate_byte. destruct (byte_eq_dec c dollar) as [->|Hd].
        -- unfold at_dollar. cbn [state newline_buf length Nat.eqb negb].
           eapply runs_eq; [eapply runs_bind; [apply runs_write|apply runs_ret]|done].
        -- destruct (byte_eq_dec c LF); [done|]. destruct (byte_eq_dec c CR); [done|]. unfold at_other.
           cbn [state keyword_buf]. eapply runs_eq; [eapply runs_bind; [apply runs_ret|eapply runs_bind; [apply runs_write|apply runs_ret]]|done].
      * assert (length nl = 1%nat) as Hl1 by (by destruct Hnl as [->|[-> | ->]]).
        cbn [app]. rewrite convert_newline. cbn [orb] in Hf. set (ok := repair || _ || _) in *.
        unfold translate_byte. unfold lost_dollar. rewrite Hl1. cbn [Nat.eqb]. rewrite andb_true_r.
        assert (forall r o, runs (if bool_decide (c = dollar) then flush_newline (Some eol) repair (state nl fmt len)
            else st ← flush_newline (Some eol) repair (state nl fmt len); translate_write [c];; mret st) r o ->
          runs (translate_byte (Some eol) repair None expand c (state nl fmt len)) r o) as Hb.
        { intros r o H. unfold translate_byte. destruct (byte_eq_dec c dollar) as [Hd|Hd].
          - rewrite bool_decide_true in H by done. unfold at_dollar. cbn [state newline_buf]. by rewrite Hl1.
          - rewrite bool_decide_false in H by done. destruct (byte_eq_dec c LF); [done|]. by destruct (byte_eq_dec c CR). }
        destruct ok.
        -- destruct (bool_decide (c = dollar)) eqn:Ed.
           ++ eapply finishes_step; [apply Hb; exact Hf|]. apply (IH []). by left.
           ++ cbn [convert]. set (fmt' := if (length fmt =? 0)%nat then nl else fmt) in *.
              replace (out ← (out ← convert fmt' (pieces s); Ok (c :: out)); Ok (eol ++ out))
                with (out ← convert fmt' (pieces s); Ok ((eol ++ [c]) ++ out)).
              2: { destruct (convert fmt' (pieces s)); try done. cbn [mbind outcome_bind]. by rewrite <- app_assoc. }
              eapply finishes_step; [apply Hb|apply (IH []); by left].
              eapply runs_bind; [exact Hf|]. eapply runs_eq; [eapply runs_bind; [apply runs_write|apply runs_ret]|done].
        -- eapply finishes_err. apply Hb. destruct (bool_decide (c = dollar)); [exact Hf|]. eapply runs_bind_err, Hf.
Qed.

(** ** Texts without dollar signs *)

Definition newlines (ps : list piece) : list bytes := omap (λ p, if p is Newline nl then Some nl else None) ps.

Definition uniform (ps : list piece) : bool :=
  match newlines ps with [] => true | nl :: l => forallb (λ nl', bool_decide (nl = nl')) l end.

Definition piece_text (p : piece) : bytes := match p with Char c => [c] | Newline _ => eol end.

Lemma pieces_chars s c : Char c ∈ pieces s -> c ∈ s.
Proof.
  revert s. refine (well_founded_induction (well_founded_ltof _ (@length byte)) _ _). intros s IH. unfold ltof in IH.
  destruct s as [|c0 s]; [intros H; by apply not_elem_of_nil in H|]. cbn [pieces].
  destruct (byte_eq_dec c0 LF); [|destruct (byte_eq_dec c0 CR)].
  - rewrite elem_of_cons. intros [[=]|H]. right. apply IH; [cbn; lia|done].
  - destruct s as [|c1 s2]; [intros H; apply elem_of_cons in H as [[=]|H]; by apply not_elem_of_nil in H|]. destruct (byte_eq_dec c1 LF);
      rewrite elem_of_cons; intros [[=]|H]; right; [right|]; (apply IH; [cbn; lia|done]).
  - rewrite elem_of_cons. intros [[= ->]|H]; [by left|]. right. apply IH; [cbn; lia|done].
Qed.

Lemma lost_dollar_none nl ps : Char dollar ∉ ps -> lost_dollar nl ps = ps.
Proof.
  destruct ps as [|[c|n] ps]; try done. intros H. unfold lost_dollar. rewrite bool_decide_false; [done|].
  intros ->. apply H. by left.
Qed.

Definition accepted (fmt : bytes) (nls : list bytes) : bool :=
  repair || match fmt, nls with
            | [], [] => true
            | [], nl :: l => forallb (λ nl', bool_decide (nl = nl')) l
            | _, _ => forallb (λ nl', bool_decide (fmt = nl')) nls
            end.

Lemma convert_plain ps : forall fmt, Char dollar ∉ ps -> [] ∉ newlines ps ->
  convert fmt ps = if accepted fmt (newlines ps) then Ok (concat (piece_text <$> ps)) else Err SVN_ERR_IO_INCONSISTENT_EOL.
Proof.
  induction ps as [|[c|nl] ps IH]; intros fmt Hd Hn.
  - unfold accepted. destruct repair, fmt; done.
  - apply not_elem_of_cons in Hd as [_ Hd]. cbn [convert]. rewrite (IH fmt Hd Hn). change (newlines (Char c :: ps)) with (newlines ps).
    by destruct (accepted fmt (newlines ps)).
  - apply not_elem_of_cons in Hd as [_ Hd]. change (newlines (Newline nl :: ps)) with (nl :: newlines ps) in *.
    apply not_elem_of_cons in Hn as [Hnl Hn]. rewrite convert_newline, lost_dollar_none, (IH _ Hd Hn) by done.
    unfold accepted. destruct repair; [done|]. cbn [orb]. destruct fmt as [|f0 fmt].
    + rewrite (bool_decide_true ([] = [])) by done. cbn [orb length Nat.eqb]. destruct nl; [done|].
      by destruct (forallb _ _).
    + rewrite (bool_decide_false (_ :: _ = [])) by done. cbn [orb length Nat.eqb forallb].
      destruct (bool_decide (f0 :: fmt = nl)); cbn [andb]; [|done]. by destruct (forallb _ _).
Qed.

Lemma pieces_newlines s : [] ∉ newlines (pieces s).
Proof.
  revert s. refine (well_founded_induction (well_founded_ltof _ (@length byte)) _ _). intros s IH. unfold ltof in IH.
  destruct s as [|c0 s]; [apply not_elem_of_nil|]. cbn [pieces].
  destruct (byte_eq_dec c0 LF); [|destruct (byte_eq_dec c0 CR)].
  - apply not_elem_of_cons. split; [done|]. apply IH. cbn. lia.
  - destruct s as [|c1 s2]; [apply not_elem_of_cons; split; [done|apply not_elem_of_nil]|].
    destruct (byte_eq_dec c1 LF); apply not_elem_of_cons; (split; [done|apply IH; cbn; lia]).
  - apply (IH s). cbn. lia.
Qed.

(** C37. Converting the line endings of a file, no keyword being translated: each
    newline, whether LF, CR or CR LF, becomes the one that is wanted; a file with
    newlines of several kinds is an error, and leaves no file behind, unless it is
    to be repaired; no other file is touched.  This holds for files without dollar
    signs: in general a dollar sign that follows LF or CR is lost, as [convert]
    shows. *)
Theorem eol_conversion n src dst dk x :
  src <> dst -> file_at dk src = Some x -> (length x < n)%nat ->
  let res := convert [] (pieces x) in
  (exists dk', svn_wc_copy_and_translate (Some eol) repair None expand n src dst dk = Some ((_ ← res; Ok tt), dk') /\
     file_at dk' dst = (if res is Ok out then Some out else None) /\ forall q, q <> dst -> file_at dk' q = file_at dk q) /\
  (dollar ∉ x -> res = if repair || uniform (pieces x) then Ok (concat (piece_text <$> pieces x))
                       else Err SVN_ERR_IO_INCONSISTENT_EOL) /\
  convert [] (pieces [LF; dollar]) = Ok eol.
Proof.
  intros Hsrc Hx Hn res. split; [|split].
  - pose proof (translate_eol x [] [] None (or_introl eq_refl)) as H. cbn [app] in H. fold res in H.
    destruct res as [out|e| |] eqn:Er; cbn [finishes] in H; try done.
    + destruct (copy_outs (Some eol) repair None expand n src dst dk x (Ok tt) out) as (dk' & E & H'); try done;
        [by left|by left|by exists dk'].
    + destruct H as [o Ho].
      destruct (copy_outs (Some eol) repair None expand n src dst dk x (Err e) o) as (dk' & E & H'); try done;
        [by left|right; by eexists|by exists dk'].
  - intros Hd. unfold res. rewrite convert_plain; [|by intros H%pieces_chars|apply pieces_newlines].
    unfold accepted, uniform. by destruct (newlines (pieces x)).
  - change (pieces [LF; dollar]) with [Newline [LF]; Char dollar]. rewrite convert_newline, (bool_decide_true ([] = [])) by done.
    rewrite orb_true_r, orb_true_l. change (lost_dollar [LF] [Char dollar]) with (@nil piece). cbn. by rewrite app_nil_r.
Qed.
End eol.

(** ** Keywords: which one, and what becomes of it *)

(** A character of the name of a keyword. *)
Definition is_letter (c : byte) : bool :=
  ((65 <=? bz c) && (bz c <=? 90)) || ((97 <=? bz c) && (bz c <=? 122)).

Definition is_name (n : bytes) : Prop := Forall (λ c, is_letter c = true) n.

(** What a buffer starts with when it holds this keyword. *)
Definition has_name (n buf : bytes) : Prop := exists c rest, buf = [dollar] ++ n ++ c :: rest /\ is_letter c = false.

Lemma has_name_inj n n' buf : is_name n -> is_name n' -> has_name n buf -> has_name n' buf -> n = n'.
Proof.
  intros Hn Hn' (c & r & -> & Hc) (c' & r' & E & Hc'). injection E as E. revert n' Hn' E.
  induction Hn as [|x n Hx Hn IH]; intros n' Hn' E.
  - destruct n' as [|y n']; [done|]. injection E as -> _. apply list.Forall_cons in Hn' as [Hy _]. congruence.
  - destruct n' as [|y n']; cbn [app] in E; injection E as -> E.
    + congruence.
    + apply list.Forall_cons in Hn' as [_ Hn']. by rewrite (IH n' Hn' E).
Qed.

Lemma letter_code c d : is_letter c = false -> is_letter d = true -> c <> d.
Proof. congruence. Qed.

Lemma take_drop_name n buf : take (length n) (drop 1 buf) = n -> (length n + 2 <= length buf)%nat -> head buf = Some dollar ->
  exists c rest, buf = [dollar] ++ n ++ c :: rest /\ rd buf (1 + length n) = Ok c.
Proof.
  intros Hn Hl Hd. destruct buf as [|d buf]; [cbn in Hl; lia|]. injection Hd as ->. cbn [length] in Hl.
  change (drop 1 (dollar :: buf)) with buf in Hn. pose proof (take_drop (length n) buf) as E. rewrite Hn in E.
  destruct (drop (length n) buf) as [|c rest] eqn:Ed.
  - apply (f_equal length) in Ed. rewrite length_drop in Ed. cbn in Ed. lia.
  - exists c, rest. split; [by rewrite <- E|]. unfold rd. rewrite <- E.
    change ((dollar :: n ++ c :: rest) !! (1 + length n)%nat) with ((n ++ c :: rest) !! length n).
    by rewrite list_lookup_middle.
Qed.

(** What the scanner collects: between two dollar signs. *)
Definition delimited (buf : bytes) : Prop := exists m, buf = [dollar] ++ m ++ [dollar] /\ dollar ∉ m.

Lemma delimited_ends buf : delimited buf -> head buf = Some dollar /\ list.last buf = Some dollar.
Proof. intros (m & -> & _). split; [done|]. by rewrite app_assoc, last_snoc. Qed.

(** The keyword is found only if the buffer has its name, and then whatever is to
    be done with it. *)
Lemma subst_found buf n : (length buf <= SVN_KEYWORD_MAX_LEN)%nat -> delimited buf ->
  (forall value, translate_keyword_subst buf n value = Ok None) \/
  has_name n buf /\ forall value, translate_keyword_subst buf n value =
    match value with
    | Some v => text ← in_buffer (expanded n v); Ok (Some text)
    | None => Ok (Some ([dollar] ++ n ++ [dollar]))
    end.
Proof.
  intros Hl Hdel. destruct (delimited_ends buf Hdel) as [Hh Ht]. destruct Hdel as (m & Em & Hm).
  unfold translate_keyword_subst. assert ((length buf <=? SVN_KEYWORD_MAX_LEN)%nat = true) as -> by (by apply Nat.leb_le).
  rewrite Hh, Ht, (bool_decide_true (Some dollar = Some dollar)) by done. cbn [c_assert mbind outcome_bind andb].
  destruct (Nat.ltb_spec (length buf) (length n + 2)); [by left|].
  case_bool_decide as Hn; cbn [negb]; [|by left].
  destruct (take_drop_name n buf Hn ltac:(lia) Hh) as (c & rest & E & ->). cbn [mbind outcome_bind].
  case_bool_decide as Hc.
  - right. split; [exists c, rest; split; [done|by rewrite Hc]|]. intros [v|]; [done|]. do 2 f_equal. subst c.
    rewrite E in Em |- *. injection Em as Em. destruct rest as [|c0 rest] using rev_ind; [done|].
    exfalso. apply Hm. rewrite app_comm_cons, app_assoc in Em. apply app_inj_tail in Em as [<- _].
    apply elem_of_app. right. by left.
  - destruct ((4 + length n <=? length buf)%nat && bool_decide (c = colon)) eqn:Ec; cbn [andb]; [|by left].
    destruct (bool_decide _ && bool_decide _); [|by left]. right. split; [|done].
    apply andb_true_iff in Ec as [_ ->%bool_decide_eq_true]. by exists colon, rest.
Qed.

(** The names of the keywords that have a value. *)
Definition names_of (long short : bytes) (value : option bytes) : list (bytes * bytes) :=
  match value with Some v => [(long, v); (short, v)] | None => [] end.

Definition candidates (k : svn_wc_keywords_t) : list (bytes * bytes) :=
  names_of SVN_KEYWORD_REVISION_LONG SVN_KEYWORD_REVISION_SHORT (revision k) ++
  names_of SVN_KEYWORD_DATE_LONG SVN_KEYWORD_DATE_SHORT (date k) ++
  names_of SVN_KEYWORD_AUTHOR_LONG SVN_KEYWORD_AUTHOR_SHORT (author k) ++
  names_of SVN_KEYWORD_URL_LONG SVN_KEYWORD_URL_SHORT (url k).

Fixpoint first_match (buf : bytes) (expand : bool) (l : list (bytes * bytes)) : outcome (option bytes) :=
  match l with
  | [] => Ok None
  | (n, v) :: l => or_else (translate_keyword_subst buf n (if expand then Some v else None)) (first_match buf expand l)
  end.

Lemma or_else_assoc a b c : or_else (or_else a b) c = or_else a (or_else b c).
Proof. by destruct a as [[]| | |]. Qed.

Lemma or_else_none a : or_else a (Ok None) = a.
Proof. by destruct a as [[]| | |]. Qed.

Lemma first_match_app buf expand l1 l2 :
  first_match buf expand (l1 ++ l2) = or_else (first_match buf expand l1) (first_match buf expand l2).
Proof. induction l1 as [|[n v] l1 IH]; [done|]. cbn [app first_match]. by rewrite IH, or_else_assoc. Qed.

Lemma translate_names_match buf long short expand value :
  translate_names buf long short expand value = first_match buf expand (names_of long short value).
Proof.
  destruct value as [v|]; [|done]. cbn [translate_names names_of first_match]. rewrite or_else_none. done.
Qed.

Lemma translate_keyword_match buf expand k : (length buf <= SVN_KEYWORD_MAX_LEN)%nat -> delimited buf ->
  translate_keyword buf expand (Some k) = first_match buf expand (candidates k).
Proof.
  intros Hl Hd. destruct (delimited_ends buf Hd) as [Hh Ht]. unfold translate_keyword, candidates.
  assert ((length buf <=? SVN_KEYWORD_MAX_LEN)%nat = true) as -> by (by apply Nat.leb_le).
  rewrite Hh, Ht, (bool_decide_true (Some dollar = Some dollar)) by done. cbn [c_assert mbind outcome_bind andb].
  by rewrite !translate_names_match, !first_match_app.
Qed.

Lemma candidates_names k : Forall (λ e, is_name e.1) (candidates k).
Proof.
  unfold candidates. rewrite !Forall_app. unfold names_of.
  repeat match goal with |- context [match ?v with Some _ => _ | None => _ end] => destruct v end;
    repeat split; repeat constructor.
Qed.

(** What [first_match] finds. *)
Lemma first_match_found buf l : (length buf <= SVN_KEYWORD_MAX_LEN)%nat -> delimited buf ->
  (forall expand, first_match buf expand l = Ok None) \/
  exists n v, (n, v) ∈ l /\ has_name n buf /\
    first_match buf false l = Ok (Some ([dollar] ++ n ++ [dollar])) /\
    first_match buf true l = (text ← in_buffer (expanded n v); Ok (Some text)).
Proof.
  intros Hl Hd. induction l as [|[n v] l IH]; [by left|]. cbn [first_match].
  destruct (subst_found buf n Hl Hd) as [H|[Hn H]].
  - destruct IH as [IH|(n' & v' & Hin & IH)].
    + left. intros expand. rewrite H. apply IH.
    + right. exists n', v'. split; [by right|]. by rewrite !H.
  - right. exists n, v. split; [by left|]. split; [done|]. rewrite !H. split; [done|]. by destruct (in_buffer _).
Qed.

(** Any other buffer with this name is found as the same keyword. *)
Lemma first_match_same buf buf' l n : Forall (λ e, is_name e.1) l ->
  (length buf <= SVN_KEYWORD_MAX_LEN)%nat -> delimited buf -> (length buf' <= SVN_KEYWORD_MAX_LEN)%nat -> delimited buf' ->
  has_name n buf -> has_name n buf' -> is_name n ->
  first_match buf false l = Ok (Some ([dollar] ++ n ++ [dollar])) ->
  (forall value, translate_keyword_subst buf' n value <> Ok None) ->
  first_match buf' false l = Ok (Some ([dollar] ++ n ++ [dollar])).
Proof.
  intros Hl Hb Hd Hb' Hd' Hn Hn' Hnn. induction Hl as [|[n0 v0] l Hn0 Hl IH]; [done|]. cbn [first_match fst] in *.
  intros E Hne. destruct (decide (n0 = n)) as [->|Hn0n].
  - destruct (subst_found buf' n Hb' Hd') as [H|[_ H]]; [by destruct (Hne None)|]. by rewrite H.
  - destruct (subst_found buf n0 Hb Hd) as [H|[H _]]; [|by destruct Hn0n; apply (has_name_inj n0 n buf)].
    destruct (subst_found buf' n0 Hb' Hd') as [H'|[H' _]]; [|by destruct Hn0n; apply (has_name_inj n0 n buf')].
    rewrite H in E. rewrite H'. by apply IH.
Qed.

(** Characters that neither end a keyword nor a line. *)
Definition clean (c : byte) : Prop := c <> dollar /\ c <> LF /\ c <> CR.

Lemma expanded_shape n v : Forall clean v -> exists s, expanded n v = [dollar] ++ n ++ [colon] ++ s ++ [space; dollar] /\
  Forall clean s /\ (s = [] \/ head s = Some space).
Proof.
  intros Hv. unfold expanded. destruct (length v =? 0)%nat; [exists []; by repeat split; [|left]|].
  set (k := Nat.min (length v) (SVN_KEYWORD_MAX_LEN - 5)).
  exists ([space] ++ strncpy v k). split; [done|]. split; [|by right].
  constructor; [done|]. unfold strncpy. apply Forall_app. split.
  - by apply Forall_take, Forall_take.
  - apply Forall_replicate. done.
Qed.

Lemma letter_clean c : is_letter c = true -> clean c.
Proof. intros H. repeat split; intros ->; discriminate H. Qed.

Lemma clean_no_dollar s : Forall clean s -> dollar ∉ s.
Proof. intros H Hin. apply list.Forall_forall with (x := dollar) in H as [H _]; done. Qed.

Lemma name_clean n : is_name n -> Forall clean n.
Proof. intros H. eapply list.Forall_impl; [exact H|]. intros c. apply letter_clean. Qed.

Lemma expanded_inside n v : is_name n -> Forall clean v -> exists m, expanded n v = [dollar] ++ m ++ [dollar] /\ Forall clean m.
Proof.
  intros Hn Hv. destruct (expanded_shape n v Hv) as (s & -> & Hs & _). exists (n ++ [colon] ++ s ++ [space]).
  split; [by rewrite <- !app_assoc|]. rewrite !Forall_app. split; [by apply name_clean|]. split; [by repeat constructor|].
  split; [done|by repeat constructor].
Qed.

Lemma expanded_found n v value : is_name n -> Forall clean v -> (length (expanded n v) <= SVN_KEYWORD_MAX_LEN)%nat ->
  delimited (expanded n v) /\ has_name n (expanded n v) /\ translate_keyword_subst (expanded n v) n value <> Ok None.
Proof.
  intros Hn Hv Hl. assert (delimited (expanded n v)) as Hd.
  { destruct (expanded_inside n v Hn Hv) as (m & -> & Hm). exists m. split; [done|]. by apply clean_no_dollar. }
  destruct (expanded_shape n v Hv) as (s & E & Hs & Hsp). split; [done|].
  assert (has_name n (expanded n v)) as Hname by (rewrite E; by exists colon, (s ++ [space; dollar])).
  split; [done|]. destruct (delimited_ends _ Hd) as [Hh Ht]. unfold translate_keyword_subst.
  assert ((length (expanded n v) <=? SVN_KEYWORD_MAX_LEN)%nat = true) as -> by (by apply Nat.leb_le).
  rewrite Hh, Ht, (bool_decide_true (Some dollar = Some dollar)) by done. cbn [c_assert mbind outcome_bind andb].
  rewrite E. set (buf := [dollar] ++ n ++ [colon] ++ s ++ [space; dollar]) in *.
  assert (length buf = (length n + length s + 4)%nat) as Hlen by (unfold buf; rewrite !length_app; cbn; lia).
  destruct (Nat.ltb_spec (length buf) (length n + 2)); [lia|].
  rewrite bool_decide_true. 2: { unfold buf. change (drop 1 ([dollar] ++ ?x)) with x. apply take_app_length. }
  cbn [negb]. assert (forall i c, ([colon] ++ s ++ [space; dollar]) !! i = Some c -> buf !! (1 + length n + i)%nat = Some c) as Hbuf.
  { intros i c Hi. unfold buf. change (([dollar] ++ ?x) !! (1 + length n + i)%nat) with (x !! (length n + i)%nat).
    rewrite lookup_app_r by lia. by replace (length n + i - length n)%nat with i by lia. }
  unfold rd. rewrite <- (Nat.add_0_r (1 + length n)), (Hbuf 0%nat colon eq_refl). cbn [mbind outcome_bind].
  rewrite bool_decide_false by done. rewrite (proj2 (Nat.leb_le _ _)), bool_decide_true by (done || lia). cbn [andb].
  replace (2 + length n)%nat with (1 + length n + 1)%nat by lia. rewrite (Hbuf 1%nat space).
  2: { destruct Hsp as [->|Hsp]; [done|]. destruct s; [done|]. by injection Hsp as ->. }
  replace (length buf - 2)%nat with (1 + length n + (1 + length s))%nat by lia. rewrite (Hbuf (1 + length s)%nat space).
  2: { change (([colon] ++ ?x) !! (1 + length s)%nat) with (x !! length s). by rewrite lookup_app_r, Nat.sub_diag by lia. }
  rewrite bool_decide_true by done. cbn [andb]. destruct value as [v'|]; [|done]. unfold in_buffer. by destruct (_ <=? _)%nat.
Qed.

(** Contracting an expanded keyword gives what contracting it before gives. *)
Lemma contract_expanded k buf text : Forall (λ e, Forall clean e.2) (candidates k) ->
  (length buf <= SVN_KEYWORD_MAX_LEN)%nat -> delimited buf ->
  translate_keyword buf true (Some k) = Ok (Some text) -> exists m short,
  text = [dollar] ++ m ++ [dollar] /\ Forall clean m /\ (length text <= SVN_KEYWORD_MAX_LEN)%nat /\
  translate_keyword buf false (Some k) = Ok (Some short) /\ translate_keyword text false (Some k) = Ok (Some short).
Proof.
  intros Hv Hl Hd. rewrite !translate_keyword_match by done.
  destruct (first_match_found buf (candidates k) Hl Hd) as [H|(n & v & Hin & Hn & H1 & H2)]; [by rewrite H|].
  rewrite H2. unfold in_buffer. destruct (Nat.leb_spec (length (expanded n v)) SVN_KEYWORD_MAX_LEN) as [Hlen|]; [|done].
  cbn [mbind outcome_bind]. intros [= <-].
  assert (is_name n) as Hnn by exact (proj1 (list.Forall_forall _ _) (candidates_names k) _ Hin).
  assert (Forall clean v) as Hvv by exact (proj1 (list.Forall_forall _ _) Hv _ Hin).
  destruct (expanded_inside n v Hnn Hvv) as (m & Em & Hm). exists m, ([dollar] ++ n ++ [dollar]).
  split; [done|]. split; [done|]. split; [done|]. split; [done|].
  destruct (expanded_found n v None Hnn Hvv Hlen) as (Hd' & Hn' & _). rewrite translate_keyword_match by done.
  apply (first_match_same buf _ _ n); try done; [apply candidates_names|].
  intros value. by apply expanded_found.
Qed.

(** Whether a keyword is found does not depend on what is done with it. *)
Lemma contract_none k buf : (length buf <= SVN_KEYWORD_MAX_LEN)%nat -> delimited buf ->
  translate_keyword buf true (Some k) = Ok None -> translate_keyword buf false (Some k) = Ok None.
Proof.
  intros Hl Hd. rewrite !translate_keyword_match by done.
  destruct (first_match_found buf (candidates k) Hl Hd) as [H|(n & v & Hin & Hn & H1 & H2)]; [by rewrite !H|].
  rewrite H2. unfold in_buffer. by destruct (_ <=? _)%nat.
Qed.

(** ** What is to be written

    The keywords of a text, and the text with them expanded or contracted, without
    regard to how the code looks for them. *)

Definition takes_letters : bytes -> bytes :=
  fix go m := match m with c :: m => if is_letter c then c :: go m else [] | [] => [] end.

Definition drops_letters : bytes -> bytes :=
  fix go m := match m with c :: m' => if is_letter c then go m' else m | [] => [] end.

(** The value of a keyword under either of its names. *)
Definition value_of (k : svn_wc_keywords_t) (name : bytes) : option bytes :=
  if bool_decide (name ∈ [SVN_KEYWORD_REVISION_LONG; SVN_KEYWORD_REVISION_SHORT]) then revision k
  else if bool_decide (name ∈ [SVN_KEYWORD_DATE_LONG; SVN_KEYWORD_DATE_SHORT]) then date k
  else if bool_decide (name ∈ [SVN_KEYWORD_AUTHOR_LONG; SVN_KEYWORD_AUTHOR_SHORT]) then author k
  else if bool_decide (name ∈ [SVN_KEYWORD_URL_LONG; SVN_KEYWORD_URL_SHORT]) then url k
  else None.

(** What may follow the name before the second dollar sign: nothing, or a colon, a
    space, and more with a space at its end. *)
Definition old_value (rest : bytes) : bool :=
  match rest with
  | [] => true
  | c :: rest => bool_decide (c = colon) && bool_decide (head rest = Some space) && bool_decide (list.last rest = Some space)
  end.

(** The keyword between two dollar signs, with its value. *)
Definition keyword_in (k : svn_wc_keywords_t) (m : bytes) : option (bytes * bytes) :=
  if old_value (drops_letters m) then pair (takes_letters m) <$> value_of k (takes_letters m) else None.

(** A value up to its first null byte, and null bytes instead of the rest. *)
Definition copied (v : bytes) : bytes := take (strlen v) v ++ replicate (length v - strlen v) NUL.

Definition keyword_text (expand : bool) (name v : bytes) : bytes :=
  if expand then
    [dollar] ++ name ++ [colon; space] ++ (if bool_decide (v = []) then [] else copied v ++ [space]) ++ [dollar]
  else [dollar] ++ name ++ [dollar].

(** [open]: the characters since a dollar sign on the same line. *)
Fixpoint translated (k : svn_wc_keywords_t) (expand : bool) (open : option bytes) (s : bytes) : bytes :=
  let pending := match open with Some m => dollar :: m | None => [] end in
  match s with
  | [] => pending
  | c :: s =>
      if bool_decide (c = dollar) then
        match keyword_in k <$> open with
        | Some (Some (name, v)) => keyword_text expand name v ++ translated k expand None s
        | _ => pending ++ translated k expand (Some []) s
        end
      else if bool_decide (c = LF \/ c = CR) then pending ++ c :: translated k expand None s
      else match open with
           | Some m => translated k expand (Some (m ++ [c])) s
           | None => c :: translated k expand None s
           end
  end.

Lemma letters_split m : m = takes_letters m ++ drops_letters m.
Proof. induction m as [|c m IH]; [done|]. simpl. destruct (is_letter c); [|done]. simpl. by f_equal. Qed.

Lemma takes_letters_name m : is_name (takes_letters m).
Proof. induction m as [|c m IH]; [constructor|]. simpl. destruct (is_letter c) eqn:E; by constructor. Qed.

Lemma drops_letters_head m c rest : drops_letters m = c :: rest -> is_letter c = false.
Proof.
  induction m as [|d m IH]; [done|]. simpl. destruct (is_letter d) eqn:E; [done|]. by intros [= <- _].
Qed.

Lemma letters_app n c rest : is_name n -> is_letter c = false ->
  takes_letters (n ++ c :: rest) = n /\ drops_letters (n ++ c :: rest) = c :: rest.
Proof.
  intros Hn Hc. induction Hn as [|x n Hx Hn [IH1 IH2]]; simpl; [by rewrite Hc|]. rewrite Hx. by rewrite IH1, IH2.
Qed.

Lemma letters_all n : is_name n -> takes_letters n = n /\ drops_letters n = [].
Proof. induction 1 as [|x n Hx Hn [IH1 IH2]]; simpl; [done|]. rewrite Hx. by rewrite IH1, IH2. Qed.

(** One try of the code finds the keyword of this name, and no other. *)
Lemma subst_other (m n : bytes) (value : option bytes) : is_name n -> (length m + 2 <= SVN_KEYWORD_MAX_LEN)%nat -> dollar ∉ m ->
  takes_letters m <> n \/ old_value (drops_letters m) = false ->
  translate_keyword_subst ([dollar] ++ m ++ [dollar]) n value = Ok None.
Proof.
  intros Hn Hl Hm Hno. set (buf := [dollar] ++ m ++ [dollar]).
  assert (length buf = (length m + 2)%nat) as Hlen by (unfold buf; rewrite !length_app; cbn; lia).
  assert (delimited buf) as Hd by (by exists m). destruct (delimited_ends buf Hd) as [Hh Ht].
  unfold translate_keyword_subst. rewrite (proj2 (Nat.leb_le (length buf) SVN_KEYWORD_MAX_LEN)) by lia.
  rewrite Hh, Ht, (bool_decide_true (Some dollar = Some dollar)) by done. cbn [c_assert mbind outcome_bind andb].
  destruct (Nat.ltb_spec (length buf) (length n + 2)) as [|Hle]; [done|].
  case_bool_decide as Hpre; cbn [negb]; [|done].
  destruct (take_drop_name n buf Hpre Hle Hh) as (c & rest & E & ->). cbn [mbind outcome_bind].
  unfold buf in E. injection E as E. destruct rest as [|d rest _] using rev_ind.
  - apply app_inj_tail in E as [-> <-]. destruct (letters_all n Hn) as [H1 H2]. rewrite H1, H2 in Hno. by destruct Hno.
  - assert (m = n ++ c :: rest /\ d = dollar) as [Em ->].
    { rewrite app_comm_cons, app_assoc in E. by apply app_inj_tail in E as [? <-]. }
    assert (c <> dollar) as Hcd by (intros ->; apply Hm; rewrite Em, elem_of_app, elem_of_cons; tauto).
    rewrite (bool_decide_false (c = dollar)) by done.
    destruct ((4 + length n <=? length buf)%nat) eqn:El; cbn [andb]; [|done].
    case_bool_decide as Hc; cbn [andb]; [|done]. apply Nat.leb_le in El.
    destruct (letters_app n c rest Hn) as [H1 H2]; [by rewrite Hc|]. rewrite <- Em in H1, H2.
    destruct Hno as [Hno|Hno]; [done|]. rewrite H2 in Hno. cbn [old_value] in Hno. rewrite (bool_decide_true (c = colon)) in Hno by done.
    cbn [andb] in Hno. assert (length m = (length n + S (length rest))%nat) as Hlm by (rewrite Em, length_app; done).
    assert (buf = ([dollar] ++ n ++ [c]) ++ rest ++ [dollar]) as Eb by (unfold buf; rewrite Em, <- !app_assoc; done).
    assert (length ([dollar] ++ n ++ [c]) = (2 + length n)%nat) as Hpl by (rewrite !length_app; cbn; lia).
    assert (buf !! (2 + length n)%nat = head rest) as ->.
    { rewrite Eb, lookup_app_r, Hpl, Nat.sub_diag by lia. destruct rest; [cbn in Hlm; lia|done]. }
    assert (buf !! (length buf - 2)%nat = list.last rest) as ->.
    { rewrite Hlen, Eb, lookup_app_r, Hpl by lia. rewrite lookup_app_l by lia. rewrite last_lookup. f_equal. lia. }
    by rewrite Hno.
Qed.

(** What a try writes that does find it. *)
Definition attempt (expand : bool) (n v : bytes) : outcome (option bytes) :=
  if expand then text ← in_buffer (expanded n v); Ok (Some text) else Ok (Some ([dollar] ++ n ++ [dollar])).

Lemma subst_this (m : bytes) (expand : bool) (v : bytes) : (length m + 2 <= SVN_KEYWORD_MAX_LEN)%nat -> dollar ∉ m ->
  old_value (drops_letters m) = true ->
  translate_keyword_subst ([dollar] ++ m ++ [dollar]) (takes_letters m) (if expand then Some v else None) =
  attempt expand (takes_letters m) v.
Proof.
  intros Hl Hm Hold. set (n := takes_letters m) in *. set (buf := [dollar] ++ m ++ [dollar]).
  assert (length buf = (length m + 2)%nat) as Hlen by (unfold buf; rewrite !length_app; cbn; lia).
  assert (delimited buf) as Hd by (by exists m).
  destruct (subst_found buf n ltac:(lia) Hd) as [H|[_ H]]; [|rewrite H; by destruct expand].
  exfalso. specialize (H None). revert H. destruct (delimited_ends buf Hd) as [Hh Ht].
  unfold translate_keyword_subst. rewrite (proj2 (Nat.leb_le (length buf) SVN_KEYWORD_MAX_LEN)) by lia.
  rewrite Hh, Ht, (bool_decide_true (Some dollar = Some dollar)) by done. cbn [c_assert mbind outcome_bind andb].
  pose proof (letters_split m) as Em. fold n in Em.
  assert (length m = (length n + length (drops_letters m))%nat) as Hlm by (rewrite Em at 1; by rewrite length_app).
  rewrite (proj2 (Nat.ltb_ge _ _)) by lia.
  assert (buf = ([dollar] ++ n) ++ drops_letters m ++ [dollar]) as Eb.
  { unfold buf. rewrite Em at 1. by rewrite <- !app_assoc. }
  assert (forall i, buf !! (1 + length n + i)%nat = (drops_letters m ++ [dollar]) !! i) as Hbuf.
  { intros i. rewrite Eb, lookup_app_r by (cbn; lia). f_equal. cbn. lia. }
  rewrite bool_decide_true by (rewrite Eb; apply take_app_length). cbn [negb]. unfold rd.
  rewrite <- (Nat.add_0_r (1 + length n)), Hbuf.
  destruct (drops_letters m) as [|c rest] eqn:Er; cbn [app lookup list_lookup mbind outcome_bind]; [by rewrite bool_decide_true|].
  cbn [old_value] in Hold. apply andb_true_iff in Hold as [[Hc Hs]%andb_true_iff Hls]. apply bool_decide_eq_true in Hc as ->.
  rewrite (bool_decide_false (colon = dollar)) by done. rewrite (bool_decide_true (colon = colon)) by done.
  destruct rest as [|s0 rest]; [done|]. cbn [length] in Hlm.
  rewrite (proj2 (Nat.leb_le _ _)) by lia. cbn [andb].
  replace (2 + length n)%nat with (1 + length n + 1)%nat by lia. rewrite Hbuf. cbn [app lookup list_lookup].
  cbn [head] in Hs. rewrite Hs. cbn [andb].
  replace (length buf - 2)%nat with (1 + length n + S (length rest))%nat by lia. rewrite Hbuf.
  change ((colon :: s0 :: rest) ++ [dollar]) with ([colon] ++ (s0 :: rest) ++ [dollar]).
  rewrite lookup_app_r by (cbn; lia). cbn [length]. rewrite lookup_app_l by (cbn; lia).
  rewrite last_lookup in Hls. cbn [length Nat.pred] in Hls.
  replace (S (length rest) - 1)%nat with (length rest) by lia. by rewrite Hls.
Qed.

Fixpoint assoc (name : bytes) (l : list (bytes * bytes)) : option bytes :=
  match l with [] => None | (n, v) :: l => if bool_decide (n = name) then Some v else assoc name l end.

Lemma first_match_keyword (m : bytes) (expand : bool) (l : list (bytes * bytes)) : Forall (λ e, is_name e.1) l ->
  (length m + 2 <= SVN_KEYWORD_MAX_LEN)%nat -> dollar ∉ m ->
  first_match ([dollar] ++ m ++ [dollar]) expand l =
  if old_value (drops_letters m) then
    match assoc (takes_letters m) l with Some v => attempt expand (takes_letters m) v | None => Ok None end
  else Ok None.
Proof.
  intros Hl Hlen Hm. induction Hl as [|[n v] l Hn Hl IH]; [by destruct (old_value _)|]. cbn [first_match assoc fst] in *.
  destruct (old_value (drops_letters m)) eqn:Hold.
  - case_bool_decide as E.
    + subst n. rewrite subst_this by done. unfold attempt. destruct expand; [|done]. unfold in_buffer. by destruct (_ <=? _)%nat.
    + rewrite subst_other by (done || (left; congruence)). apply IH.
  - rewrite subst_other by (done || by right). apply IH.
Qed.

Lemma assoc_value k name : assoc name (candidates k) = value_of k name.
Proof.
  destruct (decide (name ∈ [SVN_KEYWORD_REVISION_LONG; SVN_KEYWORD_REVISION_SHORT; SVN_KEYWORD_DATE_LONG; SVN_KEYWORD_DATE_SHORT;
    SVN_KEYWORD_AUTHOR_LONG; SVN_KEYWORD_AUTHOR_SHORT; SVN_KEYWORD_URL_LONG; SVN_KEYWORD_URL_SHORT])) as [Hin|Hin].
  - rewrite !elem_of_cons in Hin. destruct k as [[r|] [d|] [a|] [u|]].
    all: repeat destruct Hin as [->|Hin]; [reflexivity..|by apply not_elem_of_nil in Hin].
  - rewrite !not_elem_of_cons in Hin. destruct Hin as (N1 & N2 & N3 & N4 & N5 & N6 & N7 & N8 & _). unfold value_of.
    rewrite !bool_decide_false by (rewrite !elem_of_cons, elem_of_nil; tauto). unfold candidates.
    destruct k as [[r|] [d|] [a|] [u|]]; cbn [revision date author url names_of app assoc];
      rewrite ?bool_decide_false by congruence; done.
Qed.

Lemma assoc_in name v l : assoc name l = Some v -> (name, v) ∈ l.
Proof.
  induction l as [|[n w] l IH]; [done|]. cbn [assoc]. case_bool_decide as E; [intros [= ->]; subst n; by left|].
  intros H. right. by apply IH.
Qed.

Lemma translate_keyword_spec (k : svn_wc_keywords_t) (m : bytes) (expand : bool) :
  (length m + 2 <= SVN_KEYWORD_MAX_LEN)%nat -> dollar ∉ m ->
  translate_keyword ([dollar] ++ m ++ [dollar]) expand (Some k) =
  match keyword_in k m with Some (n, v) => attempt expand n v | None => Ok None end.
Proof.
  intros Hl Hm. rewrite translate_keyword_match.
  - rewrite first_match_keyword, assoc_value by (done || apply candidates_names). unfold keyword_in.
    destruct (old_value _); [|done]. by destruct (value_of k (takes_letters m)).
  - rewrite !length_app. cbn [length]. lia.
  - by exists m.
Qed.

Lemma keyword_in_candidates k m n v : keyword_in k m = Some (n, v) -> (n, v) ∈ candidates k.
Proof.
  unfold keyword_in. destruct (old_value _); [|done]. destruct (value_of k (takes_letters m)) as [w|] eqn:E; [|done].
  intros [= <- <-]. apply assoc_in. by rewrite assoc_value.
Qed.

Lemma candidates_nonempty k : Forall (λ e, e.1 <> []) (candidates k).
Proof.
  unfold candidates. rewrite !Forall_app. unfold names_of.
  repeat match goal with |- context [match ?v with Some _ => _ | None => _ end] => destruct v end;
    repeat split; repeat constructor; done.
Qed.

(** A value for which the buffer has room is written as it is. *)
Lemma expanded_text (n v : bytes) : n <> [] -> (length (expanded n v) <= SVN_KEYWORD_MAX_LEN)%nat ->
  expanded n v = keyword_text true n v.
Proof.
  intros Hn. unfold expanded, keyword_text. destruct v as [|c v]; [done|]. rewrite bool_decide_false by done.
  set (w := c :: v). change (length w =? 0)%nat with false. cbn iota. unfold strncpy.
  assert (0 < length n)%nat by (destruct n; [done|cbn; lia]).
  set (s := take (strlen w) w). assert (length s <= length w)%nat as Hs by (unfold s; rewrite length_take; lia).
  assert (length s = strlen w) as Hsl by (unfold s; rewrite length_take; pose proof (strlen_le w); lia).
  set (vallen := Nat.min (length w) (SVN_KEYWORD_MAX_LEN - 5)). intros Hl.
  assert (vallen = length w) as ->.
  { revert Hl. rewrite !length_app, length_replicate, length_take. cbn [length]. unfold vallen, SVN_KEYWORD_MAX_LEN. lia. }
  rewrite (take_ge s) by lia. unfold copied. fold s. rewrite Hsl. by rewrite <- !app_assoc.
Qed.

(** ** Scanning a text for keywords *)

Section keywords.
Context (k : svn_wc_keywords_t).

(** A turn of the loop when line endings are kept: the keyword buffer and what is
    written; nothing where the code fails or the buffer is full. *)
Definition kstep (expand : bool) (kb : bytes) (c : byte) : option (bytes * bytes) :=
  if byte_eq_dec c dollar then
    match kb with
    | [] => Some ([c], [])
    | _ =>
        match translate_keyword (kb ++ [c]) expand (Some k) with
        | Ok (Some text) => Some ([], text)
        | Ok None => Some ([c], kb)
        | _ => None
        end
    end
  else if byte_eq_dec c LF then Some ([], kb ++ [c])
  else if byte_eq_dec c CR then Some ([], kb ++ [c])
  else
    match kb with
    | [] => Some ([], [c])
    | _ => if (SVN_KEYWORD_MAX_LEN <=? length (kb ++ [c]))%nat then None else Some (kb ++ [c], [])
    end.

Fixpoint krun (expand : bool) (kb s : bytes) : option (bytes * bytes) :=
  match s with
  | [] => Some (kb, [])
  | c :: s =>
      '(kb, o1) ← kstep expand kb c;
      '(kb, o2) ← krun expand kb s;
      Some (kb, o1 ++ o2)
  end.

Lemma krun_app expand a b : forall kb, krun expand kb (a ++ b) =
  ('(kb, o1) ← krun expand kb a; '(kb, o2) ← krun expand kb b; Some (kb, o1 ++ o2)).
Proof.
  induction a as [|c a IH]; intros kb; cbn [app krun].
  - cbn [mbind option_bind]. by destruct (krun expand kb b) as [[]|].
  - destruct (kstep expand kb c) as [[kb1 o1]|]; [|done]. cbn [mbind option_bind]. rewrite IH.
    destruct (krun expand kb1 a) as [[kb2 o2]|]; [|done]. cbn [mbind option_bind].
    destruct (krun expand kb2 b) as [[kb3 o3]|]; [|done]. cbn [mbind option_bind]. by rewrite app_assoc.
Qed.

Lemma krun_snoc expand a c kb : krun expand kb (a ++ [c]) =
  ('(kb, o1) ← krun expand kb a; '(kb, o2) ← kstep expand kb c; Some (kb, o1 ++ o2)).
Proof.
  rewrite krun_app. destruct (krun expand kb a) as [[kb1 o1]|]; [|done]. cbn [mbind option_bind krun].
  destruct (kstep expand kb1 c) as [[kb2 o2]|]; [|done]. cbn [mbind option_bind]. by rewrite app_nil_r.
Qed.

(** The keyword buffer: a dollar sign and clean characters, never full. *)
Definition collecting (kb : bytes) : Prop :=
  kb = [] \/ exists m, kb = dollar :: m /\ Forall clean m /\ (length kb < SVN_KEYWORD_MAX_LEN)%nat.

Lemma collecting_delimited kb : collecting kb -> kb <> [] ->
  delimited (kb ++ [dollar]) /\ (length (kb ++ [dollar]) <= SVN_KEYWORD_MAX_LEN)%nat.
Proof.
  intros [->|(m & -> & Hm & Hl)]; [done|]. intros _. split; [exists m; split; [done|by apply clean_no_dollar]|].
  rewrite length_app. cbn [length] in *. lia.
Qed.

Lemma kstep_collecting expand kb c kb' o : collecting kb -> kstep expand kb c = Some (kb', o) -> collecting kb'.
Proof.
  intros Hkb. unfold kstep. destruct (byte_eq_dec c dollar) as [->|Hd].
  - assert (collecting [dollar]) as H1 by (right; exists []; repeat split; [constructor|unfold SVN_KEYWORD_MAX_LEN; cbn; lia]).
    destruct kb as [|x kb]; [by intros [= <- <-]|].
    destruct (translate_keyword _ _ _) as [[t|]|e| |]; try done; intros [= <- <-]; [by left|done].
  - destruct (byte_eq_dec c LF); [intros [= <- <-]; by left|]. destruct (byte_eq_dec c CR); [intros [= <- <-]; by left|].
    destruct kb as [|x kb]; [intros [= <- <-]; by left|].
    destruct (Nat.leb_spec SVN_KEYWORD_MAX_LEN (length ((x :: kb) ++ [c]))); [done|]. intros [= <- <-]. right.
    destruct Hkb as [|(m & [= -> ->] & Hm & Hl)]; [done|]. exists (m ++ [c]). split; [done|]. split; [|done].
    apply Forall_app. split; [done|]. by repeat constructor.
Qed.

(** A turn that is not the end of a keyword passes everything on. *)
Lemma kstep_passes expand kb c kb' o : collecting kb -> kstep expand kb c = Some (kb', o) ->
  (kb ++ [c] = o ++ kb' /\ (expand = true -> kstep false kb c = Some (kb', o))) \/
  (c = dollar /\ kb <> [] /\ kb' = [] /\ translate_keyword (kb ++ [dollar]) expand (Some k) = Ok (Some o)).
Proof.
  intros Hkb. unfold kstep. destruct (byte_eq_dec c dollar) as [->|Hd].
  - destruct kb as [|x kb]; [intros [= <- <-]; by left|].
    destruct (collecting_delimited (x :: kb) Hkb ltac:(done)) as [Hdel Hl].
    destruct (translate_keyword _ expand _) as [[t|]|e| |] eqn:E; try done; intros [= <- <-]; [by right|].
    left. split; [done|]. intros ->. by rewrite (contract_none k _ Hl Hdel E).
  - destruct (byte_eq_dec c LF); [intros [= <- <-]; left; by rewrite app_nil_r|].
    destruct (byte_eq_dec c CR); [intros [= <- <-]; left; by rewrite app_nil_r|].
    destruct kb as [|x kb]; [intros [= <- <-]; by left|].
    destruct (SVN_KEYWORD_MAX_LEN <=? length ((x :: kb) ++ [c]))%nat; [done|]. intros [= <- <-]. by left.
Qed.

Lemma krun_collecting expand s : forall kb kb' o, collecting kb -> krun expand kb s = Some (kb', o) -> collecting kb'.
Proof.
  induction s as [|c s IH]; intros kb kb' o Hkb; cbn [krun]; [by intros [= <- <-]|].
  destruct (kstep expand kb c) as [[kb1 o1]|] eqn:E; [|done]. cbn [mbind option_bind].
  destruct (krun expand kb1 s) as [[kb2 o2]|] eqn:E2; [|done]. intros [= <- <-].
  eapply IH; [by eapply kstep_collecting|done].
Qed.

(** Clean characters are collected behind a dollar sign, and passed on otherwise. *)
Lemma krun_clean expand m : Forall clean m -> forall kb,
  (kb = [] -> krun expand kb m = Some ([], m)) /\
  (kb <> [] -> (length (kb ++ m) < SVN_KEYWORD_MAX_LEN)%nat -> krun expand kb m = Some (kb ++ m, [])).
Proof.
  induction 1 as [|c m (H1 & H2 & H3) Hm IH]; intros kb; cbn [krun]; [split; [by intros ->|by rewrite app_nil_r]|].
  unfold kstep. destruct (byte_eq_dec c dollar); [done|]. destruct (byte_eq_dec c LF); [done|]. destruct (byte_eq_dec c CR); [done|].
  split.
  - intros ->. cbn [mbind option_bind]. by rewrite (proj1 (IH []) eq_refl).
  - intros Hkb Hl. destruct kb as [|x kb]; [done|].
    destruct (Nat.leb_spec SVN_KEYWORD_MAX_LEN (length ((x :: kb) ++ [c]))) as [H|H].
    + rewrite length_app in *. cbn [length] in *. lia.
    + cbn [mbind option_bind]. rewrite (proj2 (IH ((x :: kb) ++ [c]))); [by rewrite <- app_assoc|done|].
      by rewrite <- app_assoc.
Qed.

Lemma kstep_dollar expand kb kb' o : kstep expand kb dollar = Some (kb', o) -> kb' = [] \/ kb' = [dollar].
Proof.
  unfold kstep. destruct (byte_eq_dec dollar dollar); [|done]. destruct kb as [|x kb]; [intros [= <- <-]; by right|].
  destruct (translate_keyword _ _ _) as [[t|]|err| |]; try done; intros [= <- <-]; [by left|by right].
Qed.

(** Where the scanner was behind the dollar sign of what it has collected. *)
Lemma collected_from o m y : Forall clean m -> (length (dollar :: m) < SVN_KEYWORD_MAX_LEN)%nat ->
  krun false [] (o ++ dollar :: m) = Some (dollar :: m, y) -> krun false [] (o ++ [dollar]) = Some ([dollar], y).
Proof.
  intros Hm Hl. change (o ++ dollar :: m) with (o ++ [dollar] ++ m). rewrite app_assoc, krun_app.
  rewrite krun_snoc. destruct (krun false [] o) as [[k0 y0]|]; [|done]. cbn [mbind option_bind].
  destruct (kstep false k0 dollar) as [[k1 w1]|] eqn:E; [|done]. cbn [mbind option_bind].
  destruct (kstep_dollar _ _ _ _ E) as [-> | ->].
  - rewrite (proj1 (krun_clean false m Hm []) eq_refl). done.
  - rewrite (proj2 (krun_clean false m Hm [dollar])) by done. cbn [mbind option_bind app]. rewrite app_nil_r. by intros [= <-].
Qed.

Lemma contract_after_expand x : Forall (λ e, Forall clean e.2) (candidates k) -> forall kb o,
  krun true [] x = Some (kb, o) -> exists y, krun false [] x = Some (kb, y) /\ krun false [] (o ++ kb) = Some (kb, y).
Proof.
  intros Hv. induction x as [|c x IH] using rev_ind; intros kb o; [intros [= <- <-]; by exists []|].
  rewrite krun_snoc. destruct (krun true [] x) as [[kb1 o1]|] eqn:Ex; [|done]. cbn [mbind option_bind].
  destruct (kstep true kb1 c) as [[kb2 o2]|] eqn:Ec; [|done]. cbn [mbind option_bind]. intros [= <- <-].
  destruct (IH kb1 o1 eq_refl) as (y & Hy & Ho). rewrite krun_snoc, Hy. cbn [mbind option_bind].
  pose proof (krun_collecting true x [] kb1 o1 (or_introl eq_refl) Ex) as Hkb.
  destruct (kstep_passes true kb1 c kb2 o2 Hkb Ec) as [[Hp Hf]|(-> & Hne & -> & Ht)].
  - specialize (Hf eq_refl). rewrite Hf. cbn [mbind option_bind]. exists (y ++ o2). split; [done|].
    by rewrite <- app_assoc, <- Hp, app_assoc, krun_snoc, Ho; cbn [mbind option_bind]; rewrite Hf.
  - destruct (collecting_delimited kb1 Hkb Hne) as [Hdel Hl].
    destruct (contract_expanded k _ o2 Hv Hl Hdel Ht) as (m2 & short & -> & Hm2 & Hl2 & Hs & Hs2).
    destruct Hkb as [|(m & -> & Hm & Hlm)]; [done|]. unfold kstep. destruct (byte_eq_dec dollar dollar); [|done].
    rewrite Hs. cbn [mbind option_bind]. exists (y ++ short). split; [done|]. rewrite app_nil_r.
    pose proof (collected_from o1 m y Hm Hlm Ho) as Hd. rewrite length_app in Hl2. cbn [length app] in Hl2. rewrite length_app in Hl2. cbn [length] in Hl2.
    replace (o1 ++ [dollar] ++ m2 ++ [dollar]) with ((o1 ++ [dollar]) ++ m2 ++ [dollar]) by (by rewrite <- app_assoc).
    rewrite krun_app, Hd. cbn [mbind option_bind]. rewrite krun_snoc.
    rewrite (proj2 (krun_clean false m2 Hm2 [dollar])) by (done || (cbn; lia)). cbn [mbind option_bind app].
    unfold kstep. destruct (byte_eq_dec dollar dollar); [|done]. cbn [app]. cbn [app] in Hs2. rewrite Hs2. done.
Qed.

(** ** The loop of the code *)

Context `{apr : !Apr} `{laws : !AprLaws}.

Lemma kstep_runs repair expand kb len c kb' o : collecting kb -> kstep expand kb c = Some (kb', o) -> exists len',
  runs (translate_byte None repair (Some k) expand c (mk_scan [] kb [] len)) (Ok (mk_scan [] kb' [] len')) o.
Proof.
  intros Hkb E. unfold kstep in E. unfold translate_byte. destruct (byte_eq_dec c dollar) as [->|Hd].
  - unfold at_dollar. cbn [newline_buf keyword_buf length Nat.eqb negb]. destruct kb as [|x kb].
    + injection E as <- <-. eexists. apply runs_ret.
    + change (length ((x :: kb) ++ [dollar]) =? 1)%nat with (length (kb ++ [dollar]) =? 0)%nat. rewrite length_app, Nat.add_comm.
      cbn [length Nat.add Nat.eqb].
      destruct (translate_keyword ((x :: kb) ++ [dollar]) expand (Some k)) as [[t|]|e| |]; try done; injection E as <- <-; eexists;
        (eapply runs_eq; [eapply (runs_bind _ _ _ []); [apply runs_lift|]|done]);
        (eapply runs_eq; [eapply runs_bind; [apply runs_write|apply runs_ret]|apply app_nil_r]).
  - assert (forall c, runs (at_newline None repair c (mk_scan [] kb [] len)) (Ok (mk_scan [] [] [] (Some (length kb)))) (kb ++ [c])) as Hnl.
    { intros c'. unfold at_newline. cbn [newline_buf keyword_buf src_format]. eapply runs_bind.
      - destruct kb as [|x kb]; [apply runs_ret|]. apply runs_write.
      - eapply runs_eq; [eapply runs_bind; [apply runs_write|apply runs_ret]|apply app_nil_r]. }
    destruct (byte_eq_dec c LF); [injection E as <- <-; eexists; apply Hnl|].
    destruct (byte_eq_dec c CR); [injection E as <- <-; eexists; apply Hnl|].
    unfold at_other. cbn [keyword_buf newline_buf src_format]. destruct kb as [|x kb].
    + injection E as <- <-. eexists. eapply runs_eq; [eapply (runs_bind _ _ _ []); [apply runs_ret|]|done].
      eapply runs_eq; [eapply runs_bind; [apply runs_write|apply runs_ret]|done].
    + destruct (SVN_KEYWORD_MAX_LEN <=? length ((x :: kb) ++ [c]))%nat; [done|]. injection E as <- <-. eexists. apply runs_ret.
Qed.

Lemma krun_outs repair expand x : forall kb len kb' o, collecting kb -> krun expand kb x = Some (kb', o) ->
  outs None repair (Some k) expand (mk_scan [] kb [] len) x (Ok tt) (o ++ kb').
Proof.
  induction x as [|c x IH]; intros kb len kb' o Hkb; cbn [krun].
  - intros [= <- <-]. apply Outs_end. unfold translate_eof, flush_newline. cbn [newline_buf length Nat.eqb].
    eapply runs_eq; [eapply (runs_bind _ _ _ []); [apply runs_ret|]|done]. cbn [keyword_buf app].
    destruct kb; [apply runs_ret|apply runs_write].
  - destruct (kstep expand kb c) as [[kb1 o1]|] eqn:E; [|done]. cbn [mbind option_bind].
    destruct (krun expand kb1 x) as [[kb2 o2]|] eqn:E2; [|done]. intros [= <- <-].
    destruct (kstep_runs repair expand kb len c kb1 o1 Hkb E) as (len' & H). rewrite <- app_assoc.
    eapply Outs_step; [exact H|]. apply IH; [by eapply kstep_collecting|done].
Qed.

(** ** Texts that fit the keyword buffer *)

(** No dollar sign is followed by too many characters before the next one or the
    end of the line; [p]: how many are collected. *)
Fixpoint short (p : nat) (s : bytes) : bool :=
  match s with
  | [] => true
  | c :: s =>
      if byte_eq_dec c dollar then short 1 s
      else if byte_eq_dec c LF then short 0 s
      else if byte_eq_dec c CR then short 0 s
      else match p with O => short 0 s | S _ => (S p <? SVN_KEYWORD_MAX_LEN)%nat && short (S p) s end
  end.

Definition values_fit : Prop :=
  Forall (λ e, Forall clean e.2 /\ (length (expanded e.1 e.2) <= SVN_KEYWORD_MAX_LEN)%nat) (candidates k).

Lemma translate_found expand buf : values_fit -> (length buf <= SVN_KEYWORD_MAX_LEN)%nat -> delimited buf ->
  exists r, translate_keyword buf expand (Some k) = Ok r.
Proof.
  intros Hv Hl Hd. rewrite translate_keyword_match by done.
  destruct (first_match_found buf (candidates k) Hl Hd) as [H|(n & v & Hin & Hn & H1 & H2)]; [by eexists|].
  destruct expand; [|by eexists]. rewrite H2. unfold in_buffer.
  apply (proj1 (list.Forall_forall _ _) Hv) in Hin as [_ Hin]. rewrite (proj2 (Nat.leb_le _ _)) by done. by eexists.
Qed.

(** The loop writes what is to be written. *)
Definition opened (kb : bytes) : option bytes := match kb with [] => None | _ :: m => Some m end.

Lemma translate_written expand m : values_fit -> (length m + 2 <= SVN_KEYWORD_MAX_LEN)%nat -> dollar ∉ m ->
  translate_keyword ([dollar] ++ m ++ [dollar]) expand (Some k) =
  Ok (match keyword_in k m with Some (n, v) => Some (keyword_text expand n v) | None => None end).
Proof.
  intros Hv Hl Hm. rewrite translate_keyword_spec by done. destruct (keyword_in k m) as [[n v]|] eqn:E; [|done].
  apply keyword_in_candidates in E. destruct (proj1 (list.Forall_forall _ _) Hv _ E) as [_ Hfit].
  pose proof (proj1 (list.Forall_forall _ _) (candidates_nonempty k) _ E) as Hne. cbn [fst snd] in *.
  unfold attempt. destruct expand; [|done]. unfold in_buffer. rewrite (proj2 (Nat.leb_le _ _)) by done.
  cbn [mbind outcome_bind]. by rewrite expanded_text.
Qed.

Lemma krun_translated expand s : values_fit -> forall kb kb' o, collecting kb -> krun expand kb s = Some (kb', o) ->
  o ++ kb' = translated k expand (opened kb) s.
Proof.
  intros Hv. induction s as [|c s IH]; intros kb kb' o Hkb; cbn [krun].
  - intros [= <- <-]. by destruct Hkb as [->|(m & -> & _)].
  - destruct (kstep expand kb c) as [[kb1 o1]|] eqn:E; [|done]. cbn [mbind option_bind].
    destruct (krun expand kb1 s) as [[kb2 o2]|] eqn:E2; [|done]. intros [= <- <-].
    pose proof (kstep_collecting _ _ _ _ _ Hkb E) as Hkb1. specialize (IH _ _ _ Hkb1 E2). rewrite <- app_assoc, IH.
    clear E2 IH. revert E. unfold kstep. cbn [translated]. destruct (byte_eq_dec c dollar) as [->|Hd].
    + rewrite bool_decide_true by done. destruct Hkb as [->|(m & -> & Hm & Hl)]; [by intros [= <- <-]|].
      cbn [opened option_map fmap option_fmap].
      change ((dollar :: m) ++ [dollar]) with ([dollar] ++ m ++ [dollar]).
      rewrite translate_written; [|done|cbn [length] in Hl; lia|by apply clean_no_dollar].
      destruct (keyword_in k m) as [[n v]|]; by intros [= <- <-].
    + rewrite (bool_decide_false (c = dollar)) by done. destruct (byte_eq_dec c LF) as [->|Hlf].
      { intros [= <- <-]. rewrite bool_decide_true by (by left). rewrite <- app_assoc. by destruct Hkb as [->|(m & -> & _)]. }
      destruct (byte_eq_dec c CR) as [->|Hcr].
      { intros [= <- <-]. rewrite bool_decide_true by (by right). rewrite <- app_assoc. by destruct Hkb as [->|(m & -> & _)]. }
      rewrite bool_decide_false by (intros [?|?]; done).
      destruct Hkb as [->|(m & -> & _)]; [by intros [= <- <-]|].
      cbn [opened]. destruct (SVN_KEYWORD_MAX_LEN <=? length ((dollar :: m) ++ [c]))%nat; [done|]. by intros [= <- <-].
Qed.

Lemma short_le s : forall p q, (p <= q)%nat -> short q s = true -> short p s = true.
Proof.
  induction s as [|c s IH]; intros p q Hpq; cbn [short]; [done|].
  destruct (byte_eq_dec c dollar); [done|]. destruct (byte_eq_dec c LF); [done|]. destruct (byte_eq_dec c CR); [done|].
  destruct p as [|p], q as [|q]; try done; try lia.
  - intros [H1 H2]%andb_true_iff. apply (IH 0%nat (S (S q))); [lia|done].
  - intros [H1%Nat.ltb_lt H2]%andb_true_iff. apply andb_true_iff. split; [apply Nat.ltb_lt; lia|]. apply (IH _ (S (S q))); [lia|done].
Qed.

Lemma krun_short expand s : values_fit -> forall kb, collecting kb -> short (length kb) s = true -> is_Some (krun expand kb s).
Proof.
  intros Hv. induction s as [|c s IH]; intros kb Hkb Hs; cbn [krun]; [by eexists|].
  assert (exists kb' o, kstep expand kb c = Some (kb', o) /\ short (length kb') s = true) as (kb' & o & E & Hs').
  { cbn [short] in Hs. unfold kstep. destruct (byte_eq_dec c dollar) as [->|Hd].
    - destruct kb as [|x kb]; [by eexists _, _|].
      destruct (collecting_delimited (x :: kb) Hkb ltac:(done)) as [Hdel Hl].
      destruct (translate_found expand _ Hv Hl Hdel) as ([t|] & ->); eexists _, _; (split; [done|]); [|done].
      apply (short_le s 0 1); [lia|done].
    - destruct (byte_eq_dec c LF); [by eexists _, _|]. destruct (byte_eq_dec c CR); [by eexists _, _|].
      destruct kb as [|x kb]; [by eexists _, _|]. cbn [length] in Hs. apply andb_true_iff in Hs as [H1%Nat.ltb_lt H2].
      destruct (Nat.leb_spec SVN_KEYWORD_MAX_LEN (length ((x :: kb) ++ [c]))) as [H|H];
        rewrite length_app in H; cbn [length] in H; [lia|].
      eexists _, _. split; [done|]. rewrite length_app. cbn [length]. by replace (S (length kb) + 1)%nat with (S (S (length kb))) by lia. }
  rewrite E. cbn [mbind option_bind]. destruct (IH kb' (kstep_collecting _ _ _ _ _ Hkb E) Hs') as ([kb2 o2] & ->). by eexists.
Qed.

Lemma keyword_overflow name v : (SVN_KEYWORD_MAX_LEN - 5 < length name + Nat.min (length v) (SVN_KEYWORD_MAX_LEN - 5))%nat ->
  v <> [] -> length (expanded name v) = (5 + length name + Nat.min (length v) (SVN_KEYWORD_MAX_LEN - 5))%nat.
Proof.
  intros H Hv. unfold expanded. destruct v as [|c v]; [done|]. cbn [length Nat.eqb]. rewrite !length_app. cbn [length].
  unfold strncpy. rewrite length_app, length_replicate. set (n := Nat.min _ _).
  pose proof (firstn_le_length n (take (strlen (c :: v)) (c :: v))) as Hle. lia.
Qed.

Lemma overflow_undef name v : is_name name -> v <> [] -> (2 + length name <= SVN_KEYWORD_MAX_LEN)%nat ->
  (SVN_KEYWORD_MAX_LEN - 5 < length name + Nat.min (length v) (SVN_KEYWORD_MAX_LEN - 5))%nat ->
  translate_keyword_subst ([dollar] ++ name ++ [dollar]) name (Some v) = Undef.
Proof.
  intros Hname Hne Hl Hlen. destruct (letters_all name Hname) as [Ht Hd].
  pose proof (subst_this name true v ltac:(lia) (clean_no_dollar _ (name_clean _ Hname))) as H. rewrite Ht, Hd in H.
  rewrite H by done. unfold attempt, in_buffer. rewrite keyword_overflow by done.
  rewrite (proj2 (Nat.leb_gt _ _)); [done|]. unfold SVN_KEYWORD_MAX_LEN in *. lia.
Qed.

(** C38. Keywords: copying a file with its keywords expanded writes its text with
    the value behind the name of every keyword, under either name, of the four that
    have a value, and with all else as it is; copying it with its keywords contracted
    writes the text with the bare names, and so does contracting the copy in which
    they are expanded.  This holds of texts and values that fit the keyword buffer.  A
    value for which they do not is written behind the end of the buffer: the code cuts
    values, but leaves the name of the keyword out of account. *)
Theorem keywords_roundtrip repair src tmp out dk x :
  values_fit -> short 0 x = true -> src <> tmp -> tmp <> out -> src <> out -> file_at dk src = Some x ->
  (forall n, (length x < n -> length (translated k true None x) < n -> exists dk1 dk2 dk3,
     svn_wc_copy_and_translate None repair (Some k) true n src tmp dk = Some (Ok tt, dk1) /\
     file_at dk1 tmp = Some (translated k true None x) /\
     svn_wc_copy_and_translate None repair (Some k) false n src out dk = Some (Ok tt, dk2) /\
     file_at dk2 out = Some (translated k false None x) /\
     svn_wc_copy_and_translate None repair (Some k) false n tmp out dk1 = Some (Ok tt, dk3) /\
     file_at dk3 out = Some (translated k false None x))%nat) /\
  forall name v, is_name name -> v <> [] -> (2 + length name <= SVN_KEYWORD_MAX_LEN)%nat ->
    (SVN_KEYWORD_MAX_LEN - 5 < length name + Nat.min (length v) (SVN_KEYWORD_MAX_LEN - 5))%nat ->
    translate_keyword_subst ([dollar] ++ name ++ [dollar]) name (Some v) = Undef.
Proof.
  intros Hv Hs Hst Hto Hso Hx. split; [|by apply overflow_undef].
  destruct (krun_short true x Hv [] (or_introl eq_refl) Hs) as ([kb o] & E).
  assert (Forall (λ e, Forall clean e.2) (candidates k)) as Hc by (eapply list.Forall_impl; [exact Hv|]; by intros e []).
  destruct (contract_after_expand x Hc kb o E) as (y & Ey & Eo). assert (collecting []) as H0 by (by left).
  pose proof (krun_translated true x Hv [] kb o H0 E) as Ht. pose proof (krun_translated false x Hv [] kb y H0 Ey) as Hf.
  cbn [opened] in Ht, Hf. intros n Hn1 Hn2. rewrite <- Ht in *. rewrite <- Hf in *.
  destruct (copy_outs None repair (Some k) true n src tmp dk x (Ok tt) (o ++ kb)) as (dk1 & E1 & F1 & _); try done;
    [by right|by apply krun_outs|by left|].
  destruct (copy_outs None repair (Some k) false n src out dk x (Ok tt) (y ++ kb)) as (dk2 & E2 & F2 & _); try done;
    [by right|by apply krun_outs|by left|].
  destruct (copy_outs None repair (Some k) false n tmp out dk1 (o ++ kb) (Ok tt) (y ++ kb)) as (dk3 & E3 & F3 & _); try done;
    [by right|by apply krun_outs|by left|].
  by exists dk1, dk2, dk3.
Qed.
End keywords.

Section samples.
#[local] Existing Instance mem_disk.
#[local] Existing Instance mem_disk_laws.

Definition sample_disk (x : bytes) : disk := {[bstr "a" := x]} : gmap bytes bytes.

Definition sample_lines : bytes := bstr "one" ++ [LF] ++ bstr "two" ++ [LF].

Lemma eol_conversion_witness : exists dk',
  svn_wc_copy_and_translate (Some [CR; LF]) false None false 9 (bstr "a") (bstr "b") (sample_disk sample_lines) = Some (Ok tt, dk') /\
  file_at dk' (bstr "b") = Some (bstr "one" ++ [CR; LF] ++ bstr "two" ++ [CR; LF]).
Proof.
  destruct (eol_conversion [CR; LF] false false 9 (bstr "a") (bstr "b") (sample_disk sample_lines) sample_lines)
    as ((dk' & E & F & _) & _).
  - by vm_compute.
  - by vm_compute.
  - cbn. lia.
  - exists dk'. split; [rewrite E; by vm_compute|]. rewrite F. by vm_compute.
Defined.

Definition sample_keywords : svn_wc_keywords_t := mk_keywords (Some (bstr "7")) None (Some (bstr "jane")) None.

Definition sample_keyword_text : bytes := bstr "a $Rev: 5 $ b $Author$, $Date$" ++ [LF].

Definition sample_expanded : bytes := bstr "a $Rev: 7 $ b $Author: jane $, $Date$" ++ [LF].
Definition sample_contracted : bytes := bstr "a $Rev$ b $Author$, $Date$" ++ [LF].

Lemma keywords_roundtrip_witness :
  (exists n dk1 dk3,
     svn_wc_copy_and_translate None false (Some sample_keywords) true n (bstr "a") (bstr "b") (sample_disk sample_keyword_text) =
       Some (Ok tt, dk1) /\ file_at dk1 (bstr "b") = Some sample_expanded /\
     svn_wc_copy_and_translate None false (Some sample_keywords) false n (bstr "b") (bstr "c") dk1 = Some (Ok tt, dk3) /\
     file_at dk3 (bstr "c") = Some sample_contracted) /\
  translate_keyword_subst (bstr "$Rev$") (bstr "Rev") (Some (replicate 248 dollar)) = Undef.
Proof.
  destruct (keywords_roundtrip sample_keywords false (bstr "a") (bstr "b") (bstr "c") (sample_disk sample_keyword_text)
    sample_keyword_text) as (H & Hov); [repeat constructor; by vm_compute|by vm_compute..|].
  split.
  - assert (translated sample_keywords true None sample_keyword_text = sample_expanded) as Et by (by vm_compute).
    assert (translated sample_keywords false None sample_keyword_text = sample_contracted) as Ec by (by vm_compute).
    rewrite Et, Ec in H. destruct (H 60%nat) as (dk1 & dk2 & dk3 & E1 & F1 & _ & _ & E3 & F3);
      [by apply Nat.ltb_lt; vm_compute..|].
    exists 60%nat, dk1, dk3. exact (conj E1 (conj F1 (conj E3 F3))).
  - refine (Hov (bstr "Rev") (replicate 248 dollar) _ _ _ _); [repeat apply Forall_cons_2; try done; apply Forall_nil_2|done|vm_compute; lia|vm_compute; lia].
Defined.
End samples.
