(* ===== verification/Dag.v ===== *)
(** * The directory tree of a filesystem ([libsvn_fs/dag.c])

    Nodes, their entries, their properties and contents, and copy on write.  What
    a node holds in memory is its id, its kind and the cache of its NODE-REVISION
    skel; a skel that the code changes in place is the one in the cache, and the
    node is given back with the changed cache. *)

From S2P Require Import Prelude Types KeyGen Libc Skel Proplist Id Stream Db NodeKeys Fs RevTable TxnTable NodesTable Strings.
From S2P Require Import Reps RepOps.

Record dag_node_t := mk_node {
  node_id : list Z;
  node_kind : svn_node_kind_t;
  node_revision : option skel;
}.

Definition set_cache (c : option skel) (node : dag_node_t) : dag_node_t :=
  mk_node (node_id node) (node_kind node) c.

Definition svn_fs__dag_is_file (node : dag_node_t) : bool := bool_decide (node_kind node = svn_node_file).
Definition svn_fs__dag_is_directory (node : dag_node_t) : bool := bool_decide (node_kind node = svn_node_dir).

(** ** The parts of a NODE-REVISION skel *)

Definition NR_HEADER (node_rev : skel) : outcome skel := kid node_rev 0.
Definition NR_PROP_KEY (node_rev : skel) : outcome skel := kid node_rev 1.
Definition NR_DATA_KEY (node_rev : skel) : outcome skel := kid node_rev 2.
Definition NR_EDIT_KEY (node_rev : skel) : option skel := kids node_rev !! 3%nat.
Definition NR_HDR_KIND (header : skel) : option skel := head (kids header).
Definition NR_HDR_REV (header : skel) : outcome skel := kid header 1.
Definition NR_HDR_COPY (header : skel) : option skel := kids header !! 2%nat.

(** Changing the part number [i] of a list. *)
Definition set_kid (s : skel) (i : nat) (c : skel) : skel := set_kids s (<[i := c]> (kids s)).

(** [(SVN_FS__NR_..._KEY (node_rev))->data = key]. *)
Definition set_key (node_rev : skel) (i : nat) (key : bytes) : outcome skel :=
  s ← kid node_rev i; Ok (set_kid node_rev i (set_data s key)).

Definition set_hdr_rev (node_rev : skel) (rev : bytes) : outcome skel :=
  header ← NR_HEADER node_rev;
  rev_skel ← NR_HDR_REV header;
  Ok (set_kid node_rev 0 (set_kid header 1 (set_data rev_skel rev))).

(** [SVN_FS__NR_HDR_COPY (header) = NULL]. *)
Definition clear_hdr_copy (node_rev : skel) : outcome skel :=
  header ← NR_HEADER node_rev;
  _ ← NR_HDR_REV header;
  Ok (set_kid node_rev 0 (set_kids header (take 2 (kids header)))).

Definition node_is_kind_p (node_rev : skel) (kindstr : bytes) : outcome bool :=
  header ← NR_HEADER node_rev; Ok (svn_fs__matches_atom (NR_HDR_KIND header) kindstr).

Definition node_rev_is_mutable (node_content : skel) : outcome bool :=
  header ← NR_HEADER node_content;
  rev ← NR_HDR_REV header;
  Ok (length (skel_data rev) =? 0)%nat.

Definition node_rev_make_mutable (node_rev : skel) : outcome skel :=
  node_rev ← set_hdr_rev node_rev [];
  clear_hdr_copy node_rev.

(** [apr_pstrndup] of a key. *)
Definition key_of (s : skel) : bytes := apr_pstrndup (skel_data s).

(** ** The loops over the entries of a directory *)

(** The loop of [find_dir_entry]: the position of the entry in the list, which
    gives the previous one, and the entry. *)
Fixpoint find_dir_entry (entries : list skel) (name : bytes) (i : nat) : outcome (option (nat * skel)) :=
  match entries with
  | [] => Ok None
  | cur_entry :: entries =>
      if svn_fs__matches_atom (head (kids cur_entry)) name then
        if negb (svn_fs__list_length (Some cur_entry) =? 2) then Err SVN_ERR_FS_CORRUPT
        else Ok (Some (i, cur_entry))
      else find_dir_entry entries name (S i)
  end.

(** The check of [get_dir_entries]. *)
Fixpoint check_entries (entries : list skel) : outcome unit :=
  match entries with
  | [] => Ok tt
  | entry :: entries =>
      if negb (svn_fs__list_length (Some entry) =? 2) then Err SVN_ERR_FS_CORRUPT else check_entries entries
  end.

(** The table of [svn_fs__dag_dir_entries_hash]: the id of each name, [None] for
    one that does not parse. *)
Fixpoint entries_hash (entries : list skel) (table : gmap bytes (option (list Z))) :
    outcome (gmap bytes (option (list Z))) :=
  match entries with
  | [] => Ok table
  | entry :: entries =>
      name_skel ← kid entry 0;
      id_skel ← kid entry 1;
      entries_hash entries (<[skel_data name_skel := svn_fs_parse_id (skel_data id_skel)]> table)
  end.

Section dag.
Context `{db : BerkeleyDB}.
(** The fuel of [rep_read_range], and of the recursion on directories. *)
Context (fuel : nat).

(** ** Node revisions and their caches *)

(** The cache of a mutable node is cleared when the trail ends, by
    [uncache_node_revision]; an immutable node keeps a copy of the skel. *)
Definition uncache_node_revision (node : dag_node_t) : dag_node_t := set_cache None node.

Definition cache_node_revision (node : dag_node_t) (s : skel) : outcome dag_node_t :=
  is_mutable ← node_rev_is_mutable s;
  Ok (set_cache (Some (if (is_mutable : bool) then s else svn_fs__copy_skel s)) node).

Definition get_node_revision (node : dag_node_t) : trail (skel * dag_node_t) :=
  match node_revision node with
  | Some s => mret (s, node)
  | None =>
      s ← svn_fs__get_node_revision (node_id node);
      node ← lift (cache_node_revision node s);
      s ← lift (deref (node_revision node));
      mret (s, node)
  end.

Definition set_node_revision (node : dag_node_t) (s : skel) : trail dag_node_t :=
  svn_fs__put_node_revision (node_id node) s;;
  lift (cache_node_revision node s).

Definition svn_fs__dag_check_mutable (node : dag_node_t) : trail (bool * dag_node_t) :=
  '(node_rev, node) ← get_node_revision node;
  is_mutable ← lift (node_rev_is_mutable node_rev);
  mret (is_mutable, node).

(** [None]: a null pointer. *)
Definition svn_fs__dag_get_node (id : option (list Z)) : trail dag_node_t :=
  id ← lift (id ← deref id; svn_fs__id_copy id);
  '(contents, new_node) ← get_node_revision (mk_node id svn_node_none None);
  is_file ← lift (node_is_kind_p contents (bstr "file"));
  if (is_file : bool) then mret (mk_node (node_id new_node) svn_node_file (node_revision new_node))
  else
    is_dir ← lift (node_is_kind_p contents (bstr "dir"));
    if (is_dir : bool) then mret (mk_node (node_id new_node) svn_node_dir (node_revision new_node))
    else fail SVN_ERR_FS_GENERAL.

Definition svn_fs__dag_get_revision (node : dag_node_t) : trail (svn_revnum_t * dag_node_t) :=
  '(node_rev, node) ← get_node_revision node;
  rev_str ← lift (header ← NR_HEADER node_rev; NR_HDR_REV header);
  if (length (skel_data rev_str) =? 0)%nat then mret (SVN_INVALID_REVNUM, node)
  else rev ← lift (atol (key_of rev_str)); mret (rev, node).

(** ** Directories *)

Definition get_dir_entries (node_rev : skel) : trail skel :=
  match head (kids node_rev) with
  | None => fail SVN_ERR_FS_CORRUPT
  | Some header =>
      if svn_fs__matches_atom (NR_HDR_KIND header) (bstr "dir") then
        rep_key_skel ← lift (NR_DATA_KEY node_rev);
        let rep_key := key_of rep_key_skel in
        if empty_string rep_key then mret svn_fs__make_empty_list
        else
          entries_raw ← svn_fs__rep_contents fuel rep_key;
          entries ← lift (deref (svn_fs__parse_skel entries_raw));
          lift (check_entries (kids entries));;
          mret entries
      else fail SVN_ERR_FS_NOT_DIRECTORY
  end.

Definition svn_fs__dag_dir_entries_skel (node : dag_node_t) : trail (skel * dag_node_t) :=
  if negb (svn_fs__dag_is_directory node) then fail SVN_ERR_FS_NOT_DIRECTORY
  else
    '(node_rev, node) ← get_node_revision node;
    entries ← get_dir_entries node_rev;
    mret (entries, node).

Definition dir_entry_from_node (parent : dag_node_t) (name : bytes) : trail (option skel * dag_node_t) :=
  '(entries, parent) ← svn_fs__dag_dir_entries_skel parent;
  entry ← lift (find_dir_entry (kids entries) name 0);
  mret (snd <$> entry, parent).

(** [svn_stream_write] to a representation, the error being ignored. *)
Definition write_ignored (rep_key data : bytes) : trail unit := λ fs,
  let '(r, fs) := rep_write rep_key data fs in
  match r with
  | Ok _ | Err _ => (Ok tt, fs)
  | Abort => (Abort, fs)
  | Undef => (Undef, fs)
  end.

(** The change of the entries list by [set_entry]. *)
Definition change_entry (entries : skel) (name id_str : bytes) : outcome skel :=
  found ← find_dir_entry (kids entries) name 0;
  match found with
  | Some (i, entry) => entry ← set_key entry 1 id_str; Ok (set_kid entries i entry)
  | None =>
      new_entry ← svn_fs__prepend (svn_fs__str_atom id_str) svn_fs__make_empty_list;
      new_entry ← svn_fs__prepend (svn_fs__str_atom name) new_entry;
      svn_fs__prepend new_entry entries
  end.

(** The mutable representation of the entries of [parent], and [parent] which
    refers to it. *)
Definition mutable_entries (parent : dag_node_t) (parent_node_rev : skel) (rep_key : bytes) :
    trail (bytes * dag_node_t) :=
  mutable_rep_key ← svn_fs__get_mutable_rep fuel (Some rep_key);
  if decide (rep_key = mutable_rep_key) then mret (mutable_rep_key, parent)
  else
    new_node_rev ← lift (set_key (svn_fs__copy_skel parent_node_rev) 2 mutable_rep_key);
    parent ← set_node_revision parent new_node_rev;
    mret (mutable_rep_key, parent).

Definition set_entry (parent : dag_node_t) (name : bytes) (id : list Z) : trail dag_node_t :=
  '(parent_node_rev, parent) ← get_node_revision parent;
  rep_key_skel ← lift (NR_DATA_KEY parent_node_rev);
  let rep_key := key_of rep_key_skel in
  '(mutable_rep_key, parent) ← mutable_entries parent parent_node_rev rep_key;
  (if empty_string rep_key then
     empty ← lift (svn_fs__unparse_skel svn_fs__make_empty_list);
     write_ignored mutable_rep_key empty
   else mret tt);;
  id_str ← lift (svn_fs_unparse_id id);
  str ← svn_fs__rep_contents fuel mutable_rep_key;
  entries ← lift (deref (svn_fs__parse_skel str));
  entries ← lift (change_entry entries name id_str);
  unparsed_entries ← lift (svn_fs__unparse_skel entries);
  svn_fs__rep_contents_clear mutable_rep_key;;
  write_ignored mutable_rep_key unparsed_entries;;
  mret parent.

(** The skel of a new node. *)
Definition new_node_skel (is_dir : bool) : outcome skel :=
  header ← svn_fs__prepend (svn_fs__str_atom []) svn_fs__make_empty_list;
  header ← svn_fs__prepend (svn_fs__str_atom (if is_dir then bstr "dir" else bstr "file")) header;
  s ← svn_fs__prepend (svn_fs__str_atom []) svn_fs__make_empty_list;
  s ← svn_fs__prepend (svn_fs__str_atom []) s;
  svn_fs__prepend header s.

(** The child and the parent. *)
Definition make_entry (parent : dag_node_t) (name : bytes) (is_dir : bool) : trail (dag_node_t * dag_node_t) :=
  if negb (svn_fs__is_single_path_component name) then fail SVN_ERR_FS_NOT_SINGLE_PATH_COMPONENT
  else if negb (svn_fs__dag_is_directory parent) then fail SVN_ERR_FS_NOT_DIRECTORY
  else
    '(is_mutable, parent) ← svn_fs__dag_check_mutable parent;
    if negb is_mutable then fail SVN_ERR_FS_NOT_MUTABLE
    else
      '(entry_skel, parent) ← dir_entry_from_node parent name;
      match entry_skel with
      | Some _ => fail SVN_ERR_FS_ALREADY_EXISTS
      | None =>
          _id_str ← lift (svn_fs_unparse_id (node_id parent));
          new_node ← lift (new_node_skel is_dir);
          new_node_id ← svn_fs__create_node new_node;
          child ← svn_fs__dag_get_node (Some new_node_id);
          parent ← set_entry parent name (node_id child);
          mret (child, parent)
      end.

Definition svn_fs__dag_make_file (parent : dag_node_t) (name : bytes) : trail (dag_node_t * dag_node_t) :=
  make_entry parent name false.
Definition svn_fs__dag_make_dir (parent : dag_node_t) (name : bytes) : trail (dag_node_t * dag_node_t) :=
  make_entry parent name true.

Definition svn_fs__dag_dir_entries_hash (node : dag_node_t) :
    trail (gmap bytes (option (list Z)) * dag_node_t) :=
  '(entries, node) ← svn_fs__dag_dir_entries_skel node;
  table ← lift (entries_hash (kids entries) ∅);
  mret (table, node).

Definition svn_fs__dag_set_entry (node : dag_node_t) (entry_name : bytes) (id : list Z) : trail dag_node_t :=
  if negb (svn_fs__dag_is_directory node) then fail SVN_ERR_FS_NOT_DIRECTORY
  else
    '(is_mutable, node) ← svn_fs__dag_check_mutable node;
    if negb is_mutable then fail SVN_ERR_FS_NOT_DIRECTORY
    else set_entry node entry_name id.

Definition svn_fs__dag_open (parent : dag_node_t) (name : bytes) : trail (dag_node_t * dag_node_t) :=
  '(entry_skel, parent) ← dir_entry_from_node parent name;
  match entry_skel with
  | None => fail SVN_ERR_FS_NOT_FOUND
  | Some entry_skel =>
      if negb (svn_fs__is_single_path_component name) then fail SVN_ERR_FS_NOT_SINGLE_PATH_COMPONENT
      else
        id_skel ← lift (kid entry_skel 1);
        child ← svn_fs__dag_get_node (svn_fs_parse_id (skel_data id_skel));
        mret (child, parent)
  end.

(** ** Property lists *)

Definition svn_fs__dag_get_proplist (node : dag_node_t) : trail (skel * dag_node_t) :=
  '(node_rev, node) ← get_node_revision node;
  rep_key_skel ← lift (NR_PROP_KEY node_rev);
  if (length (skel_data rep_key_skel) =? 0)%nat then mret (svn_fs__make_empty_list, node)
  else
    propstr ← svn_fs__rep_contents fuel (key_of rep_key_skel);
    proplist ← lift (deref (svn_fs__parse_skel propstr));
    mret (proplist, node).

(** The key of the node revision is changed in the cache. *)
Definition svn_fs__dag_set_proplist (node : dag_node_t) (proplist : skel) : trail dag_node_t :=
  '(is_mutable, node) ← svn_fs__dag_check_mutable node;
  if negb is_mutable then fail SVN_ERR_FS_NOT_MUTABLE
  else if negb (svn_fs__is_valid_proplist proplist) then fail SVN_ERR_FS_CORRUPT
  else
    '(node_rev, node) ← get_node_revision node;
    orig_key_skel ← lift (NR_PROP_KEY node_rev);
    let orig_rep_key := key_of orig_key_skel in
    mutable_rep_key ← svn_fs__get_mutable_rep fuel (Some orig_rep_key);
    node ← (if decide (mutable_rep_key = orig_rep_key) then mret node
            else
              node_rev ← lift (set_key node_rev 1 mutable_rep_key);
              svn_fs__put_node_revision (node_id node) node_rev;;
              mret (set_cache (Some node_rev) node));
    unparsed_props ← lift (svn_fs__unparse_skel proplist);
    svn_fs__rep_contents_clear mutable_rep_key;;
    rep_write mutable_rep_key unparsed_props;;
    mret node.

(** ** Roots *)

Definition svn_fs__dag_revision_root (rev : svn_revnum_t) : trail dag_node_t :=
  root_id ← svn_fs__rev_get_root rev; svn_fs__dag_get_node (Some root_id).

Definition svn_fs__dag_txn_root (txn : bytes) : trail dag_node_t :=
  '(root_id, _) ← svn_fs__get_txn_ids txn; svn_fs__dag_get_node (Some root_id).

Definition svn_fs__dag_txn_base_root (txn : bytes) : trail dag_node_t :=
  '(_, base_root_id) ← svn_fs__get_txn_ids txn; svn_fs__dag_get_node (Some base_root_id).

(** ** Cloning *)

(** The child and the parent. *)
Definition svn_fs__dag_clone_child (parent : dag_node_t) (name : bytes) : trail (dag_node_t * dag_node_t) :=
  '(is_mutable, parent) ← svn_fs__dag_check_mutable parent;
  if negb is_mutable then fail SVN_ERR_FS_NOT_MUTABLE
  else if negb (svn_fs__is_single_path_component name) then fail SVN_ERR_FS_NOT_SINGLE_PATH_COMPONENT
  else
    '(cur_entry, parent) ← svn_fs__dag_open parent name;
    '(is_mutable, cur_entry) ← svn_fs__dag_check_mutable cur_entry;
    '(new_node_id, parent) ←
      (if (is_mutable : bool) then mret (node_id cur_entry, parent)
       else
         '(node_rev, cur_entry) ← get_node_revision cur_entry;
         node_rev ← lift (node_rev_make_mutable node_rev);
         new_node_id ← svn_fs__create_successor (node_id cur_entry) node_rev;
         parent ← set_entry parent name new_node_id;
         mret (new_node_id, parent));
    child ← svn_fs__dag_get_node (Some new_node_id);
    mret (child, parent).

Definition svn_fs__dag_clone_root (svn_txn : bytes) : trail dag_node_t :=
  '(root_id, base_root_id) ← svn_fs__get_txn_ids svn_txn;
  same ← lift (svn_fs__id_eq root_id base_root_id);
  root_id ←
    (if (same : bool) then
       root_skel ← svn_fs__get_node_revision base_root_id;
       root_skel ← lift (node_rev_make_mutable root_skel);
       root_id ← svn_fs__create_successor base_root_id root_skel;
       svn_fs__set_txn_root svn_txn root_id;;
       mret root_id
     else mret root_id);
  svn_fs__dag_get_node (Some root_id).

(** ** Deleting *)

(** A loop over the entries of a directory; the id of an entry may not parse. *)
Fixpoint each_entry (f : option (list Z) -> trail unit) (entries : list skel) : trail unit :=
  match entries with
  | [] => mret tt
  | entry :: entries =>
      id_skel ← lift (kid entry 1);
      f (svn_fs_parse_id (skel_data id_skel));;
      each_entry f entries
  end.

(** [svn_fs__delete_rep_if_mutable], for a key that is not empty. *)
Definition delete_key_if_mutable (key_skel : skel) : trail unit :=
  if empty_string (key_of key_skel) then mret tt else svn_fs__delete_rep_if_mutable (key_of key_skel).

(** [n] bounds the depth of the directories. *)
Fixpoint svn_fs__dag_delete_if_mutable (n : nat) (id : option (list Z)) : trail unit :=
  match n with
  | O => lift Undef
  | S n =>
      node ← svn_fs__dag_get_node id;
      '(is_mutable, node) ← svn_fs__dag_check_mutable node;
      if negb is_mutable then mret tt
      else
        (if svn_fs__dag_is_directory node then
           '(entries, _) ← svn_fs__dag_dir_entries_skel node;
           each_entry (svn_fs__dag_delete_if_mutable n) (kids entries)
         else mret tt);;
        id ← lift (deref id);
        node_rev ← svn_fs__get_node_revision id;
        prop_key ← lift (NR_PROP_KEY node_rev);
        delete_key_if_mutable prop_key;;
        data_key ← lift (NR_DATA_KEY node_rev);
        delete_key_if_mutable data_key;;
        match NR_EDIT_KEY node_rev with
        | Some edit_key => delete_key_if_mutable edit_key
        | None => mret tt
        end;;
        svn_fs__delete_node_revision id
  end.

Definition delete_entry (parent : dag_node_t) (name : bytes) (require_empty : bool) : trail dag_node_t :=
  if negb (svn_fs__dag_is_directory parent) then fail SVN_ERR_FS_NOT_DIRECTORY
  else
    '(is_mutable, parent) ← svn_fs__dag_check_mutable parent;
    if negb is_mutable then fail SVN_ERR_FS_NOT_MUTABLE
    else if negb (svn_fs__is_single_path_component name) then fail SVN_ERR_FS_NOT_SINGLE_PATH_COMPONENT
    else
      '(parent_node_rev, parent) ← get_node_revision parent;
      rep_key_skel ← lift (NR_DATA_KEY parent_node_rev);
      let rep_key := key_of rep_key_skel in
      if empty_string rep_key then fail SVN_ERR_FS_NO_SUCH_ENTRY
      else
        '(mutable_rep_key, parent) ← mutable_entries parent parent_node_rev rep_key;
        str ← svn_fs__rep_contents fuel mutable_rep_key;
        entries ← lift (deref (svn_fs__parse_skel str));
        found ← lift (find_dir_entry (kids entries) name 0);
        match found with
        | None => fail SVN_ERR_FS_NO_SUCH_ENTRY
        | Some (i, entry) =>
            id_skel ← lift (kid entry 1);
            let id := svn_fs_parse_id (skel_data id_skel) in
            node ← svn_fs__dag_get_node id;
            not_empty ←
              (if svn_fs__dag_is_directory node then
                 '(entries_here, _) ← svn_fs__dag_dir_entries_skel node;
                 mret (require_empty && negb (svn_fs__list_length (Some entries_here) =? 0))
               else mret false);
            if (not_empty : bool) then fail SVN_ERR_FS_DIR_NOT_EMPTY
            else
              svn_fs__dag_delete_if_mutable fuel id;;
              unparsed_entries ← lift (svn_fs__unparse_skel
                (set_kids entries (take i (kids entries) ++ drop (S i) (kids entries))));
              svn_fs__rep_contents_clear mutable_rep_key;;
              rep_write mutable_rep_key unparsed_entries;;
              mret parent
        end.

Definition svn_fs__dag_delete (parent : dag_node_t) (name : bytes) : trail dag_node_t :=
  delete_entry parent name true.
Definition svn_fs__dag_delete_tree (parent : dag_node_t) (name : bytes) : trail dag_node_t :=
  delete_entry parent name false.

(** ** Links and copies *)

(** The parent and the child. *)
Definition svn_fs__dag_link (parent child : dag_node_t) (name : bytes) : trail (dag_node_t * dag_node_t) :=
  if negb (svn_fs__dag_is_directory parent) then fail SVN_ERR_FS_NOT_DIRECTORY
  else
    '(is_mutable, parent) ← svn_fs__dag_check_mutable parent;
    if negb is_mutable then fail SVN_ERR_FS_NOT_MUTABLE
    else
      '(is_mutable, child) ← svn_fs__dag_check_mutable child;
      if (is_mutable : bool) then fail SVN_ERR_FS_NOT_MUTABLE
      else if negb (svn_fs__is_single_path_component name) then fail SVN_ERR_FS_NOT_SINGLE_PATH_COMPONENT
      else
        '(entry_skel, parent) ← dir_entry_from_node parent name;
        match entry_skel with
        | Some _ => fail SVN_ERR_FS_ALREADY_EXISTS
        | None => parent ← set_entry parent name (node_id child); mret (parent, child)
        end.

(** A number printed with ["%ld"]. *)
Definition print_long (n : Z) : bytes := if n <? 0 then zb 45 :: dec_text (- n) else dec_text n.

(** The destination and the source. *)
Definition svn_fs__dag_copy (to_node : dag_node_t) (entry : bytes) (from_node : dag_node_t)
    (preserve_history : bool) (from_rev : svn_revnum_t) (from_path : bytes) : trail (dag_node_t * dag_node_t) :=
  if preserve_history then
    '(from_node_rev, from_node) ← get_node_revision from_node;
    let to_node_rev := svn_fs__copy_skel from_node_rev in
    copy_opt ← lift (
      s ← svn_fs__prepend (svn_fs__str_atom from_path) svn_fs__make_empty_list;
      s ← svn_fs__prepend (svn_fs__str_atom (print_long from_rev)) s;
      svn_fs__prepend (svn_fs__str_atom (bstr "copy")) s);
    to_node_rev ← lift (
      to_node_rev ← clear_hdr_copy to_node_rev;
      header ← NR_HEADER to_node_rev;
      header ← svn_fs__append copy_opt header;
      set_hdr_rev (set_kid to_node_rev 0 header) []);
    id ← svn_fs__create_node to_node_rev;
    to_node ← svn_fs__dag_set_entry to_node entry id;
    mret (to_node, from_node)
  else
    to_node ← svn_fs__dag_set_entry to_node entry (node_id from_node);
    mret (to_node, from_node).

(** [None]: not a copy. *)
Definition svn_fs__dag_copied_from (node : dag_node_t) : trail (option (svn_revnum_t * bytes) * dag_node_t) :=
  '(node_rev, node) ← get_node_revision node;
  header ← lift (NR_HEADER node_rev);
  match NR_HDR_COPY header with
  | Some copy_skel =>
      rev_skel ← lift (kid copy_skel 1);
      rev ← lift (atol (key_of rev_skel));
      path_skel ← lift (kid copy_skel 2);
      mret (Some (rev, key_of path_skel), node)
  | None => mret (None, node)
  end.

(** ** Contents of files *)

(** The representation to read, [None] for none. *)
Definition svn_fs__dag_get_contents (file : dag_node_t) : trail (option bytes * dag_node_t) :=
  if negb (svn_fs__dag_is_file file) then fail SVN_ERR_FS_NOT_FILE
  else
    '(node_rev, file) ← get_node_revision file;
    data_key ← lift (NR_DATA_KEY node_rev);
    mret (if negb (length (skel_data data_key) =? 0)%nat then Some (key_of data_key) else None, file).

Definition svn_fs__dag_file_length (file : dag_node_t) : trail (Z * dag_node_t) :=
  if negb (svn_fs__dag_is_file file) then fail SVN_ERR_FS_NOT_FILE
  else
    '(node_rev, file) ← get_node_revision file;
    lift (c_assert (3 <=? svn_fs__list_length (Some node_rev)));;
    data_key ← lift (NR_DATA_KEY node_rev);
    length ← svn_fs__rep_contents_size (key_of data_key);
    mret (length, file).

(** The representation to write to.  The node revision is changed in the cache. *)
Definition svn_fs__dag_get_edit_stream (file : dag_node_t) : trail (bytes * dag_node_t) :=
  if negb (svn_fs__dag_is_file file) then fail SVN_ERR_FS_NOT_FILE
  else
    '(is_mutable, file) ← svn_fs__dag_check_mutable file;
    if negb is_mutable then fail SVN_ERR_FS_NOT_MUTABLE
    else
      '(node_rev_skel, file) ← get_node_revision file;
      match NR_EDIT_KEY node_rev_skel with
      | Some edit_key => svn_fs__delete_rep_if_mutable (key_of edit_key)
      | None => mret tt
      end;;
      mutable_rep_key ← svn_fs__get_mutable_rep fuel None;
      node_rev_skel ← lift (svn_fs__append (svn_fs__str_atom mutable_rep_key) node_rev_skel);
      svn_fs__put_node_revision (node_id file) node_rev_skel;;
      mret (mutable_rep_key, set_cache (Some node_rev_skel) file).

(** The edit key takes the place of the data key. *)
Definition svn_fs__dag_finalize_edits (file : dag_node_t) : trail dag_node_t :=
  if negb (svn_fs__dag_is_file file) then fail SVN_ERR_FS_NOT_FILE
  else
    '(is_mutable, file) ← svn_fs__dag_check_mutable file;
    if negb is_mutable then fail SVN_ERR_FS_NOT_MUTABLE
    else
      '(node_rev_skel, file) ← get_node_revision file;
      match NR_EDIT_KEY node_rev_skel with
      | None => mret file
      | Some _ =>
          data_key ← lift (NR_DATA_KEY node_rev_skel);
          let node_rev_skel := set_kids node_rev_skel (take 2 (kids node_rev_skel) ++ drop 3 (kids node_rev_skel)) in
          svn_fs__put_node_revision (node_id file) node_rev_skel;;
          delete_key_if_mutable data_key;;
          mret (set_cache (Some node_rev_skel) file)
      end.

Definition svn_fs__dag_dup (node : dag_node_t) : outcome dag_node_t :=
  id ← svn_fs__id_copy (node_id node); Ok (mk_node id (node_kind node) None).

(** Whether two keys differ, when somebody wants to know; [same] says whether the
    pointers that are compared are equal. *)
Definition keys_changed (want same : bool) (key1 key2 : outcome skel) : outcome (option bool) :=
  if want then
    key1 ← key1; key2 ← key2; equal ← svn_fs__skels_are_equal same key1 key2; Ok (Some (negb equal))
  else Ok None.

Definition svn_fs__things_different (want_props want_contents : bool) (same1 same2 : bool)
    (node1 node2 : dag_node_t) : trail (option bool * option bool * (dag_node_t * dag_node_t)) :=
  if negb want_props && negb want_contents then mret (None, None, (node1, node2))
  else
    '(node_rev1, node1) ← get_node_revision node1;
    '(node_rev2, node2) ← get_node_revision node2;
    props_changed ← lift (keys_changed want_props same1 (NR_PROP_KEY node_rev1) (NR_PROP_KEY node_rev2));
    contents_changed ← lift (keys_changed want_contents same2 (NR_DATA_KEY node_rev1) (NR_DATA_KEY node_rev2));
    mret (props_changed, contents_changed, (node1, node2)).
End dag.
