(* ===== verification/NodeRec.v ===== *)
(** * What node revisions and directories are

    The skels of the [nodes] table as records, the skels of directories as finite
    maps from names to ids, and what the functions of [libsvn_fs/dag.c] that
    examine and change them do. *)

From S2P Require Import Prelude Types KeyGen Libc Skel Proplist Id Db NodeKeys Fs NodesTable Reps RepOps Dag.

(** ** Node revisions *)

(** The kind, the revision (empty for a mutable node), the options (where the node
    was copied from), and the keys of the properties, of the data or entries, and of
    an unfinished edit. *)
Record node_rec := mk_nr {
  nr_kind : svn_node_kind_t;
  nr_rev : bytes;
  nr_opts : list skel;
  nr_keys : list bytes;
}.

Definition kind_text (k : svn_node_kind_t) : bytes :=
  match k with svn_node_file => bstr "file" | svn_node_dir => bstr "dir" | svn_node_none => [] | svn_node_unknown => bstr "unknown" end.

Definition nr_skel (r : node_rec) : skel :=
  SList [] (SList [] (Atom (kind_text (nr_kind r)) :: Atom (nr_rev r) :: nr_opts r) :: (Atom <$> nr_keys r)).

Definition set_nr_key (i : nat) (key : bytes) (r : node_rec) : node_rec :=
  mk_nr (nr_kind r) (nr_rev r) (nr_opts r) (<[i := key]> (nr_keys r)).

(** The mutable successor of a node revision. *)
Definition nr_mutable (r : node_rec) : node_rec := mk_nr (nr_kind r) [] [] (nr_keys r).

Record nr_ok (r : node_rec) : Prop := {
  nk_valid : is_valid_node_revision (nr_skel r) = true;
  nk_opts : erase <$> nr_opts r = nr_opts r;
  nk_small : Z.of_nat (length (nr_rev r)) < 2 ^ 31 /\
    Forall (λ k, Z.of_nat (length k) < 2 ^ 31) (nr_keys r) /\ skel_small (SList [] (nr_opts r));
}.

Lemma nr_ok_kind r : nr_ok r -> nr_kind r = svn_node_file \/ nr_kind r = svn_node_dir.
Proof.
  intros [H _ _]. unfold nr_skel in H. destruct (nr_kind r); [|by left|by right|].
  all: exfalso; unfold is_valid_node_revision in H; destruct (is_valid_header _) as [kind|] eqn:E; [|done];
    cbn in E; destruct (forallb is_valid_option (nr_opts r)); [|done]; injection E as <-;
    by destruct (nr_keys r) as [|k1 [|k2 [|k3 [|]]]].
Qed.

Lemma atoms_erase (ks : list bytes) : erase <$> (Atom <$> ks) = Atom <$> ks.
Proof. induction ks as [|k ks IH]; [done|]. cbn [fmap list_fmap erase] in *. by rewrite IH. Qed.

Lemma nr_skel_erase r : nr_ok r -> erase (nr_skel r) = nr_skel r.
Proof.
  intros [_ Ho _]. unfold nr_skel. cbn [erase fmap list_fmap]. do 2 f_equal.
  - do 2 f_equal. by rewrite Ho.
  - apply atoms_erase.
Qed.

Lemma key_atoms_equiv l (ks : list bytes) : Forall2 (≡) l (Atom <$> ks) -> l = Atom <$> ks.
Proof.
  revert l. induction ks as [|k ks IH]; intros l H; inversion H as [|x ? l' ? Hx Hl]; subst; [done|].
  apply equiv_atom in Hx as ->. cbn [fmap list_fmap]. by rewrite (IH l').
Qed.

Lemma fmap_atom_inj (ks ks' : list bytes) : Atom <$> ks = Atom <$> ks' -> ks = ks'.
Proof.
  revert ks'. induction ks as [|k ks IH]; intros [|k' ks'] E; try done. injection E as -> E. by rewrite (IH ks').
Qed.

Lemma kind_text_inj k k' : kind_text k = kind_text k' -> k = k'.
Proof. destruct k, k'; (done || by intros E; vm_compute in E). Qed.

Lemma nr_skel_inj r r' : nr_skel r = nr_skel r' -> r = r'.
Proof.
  destruct r as [k v o ks], r' as [k' v' o' ks']. unfold nr_skel. cbn. intros [= Ek -> -> E].
  apply kind_text_inj in Ek as ->. by rewrite (fmap_atom_inj _ _ E).
Qed.

(** The parts of a skel that is a node revision. *)
Lemma nr_skel_parts s r :
  s ≡ nr_skel r -> exists d d' opts,
    s = SList d (SList d' (Atom (kind_text (nr_kind r)) :: Atom (nr_rev r) :: opts) :: (Atom <$> nr_keys r)) /\
    Forall2 (≡) opts (nr_opts r).
Proof.
  intros E. destruct (equiv_list _ _ _ E) as (d & l & -> & Hl). inversion Hl as [|h ? ks ? Hh Hks]; subst.
  apply key_atoms_equiv in Hks as ->. destruct (equiv_list _ _ _ Hh) as (d' & l' & -> & Hl').
  inversion Hl' as [|a ? l1 ? Ha H1]; subst. inversion H1 as [|b ? l2 ? Hb H2]; subst.
  apply equiv_atom in Ha as ->. apply equiv_atom in Hb as ->. by exists d, d', l2.
Qed.

(** Skels are the same when their parts are. *)
Lemma list_equiv d d' l l' : Forall2 (≡) l l' -> SList d l ≡ SList d' l'.
Proof.
  intros H. unfold equiv, skel_equiv. cbn [erase]. f_equal.
  induction H as [|x y l l' Hx Hl IH]; [done|]. cbn [fmap list_fmap]. unfold equiv, skel_equiv in Hx. by rewrite Hx, IH.
Qed.

Lemma skel_list_refl (l : list skel) : Forall2 (≡) l l.
Proof. by induction l; constructor. Qed.

Lemma nr_skel_equiv d d' opts r :
  Forall2 (≡) opts (nr_opts r) ->
  SList d (SList d' (Atom (kind_text (nr_kind r)) :: Atom (nr_rev r) :: opts) :: (Atom <$> nr_keys r)) ≡ nr_skel r.
Proof.
  intros H. apply list_equiv. constructor; [|apply skel_list_refl].
  apply list_equiv. by repeat constructor.
Qed.

(** ** The functions that examine and change them *)

Section parts.
Context (s : skel) (r : node_rec) (Hs : s ≡ nr_skel r).

Lemma nr_kid i k : nr_keys r !! i = Some k -> kid s (S i) = Ok (Atom k).
Proof.
  intros Hk. destruct (nr_skel_parts s r Hs) as (d & d' & opts & -> & _). unfold kid. cbn [kids].
  apply rd_Ok. change ((Atom <$> nr_keys r) !! i = Some (Atom k)). by rewrite list_lookup_fmap, Hk.
Qed.

Lemma nr_edit_key : NR_EDIT_KEY s = Atom <$> nr_keys r !! 2%nat.
Proof.
  destruct (nr_skel_parts s r Hs) as (d & d' & opts & -> & _). unfold NR_EDIT_KEY.
  change ((Atom <$> nr_keys r) !! 2%nat = Atom <$> nr_keys r !! 2%nat). apply list_lookup_fmap.
Qed.

Lemma nr_head : exists h, head (kids s) = Some h /\ svn_fs__matches_atom (NR_HDR_KIND h) (bstr "dir") = bool_decide (nr_kind r = svn_node_dir).
Proof.
  destruct (nr_skel_parts s r Hs) as (d & d' & opts & -> & _). eexists. split; [done|]. cbn [NR_HDR_KIND kids head].
  unfold NR_HDR_KIND. cbn [kids head]. rewrite matches_atom_data. apply bool_decide_ext.
  change (bstr "dir") with (kind_text svn_node_dir). split; [apply kind_text_inj|by intros ->].
Qed.

Lemma nr_is_kind kindstr : node_is_kind_p s kindstr = Ok (bool_decide (kind_text (nr_kind r) = kindstr)).
Proof.
  destruct (nr_skel_parts s r Hs) as (d & d' & opts & -> & _). unfold node_is_kind_p, NR_HEADER.
  cbn [kid kids rd lookup list_lookup mbind outcome_bind]. unfold NR_HDR_KIND. cbn [kids head]. by rewrite matches_atom_data.
Qed.

Lemma nr_is_mutable : node_rev_is_mutable s = Ok (bool_decide (nr_rev r = [])).
Proof.
  destruct (nr_skel_parts s r Hs) as (d & d' & opts & -> & _). unfold node_rev_is_mutable, NR_HEADER, NR_HDR_REV.
  cbn [kid kids rd lookup list_lookup mbind outcome_bind skel_data]. f_equal.
  destruct (nr_rev r); [done|]. by rewrite bool_decide_false.
Qed.

Lemma nr_set_key i key k :
  nr_keys r !! i = Some k -> exists s', set_key s (S i) key = Ok s' /\ s' ≡ nr_skel (set_nr_key i key r).
Proof.
  intros Hk. unfold set_key. rewrite (nr_kid i k Hk). cbn [mbind outcome_bind].
  destruct (nr_skel_parts s r Hs) as (d & d' & opts & -> & Ho). eexists. split; [done|].
  unfold set_kid. cbn [kids set_kids set_data].
  match goal with |- SList d (<[S i := Atom key]> (?h :: ?l)) ≡ _ =>
    change (<[S i := Atom key]> (h :: l)) with (h :: <[i := Atom key]> l) end.
  rewrite <- list_fmap_insert. by apply (nr_skel_equiv d d' opts (set_nr_key i key r)).
Qed.

Lemma nr_set_rev rev : exists s', set_hdr_rev s rev = Ok s' /\ s' ≡ nr_skel (mk_nr (nr_kind r) rev (nr_opts r) (nr_keys r)).
Proof.
  destruct (nr_skel_parts s r Hs) as (d & d' & opts & -> & Ho). eexists. split; [done|].
  by apply (nr_skel_equiv d d' opts (mk_nr (nr_kind r) rev (nr_opts r) (nr_keys r))).
Qed.

Lemma nr_make_mutable : exists s', node_rev_make_mutable s = Ok s' /\ s' ≡ nr_skel (nr_mutable r).
Proof.
  destruct (nr_skel_parts s r Hs) as (d & d' & opts & -> & Ho). eexists. split; [done|].
  apply (nr_skel_equiv d d' [] (nr_mutable r)). constructor.
Qed.

Lemma nr_valid : nr_ok r -> is_valid_node_revision s = true.
Proof.
  intros Hr. rewrite <- is_valid_node_revision_erase. unfold equiv, skel_equiv in Hs. rewrite Hs, nr_skel_erase by done.
  apply Hr.
Qed.
End parts.

(** ** Records that stay well formed *)

Lemma nr_ok_keys r : nr_ok r -> (2 <= length (nr_keys r))%nat.
Proof.
  intros [H _ _]. unfold nr_skel, is_valid_node_revision in H. destruct (is_valid_header _); [|done].
  destruct (nr_keys r) as [|k1 [|k2 l]]; [done|done|]. cbn [length]. lia.
Qed.

Lemma nr_ok_key r i : nr_ok r -> (i < 2)%nat -> exists k, nr_keys r !! i = Some k.
Proof. intros Hr Hi. apply lookup_lt_is_Some. pose proof (nr_ok_keys r Hr). lia. Qed.

(** What validity depends on. *)
Lemma nr_valid_same r r' :
  nr_kind r' = nr_kind r -> length (nr_keys r') = length (nr_keys r) ->
  (nr_rev r' = [] \/ nr_rev r' = nr_rev r) -> (nr_opts r' = [] \/ nr_opts r' = nr_opts r) ->
  is_valid_node_revision (nr_skel r) = true -> is_valid_node_revision (nr_skel r') = true.
Proof.
  destruct r as [k v o ks], r' as [k' v' o' ks']. cbn. intros -> Hl Hv Ho.
  unfold nr_skel, is_valid_node_revision. cbn [nr_kind nr_rev nr_opts nr_keys is_valid_header is_atom andb].
  destruct (forallb is_valid_option o) eqn:Eo; [|done].
  assert (forallb is_valid_option o' = true) as -> by (destruct Ho; subst; [reflexivity|exact Eo]).
  destruct ks as [|k1 [|k2 [|k3 [|]]]]; destruct ks' as [|k1' [|k2' [|k3' [|]]]]; try done.
  cbn [fmap list_fmap is_atom andb is_mutable_header]. destruct Hv as [-> | ->]. 2: exact (λ x, x).
  rewrite !andb_true_iff. tauto.
Qed.

Lemma nr_ok_set_key i key r : Z.of_nat (length key) < 2 ^ 31 -> nr_ok r -> nr_ok (set_nr_key i key r).
Proof.
  intros Hk [H1 H2 (H3 & H4 & H5)]. split; [|done|].
  - apply (nr_valid_same r); try done; [|by right|by right]. apply length_insert.
  - split; [done|]. split; [|done]. by apply Forall_insert.
Qed.

Lemma nr_ok_mutable r : nr_ok r -> nr_ok (nr_mutable r).
Proof.
  intros [H1 H2 (H3 & H4 & H5)]. split; [|done|].
  - apply (nr_valid_same r); try done; by left.
  - split; [done|]. split; [done|]. by vm_compute.
Qed.

Lemma nr_ok_rev rev r :
  Z.of_nat (length rev) < 2 ^ 31 -> length (nr_keys r) = 2%nat -> nr_ok r ->
  nr_ok (mk_nr (nr_kind r) rev (nr_opts r) (nr_keys r)).
Proof.
  intros Hl Hk [H1 H2 (H3 & H4 & H5)]. split; [|done|done].
  destruct r as [k v o ks]. cbn in Hk. unfold nr_skel, is_valid_node_revision in *.
  cbn [nr_kind nr_rev nr_opts nr_keys is_valid_header is_atom andb] in *.
  destruct (forallb is_valid_option o); [|done]. by destruct ks as [|k1 [|k2 [|]]].
Qed.

Lemma nr_storable r : nr_ok r -> skel_storable (nr_skel r).
Proof.
  intros Hr. pose proof (nr_ok_kind r Hr) as Hkind. destruct Hr as [H1 H2 (H3 & H4 & [H5 H6])].
  apply skel_fits_list in H5. pose proof (atom_size (nr_rev r)). pose proof (atom_size (kind_text (nr_kind r))).
  assert (length (kind_text (nr_kind r)) <= 4)%nat by (destruct Hkind as [-> | ->]; vm_compute; lia).
  assert (length (nr_keys r) <= 3)%nat as Hlen.
  { unfold nr_skel, is_valid_node_revision in H1. destruct (is_valid_header _); [|done].
    destruct (nr_keys r) as [|k1 [|k2 [|k3 [|]]]]; try done; cbn [length]; lia. }
  apply skel_fits_small.
  - unfold nr_skel. apply skel_fits_list. constructor.
    + apply skel_fits_list. repeat constructor; try done; cbn [skel_fits]; unfold two64; lia.
    + apply Forall_fmap. refine (Forall_impl _ _ H4). intros k ?. cbn. unfold two64. lia.
  - unfold nr_skel. rewrite !list_estimate. cbn [foldr]. rewrite list_estimate in *. cbn [foldr].
    assert (foldr (λ child total_len, total_len + (estimate_unparsed_size child + 1)) 2 (Atom <$> nr_keys r) <=
      2 + 2 ^ 32 * Z.of_nat (length (nr_keys r))) as Hks.
    { clear -H4. induction H4 as [|k ks Hk Hks IH]; [simpl; lia|]. rewrite fmap_cons. cbn [foldr length].
      pose proof (atom_size k). cbv beta in *. lia. }
    unfold two64. lia.
Qed.

(** ** Directories *)

Definition dir_entry (e : bytes * bytes) : skel := SList [] [Atom e.1; Atom e.2].
Definition dir_skel (es : list (bytes * bytes)) : skel := SList [] (dir_entry <$> es).

(** The entries of a directory: the texts of the ids by name. *)
Definition dir_is (s : skel) (m : gmap bytes bytes) : Prop :=
  exists es, s ≡ dir_skel es /\ NoDup es.*1 /\ m = list_to_map es.

Definition is_entry (e : skel) (p : bytes * bytes) : Prop := exists d, e = SList d [Atom p.1; Atom p.2].

Lemma dir_is_iff s m :
  dir_is s m <-> exists d l es, s = SList d l /\ Forall2 is_entry l es /\ NoDup es.*1 /\ m = list_to_map es.
Proof.
  split.
  - intros (es & E & Hn & ->). destruct (equiv_list _ _ _ E) as (d & l & -> & Hl). exists d, l, es.
    split_and!; try done. clear -Hl. revert l Hl. induction es as [|e es IH]; intros l H;
      inversion H as [|x ? l' ? Hx Hl]; subst; constructor; [|by apply IH].
    destruct (equiv_list _ _ _ Hx) as (d & l & -> & H2). exists d.
    by rewrite (key_atoms_equiv l [e.1; e.2] H2).
  - intros (d & l & es & -> & Hl & Hn & ->). exists es. split_and!; try done. apply list_equiv.
    induction Hl as [|x e l es [d' ->] _ IH]; [constructor|]. constructor; [|apply IH].
    + by apply list_equiv, skel_list_refl.
    + by apply list.NoDup_cons in Hn as [_ Hn].
Qed.

Lemma dir_is_empty d : dir_is (SList d []) ∅.
Proof. apply dir_is_iff. exists d, [], []. split_and!; try done. constructor. Qed.

Lemma check_entries_ok s m : dir_is s m -> check_entries (kids s) = Ok tt.
Proof.
  rewrite dir_is_iff. intros (d & l & es & -> & Hl & _ & _). cbn [kids].
  induction Hl as [|x e l es [d' ->] _ IH]; [done|]. exact IH.
Qed.

Lemma find_entry_ok l es name i :
  Forall2 is_entry l es ->
  match find_dir_entry l name i with
  | Ok (Some (j, e)) => exists pre post epre epost id, l = pre ++ e :: post /\ es = epre ++ (name, id) :: epost /\
      j = (i + length pre)%nat /\ is_entry e (name, id) /\ Forall2 is_entry pre epre /\ Forall2 is_entry post epost /\
      name ∉ epre.*1
  | Ok None => name ∉ es.*1
  | _ => False
  end.
Proof.
  intros Hl. revert i. induction Hl as [|x e l es [d ->] Hl IH]; intros i; cbn [find_dir_entry].
  - by apply not_elem_of_nil.
  - cbn [kids head]. rewrite matches_atom_data. case_bool_decide as E.
    + rewrite list_length_eq. cbn [length Z.of_nat Pos.of_succ_nat Pos.succ Z.eqb Pos.eqb negb].
      exists [], l, [], es, e.2. destruct e as [n id]. cbn [fst snd] in *. subst n.
      split_and!; [done|done|simpl; lia|by exists d|constructor|done|by apply not_elem_of_nil].
    + specialize (IH (S i)). destruct (find_dir_entry l name (S i)) as [[[j e']|]| | |]; try done.
      * destruct IH as (pre & post & epre & epost & id & -> & -> & -> & He & Hpre & Hpost & Hn).
        exists (SList d [Atom e.1; Atom e.2] :: pre), post, (e :: epre), epost, id.
        split_and!; try done; [simpl; lia|constructor; [by exists d|done]|]. cbn [fmap list_fmap].
        intros [->|?]%elem_of_cons; done.
      * cbn [fmap list_fmap]. intros [->|?]%elem_of_cons; done.
Qed.

Lemma list_to_map_middle (epre epost : list (bytes * bytes)) name id :
  name ∉ epre.*1 -> NoDup ((epre ++ (name, id) :: epost).*1) ->
  list_to_map (M := gmap bytes bytes) (epre ++ (name, id) :: epost) = <[name := id]> (list_to_map (epre ++ epost)) /\
  list_to_map (M := gmap bytes bytes) (epre ++ epost) !! name = None /\ NoDup (epre ++ epost).*1.
Proof.
  intros Hn Hd. rewrite !fmap_app in *. cbn [fmap list_fmap fst] in *.
  assert ((name ∉ epost.*1) /\ NoDup (epre.*1 ++ epost.*1)) as [Hp Hd'].
  { apply list.NoDup_app in Hd as (H1 & H2 & H3). apply list.NoDup_cons in H3 as [H4 H5]. split; [done|].
    apply list.NoDup_app. split_and!; try done. intros x Hx Hx'. apply (H2 x Hx). by right. }
  split; [|split; [|done]].
  - clear -Hn. induction epre as [|[n v] epre IH]; [done|]. cbn [fmap list_fmap fst app list_to_map] in *.
    apply not_elem_of_cons in Hn as [Hne Hn]. cbn [app list_to_map foldr uncurry] in *. rewrite IH by done.
    cbn [fst snd]. by rewrite insert_insert_ne by congruence.
  - apply not_elem_of_list_to_map. rewrite fmap_app. by intros [?|?]%elem_of_app.
Qed.

(** Looking a name up. *)
Lemma find_entry_map s m name i :
  dir_is s m ->
  match m !! name with
  | Some id => exists j e, find_dir_entry (kids s) name i = Ok (Some (j, e)) /\ is_entry e (name, id)
  | None => find_dir_entry (kids s) name i = Ok None
  end.
Proof.
  rewrite dir_is_iff. intros (d & l & es & -> & Hl & Hn & ->). cbn [kids].
  pose proof (find_entry_ok l es name i Hl) as H. destruct (find_dir_entry l name i) as [[[j e]|]| | |]; try done.
  - destruct H as (pre & post & epre & epost & id & -> & -> & -> & He & _ & _ & Hni).
    destruct (list_to_map_middle epre epost name id Hni Hn) as (-> & _ & _). rewrite lookup_insert_eq. by eexists _, _.
  - by rewrite not_elem_of_list_to_map_1.
Qed.

(** Changing or adding an entry. *)
Lemma change_entry_ok s m name id :
  dir_is s m -> exists s', change_entry s name id = Ok s' /\ dir_is s' (<[name := id]> m).
Proof.
  rewrite dir_is_iff. intros (d & l & es & -> & Hl & Hn & ->). unfold change_entry. cbn [kids].
  pose proof (find_entry_ok l es name 0 Hl) as H. destruct (find_dir_entry l name 0) as [[[j e]|]| | |]; try done;
    cbn [mbind outcome_bind].
  - destruct H as (pre & post & epre & epost & id0 & -> & -> & -> & [d' ->] & Hpre & Hpost & Hni).
    eexists. split; [done|]. destruct (list_to_map_middle epre epost name id0 Hni Hn) as (-> & Hnone & Hd).
    rewrite insert_insert_eq. apply dir_is_iff. exists d, (pre ++ SList d' [Atom name; Atom id] :: post), (epre ++ (name, id) :: epost).
    unfold set_kid. cbn [kids set_kids Nat.add insert list_insert set_data fst snd].
    change (list_insert (length pre)) with (insert (Insert := list_insert (A := skel)) (length pre)).
    assert (NoDup (epre ++ (name, id) :: epost).*1) as Hn' by (rewrite fmap_app in *; exact Hn).
    split_and!; [|by apply Forall2_app; [|constructor; [exists d'|]]|done|].
    + f_equal. rewrite <- (Nat.add_0_r (length pre)). by rewrite insert_app_r.
    + by destruct (list_to_map_middle epre epost name id Hni Hn') as (-> & _ & _).
  - eexists. split; [done|]. apply dir_is_iff. exists d, (SList [] [Atom name; Atom id] :: l), ((name, id) :: es).
    split_and!; try done; [by constructor; [exists []|]|]. cbn [fmap list_fmap]. by constructor.
Qed.

(** The table of the entries. *)
Lemma entries_hash_ok l es t :
  Forall2 is_entry l es -> NoDup es.*1 ->
  entries_hash l t = Ok ((svn_fs_parse_id <$> list_to_map es) ∪ t).
Proof.
  intros Hl. revert t. induction Hl as [|x e l es [d ->] Hl IH]; intros t Hn; cbn [entries_hash].
  - by rewrite list_to_map_nil, fmap_empty, (left_id_L ∅ (∪)).
  - cbn [kid kids rd lookup list_lookup mbind outcome_bind skel_data].
    cbn [fmap list_fmap] in Hn. apply list.NoDup_cons in Hn as [Hni Hn]. rewrite IH by done. f_equal.
    destruct e as [n v]. cbn [fst snd list_to_map foldr uncurry] in *. rewrite fmap_insert.
    rewrite <- insert_union_l, insert_union_r; [done|]. rewrite lookup_fmap, not_elem_of_list_to_map_1; done.
Qed.

Lemma entries_hash_map s m : dir_is s m -> entries_hash (kids s) ∅ = Ok (svn_fs_parse_id <$> m).
Proof.
  rewrite dir_is_iff. intros (d & l & es & -> & Hl & Hn & ->). cbn [kids].
  by rewrite (entries_hash_ok l es), (right_id_L ∅ (∪)).
Qed.

(** *** Sizes *)

Definition entries_size (es : list (bytes * bytes)) : nat :=
  foldr (λ e n, length e.1 + length e.2 + 70 + n)%nat 10%nat es.

(** A bound on the length of the text of a directory. *)
Definition dir_size (m : gmap bytes bytes) : nat := entries_size (map_to_list m).

Lemma entries_size_perm es es' : es ≡ₚ es' -> entries_size es = entries_size es'.
Proof. induction 1 as [|e l l' _ IH|e e' l|l1 l2 l3 _ IH1 _ IH2]; cbn [entries_size foldr] in *; unfold entries_size in *; lia. Qed.

(** An entry adds its name and its id. *)
Lemma dir_size_insert m name v : (dir_size (<[name := v]> m) <= dir_size m + length name + length v + 70)%nat.
Proof.
  assert (forall m', m' !! name = None -> dir_size (<[name := v]> m') = dir_size m' + length name + length v + 70)%nat as Hnew.
  { intros m' H. unfold dir_size. rewrite (entries_size_perm _ _ (map_to_list_insert m' name v H)).
    cbn [entries_size foldr fst snd]. fold (entries_size (map_to_list m')). lia. }
  destruct (m !! name) as [w|] eqn:E; [|by rewrite Hnew].
  rewrite <- insert_delete_eq, Hnew by apply lookup_delete_eq.
  rewrite <- (insert_delete_id m name w E) at 2. unfold dir_size.
  rewrite (entries_size_perm _ _ (map_to_list_insert (delete name m) name w (lookup_delete_eq m name))).
  cbn [entries_size foldr fst snd]. fold (entries_size (map_to_list (delete name m))). lia.
Qed.

Lemma dir_is_size s m :
  dir_is s m -> Z.of_nat (dir_size m) < 2 ^ 62 -> skel_storable s /\ (length (text s) <= dir_size m)%nat.
Proof.
  intros (es & E & Hn & ->) Hsz. unfold dir_size in *.
  rewrite (entries_size_perm _ es) in * by (by apply map_to_list_to_map).
  assert (skel_fits (dir_skel es) /\ estimate_unparsed_size (dir_skel es) <= Z.of_nat (entries_size es)) as [Hf He].
  { unfold dir_skel. rewrite list_estimate. clear -Hsz.
    enough (Forall skel_fits (dir_entry <$> es) /\
      foldr (λ child total_len, total_len + (estimate_unparsed_size child + 1)) 2 (dir_entry <$> es) <=
      Z.of_nat (entries_size es)) as [H1 H2] by (split; [by apply skel_fits_list|done]).
    induction es as [|e es IH]; [split; [constructor|simpl; lia]|]. rewrite fmap_cons.
    cbn [entries_size foldr] in *. fold (entries_size es) in *. destruct IH as [IH1 IH2]; [lia|].
    split.
    - constructor; [|done]. apply skel_fits_list. repeat constructor; cbn [skel_fits]; unfold two64; lia.
    - assert (estimate_unparsed_size (dir_entry e) <= Z.of_nat (length e.1 + length e.2) + 64) as He; [|lia].
      unfold dir_entry. rewrite list_estimate. cbn [foldr].
      pose proof (atom_size e.1). pose proof (atom_size e.2). lia. }
  pose proof (text_estimate _ Hf) as Ht. split.
  - apply (storable_equiv (dir_skel es)); [by symmetry|]. apply skel_fits_small; [done|]. unfold two64. lia.
  - rewrite (text_equiv _ _ E). lia.
Qed.
