(* ===== verification/DagOk.v ===== *)
(** * Correctness of the operations on nodes ([libsvn_fs/dag.c])

    A filesystem is well formed when its tables are, the keys of nodes denote
    contents, no delta is against a mutable representation, each mutable
    representation belongs to one node, and those of immutable nodes are immutable.
    The operations that change a directory keep the filesystem well formed, do to
    the entries what they promise, and leave every other node and every other
    representation as it was. *)

From S2P Require Import Prelude Types KeyGen Libc Skel Proplist Id Stream Db NodeKeys Fs RevTable TxnTable NodesTable.
From S2P Require Import Strings Reps RepOps Dag NodeRec.

Section wf.
Context `{db : BerkeleyDB}.

(** The node revision [p] is [r]. *)
Definition node_at (fs : svn_fs_t) (p : nid) (r : node_rec) : Prop :=
  stored_nid p /\ nr_ok r /\
  exists v s, bt_get (nodes fs) (id_text (flat p)) = Some v /\ svn_fs__parse_skel v = Some s /\ s ≡ nr_skel r.

Definition rep_mutable (fs : svn_fs_t) (key : bytes) (b : bool) : Prop :=
  exists s, stored_rep fs key = Some s /\ rep_is_mutable s = Ok b.

Definition window_base (w : Z * Z * bytes * bytes) : bytes := w.2.

Record dag_wf (fs : svn_fs_t) : Prop := {
  dw_nodes : nodes_wf fs;
  dw_reps : reps_wf fs;
  dw_stored : exists st, stored fs st;
  dw_next : exists next, reps_next fs next;
  dw_bases k ws w : valid_key k -> form_of fs k = Some (Delta ws) -> w ∈ ws ->
    valid_key (window_base w) /\ rep_mutable fs (window_base w) false;
  dw_full k : valid_key k -> rep_mutable fs k true -> exists sk, form_of fs k = Some (Fulltext sk);
  dw_keys p r i key : node_at fs p r -> nr_keys r !! i = Some key -> key <> [] ->
    valid_key key /\ exists x, contents fs key x;
  dw_owner p q r t i j key : node_at fs p r -> node_at fs q t ->
    nr_keys r !! i = Some key -> nr_keys t !! j = Some key -> key <> [] -> rep_mutable fs key true -> p = q /\ i = j;
  dw_immutable p r i key : node_at fs p r -> nr_rev r <> [] -> nr_keys r !! i = Some key -> key <> [] ->
    rep_mutable fs key false;
}.

Lemma node_at_unique fs p r r' : node_at fs p r -> node_at fs p r' -> r = r'.
Proof.
  intros (_ & Hr & v & s & Ev & Es & E) (_ & Hr' & v' & s' & Ev' & Es' & E').
  assert (s = s') as -> by congruence. apply nr_skel_inj.
  rewrite <- (nr_skel_erase r Hr), <- (nr_skel_erase r' Hr'). unfold equiv, skel_equiv in E, E'. congruence.
Qed.

Lemma rep_mutable_unique fs key b b' : rep_mutable fs key b -> rep_mutable fs key b' -> b = b'.
Proof. intros (s & Es & Hs) (s' & Es' & Hs'). congruence. Qed.

(** A mutable representation is not what others depend on. *)
Lemma denotes_not_mutable fs key n k x :
  dag_wf fs -> rep_mutable fs key true -> denotes fs (λ _, True) n k x -> k <> key ->
  denotes fs (λ k, k <> key) n k x.
Proof.
  intros Hwf Hm Hd.
  refine (proj1 (denotes_ind2 fs (λ _, True) (λ n k x, k <> key -> denotes fs (λ k, k <> key) n k x)
    (λ n pos lo ll ws s, (forall w, w ∈ ws -> window_base w <> key) ->
       windows_denote fs (λ k, k <> key) n pos lo ll ws s) _ _ _ _) n k x Hd).
  - intros. by apply den_fulltext with str_key.
  - intros n' k' ws s _ Hk Hf Hne H31 _ IH Hkk. apply den_delta with ws; try done. apply IH.
    intros w Hw E. destruct (dw_bases fs Hwf k' ws w Hk Hf Hw) as [_ Hi]. rewrite E in Hi.
    by pose proof (rep_mutable_unique _ _ _ _ Hm Hi).
  - constructor.
  - intros n' pos lo ll str_key base ws w txt src t s Hk Hs Htxt Htl Hn Henc Hv Hsl Htv Ht _ IHb Hsrc Hend Ha _ IH Hss.
    apply wd_cons with w txt src; try done.
    + apply IHb. apply (Hss (Z.of_nat pos, Z.of_nat (length t), str_key, base)). by left.
    + apply IH. intros w' Hw'. apply Hss. by right.
Qed.

(** Changes of representations leave the nodes alone. *)
Lemma node_at_tables fs fs' p r : nodes fs' = nodes fs -> node_at fs' p r <-> node_at fs p r.
Proof. intros E. unfold node_at. by rewrite E. Qed.

Lemma nodes_of_tables (fs fs' : svn_fs_t) : node_tables fs' = node_tables fs -> nodes fs' = nodes fs.
Proof. unfold node_tables. congruence. Qed.

Lemma contents_valid fs key x : contents fs key x -> valid_key key.
Proof. intros [n Hd]. by apply (denotes_valid fs (λ _, True) n key x). Qed.

Lemma contents_form fs key x : contents fs key x -> exists f, form_of fs key = Some f.
Proof. intros [n Hd]. destruct Hd; eauto. Qed.

(** *** A new representation *)

Section added.
Context (fs fs1 : svn_fs_t) (key x : bytes) (Hwf : dag_wf fs) (Ha : added fs fs1 key x).

Lemma added_contents k y : contents fs k y -> contents fs1 k y.
Proof.
  intros Hc. destruct (contents_added _ _ _ _ _ _ Ha Hc) as [n Hd]. exists n. by apply (denotes_weaken _ _ _ _ _ _ Hd).
Qed.

Lemma added_not_used p r i : node_at fs p r -> nr_keys r !! i <> Some key.
Proof.
  intros Hp Hi. pose proof (ad_key _ _ _ _ Ha) as [Hne _].
  destruct (dw_keys fs Hwf p r i key Hp Hi Hne) as [_ [y Hy]]. apply contents_form in Hy as [f Hf].
  by rewrite (ad_new _ _ _ _ Ha) in Hf.
Qed.

Lemma added_mutable k b : valid_key k -> k <> key -> rep_mutable fs1 k b <-> rep_mutable fs k b.
Proof. intros Hk Hne. unfold rep_mutable. by rewrite (ad_recs _ _ _ _ Ha). Qed.

Lemma added_wf : dag_wf fs1.
Proof.
  pose proof (nodes_of_tables _ _ (ad_nodes _ _ _ _ Ha)) as En.
  assert (forall p r, node_at fs1 p r <-> node_at fs p r) as Hnode by (intros; by apply node_at_tables).
  assert (forall p r i k, node_at fs p r -> nr_keys r !! i = Some k -> k <> [] -> valid_key k /\ k <> key) as Hold.
  { intros p r i k Hp Hi Hne. split; [by apply (dw_keys fs Hwf p r i)|]. intros ->. by apply (added_not_used p r i). }
  split.
  - intros k. rewrite En. apply (dw_nodes fs Hwf).
  - apply Ha.
  - apply Ha.
  - apply Ha.
  - intros k ws w Hk Hf Hw. destruct (decide (k = key)) as [->|Hne].
    { destruct (denotes_full _ _ _ _ (ad_contents _ _ _ _ Ha)) as [sk E]. congruence. }
    rewrite (proj1 (ad_same _ _ _ _ Ha k Hk Hne)) in Hf.
    destruct (dw_bases fs Hwf k ws w Hk Hf Hw) as [Hv Hm]. split; [done|]. apply added_mutable; try done.
    intros E. destruct Hm as (s & Es & _). by rewrite E, (ad_fresh _ _ _ _ Ha) in Es.
  - intros k Hk Hm. destruct (decide (k = key)) as [->|Hne].
    { apply (denotes_full _ _ _ _ (ad_contents _ _ _ _ Ha)). }
    rewrite (proj1 (ad_same _ _ _ _ Ha k Hk Hne)). apply (dw_full fs Hwf); [done|]. by apply added_mutable.
  - intros p r i k Hp Hi Hne. apply Hnode in Hp. destruct (dw_keys fs Hwf p r i k Hp Hi Hne) as [Hv [y Hy]].
    split; [done|]. exists y. by apply added_contents.
  - intros p q r t i j k Hp Hq Hi Hj Hne Hm. apply Hnode in Hp, Hq. destruct (Hold p r i k Hp Hi Hne) as [Hv Hk].
    apply (dw_owner fs Hwf p q r t i j k); try done. by apply added_mutable.
  - intros p r i k Hp Hr Hi Hne. apply Hnode in Hp. destruct (Hold p r i k Hp Hi Hne) as [Hv Hk].
    apply added_mutable; try done. by apply (dw_immutable fs Hwf p r i k).
Qed.
End added.

(** *** New contents of a mutable representation *)

Section rewritten.
Context (fs fs1 : svn_fs_t) (key x : bytes) (Hwf : dag_wf fs) (Hm : rep_mutable fs key true) (Hr : rewritten fs fs1 key x).

Lemma rewritten_rec k : stored_rep fs1 k = stored_rep fs k.
Proof. unfold stored_rep. by rewrite (rw_reps _ _ _ _ Hr). Qed.

Lemma rewritten_mutable k b : rep_mutable fs1 k b <-> rep_mutable fs k b.
Proof. unfold rep_mutable. by rewrite rewritten_rec. Qed.

Lemma rewritten_form k : form_of fs1 k = form_of fs k.
Proof. unfold form_of. by rewrite rewritten_rec. Qed.

Lemma rewritten_contents k y : k <> key -> contents fs k y -> contents fs1 k y.
Proof.
  intros Hne [n Hd]. apply (contents_rewritten fs fs1 key x n k y Hr). by apply denotes_not_mutable.
Qed.

Lemma rewritten_new : contents fs1 key x.
Proof. exists 1%nat. by apply (denotes_weaken _ _ _ _ _ _ (rw_contents _ _ _ _ Hr)). Qed.

Lemma rewritten_dag_wf : dag_wf fs1.
Proof.
  pose proof (nodes_of_tables _ _ (rw_nodes _ _ _ _ Hr)) as En.
  assert (forall p r, node_at fs1 p r <-> node_at fs p r) as Hnode by (intros; by apply node_at_tables).
  split.
  - intros k. rewrite En. apply (dw_nodes fs Hwf).
  - apply Hr.
  - apply Hr.
  - destruct (dw_next fs Hwf) as [next Hn]. exists next. by apply (reps_next_same fs fs1 next (rw_reps _ _ _ _ Hr)).
  - intros k ws w Hk Hf Hw. rewrite rewritten_form in Hf. rewrite rewritten_mutable. by apply (dw_bases fs Hwf k ws).
  - intros k Hk. rewrite rewritten_form, rewritten_mutable. by apply (dw_full fs Hwf).
  - intros p r i k Hp Hi Hne. apply Hnode in Hp. destruct (dw_keys fs Hwf p r i k Hp Hi Hne) as [Hv [y Hy]].
    split; [done|]. destruct (decide (k = key)) as [->|]; [exists x; apply rewritten_new|].
    exists y. by apply rewritten_contents.
  - intros p q r t i j k Hp Hq Hi Hj Hne Hmk. apply Hnode in Hp, Hq. apply rewritten_mutable in Hmk.
    by apply (dw_owner fs Hwf p q r t i j k).
  - intros p r i k Hp Hrev Hi Hne. apply Hnode in Hp. apply rewritten_mutable. by apply (dw_immutable fs Hwf p r i k).
Qed.
End rewritten.

(** *** Storing a node revision *)

Section put.
Context (fs : svn_fs_t) (p : nid) (junk : list Z) (s : skel) (r : node_rec).
Context (Hwf : dag_wf fs) (Hp : stored_nid p) (Hok : nr_ok r) (Hs : s ≡ nr_skel r).

Definition with_node : svn_fs_t := set_nodes (bt_put (nodes fs) (id_text (flat p)) (text s)) fs.

Lemma put_node_ok : svn_fs__put_node_revision (flat p ++ -1 :: junk) s fs = (Ok tt, with_node).
Proof.
  apply put_node_revision_ok; [by apply stored_comps|by apply (nr_valid s r)|].
  apply (storable_equiv (nr_skel r) s); [by symmetry|by apply nr_storable].
Qed.

Lemma with_node_get q : stored_nid q ->
  bt_get (nodes with_node) (id_text (flat q)) = if decide (q = p) then Some (text s) else bt_get (nodes fs) (id_text (flat q)).
Proof. intros Hq. apply put_node_get; (apply sn_ne || apply stored_comps); done. Qed.

Lemma with_node_at q t : node_at with_node q t <-> if decide (q = p) then t = r else node_at fs q t.
Proof.
  assert (node_at with_node p r) as Hnew.
  { split; [done|]. split; [done|].
    assert (skel_storable s) as [Hf Hl].
    { apply (storable_equiv (nr_skel r) s); [by symmetry|by apply nr_storable]. }
    destruct (parse_skel_text s Hf Hl) as (s' & Es & E). exists (text s), s'.
    rewrite with_node_get, decide_True by done. split_and!; [done|done|]. by rewrite E. }
  case_decide as E.
  - subst q. split; [|by intros ->]. intros Ht. by apply (node_at_unique with_node p).
  - unfold node_at. split; intros (Hq & Ht & v & s' & Hv & H); (split; [done|split; [done|]]); exists v, s';
      rewrite with_node_get, decide_False in *; done.
Qed.

Lemma with_node_contents k x : contents fs k x -> contents with_node k x.
Proof. apply contents_same. by intros key _. Qed.

Lemma with_node_wf :
  (forall i key, nr_keys r !! i = Some key -> key <> [] -> valid_key key /\ exists x, contents fs key x) ->
  (forall i j key, nr_keys r !! i = Some key -> nr_keys r !! j = Some key -> key <> [] -> rep_mutable fs key true -> i = j) ->
  (forall q t i j key, q <> p -> node_at fs q t -> nr_keys r !! i = Some key -> nr_keys t !! j = Some key ->
     key <> [] -> ~ rep_mutable fs key true) ->
  (nr_rev r <> [] -> forall i key, nr_keys r !! i = Some key -> key <> [] -> rep_mutable fs key false) ->
  dag_wf with_node.
Proof.
  intros Hkeys Hinj Hown Himm. destruct Hwf as [H1 H2 H3 H4 H5 H6 H7 H8 H9].
  assert (nodes_wf with_node) as H1' by (by apply put_node_wf).
  split; [exact H1'|by destruct H2|destruct H3 as [st H3]; exists st; by destruct H3|destruct H4 as [next H4]; exists next; by destruct H4|exact H5|exact H6|..].
  - intros q t i key Hq. apply with_node_at in Hq. intros Hi Hne.
    assert (valid_key key /\ exists x, contents fs key x) as [Hv [x Hx]].
    { case_decide; [subst t; by apply (Hkeys i)|by apply (H7 q t i)]. }
    split; [done|]. exists x. by apply with_node_contents.
  - intros q q' t t' i j key Hq Hq' Hi Hj Hne Hm. apply with_node_at in Hq, Hq'.
    destruct (decide (q = p)) as [Eq|Eq], (decide (q' = p)) as [Eq'|Eq'].
    + split; [congruence|]. rewrite Hq in Hi. rewrite Hq' in Hj. by apply (Hinj i j key).
    + rewrite Hq in Hi. by destruct (Hown q' t' i j key Eq' Hq' Hi Hj Hne).
    + rewrite Hq' in Hj. by destruct (Hown q t j i key Eq Hq Hj Hi Hne).
    + by apply (H8 q q' t t' i j key).
  - intros q t i key Hq Hrev Hi Hne. apply with_node_at in Hq. case_decide; [subst; by apply (Himm Hrev i)|].
    by apply (H9 q t i).
Qed.
End put.

(** ** Nodes in memory *)

(** [node] stands for the node revision [p], which is [r]. *)
Record node_for (fs : svn_fs_t) (node : dag_node_t) (p : nid) (r : node_rec) : Prop := {
  nf_id : repr (node_id node) p;
  nf_at : node_at fs p r;
  nf_kind : node_kind node = nr_kind r;
  nf_cache : match node_revision node with Some s => s ≡ nr_skel r | None => True end;
}.

Lemma node_for_same fs fs' node p r : nodes fs' = nodes fs -> node_for fs node p r -> node_for fs' node p r.
Proof. intros E [H1 H2 H3 H4]. split; try done. by apply (node_at_tables fs fs'). Qed.

Lemma get_node_at fs p r junk :
  node_at fs p r -> exists s, svn_fs__get_node_revision (flat p ++ -1 :: junk) fs = (Ok s, fs) /\ s ≡ nr_skel r.
Proof.
  intros (Hp & Hr & v & s & Hv & Hs & E). exists s. split; [|done]. unfold svn_fs__get_node_revision.
  rewrite unparse_nid, lift_bind, reading_bind, Hv, Hs by (by apply stored_comps).
  by rewrite (nr_valid s r).
Qed.

Lemma cache_ok node s r :
  s ≡ nr_skel r -> exists s', cache_node_revision node s = Ok (set_cache (Some s') node) /\ s' ≡ nr_skel r.
Proof.
  intros E. unfold cache_node_revision. rewrite (nr_is_mutable s r E). cbn [mbind outcome_bind].
  eexists. split; [done|]. case_bool_decide; [done|]. rewrite copy_skel_erase. unfold equiv, skel_equiv in *.
  by rewrite erase_idemp.
Qed.

Lemma get_node_revision_cached fs node p r :
  node_for fs node p r -> exists s node', get_node_revision node fs = (Ok (s, node'), fs) /\ s ≡ nr_skel r /\
    node_for fs node' p r /\ node_id node' = node_id node.
Proof.
  intros [[junk Hid] Hat Hk Hc]. unfold get_node_revision. destruct (node_revision node) as [s|] eqn:Es.
  - exists s, node. split; [done|]. split; [done|]. split; [|done]. split; [by exists junk|done|done|by rewrite Es].
  - rewrite Hid. destruct (get_node_at fs p r junk Hat) as (s & E & Hs). rewrite (state_bind_step _ _ _ _ _ E).
    destruct (cache_ok node s r Hs) as (s' & Ec & Hs'). rewrite Ec, lift_bind. cbn [set_cache node_revision deref].
    rewrite lift_bind. exists s', (set_cache (Some s') node). split; [done|]. split; [done|]. split; [|done].
    split; [by exists junk|done|done|done].
Qed.

Lemma check_mutable_ok fs node p r :
  node_for fs node p r -> exists node', svn_fs__dag_check_mutable node fs = (Ok (bool_decide (nr_rev r = []), node'), fs) /\
    node_for fs node' p r /\ node_id node' = node_id node.
Proof.
  intros Hn. destruct (get_node_revision_cached fs node p r Hn) as (s & node' & E & Hs & Hn' & Hid).
  exists node'. split; [|done]. unfold svn_fs__dag_check_mutable. rewrite (state_bind_step _ _ _ _ _ E).
  by rewrite (nr_is_mutable s r Hs), lift_bind.
Qed.

Lemma id_copy_nid p junk : nid_comps p -> svn_fs__id_copy (flat p ++ -1 :: junk) = Ok (flat p ++ [-1]).
Proof.
  intros Hp. unfold svn_fs__id_copy. rewrite id_length_nid by done. cbn [mbind outcome_bind]. f_equal.
  rewrite take_app_ge by (rewrite flat_length; lia). f_equal. rewrite flat_length.
  by replace (2 * length p + 1 - 2 * length p)%nat with 1%nat by lia.
Qed.

(** A node read from the table. *)
Lemma dag_get_node_ok fs p r junk :
  node_at fs p r -> exists node, svn_fs__dag_get_node (Some (flat p ++ -1 :: junk)) fs = (Ok node, fs) /\ node_for fs node p r.
Proof.
  intros Hat. unfold svn_fs__dag_get_node. cbn [deref mbind outcome_bind].
  rewrite id_copy_nid, lift_bind by (apply stored_comps, Hat).
  destruct (get_node_at fs p r [] Hat) as (s & E & Hs).
  destruct (cache_ok (mk_node (flat p ++ [-1]) svn_node_none None) s r Hs) as (s' & Ec & Hs').
  assert (get_node_revision (mk_node (flat p ++ [-1]) svn_node_none None) fs =
    (Ok (s', mk_node (flat p ++ [-1]) svn_node_none (Some s')), fs)) as Eg.
  { unfold get_node_revision. cbn [node_revision node_id]. rewrite (state_bind_step _ _ _ _ _ E), Ec, lift_bind. done. }
  rewrite (state_bind_step _ _ _ _ _ Eg). rewrite !(nr_is_kind s' r Hs'), lift_bind. cbn [node_id node_revision].
  change (bstr "file") with (kind_text svn_node_file). change (bstr "dir") with (kind_text svn_node_dir).
  destruct (nr_ok_kind r) as [Ek|Ek]; [by apply Hat|..]; rewrite Ek.
  - rewrite bool_decide_true by done. eexists. split; [done|]. split; try done. by exists [].
  - rewrite bool_decide_false by done. rewrite lift_bind, bool_decide_true by done. eexists. split; [done|].
    split; try done. by exists [].
Qed.

(** Storing a new revision of a node. *)
Lemma set_node_revision_ok fs node p r s r' :
  dag_wf fs -> node_for fs node p r -> nr_ok r' -> nr_kind r' = nr_kind r -> s ≡ nr_skel r' ->
  exists node', set_node_revision node s fs = (Ok node', with_node fs p s) /\ node_for (with_node fs p s) node' p r' /\
    node_id node' = node_id node.
Proof.
  intros Hwf [[junk Hid] Hat Hk Hc] Hok Hkind Hs. unfold set_node_revision. rewrite Hid.
  rewrite (state_bind_step _ _ _ _ _ (put_node_ok fs p junk s r' (proj1 Hat) Hok Hs)).
  destruct (cache_ok node s r' Hs) as (s' & Ec & Hs'). exists (set_cache (Some s') node). unfold lift. rewrite Ec.
  split; [done|]. split; [|done]. split; [by exists junk| |by rewrite Hkind|done].
  apply (with_node_at fs p s r' (proj1 Hat) Hok Hs). by rewrite decide_True.
Qed.
End wf.

(** ** Reading directories *)

Section dirs.
Context `{db : BerkeleyDB}.
Context (fuel : nat).

(** The contents of the representation, which are within the fuel of the reader; the
    record of one that would be copied is small. *)
Definition readable (fs : svn_fs_t) (key x : bytes) : Prop :=
  exists n, denotes fs (λ _, True) n key x /\ (n + length x + 2 <= fuel)%nat /\ Z.of_nat (length x) < 2 ^ 31 /\
    forall s, stored_rep fs key = Some s -> rep_is_mutable s = Ok false -> skel_small s.

(** The node revision is a directory with the entries [m]. *)
Record entries_at (fs : svn_fs_t) (r : node_rec) (m : gmap bytes bytes) : Prop := {
  ea_dir : nr_kind r = svn_node_dir;
  ea_entries : nr_keys r !! 1%nat = Some [] /\ m = ∅ \/
    exists key x s, nr_keys r !! 1%nat = Some key /\ key <> [] /\ readable fs key x /\
      svn_fs__parse_skel x = Some s /\ dir_is s m;
}.

Lemma readable_contents fs key x : readable fs key x -> contents fs key x.
Proof. intros (n & Hd & _). by exists n. Qed.

Lemma rep_contents_readable fs key x : readable fs key x -> svn_fs__rep_contents fuel key fs = (Ok x, fs).
Proof. intros (n & Hd & Hf & Hl & _). apply (rep_contents_ok fs (λ _, True) n); [done|unfold two64; lia|lia]. Qed.

Lemma key_of_valid k : valid_key k -> key_of (Atom k) = k.
Proof. intros Hk. by apply pstrndup_valid. Qed.

Lemma valid_not_empty k : valid_key k -> empty_string k = false.
Proof.
  intros Hk. unfold empty_string. rewrite strlen_ok by (by apply valid_key_nul).
  destruct (Nat.eqb_spec (length k) 0) as [E|]; [destruct Hk; by destruct k|done].
Qed.

Lemma get_dir_entries_ok fs s r m :
  s ≡ nr_skel r -> entries_at fs r m -> exists es, get_dir_entries fuel s fs = (Ok es, fs) /\ dir_is es m.
Proof.
  intros Hs [Hdir Hent]. unfold get_dir_entries. destruct (nr_head s r Hs) as (h & -> & ->).
  rewrite bool_decide_true by done.
  destruct Hent as [[Hk ->]|(key & x & es & Hk & Hne & Hr & Hp & Hd)];
    unfold NR_DATA_KEY; rewrite (nr_kid s r Hs 1 _ Hk), lift_bind.
  - eexists. split; [done|]. apply dir_is_empty.
  - pose proof (contents_valid _ _ _ (readable_contents _ _ _ Hr)) as Hv.
    rewrite key_of_valid, (valid_not_empty key Hv) by done.
    rewrite (state_bind_step _ _ _ _ _ (rep_contents_readable _ _ _ Hr)), Hp. cbn [deref]. rewrite lift_bind.
    rewrite (check_entries_ok es m Hd), lift_bind. by exists es.
Qed.

Lemma dir_entries_skel_ok fs node p r m :
  node_for fs node p r -> entries_at fs r m -> exists es node',
    svn_fs__dag_dir_entries_skel fuel node fs = (Ok (es, node'), fs) /\ dir_is es m /\
    node_for fs node' p r /\ node_id node' = node_id node.
Proof.
  intros Hn Hm. destruct (get_node_revision_cached fs node p r Hn) as (s & node' & E & Hs & Hn' & Hid).
  destruct (get_dir_entries_ok fs s r m Hs Hm) as (es & Ee & Hd). exists es, node'.
  split; [|done]. unfold svn_fs__dag_dir_entries_skel, svn_fs__dag_is_directory.
  rewrite (nf_kind _ _ _ _ Hn), (ea_dir _ _ _ Hm), bool_decide_true by done. cbn [negb].
  rewrite (state_bind_step _ _ _ _ _ E). by rewrite (state_bind_step _ _ _ _ _ Ee).
Qed.

Lemma dir_entry_ok fs node p r m name :
  node_for fs node p r -> entries_at fs r m -> exists e node',
    dir_entry_from_node fuel node name fs = (Ok (e, node'), fs) /\
    match m !! name with Some id => exists e', e = Some e' /\ is_entry e' (name, id) | None => e = None end /\
    node_for fs node' p r /\ node_id node' = node_id node.
Proof.
  intros Hn Hm. destruct (dir_entries_skel_ok fs node p r m Hn Hm) as (es & node' & E & Hd & H).
  unfold dir_entry_from_node. rewrite (state_bind_step _ _ _ _ _ E).
  pose proof (find_entry_map es m name 0 Hd) as Hf. destruct (m !! name) as [id|].
  - destruct Hf as (j & e & -> & He). rewrite lift_bind. exists (Some e), node'. split; [done|]. split; [by exists e|done].
  - rewrite Hf, lift_bind. by exists None, node'.
Qed.

(** Opening an entry. *)
Lemma dag_open_ok fs node p r m name q t :
  node_for fs node p r -> entries_at fs r m -> svn_fs__is_single_path_component name = true ->
  m !! name = Some (id_text (flat q)) -> node_at fs q t ->
  exists child node', svn_fs__dag_open fuel node name fs = (Ok (child, node'), fs) /\ node_for fs child q t /\
    node_for fs node' p r /\ node_id node' = node_id node.
Proof.
  intros Hn Hm Hname Hq Ht. destruct (dir_entry_ok fs node p r m name Hn Hm) as (e & node' & E & He & H).
  rewrite Hq in He. destruct He as (e' & -> & d & ->).
  destruct (dag_get_node_ok fs q t [] Ht) as (child & Ec & Hc). exists child, node'. split; [|done].
  unfold svn_fs__dag_open. rewrite (state_bind_step _ _ _ _ _ E), Hname. cbn [negb].
  cbn [kid kids rd lookup list_lookup]. rewrite lift_bind. cbn [skel_data fst snd].
  destruct Ht as [Hst _]. rewrite parse_id_text.
  - by rewrite (state_bind_step _ _ _ _ _ Ec).
  - pose proof (sn_ne _ Hst). by destruct q as [|[] ?].
  - apply nid_comps_flat. by apply stored_comps.
Qed.

Lemma dag_open_missing fs node p r m name :
  node_for fs node p r -> entries_at fs r m -> m !! name = None ->
  svn_fs__dag_open fuel node name fs = (Err SVN_ERR_FS_NOT_FOUND, fs).
Proof.
  intros Hn Hm Hq. destruct (dir_entry_ok fs node p r m name Hn Hm) as (e & node' & E & He & H).
  rewrite Hq in He. subst e. unfold svn_fs__dag_open. by rewrite (state_bind_step _ _ _ _ _ E).
Qed.

(** ** What changing a directory leaves alone *)

(** Only the node revision [p] and the representation [mk] may be different. *)
Record changed (fs fs' : svn_fs_t) (p : nid) (mk : bytes) : Prop := {
  ch_wf : dag_wf fs';
  ch_tables : revisions fs' = revisions fs /\ transactions fs' = transactions fs;
  ch_nodes q t : q <> p -> node_at fs' q t <-> node_at fs q t;
  ch_contents k x : k <> mk -> contents fs k x -> contents fs' k x;
  ch_mutable k b : valid_key k -> k <> mk -> rep_mutable fs' k b <-> rep_mutable fs k b;
}.

Lemma changed_refl fs p mk : dag_wf fs -> changed fs fs p mk.
Proof. intros H. by split. Qed.

Lemma changed_trans fs1 fs2 fs3 p mk : changed fs1 fs2 p mk -> changed fs2 fs3 p mk -> changed fs1 fs3 p mk.
Proof.
  intros [H1 [H2 H2'] H3 H4 H5] [G1 [G2 G2'] G3 G4 G5]. split; [done|split; congruence|..].
  - intros q t Hq. by rewrite G3, H3.
  - intros k x Hk Hx. by apply G4, H4.
  - intros k b Hv Hk. by rewrite G5, H5.
Qed.

Lemma changed_added fs fs1 p key x : dag_wf fs -> added fs fs1 key x -> changed fs fs1 p key.
Proof.
  intros Hwf Ha. pose proof (ad_nodes _ _ _ _ Ha) as En. split.
  - by apply (added_wf fs fs1 key x).
  - unfold node_tables in En. split; congruence.
  - intros q t _. by apply node_at_tables, nodes_of_tables.
  - intros k y _. by apply (added_contents fs fs1 key x).
  - intros k b Hv Hk. by apply (added_mutable fs fs1 key x).
Qed.

Lemma changed_rewritten fs fs1 p key x :
  dag_wf fs -> rep_mutable fs key true -> rewritten fs fs1 key x -> changed fs fs1 p key.
Proof.
  intros Hwf Hm Hr. pose proof (rw_nodes _ _ _ _ Hr) as En. split.
  - by apply (rewritten_dag_wf fs fs1 key x).
  - unfold node_tables in En. split; congruence.
  - intros q t _. by apply node_at_tables, nodes_of_tables.
  - intros k y. by apply (rewritten_contents fs fs1 key x).
  - intros k b _ _. by apply (rewritten_mutable fs fs1 key x).
Qed.

Lemma changed_node fs p mk s r :
  stored_nid p -> nr_ok r -> s ≡ nr_skel r -> dag_wf (with_node fs p s) -> changed fs (with_node fs p s) p mk.
Proof.
  intros Hp Hr Hs Hwf. split; [done|done|..].
  - intros q t Hq. rewrite (with_node_at fs p s r) by done. by rewrite decide_False.
  - intros k x _. apply with_node_contents.
  - done.
Qed.
End dirs.

(** ** Changing directories *)

Section set_entry.
Context `{db : BerkeleyDB}.
Context (fuel : nat).

(** There are keys left. *)
Record room (fs : svn_fs_t) : Prop := {
  ro_strings st : stored fs st -> (length st.2 < 198)%nat;
  ro_reps next : reps_next fs next -> (length next < 198)%nat;
}.

(** A mutable representation is stored in full. *)
Lemma mutable_denotes fs mk x :
  dag_wf fs -> rep_mutable fs mk true -> contents fs mk x -> denotes fs (λ k, k = mk) 1 mk x.
Proof.
  intros Hwf Hm [n Hd]. pose proof (denotes_valid _ _ _ _ _ Hd) as Hv.
  destruct (dw_full fs Hwf mk Hv Hm) as [sk Hf].
  inversion Hd as [? ? k ? _ _ Hf' Hk Hs|? ? ? ? _ _ Hf']; subst; rewrite Hf in Hf'; [|done]. injection Hf' as <-.
  by apply den_fulltext with sk.
Qed.

Lemma write_ignored_ok fs p mk x d :
  dag_wf fs -> rep_mutable fs mk true -> contents fs mk x ->
  exists fs', write_ignored mk d fs = (Ok tt, fs') /\ rep_mutable fs' mk true /\ changed fs fs' p mk /\
    contents fs' mk (x ++ d) /\ nodes fs' = nodes fs.
Proof.
  intros Hwf Hm Hx. pose proof (mutable_denotes fs mk x Hwf Hm Hx) as Hd.
  destruct (denotes_full _ _ _ _ Hd) as [sk Hf]. destruct (dw_stored fs Hwf) as [st Hst].
  destruct (rep_write_ok fs st _ 1 mk x sk d (dw_reps fs Hwf) Hst Hf Hd) as (fs' & E & Hr).
  exists fs'. unfold write_ignored. rewrite E. split; [done|]. split; [by apply (rewritten_mutable fs fs' mk (x ++ d))|].
  split; [by apply (changed_rewritten fs fs' p mk (x ++ d))|]. split; [by apply (rewritten_new fs fs' mk)|].
  by apply nodes_of_tables, (rw_nodes _ _ _ _ Hr).
Qed.

Lemma clear_ok fs p mk x :
  dag_wf fs -> rep_mutable fs mk true -> contents fs mk x ->
  exists fs', svn_fs__rep_contents_clear mk fs = (Ok tt, fs') /\ rep_mutable fs' mk true /\ changed fs fs' p mk /\
    contents fs' mk [] /\ nodes fs' = nodes fs.
Proof.
  intros Hwf Hm Hx. pose proof (mutable_denotes fs mk x Hwf Hm Hx) as Hd.
  destruct (denotes_full _ _ _ _ Hd) as [sk Hf]. destruct (dw_stored fs Hwf) as [st Hst].
  pose proof Hm as (s & Hs & Hms).
  pose proof (rep_clear_ok fs st _ 1 mk x sk s (dw_reps fs Hwf) Hst Hf Hd Hs) as H.
  rewrite decide_True in H by done. destruct H as (fs' & E & Hr).
  exists fs'. split; [done|]. split; [by apply (rewritten_mutable fs fs' mk [])|].
  split; [by apply (changed_rewritten fs fs' p mk [])|]. split; [by apply (rewritten_new fs fs' mk)|].
  by apply nodes_of_tables, (rw_nodes _ _ _ _ Hr).
Qed.

(** New contents. *)
Lemma replace_ok fs p mk x d {A} (a : A) :
  dag_wf fs -> rep_mutable fs mk true -> contents fs mk x ->
  exists fs', (svn_fs__rep_contents_clear mk;; write_ignored mk d;; mret a) fs = (Ok a, fs') /\
    changed fs fs' p mk /\ rep_mutable fs' mk true /\ contents fs' mk d /\ nodes fs' = nodes fs.
Proof.
  intros Hwf Hm Hx. destruct (clear_ok fs p mk x Hwf Hm Hx) as (fs1 & E1 & Hm1 & H1 & Hx1 & En1).
  destruct (write_ignored_ok fs1 p mk [] d (ch_wf _ _ _ _ H1) Hm1 Hx1) as (fs2 & E2 & Hm2 & H2 & Hx2 & En2).
  exists fs2. rewrite (state_bind_step _ _ _ _ _ E1), (state_bind_step _ _ _ _ _ E2).
  split; [done|]. split; [by apply (changed_trans fs fs1)|]. split; [done|]. split; [done|congruence].
Qed.

(** The key of a slot: nothing, or a representation that can be read. *)
Definition slot_ok (fs : svn_fs_t) (key x : bytes) : Prop := key = [] /\ x = [] \/ key <> [] /\ readable fuel fs key x.

(** Only the slot [i] of [p] may use [mk]. *)
Definition owned (fs : svn_fs_t) (p : nid) (i : nat) (mk : bytes) : Prop :=
  forall q t j, node_at fs q t -> nr_keys t !! j = Some mk -> q = p /\ j = i.

(** A mutable representation with the same contents: a new one, or the same when it
    is mutable. *)
Lemma get_mutable_ok fs p i key x :
  dag_wf fs -> room fs -> slot_ok fs key x ->
  exists mk fs', svn_fs__get_mutable_rep fuel (Some key) fs = (Ok mk, fs') /\ rep_mutable fs' mk true /\
    contents fs' mk x /\ changed fs fs' p mk /\ nodes fs' = nodes fs /\ (length mk <= 198 \/ mk = key)%nat /\
    ((mk = key /\ fs' = fs) \/ (mk <> key /\ owned fs p i mk)).
Proof.
  intros Hwf Hroom Hslot. destruct (dw_stored fs Hwf) as [st Hst]. destruct (dw_next fs Hwf) as [next Hnext].
  pose proof (ro_strings fs Hroom st Hst) as Hl. pose proof (ro_reps fs Hroom next Hnext) as Hln.
  assert (forall fs', added fs fs' next x -> svn_fs__get_mutable_rep fuel (Some key) fs = (Ok next, fs') -> next <> key ->
    exists mk fs', svn_fs__get_mutable_rep fuel (Some key) fs = (Ok mk, fs') /\ rep_mutable fs' mk true /\
    contents fs' mk x /\ changed fs fs' p mk /\ nodes fs' = nodes fs /\ (length mk <= 198 \/ mk = key)%nat /\
    ((mk = key /\ fs' = fs) \/ (mk <> key /\ owned fs p i mk))) as Hnew.
  { intros fs' Ha E Hne. exists next, fs'. split; [done|]. split; [by destruct (ad_mutable _ _ _ _ Ha) as (s & ? & ?); exists s|].
    split. { exists 1%nat. by apply (denotes_weaken _ _ _ _ _ _ (ad_contents _ _ _ _ Ha)). }
    split; [by apply (changed_added fs fs' p next x)|]. split; [by apply nodes_of_tables, (ad_nodes _ _ _ _ Ha)|].
    split; [left; lia|]. right. split; [done|].
    intros q t j Hq Hj. by destruct (added_not_used fs fs' next x Hwf Ha q t j Hq). }
  destruct Hslot as [[-> ->]|[Hne Hr]].
  - destruct (new_empty_rep_ok fs st next (dw_reps fs Hwf) Hst Hl Hnext Hln) as (fs' & E & Ha).
    apply (Hnew fs' Ha); [exact E|]. intros ->. by destruct (ad_key _ _ _ _ Ha).
  - pose proof Hr as (n & Hd & Hn & H31 & Hsmall). pose proof (denotes_valid _ _ _ _ _ Hd) as Hv.
    destruct (contents_form fs key x (readable_contents fuel fs key x Hr)) as [f Hf].
    destruct (read_rep_ok fs key f Hv Hf) as (s & Erep & Es & Hview).
    destruct (rep_view_mutable s f Hview) as [[] Hb].
    + exists key, fs. split; [|split; [by exists s|split; [by exists n|split; [by apply changed_refl|split; [done|split; [by right|by left]]]]]].
      unfold svn_fs__get_mutable_rep. rewrite (valid_not_empty key Hv), (state_bind_step _ _ _ _ _ Erep), Hb. done.
    + destruct (get_mutable_rep_ok fuel fs st next n key x s (dw_reps fs Hwf) Hst Hl Hnext Hln Hd Hn H31 Es Hb) as (fs' & E & Ha).
      { by apply Hsmall. }
      apply (Hnew fs' Ha); [exact E|]. intros ->. by rewrite (ad_fresh _ _ _ _ Ha) in Es.
Qed.

(** The slot [i] of a mutable node is made to refer to [mk]. *)
Lemma set_slot_wf fs p i r mk x s :
  dag_wf fs -> node_at fs p r -> nr_rev r = [] -> rep_mutable fs mk true -> contents fs mk x -> owned fs p i mk ->
  Z.of_nat (length mk) < 2 ^ 31 -> s ≡ nr_skel (set_nr_key i mk r) -> dag_wf (with_node fs p s).
Proof.
  intros Hwf Hp Hrev Hm Hx Hown Hl Hs. pose proof Hp as (Hst & Hok & _).
  assert (forall j key, nr_keys (set_nr_key i mk r) !! j = Some key -> (j = i /\ key = mk) \/ (j <> i /\ nr_keys r !! j = Some key)) as Hkey.
  { intros j key. cbn [set_nr_key nr_keys]. intros [(-> & -> & _)|[Hj ?]]%list_lookup_insert_Some; [by left|right; by split]. }
  apply (with_node_wf fs p s (set_nr_key i mk r)); try done.
  - by apply nr_ok_set_key.
  - intros j key Hj Hne. destruct (Hkey j key Hj) as [[-> ->]|[_ Hj']].
    + split; [by apply (contents_valid fs mk x)|by exists x].
    + by apply (dw_keys fs Hwf p r j).
  - intros a b key Ha Hb Hne Hk. destruct (Hkey a key Ha) as [[-> ->]|[Hai Ha']], (Hkey b _ Hb) as [[-> E]|[Hbi Hb']].
    + done.
    + by destruct (Hown p r b Hp Hb').
    + subst key. by destruct (Hown p r a Hp Ha').
    + by destruct (dw_owner fs Hwf p p r r a b key Hp Hp Ha' Hb' Hne Hk).
  - intros q t a b key Hq Ht Ha Hb Hne Hk. destruct (Hkey a key Ha) as [[-> ->]|[Hai Ha']].
    + by destruct (Hown q t b Ht Hb).
    + by destruct (dw_owner fs Hwf p q r t a b key Hp Ht Ha' Hb Hne Hk).
Qed.

Lemma set_nr_key_id i key r : nr_keys r !! i = Some key -> set_nr_key i key r = r.
Proof. intros H. unfold set_nr_key. rewrite list_insert_id by done. by destruct r. Qed.

(** An owner of a mutable representation is the only one. *)
Lemma owned_at fs p i r key :
  dag_wf fs -> node_at fs p r -> nr_keys r !! i = Some key -> key <> [] -> rep_mutable fs key true -> owned fs p i key.
Proof. intros Hwf Hp Hi Hne Hm q t j Ht Hj. by apply (dw_owner fs Hwf q p t r j i key). Qed.

(** [mutable_entries] makes the entries of a mutable directory mutable. *)
Lemma mutable_entries_ok fs parent p r s key x :
  dag_wf fs -> room fs -> node_for fs parent p r -> nr_rev r = [] -> s ≡ nr_skel r ->
  nr_keys r !! 1%nat = Some key -> slot_ok fs key x ->
  exists mk parent' fs', mutable_entries fuel parent s key fs = (Ok (mk, parent'), fs') /\
    node_for fs' parent' p (set_nr_key 1 mk r) /\ node_id parent' = node_id parent /\
    rep_mutable fs' mk true /\ contents fs' mk x /\ changed fs fs' p mk /\ owned fs p 1 mk.
Proof.
  intros Hwf Hroom Hn Hrev Hs Hkey Hslot. pose proof (nf_at _ _ _ _ Hn) as Hat.
  destruct (get_mutable_ok fs p 1 key x Hwf Hroom Hslot) as (mk & fs1 & E & Hm & Hx & Hch & Hnodes & Hl & Hcase).
  unfold mutable_entries. rewrite (state_bind_step _ _ _ _ _ E). destruct Hcase as [[-> ->]|[Hne Hown]].
  - rewrite decide_True by done. exists key, parent, fs. rewrite set_nr_key_id by done.
    split; [done|]. split; [done|]. split; [done|]. split; [done|]. split; [done|]. split; [done|].
    apply (owned_at fs p 1 r key); try done. intros ->. by destruct (contents_valid _ _ _ Hx).
  - rewrite decide_False by done. assert (svn_fs__copy_skel s ≡ nr_skel r) as Hc.
    { rewrite copy_skel_erase. unfold equiv, skel_equiv in *. by rewrite erase_idemp. }
    destruct (nr_set_key _ r Hc 1 mk key Hkey) as (s' & Es' & Hs'). rewrite Es', lift_bind.
    assert (Z.of_nat (length mk) < 2 ^ 31) as Hmk by (destruct Hl; [lia|done]).
    pose proof (node_for_same fs fs1 parent p r Hnodes Hn) as Hn1.
    pose proof Hat as (Hst & Hok & _).
    assert (dag_wf (with_node fs1 p s')) as Hwf1.
    { apply (set_slot_wf fs1 p 1 r mk x s'); try done; [apply Hch|apply Hn1|].
      intros q t j Hq. apply (Hown q t j). by apply (node_at_tables fs fs1). }
    destruct (set_node_revision_ok fs1 parent p r s' (set_nr_key 1 mk r)) as (parent' & Ep & Hp' & Hid); try done;
      [apply Hch|by apply nr_ok_set_key|].
    rewrite (state_bind_step _ _ _ _ _ Ep). exists mk, parent', (with_node fs1 p s').
    split; [done|]. split; [done|]. split; [done|]. split; [done|]. split; [by apply with_node_contents|]. split; [|done].
    apply (changed_trans fs fs1); [done|]. apply (changed_node fs1 p mk s' (set_nr_key 1 mk r)); try done.
    by apply nr_ok_set_key.
Qed.

(** The entries of a directory and what the slot of the entries holds. *)
Lemma entries_slot fs r m :
  nr_ok r -> entries_at fuel fs r m -> exists key x, nr_keys r !! 1%nat = Some key /\ slot_ok fs key x /\
    (key = [] -> m = ∅) /\ (key <> [] -> exists s, svn_fs__parse_skel x = Some s /\ dir_is s m).
Proof.
  intros Hok [_ [[Hk ->]|(key & x & s & Hk & Hne & Hr & Hp & Hd)]].
  - exists [], []. split; [done|]. split; [by left|done].
  - exists key, x. split; [done|]. split; [by right|]. split; [done|]. intros _. by exists s.
Qed.

Lemma empty_text : svn_fs__unparse_skel svn_fs__make_empty_list = Ok (bstr "()") /\
  exists s, svn_fs__parse_skel (bstr "()") = Some s /\ dir_is s ∅.
Proof. split; [by vm_compute|]. eexists. split; [by vm_compute|]. apply dir_is_empty. Qed.

(** A directory just written can be read. *)
Lemma written_readable fs mk d :
  dag_wf fs -> rep_mutable fs mk true -> contents fs mk d -> (length d + 3 <= fuel)%nat -> Z.of_nat (length d) < 2 ^ 31 ->
  readable fuel fs mk d.
Proof.
  intros Hwf Hm Hx Hf Hl. exists 1%nat. split.
  - by apply (denotes_weaken _ _ _ _ _ _ (mutable_denotes fs mk d Hwf Hm Hx)).
  - split; [lia|]. split; [lia|]. intros s Hs Hi. by pose proof (rep_mutable_unique fs mk _ _ Hm (ex_intro _ s (conj Hs Hi))).
Qed.

Lemma set_entry_ok fs parent p r m name q junk :
  dag_wf fs -> room fs -> node_for fs parent p r -> nr_rev r = [] -> entries_at fuel fs r m ->
  nid_comps q -> let m' := <[name := id_text (flat q)]> m in
  (dir_size m' + 3 <= fuel)%nat -> Z.of_nat (dir_size m') < 2 ^ 31 -> (5 <= fuel)%nat ->
  exists mk parent' fs', set_entry fuel parent name (flat q ++ -1 :: junk) fs = (Ok parent', fs') /\
    node_for fs' parent' p (set_nr_key 1 mk r) /\ node_id parent' = node_id parent /\
    entries_at fuel fs' (set_nr_key 1 mk r) m' /\ changed fs fs' p mk /\ owned fs p 1 mk /\ rep_mutable fs' mk true.
Proof.
  intros Hwf Hroom Hn Hrev Hent Hq m' Hf1 Hf2 Hf3. pose proof (nf_at _ _ _ _ Hn) as (_ & Hok & _).
  destruct (entries_slot fs r m Hok Hent) as (key & x & Hkey & Hslot & Hempty & Hdir).
  unfold set_entry. destruct (get_node_revision_cached fs parent p r Hn) as (s & parent0 & E0 & Hs & Hn0 & Hid0).
  rewrite (state_bind_step _ _ _ _ _ E0). unfold NR_DATA_KEY. rewrite (nr_kid s r Hs 1 _ Hkey), lift_bind.
  assert (key_of (Atom key) = key) as ->.
  { destruct Hslot as [[-> _]|[_ Hr]]; [done|]. by apply key_of_valid, (contents_valid fs key x), (readable_contents fuel). }
  destruct (mutable_entries_ok fs parent0 p r s key x Hwf Hroom Hn0 Hrev Hs Hkey Hslot)
    as (mk & parent1 & fs1 & E1 & Hn1 & Hid1 & Hm1 & Hx1 & Hch1 & Hown).
  rewrite (state_bind_step _ _ _ _ _ E1).
  assert (exists x2 fs2 s2, (if empty_string key then
       empty ← lift (svn_fs__unparse_skel svn_fs__make_empty_list); write_ignored mk empty else mret tt) fs1 = (Ok tt, fs2) /\
     rep_mutable fs2 mk true /\ contents fs2 mk x2 /\ changed fs1 fs2 p mk /\ nodes fs2 = nodes fs1 /\
     (length x2 + 3 <= fuel)%nat /\ Z.of_nat (length x2) < 2 ^ 31 /\ svn_fs__parse_skel x2 = Some s2 /\ dir_is s2 m)
    as (x2 & fs2 & s2 & E2 & Hm2 & Hx2 & Hch2 & Hnodes2 & Hf4 & Hl4 & Hp2 & Hd2).
  { destruct Hslot as [[-> ->]|[Hne Hr]].
    - destruct empty_text as [Eu (se & Hpe & Hde)]. change (empty_string []) with true. cbn iota. rewrite Eu, lift_bind.
      destruct (write_ignored_ok fs1 p mk [] (bstr "()") (ch_wf _ _ _ _ Hch1) Hm1 Hx1) as (fs2 & E & Hm2 & Hch2 & Hx2 & En2).
      exists (bstr "()"), fs2, se. split; [done|]. split; [done|]. split; [done|]. split; [done|]. split; [done|].
      split; [simpl; lia|]. split; [simpl; lia|]. by rewrite Hempty.
    - pose proof (contents_valid _ _ _ (readable_contents fuel fs key x Hr)) as Hv. rewrite (valid_not_empty key Hv).
      destruct Hr as (n & Hd0 & Hfn & Hl31 & _). destruct (Hdir Hne) as (s2 & Hp2 & Hd2). exists x, fs1, s2.
      split; [done|]. split; [done|]. split; [done|]. split; [by apply changed_refl, Hch1|]. split; [done|].
      destruct n as [|n]; [|split; [lia|done]].
      inversion Hd0. }
  rewrite (state_bind_step _ _ _ _ _ E2), unparse_nid, lift_bind by done.
  pose proof (changed_trans _ _ _ _ _ Hch1 Hch2) as Hch.
  rewrite (state_bind_step _ _ _ _ _ (rep_contents_readable fuel fs2 mk x2
    (written_readable fs2 mk x2 (ch_wf _ _ _ _ Hch) Hm2 Hx2 Hf4 Hl4))).
  rewrite Hp2. cbn [deref]. rewrite lift_bind.
  destruct (change_entry_ok s2 m name (id_text (flat q)) Hd2) as (s3 & E3 & Hd3). rewrite E3, lift_bind.
  destruct (dir_is_size s3 m' Hd3) as [Hst3 Hlen3]; [lia|].
  rewrite unparse_skel_text, lift_bind by apply Hst3.
  destruct (replace_ok fs2 p mk x2 (text s3) parent1 (ch_wf _ _ _ _ Hch) Hm2 Hx2) as (fs3 & E4 & Hch3 & Hm3 & Hx3 & Hnodes3).
  rewrite E4. exists mk, parent1, fs3. split; [done|].
  assert (changed fs fs3 p mk) as Hch' by (by apply (changed_trans fs fs2)).
  split; [|split; [congruence|split; [|done]]].
  - apply (node_for_same fs1); [congruence|done].
  - split; [by apply (ea_dir fuel fs r m)|]. right. destruct (parse_skel_text s3) as (s4 & Hp4 & He4); [apply Hst3..|].
    exists mk, (text s3), s4. split; [|split; [|split; [|split; [done|]]]].
    + cbn [set_nr_key nr_keys]. rewrite list_lookup_insert_eq; [done|]. by apply (lookup_lt_Some _ _ key).
    + intros ->. by destruct (contents_valid _ _ _ Hx3).
    + apply written_readable; try done; [apply Hch'|lia|lia].
    + destruct Hd3 as (es & H1 & H2 & H3). exists es. by rewrite He4.
Qed.

(** ** New nodes *)

(** The ids that are chosen are below the limit of the parser of ids. *)
Record id_room (fs : svn_fs_t) : Prop := {
  ir_new id n : svn_fs__new_node_id fs = (Ok id, fs) -> repr id [(n, 1)] -> n < 100000000;
  ir_next pre n v q : stored_nid (pre ++ [(n, v)]) -> has_node fs (pre ++ [(n, v)]) -> successor_id fs pre n v q -> stored_nid q;
}.

Lemma node_at_has fs p r : node_at fs p r -> has_node fs p.
Proof. intros (_ & _ & v & s & Hv & _). by exists v. Qed.

Lemma readable_same fs fs' key x :
  (forall k, valid_key k -> same_rep fs fs' k) -> stored_rep fs' key = stored_rep fs key ->
  readable fuel fs key x -> readable fuel fs' key x.
Proof.
  intros Hsame Hrec (n & Hd & Hf & Hl & Hs). exists n. split; [|by rewrite Hrec].
  apply (denotes_same fs fs' (λ _, True)); [|done]. intros k _ Hk. by auto.
Qed.

Lemma entries_with_node fs p s r m : entries_at fuel fs r m -> entries_at fuel (with_node fs p s) r m.
Proof.
  intros [H1 H2]. split; [done|]. destruct H2 as [H2|(key & x & es & Hk & Hne & Hr & H)]; [by left|].
  right. exists key, x, es. split; [done|]. split; [done|]. split; [|done].
  apply (readable_same fs); [by intros k _|done|done].
Qed.

Lemma room_with_node fs p s : room fs -> room (with_node fs p s).
Proof.
  intros [H1 H2]. split; [intros st Hst; apply H1; by destruct Hst|intros next Hn; apply H2; by destruct Hn].
Qed.

(** A node revision is stored under an id that was not in use; the keys it has are
    those of an immutable node, or none. *)
Lemma new_node_wf fs q t s :
  dag_wf fs -> stored_nid q -> nr_ok t -> s ≡ nr_skel t -> nr_rev t = [] ->
  (forall i key, nr_keys t !! i = Some key -> key <> [] -> rep_mutable fs key false /\ valid_key key /\ exists x, contents fs key x) ->
  dag_wf (with_node fs q s).
Proof.
  intros Hwf Hq Ht Hs Hrev Hkeys.
  assert (forall i key, nr_keys t !! i = Some key -> key <> [] -> ~ rep_mutable fs key true) as Himm.
  { intros i key Hi Hne Hm. destruct (Hkeys i key Hi Hne) as [Hf _]. by pose proof (rep_mutable_unique fs key _ _ Hm Hf). }
  apply (with_node_wf fs q s t); try done.
  - intros i key Hi Hne. by destruct (Hkeys i key Hi Hne).
  - intros i j key Hi _ Hne Hm. by destruct (Himm i key).
  - intros q' t' i j key _ _ Hi _ Hne. by apply (Himm i).
Qed.

Definition new_rec (is_dir : bool) : node_rec :=
  mk_nr (if is_dir then svn_node_dir else svn_node_file) [] [] [[]; []].

Lemma new_rec_ok is_dir : nr_ok (new_rec is_dir).
Proof. destruct is_dir; (split; [by vm_compute|done|]); (split; [done|]); (split; [by repeat constructor|by vm_compute]). Qed.

Lemma new_node_skel_ok is_dir : exists s, new_node_skel is_dir = Ok s /\ s ≡ nr_skel (new_rec is_dir).
Proof. destruct is_dir; eexists; (split; [by vm_compute|done]). Qed.

(** Everything but the slot [i] of [p] is as it was. *)
Record others_kept (fs fs' : svn_fs_t) (p : nid) (i : nat) : Prop := {
  ok_tables : revisions fs' = revisions fs /\ transactions fs' = transactions fs;
  ok_nodes q t : q <> p -> node_at fs q t -> node_at fs' q t;
  ok_slots q t j key x : node_at fs q t -> (q <> p \/ j <> i) -> nr_keys t !! j = Some key ->
    contents fs key x -> contents fs' key x;
}.

Lemma changed_others fs fs' p i mk : changed fs fs' p mk -> owned fs p i mk -> others_kept fs fs' p i.
Proof.
  intros Hc Hown. split; [apply Hc|..].
  - intros q t Hq. by apply (ch_nodes _ _ _ _ Hc).
  - intros q t j key x Ht Hd Hj Hx. apply (ch_contents _ _ _ _ Hc); [|done]. intros ->.
    destruct (Hown q t j Ht Hj) as [-> ->]. by destruct Hd.
Qed.

(** The same when a node has been added first. *)
Lemma added_node_others fs fs' p i mk q s t :
  stored_nid q -> nr_ok t -> s ≡ nr_skel t -> ~ has_node fs q ->
  changed (with_node fs q s) fs' p mk -> owned (with_node fs q s) p i mk -> others_kept fs fs' p i.
Proof.
  intros Hq Ht Hs Hnew Hc Hown.
  assert (forall q' t', node_at fs q' t' -> node_at (with_node fs q s) q' t') as Hat.
  { intros q' t' H. apply (with_node_at fs q s t Hq Ht Hs). rewrite decide_False; [done|]. intros ->.
    apply Hnew. by apply (node_at_has fs q t'). }
  pose proof (changed_others _ _ _ _ _ Hc Hown) as [H1 H2 H3]. split; [done|..].
  - intros q' t' Hne H. by apply H2, Hat.
  - intros q' t' j key x H Hd Hj Hx. apply (H3 q' t' j); try done; [by apply Hat|by apply with_node_contents].
Qed.

(** ** [make_entry] *)

(** An entry with an id of [n] pairs can be added to the directory. *)
Definition entry_fits (m : gmap bytes bytes) (name : bytes) (n : nat) : Prop :=
  let size := (dir_size m + length name + 20 * n + 80)%nat in (size <= fuel)%nat /\ Z.of_nat size < 2 ^ 31.

Lemma entry_fits_size m name n q :
  entry_fits m name n -> nid_comps q -> (length q <= n)%nat ->
  (dir_size (<[name := id_text (flat q)]> m) + 3 <= fuel)%nat /\
  Z.of_nat (dir_size (<[name := id_text (flat q)]> m)) < 2 ^ 31 /\ (5 <= fuel)%nat.
Proof.
  intros [H1 H2] Hq Hl. pose proof (dir_size_insert m name (id_text (flat q))).
  pose proof (id_text_bound (flat q) (proj2 (nid_comps_flat q) Hq)) as Hb. rewrite flat_length in Hb. lia.
Qed.

Lemma make_entry_ok fs parent p r m name is_dir :
  dag_wf fs -> room fs -> id_room fs -> node_for fs parent p r -> nr_rev r = [] -> entries_at fuel fs r m ->
  svn_fs__is_single_path_component name = true -> m !! name = None ->
  entry_fits m name 1 ->
  exists n mk child parent' fs', make_entry fuel parent name is_dir fs = (Ok (child, parent'), fs') /\
    ~ has_node fs [(n, 1)] /\ node_for fs' child [(n, 1)] (new_rec is_dir) /\
    node_for fs' parent' p (set_nr_key 1 mk r) /\
    entries_at fuel fs' (set_nr_key 1 mk r) (<[name := id_text (flat [(n, 1)])]> m) /\
    dag_wf fs' /\ others_kept fs fs' p 1.
Proof.
  intros Hwf Hroom Hids Hn Hrev Hent Hname Hnone Hfit. unfold make_entry. rewrite Hname. cbn [negb].
  unfold svn_fs__dag_is_directory. rewrite (nf_kind _ _ _ _ Hn), (ea_dir _ _ _ _ Hent), bool_decide_true by done.
  cbn [negb]. destruct (check_mutable_ok fs parent p r Hn) as (parent1 & E1 & Hn1 & _).
  rewrite (state_bind_step _ _ _ _ _ E1), bool_decide_true by done. cbn [negb].
  destruct (dir_entry_ok fuel fs parent1 p r m name Hn1 Hent) as (e & parent2 & E2 & He & Hn2 & _).
  rewrite Hnone in He. subst e. rewrite (state_bind_step _ _ _ _ _ E2).
  pose proof (nf_at _ _ _ _ Hn2) as Hat. pose proof Hat as (Hst & Hok & _).
  destruct (nf_id _ _ _ _ Hn2) as [junk Hid]. rewrite Hid, unparse_nid, lift_bind by (by apply stored_comps).
  destruct (new_node_skel_ok is_dir) as (s & Es & Hs). rewrite Es, lift_bind.
  destruct (new_node_id_ok fs p (dw_nodes fs Hwf) (node_at_has fs p r Hat)) as (id & n & Ei & [j Hj] & Hpos & Hfresh).
  assert (n < 100000000) as Hlt by (apply (ir_new fs Hids id n Ei); by exists j).
  assert (stored_nid [(n, 1)]) as Hq by (split; [done|by repeat constructor; simpl; lia|constructor]).
  assert (~ has_node fs [(n, 1)]) as Hnew by (intros H; specialize (Hfresh n 1 [] Hq H); lia).
  pose proof (put_node_ok fs [(n, 1)] j s _ Hq (new_rec_ok is_dir) Hs) as Ep.
  set (fs1 := with_node fs [(n, 1)] s) in *.
  assert (svn_fs__create_node s fs = (Ok (flat [(n, 1)] ++ -1 :: j), fs1)) as Ec.
  { unfold svn_fs__create_node. rewrite (state_bind_step _ _ _ _ _ Ei), Hj. by rewrite (state_bind_step _ _ _ _ _ Ep). }
  rewrite (state_bind_step _ _ _ _ _ Ec).
  assert (dag_wf fs1) as Hwf1.
  { apply (new_node_wf fs [(n, 1)] (new_rec is_dir) s); try done; [apply new_rec_ok|].
    intros [|[|[|i]]] key Hi Hne; cbn in Hi; congruence. }
  assert (p <> [(n, 1)]) as Hpn by (intros ->; apply Hnew; by apply (node_at_has fs _ r)).
  pose proof (with_node_at fs [(n, 1)] s _ Hq (new_rec_ok is_dir) Hs) as Hats. fold fs1 in Hats.
  destruct (dag_get_node_ok fs1 [(n, 1)] (new_rec is_dir) j) as (child & Eg & Hc); [apply Hats; by rewrite decide_True|].
  rewrite (state_bind_step _ _ _ _ _ Eg).
  assert (node_for fs1 parent2 p r) as Hn3.
  { destruct Hn2 as [G1 G2 G3 G4]. split; try done. apply Hats. by rewrite decide_False. }
  destruct (nf_id _ _ _ _ Hc) as [jc Hjc]. rewrite Hjc.
  destruct (entry_fits_size m name 1 [(n, 1)] Hfit (stored_comps _ Hq) (le_n 1)) as (Hf1 & Hf2 & Hf3).
  destruct (set_entry_ok fs1 parent2 p r m name [(n, 1)] jc Hwf1 (room_with_node fs _ s Hroom) Hn3 Hrev
    (entries_with_node fs _ s r m Hent) (stored_comps _ Hq) Hf1 Hf2 Hf3)
    as (mk & parent3 & fs2 & E3 & Hp3 & _ & He3 & Hch & Hown & _).
  rewrite (state_bind_step _ _ _ _ _ E3). exists n, mk, child, parent3, fs2.
  split; [done|]. split; [done|]. split; [|split; [done|split; [done|split; [apply Hch|]]]].
  - destruct Hc as [G1 G2 G3 G4]. split; try done. apply (ch_nodes _ _ _ _ Hch); [by apply not_eq_sym|done].
  - by apply (added_node_others fs fs2 p 1 mk [(n, 1)] s (new_rec is_dir) Hq (new_rec_ok is_dir) Hs Hnew Hch Hown).
Qed.

(** ** [svn_fs__dag_clone_child] *)

Lemma last_pair (q : nid) : q <> [] -> exists pre n v, q = pre ++ [(n, v)].
Proof. intros H. destruct (exists_last H) as (pre & [n v] & ->). by exists pre, n, v. Qed.

(** The successor of an immutable node revision, with its representations. *)
Lemma create_successor_dag fs pre n v t s junk :
  dag_wf fs -> id_room fs -> node_at fs (pre ++ [(n, v)]) t -> nr_rev t <> [] -> s ≡ nr_skel (nr_mutable t) ->
  exists q j, svn_fs__create_successor (flat (pre ++ [(n, v)]) ++ -1 :: junk) s fs = (Ok (flat q ++ -1 :: j), with_node fs q s) /\
    stored_nid q /\ (length q <= length pre + 2)%nat /\ successor_id fs pre n v q /\ ~ has_node fs q /\
    dag_wf (with_node fs q s).
Proof.
  intros Hwf Hids Ht Hrev Hs. pose proof Ht as (Hst & Hok & _).
  destruct (new_successor_ok fs pre n v junk (dw_nodes fs Hwf) Hst) as (id & q & E & [j ->] & Hsucc & Hnew).
  pose proof (ir_next fs Hids pre n v q Hst (node_at_has fs _ t Ht) Hsucc) as Hq.
  pose proof (put_node_ok fs q j s _ Hq (nr_ok_mutable t Hok) Hs) as Ep. exists q, j. split.
  - unfold svn_fs__create_successor. rewrite (state_bind_step _ _ _ _ _ E). by rewrite (state_bind_step _ _ _ _ _ Ep).
  - split; [done|]. split; [by destruct Hsucc; rewrite length_app; simpl; lia|]. split; [done|]. split; [done|].
    apply (new_node_wf fs q (nr_mutable t) s); try done; [by apply nr_ok_mutable|].
    intros i key Hi Hne. split; [by apply (dw_immutable fs Hwf (pre ++ [(n, v)]) t i key)|].
    by apply (dw_keys fs Hwf (pre ++ [(n, v)]) t i key).
Qed.

Lemma node_for_with_node fs q s t node p r :
  stored_nid q -> nr_ok t -> s ≡ nr_skel t -> q <> p -> node_for fs node p r -> node_for (with_node fs q s) node p r.
Proof.
  intros Hq Ht Hs Hne [G1 G2 G3 G4]. split; try done. apply (with_node_at fs q s t Hq Ht Hs).
  rewrite decide_False; [done|by apply not_eq_sym].
Qed.

(** What a clone of an entry is: the entry itself when it is mutable. *)
Lemma clone_child_mutable fs parent p r m name q t :
  node_for fs parent p r -> nr_rev r = [] -> entries_at fuel fs r m ->
  svn_fs__is_single_path_component name = true -> m !! name = Some (id_text (flat q)) -> node_at fs q t -> nr_rev t = [] ->
  exists child parent', svn_fs__dag_clone_child fuel parent name fs = (Ok (child, parent'), fs) /\
    node_for fs child q t /\ node_for fs parent' p r.
Proof.
  intros Hn Hrev Hent Hname Hq Ht Hmut. unfold svn_fs__dag_clone_child.
  destruct (check_mutable_ok fs parent p r Hn) as (parent1 & E1 & Hn1 & _).
  rewrite (state_bind_step _ _ _ _ _ E1), bool_decide_true, Hname by done. cbn [negb].
  destruct (dag_open_ok fuel fs parent1 p r m name q t Hn1 Hent Hname Hq Ht) as (cur & parent2 & E2 & Hc & Hn2 & _).
  rewrite (state_bind_step _ _ _ _ _ E2). destruct (check_mutable_ok fs cur q t Hc) as (cur1 & E3 & Hc1 & _).
  rewrite (state_bind_step _ _ _ _ _ E3), bool_decide_true by done.
  destruct (nf_id _ _ _ _ Hc1) as [junk Hid]. destruct (dag_get_node_ok fs q t junk Ht) as (child & E4 & Hch).
  exists child, parent2. split; [|done]. unfold mbind at 1, state_bind at 1. cbn [mret state_ret]. rewrite Hid.
  by rewrite (state_bind_step _ _ _ _ _ E4).
Qed.

Lemma clone_child_ok fs parent p r m name q t :
  dag_wf fs -> room fs -> id_room fs -> node_for fs parent p r -> nr_rev r = [] -> entries_at fuel fs r m ->
  svn_fs__is_single_path_component name = true -> m !! name = Some (id_text (flat q)) -> node_at fs q t -> nr_rev t <> [] ->
  entry_fits m name (S (length q)) ->
  exists pre n v q' mk child parent' fs', q = pre ++ [(n, v)] /\
    svn_fs__dag_clone_child fuel parent name fs = (Ok (child, parent'), fs') /\
    successor_id fs pre n v q' /\ ~ has_node fs q' /\ node_for fs' child q' (nr_mutable t) /\
    node_for fs' parent' p (set_nr_key 1 mk r) /\
    entries_at fuel fs' (set_nr_key 1 mk r) (<[name := id_text (flat q')]> m) /\
    dag_wf fs' /\ others_kept fs fs' p 1.
Proof.
  intros Hwf Hroom Hids Hn Hrev Hent Hname Hq Ht Himm Hfit. unfold svn_fs__dag_clone_child.
  destruct (check_mutable_ok fs parent p r Hn) as (parent1 & E1 & Hn1 & _).
  rewrite (state_bind_step _ _ _ _ _ E1), bool_decide_true, Hname by done. cbn [negb].
  destruct (dag_open_ok fuel fs parent1 p r m name q t Hn1 Hent Hname Hq Ht) as (cur & parent2 & E2 & Hc & Hn2 & _).
  rewrite (state_bind_step _ _ _ _ _ E2). destruct (check_mutable_ok fs cur q t Hc) as (cur1 & E3 & Hc1 & _).
  rewrite (state_bind_step _ _ _ _ _ E3), bool_decide_false by done.
  destruct (get_node_revision_cached fs cur1 q t Hc1) as (s0 & cur2 & E4 & Hs0 & Hc2 & _).
  destruct (nr_make_mutable s0 t Hs0) as (s & Em & Hs). destruct (nf_id _ _ _ _ Hc2) as [junk Hid].
  pose proof Ht as (Hst & Hok & _). destruct (last_pair q (sn_ne _ Hst)) as (pre & n & v & ->).
  destruct (create_successor_dag fs pre n v t s junk Hwf Hids Ht Himm Hs) as (q' & j & E5 & Hq' & Hl & Hsucc & Hnew & Hwf1).
  assert (p <> q') as Hpq by (intros ->; apply Hnew; by apply (node_at_has fs _ r), (nf_at _ _ _ _ Hn)).
  pose proof (nr_ok_mutable t Hok) as Hok'.
  pose proof (node_for_with_node fs q' s _ parent2 p r Hq' Hok' Hs (not_eq_sym Hpq) Hn2) as Hn3.
  rewrite length_app in Hfit. cbn [length] in Hfit.
  destruct (entry_fits_size m name _ q' Hfit (stored_comps _ Hq') ltac:(lia)) as (Hf1 & Hf2 & Hf3).
  destruct (set_entry_ok _ parent2 p r m name q' j Hwf1 (room_with_node fs _ s Hroom) Hn3 Hrev
    (entries_with_node fs _ s r m Hent) (stored_comps _ Hq') Hf1 Hf2 Hf3)
    as (mk & parent3 & fs2 & E6 & Hp3 & _ & He3 & Hch & Hown & _).
  assert (node_at fs2 q' (nr_mutable t)) as Hat'.
  { apply (ch_nodes _ _ _ _ Hch); [by apply not_eq_sym|]. apply (with_node_at fs q' s _ Hq' Hok' Hs). by rewrite decide_True. }
  destruct (dag_get_node_ok fs2 q' _ j Hat') as (child & E7 & Hchild).
  exists pre, n, v, q', mk, child, parent3, fs2. split; [done|]. split.
  { unfold mbind at 1, state_bind at 1. rewrite (state_bind_step _ _ _ _ _ E4), Em, lift_bind, Hid.
    rewrite (state_bind_step _ _ _ _ _ E5), (state_bind_step _ _ _ _ _ E6). cbn [mret state_ret].
    by rewrite (state_bind_step _ _ _ _ _ E7). }
  split; [done|]. split; [done|]. split; [done|]. split; [done|]. split; [done|]. split; [apply Hch|].
  by apply (added_node_others fs fs2 p 1 mk q' s (nr_mutable t)).
Qed.
End set_entry.

(** ** Properties *)

Section properties.
Context `{db : BerkeleyDB}.
Context (fuel : nat).

(** C15. Making a file or a directory: in a mutable directory that has no entry of
    that name, [make_entry] makes a node with an id that was not in use, mutable and
    empty, and adds the entry; the filesystem stays well formed, and every other
    node, all properties and all other entries and contents are as they were. *)
Theorem make_entry_correct fs parent p r m name is_dir :
  dag_wf fs -> room fs -> id_room fs -> node_for fs parent p r -> nr_rev r = [] -> entries_at fuel fs r m ->
  svn_fs__is_single_path_component name = true -> m !! name = None -> entry_fits fuel m name 1 ->
  exists n mk child parent' fs', make_entry fuel parent name is_dir fs = (Ok (child, parent'), fs') /\
    ~ has_node fs [(n, 1)] /\ node_for fs' child [(n, 1)] (new_rec is_dir) /\
    node_for fs' parent' p (set_nr_key 1 mk r) /\
    entries_at fuel fs' (set_nr_key 1 mk r) (<[name := id_text (flat [(n, 1)])]> m) /\
    dag_wf fs' /\ others_kept fs fs' p 1.
Proof. apply make_entry_ok. Qed.

(** C14. Copy on write: cloning an immutable entry of a mutable directory makes a
    mutable successor of it, with an id that was not in use and the same properties
    and contents, and puts it in the place of the entry; the filesystem stays well
    formed, and every other node, the cloned one included, all properties and all
    other entries and contents are as they were. *)
Theorem clone_child_correct fs parent p r m name q t :
  dag_wf fs -> room fs -> id_room fs -> node_for fs parent p r -> nr_rev r = [] -> entries_at fuel fs r m ->
  svn_fs__is_single_path_component name = true -> m !! name = Some (id_text (flat q)) -> node_at fs q t -> nr_rev t <> [] ->
  entry_fits fuel m name (S (length q)) ->
  exists pre n v q' mk child parent' fs', q = pre ++ [(n, v)] /\
    svn_fs__dag_clone_child fuel parent name fs = (Ok (child, parent'), fs') /\
    successor_id fs pre n v q' /\ ~ has_node fs q' /\ node_for fs' child q' (nr_mutable t) /\
    node_for fs' parent' p (set_nr_key 1 mk r) /\
    entries_at fuel fs' (set_nr_key 1 mk r) (<[name := id_text (flat q')]> m) /\
    dag_wf fs' /\ others_kept fs fs' p 1.
Proof. apply clone_child_ok. Qed.

(** C16. Looking an entry up: [svn_fs__dag_open] gives the node the entry refers to,
    and [SVN_ERR_FS_NOT_FOUND] exactly when the directory has no entry of that name;
    the table of the entries has the id of each name; nothing is changed. *)
Theorem dag_open_correct fs node p r m name :
  node_for fs node p r -> entries_at fuel fs r m -> svn_fs__is_single_path_component name = true ->
  (m !! name = None -> svn_fs__dag_open fuel node name fs = (Err SVN_ERR_FS_NOT_FOUND, fs)) /\
  (forall q t, m !! name = Some (id_text (flat q)) -> node_at fs q t ->
     exists child node', svn_fs__dag_open fuel node name fs = (Ok (child, node'), fs) /\ node_for fs child q t) /\
  exists node', svn_fs__dag_dir_entries_hash fuel node fs = (Ok (svn_fs_parse_id <$> m, node'), fs).
Proof.
  intros Hn Hm Hname. split; [by apply (dag_open_missing fuel fs node p r m)|]. split.
  - intros q t Hq Ht. destruct (dag_open_ok fuel fs node p r m name q t Hn Hm Hname Hq Ht) as (child & node' & E & Hc & _).
    by exists child, node'.
  - destruct (dir_entries_skel_ok fuel fs node p r m Hn Hm) as (es & node' & E & Hd & _). exists node'.
    unfold svn_fs__dag_dir_entries_hash. rewrite (state_bind_step _ _ _ _ _ E).
    by rewrite (entries_hash_map es m Hd), lift_bind.
Qed.
End properties.

(** ** Witnesses *)

Section sample.
#[local] Existing Instance mem_db.

(** An immutable root, its mutable successor, and an immutable file. *)
Definition root_rec : node_rec := mk_nr svn_node_dir (bstr "0") [] [[]; []].
Definition file_rec : node_rec := mk_nr svn_node_file (bstr "0") [] [[]; []].

Definition fs_0 : svn_fs_t := with_node empty_fs [(0, 0)] (nr_skel root_rec).
Definition fs_1 : svn_fs_t := with_node fs_0 [(0, 1)] (nr_skel (new_rec true)).
Definition fs_2 : svn_fs_t := with_node fs_1 [(1, 1)] (nr_skel file_rec).

Lemma stored_pair n v : 0 <= n < 100000000 -> 0 <= v < 100000000 -> stored_nid [(n, v)].
Proof. intros Hn Hv. split; [done|by constructor; [|constructor]|constructor]. Qed.

Lemma empty_rec_wf fs q t :
  dag_wf fs -> stored_nid q -> nr_ok t -> nr_keys t = [[]; []] -> dag_wf (with_node fs q (nr_skel t)).
Proof.
  intros Hwf Hq Ht Hk.
  assert (forall i key, nr_keys t !! i = Some key -> key <> [] -> False) as Hno.
  { rewrite Hk. intros [|[|[|i]]] key Hi Hne; cbn in Hi; congruence. }
  apply (with_node_wf fs q (nr_skel t) t); try done.
  - intros i key Hi Hne. by destruct (Hno i key).
  - intros i j key Hi _ Hne. by destruct (Hno i key).
  - intros q' t' i j key _ _ Hi _ Hne. by destruct (Hno i key).
  - intros _ i key Hi Hne. by destruct (Hno i key).
Qed.

Lemma sample_rec_ok k rev : k = svn_node_dir \/ k = svn_node_file -> length rev = 1%nat -> nr_ok (mk_nr k rev [] [[]; []]).
Proof.
  intros Hk Hr. split.
  - by destruct Hk as [-> | ->]; destruct rev.
  - done.
  - cbn [nr_rev nr_keys nr_opts]. rewrite Hr. split; [done|]. split; [by repeat constructor|by vm_compute].
Qed.

Lemma root_ok : nr_ok root_rec.
Proof. apply sample_rec_ok; [by left|done]. Qed.
Lemma file_ok : nr_ok file_rec.
Proof. apply sample_rec_ok; [by right|done]. Qed.

Lemma no_nodes p r : ~ node_at empty_fs p r.
Proof. by intros (_ & _ & v & s & H & _). Qed.

Lemma empty_dag_wf : dag_wf empty_fs.
Proof.
  assert (forall k b, valid_key k -> ~ rep_mutable empty_fs k b) as Hm.
  { intros k b Hk (s & Hs & _). unfold stored_rep in Hs. by rewrite empty_reps in Hs. }
  split.
  - by intros k [v Hv].
  - apply empty_wf.
  - eexists. apply empty_stored.
  - eexists. apply empty_next.
  - intros k ws w Hk Hf. by rewrite empty_form in Hf.
  - intros k Hk H. by destruct (Hm k true).
  - intros p r i key H. by destruct (no_nodes p r).
  - intros p q r t i j key H. by destruct (no_nodes p r).
  - intros p r i key H. by destruct (no_nodes p r).
Qed.

Lemma fs_2_wf : dag_wf fs_2.
Proof.
  apply empty_rec_wf; [|by apply stored_pair|apply file_ok|done].
  apply empty_rec_wf; [|by apply stored_pair|apply (new_rec_ok true)|done].
  apply empty_rec_wf; [apply empty_dag_wf|by apply stored_pair|apply root_ok|done].
Qed.

Lemma room_of (fs : svn_fs_t) k1 k2 :
  dt_get (strings fs) svn_fs__next_key_key = [k1] -> bt_get (representations fs) svn_fs__next_key_key = Some k2 ->
  (length k1 < 198)%nat -> (length k2 < 198)%nat -> room fs.
Proof.
  intros H1 H2 Hl1 Hl2. split.
  - intros st Hst. by rewrite (stored_next fs st k1).
  - intros next Hn. by rewrite (reps_next_eq fs next k2).
Qed.

(** The nodes of a table in memory. *)
Lemma mem_has_node (fs : svn_fs_t) p :
  stored_nid p -> has_node fs p -> exists k, k ∈ (nodes fs).*1 /\ key_nid k = Some p.
Proof.
  intros Hp H. apply mem_get_is_Some in H as (k & Hk & E). exists k. split; [done|].
  change (ko_cmp nodes_order) with nodes_cmp in E. apply (lex_cmp_eq _ _ nodes_cmp_key), node_key_eq in E.
  rewrite key_nid_text in E; [destruct (key_nid k); [by subst|done]|by apply sn_ne|by apply stored_comps].
Qed.

Lemma id_room_of (fs : svn_fs_t) l n0 junk :
  (nodes fs).*1 = l -> Forall (λ k, exists n v, key_nid k = Some [(n, v)] /\ 0 <= n < 99999999 /\ 1 <= v + 1 < 99999999) l ->
  fst (svn_fs__new_node_id fs) = Ok (n0 :: 1 :: -1 :: junk) -> n0 < 100000000 -> id_room fs.
Proof.
  intros El Hl Enew Hn0.
  assert (forall p, stored_nid p -> has_node fs p -> exists n v, p = [(n, v)] /\ 0 <= n < 99999999 /\ 1 <= v + 1 < 99999999) as Hall.
  { intros p Hp H. destruct (mem_has_node fs p Hp H) as (k & Hk & E). rewrite El in Hk.
    rewrite List.Forall_forall in Hl. destruct (Hl k) as (n & v & E' & Hr); [by apply list_elem_of_In|].
    exists n, v. split; [congruence|done]. }
  split.
  - intros id n E [j Hj]. rewrite E in Enew. cbn [fst] in Enew. injection Enew as ->. injection Hj as <- _. done.
  - intros pre n v q Hst Hh Hs. destruct (Hall _ Hst Hh) as (n' & v' & Epre & Hn & Hv).
    destruct pre as [|x [|y pre]]; try done. injection Epre as -> ->.
    destruct Hs as [_|_ _|r b _ _ (x & rest & Hb & Hhb) _ _].
    + apply stored_pair; lia.
    + split; [done|apply Forall_cons_iff; split; [simpl; lia|]; apply Forall_cons_iff; split; [simpl; lia|constructor]|]. apply Forall_cons_iff; split; [simpl; lia|constructor].
    + destruct (Hall _ Hb Hhb) as (? & ? & E & _). done.
Qed.

Definition parent_node : dag_node_t := mk_node [0; 1; -1] svn_node_dir None.

Lemma fs_2_nodes q t : node_at fs_2 q t <->
  if decide (q = [(1, 1)]) then t = file_rec else if decide (q = [(0, 1)]) then t = new_rec true else node_at fs_0 q t.
Proof.
  unfold fs_2. rewrite (with_node_at fs_1 _ _ file_rec);
    [|by apply stored_pair|apply file_ok|done].
  case_decide; [done|]. apply (with_node_at fs_0 _ _ (new_rec true)); [by apply stored_pair|apply (new_rec_ok true)|done].
Qed.

Lemma parent_for : node_for fs_2 parent_node [(0, 1)] (new_rec true).
Proof. split; [by exists []|by apply fs_2_nodes|done|done]. Qed.

Lemma parent_entries : entries_at 500 fs_2 (new_rec true) ∅.
Proof. split; [done|]. by left. Qed.

Lemma fs_2_room : room fs_2.
Proof. apply (room_of fs_2 (bstr "0") (bstr "0")); [by vm_compute|by vm_compute|simpl; lia|simpl; lia]. Qed.

Lemma fs_2_ids : id_room fs_2.
Proof.
  eapply (id_room_of fs_2); [by vm_compute| |by vm_compute|lia].
  repeat constructor; (eexists _, _; split; [by vm_compute|lia]).
Qed.

Lemma make_entry_correct_witness :
  exists n child parent' fs', make_entry 500 parent_node (bstr "a") true fs_2 = (Ok (child, parent'), fs') /\
    dag_wf fs' /\ node_for fs' child [(n, 1)] (new_rec true).
Proof.
  destruct (make_entry_correct 500 fs_2 parent_node [(0, 1)] (new_rec true) ∅ (bstr "a") true)
    as (n & mk & child & parent' & fs' & E & _ & Hc & _ & _ & Hwf & _).
  - apply fs_2_wf.
  - apply fs_2_room.
  - apply fs_2_ids.
  - apply parent_for.
  - done.
  - apply parent_entries.
  - by vm_compute.
  - done.
  - split; [|reflexivity]. unfold dir_size. rewrite map_to_list_empty. cbn. lia.
  - by exists n, child, parent', fs'.
Defined.

Lemma dag_open_correct_witness :
  svn_fs__dag_open 500 parent_node (bstr "a") fs_2 = (Err SVN_ERR_FS_NOT_FOUND, fs_2).
Proof.
  refine (proj1 (dag_open_correct 500 fs_2 parent_node [(0, 1)] (new_rec true) ∅ (bstr "a") _ _ _) _).
  - apply parent_for.
  - apply parent_entries.
  - by vm_compute.
  - done.
Defined.

(** The directory with the file in it. *)
Definition fs_3 : svn_fs_t := (set_entry 500 parent_node (bstr "a") [1; 1; -1] fs_2).2.

Lemma fs_3_ok : exists mk parent', node_for fs_3 parent' [(0, 1)] (set_nr_key 1 mk (new_rec true)) /\
  entries_at 500 fs_3 (set_nr_key 1 mk (new_rec true)) {[bstr "a" := id_text (flat [(1, 1)])]} /\ dag_wf fs_3 /\
  node_at fs_3 [(1, 1)] file_rec /\ forall q t, q <> [(0, 1)] -> node_at fs_3 q t <-> node_at fs_2 q t.
Proof.
  assert (entry_fits 500 ∅ (bstr "a") 1) as Hfit.
  { split; [|reflexivity]. unfold dir_size. rewrite map_to_list_empty. cbn. lia. }
  assert (stored_nid [(1, 1)]) as Hq by (by apply stored_pair).
  destruct (entry_fits_size 500 ∅ (bstr "a") 1 [(1, 1)] Hfit (stored_comps _ Hq) (le_n 1)) as (Hf1 & Hf2 & Hf3).
  destruct (set_entry_ok 500 fs_2 parent_node [(0, 1)] (new_rec true) ∅ (bstr "a") [(1, 1)] []
    fs_2_wf fs_2_room parent_for eq_refl parent_entries (stored_comps _ Hq) Hf1 Hf2 Hf3)
    as (mk & parent' & fs' & E & Hn & _ & He & Hc & _ & _).
  assert (fs_3 = fs') as -> by exact (f_equal snd E).
  exists mk, parent'. split; [done|]. split; [by rewrite <- insert_empty|]. split; [apply Hc|].
  split; [apply (ch_nodes _ _ _ _ Hc); [by intros [=]|]; by apply fs_2_nodes|apply (ch_nodes _ _ _ _ Hc)].
Qed.

Lemma fs_3_room : room fs_3.
Proof. apply (room_of fs_3 (bstr "1") (bstr "1")); [by vm_compute|by vm_compute|simpl; lia|simpl; lia]. Qed.

Lemma fs_3_ids : id_room fs_3.
Proof.
  eapply (id_room_of fs_3); [by vm_compute| |by vm_compute|lia].
  repeat constructor; (eexists _, _; split; [by vm_compute|lia]).
Qed.

Lemma clone_child_correct_witness :
  exists parent' child parent'' q' fs', svn_fs__dag_clone_child 500 parent' (bstr "a") fs_3 = (Ok (child, parent''), fs') /\
    dag_wf fs' /\ node_for fs' child q' (new_rec false) /\ node_at fs' [(1, 1)] file_rec.
Proof.
  destruct fs_3_ok as (mk & parent' & Hn & He & Hwf & Hat & _).
  destruct (clone_child_correct 500 fs_3 parent' [(0, 1)] (set_nr_key 1 mk (new_rec true))
    {[bstr "a" := id_text (flat [(1, 1)])]} (bstr "a") [(1, 1)] file_rec)
    as (pre & n & v & q' & mk' & child & parent'' & fs' & _ & E & _ & _ & Hc & _ & _ & Hwf' & Ho).
  - exact Hwf.
  - apply fs_3_room.
  - apply fs_3_ids.
  - exact Hn.
  - reflexivity.
  - exact He.
  - by vm_compute.
  - apply lookup_singleton_eq.
  - exact Hat.
  - discriminate.
  - split; [|reflexivity]. apply Nat.leb_le. by vm_compute.
  - exists parent', child, parent'', q', fs'. split; [exact E|]. split; [exact Hwf'|]. split; [exact Hc|].
    apply (ok_nodes _ _ _ _ Ho); [discriminate|exact Hat].
Defined.
End sample.
