(* ===== verification/Deltify.v ===== *)
(** * Deltification of nodes ([libsvn_fs/deltify.c])

    Which representations of which nodes are turned into deltas and back. *)

From S2P Require Import Prelude KeyGen Libc Skel Proplist Id Stream Db NodeKeys Fs RevTable TxnTable NodesTable Strings.
From S2P Require Import TextDelta Vdelta Svndiff TxStream Reps RepOps SvnString Path Dag.

(** [a && b && strcmp (a, b)] of two keys. *)
Definition keys_differ (a b : option bytes) : option (bytes * bytes) :=
  match a, b with
  | Some a, Some b => if decide (a = b) then None else Some (a, b)
  | _, _ => None
  end.

(** A key of a representation, [None] for a null pointer. *)
Definition opt_key (s : skel) : option bytes :=
  if negb (length (skel_data s) =? 0)%nat then Some (key_of s) else None.

(** The array of [len + 3] cells that [deltify_by_id] fills in. *)
Definition branch_id (target_id : list Z) (len : nat) : list Z := take len target_id ++ [1; 1; -1].

Section deltify.
Context `{db : BerkeleyDB} {ctx : Type} `{m : Md5 ctx bytes}.
Context (fuel : nat) (digest_memory : bytes).

(** The order in which [apr_hash_next] gives the entries of a table. *)
Context (hash_order : gmap bytes (option (list Z)) -> list (bytes * option (list Z))).

Definition deltify (target_id source_id : list Z) (props_only : bool) : trail unit :=
  target_nr ← svn_fs__get_node_revision target_id;
  source_nr ← svn_fs__get_node_revision source_id;
  target_pkey ← lift (NR_PROP_KEY target_nr);
  target_dkey ← lift (NR_DATA_KEY target_nr);
  source_pkey ← lift (NR_PROP_KEY source_nr);
  source_dkey ← lift (NR_DATA_KEY source_nr);
  match keys_differ (opt_key target_pkey) (opt_key source_pkey) with
  | Some (target_pkey, source_pkey) => svn_fs__rep_deltify fuel digest_memory target_pkey source_pkey
  | None => mret tt
  end;;
  if props_only then mret tt
  else
    match keys_differ (opt_key target_dkey) (opt_key source_dkey) with
    | Some (target_dkey, source_dkey) => svn_fs__rep_deltify fuel digest_memory target_dkey source_dkey
    | None => mret tt
    end.

Definition undeltify_key (key : option bytes) : trail unit :=
  match key with Some key => svn_fs__rep_undeltify fuel key | None => mret tt end.

Definition undeltify (id : list Z) : trail unit :=
  node_rev ← svn_fs__get_node_revision id;
  pkey_skel ← lift (NR_PROP_KEY node_rev);
  dkey_skel ← lift (NR_DATA_KEY node_rev);
  undeltify_key (opt_key pkey_skel);;
  undeltify_key (opt_key dkey_skel).

(** [SVN_NO_ERROR == svn_fs__dag_get_node (...)]: whatever the error is. *)
Definition node_exists (id : list Z) : trail bool := λ fs,
  let '(r, fs) := svn_fs__dag_get_node (Some id) fs in
  match r with
  | Ok _ => (Ok true, fs)
  | Err _ => (Ok false, fs)
  | Abort => (Abort, fs)
  | Undef => (Undef, fs)
  end.

Definition deltify_by_id (target_id : list Z) (is_dir : bool) : trail unit :=
  len ← lift (svn_fs__id_length target_id);
  tmp_id ← lift (svn_fs__id_copy target_id);
  tmp_id ← lift (if (len =? 0)%nat then Undef else last ← rd tmp_id (len - 1); wr tmp_id (len - 1) (last + 1));
  found ← node_exists tmp_id;
  if (found : bool) then deltify target_id tmp_id is_dir
  else
    let tmp_id := branch_id target_id len in
    found ← node_exists tmp_id;
    if (found : bool) then deltify target_id tmp_id is_dir else mret tt.

Fixpoint each_dirent (f : bytes -> option (list Z) -> trail unit) (path : bytes)
    (entries : list (bytes * option (list Z))) : trail unit :=
  match entries with
  | [] => mret tt
  | (name, id) :: entries => f (svn_path_add_component_nts path name) id;; each_dirent f path entries
  end.

(** [n] bounds the depth of the directories.  The path is only passed down. *)
Fixpoint deltify_undeltify (n : nat) (path : bytes) (id : option (list Z)) (do_deltify recurse : bool) :
    trail unit :=
  match n with
  | O => lift Undef
  | S n =>
      node ← svn_fs__dag_get_node id;
      let is_dir := svn_fs__dag_is_directory node in
      (if is_dir && recurse then
         '(entries, _) ← svn_fs__dag_dir_entries_hash fuel node;
         each_dirent (λ path id, deltify_undeltify n path id do_deltify recurse) path (hash_order entries)
       else mret tt);;
      id ← lift (deref id);
      if do_deltify then deltify_by_id id is_dir else undeltify id
  end.

Definition txn_body_deltify (path : bytes) (id : list Z) (recursive : bool) : trail unit :=
  svn_fs__dag_get_node (Some id);; deltify_undeltify fuel path (Some id) true recursive.

Definition txn_body_undeltify (path : bytes) (id : list Z) (recursive : bool) : trail unit :=
  svn_fs__dag_get_node (Some id);; deltify_undeltify fuel path (Some id) false recursive.

Definition svn_fs__stable_node (id : list Z) : trail unit :=
  predecessor_id ← lift (svn_fs__id_predecessor id);
  node ← svn_fs__dag_get_node (Some id);
  match predecessor_id with
  | Some predecessor_id => deltify predecessor_id id (svn_fs__dag_is_directory node)
  | None => mret tt
  end.
End deltify.
