(* ===== verification/Commit.v ===== *)
(** * Commits and transactions of a filesystem ([libsvn_fs/dag.c], [libsvn_fs/txn.c])

    Making a new filesystem, making the tree of a transaction immutable, and the
    transactions of the public interface.  The current time, as
    [svn_time_to_nts] prints it, is an argument. *)

From S2P Require Import Prelude Types KeyGen Libc Skel Proplist Id Stream Db Trail NodeKeys Fs RevTable TxnTable NodesTable.
From S2P Require Import Strings TextDelta Vdelta Svndiff TxStream Reps RepOps SvnString Path Dag Deltify.

Section commit.
Context `{db : BerkeleyDB} {ctx : Type} `{m : Md5 ctx bytes}.
Context (fuel : nat) (digest_memory : bytes).

(** [svn_fs__make_rep_immutable] of a key that is not empty. *)
Definition key_immutable (key_skel : skel) : trail unit :=
  if empty_string (key_of key_skel) then mret tt else svn_fs__make_rep_immutable (key_of key_skel).

Definition make_node_immutable (node : dag_node_t) (rev : svn_revnum_t) : trail dag_node_t :=
  '(node_rev, node) ← get_node_revision node;
  is_mutable ← lift (node_rev_is_mutable node_rev);
  if negb is_mutable then mret node
  else
    match NR_EDIT_KEY node_rev with
    | Some _ => _id_str ← lift (svn_fs_unparse_id (node_id node)); fail SVN_ERR_FS_CORRUPT
    | None =>
        let node_rev := svn_fs__copy_skel node_rev in
        prop_key ← lift (NR_PROP_KEY node_rev);
        key_immutable prop_key;;
        data_key ← lift (NR_DATA_KEY node_rev);
        key_immutable data_key;;
        node_rev ← lift (set_hdr_rev node_rev (dec_text (rev mod two64)));
        set_node_revision node node_rev
    end.

(** [n] bounds the depth of the directories. *)
Fixpoint stabilize_node (n : nat) (node : dag_node_t) (rev : svn_revnum_t) : trail unit :=
  match n with
  | O => lift Undef
  | S n =>
      '(is_mutable, node) ← svn_fs__dag_check_mutable node;
      if negb is_mutable then mret tt
      else
        node ←
          (if svn_fs__dag_is_directory node then
             '(entries, node) ← svn_fs__dag_dir_entries_skel fuel node;
             each_entry (λ id, child ← svn_fs__dag_get_node id; stabilize_node n child rev) (kids entries);;
             mret node
           else if svn_fs__dag_is_file node then mret node
           else lift Abort);
        node ← make_node_immutable node rev;
        svn_fs__stable_node fuel digest_memory (node_id node)
  end.

(** The skel of the new revision; its property list is that of the transaction. *)
Definition new_revision_skel (txn_skel : skel) (id_string : bytes) : outcome skel :=
  proplist ← kid txn_skel 3;
  s ← svn_fs__prepend proplist svn_fs__make_empty_list;
  s ← svn_fs__prepend (svn_fs__mem_atom id_string (length id_string)) s;
  svn_fs__prepend (svn_fs__str_atom (bstr "revision")) s.

Definition svn_fs__dag_commit_txn (date svn_txn : bytes) : trail svn_revnum_t :=
  root ← svn_fs__dag_txn_root svn_txn;
  id_string ← lift (svn_fs_unparse_id (node_id root));
  txn_skel ← svn_fs__get_txn svn_txn;
  rev_skel ← lift (new_revision_skel txn_skel id_string);
  new_rev ← svn_fs__put_rev rev_skel;
  svn_fs__set_rev_prop new_rev SVN_PROP_REVISION_DATE (Some date);;
  stabilize_node fuel root new_rev;;
  svn_fs__delete_txn svn_txn;;
  mret new_rev.

(** ** A new filesystem *)

Definition unparsed_node_rev : bytes := bstr "((dir 1 0) 0 0 )".
Definition unparsed_rev_skel : bytes := bstr "(revision 3 0.0 ())".

Definition txn_body_dag_init_fs (date : bytes) : trail unit :=
  node_rev ← lift (deref (svn_fs__parse_skel unparsed_node_rev));
  root_id ← lift (deref (svn_fs_parse_id (bstr "0.0")));
  svn_fs__put_node_revision root_id node_rev;;
  svn_fs__stable_node fuel digest_memory root_id;;
  rev_skel ← lift (deref (svn_fs__parse_skel unparsed_rev_skel));
  rev ← svn_fs__put_rev rev_skel;
  if negb (rev =? 0) then fail SVN_ERR_FS_CORRUPT
  else svn_fs__set_rev_prop 0 SVN_PROP_REVISION_DATE (Some date).

(** ** The public transactions *)

(** [svn_fs__retry_txn] when there are no deadlocks: see [run_trail_retry]. *)
Definition run_trail {A} (body : trail A) : trail A := λ fs,
  let '(r, fs') := body fs in
  match r with Ok a => (Ok a, fs') | _ => (r, fs) end.

Definition trail_body {A} (body : trail A) (k : nat) (t : trail_t (DB := svn_fs_t) (Mem := unit)) :
    outcome A * trail_t :=
  let '(r, fs) := body (db_txn t) in (r, mk_trail fs (mem t) (undos t)).

Lemma run_trail_retry {A} (body : trail A) fs :
  fst (body fs) <> Err deadlock ->
  svn_fs__retry_txn (trail_body body) (λ _ d, d) 1 0 fs tt =
    Some (let '(r, fs') := run_trail body fs in (r, (fs', tt))).
Proof.
  intros Hd. cbn [svn_fs__retry_txn]. unfold trail_body, run_trail, begin_trail. cbn [db_txn].
  destruct (body fs) as [[a|e| |] fs']; cbn [fst] in Hd; try done.
  rewrite decide_False by congruence. done.
Qed.

(** [struct svn_fs_txn_t]. *)
Record svn_fs_txn_t := mk_txn_obj { base_rev : svn_revnum_t; txn_id : bytes }.

Definition txn_body_begin_txn (rev : svn_revnum_t) : trail svn_fs_txn_t :=
  root_id ← svn_fs__rev_get_root rev;
  svn_txn_id ← svn_fs__create_txn root_id;
  mret (mk_txn_obj rev svn_txn_id).

(** Two trails: the date is set in one of its own. *)
Definition svn_fs_begin_txn (rev : svn_revnum_t) (date : bytes) : trail svn_fs_txn_t :=
  txn ← run_trail (txn_body_begin_txn rev);
  run_trail (txn_body_change_txn_prop (txn_id txn) SVN_PROP_REVISION_DATE (Some date));;
  mret txn.

Definition txn_body_abort_txn (txn : svn_fs_txn_t) : trail unit :=
  '(root_id, _) ← svn_fs__get_txn_ids (txn_id txn);
  svn_fs__dag_delete_if_mutable fuel fuel (Some root_id);;
  svn_fs__delete_txn (txn_id txn).

Definition svn_fs_abort_txn (txn : svn_fs_txn_t) : trail unit := run_trail (txn_body_abort_txn txn).

Definition txn_body_open_txn (name : bytes) : trail svn_fs_txn_t :=
  '(_, base_root_id) ← svn_fs__get_txn_ids name;
  base_root_node ← svn_fs__dag_get_node (Some base_root_id);
  '(base_rev, _) ← svn_fs__dag_get_revision base_root_node;
  mret (mk_txn_obj base_rev name).

Definition svn_fs_open_txn (name : bytes) : trail svn_fs_txn_t := run_trail (txn_body_open_txn name).

Definition svn_fs_list_transactions : trail (list bytes) := run_trail svn_fs__get_txn_list.
End commit.
