(* ===== verification/Tree.v ===== *)
(** * The filesystem as a tree ([libsvn_fs/tree.c])

    Roots, paths, and the operations of the public interface on the nodes they
    name, with just-in-time cloning of the directories that lead to a changed
    node.  Merging and committing are in [Merge].  A path, a name or the name of a
    transaction is a C string; where several trails run in a function, the state
    passes from one to the next (see [Merge] for other processes). *)

From S2P Require Import Prelude Types KeyGen Libc Skel Proplist Id Stream Db NodeKeys Fs RevTable TxnTable NodesTable Strings.
From S2P Require Import TextDelta Vdelta Svndiff TxStream Reps RepOps SvnString Path Sorts Dag Deltify Commit.

(** The buffer is flushed when it holds more than this. *)
Definition SVN_FS_WRITE_BUFFER_SIZE : Z := 512000.

(** ** Roots *)

Inductive root_kind_t := unspecified_root | revision_root | transaction_root | id_root.

#[global] Instance root_kind_eq_dec : EqDecision root_kind_t.
Proof. solve_decision. Defined.

Record svn_fs_root_t := mk_root {
  kind : root_kind_t;
  txn_name : option bytes;
  rev : svn_revnum_t;
  root_dir : option dag_node_t;
}.

(** A zeroed structure. *)
Definition make_root : svn_fs_root_t := mk_root unspecified_root None 0 None.

Definition make_revision_root (rev : svn_revnum_t) (root_dir : dag_node_t) : svn_fs_root_t :=
  mk_root revision_root (txn_name make_root) rev (Some root_dir).

Definition make_txn_root (txn : bytes) : svn_fs_root_t :=
  mk_root transaction_root (Some txn) (rev make_root) (root_dir make_root).

Definition svn_fs_is_txn_root (root : svn_fs_root_t) : bool := bool_decide (kind root = transaction_root).
Definition svn_fs_is_revision_root (root : svn_fs_root_t) : bool := bool_decide (kind root = revision_root).
Definition svn_fs_is_id_root (root : svn_fs_root_t) : bool := bool_decide (kind root = id_root).

Definition svn_fs_txn_root_name (root : svn_fs_root_t) : option bytes :=
  if svn_fs_is_txn_root root then txn_name root else None.

Definition svn_fs_revision_root_revision (root : svn_fs_root_t) : svn_revnum_t :=
  if svn_fs_is_revision_root root then rev root else -1.

(** Errors that name a root: there is no message for an id root. *)
Definition not_found {A} (root : svn_fs_root_t) : outcome A :=
  if svn_fs_is_txn_root root then Err SVN_ERR_FS_NOT_FOUND
  else if svn_fs_is_revision_root root then Err SVN_ERR_FS_NOT_FOUND
  else Abort.

Definition already_exists {A} (root : svn_fs_root_t) : outcome A :=
  if svn_fs_is_txn_root root then Err SVN_ERR_FS_ALREADY_EXISTS
  else if svn_fs_is_revision_root root then Err SVN_ERR_FS_ALREADY_EXISTS
  else Abort.

(** ** Components of a path *)

(** [strchr]: the position before the end of the string. *)
Fixpoint strchr (s : bytes) (c : byte) : option nat :=
  match s with
  | [] => None
  | d :: s =>
      if byte_eq_dec d NUL then None
      else if byte_eq_dec d c then Some O
      else S <$> strchr s c
  end.

Fixpoint skip_slashes (s : bytes) : bytes :=
  match s with
  | [] => []
  | c :: s' => if byte_eq_dec c sep then skip_slashes s' else s
  end.

(** The component, and what follows: [None] for a null pointer. *)
Definition next_entry_name (path : bytes) : bytes * option bytes :=
  match strchr path sep with
  | None => (take (strlen path) path, None)
  | Some end_ => (take end_ path, Some (skip_slashes (drop end_ path)))
  end.

(** ** Paths from a node up to the root *)

#[warnings="-register-all"]
Inductive parent_path_t :=
  make_parent_path (node : option dag_node_t) (entry : option bytes) (parent : option parent_path_t).

Definition pp_node (pp : parent_path_t) : option dag_node_t := let 'make_parent_path node _ _ := pp in node.
Definition pp_entry (pp : parent_path_t) : option bytes := let 'make_parent_path _ entry _ := pp in entry.
Definition pp_parent (pp : parent_path_t) : option parent_path_t :=
  let 'make_parent_path _ _ parent := pp in parent.

Definition set_pp_node (node : dag_node_t) (pp : parent_path_t) : parent_path_t :=
  make_parent_path (Some node) (pp_entry pp) (pp_parent pp).

(** [path_append]. *)
Definition path_append (dir entry : bytes) : bytes := dir ++ sep :: entry.

Section tree.
Context `{db : BerkeleyDB} {ctx : Type} `{m : Md5 ctx bytes}.
Context (fuel : nat).

Definition root_node (root : svn_fs_root_t) : trail dag_node_t :=
  if svn_fs_is_revision_root root then lift (root_dir ← deref (root_dir root); svn_fs__dag_dup root_dir)
  else if svn_fs_is_txn_root root then txn ← lift (deref (txn_name root)); svn_fs__dag_txn_root txn
  else lift Abort.

Definition mutable_root_node (root : svn_fs_root_t) : trail dag_node_t :=
  if svn_fs_is_txn_root root then txn ← lift (deref (txn_name root)); svn_fs__dag_clone_root txn
  else fail SVN_ERR_FS_NOT_MUTABLE.

(** [svn_fs__dag_open], [None] for its "file not found"; [here] keeps the node
    revision that the failed call has left in its cache. *)
Definition open_entry (here : dag_node_t) (entry : bytes) : trail (option dag_node_t * dag_node_t) := λ fs,
  match svn_fs__dag_open fuel here entry fs with
  | (Ok (child, here), fs) => (Ok (Some child, here), fs)
  | (Err SVN_ERR_FS_NOT_FOUND, fs) => ('(_, here) ← get_node_revision here; mret (None, here)) fs
  | (Err e, fs) => (Err e, fs)
  | (Abort, fs) => (Abort, fs)
  | (Undef, fs) => (Undef, fs)
  end.

(** Nothing is left of the path but its null character. *)
Definition path_done (next : option bytes) : bool :=
  match next with None => true | Some next => (strlen next =? 0)%nat end.

(** The loop of [open_path]; [here] is the node of [parent_path], and [n] bounds
    the number of components. *)
Fixpoint open_path_loop (n : nat) (root : svn_fs_root_t) (last_optional : bool)
    (here : dag_node_t) (parent_path : parent_path_t) (rest : bytes) : trail parent_path_t :=
  match n with
  | O => lift Undef
  | S n =>
      let '(entry, next) := next_entry_name rest in
      '(child, parent_path) ←
        (if empty_string entry then mret (Some here, parent_path)
         else
           '(child, here) ← open_entry here entry;
           let parent_path := set_pp_node here parent_path in
           match child with
           | Some child => mret (Some child, make_parent_path (Some child) (Some entry) (Some parent_path))
           | None =>
               if last_optional && path_done next
               then mret (None, make_parent_path None (Some entry) (Some parent_path))
               else lift (not_found root)
           end);
      match child, next with
      | None, _ | _, None => mret parent_path
      | Some child, Some next =>
          if negb (svn_fs__dag_is_directory child) then fail SVN_ERR_FS_NOT_DIRECTORY
          else open_path_loop n root last_optional child parent_path next
      end
  end.

(** [last_optional]: the only flag.  Every turn of the loop but the last consumes
    a slash. *)
Definition open_path (root : svn_fs_root_t) (path : bytes) (last_optional : bool) : trail parent_path_t :=
  if svn_fs_is_id_root root then
    let id := svn_fs_parse_id (take (strlen path) path) in
    lift (c_assert (negb last_optional));;
    match id with
    | None => fail SVN_ERR_FS_NOT_ID
    | Some _ => node ← svn_fs__dag_get_node id; mret (make_parent_path (Some node) None None)
    end
  else
    here ← root_node root;
    open_path_loop (S (length path)) root last_optional here (make_parent_path (Some here) None None) path.

(** The nodes along the path are replaced by their clones. *)
Fixpoint make_path_mutable (root : svn_fs_root_t) (parent_path : parent_path_t) : trail parent_path_t :=
  let 'make_parent_path node entry parent := parent_path in
  node ← lift (deref node);
  '(is_mutable, node) ← svn_fs__dag_check_mutable node;
  if (is_mutable : bool) then mret (make_parent_path (Some node) entry parent)
  else
    match parent with
    | Some parent =>
        parent ← make_path_mutable root parent;
        parent_node ← lift (deref (pp_node parent));
        name ← lift (deref entry);
        '(clone, parent_node) ← svn_fs__dag_clone_child fuel parent_node name;
        mret (make_parent_path (Some clone) entry (Some (set_pp_node parent_node parent)))
    | None =>
        clone ← mutable_root_node root;
        mret (make_parent_path (Some clone) entry None)
    end.

(** [make_path_mutable (root, parent_path->parent)]: the parent's node and the
    name in it. *)
Definition mutable_parent (root : svn_fs_root_t) (parent_path : parent_path_t) : trail (dag_node_t * bytes) :=
  parent ← lift (deref (pp_parent parent_path));
  parent ← make_path_mutable root parent;
  parent_node ← lift (deref (pp_node parent));
  name ← lift (deref (pp_entry parent_path));
  mret (parent_node, name).

Definition get_dag (root : svn_fs_root_t) (path : bytes) : trail dag_node_t :=
  parent_path ← open_path root path false;
  lift (deref (pp_node parent_path)).

(** ** Operations on any node *)

Definition txn_body_node_id (root : svn_fs_root_t) (path : bytes) : trail (list Z) :=
  node ← get_dag root path; lift (svn_fs__id_copy (node_id node)).

Definition svn_fs_node_id (root : svn_fs_root_t) (path : bytes) : trail (list Z) :=
  run_trail (txn_body_node_id root path).

Definition txn_body_node_created_rev (root : svn_fs_root_t) (path : bytes) : trail svn_revnum_t :=
  node ← get_dag root path; '(rev, _) ← svn_fs__dag_get_revision node; mret rev.

Definition svn_fs_node_created_rev (root : svn_fs_root_t) (path : bytes) : trail svn_revnum_t :=
  run_trail (txn_body_node_created_rev root path).

Definition txn_body_node_kind (root : svn_fs_root_t) (path : bytes) : trail svn_node_kind_t :=
  node ← get_dag root path; mret (node_kind node).

Definition svn_fs_check_path (root : svn_fs_root_t) (path : bytes) : trail svn_node_kind_t := λ fs,
  match run_trail (txn_body_node_kind root path) fs with
  | (Err _, fs) => (Ok svn_node_none, fs)
  | (r, fs) => (r, fs)
  end.

Definition svn_fs_is_dir (root : svn_fs_root_t) (path : bytes) : trail bool :=
  kind ← run_trail (txn_body_node_kind root path); mret (bool_decide (kind = svn_node_dir)).

Definition svn_fs_is_file (root : svn_fs_root_t) (path : bytes) : trail bool :=
  kind ← run_trail (txn_body_node_kind root path); mret (bool_decide (kind = svn_node_file)).

(** The ids that are compared as pointers belong to two nodes, so they never are
    the same, and neither are the skels. *)
Definition txn_body_is_different (root1 : svn_fs_root_t) (path1 : bytes) (root2 : svn_fs_root_t) (path2 : bytes) :
    trail bool :=
  node1 ← get_dag root1 path1;
  node2 ← get_dag root2 path2;
  if negb (bool_decide (node_kind node1 = node_kind node2)) then mret true
  else
    '(props_differ, contents_differ, _) ← svn_fs__things_different true true false false node1 node2;
    props_differ ← lift (deref props_differ);
    contents_differ ← lift (deref contents_differ);
    mret (props_differ || contents_differ).

(** The roots belong to the same filesystem, here and below. *)
Definition svn_fs_is_different (root1 : svn_fs_root_t) (path1 : bytes) (root2 : svn_fs_root_t) (path2 : bytes) :
    trail bool :=
  run_trail (txn_body_is_different root1 path1 root2 path2).

Definition txn_body_node_prop (root : svn_fs_root_t) (path propname : bytes) : trail (option bytes) :=
  node ← get_dag root path;
  '(proplist, _) ← svn_fs__dag_get_proplist fuel node;
  lift (svn_fs__get_prop proplist propname).

Definition svn_fs_node_prop (root : svn_fs_root_t) (path propname : bytes) : trail (option bytes) :=
  run_trail (txn_body_node_prop root path propname).

Definition txn_body_node_proplist (root : svn_fs_root_t) (path : bytes) : trail (gmap bytes bytes) :=
  parent_path ← open_path root path false;
  node ← lift (deref (pp_node parent_path));
  '(proplist, _) ← svn_fs__dag_get_proplist fuel node;
  lift (svn_fs__make_prop_hash proplist).

Definition svn_fs_node_proplist (root : svn_fs_root_t) (path : bytes) : trail (gmap bytes bytes) :=
  run_trail (txn_body_node_proplist root path).

Definition txn_body_change_node_prop (root : svn_fs_root_t) (path name : bytes) (value : option bytes) :
    trail unit :=
  parent_path ← open_path root path false;
  parent_path ← make_path_mutable root parent_path;
  node ← lift (deref (pp_node parent_path));
  '(proplist, node) ← svn_fs__dag_get_proplist fuel node;
  proplist ← lift (svn_fs__set_prop proplist name value);
  svn_fs__dag_set_proplist fuel node proplist;;
  mret tt.

Definition svn_fs_change_node_prop (root : svn_fs_root_t) (path name : bytes) (value : option bytes) :
    trail unit :=
  if negb (svn_fs_is_txn_root root) then fail SVN_ERR_FS_NOT_TXN_ROOT
  else run_trail (txn_body_change_node_prop root path name value).

(** [want_props]: [svn_fs_props_changed]; otherwise [svn_fs_contents_changed]. *)
Definition txn_body_things_changed (want_props : bool) (root1 : svn_fs_root_t) (path1 : bytes)
    (root2 : svn_fs_root_t) (path2 : bytes) : trail bool :=
  parent_path_1 ← open_path root1 path1 false;
  parent_path_2 ← open_path root2 path2 false;
  node1 ← lift (deref (pp_node parent_path_1));
  node2 ← lift (deref (pp_node parent_path_2));
  '(props_changed, contents_changed, _) ←
    svn_fs__things_different want_props (negb want_props) false false node1 node2;
  lift (deref (if want_props then props_changed else contents_changed)).

Definition svn_fs_props_changed (root1 : svn_fs_root_t) (path1 : bytes) (root2 : svn_fs_root_t) (path2 : bytes) :
    trail bool :=
  run_trail (txn_body_things_changed true root1 path1 root2 path2).

Definition svn_fs_contents_changed (root1 : svn_fs_root_t) (path1 : bytes) (root2 : svn_fs_root_t) (path2 : bytes) :
    trail bool :=
  is_file ← svn_fs_is_file root1 path1;
  if negb is_file then fail SVN_ERR_FS_GENERAL
  else
    is_file ← svn_fs_is_file root2 path2;
    if negb is_file then fail SVN_ERR_FS_GENERAL
    else run_trail (txn_body_things_changed false root1 path1 root2 path2).

(** ** Directories *)

Definition txn_body_dir_entries (root : svn_fs_root_t) (path : bytes) : trail (gmap bytes (option (list Z))) :=
  parent_path ← open_path root path false;
  node ← lift (deref (pp_node parent_path));
  '(table, _) ← svn_fs__dag_dir_entries_hash fuel node;
  mret table.

Definition svn_fs_dir_entries (root : svn_fs_root_t) (path : bytes) : trail (gmap bytes (option (list Z))) :=
  run_trail (txn_body_dir_entries root path).

Definition txn_body_make_dir (root : svn_fs_root_t) (path : bytes) : trail unit :=
  parent_path ← open_path root path true;
  match pp_node parent_path with
  | Some _ => lift (already_exists root)
  | None =>
      '(parent, name) ← mutable_parent root parent_path;
      svn_fs__dag_make_dir fuel parent name;;
      mret tt
  end.

Definition svn_fs_make_dir (root : svn_fs_root_t) (path : bytes) : trail unit :=
  if negb (svn_fs_is_txn_root root) then fail SVN_ERR_FS_NOT_TXN_ROOT
  else run_trail (txn_body_make_dir root path).

Definition txn_body_delete (root : svn_fs_root_t) (path : bytes) (delete_tree : bool) : trail unit :=
  parent_path ← open_path root path false;
  if negb (svn_fs_is_txn_root root) then fail SVN_ERR_FS_NOT_TXN_ROOT
  else
    match pp_parent parent_path with
    | None => fail SVN_ERR_FS_ROOT_DIR
    | Some _ =>
        '(parent, name) ← mutable_parent root parent_path;
        (if delete_tree then svn_fs__dag_delete_tree fuel parent name else svn_fs__dag_delete fuel parent name);;
        mret tt
    end.

Definition svn_fs_delete (root : svn_fs_root_t) (path : bytes) : trail unit :=
  run_trail (txn_body_delete root path false).

Definition svn_fs_delete_tree (root : svn_fs_root_t) (path : bytes) : trail unit :=
  run_trail (txn_body_delete root path true).

Definition svn_fs_rename (root : svn_fs_root_t) (from to : bytes) : trail unit := lift Abort.

Definition txn_body_copy (from_root : svn_fs_root_t) (from_path : bytes) (to_root : svn_fs_root_t)
    (to_path : bytes) (preserve_history : bool) : trail unit :=
  if negb (svn_fs_is_revision_root from_root) then fail SVN_ERR_FS_GENERAL
  else
    from_parent_path ← open_path from_root from_path false;
    to_parent_path ← open_path to_root to_path true;
    '(parent, name) ← mutable_parent to_root to_parent_path;
    from_node ← lift (deref (pp_node from_parent_path));
    svn_fs__dag_copy fuel parent name from_node preserve_history
      (svn_fs_revision_root_revision from_root) from_path;;
    mret tt.

Definition svn_fs_copy (from_root : svn_fs_root_t) (from_path : bytes) (to_root : svn_fs_root_t)
    (to_path : bytes) : trail unit :=
  if negb (svn_fs_is_txn_root to_root) then fail SVN_ERR_FS_NOT_TXN_ROOT
  else run_trail (txn_body_copy from_root from_path to_root to_path true).

Definition svn_fs_link (from_root : svn_fs_root_t) (from_path : bytes) (to_root : svn_fs_root_t)
    (to_path : bytes) : trail unit :=
  if negb (svn_fs_is_txn_root to_root) then fail SVN_ERR_FS_NOT_TXN_ROOT
  else run_trail (txn_body_copy from_root from_path to_root to_path false).

(** [None]: not a copy; the caller gets an invalid revision and a null pointer. *)
Definition txn_body_copied_from (root : svn_fs_root_t) (path : bytes) : trail (option (svn_revnum_t * bytes)) :=
  path_down ← open_path root path false;
  node ← lift (deref (pp_node path_down));
  '(from, _) ← svn_fs__dag_copied_from node;
  mret from.

Definition svn_fs_copied_from (root : svn_fs_root_t) (path : bytes) : trail (option (svn_revnum_t * bytes)) :=
  run_trail (txn_body_copied_from root path).

(** ** Files *)

Definition txn_body_make_file (root : svn_fs_root_t) (path : bytes) : trail unit :=
  parent_path ← open_path root path true;
  match pp_node parent_path with
  | Some _ => lift (already_exists root)
  | None =>
      '(parent, name) ← mutable_parent root parent_path;
      svn_fs__dag_make_file fuel parent name;;
      mret tt
  end.

(** Unlike [svn_fs_make_dir], without a check of the root. *)
Definition svn_fs_make_file (root : svn_fs_root_t) (path : bytes) : trail unit :=
  run_trail (txn_body_make_file root path).

Definition txn_body_file_length (root : svn_fs_root_t) (path : bytes) : trail Z :=
  file ← get_dag root path; '(length, _) ← svn_fs__dag_file_length file; mret length.

Definition svn_fs_file_length (root : svn_fs_root_t) (path : bytes) : trail Z :=
  length ← run_trail (txn_body_file_length root path); mret (off_t length).

(** The representation that the stream reads, from its beginning. *)
Definition txn_body_get_file_contents (root : svn_fs_root_t) (path : bytes) : trail (option bytes) :=
  node ← get_dag root path; '(rep, _) ← svn_fs__dag_get_contents node; mret rep.

Definition svn_fs_file_contents (root : svn_fs_root_t) (path : bytes) : trail (option bytes) :=
  run_trail (txn_body_get_file_contents root path).
(** ** Changing the contents of a file *)

(** A node revision that is mutable does not stay in the cache after the trail. *)
Definition leave_trail (node : dag_node_t) : dag_node_t :=
  match node_revision node with
  | Some s => match node_rev_is_mutable s with Ok true => uncache_node_revision node | _ => node end
  | None => node
  end.

(** [struct txdelta_baton_t].  The source stream reads the representation
    [source_rep]; what the interpreter writes to the string stream is appended to
    [target_string], which is the baton of that stream; the target stream writes
    to the representation [target_rep]. *)
Record txdelta_baton_t := mk_tb {
  interpreter_baton : apply_baton nat svn_stringbuf_t;
  tb_node : dag_node_t;
  source_rep : option bytes;
  target_rep : bytes;
}.

Definition write_to_string (target_string : svn_stringbuf_t) (data : bytes) : outcome unit * svn_stringbuf_t :=
  match svn_stringbuf_appendbytes target_string data (length data) with
  | Ok target_string => (Ok tt, target_string)
  | Err e => (Err e, target_string)
  | Abort => (Abort, target_string)
  | Undef => (Undef, target_string)
  end.

Definition txn_body_apply_textdelta (root : svn_fs_root_t) (path : bytes) : trail txdelta_baton_t :=
  parent_path ← open_path root path false;
  parent_path ← make_path_mutable root parent_path;
  node ← lift (deref (pp_node parent_path));
  '(source_rep, node) ← svn_fs__dag_get_contents node;
  '(target_rep, node) ← svn_fs__dag_get_edit_stream fuel node;
  target_string ← lift (svn_stringbuf_create []);
  fs ← reading (λ fs, fs);
  let source_stream := svn_fs__rep_contents_read_stream fuel fs source_rep 0 in
  let string_stream := svn_stream_set_write (svn_stream_create target_string) write_to_string in
  mret (mk_tb (svn_txdelta_apply source_stream string_stream) node source_rep target_rep).

Definition svn_fs_apply_textdelta (root : svn_fs_root_t) (path : bytes) : trail txdelta_baton_t :=
  tb ← run_trail (txn_body_apply_textdelta root path);
  mret (mk_tb (interpreter_baton tb) (leave_trail (tb_node tb)) (source_rep tb) (target_rep tb)).

(** The consumer runs on the filesystem and on its baton. *)
Abbreviation consumer := (state_m (txdelta_baton_t * svn_fs_t)).

Definition in_trail {A} (m : trail A) : consumer A := λ '(tb, fs),
  let '(r, fs) := m fs in (r, (tb, fs)).

Definition set_interpreter (ab : apply_baton nat svn_stringbuf_t) (tb : txdelta_baton_t) : txdelta_baton_t :=
  mk_tb ab (tb_node tb) (source_rep tb) (target_rep tb).

(** The source stream reads the filesystem as it is at the time of the call. *)
Definition interpreter (window : option svn_txdelta_window_t) : consumer unit := λ '(tb, fs),
  let ab := interpreter_baton tb in
  let source := mk_stream (baton (ab_source ab)) (fns (svn_fs__rep_contents_read_stream fuel fs (source_rep tb) 0)) in
  let '(r, ab) := apply_window window
    (mk_ab source (ab_target ab) (sbuf ab) (sbuf_size ab) (sbuf_offset ab) (tbuf_size ab)) in
  (r, (set_interpreter ab tb, fs)).

Definition target_string : consumer svn_stringbuf_t := λ '(tb, fs),
  (Ok (baton (ab_target (interpreter_baton tb))), (tb, fs)).

Definition set_target_string (str : svn_stringbuf_t) : consumer unit := λ '(tb, fs),
  let ab := interpreter_baton tb in
  (Ok tt, (set_interpreter (mk_ab (ab_source ab) (mk_stream str (fns (ab_target ab))) (sbuf ab) (sbuf_size ab)
                              (sbuf_offset ab) (tbuf_size ab)) tb, fs)).

(** [svn_stream_write] to the target stream, in a trail of its own, the error being
    ignored. *)
Definition flush_ignored (rep_key data : bytes) : trail unit := λ fs,
  match run_trail (txn_body_write_rep rep_key data) fs with
  | (Err _, fs) => (Ok tt, fs)
  | (r, fs) => (r, fs)
  end.

Definition txn_body_finalize_edits : consumer unit := λ '(tb, fs),
  match run_trail (svn_fs__dag_finalize_edits (tb_node tb)) fs with
  | (Ok node, fs) => (Ok tt, (mk_tb (interpreter_baton tb) (leave_trail node) (source_rep tb) (target_rep tb), fs))
  | (Err e, fs) => (Err e, (tb, fs))
  | (Abort, fs) => (Abort, (tb, fs))
  | (Undef, fs) => (Undef, (tb, fs))
  end.

Definition flush : consumer unit :=
  str ← target_string;
  data ← lift (blk_bytes (sb_data str) 0 (sb_len str));
  target_rep ← (λ '(tb, fs), (Ok (target_rep tb), (tb, fs)));
  in_trail (flush_ignored target_rep data);;
  str ← lift (svn_stringbuf_set str []);
  set_target_string str.

Definition window_consumer : svn_txdelta_window_handler_t (txdelta_baton_t * svn_fs_t) := λ window,
  interpreter window;;
  str ← target_string;
  (if negb (bool_decide (is_Some window)) || (SVN_FS_WRITE_BUFFER_SIZE <? Z.of_nat (sb_len str))
   then flush else mret tt);;
  match window with
  | None => txn_body_finalize_edits
  | Some _ => mret tt
  end.

(** ** File deltas *)

(** The stream of an empty source has a baton of another type. *)
Definition svn_fs_get_file_delta_stream (source : option (svn_fs_root_t * bytes))
    (target_root : svn_fs_root_t) (target_path : bytes) :
    trail (svn_txdelta_stream_t (ctx := ctx) (dig := bytes) (S := nat) (T := nat) +
           svn_txdelta_stream_t (ctx := ctx) (dig := bytes) (S := unit) (T := nat)) :=
  source ← match source with
           | Some (source_root, source_path) =>
               rep ← svn_fs_file_contents source_root source_path; mret (Some rep)
           | None => mret None
           end;
  target ← svn_fs_file_contents target_root target_path;
  fs ← reading (λ fs, fs);
  let target := svn_fs__rep_contents_read_stream fuel fs target 0 in
  mret match source with
       | Some rep => inl (svn_txdelta (svn_fs__rep_contents_read_stream fuel fs rep 0) target)
       | None => inr (svn_txdelta svn_stream_empty target)
       end.

(** ** The revisions in which paths were changed *)

(** The array is changed in place, and read up to its first -1. *)
Definition step_back (tmp_id : list Z) (len : nat) : outcome (list Z) :=
  if (len =? 0)%nat then Undef
  else
    last ← rd tmp_id (len - 1);
    tmp_id ← wr tmp_id (len - 1) (last - 1);
    if last - 1 =? 0 then
      if (len =? 1)%nat then Undef else wr tmp_id (len - 2) (-1)
    else Ok tmp_id.

(** The [do] loop on an id; [n] bounds the number of its predecessors. *)
Fixpoint id_revisions (n : nat) (tmp_id : list Z) : trail (list svn_revnum_t) :=
  match n with
  | O => lift Undef
  | S n =>
      len ← lift (svn_fs__id_length tmp_id);
      node ← svn_fs__dag_get_node (Some tmp_id);
      '(revision, _) ← svn_fs__dag_get_revision node;
      tmp_id ← lift (step_back tmp_id len);
      first ← lift (rd tmp_id 0);
      if negb (first =? -1) then revs ← id_revisions n tmp_id; mret (revision :: revs)
      else mret [revision]
  end.

Fixpoint ids_revisions (ids : list (list Z)) : trail (list svn_revnum_t) :=
  match ids with
  | [] => mret []
  | tmp_id :: ids => array ← id_revisions fuel tmp_id; rest ← ids_revisions ids; mret (array ++ rest)
  end.

Fixpoint remove_duplicates (array : list svn_revnum_t) (prev_rev : svn_revnum_t) : list svn_revnum_t :=
  match array with
  | [] => []
  | rev :: array =>
      if rev =? prev_rev then remove_duplicates array rev else rev :: remove_duplicates array rev
  end.

Definition txn_body_revisions_changed (ids : list (list Z)) : trail (list svn_revnum_t) :=
  array ← ids_revisions ids;
  array ← lift (qsort svn_sort_compare_revisions array);
  mret (remove_duplicates array SVN_INVALID_REVNUM).

Fixpoint node_ids (root : svn_fs_root_t) (paths : list bytes) : trail (list (list Z)) :=
  match paths with
  | [] => mret []
  | this_path :: paths =>
      tmp_id ← svn_fs_node_id root this_path;
      tmp_id ← lift (svn_fs__id_copy tmp_id);
      ids ← node_ids root paths;
      mret (tmp_id :: ids)
  end.

Definition svn_fs_revisions_changed (root : svn_fs_root_t) (paths : list bytes) : trail (list svn_revnum_t) :=
  ids ← node_ids root paths; run_trail (txn_body_revisions_changed ids).

(** ** Opening roots *)

Definition txn_body_txn_root (txn : svn_fs_txn_t) : trail svn_fs_root_t :=
  svn_fs__get_txn_ids (txn_id txn);; mret (make_txn_root (txn_id txn)).

Definition svn_fs_txn_root (txn : svn_fs_txn_t) : trail svn_fs_root_t := run_trail (txn_body_txn_root txn).

Definition txn_body_revision_root (rev : svn_revnum_t) : trail svn_fs_root_t :=
  root_dir ← svn_fs__dag_revision_root rev; mret (make_revision_root rev root_dir).

Definition svn_fs_revision_root (rev : svn_revnum_t) : trail svn_fs_root_t :=
  run_trail (txn_body_revision_root rev).

Definition svn_fs_id_root : svn_fs_root_t :=
  mk_root id_root (txn_name make_root) (rev make_root) (root_dir make_root).

Definition ignoring_errors (m : trail bool) : trail bool := λ fs,
  match m fs with
  | (Err _, fs) => (Ok false, fs)
  | (r, fs) => (r, fs)
  end.

Definition svn_fs_txn_path_is_id (txn_root : svn_fs_root_t) (path : bytes) (id : list Z) : trail bool :=
  res_id ← svn_fs_node_id txn_root path;
  same ← lift (svn_fs__id_eq res_id id);
  if (same : bool) then mret true
  else
    parent ← lift (svn_fs__id_is_parent id res_id);
    if (parent : bool) then ignoring_errors (svn_fs_is_dir txn_root path) else mret false.
End tree.
