(* ===== verification/Merge.v ===== *)
(** * Merging and committing ([libsvn_fs/tree.c])

    The three-way merge of directories, the merge of a revision into a
    transaction, and the loop of [svn_fs_commit_txn] with what other processes
    commit between its trails. *)

From S2P Require Import Prelude Types KeyGen Libc Skel Proplist Id Stream Db NodeKeys Fs RevTable TxnTable NodesTable Strings.
From S2P Require Import TextDelta Vdelta Svndiff TxStream Reps RepOps SvnString Path Sorts Dag Deltify Commit Tree.

(** A [svn_fs_dirent_t]: the id of an entry, which may not have parsed. *)
Abbreviation dirent := (option (list Z)).

(** Tests on the ids of two entries. *)
Definition on_ids {A} (f : list Z -> list Z -> outcome A) (a b : dirent) : outcome A :=
  a ← deref a; b ← deref b; f a b.

Definition c_or (t1 t2 : outcome bool) : outcome bool :=
  b ← t1; if (b : bool) then Ok true else t2.

Definition same_ids : dirent -> dirent -> outcome bool := on_ids svn_fs__id_eq.
Definition is_ancestor : dirent -> dirent -> outcome bool := on_ids svn_fs__id_is_ancestor.

(** Target takes source: the target entry has not changed, or source descends from
    it. *)
Definition takes_source (a s t : dirent) : outcome bool :=
  c_or (same_ids a t) (c_and (is_ancestor a t) (is_ancestor t s)).

(** The target is re-identified as a successor of source. *)
Definition re_id (a s t : list Z) : outcome bool :=
  c_and (d ← svn_fs_id_distance a t; Ok (d =? 1)) (d ← svn_fs_id_distance a s; Ok (1 <=? d)).

Section merge.
Context `{db : BerkeleyDB} {ctx : Type} `{m : Md5 ctx bytes}.
Context (fuel : nat) (digest_memory : bytes).

(** The order in which [apr_hash_next] gives the entries of a table. *)
Context (hash_order : gmap bytes dirent -> list (bytes * dirent)).

(** ** The three-way merge *)

(** An unexpected immutable target, else the target. *)
Definition need_mutable (target : dag_node_t) : trail dag_node_t :=
  '(is_mutable, target) ← svn_fs__dag_check_mutable target;
  if negb is_mutable then fail SVN_ERR_FS_NOT_MUTABLE else mret target.

(** The node at [old_id] gets the next successor id of [source_id]. *)
Definition move_to_successor (source_id old_id : list Z) (update : list Z -> trail dag_node_t) : trail dag_node_t :=
  successor ← svn_fs__new_successor_id source_id;
  node_rev ← svn_fs__get_node_revision old_id;
  svn_fs__put_node_revision successor node_rev;;
  parent ← update successor;
  svn_fs__delete_nodes_entry old_id;;
  mret parent.

(** The entry [name] is in all three directories; [merge_dirs] is the recursive
    call. *)
Definition merge_common (merge_dirs : bytes -> dag_node_t -> dag_node_t -> dag_node_t -> trail unit)
    (target_path : bytes) (target : dag_node_t) (name : bytes) (a s t : dirent) : trail dag_node_t :=
  unchanged ← lift (same_ids a s);
  if (unchanged : bool) then mret target
  else
    take ← lift (takes_source a s t);
    if (take : bool) then
      target ← need_mutable target;
      s_id ← lift (deref s);
      svn_fs__dag_set_entry fuel target name s_id
    else
      descends ← lift (is_ancestor s t);
      if (descends : bool) then mret target
      else
        s_ent_node ← svn_fs__dag_get_node s;
        t_ent_node ← svn_fs__dag_get_node t;
        a_ent_node ← svn_fs__dag_get_node a;
        if negb (svn_fs__dag_is_directory s_ent_node) || negb (svn_fs__dag_is_directory t_ent_node)
           || negb (svn_fs__dag_is_directory a_ent_node)
        then fail (SVN_ERR_FS_CONFLICT (path_append target_path name))
        else
          merge_dirs (path_append target_path name) t_ent_node s_ent_node a_ent_node;;
          a_id ← lift (deref a);
          s_id ← lift (deref s);
          t_id ← lift (deref t);
          re ← lift (re_id a_id s_id t_id);
          if (re : bool) then move_to_successor s_id t_id (svn_fs__dag_set_entry fuel target name)
          else mret target.

(** The loop over the entries of the ancestor. *)
Fixpoint merge_ancestor (merge_dirs : bytes -> dag_node_t -> dag_node_t -> dag_node_t -> trail unit)
    (target_path : bytes) (a_entries : list (bytes * dirent))
    (target : dag_node_t) (s_entries t_entries : gmap bytes dirent) :
    trail (dag_node_t * gmap bytes dirent * gmap bytes dirent) :=
  match a_entries with
  | [] => mret (target, s_entries, t_entries)
  | (key, a) :: a_entries =>
      let name := apr_pstrndup key in
      '(target, t_entries) ←
        match s_entries !! key, t_entries !! key with
        | Some s, Some t =>
            target ← merge_common merge_dirs target_path target name a s t; mret (target, t_entries)
        | Some s, None =>
            unchanged ← lift (same_ids a s);
            if negb unchanged then fail (SVN_ERR_FS_CONFLICT (path_append target_path name))
            else mret (target, t_entries)
        | None, Some t =>
            unchanged ← lift (same_ids t a);
            if (unchanged : bool) then
              target ← need_mutable target;
              target ← svn_fs__dag_delete_tree fuel target name;
              mret (target, delete key t_entries)
            else
              d ← lift (on_ids svn_fs_id_distance t a);
              if negb (d =? -1) then fail (SVN_ERR_FS_CONFLICT (path_append target_path name))
              else mret (target, t_entries)
        | None, None => mret (target, t_entries)
        end;
      merge_ancestor merge_dirs target_path a_entries target (delete key s_entries) t_entries
  end.

(** The loop over the entries of the source that are not in the ancestor. *)
Fixpoint merge_source (target_path : bytes) (s_entries : list (bytes * dirent))
    (target : dag_node_t) (t_entries : gmap bytes dirent) : trail dag_node_t :=
  match s_entries with
  | [] => mret target
  | (key, s) :: s_entries =>
      let name := apr_pstrndup key in
      target ←
        match t_entries !! key with
        | None =>
            target ← need_mutable target;
            s_id ← lift (deref s);
            svn_fs__dag_set_entry fuel target name s_id
        | Some t =>
            twin ← lift (is_ancestor s t);
            if negb twin then fail (SVN_ERR_FS_CONFLICT (path_append target_path name)) else mret target
        end;
      merge_source target_path s_entries target t_entries
  end.

(** [n] bounds the depth of the directories.  All nodes belong to one filesystem. *)
Fixpoint merge (n : nat) (target_path : bytes) (target source ancestor : dag_node_t) : trail unit :=
  match n with
  | O => lift Undef
  | S n =>
      let source_id := node_id source in
      let target_id := node_id target in
      let ancestor_id := node_id ancestor in
      bad ← lift (svn_fs__id_eq ancestor_id target_id);
      if (bad : bool) then _id_str ← lift (svn_fs_unparse_id target_id); fail SVN_ERR_FS_GENERAL
      else
        nothing ← lift (c_or (svn_fs__id_eq ancestor_id source_id) (svn_fs__id_eq source_id target_id));
        if (nothing : bool) then mret tt
        else if negb (svn_fs__dag_is_directory source) || negb (svn_fs__dag_is_directory target)
                || negb (svn_fs__dag_is_directory ancestor)
        then fail (SVN_ERR_FS_CONFLICT target_path)
        else
          tgt_skel ← svn_fs__get_node_revision target_id;
          anc_skel ← svn_fs__get_node_revision ancestor_id;
          same_props ← lift (p1 ← NR_PROP_KEY tgt_skel; p2 ← NR_PROP_KEY anc_skel;
                             svn_fs__skels_are_equal false p1 p2);
          if negb same_props then fail (SVN_ERR_FS_CONFLICT target_path)
          else
            '(s_entries, source) ← svn_fs__dag_dir_entries_hash fuel source;
            '(t_entries, target) ← svn_fs__dag_dir_entries_hash fuel target;
            '(a_entries, ancestor) ← svn_fs__dag_dir_entries_hash fuel ancestor;
            '(target, s_entries, t_entries) ←
              merge_ancestor (merge n) target_path (hash_order a_entries) target s_entries t_entries;
            merge_source target_path (hash_order s_entries) target t_entries;;
            mret tt
  end.

(** ** Merging into a transaction *)

(** [None]: the base of the transaction is the ancestor. *)
Definition txn_body_merge (ancestor_node : option dag_node_t) (source_node : dag_node_t) (txn : svn_fs_txn_t) :
    trail unit :=
  let txn_name := txn_id txn in
  let source_id := node_id source_node in
  txn_root_node ← svn_fs__dag_txn_root txn_name;
  ancestor_node ← match ancestor_node with
                  | Some ancestor_node => mret ancestor_node
                  | None => svn_fs__dag_txn_base_root txn_name
                  end;
  let ancestor_id := node_id ancestor_node in
  let target_id := node_id txn_root_node in
  same ← lift (svn_fs__id_eq ancestor_id target_id);
  if (same : bool) then
    svn_fs__set_txn_base txn_name source_id;;
    svn_fs__set_txn_root txn_name source_id
  else
    merge fuel [] txn_root_node source_node ancestor_node;;
    re ← lift (re_id ancestor_id source_id target_id);
    (if (re : bool) then
       move_to_successor source_id target_id
         (λ successor, svn_fs__set_txn_root txn_name successor;; mret txn_root_node);;
       mret tt
     else mret tt);;
    svn_fs__set_txn_base txn_name source_id.

(** The nodes come from trails of their own; the paths are not used. *)
Definition svn_fs_merge (source_root : svn_fs_root_t) (source_path : bytes) (target_root : svn_fs_root_t)
    (target_path : bytes) (ancestor_root : svn_fs_root_t) (ancestor_path : bytes) : trail unit :=
  if negb (svn_fs_is_txn_root target_root) then fail SVN_ERR_FS_NOT_TXN_ROOT
  else
    ancestor ← run_trail (get_dag fuel ancestor_root []);
    source ← run_trail (get_dag fuel source_root []);
    txn_name ← lift (deref (svn_fs_txn_root_name target_root));
    txn ← svn_fs_open_txn txn_name;
    run_trail (txn_body_merge (Some (leave_trail ancestor)) (leave_trail source) txn).

(** ** Committing *)

Definition txn_body_commit (date : bytes) (txn : svn_fs_txn_t) : trail svn_revnum_t :=
  let txn_name := txn_id txn in
  youngest_rev ← svn_fs__youngest_rev;
  y_rev_root_id ← svn_fs__rev_get_root youngest_rev;
  txn_base_root_node ← svn_fs__dag_txn_base_root txn_name;
  same ← lift (svn_fs__id_eq y_rev_root_id (node_id txn_base_root_node));
  if negb same then _id_str ← lift (svn_fs_unparse_id y_rev_root_id); fail SVN_ERR_TXN_OUT_OF_DATE
  else svn_fs__dag_commit_txn fuel digest_memory date txn_name.

(** What the other processes commit before the trail number [k], and the date of
    the commit in the attempt number [i]. *)
Context (others : nat -> svn_fs_t -> svn_fs_t) (date : nat -> bytes).

Definition between (k : nat) : trail unit := λ fs, (Ok tt, others k fs).

(** [None]: out of date, and another revision was committed meanwhile. *)
Definition after_commit (k : nat) (youngish_rev : svn_revnum_t) (r : outcome svn_revnum_t) :
    trail (option svn_revnum_t) :=
  match r with
  | Err SVN_ERR_TXN_OUT_OF_DATE =>
      between k;;
      youngest_rev ← run_trail svn_fs__youngest_rev;
      if youngest_rev =? youngish_rev then fail SVN_ERR_TXN_OUT_OF_DATE else mret None
  | Ok new_rev => mret (Some new_rev)
  | Err e => fail e
  | Abort => lift Abort
  | Undef => lift Undef
  end.

Definition try_commit (k i : nat) (youngish_rev : svn_revnum_t) (txn : svn_fs_txn_t) :
    trail (option svn_revnum_t) := λ fs,
  let '(r, fs) := run_trail (txn_body_commit (date i) txn) fs in after_commit k youngish_rev r fs.

(** A turn of the loop, in six trails at most. *)
Definition commit_attempt (i : nat) (txn : svn_fs_txn_t) : trail (option svn_revnum_t) :=
  let k := (6 * i)%nat in
  between k;;
  youngish_rev ← run_trail svn_fs__youngest_rev;
  between (k + 1);;
  youngish_root ← svn_fs_revision_root youngish_rev;
  between (k + 2);;
  youngish_root_node ← run_trail (get_dag fuel youngish_root []);
  between (k + 3);;
  run_trail (txn_body_merge None (leave_trail youngish_root_node) txn);;
  between (k + 4);;
  try_commit (k + 5) i youngish_rev txn.

(** The [while] loop, at the attempt [i]; [None]: still running. *)
Fixpoint svn_fs_commit_txn (turns i : nat) (txn : svn_fs_txn_t) (fs : svn_fs_t) :
    option (outcome svn_revnum_t * svn_fs_t) :=
  match turns with
  | O => None
  | S turns =>
      match commit_attempt i txn fs with
      | (Ok (Some new_rev), fs) => Some (Ok new_rev, fs)
      | (Ok None, fs) => svn_fs_commit_txn turns (S i) txn fs
      | (Err e, fs) => Some (Err e, fs)
      | (Abort, fs) => Some (Abort, fs)
      | (Undef, fs) => Some (Undef, fs)
      end
  end.
End merge.
