(* ===== verification/Frame.v ===== *)
(** * What the operations leave alone

    For a view [f] of a filesystem, [keeps f m]: the computation [m] does not
    change it, whatever its outcome.  Reading keeps the whole filesystem; the
    operations on representations change the tables of strings and
    representations only, those on nodes also the table of nodes.  A table that
    the operations do not write is kept: see [commit_appends] and [commit_loop_ends] of [History]. *)

From S2P Require Import Prelude KeyGen Libc Skel Proplist Id Stream Db NodeKeys Fs RevTable TxnTable NodesTable Strings.
From S2P Require Import TextDelta Vdelta Svndiff TxStream Reps RepOps SvnString Path Sorts Dag Deltify Commit Tree Merge.

Section keeps.
Context `{db : BerkeleyDB} {V : Type}.

Definition keeps {A} (f : svn_fs_t -> V) (m : trail A) : Prop := forall fs, f (m fs).2 = f fs.

Context (f : svn_fs_t -> V).

Lemma keeps_ret {A} (a : A) : keeps f (mret a).
Proof. done. Qed.

Lemma keeps_lift {A} (o : outcome A) : keeps f (lift o).
Proof. done. Qed.

Lemma keeps_fail {A} e : keeps f (fail (A := A) e).
Proof. done. Qed.

Lemma keeps_reading {A} (g : svn_fs_t -> A) : keeps f (reading g).
Proof. done. Qed.

Lemma keeps_bind {A B} (m : trail A) (k : A -> trail B) :
  keeps f m -> (forall a, keeps f (k a)) -> keeps f (m ≫= k).
Proof.
  intros Hm Hk fs. unfold mbind, state_bind. specialize (Hm fs). destruct (m fs) as [[a|e| |] fs']; try done.
  cbn [snd] in Hm. by rewrite (Hk a fs').
Qed.

Lemma keeps_run_trail {A} (m : trail A) : keeps f m -> keeps f (run_trail m).
Proof. intros Hm fs. unfold run_trail. specialize (Hm fs). by destruct (m fs) as [[a|e| |] fs']. Qed.
End keeps.

Create HintDb keeps.
#[export] Hint Resolve keeps_ret keeps_lift keeps_fail keeps_reading : keeps.

(** The structure of a computation, down to the calls that the hints know. *)
Ltac keeps_step :=
  match goal with
  | |- keeps _ (_ ≫= _) => apply keeps_bind; [|intros]
  | |- keeps _ (run_trail _) => apply keeps_run_trail
  | |- keeps _ (if ?b then _ else _) => destruct b
  | |- keeps _ (match ?x with _ => _ end) => destruct x
  | |- keeps _ (let _ := _ in _) => cbv zeta
  | |- _ => solve [eauto with keeps]
  end.
Ltac keeps := intros; repeat keeps_step.
Tactic Notation "keeps_def" reference(t) := intros; unfold t; keeps.

(** ** Reading *)

Section reading.
Context `{db : BerkeleyDB}.

(** Reads keep everything, and so any view. *)
Definition reads {A} (m : trail A) : Prop := keeps (λ fs, fs) m.

Lemma reads_keeps {A V} (f : svn_fs_t -> V) (m : trail A) : reads m -> keeps f m.
Proof. intros Hm fs. f_equal. apply Hm. Qed.

Lemma svn_fs__string_read_reads key offset len : reads (svn_fs__string_read key offset len).
Proof.
  unfold svn_fs__string_read. generalize (S len) (@nil byte). intros fuel. unfold reads.
  induction fuel as [|fuel IH]; intros b; cbn [string_read_loop]; unfold string_read, locate_key; keeps.
Qed.

Lemma svn_fs__string_size_reads key : reads (svn_fs__string_size key).
Proof. unfold reads. keeps_def svn_fs__string_size. unfold locate_key. keeps. Qed.

(** A decoder changes the baton of its consumer only through the consumer. *)
Lemma write_loop_consumer {C} (P : C -> Prop) fuel (d : decode_baton C) :
  (forall w c, P c -> P (consumer_func d w c).2) -> P (consumer_baton d) ->
  P (consumer_baton (write_loop fuel d).2) /\ consumer_func (write_loop fuel d).2 = consumer_func d.
Proof.
  revert d. induction fuel as [|fuel IH]; intros d Hf Hd; cbn [write_loop]; [done|].
  destruct (parse_window _ _ _) as [|e| |w rest]; try done.
  pose proof (Hf (Some w) _ Hd) as Hc. destruct (consumer_func d (Some w) (consumer_baton d)) as [r c].
  destruct r as [[]| | |]; try done.
  exact (IH (mk_db (consumer_func d) c rest _ _ _ _) Hf Hc).
Qed.

Lemma write_handler_consumer {C} (P : C -> Prop) (d : decode_baton C) data :
  (forall w c, P c -> P (consumer_func d w c).2) -> P (consumer_baton d) ->
  P (consumer_baton (write_handler d data).2) /\ consumer_func (write_handler d data).2 = consumer_func d.
Proof.
  intros Hf Hd. unfold write_handler. destruct (bool_decide _); [|done].
  exact (write_loop_consumer P _ (mk_db (consumer_func d) (consumer_baton d) _ _ _ _ _) Hf Hd).
Qed.

Lemma close_handler_consumer {C} (P : C -> Prop) (d : decode_baton C) :
  (forall w c, P c -> P (consumer_func d w c).2) -> P (consumer_baton d) ->
  P (consumer_baton (close_handler d).2).
Proof.
  intros Hf Hd. unfold close_handler. destruct (_ && _); [done|].
  pose proof (Hf None _ Hd) as Hc. by destruct (consumer_func d None (consumer_baton d)).
Qed.

Lemma handle_ops_reads rs w discard room l sbuf tbuf n : reads rs ->
  reads (handle_ops rs w discard room l sbuf tbuf n).
Proof.
  unfold reads. intros Hr. revert sbuf tbuf n.
  induction l as [|op l IH]; intros sbuf tbuf n; cbn [handle_ops]; unfold source_view; keeps.
Qed.

Abbreviation wstream_t := (svn_stream_t (decode_baton window_handler_baton_t)).
Abbreviation wstream_m := (state_m wstream_t).

(** The stream of windows: the handler, and the filesystem it reads. *)
Definition wstream_ok (h : svn_txdelta_window_handler_t window_handler_baton_t) (fs : svn_fs_t) (s : wstream_t) :
    Prop :=
  consumer_func (baton s) = h /\ wb_fs (wb_of s) = fs /\ fns s = mk_fns None (Some write_handler) (Some close_handler).

Definition wkeeps (h : svn_txdelta_window_handler_t window_handler_baton_t) {A} (m : wstream_m A) : Prop :=
  forall fs s, wstream_ok h fs s -> wstream_ok h fs (m s).2.

Context (h : svn_txdelta_window_handler_t window_handler_baton_t).
Context (Hh : forall w c, wb_fs (h w c).2 = wb_fs c).

Lemma wkeeps_ret {A} (a : A) : wkeeps h (mret a).
Proof. intros fs s Hs. exact Hs. Qed.

Lemma wkeeps_lift {A} (o : outcome A) : wkeeps h (lift o).
Proof. intros fs s Hs. exact Hs. Qed.

Lemma wkeeps_get {A} (f : window_handler_baton_t -> A) : wkeeps h (wb_get f).
Proof. intros fs s Hs. exact Hs. Qed.

Lemma wkeeps_bind {A B} (m : wstream_m A) (k : A -> wstream_m B) :
  wkeeps h m -> (forall a, wkeeps h (k a)) -> wkeeps h (m ≫= k).
Proof.
  intros Hm Hk fs s Hs. unfold mbind, state_bind. specialize (Hm fs s Hs).
  destruct (m s) as [[a|e| |] s']; try done. by apply Hk.
Qed.

Lemma wkeeps_in_fs {A} (m : trail A) : reads m -> wkeeps h (in_fs m).
Proof.
  intros Hm fs s (Hc & Hf & Hs). unfold in_fs. specialize (Hm (wb_fs (wb_of s))).
  destruct (m _) as [r fs']. cbn in Hm. subst fs'. unfold wstream_ok, set_wb, wb_of in *. by cbn.
Qed.

Lemma wkeeps_wb_update f : (forall wb, wb_fs (f wb) = wb_fs wb) -> wkeeps h (wb_update f).
Proof. intros Hf fs s (Hc & He & Hs). unfold wstream_ok, wb_update, set_wb, wb_of in *. cbn. by rewrite Hf. Qed.

Lemma wkeeps_write_chunk data : wkeeps h (write_chunk data).
Proof.
  intros fs [d fn] (Hc & Hf & Hs). cbn in *. subst fn. unfold write_chunk, svn_stream_write. cbn [baton fns write_fn].
  destruct (write_handler_consumer (λ c, wb_fs c = fs) d data) as [H1 H2]; [|done|].
  - intros w c E. by rewrite Hc, Hh.
  - destruct (write_handler d data) as [r d']. unfold wstream_ok. cbn in *. by rewrite H2.
Qed.

Ltac wkeeps := repeat first
  [ apply wkeeps_ret | apply wkeeps_lift | apply wkeeps_get | apply wkeeps_write_chunk
  | apply wkeeps_bind; [|intros] | match goal with |- wkeeps _ (if ?b then _ else _) => destruct b end ].

Lemma wkeeps_read_window fuel key off : wkeeps h (read_window fuel key off).
Proof.
  revert off. induction fuel as [|fuel IH]; intros off; cbn [read_window]; wkeeps; [|apply IH].
  apply wkeeps_in_fs, svn_fs__string_read_reads.
Qed.

Lemma wkeeps_window_loop fuel req_off len ws : wkeeps h (window_loop fuel req_off len ws).
Proof.
  induction ws as [|w ws IH]; cbn [window_loop]; unfold window_step; cbv zeta; wkeeps; [| |apply IH].
  - by apply wkeeps_wb_update.
  - apply wkeeps_read_window.
Qed.
End reading.

Section rep_reading.
Context `{db : BerkeleyDB}.

Lemma rep_window_handler_reads rr w c : (forall k off len, reads (rr k off len)) ->
  wb_fs (rep_window_handler rr w c).2 = wb_fs c.
Proof.
  intros Hr. unfold rep_window_handler. destruct w as [w|]; [|done]. destruct (wb_done c); [done|].
  match goal with |- context [let '(_, _) := ?m (wb_fs c) in _] => set (step := m) end.
  assert (reads step) as Hs.
  { unfold step, reads. apply keeps_bind; [by apply handle_ops_reads|]. intros [t n]. keeps. }
  specialize (Hs (wb_fs c)). by destruct (step (wb_fs c)) as [[d|e| |] fs'].
Qed.

Lemma rep_read_range_reads fuel key off len : reads (rep_read_range fuel key off len).
Proof.
  revert key off len. induction fuel as [|fuel IH]; intros key off len; [done|].
  cbn [rep_read_range]. unfold svn_fs__read_rep, reads.
  assert (forall k o l, keeps (λ fs, fs) (svn_fs__string_read k o l)) as Hs by apply svn_fs__string_read_reads.
  keeps. intros fs. set (h := rep_window_handler (rep_read_range fuel)).
  assert (forall w c, wb_fs (h w c).2 = wb_fs c) as Hh by (intros; by apply rep_window_handler_reads).
  match goal with |- context [let '(_, _) := ?m ?s in _] => set (run := m); set (start := s) end.
  assert (wkeeps h run) as Hw.
  { unfold run. apply wkeeps_bind; [by apply wkeeps_write_chunk|]. intros _.
    apply wkeeps_bind; [by apply wkeeps_window_loop|]. intros _.
    apply wkeeps_bind; [|intros; apply wkeeps_get].
    intros fs1 [d fn] (Hc & Hf & Hn). cbn in *. subst fn. unfold svn_stream_close. cbn [baton fns close_fn].
    pose proof (close_handler_consumer (λ c, wb_fs c = fs1) d) as Hk.
    unfold wstream_ok. cbn. rewrite Hc in Hk. specialize (Hk ltac:(intros w c E; by rewrite Hh) Hf).
    unfold close_handler in *. destruct (_ && _); [done|]. by destruct (consumer_func d None (consumer_baton d)). }
  destruct (Hw fs start) as (_ & H & _); [done|]. by destruct (run start).
Qed.

Lemma rep_contents_size_reads key : reads (svn_fs__rep_contents_size key).
Proof.
  unfold reads. assert (forall k, keeps (λ fs, fs) (svn_fs__string_size k)) by apply svn_fs__string_size_reads.
  unfold svn_fs__rep_contents_size, read_rep, svn_fs__read_rep. keeps.
Qed.

Lemma rep_contents_reads fuel key : reads (svn_fs__rep_contents fuel key).
Proof.
  unfold reads. pose proof rep_contents_size_reads. pose proof rep_read_range_reads.
  unfold reads, svn_fs__rep_contents in *. keeps.
Qed.

Lemma read_rep_reads key : reads (read_rep key).
Proof. unfold reads, read_rep, svn_fs__read_rep. keeps. Qed.
End rep_reading.

(** ** Writing *)

(** Views that do not depend on the strings and representations; on the nodes; on
    the transactions. *)
Class IgnoresReps `{db : BerkeleyDB} {V} (f : svn_fs_t -> V) : Prop := {
  ignores_strings : forall t fs, f (set_strings t fs) = f fs;
  ignores_reps : forall t fs, f (set_representations t fs) = f fs;
}.
Class IgnoresNodes `{db : BerkeleyDB} {V} (f : svn_fs_t -> V) : Prop := {
  #[global] ignores_nodes_reps :: IgnoresReps f;
  ignores_nodes : forall t fs, f (set_nodes t fs) = f fs;
}.
Class IgnoresTxns `{db : BerkeleyDB} {V} (f : svn_fs_t -> V) : Prop := {
  #[global] ignores_txns_nodes :: IgnoresNodes f;
  ignores_txns : forall t fs, f (set_transactions t fs) = f fs;
}.

#[export] Instance revisions_ignores `{db : BerkeleyDB} : IgnoresTxns revisions.
Proof. by repeat split. Qed.
#[export] Instance tables_ignores_nodes `{db : BerkeleyDB} :
  IgnoresNodes (λ fs, (revisions fs, transactions fs)).
Proof. by repeat split. Qed.

#[export] Hint Extern 0 (IgnoresReps _) => apply _ : keeps.
#[export] Hint Extern 0 (IgnoresNodes _) => apply _ : keeps.
#[export] Hint Extern 2 (keeps _ (writing _)) => intros ?; apply ignores_strings : keeps.
#[export] Hint Extern 2 (keeps _ (writing _)) => intros ?; apply ignores_reps : keeps.
#[export] Hint Extern 2 (keeps _ (writing _)) => intros ?; apply ignores_nodes : keeps.
#[export] Hint Extern 2 (keeps _ (writing _)) => intros ?; apply ignores_txns : keeps.

Section rep_writing.
Context `{db : BerkeleyDB} {V : Type} (f : svn_fs_t -> V) `{!IgnoresReps f}.

Lemma keeps_string_read key offset len : keeps f (svn_fs__string_read key offset len).
Proof. apply reads_keeps, svn_fs__string_read_reads. Qed.
Lemma keeps_string_size key : keeps f (svn_fs__string_size key).
Proof. apply reads_keeps, svn_fs__string_size_reads. Qed.
Lemma keeps_read_range fuel key off len : keeps f (rep_read_range fuel key off len).
Proof. apply reads_keeps, rep_read_range_reads. Qed.
Lemma keeps_contents_size key : keeps f (svn_fs__rep_contents_size key).
Proof. apply reads_keeps, rep_contents_size_reads. Qed.
Lemma keeps_contents fuel key : keeps f (svn_fs__rep_contents fuel key).
Proof. apply reads_keeps, rep_contents_reads. Qed.
Lemma keeps_read_rep key : keeps f (read_rep key).
Proof. apply reads_keeps, read_rep_reads. Qed.
#[local] Hint Resolve keeps_string_read keeps_string_size keeps_read_range keeps_contents_size keeps_contents
  keeps_read_rep : keeps.

Lemma keeps_get_key_and_bump : keeps f get_key_and_bump.
Proof. keeps_def get_key_and_bump. Qed.
#[local] Hint Resolve keeps_get_key_and_bump : keeps.
Lemma keeps_string_append key b : keeps f (svn_fs__string_append key b).
Proof. keeps_def svn_fs__string_append. Qed.
Lemma keeps_string_clear key : keeps f (svn_fs__string_clear key).
Proof. keeps_def svn_fs__string_clear. Qed.
Lemma keeps_string_delete key : keeps f (svn_fs__string_delete key).
Proof. keeps_def svn_fs__string_delete. Qed.
Lemma keeps_string_copy key : keeps f (svn_fs__string_copy key).
Proof. keeps_def svn_fs__string_copy. Qed.
#[local] Hint Resolve keeps_string_append keeps_string_clear keeps_string_delete keeps_string_copy : keeps.

Lemma keeps_write_rep key s : keeps f (svn_fs__write_rep key s).
Proof. keeps_def svn_fs__write_rep. Qed.
#[local] Hint Resolve keeps_write_rep : keeps.
Lemma keeps_write_new_rep s : keeps f (svn_fs__write_new_rep s).
Proof. keeps_def svn_fs__write_new_rep. Qed.
Lemma keeps_delete_rep key : keeps f (svn_fs__delete_rep key).
Proof. keeps_def svn_fs__delete_rep. Qed.
Lemma keeps_delete_strings keys : keeps f (delete_strings keys).
Proof. induction keys; cbn [delete_strings]; keeps. Qed.
#[local] Hint Resolve keeps_write_new_rep keeps_delete_rep keeps_delete_strings : keeps.

Lemma keeps_rep_write key b : keeps f (rep_write key b).
Proof. keeps_def rep_write. Qed.
Lemma keeps_copy_contents fuel n rep new_str offset size : keeps f (copy_contents fuel n rep new_str offset size).
Proof. revert new_str offset. induction n; intros; cbn [copy_contents]; keeps. Qed.
#[local] Hint Resolve keeps_rep_write keeps_copy_contents : keeps.
Lemma keeps_get_mutable_rep fuel rep : keeps f (svn_fs__get_mutable_rep fuel rep).
Proof. keeps_def svn_fs__get_mutable_rep. Qed.
Lemma keeps_make_rep_immutable rep : keeps f (svn_fs__make_rep_immutable rep).
Proof. keeps_def svn_fs__make_rep_immutable. Qed.
Lemma keeps_delete_rep_if_mutable rep : keeps f (svn_fs__delete_rep_if_mutable rep).
Proof. keeps_def svn_fs__delete_rep_if_mutable. Qed.
Lemma keeps_contents_clear rep : keeps f (svn_fs__rep_contents_clear rep).
Proof. keeps_def svn_fs__rep_contents_clear. Qed.
End rep_writing.

#[export] Hint Resolve keeps_string_read keeps_string_size keeps_read_range keeps_contents_size keeps_contents
  keeps_read_rep keeps_string_append keeps_string_delete keeps_write_rep keeps_delete_strings keeps_rep_write
  keeps_get_mutable_rep keeps_make_rep_immutable keeps_delete_rep_if_mutable keeps_contents_clear : keeps.

(** ** Deltification *)

(** A stream whose handlers keep a property of the baton. *)
Record keeps_baton {B} (P : B -> Prop) (fn : stream_fns B) : Prop := {
  kb_write : forall w, write_fn fn = Some w -> forall b d, P b -> P (w b d).2;
  kb_close : forall c, close_fn fn = Some c -> forall b, P b -> P (c b).2;
}.

Section encoder.
Context {B : Type} (P : B -> Prop) (fn : stream_fns B) (Hfn : keeps_baton P fn).

Definition stream_has (s : svn_stream_t B) : Prop := P (baton s) /\ fns s = fn.

Lemma stream_write_has s d : stream_has s -> stream_has (svn_stream_write s d).2.
Proof.
  intros [Hb Hs]. unfold svn_stream_write. rewrite Hs. destruct (write_fn fn) as [w|] eqn:E; [|done].
  pose proof (kb_write _ _ Hfn w E (baton s) d Hb) as H. by destruct (w (baton s) d).
Qed.

Lemma stream_close_has s : stream_has s -> stream_has (svn_stream_close s).2.
Proof.
  intros [Hb Hs]. unfold svn_stream_close. rewrite Hs. destruct (close_fn fn) as [c|] eqn:E; [|done].
  pose proof (kb_close _ _ Hfn c E (baton s) Hb) as H. by destruct (c (baton s)).
Qed.

Lemma write_nonempty_has r s d : stream_has s -> stream_has (write_nonempty r s d).2.
Proof.
  intros Hs. unfold write_nonempty. destruct r; try done. destruct d; [done|].
  by apply stream_write_has.
Qed.

Lemma window_handler_has w eb : stream_has (output eb) -> stream_has (output (window_handler w eb).2).
Proof.
  intros Hs. unfold window_handler.
  assert (forall r eb', (if header_done eb then (Ok tt, eb)
    else let '(r, s) := svn_stream_write (output eb) svndiff_magic in
         (r, mk_eb s (match r with Ok _ => true | _ => false end))) = (r, eb') -> stream_has (output eb')) as H0.
  { intros r eb' E. destruct (header_done eb); [by injection E as <- <-|].
    pose proof (stream_write_has (output eb) svndiff_magic Hs) as H.
    destruct (svn_stream_write _ _) as [r1 s1]. by injection E as <- <-. }
  match goal with |- context [let '(_, _) := ?x in _] => destruct x as [r eb'] eqn:E end.
  specialize (H0 r eb' eq_refl). destruct r as [[]|e| |]; try done. destruct w as [w|].
  - match goal with |- context [match ?x with Ok _ => _ | _ => _ end] => destruct x as [[hd ins]|e| |] end; try done.
    pose proof (stream_write_has _ hd H0) as H1. destruct (svn_stream_write (output eb') hd) as [r1 s1].
    pose proof (write_nonempty_has r1 s1 ins H1) as H2. destruct (write_nonempty r1 s1 ins) as [r2 s2].
    pose proof (write_nonempty_has r2 s2 (new_data w) H2) as H3. by destruct (write_nonempty r2 s2 (new_data w)).
  - pose proof (stream_close_has _ H0) as H1. by destruct (svn_stream_close (output eb')).
Qed.
End encoder.

Section deltify.
Context `{db : BerkeleyDB} {ctx : Type} `{m : Md5 ctx bytes} {V : Type} (f : svn_fs_t -> V) `{!IgnoresReps f}.
Context (fuel : nat) (digest_memory : bytes).

Lemma strings_keeps_baton v : keeps_baton (λ b, f (ws_fs b) = v) strings_fns.
Proof.
  split; [|done]. intros w [= <-] b d Hb. unfold write_svndiff_strings.
  destruct (_ <? _)%nat; [done|].
  pose proof (keeps_string_append f (ws_key b) (drop (if header_read b <? 4 then 4 - header_read b else 0)%nat d) (ws_fs b)) as H.
  destruct (svn_fs__string_append _ _ _) as [r fs']. cbn [snd] in H. rewrite Hb in H. by destruct r.
Qed.

Lemma deltify_loop_keeps n source target txs eb ws off size v :
  stream_has (λ b, f (ws_fs b) = v) strings_fns (output eb) ->
  f (ws_fs (enc_baton (deltify_loop fuel n source target txs eb ws off size).2)) = v.
Proof.
  revert txs eb ws off size. induction n as [|n IH]; intros txs eb ws off size Hs; cbn [deltify_loop]; [by apply Hs|].
  destruct (svn_txdelta_next_window _) as [[w|e| |] txs']; try by apply Hs.
  assert (stream_has (λ b, f (ws_fs b) = v) strings_fns (output (enc_set_baton
    (mk_wsb (ws_fs (enc_baton eb)) None 0 (header_read (enc_baton eb))) eb))) as H1 by (split; [apply Hs|by destruct Hs]).
  pose proof (window_handler_has _ _ (strings_keeps_baton v) w _ H1) as H2.
  destruct (window_handler w _) as [r eb']. destruct r as [[]|e| |]; try by apply H2.
  destruct w as [w|]; [by apply IH|by apply H2].
Qed.

Lemma keeps_strings_size keys : keeps f (strings_size keys).
Proof. induction keys; cbn [strings_size]; keeps. Qed.
Lemma keeps_delete_windows ws : keeps f (delete_windows ws).
Proof. induction ws; cbn [delete_windows]; keeps. Qed.
#[local] Hint Resolve keeps_strings_size keeps_delete_windows : keeps.

Lemma keeps_deltify_finish target source digest ws size : keeps f (deltify_finish target source digest ws size).
Proof. keeps_def deltify_finish. Qed.

Lemma keeps_rep_deltify target source : keeps f (svn_fs__rep_deltify fuel digest_memory target source).
Proof.
  unfold svn_fs__rep_deltify. keeps. intros fs.
  match goal with |- context [deltify_loop ?a ?b ?c ?d ?e ?g ?h ?i ?j] =>
    pose proof (deltify_loop_keeps b c d e g h i j (f fs)) as H end.
  specialize (H ltac:(by split)). destruct (deltify_loop _ _ _ _ _ _ _ _) as [[[[txs ws] size]|e| |] eb]; try done.
  destruct (svn_txdelta_md5_digest txs) as [dg|]; [|done]. cbn [snd] in H.
  by rewrite keeps_deltify_finish.
Qed.

Lemma keeps_undeltify_loop n rep key off : keeps f (undeltify_loop fuel n rep key off).
Proof.
  revert key off. induction n as [|n IH]; intros key off; cbn [undeltify_loop]; unfold txn_body_read_rep, write_string; keeps.
Qed.
#[local] Hint Resolve keeps_undeltify_loop : keeps.

Lemma keeps_rep_undeltify rep : keeps f (svn_fs__rep_undeltify fuel rep).
Proof. keeps_def svn_fs__rep_undeltify. Qed.
End deltify.

#[export] Hint Resolve keeps_rep_deltify keeps_rep_undeltify : keeps.

(** ** Nodes *)

Section nodes_writing.
Context `{db : BerkeleyDB} {V : Type} (f : svn_fs_t -> V) `{!IgnoresNodes f} (fuel : nat).

Lemma keeps_get_node_revision_db id : keeps f (svn_fs__get_node_revision id).
Proof. keeps_def svn_fs__get_node_revision. Qed.
Lemma keeps_put_node_revision id s : keeps f (svn_fs__put_node_revision id s).
Proof. keeps_def svn_fs__put_node_revision. Qed.
Lemma keeps_new_successor_id id : keeps f (svn_fs__new_successor_id id).
Proof. keeps_def svn_fs__new_successor_id. unfold last_key_before. keeps. Qed.
Lemma keeps_new_node_id : keeps f svn_fs__new_node_id.
Proof. keeps_def svn_fs__new_node_id. Qed.
Lemma keeps_delete_nodes_entry id : keeps f (svn_fs__delete_nodes_entry id).
Proof. keeps_def svn_fs__delete_nodes_entry. Qed.
#[local] Hint Resolve keeps_get_node_revision_db keeps_put_node_revision keeps_new_successor_id keeps_new_node_id
  keeps_delete_nodes_entry : keeps.
Lemma keeps_create_node s : keeps f (svn_fs__create_node s).
Proof. keeps_def svn_fs__create_node. Qed.
Lemma keeps_create_successor id s : keeps f (svn_fs__create_successor id s).
Proof. keeps_def svn_fs__create_successor. Qed.

Lemma keeps_get_node_revision node : keeps f (get_node_revision node).
Proof. keeps_def get_node_revision. Qed.
Lemma keeps_set_node_revision node s : keeps f (set_node_revision node s).
Proof. keeps_def set_node_revision. Qed.
#[local] Hint Resolve keeps_create_node keeps_create_successor keeps_get_node_revision keeps_set_node_revision : keeps.
Lemma keeps_check_mutable node : keeps f (svn_fs__dag_check_mutable node).
Proof. keeps_def svn_fs__dag_check_mutable. Qed.
Lemma keeps_get_node id : keeps f (svn_fs__dag_get_node id).
Proof. keeps_def svn_fs__dag_get_node. Qed.
Lemma keeps_get_revision node : keeps f (svn_fs__dag_get_revision node).
Proof. keeps_def svn_fs__dag_get_revision. Qed.
Lemma keeps_get_dir_entries s : keeps f (get_dir_entries fuel s).
Proof. keeps_def get_dir_entries. Qed.
#[local] Hint Resolve keeps_check_mutable keeps_get_node keeps_get_revision keeps_get_dir_entries : keeps.
Lemma keeps_dir_entries_skel node : keeps f (svn_fs__dag_dir_entries_skel fuel node).
Proof. keeps_def svn_fs__dag_dir_entries_skel. Qed.
#[local] Hint Resolve keeps_dir_entries_skel : keeps.
Lemma keeps_dir_entries_hash node : keeps f (svn_fs__dag_dir_entries_hash fuel node).
Proof. keeps_def svn_fs__dag_dir_entries_hash. Qed.
Lemma keeps_dir_entry_from_node node name : keeps f (dir_entry_from_node fuel node name).
Proof. keeps_def dir_entry_from_node. Qed.
#[local] Hint Resolve keeps_dir_entries_hash keeps_dir_entry_from_node : keeps.
Lemma keeps_dag_open node name : keeps f (svn_fs__dag_open fuel node name).
Proof. keeps_def svn_fs__dag_open. Qed.

Lemma keeps_write_ignored key b : keeps f (write_ignored key b).
Proof. intros fs. unfold write_ignored. pose proof (keeps_rep_write f key b fs) as H. by destruct (rep_write key b fs) as [[]]. Qed.
#[local] Hint Resolve keeps_dag_open keeps_write_ignored : keeps.
Lemma keeps_mutable_entries node s key : keeps f (mutable_entries fuel node s key).
Proof. keeps_def mutable_entries. Qed.
#[local] Hint Resolve keeps_mutable_entries : keeps.
Lemma keeps_set_entry parent name id : keeps f (set_entry fuel parent name id).
Proof. keeps_def set_entry. Qed.
#[local] Hint Resolve keeps_set_entry : keeps.
Lemma keeps_make_entry parent name d : keeps f (make_entry fuel parent name d).
Proof. keeps_def make_entry. Qed.
Lemma keeps_dag_set_entry parent name id : keeps f (svn_fs__dag_set_entry fuel parent name id).
Proof. keeps_def svn_fs__dag_set_entry. Qed.
#[local] Hint Resolve keeps_dag_set_entry : keeps.
Lemma keeps_get_proplist node : keeps f (svn_fs__dag_get_proplist fuel node).
Proof. keeps_def svn_fs__dag_get_proplist. Qed.
Lemma keeps_set_proplist node p : keeps f (svn_fs__dag_set_proplist fuel node p).
Proof. keeps_def svn_fs__dag_set_proplist. Qed.
Lemma keeps_clone_child parent name : keeps f (svn_fs__dag_clone_child fuel parent name).
Proof. keeps_def svn_fs__dag_clone_child. Qed.
Lemma keeps_each_entry g entries : (forall id, keeps f (g id)) -> keeps f (each_entry g entries).
Proof. intros Hg. induction entries; cbn [each_entry]; keeps. Qed.
Lemma keeps_delete_key key : keeps f (delete_key_if_mutable key).
Proof. keeps_def delete_key_if_mutable. Qed.
#[local] Hint Resolve keeps_each_entry keeps_delete_key : keeps.
Lemma keeps_delete_if_mutable n id : keeps f (svn_fs__dag_delete_if_mutable fuel n id).
Proof. revert id. induction n; intros; cbn [svn_fs__dag_delete_if_mutable]; unfold svn_fs__delete_node_revision; keeps. Qed.
#[local] Hint Resolve keeps_delete_if_mutable : keeps.
Lemma keeps_delete_entry parent name b : keeps f (delete_entry fuel parent name b).
Proof. keeps_def delete_entry. Qed.
Lemma keeps_link parent child name : keeps f (svn_fs__dag_link fuel parent child name).
Proof. keeps_def svn_fs__dag_link. Qed.
Lemma keeps_get_contents node : keeps f (svn_fs__dag_get_contents node).
Proof. keeps_def svn_fs__dag_get_contents. Qed.
Lemma keeps_file_length node : keeps f (svn_fs__dag_file_length node).
Proof. keeps_def svn_fs__dag_file_length. Qed.
Lemma keeps_get_edit_stream node : keeps f (svn_fs__dag_get_edit_stream fuel node).
Proof. keeps_def svn_fs__dag_get_edit_stream. Qed.
Lemma keeps_finalize_edits node : keeps f (svn_fs__dag_finalize_edits node).
Proof. keeps_def svn_fs__dag_finalize_edits. Qed.
Lemma keeps_copied_from node : keeps f (svn_fs__dag_copied_from node).
Proof. keeps_def svn_fs__dag_copied_from. Qed.
Lemma keeps_things_different a b c d n1 n2 : keeps f (svn_fs__things_different a b c d n1 n2).
Proof. keeps_def svn_fs__things_different. Qed.
Lemma keeps_dag_copy to entry from b r p : keeps f (svn_fs__dag_copy fuel to entry from b r p).
Proof. keeps_def svn_fs__dag_copy. Qed.

Lemma keeps_key_immutable key : keeps f (key_immutable key).
Proof. keeps_def key_immutable. Qed.
#[local] Hint Resolve keeps_key_immutable : keeps.
Lemma keeps_make_node_immutable node r : keeps f (make_node_immutable node r).
Proof. keeps_def make_node_immutable. Qed.
End nodes_writing.

#[export] Hint Resolve keeps_get_node_revision_db keeps_put_node_revision keeps_new_successor_id
  keeps_delete_nodes_entry keeps_create_successor keeps_get_node_revision keeps_check_mutable keeps_get_node
  keeps_get_revision keeps_dir_entries_skel keeps_dir_entries_hash keeps_dag_open keeps_make_entry
  keeps_dag_set_entry keeps_get_proplist keeps_set_proplist keeps_clone_child keeps_each_entry
  keeps_delete_if_mutable keeps_delete_entry keeps_get_contents keeps_file_length keeps_get_edit_stream
  keeps_finalize_edits keeps_copied_from keeps_things_different keeps_dag_copy keeps_make_node_immutable : keeps.

(** ** Commits *)

Section stabilizing.
Context `{db : BerkeleyDB} {ctx : Type} `{m : Md5 ctx bytes} {V : Type} (f : svn_fs_t -> V) `{!IgnoresNodes f}.
Context (fuel : nat) (digest_memory : bytes).

Lemma keeps_deltify target source b : keeps f (deltify fuel digest_memory target source b).
Proof. keeps_def deltify. Qed.
#[local] Hint Resolve keeps_deltify : keeps.

Lemma keeps_stable_node id : keeps f (svn_fs__stable_node fuel digest_memory id).
Proof. keeps_def svn_fs__stable_node. Qed.
#[local] Hint Resolve keeps_stable_node : keeps.

Lemma keeps_stabilize_node n node r : keeps f (stabilize_node fuel digest_memory n node r).
Proof.
  revert node. induction n as [|n IH]; intros node; cbn [stabilize_node]; keeps.
  apply keeps_each_entry. intros id. keeps.
Qed.
End stabilizing.

(** ** Transactions *)

Section txns_writing.
Context `{db : BerkeleyDB} {V : Type} (f : svn_fs_t -> V) `{!IgnoresTxns f} (fuel : nat).

#[local] Hint Extern 0 (IgnoresTxns _) => apply _ : keeps.

Lemma keeps_put_txn name root base p : keeps f (put_txn name root base p).
Proof. keeps_def put_txn. Qed.
Lemma keeps_allocate_txn_id : keeps f allocate_txn_id.
Proof. keeps_def allocate_txn_id. Qed.
Lemma keeps_get_txn name : keeps f (svn_fs__get_txn name).
Proof. keeps_def svn_fs__get_txn. Qed.
#[local] Hint Resolve keeps_put_txn keeps_allocate_txn_id keeps_get_txn : keeps.
Lemma keeps_create_txn root : keeps f (svn_fs__create_txn root).
Proof. keeps_def svn_fs__create_txn. Qed.
Lemma keeps_delete_txn name : keeps f (svn_fs__delete_txn name).
Proof. keeps_def svn_fs__delete_txn. Qed.
Lemma keeps_get_txn_ids name : keeps f (svn_fs__get_txn_ids name).
Proof. keeps_def svn_fs__get_txn_ids. Qed.
#[local] Hint Resolve keeps_create_txn keeps_delete_txn keeps_get_txn_ids : keeps.
Lemma keeps_set_txn_root name id : keeps f (svn_fs__set_txn_root name id).
Proof. keeps_def svn_fs__set_txn_root. Qed.
Lemma keeps_set_txn_base name id : keeps f (svn_fs__set_txn_base name id).
Proof. keeps_def svn_fs__set_txn_base. Qed.
Lemma keeps_get_txn_list : keeps f svn_fs__get_txn_list.
Proof. keeps_def svn_fs__get_txn_list. Qed.
Lemma keeps_change_txn_prop name p v : keeps f (txn_body_change_txn_prop name p v).
Proof. keeps_def txn_body_change_txn_prop. Qed.
Lemma keeps_get_rev r : keeps f (svn_fs__get_rev r).
Proof. keeps_def svn_fs__get_rev. Qed.
#[local] Hint Resolve keeps_set_txn_root keeps_set_txn_base keeps_get_rev : keeps.
Lemma keeps_rev_get_root r : keeps f (svn_fs__rev_get_root r).
Proof. keeps_def svn_fs__rev_get_root. Qed.
Lemma keeps_youngest_rev : keeps f svn_fs__youngest_rev.
Proof. keeps_def svn_fs__youngest_rev. Qed.
#[local] Hint Resolve keeps_rev_get_root keeps_change_txn_prop : keeps.
Lemma keeps_dag_txn_root name : keeps f (svn_fs__dag_txn_root name).
Proof. keeps_def svn_fs__dag_txn_root. Qed.
Lemma keeps_dag_txn_base_root name : keeps f (svn_fs__dag_txn_base_root name).
Proof. keeps_def svn_fs__dag_txn_base_root. Qed.
Lemma keeps_dag_revision_root r : keeps f (svn_fs__dag_revision_root r).
Proof. keeps_def svn_fs__dag_revision_root. Qed.
Lemma keeps_clone_root name : keeps f (svn_fs__dag_clone_root name).
Proof. keeps_def svn_fs__dag_clone_root. Qed.

Lemma keeps_begin_txn r date : keeps f (svn_fs_begin_txn r date).
Proof. keeps_def svn_fs_begin_txn. unfold txn_body_begin_txn. keeps. Qed.
Lemma keeps_abort_txn txn : keeps f (svn_fs_abort_txn fuel txn).
Proof. keeps_def svn_fs_abort_txn. unfold txn_body_abort_txn. keeps. Qed.
End txns_writing.

#[export] Hint Extern 0 (IgnoresTxns _) => apply _ : keeps.
#[export] Hint Resolve keeps_delete_txn keeps_set_txn_root keeps_set_txn_base keeps_rev_get_root
  keeps_youngest_rev keeps_dag_txn_root keeps_dag_txn_base_root keeps_dag_revision_root keeps_clone_root
  keeps_get_txn keeps_get_txn_ids keeps_change_txn_prop keeps_create_txn keeps_get_txn_list : keeps.

(** ** The operations of the tree *)

Section tree_writing.
Context `{db : BerkeleyDB} {ctx : Type} `{m : Md5 ctx bytes} {V : Type} (f : svn_fs_t -> V) `{!IgnoresTxns f}.
Context (fuel : nat).

Lemma keeps_root_node root : keeps f (root_node root).
Proof. keeps_def root_node. Qed.
Lemma keeps_open_entry here entry : keeps f (open_entry fuel here entry).
Proof.
  intros fs. unfold open_entry. pose proof (keeps_dag_open f fuel here entry fs) as H.
  destruct (svn_fs__dag_open fuel here entry fs) as [r fs']. cbn [snd] in H. rewrite <- H.
  destruct r as [[c h]|e| |]; try done. destruct e; try done.
  assert (keeps f ('(_, here) ← get_node_revision here; mret (@None dag_node_t, here))) as Hk by keeps. apply Hk.
Qed.
#[local] Hint Resolve keeps_root_node keeps_open_entry : keeps.
Lemma keeps_open_path_loop n root lo here pp rest : keeps f (open_path_loop fuel n root lo here pp rest).
Proof. revert here pp rest. induction n; intros; cbn [open_path_loop]; keeps. Qed.
#[local] Hint Resolve keeps_open_path_loop : keeps.
Lemma keeps_open_path root path lo : keeps f (open_path fuel root path lo).
Proof. keeps_def open_path. Qed.
Lemma keeps_mutable_root_node root : keeps f (mutable_root_node root).
Proof. keeps_def mutable_root_node. Qed.
#[local] Hint Resolve keeps_open_path keeps_mutable_root_node : keeps.

Fixpoint keeps_make_path_mutable root (pp : parent_path_t) : keeps f (make_path_mutable fuel root pp).
Proof.
  destruct pp as [node entry [parent|]]; cbn [make_path_mutable]; keeps; apply keeps_make_path_mutable.
Qed.
#[local] Hint Resolve keeps_make_path_mutable : keeps.
Lemma keeps_mutable_parent root pp : keeps f (mutable_parent fuel root pp).
Proof. keeps_def mutable_parent. Qed.
Lemma keeps_get_dag root path : keeps f (get_dag fuel root path).
Proof. keeps_def get_dag. Qed.
#[local] Hint Resolve keeps_mutable_parent keeps_get_dag : keeps.

Lemma keeps_node_id root path : keeps f (svn_fs_node_id fuel root path).
Proof. keeps_def svn_fs_node_id. unfold txn_body_node_id. keeps. Qed.
Lemma keeps_change_node_prop root path name v : keeps f (svn_fs_change_node_prop fuel root path name v).
Proof. keeps_def svn_fs_change_node_prop. unfold txn_body_change_node_prop. keeps. Qed.
Lemma keeps_make_dir root path : keeps f (svn_fs_make_dir fuel root path).
Proof. keeps_def svn_fs_make_dir. unfold txn_body_make_dir, svn_fs__dag_make_dir. keeps. Qed.
Lemma keeps_make_file root path : keeps f (svn_fs_make_file fuel root path).
Proof. keeps_def svn_fs_make_file. unfold txn_body_make_file, svn_fs__dag_make_file. keeps. Qed.
Lemma keeps_txn_body_delete root path b : keeps f (txn_body_delete fuel root path b).
Proof. keeps_def txn_body_delete. all: unfold svn_fs__dag_delete_tree, svn_fs__dag_delete; keeps. Qed.
Lemma keeps_txn_body_copy from fp to tp b : keeps f (txn_body_copy fuel from fp to tp b).
Proof. keeps_def txn_body_copy. Qed.
Lemma keeps_apply_textdelta root path : keeps f (svn_fs_apply_textdelta fuel root path).
Proof. keeps_def svn_fs_apply_textdelta. unfold txn_body_apply_textdelta. keeps. Qed.
Lemma keeps_revision_root r : keeps f (svn_fs_revision_root r).
Proof. keeps_def svn_fs_revision_root. unfold txn_body_revision_root. keeps. Qed.

Abbreviation consumer := (state_m (txdelta_baton_t * svn_fs_t)).

(** The consumer of the windows of a file. *)
Lemma window_consumer_keeps w tb fs : f (window_consumer fuel w (tb, fs)).2.2 = f fs.
Proof.
  assert (forall A (c1 : consumer A) B (k : A -> consumer B),
    (forall s, f (c1 s).2.2 = f s.2) -> (forall a s, f (k a s).2.2 = f s.2) ->
    forall s, f ((c1 ≫= k) s).2.2 = f s.2) as Hbind.
  { intros A c1 B k H1 H2 s. unfold mbind, state_bind. specialize (H1 s).
    destruct (c1 s) as [[a|e| |] s']; try done. by rewrite H2. }
  change (f fs) with (f (tb, fs).2). generalize (tb, fs). unfold window_consumer, flush.
  apply Hbind; [|intros _; apply Hbind; [|intros str; apply Hbind; [|intros _]]].
  - intros [tb' fs']. unfold interpreter. by destruct (apply_window w _).
  - by intros [tb' fs'].
  - destruct (_ || _); [|done]. apply Hbind; [by intros []|intros str1].
    apply Hbind; [by intros []|intros data]. apply Hbind; [by intros []|intros key].
    apply Hbind; [|intros _; apply Hbind; [by intros []|by intros ? []]].
    intros [tb' fs']. unfold in_trail, flush_ignored.
    pose proof (keeps_run_trail f (txn_body_write_rep key data) (keeps_rep_write f key data) fs') as H.
    by destruct (run_trail _ fs') as [[]].
  - destruct w; [done|]. intros [tb' fs']. unfold txn_body_finalize_edits.
    pose proof (keeps_run_trail f (svn_fs__dag_finalize_edits (tb_node tb')) (keeps_finalize_edits f (tb_node tb')) fs') as H.
    by destruct (run_trail _ fs') as [[]].
Qed.
End tree_writing.

#[export] Hint Resolve keeps_get_dag keeps_revision_root : keeps.

(** ** Merging *)

Section merging.
Context `{db : BerkeleyDB} {ctx : Type} `{m : Md5 ctx bytes} {V : Type} (f : svn_fs_t -> V).
Context (fuel : nat) (digest_memory : bytes) (hash_order : gmap bytes dirent -> list (bytes * dirent)).

Section nodes_only.
Context `{!IgnoresNodes f}.

Lemma keeps_need_mutable target : keeps f (need_mutable target).
Proof. keeps_def need_mutable. Qed.
Lemma keeps_move_to_successor s old update : (forall id, keeps f (update id)) ->
  keeps f (move_to_successor s old update).
Proof. intros Hu. unfold move_to_successor. keeps. Qed.
#[local] Hint Resolve keeps_need_mutable keeps_move_to_successor : keeps.

Section recursive.
Context (dirs : bytes -> dag_node_t -> dag_node_t -> dag_node_t -> trail unit).
Context (Hdirs : forall p t s a, keeps f (dirs p t s a)).

Lemma keeps_merge_common path target name a s t : keeps f (merge_common fuel dirs path target name a s t).
Proof. keeps_def merge_common. Qed.
#[local] Hint Resolve keeps_merge_common : keeps.

Lemma keeps_merge_ancestor path a_entries target s_entries t_entries :
  keeps f (merge_ancestor fuel dirs path a_entries target s_entries t_entries).
Proof.
  revert target s_entries t_entries. induction a_entries as [|[key a] l IH]; intros; cbn [merge_ancestor]; cbv zeta;
    unfold svn_fs__dag_delete_tree; keeps.
Qed.
End recursive.

Lemma keeps_merge_source path s_entries target t_entries : keeps f (merge_source fuel path s_entries target t_entries).
Proof. revert target. induction s_entries as [|[key s] l IH]; intros; cbn [merge_source]; cbv zeta; keeps. Qed.
#[local] Hint Resolve keeps_merge_ancestor keeps_merge_source : keeps.

Lemma keeps_merge n path target source ancestor : keeps f (merge fuel hash_order n path target source ancestor).
Proof. revert path target source ancestor. induction n; intros; cbn [merge]; cbv zeta; keeps. Qed.
End nodes_only.

Context `{!IgnoresTxns f}.
#[local] Hint Resolve keeps_merge keeps_move_to_successor : keeps.

Lemma keeps_txn_body_merge a s txn : keeps f (txn_body_merge fuel hash_order a s txn).
Proof.
  keeps_def txn_body_merge. apply keeps_move_to_successor; intros; keeps.
Qed.
End merging.

#[export] Hint Resolve keeps_merge keeps_txn_body_merge keeps_stabilize_node : keeps.
