(* ===== verification/History.v ===== *)
(** * The history of a filesystem

    The revisions table is written by [svn_fs_commit_txn] only (and by the change
    of a property of a revision), and a commit appends to it.  The loop of
    [svn_fs_commit_txn] ends once the other processes stop committing. *)

From S2P Require Import Prelude Types KeyGen Libc Skel Proplist Id Stream Db NodeKeys Fs RevTable TxnTable NodesTable Strings.
From S2P Require Import TextDelta Vdelta Svndiff TxStream Reps RepOps SvnString Path Sorts Dag NodeRec DagOk.
From S2P Require Import Deltify Commit Tree Merge Frame.

Lemma estimate_equiv s1 s2 : s1 ≡ s2 -> estimate_unparsed_size s1 = estimate_unparsed_size s2.
Proof.
  revert s2. induction s1 as [data|d l IH] using skel_rect_nested; intros [data2|d2 l2] E; try done.
  - by injection E as <-.
  - rewrite !list_estimate. injection E as E. revert l2 E.
    induction IH as [|x l Hx Hl IHl]; intros [|y l2] E; try done.
    injection E as Exy E. cbn [foldr]. by rewrite (Hx y Exy), (IHl l2 E).
Qed.

Section tables.
Context `{db : BerkeleyDB}.

Lemma revs_are_same fs fs' l : revisions fs' = revisions fs -> revs_are fs l -> revs_are fs' l.
Proof.
  intros E (Hn & Hl & Hat). unfold revs_are, next_rev. rewrite E. split; [done|]. split; [done|].
  intros i x Hx. apply (rev_at_same fs); [by rewrite E|by apply Hat].
Qed.

Lemma txns_are_same fs fs' mt next : transactions fs' = transactions fs -> txns_are fs mt next -> txns_are fs' mt next.
Proof.
  intros E [H1 H2 H3 H4 H5]. unfold txn_get in *. split; unfold txn_get; rewrite ?E; try done.
  intros name t Hm. destruct (H3 name t Hm) as [Ha Hb Hc]. split; try done. unfold txn_get. by rewrite E.
Qed.

Lemma rev_id_nid p : stored_nid p -> rev_id (flat p).
Proof.
  intros Hp. split; [|split].
  - destruct Hp as [Hne _]. by destruct p as [|[]].
  - clear. induction p as [|[n v] p IH]; [done|]. exact IH.
  - by apply nid_comps_flat, stored_comps.
Qed.
End tables.

(** ** Committing a transaction whose base is the youngest revision *)

Section commit.
Context `{db : BerkeleyDB} {ctx : Type} `{m : Md5 ctx bytes}.
Context (fuel : nat) (digest_memory date : bytes).
Context (fs : svn_fs_t) (l : list (list Z * gmap bytes bytes)) (y : list Z * gmap bytes bytes).
Context (mt : gmap bytes txn) (next : Z) (t : txn) (p pb : nid) (r rb : node_rec) (obj : svn_fs_txn_t).
Context (Hl : revs_are fs (l ++ [y])) (Hlen : Z.of_nat (length (l ++ [y])) + 1 < 2 ^ 32 - 1).
Context (Ht : txns_are fs mt next) (Hm : mt !! txn_id obj = Some t) (Hsm : txn_small fs (txn_id obj)).
Context (Hroot : t_root t = flat p) (Hp : node_at fs p r) (Hbase : t_base t = flat pb) (Hpb : node_at fs pb rb).
Context (Hdate : Z.of_nat (length date) < 2 ^ 60).

Lemma commit_reads :
  svn_fs__youngest_rev fs = (Ok (Z.of_nat (length l)), fs) /\
  svn_fs__rev_get_root (Z.of_nat (length l)) fs = (Ok (y.1 ++ [-1]), fs) /\
  (exists node junk, svn_fs__dag_txn_base_root (txn_id obj) fs = (Ok node, fs) /\ node_id node = flat pb ++ -1 :: junk) /\
  (exists node junk, svn_fs__dag_txn_root (txn_id obj) fs = (Ok node, fs) /\ node_id node = flat p ++ -1 :: junk).
Proof.
  assert (l ++ [y] <> []) as Hne by (by destruct l).
  pose proof (youngest_ok fs _ Hl Hne) as Ey. rewrite length_app in Ey. cbn [length] in Ey.
  replace (Z.of_nat (length l + 1) - 1) with (Z.of_nat (length l)) in Ey by lia.
  pose proof (get_ids_ok fs mt next _ t Ht Hm) as Ei. rewrite Hroot, Hbase in Ei.
  split; [done|]. split; [|split].
  - destruct Hl as (_ & _ & Hat). apply (get_root_ok fs _ _ y.2). apply (Hat (length l) y). by rewrite list_lookup_middle.
  - destruct (dag_get_node_ok fs pb rb [] Hpb) as (node & E & Hn). destruct Hn as [[junk Hid] _ _].
    exists node, junk. split; [|done]. unfold svn_fs__dag_txn_base_root. by rewrite (state_bind_step _ _ _ _ _ Ei).
  - destruct (dag_get_node_ok fs p r [] Hp) as (node & E & Hn). destruct Hn as [[junk Hid] _ _].
    exists node, junk. split; [|done]. unfold svn_fs__dag_txn_root. by rewrite (state_bind_step _ _ _ _ _ Ei).
Qed.

(** The record of the new revision. *)
Lemma new_revision_ok s props : txn_is s (mk_txn (t_root t) (t_base t) props) -> skel_fits s ->
  estimate_unparsed_size s < 2 ^ 62 -> rev_id (flat p) ->
  exists s', new_revision_skel s (id_text (flat p)) = Ok s' /\ rev_is s' (flat p) props /\ skel_fits s' /\
    estimate_unparsed_size s' < 2 ^ 62.
Proof.
  intros (d & pl & -> & Hpl) Hf He Hid. cbn [t_root t_base t_props] in *. rewrite Hroot in *.
  unfold new_revision_skel. cbn [kid kids rd lookup list_lookup mbind outcome_bind].
  unfold svn_fs__mem_atom. rewrite firstn_all. eexists. split; [done|].
  apply skel_fits_list in Hf. apply list.Forall_cons in Hf as [_ Hf]. apply list.Forall_cons in Hf as [H1 Hf].
  apply list.Forall_cons in Hf as [_ Hf]. apply list.Forall_cons in Hf as [H2 _].
  split; [by exists [], pl|]. split.
  - apply skel_fits_list. by repeat constructor.
  - rewrite list_estimate in He |- *. cbn [foldr] in *.
    pose proof (atom_pos (id_text (t_base t))).
    assert (estimate_unparsed_size (svn_fs__str_atom (bstr "revision")) <=
      estimate_unparsed_size (Atom (bstr "transaction"))) as Hr by by vm_compute. lia.
Qed.

Lemma put_rev_value s v fs' : skel_fits s -> svn_fs__put_rev s fs = (Ok v, fs') ->
  rc_get (revisions fs') (next_rev fs + 1) = Some (text s).
Proof.
  intros Hf. unfold svn_fs__put_rev. destruct (negb _); [done|].
  rewrite unparse_skel_text, lift_bind, reading_bind, writing_bind by done. intros [= _ <-].
  cbn [revisions set_revisions]. rewrite rc_get_append, rc_append_number. unfold next_rev.
  by rewrite decide_True.
Qed.

Lemma commit_out_of_date : y.1 <> t_base t ->
  run_trail (txn_body_commit fuel digest_memory date obj) fs = (Err SVN_ERR_TXN_OUT_OF_DATE, fs).
Proof.
  intros Hne. destruct commit_reads as (E1 & E2 & (bn & j & E3 & Hid) & _).
  destruct Hl as (_ & _ & Hat).
  destruct (Hat (length l) y) as (_ & (_ & _ & Hyc) & _); [by rewrite list_lookup_middle|].
  assert (txn_body_commit fuel digest_memory date obj fs = (Err SVN_ERR_TXN_OUT_OF_DATE, fs)) as E.
  { unfold txn_body_commit. cbv zeta. rewrite (state_bind_step _ _ _ _ _ E1), (state_bind_step _ _ _ _ _ E2).
    rewrite (state_bind_step _ _ _ _ _ E3), Hid, <- Hbase.
    rewrite id_eq_text, lift_bind by (done || apply (ta_some _ _ _ Ht _ _ Hm)).
    rewrite bool_decide_false by done. cbn [negb]. by rewrite unparse_id_text, lift_bind. }
  unfold run_trail. by rewrite E.
Qed.

(** What is stored before the tree is made immutable. *)
Lemma commit_started : exists root fs2,
  (forall A (k : dag_node_t -> svn_revnum_t -> trail A),
    (root ← svn_fs__dag_txn_root (txn_id obj);
     id_string ← lift (svn_fs_unparse_id (node_id root));
     txn_skel ← svn_fs__get_txn (txn_id obj);
     rev_skel ← lift (new_revision_skel txn_skel id_string);
     new_rev ← svn_fs__put_rev rev_skel;
     svn_fs__set_rev_prop new_rev SVN_PROP_REVISION_DATE (Some date);;
     k root new_rev) fs = k root (Z.of_nat (length (l ++ [y]))) fs2) /\
  revs_are fs2 ((l ++ [y]) ++ [(flat p, <[SVN_PROP_REVISION_DATE := date]> (t_props t))]) /\
  transactions fs2 = transactions fs.
Proof.
  destruct commit_reads as (_ & _ & _ & (rn & j & E4 & Hid)).
  assert (stored_nid p) as Hsp by apply Hp.
  destruct (ta_name fs mt next (txn_id obj) Ht) as [Hn _]; [by exists t|].
  destruct (get_txn_ok fs (txn_id obj) t Hn (ta_some _ _ _ Ht _ _ Hm)) as (s & Es & Hs & Hf).
  destruct (new_revision_ok s (t_props t)) as (s' & En & Hs' & Hf' & He'); [by destruct t|done|by apply Hsm|by apply rev_id_nid|].
  assert (skel_storable s') as Hst by (apply skel_fits_small; [done|unfold two64; lia]).
  pose proof Hl as (Hnr & _ & Hat).
  destruct (put_rev_ok fs s' (flat p) (t_props t)) as (fs1 & Ep & Hnew & Hnext & Hold & Hsame);
    [by apply rev_id_nid|done|done|lia|].
  assert (rev_small fs1 (next_rev fs)) as Hsm1.
  { intros s1 E1. pose proof (put_rev_value s' _ fs1 Hf' Ep) as Hg. destruct Hnew as (Hr & _).
    unfold svn_fs__get_rev in E1. rewrite recno_small in E1 by done. destruct (_ =? 0); [done|].
    destruct (parse_skel_text s' (proj1 Hst) (proj2 Hst)) as (s2 & Hps & Eq).
    rewrite reading_bind, Hg, Hps in E1. destruct (is_valid_filesystem_revision s2); [|done]. injection E1 as ->.
    by rewrite (estimate_equiv _ _ Eq). }
  destruct (set_rev_prop_ok fs1 (next_rev fs) (flat p) (t_props t) SVN_PROP_REVISION_DATE (Some date))
    as (fs2 & Ed & Hdated & Hnext2 & Hold2 & Hsame2); [done|change (length SVN_PROP_REVISION_DATE) with 8%nat; cbn; lia|done|].
  exists rn, fs2. split; [|split].
  - intros A k. rewrite (state_bind_step _ _ _ _ _ E4), Hid, unparse_id_text, lift_bind
      by (by apply nid_comps_flat, stored_comps).
    rewrite (state_bind_step _ _ _ _ _ Es), En, lift_bind, (state_bind_step _ _ _ _ _ Ep).
    by rewrite (state_bind_step _ _ _ _ _ Ed), Hnr.
  - split; [rewrite Hnext2, Hnext, Hnr, (length_app (l ++ [y])); simpl; lia|].
    split; [rewrite (length_app (l ++ [y])); simpl; lia|]. intros i x Hx.
    apply lookup_app_Some in Hx as [Hx|[Hge Hx]].
    + apply Hold2; [apply lookup_lt_Some in Hx; lia|]. by apply Hold, Hat.
    + apply list_lookup_singleton_Some in Hx as [Hi <-]. replace (Z.of_nat i) with (next_rev fs) by lia. done.
  - injection Hsame2 as _ -> _ _. by injection Hsame as _ -> _ _.
Qed.

Lemma commit_result v fs' : txn_body_commit fuel digest_memory date obj fs = (Ok v, fs') ->
  y.1 = t_base t /\ v = Z.of_nat (length (l ++ [y])) /\
  revs_are fs' ((l ++ [y]) ++ [(t_root t, <[SVN_PROP_REVISION_DATE := date]> (t_props t))]) /\
  txns_are fs' (delete (txn_id obj) mt) next.
Proof.
  destruct (decide (y.1 = t_base t)) as [Hy|Hy].
  2: { intros E. pose proof (commit_out_of_date Hy) as E'. unfold run_trail in E'. by rewrite E in E'. }
  destruct commit_reads as (E1 & E2 & (bn & j & E3 & Hid) & _).
  destruct commit_started as (root & fs2 & Hk & Hrevs & Htx). intros E. split; [done|].
  unfold txn_body_commit in E. cbv zeta in E.
  rewrite (state_bind_step _ _ _ _ _ E1), (state_bind_step _ _ _ _ _ E2), (state_bind_step _ _ _ _ _ E3), Hid, <- Hbase in E.
  destruct (Hl) as (_ & _ & Hat). destruct (Hat (length l) y) as (_ & (_ & _ & Hyc) & _); [by rewrite list_lookup_middle|].
  rewrite id_eq_text, lift_bind, bool_decide_true in E by (done || apply (ta_some _ _ _ Ht _ _ Hm)). cbn [negb] in E.
  unfold svn_fs__dag_commit_txn in E.
  rewrite (Hk _ (λ root new_rev, stabilize_node fuel digest_memory fuel root new_rev;;
    svn_fs__delete_txn (txn_id obj);; mret new_rev)) in E.
  apply state_bind_Ok in E as ([] & fs3 & Est & E). apply state_bind_Ok in E as ([] & fs4 & Ed & E).
  injection E as <- <-.
  pose proof (keeps_stabilize_node (λ fs, (revisions fs, transactions fs)) fuel digest_memory fuel root
    (Z.of_nat (length (l ++ [y]))) fs2) as Hs. rewrite Est in Hs. injection Hs as Hs1 Hs2.
  assert (txns_are fs3 mt next) as Ht3 by (by apply (txns_are_same fs); [rewrite Hs2|]).
  destruct (delete_txn_ok fs3 mt next _ t Ht3 Hm) as (fs5 & Ed' & Ht5).
  assert (fs5 = fs4) as -> by congruence. split; [done|]. split; [|done].
  pose proof (keeps_delete_txn revisions (txn_id obj) fs3) as Hd. rewrite Ed' in Hd. cbn [snd] in Hd.
  apply (revs_are_same fs2); [by rewrite Hd|by rewrite Hroot].
Qed.

(** C11. [txn_body_commit] appends to the history, or does nothing.  When the base of
    the transaction is not the root of the youngest revision, it fails with
    SVN_ERR_TXN_OUT_OF_DATE.  Whenever it succeeds, the base was that root; the
    transaction has become the next revision, with the root and the properties of
    the transaction and the date of the commit; every earlier revision is as it
    was; and the transaction is gone, the other ones being as they were.  Any other
    outcome leaves the filesystem as it was. *)
Theorem commit_appends :
  (y.1 <> t_base t ->
     run_trail (txn_body_commit fuel digest_memory date obj) fs = (Err SVN_ERR_TXN_OUT_OF_DATE, fs)) /\
  match run_trail (txn_body_commit fuel digest_memory date obj) fs with
  | (Ok v, fs') =>
      y.1 = t_base t /\ v = Z.of_nat (length (l ++ [y])) /\
      revs_are fs' ((l ++ [y]) ++ [(t_root t, <[SVN_PROP_REVISION_DATE := date]> (t_props t))]) /\
      txns_are fs' (delete (txn_id obj) mt) next
  | (_, fs') => fs' = fs
  end.
Proof.
  split; [apply commit_out_of_date|]. unfold run_trail.
  destruct (txn_body_commit fuel digest_memory date obj fs) as [[v|e| |] fs'] eqn:E; try done.
  by apply commit_result.
Qed.
End commit.

(** ** The loop of [svn_fs_commit_txn] *)

Section commit_loop.
Context `{db : BerkeleyDB} {ctx : Type} `{m : Md5 ctx bytes}.
Context (fuel : nat) (digest_memory : bytes) (hash_order : gmap bytes dirent -> list (bytes * dirent)).
Context (others : nat -> svn_fs_t -> svn_fs_t) (date : nat -> bytes).

(** An attempt during which nobody else commits does not have to be repeated. *)
Lemma attempt_decides i obj fs : (forall k fs, (6 * i <= k)%nat -> revisions (others k fs) = revisions fs) ->
  (commit_attempt fuel digest_memory hash_order others date i obj fs).1 <> Ok None.
Proof.
  intros Ho E0. destruct (commit_attempt _ _ _ _ _ _ _ _) as [r fs'] eqn:E. cbn [fst] in E0. subst r.
  unfold commit_attempt in E. cbv zeta in E.
  assert (forall A (mm : trail A) fs a fs1, keeps revisions mm -> mm fs = (Ok a, fs1) -> revisions fs1 = revisions fs) as Hk.
  { intros A mm fs0 a fs1 Hm E1. specialize (Hm fs0). by rewrite E1 in Hm. }
  assert (forall k, (6 * i <= k)%nat -> keeps revisions (between others k)) as Hb by (intros k Hk' fs0; by apply Ho).
  apply state_bind_Ok in E as ([] & fs1 & E1 & E). apply state_bind_Ok in E as (yr & fs2 & E2 & E).
  apply state_bind_Ok in E as ([] & fs3 & E3 & E). apply state_bind_Ok in E as (root & fs4 & E4 & E).
  apply state_bind_Ok in E as ([] & fs5 & E5 & E). apply state_bind_Ok in E as (node & fs6 & E6 & E).
  apply state_bind_Ok in E as ([] & fs7 & E7 & E). apply state_bind_Ok in E as ([] & fs8 & E8 & E).
  apply state_bind_Ok in E as ([] & fs9 & E9 & E).
  apply Hk in E3; [|apply Hb; lia]. apply Hk in E4; [|eauto with keeps]. apply Hk in E5; [|apply Hb; lia].
  apply Hk in E6; [|apply keeps_run_trail; eauto with keeps]. apply Hk in E7; [|apply Hb; lia].
  apply Hk in E8; [|apply keeps_run_trail; eauto with keeps]. apply Hk in E9; [|apply Hb; lia].
  assert (revisions fs9 = revisions fs2) as Hr9 by congruence.
  unfold try_commit in E. destruct (run_trail (txn_body_commit _ _ _ _) fs9) as [r fs10] eqn:E10.
  unfold run_trail in E10. destruct (txn_body_commit _ _ _ _ fs9) as [[v|e| |] fs10']; injection E10 as <- <-;
    cbn [after_commit] in E; try done.
  destruct e; try done. apply state_bind_Ok in E as ([] & fs11 & E11 & E). apply state_bind_Ok in E as (yr2 & fs12 & E12 & E).
  apply Hk in E11; [|apply Hb; lia].
  assert (revisions fs11 = revisions fs1) as Hr.
  { rewrite E11, Hr9. apply (Hk _ _ _ _ _ (keeps_run_trail _ _ (keeps_youngest_rev revisions)) E2). }
  assert (yr2 = yr) as ->; [|by rewrite Z.eqb_refl in E].
  unfold run_trail, svn_fs__youngest_rev in E2, E12. rewrite reading_bind in E2, E12. rewrite Hr in E12.
  destruct (rc_last (revisions fs1)); [|done]. cbn in E2, E12. congruence.
Qed.

Lemma commit_loop_turns n i obj fs :
  (forall k fs, (6 * (i + n) <= k)%nat -> revisions (others k fs) = revisions fs) ->
  svn_fs_commit_txn fuel digest_memory hash_order others date (S n) i obj fs <> None.
Proof.
  revert i fs. induction n as [|n IH]; intros i fs Ho; cbn [svn_fs_commit_txn].
  - pose proof (attempt_decides i obj fs) as Ha. specialize (Ha ltac:(intros; apply Ho; lia)).
    destruct (commit_attempt _ _ _ _ _ _ _ _) as [[[v|]|e| |] fs']; done.
  - destruct (commit_attempt _ _ _ _ _ _ _ _) as [[[v|]|e| |] fs']; try done.
    apply (IH (S i)). intros k fs0 Hk. apply Ho. lia.
Qed.

(** C13. The [while] loop of [svn_fs_commit_txn] ends: when the other processes
    commit nothing any more from the attempt number [n] on, the loop is left by the
    end of that attempt, whatever the transaction is and however the other
    processes change the tables of nodes, strings and transactions meanwhile. *)
Theorem commit_loop_ends n obj fs :
  (forall k fs, (6 * n <= k)%nat -> revisions (others k fs) = revisions fs) ->
  exists r fs', svn_fs_commit_txn fuel digest_memory hash_order others date (S n) 0 obj fs = Some (r, fs').
Proof.
  intros Ho. pose proof (commit_loop_turns n 0 obj fs Ho) as H.
  destruct (svn_fs_commit_txn _ _ _ _ _ _ _ _ _) as [[r fs']|]; [by eexists _, _|done].
Qed.
End commit_loop.

(** ** Witnesses *)

Section sample.
#[local] Existing Instance mem_db.
#[local] Existing Instance keep_all.

Definition txn0 : bytes := bstr "0".
Definition root_and_base : txn := mk_txn [0; 1] [0; 0] ∅.
Definition txns_1 : svn_fs_t := (svn_fs__create_txn [0; 0; -1] (fresh_fs 0)).2.
Definition txns_2 : svn_fs_t := (svn_fs__set_txn_root txn0 [0; 1; -1] txns_1).2.

(** The first revision, and a transaction with a root of its own. *)
Definition begun : svn_fs_t :=
  mk_fs (nodes fs_1) (revisions rev0_fs) (transactions txns_2) (representations fs_1) (strings fs_1).

Lemma id_pair_ok n v : 0 <= n <= 100000000 -> 0 <= v <= 100000000 -> id_ok [n; v].
Proof. intros Hn Hv. split; [done|]. repeat (apply list.Forall_cons; split; [exact Hn || exact Hv|]). constructor. Qed.

Lemma txns_2_are : txns_are txns_2 {[txn0 := root_and_base]} 1.
Proof.
  destruct (create_txn_ok (fresh_fs 0) ∅ 0 [0; 0] []) as (f1 & E1 & _ & H1); [by apply fresh_are|done|by apply id_pair_ok|done|].
  assert (f1 = txns_1) as -> by (unfold txns_1; change [0; 0; -1] with ([0; 0] ++ [-1]); by rewrite E1).
  assert (txns_are txns_1 {[txn0 := mk_txn [0; 0] [0; 0] ∅]} 1) as H1' by exact H1.
  assert (({[txn0 := mk_txn [0; 0] [0; 0] ∅]} : gmap bytes txn) !! txn0 = Some (mk_txn [0; 0] [0; 0] ∅)) as Hm
    by apply lookup_singleton_eq.
  destruct (set_root_ok txns_1 _ 1 txn0 _ [0; 1] [] H1' Hm) as (f2 & E2 & H2); [|by apply id_pair_ok|done|].
  - intros s Es. apply (f_equal fst) in Es. vm_compute in Es. injection Es as <-. by vm_compute.
  - assert (f2 = txns_2) as -> by (unfold txns_2; change [0; 1; -1] with ([0; 1] ++ [-1]); by rewrite E2). cbn [t_base t_props] in H2.
    by rewrite insert_singleton_eq in H2.
Qed.

Lemma begun_small : txn_small begun txn0.
Proof. intros s Es. apply (f_equal fst) in Es. vm_compute in Es. injection Es as <-. by vm_compute. Qed.

Lemma begun_nodes : node_at begun [(0, 0)] root_rec /\ node_at begun [(0, 1)] (new_rec true).
Proof.
  split.
  - split; [by apply stored_pair|]. split; [apply root_ok|]. by eexists _, _.
  - split; [by apply stored_pair|]. split; [apply (new_rec_ok true)|]. by eexists _, _.
Qed.

Definition begun_txn : svn_fs_txn_t := mk_txn_obj 0 txn0.
Definition now : bytes := bstr "Mon, 21 Jan 2002 12:00:00.000000 UTC".

(** The transaction becomes revision 1. *)
Lemma commit_appends_witness :
  exists fs' : svn_fs_t, run_trail (txn_body_commit 5 [] now begun_txn) begun = (Ok 1, fs') /\
    revs_are fs' [([0; 0], ∅); ([0; 1], {[SVN_PROP_REVISION_DATE := now]})] /\ txns_are fs' ∅ 1.
Proof.
  pose proof (commit_appends 5 [] now begun [] ([0; 0], ∅) {[txn0 := root_and_base]} 1 root_and_base
    [(0, 1)] [(0, 0)] (new_rec true) root_rec begun_txn) as H.
  destruct H as [_ H]; try done; try by apply begun_nodes.
  - apply (revs_are_same rev0_fs); [done|apply rev0_is].
  - apply (txns_are_same txns_2); [done|apply txns_2_are].
  - apply begun_small.
  - destruct (run_trail _ _) as [r fs'] eqn:E.
    assert (r = Ok 1) as -> by (change r with (r, fs').1; rewrite <- E; by vm_compute).
    destruct H as (_ & _ & Hr & Ht). exists fs'. split; [done|].
    change (txn_id begun_txn) with txn0 in Ht. rewrite delete_singleton_eq in Ht. by split.
Defined.

(** The other processes set the property of a transaction, then nothing. *)
Definition meddling (k : nat) : svn_fs_t -> svn_fs_t :=
  if (k <? 6)%nat then λ fs, (txn_body_change_txn_prop txn0 (bstr "svn:log") (Some (bstr "x")) fs).2 else λ fs, fs.

Lemma commit_loop_ends_witness :
  exists r fs', svn_fs_commit_txn 5 [] map_to_list meddling (λ _, now) 2 0 begun_txn begun = Some (r, fs').
Proof.
  apply (commit_loop_ends 5 [] map_to_list meddling (λ _, now) 1 begun_txn begun).
  intros k fs Hk. unfold meddling. rewrite (proj2 (Nat.ltb_ge _ _)) by lia. done.
Defined.
End sample.
