(* ===== verification/TreeOk.v ===== *)
(** * Paths lead to nodes ([libsvn_fs/tree.c])

    What [open_path] finds is what walking the directories finds: the components of
    a path are followed one by one through the entries of directories, slashes may
    be repeated, and a path that ends in a slash has to name a directory. *)

From S2P Require Import Prelude Types KeyGen Libc Skel Proplist Id Stream Db NodeKeys Fs RevTable TxnTable NodesTable Strings.
From S2P Require Import TextDelta Vdelta Svndiff TxStream Reps RepOps SvnString Path Sorts Dag NodeRec DagOk.
From S2P Require Import Deltify Commit Tree Merge Frame.

(** ** The components of a path *)

Definition emit (c : bytes) : list bytes := if decide (c = []) then [] else [c].

(** [c]: the component that is being read. *)
Fixpoint split_path (c s : bytes) : list bytes :=
  match s with
  | [] => emit c
  | x :: s => if byte_eq_dec x sep then emit c ++ split_path [] s else split_path (c ++ [x]) s
  end.

Definition components (path : bytes) : list bytes := split_path [] path.

(** The path ends in a slash. *)
Definition slash_ended (path : bytes) : bool := ends_with path sep.

Lemma split_path_app c d s : sep ∉ d -> split_path c (d ++ s) = split_path (c ++ d) s.
Proof.
  revert c. induction d as [|x d IH]; intros c Hd; [by rewrite app_nil_r|].
  apply not_elem_of_cons in Hd as [Hx Hd]. cbn [app split_path]. destruct (byte_eq_dec x sep) as [->|_]; [done|].
  rewrite (IH (c ++ [x]) Hd). by rewrite <- app_assoc.
Qed.

Lemma skip_slashes_split s : components (skip_slashes s) = components s.
Proof.
  induction s as [|x s IH]; [done|]. cbn [skip_slashes]. destruct (byte_eq_dec x sep) as [->|]; [|done].
  unfold components in *. cbn [split_path]. by destruct (byte_eq_dec sep sep).
Qed.

Lemma split_path_ne c s : c <> [] -> split_path c s <> [].
Proof.
  revert c. induction s as [|x s IH]; intros c Hc; cbn [split_path]; unfold emit; [by rewrite decide_False|].
  destruct (byte_eq_dec x sep); [by rewrite decide_False|]. apply IH. by destruct c.
Qed.

Lemma components_skip s : components (skip_slashes s) = [] -> skip_slashes s = [].
Proof.
  induction s as [|x s IH]; [done|]. cbn [skip_slashes]. destruct (byte_eq_dec x sep) as [->|Hx]; [done|].
  unfold components. cbn [split_path]. destruct (byte_eq_dec x sep); [done|]. intros H.
  by apply split_path_ne in H.
Qed.

Lemma skip_slashes_suffix s : exists t, s = t ++ skip_slashes s /\ Forall (λ c, c = sep) t.
Proof.
  induction s as [|x s (t & E & Ht)]; [by exists []|]. cbn [skip_slashes]. destruct (byte_eq_dec x sep) as [->|].
  - exists (sep :: t). cbn. split; [by f_equal|by constructor].
  - by exists [].
Qed.

Lemma strchr_ok s : no_nul s ->
  match strchr s sep with
  | None => sep ∉ s
  | Some i => exists a b, s = a ++ sep :: b /\ length a = i /\ sep ∉ a
  end.
Proof.
  induction 1 as [|x s Hx Hs IH]; cbn [strchr]; [apply not_elem_of_nil|].
  destruct (byte_eq_dec x NUL); [done|]. destruct (byte_eq_dec x sep) as [->|Hne].
  - exists [], s. split; [done|]. split; [done|apply not_elem_of_nil].
  - destruct (strchr s sep) as [i|]; cbn.
    + destruct IH as (a & b & -> & <- & Ha). exists (x :: a), b. split; [done|]. split; [done|].
      by apply not_elem_of_cons.
    + by apply not_elem_of_cons.
Qed.

(** What [next_entry_name] finds. *)
Lemma next_entry_ok path : no_nul path ->
  match next_entry_name path with
  | (e, None) => no_nul e /\ e = path /\ components path = emit e /\ slash_ended path = false
  | (e, Some rest) =>
      no_nul e /\ components path = emit e ++ components rest /\ (length rest < length path)%nat /\ no_nul rest /\
      (components rest = [] -> rest = []) /\ slash_ended path = (bool_decide (rest = []) || slash_ended rest)%bool
  end.
Proof.
  intros Hn. unfold next_entry_name. pose proof (strchr_ok path Hn) as H.
  destruct (strchr path sep) as [i|].
  - destruct H as (a & b & -> & <- & Ha). rewrite take_app_length, drop_app_length.
    destruct (skip_slashes_suffix (sep :: b)) as (t & E & Ht). set (r := skip_slashes (sep :: b)) in *.
    assert (length r < length (sep :: b))%nat as Hlt.
    { unfold r. cbn [skip_slashes].
      destruct (skip_slashes_suffix b) as (t' & E' & _). apply (f_equal length) in E'. rewrite length_app in E'.
      destruct (byte_eq_dec sep sep); [cbn [length]; lia|done]. }
    split; [by apply Forall_app in Hn as [? _]|split; [|split; [|split; [|split]]]].
    + unfold components. rewrite split_path_app by done. cbn [app]. unfold r. cbn [split_path skip_slashes].
      destruct (byte_eq_dec sep sep); [|done]. f_equal. symmetry. apply skip_slashes_split.
    + rewrite length_app. lia.
    + apply Forall_app in Hn as [_ Hn]. rewrite E in Hn. by apply Forall_app in Hn as [_ Hn].
    + apply components_skip.
    + unfold slash_ended, ends_with. rewrite E, app_assoc. destruct r as [|x r].
      * rewrite app_nil_r, bool_decide_true by done. cbn [orb].
        destruct t as [|y t] using rev_ind; [by rewrite app_nil_r in E|].
        rewrite app_assoc, last_snoc. apply Forall_app in Ht as [_ Ht]. apply Forall_cons_iff in Ht as [-> _].
        by rewrite bool_decide_true.
      * rewrite bool_decide_false, last_app_cons by done. done.
  - rewrite strlen_ok, firstn_all by done. split; [done|]. split; [done|]. split.
    + unfold components. rewrite <- (app_nil_r path) at 1. by rewrite split_path_app.
    + unfold slash_ended, ends_with. destruct (list.last path) as [c|] eqn:E; [|done].
      apply bool_decide_false. intros ->. apply H. apply last_Some in E as [l' ->]. apply elem_of_app. right. by left.
Qed.

(** ** Walking the directories *)

(** What following the components of a path from a directory comes to. *)
Inductive found :=
  | Found (q : nid) (t : node_rec)
  | Missing (last : bool)
  | Blocked.

(** The names below the node a parent path starts from, the last one first. *)
Fixpoint pp_names (pp : parent_path_t) : list bytes :=
  match pp with
  | make_parent_path _ (Some entry) (Some parent) => entry :: pp_names parent
  | _ => []
  end.

Section walk.
Context `{db : BerkeleyDB} {ctx : Type} `{m : Md5 ctx bytes}.
Context (fuel : nat) (fs : svn_fs_t).

(** [slash]: the path ends in a slash. *)
Inductive walks : nid -> node_rec -> list bytes -> bool -> found -> Prop :=
  | Walks_end p r slash : walks p r [] slash (Found p r)
  | Walks_missing p r es c cs slash :
      entries_at fuel fs r es -> es !! c = None -> walks p r (c :: cs) slash (Missing (bool_decide (cs = [])))
  | Walks_last p r es c q t :
      entries_at fuel fs r es -> svn_fs__is_single_path_component c = true ->
      es !! c = Some (id_text (flat q)) -> node_at fs q t -> walks p r [c] false (Found q t)
  | Walks_blocked p r es c cs slash q t :
      entries_at fuel fs r es -> svn_fs__is_single_path_component c = true ->
      es !! c = Some (id_text (flat q)) -> node_at fs q t -> cs <> [] \/ slash = true ->
      nr_kind t <> svn_node_dir -> walks p r (c :: cs) slash Blocked
  | Walks_step p r es c cs slash q t res :
      entries_at fuel fs r es -> svn_fs__is_single_path_component c = true ->
      es !! c = Some (id_text (flat q)) -> node_at fs q t -> cs <> [] \/ slash = true ->
      nr_kind t = svn_node_dir -> walks q t cs slash res -> walks p r (c :: cs) slash res.

(** How the result of [open_path] shows what was found. *)
Definition opens (root : svn_fs_root_t) (last_optional : bool) (names : list bytes)
    (res : found) (out : outcome parent_path_t * svn_fs_t) : Prop :=
  match res with
  | Found q t => exists pp node, out = (Ok pp, fs) /\ pp_node pp = Some node /\ node_for fs node q t /\ pp_names pp = names
  | Missing last =>
      if last_optional && last then exists pp, out = (Ok pp, fs) /\ pp_node pp = None /\ pp_names pp = names
      else out = (not_found root, fs)
  | Blocked => out = (Err SVN_ERR_FS_NOT_DIRECTORY, fs)
  end.


Lemma open_entry_ok node p r es name :
  node_for fs node p r -> entries_at fuel fs r es ->
  match es !! name with
  | None => exists node', open_entry fuel node name fs = (Ok (None, node'), fs) /\ node_for fs node' p r
  | Some id => forall q t, id = id_text (flat q) -> node_at fs q t -> svn_fs__is_single_path_component name = true ->
      exists child node', open_entry fuel node name fs = (Ok (Some child, node'), fs) /\ node_for fs child q t /\
        node_for fs node' p r
  end.
Proof.
  intros Hn He. destruct (es !! name) as [id|] eqn:E.
  - intros q t -> Ht Hname. destruct (dag_open_ok fuel fs node p r es name q t Hn He Hname E Ht) as (c & node' & Eo & Hc & Hn' & _).
    exists c, node'. unfold open_entry. by rewrite Eo.
  - destruct (get_node_revision_cached fs node p r Hn) as (s & node' & Eg & _ & Hn' & _). exists node'. split; [|done].
    unfold open_entry. rewrite (dag_open_missing fuel fs node p r es name Hn He E).
    by rewrite (state_bind_step _ _ _ _ _ Eg).
Qed.

(** The last component: nothing is left of the path. *)
Lemma path_done_ok rest next : no_nul rest -> (components rest = [] -> rest = []) -> next = Some rest ->
  path_done next = bool_decide (components rest = []).
Proof.
  intros Hn Hr ->. cbn [path_done]. rewrite strlen_ok by done. case_bool_decide as H; [by rewrite (Hr H)|].
  destruct rest; [done|]. done.
Qed.

Lemma is_directory_for node p r : node_for fs node p r -> svn_fs__dag_is_directory node = bool_decide (nr_kind r = svn_node_dir).
Proof. intros Hn. unfold svn_fs__dag_is_directory. by rewrite (nf_kind _ _ _ _ Hn). Qed.

Lemma emit_nonempty c : c <> [] -> emit c = [c].
Proof. intros H. unfold emit. by rewrite decide_False. Qed.

Lemma empty_string_ne c : no_nul c -> c <> [] -> empty_string c = false.
Proof. intros Hc H. unfold empty_string. rewrite strlen_ok by done. by destruct c. Qed.

(** Nothing follows the component, or something does: what is left of the walk. *)
Definition after (e : bytes) (next : option bytes) (cs : list bytes) (slash : bool) : Prop :=
  match next with
  | None => cs = [] /\ slash = false
  | Some rest => cs = components rest /\ (components rest = [] -> rest = []) /\ no_nul rest /\
                 (rest = [] /\ slash = true \/ rest <> [] /\ slash = slash_ended rest)
  end.

Lemma after_next e next rest slash : no_nul rest -> next_entry_name rest = (e, next) -> e <> [] -> slash = slash_ended rest ->
  no_nul e /\ components rest = e :: match next with Some r => components r | None => [] end /\
  after e next match next with Some r => components r | None => [] end slash /\
  match next with Some r => (length r < length rest)%nat | None => True end.
Proof.
  intros Hn E He ->. pose proof (next_entry_ok rest Hn) as H. rewrite E in H. destruct next as [r|].
  - destruct H as (Hne & Hc & Hl & Hr & Hcr & Hs). rewrite emit_nonempty in Hc by done. split; [done|]. split; [done|].
    split; [|done]. split; [done|]. split; [done|]. split; [done|]. rewrite Hs. case_bool_decide; [by left|by right].
  - destruct H as (Hne & -> & Hc & Hs). rewrite emit_nonempty in Hc by done. done.
Qed.

Lemma after_done e next cs slash : after e next cs slash -> path_done next = bool_decide (cs = []).
Proof.
  destruct next as [r|]; [|by intros [-> _]]. intros (-> & Hr & Hn & _). by apply (path_done_ok r (Some r)).
Qed.

Lemma walks_cons p r e cs slash res : walks p r (e :: cs) slash res ->
  exists es, entries_at fuel fs r es /\
    (es !! e = None /\ res = Missing (bool_decide (cs = [])) \/
     exists q t, es !! e = Some (id_text (flat q)) /\ node_at fs q t /\ svn_fs__is_single_path_component e = true /\
       (cs = [] /\ slash = false /\ res = Found q t \/
        (cs <> [] \/ slash = true) /\
        (nr_kind t <> svn_node_dir /\ res = Blocked \/ nr_kind t = svn_node_dir /\ walks q t cs slash res))).
Proof.
  intros H. inversion H; subst; exists es; (split; [done|]); 
    [by left|right; exists q, t; (split; [done|]); (split; [done|]); (split; [done|])..].
  - by left.
  - right. split; [done|by left].
  - right. split; [done|by right].
Qed.

Lemma opens_names root o names names' res out : names = names' -> opens root o names res out -> opens root o names' res out.
Proof. by intros ->. Qed.

Lemma not_found_bind {A B} root (f : A -> trail B) : (lift (not_found root) ≫= f) fs = (not_found root, fs).
Proof. unfold not_found. by destruct (svn_fs_is_txn_root root), (svn_fs_is_revision_root root). Qed.

Lemma names_set_node node pp : pp_names (set_pp_node node pp) = pp_names pp.
Proof. by destruct pp as [? [] []]. Qed.

Lemma open_path_loop_ok n root last_optional : forall rest here pp p r slash res,
  (length rest < n)%nat -> no_nul rest -> node_for fs here p r -> pp_node pp = Some here ->
  nr_kind r = svn_node_dir -> rest = [] \/ slash = slash_ended rest ->
  walks p r (components rest) slash res ->
  opens root last_optional (reverse (components rest) ++ pp_names pp) res
    (open_path_loop fuel n root last_optional here pp rest fs).
Proof.
  induction n as [|n IH]; intros rest here pp p r slash res Hlen Hnul Hhere Hpp Hdir Hslash Hw; [lia|].
  cbn [open_path_loop]. destruct (next_entry_name rest) as [e next] eqn:Enext.
  destruct (decide (e = [])) as [->|He].
  - pose proof (next_entry_ok rest Hnul) as Hnext. rewrite Enext in Hnext.
    change (empty_string []) with true. cbv iota. rewrite ret_bind. destruct next as [rest'|].
    + destruct Hnext as (_ & Hc & Hl & Hn' & Hr & Hs). rewrite (is_directory_for here p r Hhere), bool_decide_true by done.
      cbn [negb]. rewrite Hc in Hw |- *. cbn [emit decide app] in Hw |- *.
      apply (IH rest' here pp p r slash res); try done; [lia|].
      destruct Hslash as [-> | ->]; [done|]. rewrite Hs. case_bool_decide; [by left|by right].
    + destruct Hnext as (_ & <- & Hc & _). cbn in Hw. inversion Hw; subst. cbn [opens]. by exists pp, here.
  - destruct Hslash as [->|Hslash]; [by injection Enext as <- <- |].
    destruct (after_next e next rest slash Hnul Enext He Hslash) as (Hne & Hc & Ha & Hl).
    rewrite Hc in Hw |- *. rewrite (empty_string_ne e Hne He). set (cs := match next with Some r => components r | None => [] end) in *.
    rewrite reverse_cons, <- app_assoc. cbn [app].
    apply walks_cons in Hw as (es & Hes & [[Hm ->]|(q & t & Hm & Ht & Hsingle & Hw)]);
      pose proof (open_entry_ok here p r es e Hhere Hes) as Ho; rewrite Hm in Ho.
    + destruct Ho as (here' & Eo & Hn'). rewrite bind_assoc.
      rewrite (state_bind_step _ _ _ _ _ Eo). cbn beta iota zeta. rewrite (after_done _ _ _ _ Ha). cbn [opens].
      destruct (last_optional && bool_decide (cs = [])) eqn:El.
      * rewrite ret_bind. eexists. split; [by destruct next|]. split; [done|]. cbn [pp_names]. rewrite names_set_node.
        apply andb_true_iff in El as [_ ->%bool_decide_eq_true]. done.
      * apply not_found_bind.
    + destruct (Ho q t) as (child & here' & Eo & Hchild & Hhere'); try done.
      rewrite bind_assoc, (state_bind_step _ _ _ _ _ Eo). cbn beta iota zeta. rewrite ret_bind.
      destruct Hw as [(Hcs & -> & ->)|[Hnil [[Hkind ->]|[Hkind Hw]]]].
      * destruct next as [rest'|]; [destruct Ha as (-> & Hr & _ & [[Hf ?]|[Hf _]]); [done|by rewrite Hcs in Hr; destruct (Hf (Hr eq_refl))]|].
        cbn [opens]. eexists _, child. split; [done|]. split; [done|]. split; [done|]. cbn [pp_names].
        by rewrite names_set_node, Hcs.
      * destruct next as [rest'|]; [|by destruct Ha as [Hc1 Hs1], Hnil as [Hx|Hx]; [destruct (Hx Hc1)|rewrite Hs1 in Hx]]. rewrite (is_directory_for child q t Hchild), bool_decide_false by done. done.
      * destruct next as [rest'|]; [|by destruct Ha as [Hc1 Hs1], Hnil as [Hx|Hx]; [destruct (Hx Hc1)|rewrite Hs1 in Hx]]. rewrite (is_directory_for child q t Hchild), bool_decide_true by done.
        cbn [negb]. destruct Ha as (Ecs & _ & Hn' & Hs). rewrite Ecs in Hw |- *.
        eapply opens_names; [|apply (IH rest' child _ q t slash res); try done].
        -- cbn [pp_names]. by rewrite names_set_node.
        -- lia.
        -- destruct Hs as [[-> _]|[_ ->]]; [by left|by right].
Qed.
End walk.

Section properties.
Context `{db : BerkeleyDB} {ctx : Type} `{m : Md5 ctx bytes}.
Context (fuel : nat).

Lemma run_trail_same {A} (body : trail A) fs o : body fs = (o, fs) -> run_trail body fs = (o, fs).
Proof. intros E. unfold run_trail. rewrite E. by destruct o. Qed.

Lemma not_found_err {A} root : svn_fs_is_id_root root = false -> svn_fs_is_txn_root root \/ svn_fs_is_revision_root root ->
  not_found (A := A) root = Err SVN_ERR_FS_NOT_FOUND.
Proof. intros _ H. unfold not_found. destruct (svn_fs_is_txn_root root), (svn_fs_is_revision_root root); by destruct H. Qed.

Lemma check_path_ok fs root path o :
  get_dag fuel root path fs = (o, fs) -> (exists node, o = Ok node) \/ (exists e, o = Err e) ->
  svn_fs_check_path fuel root path fs = (Ok match o with Ok node => node_kind node | _ => svn_node_none end, fs).
Proof.
  intros E Ho. unfold svn_fs_check_path, txn_body_node_kind, run_trail, mbind, state_bind. rewrite E.
  by destruct Ho as [[? ->]|[? ->]].
Qed.

Lemma not_id_root root : svn_fs_is_txn_root root \/ svn_fs_is_revision_root root -> svn_fs_is_id_root root = false.
Proof.
  unfold svn_fs_is_id_root, svn_fs_is_txn_root, svn_fs_is_revision_root. by destruct (kind root); intros [].
Qed.

Lemma opens_ok fs root here p r path lo res :
  svn_fs_is_txn_root root \/ svn_fs_is_revision_root root ->
  root_node root fs = (Ok here, fs) -> node_for fs here p r -> nr_kind r = svn_node_dir -> no_nul path ->
  walks fuel fs p r (components path) (slash_ended path) res ->
  opens fs root lo (reverse (components path)) res (open_path fuel root path lo fs).
Proof.
  intros Hroot Eroot Hhere Hdir Hnul Hw. unfold open_path. rewrite (not_id_root root Hroot), (state_bind_step _ _ _ _ _ Eroot).
  eapply opens_names; [|apply (open_path_loop_ok fuel fs _ root lo path here _ p r (slash_ended path) res); try done]; [|lia|by right].
  cbn [pp_names]. by rewrite app_nil_r.
Qed.

(** C12. A path names what following its components from the root comes to, one
    directory after the other, however many slashes separate them: [open_path] gives
    that node, with the components as the names along the way; an entry that does not
    exist is "not found", or no error for the last component where that is optional;
    a component that is followed by a slash has to be a directory.  The kind that
    [svn_fs_check_path] answers is that of this node, and "none" where there is none.
    Nothing in the filesystem is changed. *)
Theorem open_path_correct fs root here p r path last_optional res :
  svn_fs_is_txn_root root \/ svn_fs_is_revision_root root ->
  root_node root fs = (Ok here, fs) -> node_for fs here p r -> nr_kind r = svn_node_dir -> no_nul path ->
  walks fuel fs p r (components path) (slash_ended path) res ->
  opens fs root last_optional (reverse (components path)) res (open_path fuel root path last_optional fs) /\
  svn_fs_check_path fuel root path fs = (Ok match res with Found _ t => nr_kind t | _ => svn_node_none end, fs).
Proof.
  intros Hroot Eroot Hhere Hdir Hnul Hw. pose proof (not_id_root root Hroot) as Hid.
  assert (forall lo, opens fs root lo (reverse (components path)) res (open_path fuel root path lo fs)) as Ho
    by (intros lo; by apply (opens_ok fs root here p r)).
  split; [done|]. specialize (Ho false). destruct res as [q t|last|]; cbn [opens andb] in Ho.
  - destruct Ho as (pp & node & E & Hpp & Hn & _). rewrite (check_path_ok fs root path (Ok node)).
    + by rewrite (nf_kind _ _ _ _ Hn).
    + unfold get_dag. rewrite (state_bind_step _ _ _ _ _ E). by rewrite Hpp.
    + left. by exists node.
  - rewrite (not_found_err root Hid Hroot) in Ho. apply (check_path_ok fs root path (Err SVN_ERR_FS_NOT_FOUND)); [|right; by eexists].
    unfold get_dag, mbind, state_bind. by rewrite Ho.
  - apply (check_path_ok fs root path (Err SVN_ERR_FS_NOT_DIRECTORY)); [|right; by eexists]. unfold get_dag, mbind, state_bind. by rewrite Ho.
Qed.
End properties.

(** ** A witness *)

Section sample.
#[local] Existing Instance mem_db.

Definition sample_root : svn_fs_root_t := make_revision_root 0 (mk_node [0; 1; -1] svn_node_dir None).

Lemma open_path_correct_witness :
  svn_fs_check_path 500 sample_root (bstr "//a") fs_3 = (Ok svn_node_file, fs_3) /\
  svn_fs_check_path 500 sample_root (bstr "a/") fs_3 = (Ok svn_node_none, fs_3) /\
  open_path 500 sample_root (bstr "b/c") true fs_3 = (Err SVN_ERR_FS_NOT_FOUND, fs_3).
Proof.
  destruct fs_3_ok as (mk & here & Hn & He & _ & Hat & _).
  set (r := set_nr_key 1 mk (new_rec true)) in *.
  assert (svn_fs_is_txn_root sample_root \/ svn_fs_is_revision_root sample_root) as Hr by (right; by vm_compute).
  assert (node_for fs_3 (mk_node [0; 1; -1] svn_node_dir None) [(0, 1)] r) as Hroot.
  { split; [by exists []|apply (nf_at _ _ _ _ Hn)|done|done]. }
  assert (forall path lo res, no_nul path -> walks 500 fs_3 [(0, 1)] r (components path) (slash_ended path) res -> _) as H
    by exact (λ path lo res Hp Hw, open_path_correct 500 fs_3 sample_root _ [(0, 1)] r path lo res Hr eq_refl Hroot eq_refl Hp Hw).
  assert (svn_fs__is_single_path_component (bstr "a") = true) as Ha by (by vm_compute).
  assert (({[bstr "a" := id_text (flat [(1, 1)])]} : gmap bytes bytes) !! bstr "a" = Some (id_text (flat [(1, 1)]))) as Hl
    by apply lookup_singleton_eq.
  split; [|split].
  - refine (proj2 (H (bstr "//a") true (Found [(1, 1)] file_rec) _ _)); [repeat constructor; done|].
    exact (Walks_last _ _ _ _ _ _ _ _ He Ha Hl Hat).
  - refine (proj2 (H (bstr "a/") true Blocked _ _)); [repeat constructor; done|].
    refine (Walks_blocked _ _ _ _ _ _ [] _ _ _ He Ha Hl Hat _ _); [by right|done].
  - refine (proj1 (H (bstr "b/c") true (Missing false) _ _)); [repeat constructor; done|].
    refine (Walks_missing _ _ _ _ _ (bstr "b") [bstr "c"] _ He _). by rewrite lookup_singleton_ne.
Defined.
End sample.
