(* ===== verification/Xml.v ===== *)
(** * The text of attributes ([libsvn_subr/xml.c])

    The text that stands for a value in an attribute of an element, and the value that
    the parser gives back.  The parser is expat, a library, of which the repository has a
    copy: what it makes of the text of an attribute is a parameter, [Expat], and
    [ExpatLaws] is what XML 1.0 says of characters, references and white space in the
    value of an attribute, as far as it concerns ASCII. *)

From S2P Require Import Prelude.

Definition amp : bytes := bstr "&amp;".
Definition lt : bytes := bstr "&lt;".
Definition gt : bytes := bstr "&gt;".
Definition quot : bytes := bstr "&quot;".
Definition apos : bytes := bstr "&apos;".

(** The reference for a character that is not written as it is. *)
Definition xml_reference (c : byte) : option bytes :=
  if bz c =? 38 then Some amp
  else if bz c =? 60 then Some lt
  else if bz c =? 62 then Some gt
  else if bz c =? 34 then Some quot
  else if bz c =? 39 then Some apos
  else None.

(** [xml_escape]: what is appended to the string. *)
Fixpoint xml_escape (data : bytes) : bytes :=
  match data with
  | [] => []
  | c :: data => default [c] (xml_reference c) ++ xml_escape data
  end.

(** The texts of the attributes in the tag that [svn_xml_make_open_tag_hash] makes. *)
Definition svn_xml_make_open_tag_hash (attributes : gmap bytes bytes) : gmap bytes bytes := xml_escape <$> attributes.

(** ** The parser *)

(** The value of an attribute with this text between double quotes; [None] when the text
    is not well-formed. *)
Class Expat := attribute_value : bytes -> option bytes.

Definition space : byte := zb 32.

(** The characters of ASCII that are printed, the space among them. *)
Definition is_printable (c : byte) : bool := (32 <=? bz c) && (bz c <? 127).

(** Tabs and newlines. *)
Definition is_blank (c : byte) : bool := (bz c =? 9) || (bz c =? 10).

Class ExpatLaws (expat : Expat) : Prop := {
  value_empty : attribute_value [] = Some [];
  value_char c text : is_printable c = true -> bz c <> 38 -> bz c <> 60 -> bz c <> 34 ->
    attribute_value (c :: text) = cons c <$> attribute_value text;
  value_reference c ref text : xml_reference c = Some ref -> attribute_value (ref ++ text) = cons c <$> attribute_value text;
  value_blank c text : is_blank c = true -> attribute_value (c :: text) = cons space <$> attribute_value text;
}.

(** [svn_xml_parse] and [svn_xml_make_att_hash], on one element. *)
Definition parse_atts `{expat : !Expat} (texts : gmap bytes bytes) : outcome (gmap bytes bytes) :=
  if decide (map_Forall (λ _ text, is_Some (attribute_value text)) texts) then Ok (omap attribute_value texts)
  else Err SVN_ERR_MALFORMED_XML.

(** ** What is written is read *)

Definition printable (s : bytes) : Prop := Forall (λ c, is_printable c = true) s.

Lemma printable_no_nul s : printable s -> no_nul s.
Proof. intros H. refine (list.Forall_impl _ _ _ H _). intros c Hc ->. by vm_compute in Hc. Qed.

(** A newline is not escaped, and is read as a space. *)
Definition spaced (c : byte) : byte := if is_blank c then space else c.

Lemma attribute_text_read `{laws : ExpatLaws} s : Forall (λ c, is_printable c || is_blank c = true) s ->
  attribute_value (xml_escape s) = Some (spaced <$> s).
Proof.
  induction 1 as [|c s Hc Hs IH]; [apply value_empty|]. cbn [xml_escape fmap list_fmap]. unfold spaced at 1.
  destruct (xml_reference c) as [ref|] eqn:Er.
  - cbn [default]. rewrite (value_reference c ref) by done. rewrite IH.
    destruct (is_blank c) eqn:Eb; [|done]. exfalso. revert Er. unfold xml_reference. apply orb_true_iff in Eb as [Eb|Eb]; apply Z.eqb_eq in Eb; by rewrite Eb.
  - cbn [default app]. destruct (is_blank c) eqn:Eb; [by rewrite value_blank, IH|]. rewrite orb_false_r in Hc.
    rewrite value_char, IH; [done|done|..]; intros E; revert Er; unfold xml_reference; by rewrite E.
Qed.

Lemma spaced_printable s : printable s -> spaced <$> s = s.
Proof.
  induction 1 as [|c s Hc _ IH]; [done|]. cbn [fmap list_fmap]. f_equal; [|exact IH]. unfold spaced.
  destruct (is_blank c) eqn:E; [|done]. unfold is_blank, is_printable in *. apply andb_true_iff in Hc as [H1%Z.leb_le _].
  apply orb_true_iff in E as [E%Z.eqb_eq|E%Z.eqb_eq]; lia.
Qed.

Lemma attribute_roundtrip `{laws : ExpatLaws} s : printable s -> attribute_value (xml_escape s) = Some s.
Proof.
  intros H. rewrite attribute_text_read, spaced_printable; [done|done|]. refine (list.Forall_impl _ _ _ H _). by intros c ->.
Qed.

Lemma atts_roundtrip `{laws : ExpatLaws} (atts : gmap bytes bytes) : map_Forall (λ _ v, printable v) atts ->
  parse_atts (svn_xml_make_open_tag_hash atts) = Ok atts.
Proof.
  intros H. unfold parse_atts, svn_xml_make_open_tag_hash. rewrite decide_True.
  - f_equal. apply map_eq. intros k. rewrite lookup_omap, lookup_fmap. destruct (atts !! k) as [v|] eqn:E; [|done].
    cbn. apply attribute_roundtrip. by apply (H k).
  - intros k t. rewrite lookup_fmap. destruct (atts !! k) as [v|] eqn:E; [|done]. intros [= <-].
    rewrite attribute_roundtrip by (by apply (H k)). by eexists.
Qed.

(** ** An instance *)

(** The references that [xml_escape] writes. *)
Definition references : list (bytes * byte) := [(amp, zb 38); (lt, zb 60); (gt, zb 62); (quot, zb 34); (apos, zb 39)].

Definition find_reference (text : bytes) : option (byte * bytes) :=
  foldr (λ '(ref, c) r, if decide (ref `prefix_of` text) then Some (c, drop (length ref) text) else r) None references.

(** A parser of ASCII; the first argument bounds the number of characters. *)
Fixpoint ascii_value (n : nat) (text : bytes) : option bytes :=
  match n with
  | O => None
  | S n =>
      match text with
      | [] => Some []
      | c :: text' =>
          if bz c =? 38 then '(d, rest) ← find_reference text; cons d <$> ascii_value n rest
          else if (bz c =? 60) || (bz c =? 34) then None
          else if is_blank c then cons space <$> ascii_value n text'
          else if is_printable c then cons c <$> ascii_value n text'
          else None
      end
  end.

Definition ascii_expat : Expat := λ text, ascii_value (S (length text)) text.

Lemma ascii_value_more n : forall m text, (length text < n)%nat -> (length text < m)%nat -> ascii_value n text = ascii_value m text.
Proof.
  induction n as [|n IH]; intros [|m] text Hn Hm; try lia. cbn [ascii_value]. destruct text as [|c text']; [done|]. cbn [length] in *.
  rewrite (IH m text') by lia. destruct (bz c =? 38) eqn:E; [|done].
  destruct (find_reference (c :: text')) as [[d rest]|] eqn:Ef; [|done]. cbn [mbind option_bind]. rewrite (IH m rest); [done|..].
  all: assert (length rest <= length text')%nat; [|lia].
  all: revert Ef; unfold find_reference, references; cbn [foldr].
  all: repeat case_decide; intros [= _ <-]; rewrite length_drop; cbn; lia.
Qed.

Lemma ascii_step n x text c : find_reference (zb 38 :: x) = Some (c, text) ->
  ascii_value (S n) (zb 38 :: x) = cons c <$> ascii_value n text.
Proof. intros H. cbn [ascii_value]. change (bz (zb 38) =? 38) with true. cbn iota. by rewrite H. Qed.

Lemma ascii_expat_ok : ExpatLaws ascii_expat.
Proof.
  split.
  - done.
  - intros c text Hc H1 H2 H3. unfold attribute_value, ascii_expat. cbn [length]. cbn [ascii_value].
    rewrite (proj2 (Z.eqb_neq _ _) H1), (proj2 (Z.eqb_neq _ _) H2), (proj2 (Z.eqb_neq _ _) H3). cbn [orb].
    destruct (is_blank c) eqn:E; [|by rewrite Hc]. unfold is_blank, is_printable in *. apply andb_true_iff in Hc as [Hc%Z.leb_le _].
    apply orb_true_iff in E as [E%Z.eqb_eq|E%Z.eqb_eq]; lia.
  - intros c ref text Hr. unfold attribute_value, ascii_expat.
    assert (exists x, ref = zb 38 :: x /\ find_reference (ref ++ text) = Some (c, text)) as (x & -> & Hf).
    { revert Hr. unfold xml_reference. repeat case_match; intros [= <-]; (eexists; split; [reflexivity|]);
      match goal with H : (bz c =? ?n) = true |- _ => apply Z.eqb_eq in H; rewrite <- (zb_bz c), H end; reflexivity. }
    rewrite <- app_comm_cons in *. rewrite (ascii_step _ _ _ _ Hf).
    rewrite (ascii_value_more _ (S (length text)) text) by (cbn [length]; rewrite ?length_app; lia). done.
  - intros c text Hc. unfold attribute_value, ascii_expat. cbn [length ascii_value]. rewrite Hc.
    assert (bz c = 9 \/ bz c = 10) as [-> | ->] by (apply orb_true_iff in Hc as [E%Z.eqb_eq|E%Z.eqb_eq]; auto); done.
Qed.
