(* ===== verification/Entries.v ===== *)
(** * The entries of a working copy ([libsvn_wc/entries.c])

    What a working copy knows of the entries of a directory: reading and writing the
    entries file, and folding changes into an entry, those of its schedule among them.

    The file is the list of its [entry] elements, each given by the texts of its
    attributes, which [xml.c] makes and which the parser turns into values again ([Xml]);
    so an entry is read as it was written when its strings are printable ASCII, but not
    always otherwise (a newline in a name, which is not escaped, is read as a space).
    The theorems ask for printable strings.  A hash of entries is a finite map;
    the loops over it take the order of the hash table, [hash_order].  Entries are
    allocated one by one, so that two pointers from one hash are the same pointer when
    the names are the same. *)

From S2P Require Import Prelude Types KeyGen Libc Time Path Xml.

(** ** Data *)

Inductive svn_wc_schedule_t :=
  | svn_wc_schedule_normal
  | svn_wc_schedule_add
  | svn_wc_schedule_delete
  | svn_wc_schedule_replace.

#[global] Instance svn_wc_schedule_eq_dec : EqDecision svn_wc_schedule_t.
Proof. solve_decision. Defined.

Record svn_wc_entry_t := mk_entry {
  we_name : option bytes;
  we_revision : svn_revnum_t;
  we_url : option bytes;
  we_repos : option bytes;
  we_kind : svn_node_kind_t;
  we_schedule : svn_wc_schedule_t;
  we_copied : bool;
  we_copyfrom_url : option bytes;
  we_copyfrom_rev : svn_revnum_t;
  we_conflict_old : option bytes;
  we_conflict_new : option bytes;
  we_conflict_wrk : option bytes;
  we_prejfile : option bytes;
  we_text_time : Z;
  we_prop_time : Z;
  we_cmt_rev : svn_revnum_t;
  we_cmt_date : Z;
  we_cmt_author : option bytes;
}.

Definition SVN_WC_ENTRY_THIS_DIR : bytes := bstr "svn:this_dir".

Definition SVN_WC_TIMESTAMP_WC : bytes := bstr "working".

Definition SVN_WC__ENTRIES_ATTR_FILE_STR : bytes := bstr "file".
Definition SVN_WC__ENTRIES_ATTR_DIR_STR : bytes := bstr "dir".

Definition SVN_WC__ENTRY_VALUE_ADD : bytes := bstr "add".
Definition SVN_WC__ENTRY_VALUE_DELETE : bytes := bstr "delete".
Definition SVN_WC__ENTRY_VALUE_REPLACE : bytes := bstr "replace".

Definition SVN_WC__ENTRY_ATTR_NAME : bytes := bstr "name".
Definition SVN_WC__ENTRY_ATTR_REVISION : bytes := bstr "revision".
Definition SVN_WC__ENTRY_ATTR_URL : bytes := bstr "url".
Definition SVN_WC__ENTRY_ATTR_KIND : bytes := bstr "kind".
Definition SVN_WC__ENTRY_ATTR_TEXT_TIME : bytes := bstr "text-time".
Definition SVN_WC__ENTRY_ATTR_PROP_TIME : bytes := bstr "prop-time".
Definition SVN_WC__ENTRY_ATTR_SCHEDULE : bytes := bstr "schedule".
Definition SVN_WC__ENTRY_ATTR_COPIED : bytes := bstr "copied".
Definition SVN_WC__ENTRY_ATTR_COPYFROM_URL : bytes := bstr "copyfrom-url".
Definition SVN_WC__ENTRY_ATTR_COPYFROM_REV : bytes := bstr "copyfrom-rev".
Definition SVN_WC__ENTRY_ATTR_CONFLICT_OLD : bytes := bstr "conflict-old".
Definition SVN_WC__ENTRY_ATTR_CONFLICT_NEW : bytes := bstr "conflict-new".
Definition SVN_WC__ENTRY_ATTR_CONFLICT_WRK : bytes := bstr "conflict-wrk".
Definition SVN_WC__ENTRY_ATTR_PREJFILE : bytes := bstr "prop-reject-file".
Definition SVN_WC__ENTRY_ATTR_CMT_REV : bytes := bstr "committed-rev".
Definition SVN_WC__ENTRY_ATTR_CMT_DATE : bytes := bstr "committed-date".
Definition SVN_WC__ENTRY_ATTR_CMT_AUTHOR : bytes := bstr "last-author".

Definition SVN_WC__ENTRY_MODIFY_REVISION : Z := 0x00000001.
Definition SVN_WC__ENTRY_MODIFY_URL : Z := 0x00000002.
Definition SVN_WC__ENTRY_MODIFY_KIND : Z := 0x00000004.
Definition SVN_WC__ENTRY_MODIFY_TEXT_TIME : Z := 0x00000008.
Definition SVN_WC__ENTRY_MODIFY_PROP_TIME : Z := 0x00000010.
Definition SVN_WC__ENTRY_MODIFY_SCHEDULE : Z := 0x00000040.
Definition SVN_WC__ENTRY_MODIFY_COPIED : Z := 0x00000080.
Definition SVN_WC__ENTRY_MODIFY_COPYFROM_URL : Z := 0x00000100.
Definition SVN_WC__ENTRY_MODIFY_COPYFROM_REV : Z := 0x00000200.
Definition SVN_WC__ENTRY_MODIFY_CONFLICT_OLD : Z := 0x00000400.
Definition SVN_WC__ENTRY_MODIFY_CONFLICT_NEW : Z := 0x00000800.
Definition SVN_WC__ENTRY_MODIFY_CONFLICT_WRK : Z := 0x00001000.
Definition SVN_WC__ENTRY_MODIFY_PREJFILE : Z := 0x00002000.
Definition SVN_WC__ENTRY_MODIFY_CMT_REV : Z := 0x00004000.
Definition SVN_WC__ENTRY_MODIFY_CMT_DATE : Z := 0x00008000.
Definition SVN_WC__ENTRY_MODIFY_CMT_AUTHOR : Z := 0x00010000.
Definition SVN_WC__ENTRY_MODIFY_FORCE : Z := 0x80000000.

(** The attributes of an element, and a file: the texts of the attributes. *)
Abbreviation atts_t := (gmap bytes bytes).
Abbreviation entries_file := (list (gmap bytes bytes)).
Abbreviation entries_t := (gmap bytes svn_wc_entry_t).

(** [apr_hash_set], with a value that may be null. *)
Definition hash_set {A : Type} (key : bytes) (val : option A) (h : gmap bytes A) : gmap bytes A := partial_alter (λ _, val) key h.

Definition alloc_entry : svn_wc_entry_t :=
  mk_entry None SVN_INVALID_REVNUM None None svn_node_none svn_wc_schedule_normal false None SVN_INVALID_REVNUM
    None None None None 0 0 SVN_INVALID_REVNUM 0 None.

(** [modify_flags & bit]. *)
Definition has (modify_flags bit : Z) : bool := negb (Z.land modify_flags bit =? 0).

(** ** Reading *)

Section entries.
Context `{apr : !AprTime} `{expat : !Expat} (hash_order : forall A : Type, gmap bytes A -> list (bytes * A)).

(** The value of an attribute, and what the entry has without it. *)
Definition att {A : Type} (atts : atts_t) (name : bytes) (d : A) (read : bytes -> outcome A) : outcome A :=
  match atts !! name with Some str => read str | None => Ok d end.

Definition flag (atts : atts_t) (name : bytes) (bit : Z) : Z := match atts !! name with Some _ => bit | None => 0 end.

Definition read_kind (kindstr : bytes) : outcome svn_node_kind_t :=
  if bool_decide (kindstr = SVN_WC__ENTRIES_ATTR_FILE_STR) then Ok svn_node_file
  else if bool_decide (kindstr = SVN_WC__ENTRIES_ATTR_DIR_STR) then Ok svn_node_dir
  else Err SVN_ERR_UNKNOWN_NODE_KIND.

Definition read_schedule (schedulestr : bytes) : outcome svn_wc_schedule_t :=
  if bool_decide (schedulestr = SVN_WC__ENTRY_VALUE_ADD) then Ok svn_wc_schedule_add
  else if bool_decide (schedulestr = SVN_WC__ENTRY_VALUE_DELETE) then Ok svn_wc_schedule_delete
  else if bool_decide (schedulestr = SVN_WC__ENTRY_VALUE_REPLACE) then Ok svn_wc_schedule_replace
  else if bool_decide (schedulestr = []) then Ok svn_wc_schedule_normal
  else Err SVN_ERR_ENTRY_ATTRIBUTE_INVALID.

Definition read_copied (copiedstr : bytes) : outcome bool :=
  if bool_decide (copiedstr = bstr "true") then Ok true
  else if bool_decide (copiedstr = bstr "false") then Ok false
  else if bool_decide (copiedstr = []) then Ok false
  else Err SVN_ERR_ENTRY_ATTRIBUTE_INVALID.

(** The time of the working copy is left to the caller. *)
Definition read_time (timestr : bytes) : outcome Z :=
  if bool_decide (timestr = SVN_WC_TIMESTAMP_WC) then Ok 0 else svn_time_from_nts timestr.

(** With [modify_flags]. *)
Definition svn_wc__atts_to_entry (atts : atts_t) : outcome (svn_wc_entry_t * Z) :=
  let name := default SVN_WC_ENTRY_THIS_DIR (atts !! SVN_WC__ENTRY_ATTR_NAME) in
  revision ← att atts SVN_WC__ENTRY_ATTR_REVISION SVN_INVALID_REVNUM atol;
  kind ← att atts SVN_WC__ENTRY_ATTR_KIND svn_node_none read_kind;
  schedule ← att atts SVN_WC__ENTRY_ATTR_SCHEDULE svn_wc_schedule_normal read_schedule;
  copied ← att atts SVN_WC__ENTRY_ATTR_COPIED false read_copied;
  copyfrom_rev ← att atts SVN_WC__ENTRY_ATTR_COPYFROM_REV SVN_INVALID_REVNUM atol;
  text_time ← att atts SVN_WC__ENTRY_ATTR_TEXT_TIME 0 read_time;
  prop_time ← att atts SVN_WC__ENTRY_ATTR_PROP_TIME 0 read_time;
  cmt_date ← att atts SVN_WC__ENTRY_ATTR_CMT_DATE 0 svn_time_from_nts;
  cmt_rev ← att atts SVN_WC__ENTRY_ATTR_CMT_REV SVN_INVALID_REVNUM atol;
  Ok (mk_entry (Some name) revision (atts !! SVN_WC__ENTRY_ATTR_URL) None kind schedule copied
        (atts !! SVN_WC__ENTRY_ATTR_COPYFROM_URL) copyfrom_rev
        (atts !! SVN_WC__ENTRY_ATTR_CONFLICT_OLD) (atts !! SVN_WC__ENTRY_ATTR_CONFLICT_NEW)
        (atts !! SVN_WC__ENTRY_ATTR_CONFLICT_WRK) (atts !! SVN_WC__ENTRY_ATTR_PREJFILE)
        text_time prop_time cmt_rev cmt_date (atts !! SVN_WC__ENTRY_ATTR_CMT_AUTHOR),
      foldr Z.lor 0 [
        flag atts SVN_WC__ENTRY_ATTR_REVISION SVN_WC__ENTRY_MODIFY_REVISION;
        flag atts SVN_WC__ENTRY_ATTR_URL SVN_WC__ENTRY_MODIFY_URL;
        flag atts SVN_WC__ENTRY_ATTR_KIND SVN_WC__ENTRY_MODIFY_KIND;
        flag atts SVN_WC__ENTRY_ATTR_SCHEDULE SVN_WC__ENTRY_MODIFY_SCHEDULE;
        flag atts SVN_WC__ENTRY_ATTR_PREJFILE SVN_WC__ENTRY_MODIFY_PREJFILE;
        flag atts SVN_WC__ENTRY_ATTR_CONFLICT_OLD SVN_WC__ENTRY_MODIFY_CONFLICT_OLD;
        flag atts SVN_WC__ENTRY_ATTR_CONFLICT_NEW SVN_WC__ENTRY_MODIFY_CONFLICT_NEW;
        flag atts SVN_WC__ENTRY_ATTR_CONFLICT_WRK SVN_WC__ENTRY_MODIFY_CONFLICT_WRK;
        flag atts SVN_WC__ENTRY_ATTR_COPIED SVN_WC__ENTRY_MODIFY_COPIED;
        flag atts SVN_WC__ENTRY_ATTR_TEXT_TIME SVN_WC__ENTRY_MODIFY_TEXT_TIME;
        flag atts SVN_WC__ENTRY_ATTR_PROP_TIME SVN_WC__ENTRY_MODIFY_PROP_TIME;
        flag atts SVN_WC__ENTRY_ATTR_CMT_DATE SVN_WC__ENTRY_MODIFY_CMT_DATE;
        flag atts SVN_WC__ENTRY_ATTR_CMT_REV SVN_WC__ENTRY_MODIFY_CMT_REV;
        flag atts SVN_WC__ENTRY_ATTR_CMT_AUTHOR SVN_WC__ENTRY_MODIFY_CMT_AUTHOR]).

(** After an error, the parser is told to stop, and the entry, which has not been set,
    is read all the same. *)
Definition handle_start_tag (atts : atts_t) (entries : entries_t) : outcome entries_t :=
  match svn_wc__atts_to_entry atts with
  | Ok (entry, _) => Ok (<[default [] (we_name entry) := entry]> entries)
  | Err _ => Undef
  | Abort => Abort
  | Undef => Undef
  end.

Definition set_revision (rev : svn_revnum_t) (e : svn_wc_entry_t) : svn_wc_entry_t :=
  mk_entry (we_name e) rev (we_url e) (we_repos e) (we_kind e) (we_schedule e) (we_copied e) (we_copyfrom_url e) (we_copyfrom_rev e)
    (we_conflict_old e) (we_conflict_new e) (we_conflict_wrk e) (we_prejfile e) (we_text_time e) (we_prop_time e)
    (we_cmt_rev e) (we_cmt_date e) (we_cmt_author e).

Definition set_url (url : option bytes) (e : svn_wc_entry_t) : svn_wc_entry_t :=
  mk_entry (we_name e) (we_revision e) url (we_repos e) (we_kind e) (we_schedule e) (we_copied e) (we_copyfrom_url e) (we_copyfrom_rev e)
    (we_conflict_old e) (we_conflict_new e) (we_conflict_wrk e) (we_prejfile e) (we_text_time e) (we_prop_time e)
    (we_cmt_rev e) (we_cmt_date e) (we_cmt_author e).

Definition set_name (name : bytes) (e : svn_wc_entry_t) : svn_wc_entry_t :=
  mk_entry (Some name) (we_revision e) (we_url e) (we_repos e) (we_kind e) (we_schedule e) (we_copied e) (we_copyfrom_url e) (we_copyfrom_rev e)
    (we_conflict_old e) (we_conflict_new e) (we_conflict_wrk e) (we_prejfile e) (we_text_time e) (we_prop_time e)
    (we_cmt_rev e) (we_cmt_date e) (we_cmt_author e).

(** A null pointer that is read. *)
Definition non_null {A : Type} (p : option A) : outcome A := match p with Some a => Ok a | None => Undef end.

Definition take_from_entry (src dst : svn_wc_entry_t) : outcome svn_wc_entry_t :=
  let dst :=
    if bool_decide (we_revision dst = SVN_INVALID_REVNUM) && bool_decide (we_kind dst <> svn_node_dir)
    then set_revision (we_revision src) dst else dst in
  if bool_decide (we_url dst = None)
     && negb (bool_decide (we_schedule dst = svn_wc_schedule_add) || bool_decide (we_schedule dst = svn_wc_schedule_replace)) then
    url ← non_null (we_url src);
    name ← non_null (we_name dst);
    Ok (set_url (Some (svn_path_add_component url name)) dst)
  else Ok dst.

Fixpoint resolve_loop (default_entry : svn_wc_entry_t) (all : list (bytes * svn_wc_entry_t)) (entries : entries_t) : outcome entries_t :=
  match all with
  | [] => Ok entries
  | (key, this_entry) :: all =>
      if bool_decide (key = SVN_WC_ENTRY_THIS_DIR) then resolve_loop default_entry all entries
      else if bool_decide (we_kind this_entry = svn_node_dir) then resolve_loop default_entry all entries
      else if bool_decide (we_kind this_entry = svn_node_file) then
        this_entry ← take_from_entry default_entry this_entry;
        resolve_loop default_entry all (<[key := this_entry]> entries)
      else resolve_loop default_entry all entries
  end.

Definition resolve_to_defaults (entries : entries_t) : outcome entries_t :=
  match entries !! SVN_WC_ENTRY_THIS_DIR with
  | None => Err SVN_ERR_ENTRY_NOT_FOUND
  | Some default_entry =>
      if bool_decide (we_revision default_entry = SVN_INVALID_REVNUM) then Err SVN_ERR_ENTRY_MISSING_REVISION
      else if bool_decide (we_url default_entry = None) then Err SVN_ERR_ENTRY_MISSING_URL
      else resolve_loop default_entry (hash_order _ entries) entries
  end.

(** The parser calls [handle_start_tag] for one element after the other, until it comes
    to an element that is malformed. *)
Fixpoint parse_entries (file : entries_file) (entries : entries_t) : outcome entries_t :=
  match file with
  | [] => Ok entries
  | texts :: file =>
      atts ← parse_atts texts;
      entries ← handle_start_tag atts entries;
      parse_entries file entries
  end.

Definition read_entries (file : entries_file) : outcome entries_t :=
  entries ← parse_entries file ∅; resolve_to_defaults entries.

(** ** Writing *)

Definition kind_value (kind : svn_node_kind_t) : option bytes :=
  match kind with
  | svn_node_dir => Some SVN_WC__ENTRIES_ATTR_DIR_STR
  | svn_node_none => None
  | svn_node_file | svn_node_unknown => Some SVN_WC__ENTRIES_ATTR_FILE_STR
  end.

Definition schedule_value (schedule : svn_wc_schedule_t) : option bytes :=
  match schedule with
  | svn_wc_schedule_add => Some SVN_WC__ENTRY_VALUE_ADD
  | svn_wc_schedule_delete => Some SVN_WC__ENTRY_VALUE_DELETE
  | svn_wc_schedule_replace => Some SVN_WC__ENTRY_VALUE_REPLACE
  | svn_wc_schedule_normal => None
  end.

(** An attribute that is set if the entry has a value for it. *)
Definition set_if (name : bytes) (value : option bytes) (atts : atts_t) : atts_t :=
  match value with Some value => <[name := value]> atts | None => atts end.

Definition rev_value (rev : svn_revnum_t) : option bytes := if is_valid_revnum rev then Some (sprintf_d rev) else None.

Definition time_value (t : Z) : outcome (option bytes) :=
  if t =? 0 then Ok None else timestr ← svn_time_to_nts t; Ok (Some timestr).

(** All the attributes, before those that can be derived are removed. *)
Definition full_atts (entry : svn_wc_entry_t) (name : bytes) : outcome atts_t :=
  let atts := <[SVN_WC__ENTRY_ATTR_NAME := name]> ∅ in
  let atts := set_if SVN_WC__ENTRY_ATTR_REVISION (rev_value (we_revision entry)) atts in
  let atts := set_if SVN_WC__ENTRY_ATTR_URL (we_url entry) atts in
  let atts := hash_set SVN_WC__ENTRY_ATTR_KIND (kind_value (we_kind entry)) atts in
  let atts := hash_set SVN_WC__ENTRY_ATTR_SCHEDULE (schedule_value (we_schedule entry)) atts in
  let atts := set_if SVN_WC__ENTRY_ATTR_CONFLICT_OLD (we_conflict_old entry) atts in
  let atts := set_if SVN_WC__ENTRY_ATTR_CONFLICT_NEW (we_conflict_new entry) atts in
  let atts := set_if SVN_WC__ENTRY_ATTR_CONFLICT_WRK (we_conflict_wrk entry) atts in
  let atts := set_if SVN_WC__ENTRY_ATTR_PREJFILE (we_prejfile entry) atts in
  let atts := hash_set SVN_WC__ENTRY_ATTR_COPIED (if we_copied entry then Some (bstr "true") else None) atts in
  let atts := set_if SVN_WC__ENTRY_ATTR_COPYFROM_REV (rev_value (we_copyfrom_rev entry)) atts in
  let atts := set_if SVN_WC__ENTRY_ATTR_COPYFROM_URL (we_copyfrom_url entry) atts in
  text_time ← time_value (we_text_time entry);
  let atts := set_if SVN_WC__ENTRY_ATTR_TEXT_TIME text_time atts in
  prop_time ← time_value (we_prop_time entry);
  let atts := set_if SVN_WC__ENTRY_ATTR_PROP_TIME prop_time atts in
  let atts := set_if SVN_WC__ENTRY_ATTR_CMT_REV (rev_value (we_cmt_rev entry)) atts in
  let atts := set_if SVN_WC__ENTRY_ATTR_CMT_AUTHOR (we_cmt_author entry) atts in
  cmt_date ← time_value (we_cmt_date entry);
  Ok (set_if SVN_WC__ENTRY_ATTR_CMT_DATE cmt_date atts).

(** The element of the entry, whose name is set. *)
Definition write_entry (entry : svn_wc_entry_t) (name : bytes) (this_dir : svn_wc_entry_t) : outcome (svn_wc_entry_t * atts_t) :=
  let entry := set_name name entry in
  atts ← full_atts entry name;
  if bool_decide (name = SVN_WC_ENTRY_THIS_DIR) then Ok (entry, atts)
  else if bool_decide (name = bstr ".") then Abort
  else if bool_decide (we_kind entry = svn_node_dir) then
    Ok (entry, hash_set SVN_WC__ENTRY_ATTR_URL None (hash_set SVN_WC__ENTRY_ATTR_REVISION None atts))
  else
    let atts := if we_revision entry =? we_revision this_dir then hash_set SVN_WC__ENTRY_ATTR_REVISION None atts else atts in
    match we_url entry with
    | None => Ok (entry, atts)
    | Some url =>
        this_url ← non_null (we_url this_dir);
        let this_path := svn_path_add_component_nts this_url name in
        Ok (entry, if bool_decide (this_path = url) then hash_set SVN_WC__ENTRY_ATTR_URL None atts else atts)
    end.

(** The error of [write_entry] is not looked at, and there is none. *)
Fixpoint write_loop (this_dir : svn_wc_entry_t) (all : list (bytes * svn_wc_entry_t)) (entries : entries_t) (bigstr : entries_file) :
    outcome (entries_t * entries_file) :=
  match all with
  | [] => Ok (entries, bigstr)
  | (key, this_entry) :: all =>
      if bool_decide (key = SVN_WC_ENTRY_THIS_DIR) then write_loop this_dir all entries bigstr
      else
        '(this_entry, atts) ← write_entry this_entry key this_dir;
        write_loop this_dir all (<[key := this_entry]> entries) (bigstr ++ [svn_xml_make_open_tag_hash atts])
  end.

(** The entries, whose names are set, and the file. *)
Definition svn_wc__entries_write (entries : entries_t) : outcome (entries_t * entries_file) :=
  match entries !! SVN_WC_ENTRY_THIS_DIR with
  | None => Err SVN_ERR_ENTRY_NOT_FOUND
  | Some this_dir =>
      '(this_dir, atts) ← write_entry this_dir SVN_WC_ENTRY_THIS_DIR this_dir;
      let entries := <[SVN_WC_ENTRY_THIS_DIR := this_dir]> entries in
      write_loop this_dir (hash_order _ entries) entries [svn_xml_make_open_tag_hash atts]
  end.

Definition svn_wc__entries_init (url : bytes) : entries_file :=
  [svn_xml_make_open_tag_hash (<[SVN_WC__ENTRY_ATTR_KIND := SVN_WC__ENTRIES_ATTR_DIR_STR]>
    (<[SVN_WC__ENTRY_ATTR_REVISION := sprintf_d 0]> (<[SVN_WC__ENTRY_ATTR_URL := url]> ∅)))].

(** ** Changing *)

(** A field that the flags name. *)
Definition fold_field {A : Type} (modify_flags bit : Z) (new old : A) : A := if has modify_flags bit then new else old.

Definition fold_fields (modify_flags : Z) (name : bytes) (entry cur_entry : svn_wc_entry_t) : svn_wc_entry_t :=
  mk_entry (Some (default name (we_name cur_entry)))
    (fold_field modify_flags SVN_WC__ENTRY_MODIFY_REVISION (we_revision entry) (we_revision cur_entry))
    (fold_field modify_flags SVN_WC__ENTRY_MODIFY_URL (we_url entry) (we_url cur_entry))
    (we_repos cur_entry)
    (fold_field modify_flags SVN_WC__ENTRY_MODIFY_KIND (we_kind entry) (we_kind cur_entry))
    (fold_field modify_flags SVN_WC__ENTRY_MODIFY_SCHEDULE (we_schedule entry) (we_schedule cur_entry))
    (fold_field modify_flags SVN_WC__ENTRY_MODIFY_COPIED (we_copied entry) (we_copied cur_entry))
    (fold_field modify_flags SVN_WC__ENTRY_MODIFY_COPYFROM_URL (we_copyfrom_url entry) (we_copyfrom_url cur_entry))
    (fold_field modify_flags SVN_WC__ENTRY_MODIFY_COPYFROM_REV (we_copyfrom_rev entry) (we_copyfrom_rev cur_entry))
    (fold_field modify_flags SVN_WC__ENTRY_MODIFY_CONFLICT_OLD (we_conflict_old entry) (we_conflict_old cur_entry))
    (fold_field modify_flags SVN_WC__ENTRY_MODIFY_CONFLICT_NEW (we_conflict_new entry) (we_conflict_new cur_entry))
    (fold_field modify_flags SVN_WC__ENTRY_MODIFY_CONFLICT_WRK (we_conflict_wrk entry) (we_conflict_wrk cur_entry))
    (fold_field modify_flags SVN_WC__ENTRY_MODIFY_PREJFILE (we_prejfile entry) (we_prejfile cur_entry))
    (fold_field modify_flags SVN_WC__ENTRY_MODIFY_TEXT_TIME (we_text_time entry) (we_text_time cur_entry))
    (fold_field modify_flags SVN_WC__ENTRY_MODIFY_PROP_TIME (we_prop_time entry) (we_prop_time cur_entry))
    (fold_field modify_flags SVN_WC__ENTRY_MODIFY_CMT_REV (we_cmt_rev entry) (we_cmt_rev cur_entry))
    (fold_field modify_flags SVN_WC__ENTRY_MODIFY_CMT_DATE (we_cmt_date entry) (we_cmt_date cur_entry))
    (fold_field modify_flags SVN_WC__ENTRY_MODIFY_CMT_AUTHOR (we_cmt_author entry) (we_cmt_author cur_entry)).

(** An entry that is in the hash is changed in place: when it is the one of the
    directory itself, it is its own default entry. *)
Definition fold_entry (entries : entries_t) (name : bytes) (modify_flags : Z) (entry : svn_wc_entry_t) : outcome entries_t :=
  let cur_entry := fold_fields modify_flags name entry (default alloc_entry (entries !! name)) in
  let entries := alter (λ _, cur_entry) name entries in
  cur_entry ←
    (if bool_decide (we_kind cur_entry <> svn_node_dir) then
       match entries !! SVN_WC_ENTRY_THIS_DIR with
       | Some default_entry => take_from_entry default_entry cur_entry
       | None => Ok cur_entry
       end
     else Ok cur_entry);
  Ok (<[name := cur_entry]> entries).

Definition svn_wc__entry_remove (entries : entries_t) (name : bytes) : entries_t := hash_set name None entries.

(** The schedule of the entry, and the one that is asked for: what is left of the
    entries, of the flags and of the schedule. *)
Definition merge_schedule (entries : entries_t) (name : bytes) (modify_flags : Z) (entry schedule : svn_wc_schedule_t) :
    outcome (entries_t * Z * svn_wc_schedule_t) :=
  let no_op := Ok (entries, Z.ldiff modify_flags SVN_WC__ENTRY_MODIFY_SCHEDULE, schedule) in
  match entry, schedule with
  | svn_wc_schedule_normal, svn_wc_schedule_normal => no_op
  | svn_wc_schedule_normal, (svn_wc_schedule_delete | svn_wc_schedule_replace) => Ok (entries, modify_flags, schedule)
  | svn_wc_schedule_normal, svn_wc_schedule_add => Err SVN_ERR_WC_SCHEDULE_CONFLICT
  | svn_wc_schedule_add, (svn_wc_schedule_normal | svn_wc_schedule_add | svn_wc_schedule_replace) => no_op
  | svn_wc_schedule_add, svn_wc_schedule_delete =>
      c_assert (negb (bool_decide (name = SVN_WC_ENTRY_THIS_DIR)));;
      Ok (hash_set name None entries, modify_flags, schedule)
  | svn_wc_schedule_delete, (svn_wc_schedule_normal | svn_wc_schedule_delete) => no_op
  | svn_wc_schedule_delete, svn_wc_schedule_add => Ok (entries, modify_flags, svn_wc_schedule_replace)
  | svn_wc_schedule_delete, svn_wc_schedule_replace => Ok (entries, modify_flags, schedule)
  | svn_wc_schedule_replace, (svn_wc_schedule_normal | svn_wc_schedule_add | svn_wc_schedule_replace) => no_op
  | svn_wc_schedule_replace, svn_wc_schedule_delete => Ok (entries, modify_flags, svn_wc_schedule_delete)
  end.

Definition fold_scheduling (entries : entries_t) (name : bytes) (modify_flags : Z) (schedule : svn_wc_schedule_t) :
    outcome (entries_t * Z * svn_wc_schedule_t) :=
  if negb (has modify_flags SVN_WC__ENTRY_MODIFY_SCHEDULE) then Ok (entries, modify_flags, schedule)
  else if has modify_flags SVN_WC__ENTRY_MODIFY_FORCE then Ok (entries, modify_flags, schedule)
  else
    match entries !! name with
    | None => if bool_decide (schedule = svn_wc_schedule_add) then Ok (entries, modify_flags, schedule) else Err SVN_ERR_WC_SCHEDULE_CONFLICT
    | Some entry =>
        deleted ← (if bool_decide (name = SVN_WC_ENTRY_THIS_DIR) then Ok false
                   else this_dir_entry ← non_null (entries !! SVN_WC_ENTRY_THIS_DIR);
                        Ok (bool_decide (we_schedule this_dir_entry = svn_wc_schedule_delete)));
        if deleted && (bool_decide (schedule = svn_wc_schedule_add) || bool_decide (schedule = svn_wc_schedule_replace))
        then Err SVN_ERR_WC_SCHEDULE_CONFLICT
        else merge_schedule entries name modify_flags (we_schedule entry) schedule
    end.

Definition set_schedule (schedule : svn_wc_schedule_t) (e : svn_wc_entry_t) : svn_wc_entry_t :=
  mk_entry (we_name e) (we_revision e) (we_url e) (we_repos e) (we_kind e) schedule (we_copied e) (we_copyfrom_url e) (we_copyfrom_rev e)
    (we_conflict_old e) (we_conflict_new e) (we_conflict_wrk e) (we_prejfile e) (we_text_time e) (we_prop_time e)
    (we_cmt_rev e) (we_cmt_date e) (we_cmt_author e).

(** [svn_wc__entry_modify], between reading and writing. *)
Definition modify_entries (entries : entries_t) (name : bytes) (entry : svn_wc_entry_t) (modify_flags : Z) : outcome entries_t :=
  '(entries, modify_flags, entry, entry_was_deleted_p) ←
    (if has modify_flags SVN_WC__ENTRY_MODIFY_SCHEDULE then
       let entry_before := entries !! name in
       '(entries, modify_flags, schedule) ← fold_scheduling entries name modify_flags (we_schedule entry);
       let entry_after := entries !! name in
       Ok (entries, modify_flags, set_schedule schedule entry, bool_decide (is_Some entry_before) && bool_decide (entry_after = None))
     else Ok (entries, modify_flags, entry, false));
  if entry_was_deleted_p : bool then Ok entries else fold_entry entries name modify_flags entry.

Definition svn_wc__tweak_entry (entries : entries_t) (name : bytes) (new_url : option bytes) (new_rev : svn_revnum_t) : outcome entries_t :=
  match entries !! name with
  | None => Err SVN_ERR_ENTRY_NOT_FOUND
  | Some entry =>
      let entry := match new_url with Some new_url => set_url (Some new_url) entry | None => entry end in
      let entry :=
        if is_valid_revnum new_rev && negb (bool_decide (we_schedule entry = svn_wc_schedule_add))
           && negb (bool_decide (we_schedule entry = svn_wc_schedule_replace))
        then set_revision new_rev entry else entry in
      Ok (<[name := entry]> entries)
  end.

(** ** The entries files of a working copy, by directory *)

Abbreviation wc_m := (state_m (gmap bytes entries_file)).

Definition svn_wc_entries_read (path : bytes) : wc_m entries_t := λ wc,
  match wc !! path with None => (Err (APR_ERR APR_ENOENT), wc) | Some file => (read_entries file, wc) end.

Definition write_file (path : bytes) (file : entries_file) : wc_m unit := λ wc, (Ok tt, <[path := file]> wc).

(** A null name is that of the directory itself. *)
Definition svn_wc__entry_modify (path : bytes) (name : option bytes) (entry : svn_wc_entry_t) (modify_flags : Z) : wc_m unit :=
  entries ← svn_wc_entries_read path;
  let name := default SVN_WC_ENTRY_THIS_DIR name in
  entries ← (lift (modify_entries entries name entry modify_flags) : wc_m _);
  written ← (lift (svn_wc__entries_write entries) : wc_m _);
  write_file path written.2.
End entries.

(** ** Lemmas on attributes *)

Lemma lookup_set_if (name : bytes) (value : option bytes) (atts : atts_t) :
  set_if name value atts !! name = match value with Some _ => value | None => atts !! name end.
Proof. destruct value; [apply lookup_insert_eq|done]. Qed.

Lemma lookup_set_if_ne (name : bytes) (value : option bytes) (atts : atts_t) (name' : bytes) :
  bool_decide (name = name') = false -> set_if name value atts !! name' = atts !! name'.
Proof. intros H%bool_decide_eq_false. destruct value; [by apply lookup_insert_ne|done]. Qed.

Lemma lookup_hash_set {A : Type} (name : bytes) (value : option A) (h : gmap bytes A) : hash_set name value h !! name = value.
Proof. apply lookup_partial_alter_eq. Qed.

Lemma lookup_hash_set_ne {A : Type} (name : bytes) (value : option A) (h : gmap bytes A) (name' : bytes) :
  bool_decide (name = name') = false -> hash_set name value h !! name' = h !! name'.
Proof. intros H%bool_decide_eq_false. by apply lookup_partial_alter_ne. Qed.

Lemma lookup_insert_other {A : Type} (name : bytes) (value : A) (h : gmap bytes A) (name' : bytes) :
  bool_decide (name = name') = false -> <[name := value]> h !! name' = h !! name'.
Proof. intros H%bool_decide_eq_false. by apply lookup_insert_ne. Qed.

(** Looks attributes up whose names are constants. *)
Ltac look_up :=
  repeat first
    [ rewrite lookup_set_if_ne by (vm_compute; reflexivity) | rewrite lookup_hash_set_ne by (vm_compute; reflexivity)
    | rewrite lookup_insert_other by (vm_compute; reflexivity)
    | rewrite lookup_set_if | rewrite lookup_hash_set | rewrite lookup_insert_eq | rewrite lookup_empty ].

(** What is left of a revision number and of a kind that are written and read. *)
Definition kept_rev (rev : svn_revnum_t) : svn_revnum_t := if is_valid_revnum rev then rev else SVN_INVALID_REVNUM.

Definition kept_kind (kind : svn_node_kind_t) : svn_node_kind_t :=
  match kind with svn_node_unknown => svn_node_file | kind => kind end.

Lemma rev_read rev : rev < two63 -> match rev_value rev with Some str => atol str | None => Ok SVN_INVALID_REVNUM end = Ok (kept_rev rev).
Proof.
  intros Hr. unfold rev_value, kept_rev. destruct (is_valid_revnum rev) eqn:E; [|done]. apply Z.leb_le in E.
  destruct (sprintf_d_ok rev) as (Hd & Hv & Hl); [unfold two63, two64 in *; lia|].
  unfold atol. rewrite <- (app_nil_r (sprintf_d rev)), ato_value_text, Hv by (done || lia).
  rewrite (proj2 (Z.leb_le (- two63) rev)), (proj2 (Z.ltb_lt rev two63)) by (unfold two63 in *; lia). done.
Qed.

Lemma kind_read kind : match kind_value kind with Some str => read_kind str | None => Ok svn_node_none end = Ok (kept_kind kind).
Proof. by destruct kind. Qed.

Lemma schedule_read s : match schedule_value s with Some str => read_schedule str | None => Ok svn_wc_schedule_normal end = Ok s.
Proof. by destruct s. Qed.

Lemma copied_read (c : bool) : match (if c then Some (bstr "true") else None) with Some str => read_copied str | None => Ok false end = Ok c.
Proof. by destruct c. Qed.

(** ** What is written is read *)

(** A string that the file holds as it is. *)
Definition plain_text (o : option bytes) : Prop := match o with Some s => printable s | None => True end.

Definition plain_atts (atts : atts_t) : Prop := map_Forall (λ _ v, printable v) atts.

Lemma printable_const s : forallb is_printable s = true -> printable s.
Proof. induction s as [|c s IH]; [by constructor|]. intros [H1 H2]%andb_true_iff. constructor; [done|by apply IH]. Qed.

Lemma sprintf_d_printable z : 0 <= z < two64 -> printable (sprintf_d z).
Proof.
  intros Hz. destruct (sprintf_d_ok z) as (H & _); [done|]. refine (list.Forall_impl _ _ _ H _). intros c. unfold is_digit, is_printable. unfold bsz.
  rewrite !andb_true_iff, !Z.leb_le, Z.ltb_lt. pose proof (bz_range c). destruct (128 <=? bz c) eqn:E; lia.
Qed.

Lemma rev_printable rev : rev < two63 -> plain_text (rev_value rev).
Proof.
  intros H. unfold rev_value, is_valid_revnum. destruct (Z.leb_spec 0 rev); [|done]. apply sprintf_d_printable. unfold two63, two64 in *. lia.
Qed.

Lemma printable_take n s : printable s -> printable (take n s).
Proof. apply list.Forall_take. Qed.

Lemma canonicalize_printable s : printable s -> printable (svn_path_canonicalize s).
Proof.
  unfold svn_path_canonicalize. generalize (length s) at 1 as n. intros n. revert s. induction n as [|n IH]; intros s Hs; [done|].
  cbn [canonicalize_loop]. destruct (ends_with s sep); [|done]. by apply IH, printable_take.
Qed.

Lemma add_component_printable url name : printable url -> printable name -> printable (svn_path_add_component url name).
Proof.
  intros Hu Hn. unfold svn_path_add_component, add_component_internal. apply canonicalize_printable, list.Forall_app. split; [|done].
  destruct (_ && _); [|done]. apply list.Forall_app. by split; [|repeat constructor].
Qed.

Section entries_ok.
Context `{apr : !AprTime} `{laws : ExpatLaws}.

(** A time that its text gives back ([Time] says when), or none. *)
Definition time_ok (t : Z) : Prop :=
  t = 0 \/ exists text, svn_time_to_nts t = Ok text /\ svn_time_from_nts text = Ok t /\ text <> SVN_WC_TIMESTAMP_WC /\ printable text.

(** The strings of an entry, and an entry that the file can hold. *)
Definition entry_strings (e : svn_wc_entry_t) : list (option bytes) :=
  [we_url e; we_copyfrom_url e; we_conflict_old e; we_conflict_new e; we_conflict_wrk e; we_prejfile e; we_cmt_author e; we_name e].

Record entry_ok (e : svn_wc_entry_t) : Prop := {
  ek_rev : we_revision e < two63; ek_from : we_copyfrom_rev e < two63; ek_cmt : we_cmt_rev e < two63;
  ek_text : time_ok (we_text_time e); ek_prop : time_ok (we_prop_time e); ek_date : time_ok (we_cmt_date e);
  ek_strings : Forall plain_text (entry_strings e);
}.

Lemma plain_set_if (name : bytes) (o : option bytes) (atts : atts_t) : plain_text o -> plain_atts atts -> plain_atts (set_if name o atts).
Proof. intros Ho Ha. destruct o; [by apply map_Forall_insert_2|done]. Qed.

Lemma plain_hash_set (name : bytes) (o : option bytes) (atts : atts_t) : plain_text o -> plain_atts atts -> plain_atts (hash_set name o atts).
Proof. intros Ho Ha. destruct o as [v|].
  - change (plain_atts (<[name := v]> atts)). by apply map_Forall_insert_2.
  - change (plain_atts (delete name atts)). by apply map_Forall_delete.
Qed.

Definition time_shown (t : Z) (o : option bytes) : Prop :=
  plain_text o /\ time_value t = Ok o /\ match o with Some str => read_time str | None => Ok 0 end = Ok t /\
  match o with Some str => svn_time_from_nts str | None => Ok 0 end = Ok t.

Lemma time_ok_shown t : time_ok t -> exists o, time_shown t o.
Proof.
  unfold time_shown, time_value, read_time. intros [->|(text & E & F & Hn & Hp)]; [by exists None|].
  destruct (Z.eqb_spec t 0) as [->|]; [by exists None|]. exists (Some text). rewrite E. cbn [mbind outcome_bind].
  by rewrite bool_decide_false.
Qed.

(** The attributes of an entry, with this revision and this URL. *)
Record shows (e : svn_wc_entry_t) (name : bytes) (rev url tt pt cd : option bytes) (atts : atts_t) : Prop := {
  sh_name : atts !! SVN_WC__ENTRY_ATTR_NAME = Some name;
  sh_rev : atts !! SVN_WC__ENTRY_ATTR_REVISION = rev;
  sh_url : atts !! SVN_WC__ENTRY_ATTR_URL = url;
  sh_kind : atts !! SVN_WC__ENTRY_ATTR_KIND = kind_value (we_kind e);
  sh_schedule : atts !! SVN_WC__ENTRY_ATTR_SCHEDULE = schedule_value (we_schedule e);
  sh_old : atts !! SVN_WC__ENTRY_ATTR_CONFLICT_OLD = we_conflict_old e;
  sh_new : atts !! SVN_WC__ENTRY_ATTR_CONFLICT_NEW = we_conflict_new e;
  sh_wrk : atts !! SVN_WC__ENTRY_ATTR_CONFLICT_WRK = we_conflict_wrk e;
  sh_prej : atts !! SVN_WC__ENTRY_ATTR_PREJFILE = we_prejfile e;
  sh_copied : atts !! SVN_WC__ENTRY_ATTR_COPIED = if we_copied e then Some (bstr "true") else None;
  sh_from_rev : atts !! SVN_WC__ENTRY_ATTR_COPYFROM_REV = rev_value (we_copyfrom_rev e);
  sh_from_url : atts !! SVN_WC__ENTRY_ATTR_COPYFROM_URL = we_copyfrom_url e;
  sh_tt : atts !! SVN_WC__ENTRY_ATTR_TEXT_TIME = tt;
  sh_pt : atts !! SVN_WC__ENTRY_ATTR_PROP_TIME = pt;
  sh_cmt_rev : atts !! SVN_WC__ENTRY_ATTR_CMT_REV = rev_value (we_cmt_rev e);
  sh_author : atts !! SVN_WC__ENTRY_ATTR_CMT_AUTHOR = we_cmt_author e;
  sh_date : atts !! SVN_WC__ENTRY_ATTR_CMT_DATE = cd;
}.

Lemma full_shows e name tt pt cd : time_shown (we_text_time e) tt -> time_shown (we_prop_time e) pt -> time_shown (we_cmt_date e) cd ->
  exists atts, full_atts e name = Ok atts /\ shows e name (rev_value (we_revision e)) (we_url e) tt pt cd atts /\
    (entry_ok e -> printable name -> plain_atts atts).
Proof.
  intros (Hpt & Ht & _) (Hpp & Hp & _) (Hpc & Hc & _). unfold full_atts. rewrite Ht. cbn [mbind outcome_bind]. rewrite Hp.
  cbn [mbind outcome_bind]. rewrite Hc. cbn [mbind outcome_bind]. eexists. split; [reflexivity|].
  split; [split; look_up; first [reflexivity|match goal with |- match ?o with Some _ => _ | None => _ end = _ => by destruct o end]|].
  intros [Hr Hf Hcr _ _ _ Hs] Hn. unfold entry_strings in Hs. rewrite !list.Forall_cons in Hs. destruct Hs as (Hu & Hfu & Ho & Hnw & Hw & Hj & Ha & _ & _).
  repeat first [apply plain_set_if | apply plain_hash_set]; try done; try (by apply rev_printable).
  all: try (by destruct (we_kind e); try done; apply printable_const).
  all: try (by destruct (we_schedule e); try done; apply printable_const).
  all: try (by destruct (we_copied e); try done; apply printable_const).
Qed.

Lemma shows_no_rev e name rev url tt pt cd atts :
  shows e name rev url tt pt cd atts -> shows e name None url tt pt cd (hash_set SVN_WC__ENTRY_ATTR_REVISION None atts).
Proof. intros []. split; look_up; first [assumption|reflexivity]. Qed.

Lemma shows_no_url e name rev url tt pt cd atts :
  shows e name rev url tt pt cd atts -> shows e name rev None tt pt cd (hash_set SVN_WC__ENTRY_ATTR_URL None atts).
Proof. intros []. split; look_up; first [assumption|reflexivity]. Qed.

Lemma shows_read e name rev url tt pt cd atts rev' :
  shows e name rev url tt pt cd atts -> match rev with Some str => atol str | None => Ok SVN_INVALID_REVNUM end = Ok rev' ->
  we_copyfrom_rev e < two63 -> we_cmt_rev e < two63 ->
  time_shown (we_text_time e) tt -> time_shown (we_prop_time e) pt -> time_shown (we_cmt_date e) cd ->
  exists flags, svn_wc__atts_to_entry atts =
    Ok (mk_entry (Some name) rev' url None (kept_kind (we_kind e)) (we_schedule e) (we_copied e) (we_copyfrom_url e)
          (kept_rev (we_copyfrom_rev e)) (we_conflict_old e) (we_conflict_new e) (we_conflict_wrk e) (we_prejfile e)
          (we_text_time e) (we_prop_time e) (kept_rev (we_cmt_rev e)) (we_cmt_date e) (we_cmt_author e), flags).
Proof.
  intros [] Hrev Hfrom Hcmt (_ & _ & Ht & _) (_ & _ & Hp & _) (_ & _ & _ & Hc). eexists. unfold svn_wc__atts_to_entry, att.
  rewrite sh_name0, sh_rev0, sh_url0, sh_kind0, sh_schedule0, sh_old0, sh_new0, sh_wrk0, sh_prej0, sh_copied0, sh_from_rev0,
    sh_from_url0, sh_tt0, sh_pt0, sh_cmt_rev0, sh_author0, sh_date0.
  rewrite Hrev. cbn [mbind outcome_bind]. rewrite kind_read. cbn [mbind outcome_bind]. rewrite schedule_read.
  cbn [mbind outcome_bind]. rewrite copied_read. cbn [mbind outcome_bind]. rewrite rev_read by done. cbn [mbind outcome_bind].
  rewrite Ht. cbn [mbind outcome_bind]. rewrite Hp. cbn [mbind outcome_bind]. rewrite Hc. cbn [mbind outcome_bind].
  rewrite rev_read by done. reflexivity.
Qed.

(** What the file cannot hold of an entry: its name is the key, the repository is not
    written, and a number that is no revision is the one that means none. *)
Definition kept_fields (name : bytes) (e : svn_wc_entry_t) (rev : svn_revnum_t) (url : option bytes) : svn_wc_entry_t :=
  mk_entry (Some name) rev url None (kept_kind (we_kind e)) (we_schedule e) (we_copied e) (we_copyfrom_url e)
    (kept_rev (we_copyfrom_rev e)) (we_conflict_old e) (we_conflict_new e) (we_conflict_wrk e) (we_prejfile e)
    (we_text_time e) (we_prop_time e) (kept_rev (we_cmt_rev e)) (we_cmt_date e) (we_cmt_author e).

(** The URL of an entry of the directory when nothing else is said. *)
Definition obvious_url (this : svn_wc_entry_t) (name : bytes) : bytes := svn_path_add_component (default [] (we_url this)) name.

Definition to_be_added (e : svn_wc_entry_t) : bool :=
  bool_decide (we_schedule e = svn_wc_schedule_add) || bool_decide (we_schedule e = svn_wc_schedule_replace).

(** An entry that is written and read again: directories have their revision and URL
    in their own files; files that say nothing have those of the directory they are in,
    but no URL when they are to be added. *)
Definition kept (this : svn_wc_entry_t) (name : bytes) (e : svn_wc_entry_t) : svn_wc_entry_t :=
  if bool_decide (name = SVN_WC_ENTRY_THIS_DIR) then kept_fields name e (we_revision e) (we_url e)
  else
    match kept_kind (we_kind e) with
    | svn_node_dir => kept_fields name e SVN_INVALID_REVNUM None
    | svn_node_file =>
        kept_fields name e (if is_valid_revnum (we_revision e) then we_revision e else we_revision this)
          (match we_url e with
           | Some url => if bool_decide (url = obvious_url this name) && to_be_added e then None else Some url
           | None => if to_be_added e then None else Some (obvious_url this name)
           end)
    | _ =>
        kept_fields name e (if we_revision e =? we_revision this then SVN_INVALID_REVNUM else kept_rev (we_revision e))
          (if bool_decide (we_url e = Some (obvious_url this name)) then None else we_url e)
    end.

(** What the file says. *)
Definition stored (this : svn_wc_entry_t) (name : bytes) (e : svn_wc_entry_t) : svn_wc_entry_t :=
  if bool_decide (name = SVN_WC_ENTRY_THIS_DIR) then kept_fields name e (kept_rev (we_revision e)) (we_url e)
  else if bool_decide (we_kind e = svn_node_dir) then kept_fields name e SVN_INVALID_REVNUM None
  else
    kept_fields name e (if we_revision e =? we_revision this then SVN_INVALID_REVNUM else kept_rev (we_revision e))
      (if bool_decide (we_url e = Some (obvious_url this name)) then None else we_url e).

Lemma add_component_nts_eq (url name : bytes) : no_nul name -> svn_path_add_component_nts url name = svn_path_add_component url name.
Proof. intros Hn. unfold svn_path_add_component_nts, svn_path_add_component. by rewrite strlen_ok, firstn_all. Qed.

Lemma set_name_ok (name : bytes) (e : svn_wc_entry_t) : printable name -> entry_ok e -> entry_ok (set_name name e).
Proof.
  intros Hn []. split; try done. unfold entry_strings in *. rewrite !list.Forall_cons in *. destruct_and!. by split_and!.
Qed.

Lemma write_entry_ok this name e : entry_ok e -> printable name -> name <> bstr "." -> is_Some (we_url this) ->
  exists atts flags, write_entry e name this = Ok (set_name name e, atts) /\ plain_atts atts /\
    svn_wc__atts_to_entry atts = Ok (stored this name e, flags).
Proof.
  intros He Hname Hdot [url Hu]. pose proof (printable_no_nul _ Hname) as Hn. destruct (He) as [Hr Hf Hc Htt Hpt Hcd Hstr].
  destruct (time_ok_shown _ Htt) as (tt' & Ht), (time_ok_shown _ Hpt) as (pt & Hp), (time_ok_shown _ Hcd) as (cd & Hd).
  destruct (full_shows (set_name name e) name tt' pt cd Ht Hp Hd) as (atts & E & H & Hplain).
  specialize (Hplain (set_name_ok name e Hname He) Hname).
  assert (forall rev url atts', shows (set_name name e) name rev url tt' pt cd atts' ->
    match rev with Some str => atol str | None => Ok SVN_INVALID_REVNUM end = Ok (match rev with Some _ => kept_rev (we_revision e) | None => SVN_INVALID_REVNUM end) ->
    exists flags, svn_wc__atts_to_entry atts' = Ok (kept_fields name e (match rev with Some _ => kept_rev (we_revision e) | None => SVN_INVALID_REVNUM end) url, flags)) as Hread.
  { intros rev url' atts' Hs Hrev. by destruct (shows_read _ _ _ _ _ _ _ _ _ Hs Hrev Hf Hc Ht Hp Hd) as (flags & ?); exists flags. }
  pose proof (rev_read (we_revision e) Hr) as Hrev. unfold write_entry, stored. rewrite E. cbn [mbind outcome_bind].
  assert (match rev_value (we_revision e) with Some _ => kept_rev (we_revision e) | None => SVN_INVALID_REVNUM end = kept_rev (we_revision e)) as Hk.
  { unfold rev_value, kept_rev. by destruct (is_valid_revnum (we_revision e)). }
  assert (forall atts' u, shows (set_name name e) name (rev_value (we_revision e)) u tt' pt cd atts' ->
    exists flags, svn_wc__atts_to_entry atts' = Ok (kept_fields name e (kept_rev (we_revision e)) u, flags)) as Hfull.
  { intros atts' u Hs. destruct (Hread (rev_value (we_revision e)) u atts' Hs) as (flags & Hr'); [by rewrite Hk|]. exists flags. by rewrite Hk in Hr'. }
  case_bool_decide as Hthis; [destruct (Hfull _ _ H) as (flags & Ha); by exists atts, flags; split_and!|].
  rewrite (bool_decide_false (name = bstr ".")) by done. cbn [we_kind set_name we_revision we_url].
  case_bool_decide as Hdir.
  { destruct (Hread None None _ (shows_no_url _ _ _ _ _ _ _ _ (shows_no_rev _ _ _ _ _ _ _ _ H)) eq_refl) as (flags & Ha). eexists _, flags. split; [done|]. split; [by repeat apply plain_hash_set|done]. }
  rewrite Hu. cbn [non_null mbind outcome_bind]. rewrite add_component_nts_eq by done. unfold obvious_url. rewrite Hu. cbn [default].
  set (rev := if we_revision e =? we_revision this then None else rev_value (we_revision e)).
  set (atts1 := if we_revision e =? we_revision this then hash_set SVN_WC__ENTRY_ATTR_REVISION None atts else atts).
  set (rev' := if we_revision e =? we_revision this then SVN_INVALID_REVNUM else kept_rev (we_revision e)).
  assert (plain_atts atts1) as Hplain1 by (unfold atts1; destruct (_ =? _); [by apply plain_hash_set|done]).
  assert (shows (set_name name e) name rev (we_url e) tt' pt cd atts1) as H1.
  { unfold rev, atts1. destruct (we_revision e =? we_revision this); [by eapply shows_no_rev|done]. }
  assert (forall u atts', shows (set_name name e) name rev u tt' pt cd atts' ->
    exists flags, svn_wc__atts_to_entry atts' = Ok (kept_fields name e rev' u, flags)) as Hrd.
  { intros u atts' Hs. unfold rev, rev' in *. destruct (we_revision e =? we_revision this); [by apply (Hread None)|by apply Hfull]. }
  destruct (we_url e) as [u|] eqn:Eu.
  - destruct (decide (u = svn_path_add_component url name)) as [->|Hne].
    + rewrite (bool_decide_true (_ = svn_path_add_component url name)), (bool_decide_true (Some _ = _)) by done. destruct (Hrd None _ (shows_no_url _ _ _ _ _ _ _ _ H1)) as (flags & Ha). eexists _, flags. split; [done|]. split; [by apply plain_hash_set|done].
    + rewrite (bool_decide_false (_ = u)) by (intros E'; by apply Hne). rewrite (bool_decide_false (Some u = _)) by (intros [= E']; by apply Hne). destruct (Hrd _ _ H1) as (flags & Ha). by eexists _, flags; split_and!.
  - rewrite bool_decide_false by done. destruct (Hrd _ _ H1) as (flags & Ha). by eexists _, flags; split_and!.
Qed.

Lemma stored_name this name e : we_name (stored this name e) = Some name.
Proof. unfold stored. by repeat case_bool_decide. Qed.

Lemma start_tag_ok (atts : atts_t) (this : svn_wc_entry_t) (name : bytes) (e : svn_wc_entry_t) (flags : Z) (entries : entries_t) : svn_wc__atts_to_entry atts = Ok (stored this name e, flags) ->
  handle_start_tag atts entries = Ok (<[name := stored this name e]> entries).
Proof. intros E. unfold handle_start_tag. rewrite E. by rewrite stored_name. Qed.

Definition can_write (this : svn_wc_entry_t) (kv : bytes * svn_wc_entry_t) : Prop := entry_ok kv.2 /\ printable kv.1 /\ kv.1 <> bstr ".".

(** The elements of the loop give the stored entries. *)
Lemma write_loop_ok (this : svn_wc_entry_t) (l : list (bytes * svn_wc_entry_t)) : is_Some (we_url this) -> Forall (can_write this) l -> NoDup l.*1 ->
  forall (es : entries_t) (big : entries_file), exists (es' : entries_t) (fs : entries_file), write_loop this l es big = Ok (es', big ++ fs) /\
    forall acc : entries_t, exists acc' : entries_t, parse_entries fs acc = Ok acc' /\
      forall k : bytes, acc' !! k = match (list_to_map l : entries_t) !! k with
        | Some e => if bool_decide (k = SVN_WC_ENTRY_THIS_DIR) then acc !! k else Some (stored this k e)
        | None => acc !! k
        end.
Proof.
  intros Hu. induction l as [|[key e] l IH]; intros Hl Hnd es big; cbn [write_loop].
  - exists es, []. rewrite app_nil_r. split; [done|]. intros acc. by exists acc.
  - apply list.Forall_cons in Hl as [(He & Hn & Hdot) Hl]. apply list.NoDup_cons in Hnd as [Hk Hnd]. cbn [fst snd] in *.
    assert ((list_to_map l : entries_t) !! key = None) as Hnone by (by apply not_elem_of_list_to_map_1).
    specialize (IH Hl Hnd). case_bool_decide as Hthis.
    + destruct (IH es big) as (es' & fs & E & Hp). exists es', fs. split; [done|]. intros acc.
      destruct (Hp acc) as (acc' & E' & H'). exists acc'. split; [done|]. intros k. rewrite H'. cbn [list_to_map foldr fst snd uncurry].
      destruct (decide (k = key)) as [->|Hne]; [by rewrite Hnone, lookup_insert_eq, bool_decide_true|by rewrite lookup_insert_ne].
    + destruct (write_entry_ok this key e He Hn Hdot Hu) as (atts & flags & Ew & Hp0 & Er). rewrite Ew. cbn [mbind outcome_bind].
      destruct (IH (<[key := set_name key e]> es) (big ++ [svn_xml_make_open_tag_hash atts])) as (es' & fs & E & Hp). exists es', (svn_xml_make_open_tag_hash atts :: fs).
      split; [by rewrite E, <- app_assoc|]. intros acc. cbn [parse_entries]. rewrite atts_roundtrip by done. cbn [mbind outcome_bind]. rewrite (start_tag_ok _ _ _ _ _ acc Er).
      cbn [mbind outcome_bind]. destruct (Hp (<[key := stored this key e]> acc)) as (acc' & E' & H'). exists acc'. split; [done|].
      intros k. rewrite H'. cbn [list_to_map foldr fst snd uncurry].
      destruct (decide (k = key)) as [->|Hne]; [by rewrite Hnone, !lookup_insert_eq, bool_decide_false|by rewrite !lookup_insert_ne].
Qed.

Section files.
Context (hash_order : forall A : Type, gmap bytes A -> list (bytes * A)).
Context (order_ok : forall (A : Type) (h : gmap bytes A), hash_order A h ≡ₚ map_to_list h).

Lemma order_map {A : Type} (h : gmap bytes A) : list_to_map (hash_order A h) = h /\ NoDup (hash_order A h).*1.
Proof.
  assert (NoDup (hash_order A h).*1) as Hnd by (rewrite order_ok; apply NoDup_fst_map_to_list).
  split; [|done]. rewrite (list_to_map_proper _ (map_to_list h)) by (done || apply order_ok). apply list_to_map_to_list.
Qed.

(** Entries that can be written: those of a directory with a revision and a URL. *)
Record entries_ok (this : svn_wc_entry_t) (es : entries_t) : Prop := {
  eo_this : es !! SVN_WC_ENTRY_THIS_DIR = Some this;
  eo_rev : is_valid_revnum (we_revision this) = true;
  eo_url : is_Some (we_url this);
  eo_each : forall (k : bytes) (e : svn_wc_entry_t), es !! k = Some e -> can_write this (k, e);
}.

Lemma stored_set_name this k k' e : stored this k (set_name k' e) = stored this k e.
Proof. done. Qed.

Lemma entries_write_ok (this : svn_wc_entry_t) (es : entries_t) : entries_ok this es ->
  exists (es' : entries_t) (file : entries_file), svn_wc__entries_write hash_order es = Ok (es', file) /\
    parse_entries file ∅ = Ok (map_imap (λ k e, Some (stored this k e)) es).
Proof.
  intros [Hthis Hrev Hurl Heach]. unfold svn_wc__entries_write. rewrite Hthis.
  destruct (Heach _ _ Hthis) as (Hok & Hn & Hdot). cbn [fst snd] in *.
  destruct (write_entry_ok this _ this Hok Hn Hdot Hurl) as (atts & flags & Ew & Hp0 & Er). rewrite Ew. cbn [mbind outcome_bind].
  set (this' := set_name SVN_WC_ENTRY_THIS_DIR this). set (es1 := <[SVN_WC_ENTRY_THIS_DIR := this']> es).
  destruct (order_map es1) as [Hmap Hnd].
  destruct (write_loop_ok this' (hash_order _ es1)) with (es := es1) (big := [svn_xml_make_open_tag_hash atts]) as (es' & fs & E & Hp); [done| |done|].
  { apply list.Forall_forall. intros [k e] Hin. rewrite order_ok in Hin. apply elem_of_map_to_list in Hin. unfold es1 in Hin.
    destruct (decide (k = SVN_WC_ENTRY_THIS_DIR)) as [->|Hne];
      [rewrite lookup_insert_eq in Hin; injection Hin as <-; split; [by apply set_name_ok|done]|].
    rewrite lookup_insert_ne in Hin by done. by apply Heach. }
  exists es', ([svn_xml_make_open_tag_hash atts] ++ fs). split; [done|]. cbn [app parse_entries]. rewrite atts_roundtrip by done. cbn [mbind outcome_bind]. rewrite (start_tag_ok _ _ _ _ _ ∅ Er). cbn [mbind outcome_bind].
  destruct (Hp (<[SVN_WC_ENTRY_THIS_DIR := stored this SVN_WC_ENTRY_THIS_DIR this]> ∅)) as (acc & Ea & Ha). rewrite Ea. f_equal.
  apply map_eq. intros k. rewrite Ha, Hmap, map_lookup_imap. unfold es1.
  destruct (decide (k = SVN_WC_ENTRY_THIS_DIR)) as [->|Hne].
  - rewrite !lookup_insert_eq, Hthis, bool_decide_true by done. done.
  - rewrite !lookup_insert_ne by done. rewrite lookup_empty. by destruct (es !! k); [rewrite bool_decide_false|].
Qed.

Lemma resolve_loop_ok (d : svn_wc_entry_t) (f : bytes -> svn_wc_entry_t -> svn_wc_entry_t) (l : list (bytes * svn_wc_entry_t)) :
  NoDup l.*1 ->
  (forall (k : bytes) (e : svn_wc_entry_t), (k, e) ∈ l -> k <> SVN_WC_ENTRY_THIS_DIR -> we_kind e = svn_node_file -> take_from_entry d e = Ok (f k e)) ->
  forall es : entries_t, exists es' : entries_t, resolve_loop d l es = Ok es' /\
    forall k : bytes, es' !! k = match (list_to_map l : entries_t) !! k with
      | Some e => if bool_decide (k <> SVN_WC_ENTRY_THIS_DIR /\ we_kind e = svn_node_file) then Some (f k e) else es !! k
      | None => es !! k
      end.
Proof.
  induction l as [|[key e] l IH]; intros Hnd Hf es; cbn [resolve_loop]; [by exists es|].
  apply list.NoDup_cons in Hnd as [Hk Hnd]. cbn [fst] in *.
  assert ((list_to_map l : entries_t) !! key = None) as Hnone by (by apply not_elem_of_list_to_map_1).
  assert (forall es1 : entries_t, (forall k : bytes, k <> key -> es1 !! k = es !! k) ->
    es1 !! key = (if bool_decide (key <> SVN_WC_ENTRY_THIS_DIR /\ we_kind e = svn_node_file) then Some (f key e) else es !! key) ->
    exists es' : entries_t, resolve_loop d l es1 = Ok es' /\
      forall k : bytes, es' !! k = match (list_to_map ((key, e) :: l) : entries_t) !! k with
        | Some e => if bool_decide (k <> SVN_WC_ENTRY_THIS_DIR /\ we_kind e = svn_node_file) then Some (f k e) else es !! k
        | None => es !! k
        end) as Hrest.
  { intros es1 H1 H2. destruct (IH Hnd) with (es := es1) as (es' & E & H); [intros k x Hin; by apply Hf; right|]. exists es'. split; [done|].
    intros k. rewrite H. cbn [list_to_map foldr fst snd uncurry].
    destruct (decide (k = key)) as [->|Hne]; [by rewrite Hnone, lookup_insert_eq|rewrite lookup_insert_ne, H1 by done].
    done. }
  destruct (decide (key = SVN_WC_ENTRY_THIS_DIR)) as [Hthis|Hthis];
    [rewrite (bool_decide_true (key = _)) by done; apply Hrest; [done|by rewrite bool_decide_false by tauto]|rewrite (bool_decide_false (key = _)) by done].
  destruct (decide (we_kind e = svn_node_dir)) as [Hdir|Hdir];
    [rewrite (bool_decide_true (_ = svn_node_dir)) by done; apply Hrest; [done|]; rewrite bool_decide_false; [done|by intros [_ ?]; congruence]|].
  rewrite (bool_decide_false (_ = svn_node_dir)) by done.
  destruct (decide (we_kind e = svn_node_file)) as [Hfile|Hfile];
    [rewrite (bool_decide_true (_ = svn_node_file)) by done|rewrite (bool_decide_false (_ = svn_node_file)) by done].
  - rewrite (Hf key e); [cbn [mbind outcome_bind]|by left|done|done].
    apply Hrest; [intros k Hne; by apply lookup_insert_ne|rewrite lookup_insert_eq, bool_decide_true; done].
  - apply Hrest; [done|]. rewrite bool_decide_false; [done|by intros [_ ?]].
Qed.

Lemma take_ok (this e : svn_wc_entry_t) (name : bytes) : is_valid_revnum (we_revision this) = true -> is_Some (we_url this) ->
  name <> SVN_WC_ENTRY_THIS_DIR -> kept_kind (we_kind e) = svn_node_file ->
  take_from_entry (stored this SVN_WC_ENTRY_THIS_DIR this) (stored this name e) = Ok (kept this name e).
Proof.
  intros Hv [url Hu] Hthis Hkind. assert (we_kind e <> svn_node_dir) as Hdir by (intros E; by rewrite E in Hkind).
  unfold stored, kept. rewrite (bool_decide_true (SVN_WC_ENTRY_THIS_DIR = _)), !(bool_decide_false (name = _)) by done.
  rewrite (bool_decide_false (we_kind e = svn_node_dir)), Hkind by done.
  assert (kept_rev (we_revision this) = we_revision this) as -> by (unfold kept_rev; by rewrite Hv). rewrite Hu.
  set (rev := if we_revision e =? we_revision this then SVN_INVALID_REVNUM else kept_rev (we_revision e)).
  assert ((if bool_decide (rev = SVN_INVALID_REVNUM) then we_revision this else rev) =
    (if is_valid_revnum (we_revision e) then we_revision e else we_revision this)) as Hrev.
  { unfold rev, kept_rev. destruct (Z.eqb_spec (we_revision e) (we_revision this)) as [->|Hne]; [by rewrite Hv, bool_decide_true|].
    destruct (is_valid_revnum (we_revision e)) eqn:Hve; [|by rewrite bool_decide_true].
    apply Z.leb_le in Hve. rewrite bool_decide_false; [done|]. unfold SVN_INVALID_REVNUM. lia. }
  assert (obvious_url this name = svn_path_add_component url name) as Hob by (unfold obvious_url; by rewrite Hu).
  unfold take_from_entry. cbn [we_kind kept_fields]. rewrite Hkind, (bool_decide_true (svn_node_file <> _)), andb_true_r by done.
  cbn [we_revision kept_fields we_url]. rewrite <- Hrev, Hob. unfold to_be_added, obvious_url. destruct (we_url e) as [u|].
  - destruct (decide (u = svn_path_add_component url name)) as [->|Hu'].
    + rewrite (bool_decide_true (Some _ = _)), (bool_decide_true (svn_path_add_component url name = _)) by done.
      destruct (bool_decide (rev = SVN_INVALID_REVNUM)), (we_schedule e) eqn:Hs; unfold kept_fields, set_revision; cbn; rewrite Hs; done.
    + rewrite (bool_decide_false (Some u = _)), (bool_decide_false (u = _)) by congruence.
      by destruct (bool_decide (rev = SVN_INVALID_REVNUM)).
  - rewrite (bool_decide_false (None = Some _)) by done.
    destruct (bool_decide (rev = SVN_INVALID_REVNUM)), (we_schedule e) eqn:Hs; unfold kept_fields, set_revision; cbn; rewrite Hs; done.
Qed.

Definition kept_entries (this : svn_wc_entry_t) (es : entries_t) : entries_t := map_imap (λ k e, Some (kept this k e)) es.

Lemma kept_entries_lookup (this : svn_wc_entry_t) (es : entries_t) (k : bytes) : kept_entries this es !! k = kept this k <$> es !! k.
Proof. unfold kept_entries. rewrite map_lookup_imap. by destruct (es !! k). Qed.

(** Entries that are not resolved. *)
Lemma stored_kept (this : svn_wc_entry_t) (name : bytes) (e : svn_wc_entry_t) : (name = SVN_WC_ENTRY_THIS_DIR -> is_valid_revnum (we_revision e) = true) ->
  ~ (name <> SVN_WC_ENTRY_THIS_DIR /\ we_kind (stored this name e) = svn_node_file) -> stored this name e = kept this name e.
Proof.
  unfold stored, kept. destruct (decide (name = SVN_WC_ENTRY_THIS_DIR)) as [Hn|Hn].
  - intros Hv _. rewrite bool_decide_true by done. unfold kept_rev. by rewrite Hv.
  - rewrite !(bool_decide_false (name = _)) by done. intros _ H. destruct (we_kind e) eqn:Hk; cbn [kept_kind] in *; try done.
    + exfalso. apply H. split; [done|]. rewrite bool_decide_false by done. cbn. by rewrite Hk.
    + exfalso. apply H. split; [done|]. rewrite bool_decide_false by done. cbn. by rewrite Hk.
Qed.

Lemma kept_kind_stored (this : svn_wc_entry_t) (name : bytes) (e : svn_wc_entry_t) : we_kind (stored this name e) = kept_kind (we_kind e).
Proof. unfold stored. by repeat case_bool_decide. Qed.

Lemma entries_read_ok (this : svn_wc_entry_t) (es : entries_t) : entries_ok this es ->
  exists (es' : entries_t) (file : entries_file), svn_wc__entries_write hash_order es = Ok (es', file) /\
    read_entries hash_order file = Ok (kept_entries this es).
Proof.
  intros Hok. destruct (entries_write_ok this es Hok) as (es' & file & E & Hp). destruct Hok as [Hthis Hrev Hurl Heach].
  exists es', file. split; [done|]. unfold read_entries. rewrite Hp. cbn [mbind outcome_bind].
  set (st := map_imap _ es). assert (forall k : bytes, st !! k = stored this k <$> es !! k) as Hst.
  { intros k. unfold st. rewrite map_lookup_imap. by destruct (es !! k). }
  unfold resolve_to_defaults. rewrite Hst, Hthis. cbn [fmap option_fmap option_map].
  assert (we_revision (stored this SVN_WC_ENTRY_THIS_DIR this) = we_revision this /\ we_url (stored this SVN_WC_ENTRY_THIS_DIR this) = we_url this) as [Er Eu].
  { unfold stored. rewrite bool_decide_true by done. cbn. unfold kept_rev. by rewrite Hrev. }
  rewrite Er, Eu, bool_decide_false by (intros E'; by rewrite E' in Hrev). rewrite bool_decide_false by (intros E'; rewrite E' in Hurl; by destruct Hurl).
  destruct (order_map st) as [Hmap Hnd].
  destruct (resolve_loop_ok (stored this SVN_WC_ENTRY_THIS_DIR this) (λ k _, default (stored this k this) (kept this k <$> es !! k)) (hash_order _ st)) with (es := st)
    as (r & Er' & Hr); [done| |].
  - intros k e Hin Hk Hkind. rewrite order_ok in Hin. apply elem_of_map_to_list in Hin. rewrite Hst in Hin.
    destruct (es !! k) as [x|] eqn:Ek; [|done]. injection Hin as <-. rewrite kept_kind_stored in Hkind. by apply take_ok.
  - rewrite Er'. f_equal. apply map_eq. intros k. rewrite Hr, Hmap, kept_entries_lookup, !Hst.
    destruct (es !! k) as [x|] eqn:Ek; cbn [fmap option_fmap option_map default]; [|done]. case_bool_decide as Hc; [done|].
    f_equal. apply stored_kept; [|done]. intros ->. by rewrite Hthis in Ek; injection Ek as <-.
Qed.

Lemma kept_this_url this : we_url (kept this SVN_WC_ENTRY_THIS_DIR this) = we_url this /\ we_revision (kept this SVN_WC_ENTRY_THIS_DIR this) = we_revision this.
Proof. unfold kept. by rewrite bool_decide_true. Qed.

Lemma kept_rev_twice rev : kept_rev (kept_rev rev) = kept_rev rev.
Proof. unfold kept_rev at 2 3. destruct (is_valid_revnum rev) eqn:E; [unfold kept_rev; by rewrite E|done]. Qed.

Lemma kept_fields_twice (name : bytes) (e : svn_wc_entry_t) rev rev' (url url' : option bytes) :
  kept_fields name (kept_fields name e rev url) rev' url' = kept_fields name e rev' url' /\ kept_kind (we_kind (kept_fields name e rev url)) = kept_kind (we_kind e).
Proof. unfold kept_fields. cbn. rewrite !kept_rev_twice. by destruct (we_kind e). Qed.

Lemma kept_kept (this : svn_wc_entry_t) (name : bytes) (e : svn_wc_entry_t) : is_valid_revnum (we_revision this) = true ->
  kept (kept this SVN_WC_ENTRY_THIS_DIR this) name (kept this name e) = kept this name e.
Proof.
  intros Hv. destruct (kept_this_url this) as [Eu Er].
  unfold kept at 1. unfold obvious_url. rewrite Eu, Er. fold (obvious_url this name). unfold kept. set (ob := obvious_url this name).
  destruct (bool_decide (name = _)); [apply kept_fields_twice|].
  destruct (kept_kind (we_kind e)) eqn:Hk; lazy match.
  1, 4: rewrite (proj2 (kept_fields_twice _ _ _ 0 _ None)), Hk, (proj1 (kept_fields_twice _ _ _ _ _ _)); cbn [we_revision we_url kept_fields]; f_equal.
  1, 3: destruct (we_revision e =? we_revision this) eqn:E; [by destruct (SVN_INVALID_REVNUM =? we_revision this)|];
    rewrite kept_rev_twice; unfold kept_rev; destruct (is_valid_revnum (we_revision e)); [by rewrite E|by destruct (SVN_INVALID_REVNUM =? we_revision this)].
  1, 2: destruct (decide (we_url e = Some ob)) as [E|E];
    [by rewrite (bool_decide_true (we_url e = _))|by rewrite !(bool_decide_false (we_url e = _))].
  - rewrite (proj2 (kept_fields_twice _ _ _ 0 _ None)), Hk, (proj1 (kept_fields_twice _ _ _ _ _ _)). cbn [we_revision we_url kept_fields].
    f_equal; [destruct (is_valid_revnum (we_revision e)) eqn:E; by rewrite ?E, ?Hv|].
    change (to_be_added (kept_fields _ _ _ _)) with (to_be_added e).
    destruct (we_url e) as [v|]; [|by destruct (to_be_added e); rewrite ?andb_false_r].
    destruct (to_be_added e); rewrite ?andb_true_r, ?andb_false_r; [|by rewrite ?andb_false_r].
    destruct (decide (v = ob)) as [->|Hne];
      [by rewrite (bool_decide_true (ob = ob))|by rewrite !(bool_decide_false (v = ob))].
  - by rewrite (proj2 (kept_fields_twice _ _ _ 0 _ None)), Hk, (proj1 (kept_fields_twice _ _ _ _ _ _)).
Qed.

Lemma strings_url e : Forall plain_text (entry_strings e) -> plain_text (we_url e).
Proof. by intros [H _]%list.Forall_cons. Qed.

Lemma obvious_printable (this : svn_wc_entry_t) (name : bytes) : plain_text (we_url this) -> printable name -> printable (obvious_url this name).
Proof. intros Hu. apply add_component_printable. destruct (we_url this); [done|by constructor]. Qed.

Lemma kept_strings (this : svn_wc_entry_t) (name : bytes) (e : svn_wc_entry_t) : plain_text (we_url this) -> printable name ->
  Forall plain_text (entry_strings e) -> Forall plain_text (entry_strings (kept this name e)).
Proof.
  intros Hu Hn He. pose proof (obvious_printable this name Hu Hn) as Ho. pose proof (strings_url e He) as Heu.
  assert (exists rev url, kept this name e = kept_fields name e rev url /\ plain_text url) as (rev & url & -> & Hurl).
  { unfold kept. repeat case_match; eexists _, _; (split; [reflexivity|]); done. }
  unfold entry_strings in *. rewrite !list.Forall_cons in *. destruct_and!. by split_and!.
Qed.

Lemma kept_entries_ok (this : svn_wc_entry_t) (es : entries_t) : entries_ok this es ->
  entries_ok (kept this SVN_WC_ENTRY_THIS_DIR this) (kept_entries this es).
Proof.
  intros [Hthis Hrev Hurl Heach]. destruct (kept_this_url this) as [Eu Er]. split; rewrite ?Er, ?Eu; try done.
  - by rewrite kept_entries_lookup, Hthis.
  - intros k e. rewrite kept_entries_lookup. destruct (es !! k) as [x|] eqn:Ek; [|done]. intros [= <-].
    destruct (Heach _ _ Ek) as ([Hr Hf Hc Ht Hp Hd Hs] & Hn & Hdot). cbn [fst snd] in *. split; [|by split]. cbn [snd].
    destruct (Heach _ _ Hthis) as ([Hrt _ _ _ _ _ Hst] & _). cbn [snd] in *.
    assert (forall r, r < two63 -> kept_rev r < two63) as Hkr by (intros r Hr'; unfold kept_rev; destruct (is_valid_revnum r); [done|reflexivity]).
    assert (SVN_INVALID_REVNUM < two63) by reflexivity. pose proof (Hkr _ Hr).
    pose proof (kept_strings this k x (strings_url _ Hst) Hn Hs) as Hks. unfold kept in Hks |- *.
    repeat case_match; split; cbn [we_revision we_copyfrom_rev we_cmt_rev we_text_time we_prop_time we_cmt_date kept_fields]; auto.
Qed.

(** C8. The entries file: the entries of a directory whose strings are printable ASCII
    ([entries_ok]) are written to a file that is well-formed and is read again, up to
    what the file does not hold ([kept]: what is derived from the directory's own entry,
    and what is lost), whatever the order of the hash table; and entries that were read
    come back as they are. *)
Theorem entries_roundtrip (this : svn_wc_entry_t) (es : entries_t) : entries_ok this es ->
  exists (es1 : entries_t) (file : entries_file), svn_wc__entries_write hash_order es = Ok (es1, file) /\
    read_entries hash_order file = Ok (kept_entries this es) /\
    exists (es2 : entries_t) (file2 : entries_file), svn_wc__entries_write hash_order (kept_entries this es) = Ok (es2, file2) /\
      read_entries hash_order file2 = Ok (kept_entries this es).
Proof.
  intros Hok. destruct (entries_read_ok this es Hok) as (es1 & file & E & F). exists es1, file. split; [done|]. split; [done|].
  destruct (entries_read_ok _ _ (kept_entries_ok this es Hok)) as (es2 & file2 & E2 & F2). exists es2, file2. split; [done|].
  rewrite F2. f_equal. apply map_eq. intros k. rewrite !kept_entries_lookup. destruct (es !! k) as [e|]; [|done].
  cbn [fmap option_fmap option_map]. f_equal. apply kept_kept. by destruct Hok.
Qed.
End files.
End entries_ok.

(** ** Schedules

    What a schedule means for a name: whether it is in the base revision, and what is at
    the name when the changes are committed: nothing, what the base has, or something
    new. *)
Inductive committed_as := Nothing | AsBefore | Anew.

Definition meaning (schedule : option svn_wc_schedule_t) : bool * committed_as :=
  match schedule with
  | None => (false, Nothing)
  | Some svn_wc_schedule_normal => (true, AsBefore)
  | Some svn_wc_schedule_add => (false, Anew)
  | Some svn_wc_schedule_delete => (true, Nothing)
  | Some svn_wc_schedule_replace => (true, Anew)
  end.

(** A request: to add needs a name that has nothing of the base, to delete and to replace
    need a name that is known. *)
Definition request (schedule : svn_wc_schedule_t) (st : bool * committed_as) : option (bool * committed_as) :=
  match schedule, st with
  | svn_wc_schedule_add, (_, AsBefore) => None
  | svn_wc_schedule_add, (base, _) => Some (base, Anew)
  | _, (false, Nothing) => None
  | svn_wc_schedule_normal, st => Some st
  | svn_wc_schedule_delete, (base, _) => Some (base, Nothing)
  | svn_wc_schedule_replace, (base, _) => Some (base, Anew)
  end.

Lemma has_ldiff flags s b : Z.ldiff b s = b -> has (Z.ldiff flags s) b = has flags b.
Proof.
  intros Hb. unfold has. do 2 f_equal. rewrite <- Hb at 1. apply Z.bits_inj'. intros n Hn.
  rewrite !Z.land_spec, !Z.ldiff_spec, <- Hb, Z.ldiff_spec. by destruct (Z.testbit flags n), (Z.testbit s n), (Z.testbit b n).
Qed.

Lemma has_ldiff_same flags s : has (Z.ldiff flags s) s = false.
Proof.
  unfold has. assert (Z.land (Z.ldiff flags s) s = 0) as ->; [|done]. apply Z.bits_inj'. intros n Hn.
  rewrite Z.land_spec, Z.ldiff_spec, Z.bits_0. by destruct (Z.testbit flags n), (Z.testbit s n).
Qed.

(** The entries are below a directory that is to be deleted. *)
Definition in_deleted (this : svn_wc_entry_t) (name : bytes) : Prop :=
  name <> SVN_WC_ENTRY_THIS_DIR /\ we_schedule this = svn_wc_schedule_delete.

(** The flags, but for that of the schedule. *)
Definition same_flags (flags flags' : Z) : Prop := forall b, Z.ldiff b SVN_WC__ENTRY_MODIFY_SCHEDULE = b -> has flags' b = has flags b.

Lemma same_flags_refl flags : same_flags flags flags.
Proof. by intros b _. Qed.

Lemma same_flags_ldiff flags : same_flags flags (Z.ldiff flags SVN_WC__ENTRY_MODIFY_SCHEDULE).
Proof. intros b Hb. by apply has_ldiff. Qed.

#[local] Hint Resolve same_flags_refl same_flags_ldiff : svn.

Lemma fold_scheduling_ok (this : svn_wc_entry_t) (es : entries_t) (name : bytes) flags s :
  es !! SVN_WC_ENTRY_THIS_DIR = Some this -> has flags SVN_WC__ENTRY_MODIFY_SCHEDULE = true -> has flags SVN_WC__ENTRY_MODIFY_FORCE = false ->
  ~ (in_deleted this name /\ is_Some (es !! name) /\ (s = svn_wc_schedule_add \/ s = svn_wc_schedule_replace)) ->
  ~ (name = SVN_WC_ENTRY_THIS_DIR /\ we_schedule this = svn_wc_schedule_add /\ s = svn_wc_schedule_delete) ->
  match request s (meaning (we_schedule <$> es !! name)) with
  | None => fold_scheduling es name flags s = Err SVN_ERR_WC_SCHEDULE_CONFLICT
  | Some st => exists (es' : entries_t) flags' s', fold_scheduling es name flags s = Ok (es', flags', s') /\ same_flags flags flags' /\
      (es' = delete name es /\ name <> SVN_WC_ENTRY_THIS_DIR /\ is_Some (es !! name) /\ st = meaning None \/
       es' = es /\ st = meaning (Some (if has flags' SVN_WC__ENTRY_MODIFY_SCHEDULE then s' else we_schedule (default alloc_entry (es !! name)))))
  end.
Proof.
  intros Hthis Hs Hf Hdel Hassert. unfold fold_scheduling. rewrite Hs, Hf. cbn [negb].
  destruct (es !! name) as [e|] eqn:Ee; cbn [fmap option_fmap option_map].
  2: { destruct s; cbn; try done. exists es, flags, svn_wc_schedule_add. rewrite Hs. auto using same_flags_refl. }
  assert (exists deleted, (if bool_decide (name = SVN_WC_ENTRY_THIS_DIR) then Ok false
      else this_dir_entry ← non_null (es !! SVN_WC_ENTRY_THIS_DIR); Ok (bool_decide (we_schedule this_dir_entry = svn_wc_schedule_delete))) = Ok deleted /\
    deleted && (bool_decide (s = svn_wc_schedule_add) || bool_decide (s = svn_wc_schedule_replace)) = false) as (deleted & Ed & Hd).
  { case_bool_decide as Hn; [by exists false|]. rewrite Hthis. cbn. eexists. split; [done|]. apply not_true_iff_false.
    intros [H1%bool_decide_eq_true H2%orb_true_iff]%andb_true_iff. apply Hdel. split; [done|]. split; [done|].
    destruct H2 as [H2%bool_decide_eq_true|H2%bool_decide_eq_true]; auto. }
  rewrite Ed. cbn [mbind outcome_bind]. rewrite Hd. unfold merge_schedule. change (default alloc_entry (Some e)) with e.
  assert (name = SVN_WC_ENTRY_THIS_DIR -> e = this) as Hsame by (intros ->; congruence).
  destruct (we_schedule e) eqn:Ese, s; cbn [meaning request]; try reflexivity; try (
    eexists _, _, _; split; [reflexivity|]; split; [auto with svn|]; right; split; [reflexivity|];
    rewrite ?has_ldiff_same, ?Hs; try reflexivity; by destruct (has flags SVN_WC__ENTRY_MODIFY_SCHEDULE)).
  rewrite bool_decide_false; [|intros Hn; apply Hassert; split; [done|]; by rewrite <- (Hsame Hn)]. cbn [negb c_assert mbind outcome_bind].
  eexists _, _, _. split; [reflexivity|]. split; [auto with svn|]. left. split; [done|].
  split; [intros Hn; apply Hassert; split; [done|]; by rewrite <- (Hsame Hn)|done].
Qed.

Section modify.
Context `{apr : !AprTime} `{laws : ExpatLaws} (hash_order : forall A : Type, gmap bytes A -> list (bytes * A)).
Context (order_ok : forall (A : Type) (h : gmap bytes A), hash_order A h ≡ₚ map_to_list h).

(** The change leaves the directory's own entry a revision and a URL. *)
Definition change_ok (name : bytes) (flags : Z) (e : svn_wc_entry_t) : Prop :=
  entry_ok e /\ printable name /\ name <> bstr "." /\
  (name = SVN_WC_ENTRY_THIS_DIR ->
     (has flags SVN_WC__ENTRY_MODIFY_URL = true -> is_Some (we_url e)) /\
     (has flags SVN_WC__ENTRY_MODIFY_REVISION = true -> is_valid_revnum (we_revision e) = true)).

Lemma fold_field_or {A : Type} flags b (new old : A) (P : A -> Prop) : P new -> P old -> P (fold_field flags b new old).
Proof. unfold fold_field. by destruct (has flags b). Qed.

Lemma fold_fields_ok (flags : Z) (name : bytes) (e cur : svn_wc_entry_t) : printable name -> entry_ok e -> entry_ok cur ->
  entry_ok (fold_fields flags name e cur).
Proof.
  intros Hname [] []. split; cbn [fold_fields we_revision we_copyfrom_rev we_cmt_rev we_text_time we_prop_time we_cmt_date]; [by apply fold_field_or..|].
  unfold entry_strings in *. rewrite !list.Forall_cons in *. destruct_and!. cbn [fold_fields we_url we_copyfrom_url we_conflict_old we_conflict_new we_conflict_wrk we_prejfile we_cmt_author we_name].
  split_and!; first [by apply (fold_field_or _ _ _ _ plain_text)|by constructor|by destruct (we_name cur)].
Qed.

Lemma alloc_entry_ok : entry_ok alloc_entry.
Proof. split; cbn; try (by left); try reflexivity. by repeat constructor. Qed.

(** [take_from_entry] sets the revision and the URL and nothing else. *)
Lemma take_result (this e : svn_wc_entry_t) : is_Some (we_url this) -> is_Some (we_name e) ->
  exists x, take_from_entry this e = Ok x /\ we_schedule x = we_schedule e /\ (is_Some (we_url e) -> we_url x = we_url e) /\
    (we_revision x = we_revision e \/ we_revision e = SVN_INVALID_REVNUM /\ we_revision x = we_revision this) /\
    (entry_ok this -> entry_ok e -> entry_ok x).
Proof.
  intros [url Hu] [name Hn]. unfold take_from_entry.
  set (dst := if bool_decide (we_revision e = SVN_INVALID_REVNUM) && _ then _ else e).
  assert (we_schedule dst = we_schedule e /\ we_url dst = we_url e /\ we_name dst = we_name e /\
    (we_revision dst = we_revision e \/ we_revision e = SVN_INVALID_REVNUM /\ we_revision dst = we_revision this) /\
    (entry_ok this -> entry_ok e -> entry_ok dst)) as (Es & Eu & En & Er & Hok).
  { unfold dst. destruct (bool_decide (we_revision e = _)) eqn:E; cbn [andb]; [|by split_and!; auto].
    apply bool_decide_eq_true in E. destruct (bool_decide _); [|by split_and!; auto]. split_and!; auto. intros [] []. by split. }
  rewrite Eu. destruct (we_url e) as [u|] eqn:Eue.
  - rewrite bool_decide_false by done. cbn [andb]. by exists dst.
  - rewrite bool_decide_true by done. cbn [andb]. destruct (negb _); [|by exists dst; split_and!; auto].
    rewrite Hu, En, Hn. cbn [non_null mbind outcome_bind]. eexists. split; [reflexivity|]. cbn [set_url we_schedule we_url we_revision].
    split_and!; auto; [by intros []|]. intros H1 H2. destruct (Hok H1 H2). split; try done.
    unfold entry_strings in *. cbn [we_url we_copyfrom_url we_conflict_old we_conflict_new we_conflict_wrk we_prejfile we_cmt_author we_name].
    apply list.Forall_cons. rewrite !list.Forall_cons in *. split; [|by apply ek_strings0].
    apply add_component_printable; [|destruct_and!; by rewrite En, Hn in *]. pose proof (strings_url _ (ek_strings this H1)) as Hup. by rewrite Hu in Hup.
Qed.

Lemma fold_entry_ok (this : svn_wc_entry_t) (es : entries_t) (name : bytes) (flags : Z) (e : svn_wc_entry_t) :
  entries_ok this es -> change_ok name flags e ->
  exists (es' : entries_t) (this' x : svn_wc_entry_t), fold_entry es name flags e = Ok es' /\ entries_ok this' es' /\
    es' !! name = Some x /\ (forall k : bytes, k <> name -> es' !! k = es !! k) /\
    we_schedule x = if has flags SVN_WC__ENTRY_MODIFY_SCHEDULE then we_schedule e else we_schedule (default alloc_entry (es !! name)).
Proof.
  intros [Hthis Hrev Hurl Heach] (He & Hn & Hdot & Hchange). unfold fold_entry.
  set (old := default alloc_entry (es !! name)). set (cur := fold_fields flags name e old).
  assert (entry_ok cur) as Hcur.
  { apply fold_fields_ok; [done..|]. unfold old. destruct (es !! name) as [o|] eqn:Eo; [by apply (Heach name)|apply alloc_entry_ok]. }
  assert (entry_ok this) as Hok by (by apply (Heach _ _ Hthis)).
  set (es1 := alter (λ _, cur) name es).
  assert (exists d, es1 !! SVN_WC_ENTRY_THIS_DIR = Some d /\ (if decide (name = SVN_WC_ENTRY_THIS_DIR) then d = cur else d = this) /\
    is_Some (we_url d) /\ is_valid_revnum (we_revision d) = true /\ entry_ok d) as (d & Ed & Edd & Hdu & Hdr & Hdo).
  { unfold es1. destruct (decide (name = SVN_WC_ENTRY_THIS_DIR)) as [->|Hne].
    - rewrite lookup_alter_eq, Hthis. exists cur. split; [done|]. split; [done|]. destruct (Hchange eq_refl) as [H1 H2].
      assert (old = this) as Eold by (unfold old; by rewrite Hthis).
      assert (we_url cur = fold_field flags SVN_WC__ENTRY_MODIFY_URL (we_url e) (we_url this) /\
        we_revision cur = fold_field flags SVN_WC__ENTRY_MODIFY_REVISION (we_revision e) (we_revision this)) as [-> ->] by (unfold cur; by rewrite Eold).
      unfold fold_field. split; [by destruct (has flags SVN_WC__ENTRY_MODIFY_URL); [apply H1|]|].
      split; [by destruct (has flags SVN_WC__ENTRY_MODIFY_REVISION); [apply H2|]|done].
    - rewrite lookup_alter_ne by done. by exists this. }
  destruct (take_result d cur Hdu) as (x & Ex & Hxs & Hxu & Hxr & Hxo); [by eexists|].
  rewrite Ed. assert (exists y, (if bool_decide (we_kind cur <> svn_node_dir) then take_from_entry d cur else Ok cur) = Ok y /\
    we_schedule y = we_schedule cur /\ entry_ok y /\
    (name = SVN_WC_ENTRY_THIS_DIR -> is_valid_revnum (we_revision y) = true /\ is_Some (we_url y))) as (y & Ey & Hys & Hyo & Hyt).
  { assert (name = SVN_WC_ENTRY_THIS_DIR -> is_valid_revnum (we_revision cur) = true /\ is_Some (we_url cur)) as Hct.
    { intros Ht. rewrite decide_True in Edd by done. by subst d. }
    case_bool_decide; [|by exists cur]. exists x. split_and!; [done..|by apply Hxo|]. intros Ht. destruct (Hct Ht) as [H1 H2].
    split; [|by rewrite Hxu]. destruct Hxr as [-> |[E _]]; [done|]. by rewrite E in H1. }
  rewrite Ey. cbn [mbind outcome_bind].
  exists (<[name := y]> es1), (if decide (name = SVN_WC_ENTRY_THIS_DIR) then y else this), y. split; [done|]. split; [|split_and!].
  - assert (can_write this (name, y)) as Hw by (by split).
    split.
    + destruct (decide (name = SVN_WC_ENTRY_THIS_DIR)) as [->|Hne]; [apply lookup_insert_eq|]. by rewrite lookup_insert_ne, Ed, Edd.
    + destruct (decide (name = SVN_WC_ENTRY_THIS_DIR)) as [Ht|Hne]; [by apply Hyt|done].
    + destruct (decide (name = SVN_WC_ENTRY_THIS_DIR)) as [Ht|Hne]; [by apply Hyt|done].
    + intros k z. destruct (decide (k = name)) as [->|Hk]; [rewrite lookup_insert_eq; by intros [= <-]|].
      rewrite lookup_insert_ne by done. unfold es1. rewrite lookup_alter_ne by done. apply Heach.
  - apply lookup_insert_eq.
  - intros k Hk. rewrite lookup_insert_ne by done. unfold es1. by rewrite lookup_alter_ne.
  - rewrite Hys. unfold cur, fold_fields. cbn [we_schedule]. unfold fold_field. done.
Qed.

Lemma kept_schedule (this : svn_wc_entry_t) (name : bytes) (e : svn_wc_entry_t) : we_schedule (kept this name e) = we_schedule e.
Proof. unfold kept. by repeat case_match. Qed.

Lemma set_schedule_change name flags flags' (e : svn_wc_entry_t) s : same_flags flags flags' -> change_ok name flags e ->
  change_ok name flags' (set_schedule s e).
Proof.
  intros Hf ([] & Hn & Hdot & H). split; [by split|]. split; [done|]. split; [done|]. intros Ht. destruct (H Ht) as [H1 H2].
  split; [rewrite (Hf SVN_WC__ENTRY_MODIFY_URL) by done; apply H1|rewrite (Hf SVN_WC__ENTRY_MODIFY_REVISION) by done; apply H2].
Qed.

Lemma modify_entries_ok (this : svn_wc_entry_t) (es : entries_t) (name : bytes) (flags : Z) (e : svn_wc_entry_t) st :
  entries_ok this es -> change_ok name flags e ->
  has flags SVN_WC__ENTRY_MODIFY_SCHEDULE = true -> has flags SVN_WC__ENTRY_MODIFY_FORCE = false ->
  ~ (in_deleted this name /\ is_Some (es !! name) /\ (we_schedule e = svn_wc_schedule_add \/ we_schedule e = svn_wc_schedule_replace)) ->
  ~ (name = SVN_WC_ENTRY_THIS_DIR /\ we_schedule this = svn_wc_schedule_add /\ we_schedule e = svn_wc_schedule_delete) ->
  request (we_schedule e) (meaning (we_schedule <$> es !! name)) = Some st ->
  exists (es' : entries_t) (this' : svn_wc_entry_t), modify_entries es name e flags = Ok es' /\ entries_ok this' es' /\
    meaning (we_schedule <$> es' !! name) = st /\ (forall k : bytes, k <> name -> es' !! k = es !! k).
Proof.
  intros Hes Hch Hs Hf Hdel Hassert Hreq. pose proof (fold_scheduling_ok this es name flags (we_schedule e) (eo_this _ _ Hes) Hs Hf Hdel Hassert) as H.
  rewrite Hreq in H. destruct H as (es1 & flags1 & s1 & E & Hfl & Hcase). unfold modify_entries. rewrite Hs, E. cbn [mbind outcome_bind].
  destruct Hcase as [(-> & Hne & Hsome & ->)|(-> & ->)].
  - rewrite lookup_delete_eq, (bool_decide_true (is_Some _)), (bool_decide_true (None = None)) by done. cbn [andb].
    exists (delete name es), this. split; [done|]. destruct Hes as [Hthis Hrev Hurl Heach]. split; [|split].
    + split; [by rewrite lookup_delete_ne|done|done|]. intros k x [_ Hk]%lookup_delete_Some. by apply Heach.
    + by rewrite lookup_delete_eq.
    + intros k Hk. by rewrite lookup_delete_ne.
  - assert (bool_decide (is_Some (es !! name)) && bool_decide (es !! name = None) = false) as ->.
    { destruct (es !! name); [by rewrite (bool_decide_false (Some _ = None)), andb_false_r|]. by rewrite bool_decide_false. }
    destruct (fold_entry_ok this es name flags1 (set_schedule s1 e) Hes) as (es' & this' & x & Ef & Hok & Hx & Hk & Hxs);
      [by apply (set_schedule_change _ flags)|].
    exists es', this'. split; [done|]. split; [done|]. split; [|done]. rewrite Hx. cbn [fmap option_fmap option_map]. by rewrite Hxs.
Qed.

(** C7. Scheduling an entry of a working copy: when the change of a schedule is merged into
    an entry, the entry that is read afterwards means what the request makes of what it
    meant before (to add what is deleted is to replace it, to delete what is added is to
    forget it, and so on); a request that means nothing, or that would put something in
    a directory that is to be deleted, is refused and changes nothing; the other entries
    are those that were there, as the file holds them.  The strings of the entries are
    printable ASCII ([entries_ok], [change_ok]). *)
Theorem scheduling_refines (path : bytes) (name : bytes) (e : svn_wc_entry_t) (flags : Z) (wc : gmap bytes entries_file) (file : entries_file)
    (es : entries_t) (this : svn_wc_entry_t) :
  wc !! path = Some file -> read_entries hash_order file = Ok es -> entries_ok this es -> change_ok name flags e ->
  has flags SVN_WC__ENTRY_MODIFY_SCHEDULE = true -> has flags SVN_WC__ENTRY_MODIFY_FORCE = false ->
  (in_deleted this name /\ is_Some (es !! name) /\ (we_schedule e = svn_wc_schedule_add \/ we_schedule e = svn_wc_schedule_replace) ->
     svn_wc__entry_modify hash_order path (Some name) e flags wc = (Err SVN_ERR_WC_SCHEDULE_CONFLICT, wc)) /\
  (~ (in_deleted this name /\ is_Some (es !! name) /\ (we_schedule e = svn_wc_schedule_add \/ we_schedule e = svn_wc_schedule_replace)) ->
   ~ (name = SVN_WC_ENTRY_THIS_DIR /\ we_schedule this = svn_wc_schedule_add /\ we_schedule e = svn_wc_schedule_delete) ->
     match request (we_schedule e) (meaning (we_schedule <$> es !! name)) with
     | None => svn_wc__entry_modify hash_order path (Some name) e flags wc = (Err SVN_ERR_WC_SCHEDULE_CONFLICT, wc)
     | Some st => exists (wc' : gmap bytes entries_file) (es' : entries_t) (this' : svn_wc_entry_t),
         svn_wc__entry_modify hash_order path (Some name) e flags wc = (Ok tt, wc') /\
         svn_wc_entries_read hash_order path wc' = (Ok es', wc') /\ meaning (we_schedule <$> es' !! name) = st /\
         (forall k : bytes, k <> name -> es' !! k = kept this' k <$> es !! k) /\
         forall p : bytes, p <> path -> wc' !! p = wc !! p
     end).
Proof.
  intros Hfile Hread Hes Hch Hs Hf. pose proof (eo_this _ _ Hes) as Hthis.
  assert (svn_wc_entries_read hash_order path wc = (Ok es, wc)) as Er by (unfold svn_wc_entries_read; by rewrite Hfile, Hread).
  unfold svn_wc__entry_modify. rewrite (state_bind_step _ _ _ _ _ Er). cbn [default from_option id]. split.
  - intros ([Hn Hd] & [x Hx] & Hsch). unfold modify_entries, fold_scheduling. rewrite Hs, Hf, Hx. cbn [negb].
    rewrite (bool_decide_false (name = _)) by done. rewrite Hthis. cbn [non_null mbind outcome_bind].
    rewrite (bool_decide_true (we_schedule this = _)) by done.
    destruct Hsch as [-> | ->]; reflexivity.
  - intros Hdel Hassert. destruct (request _ _) as [st|] eqn:Hreq.
    + destruct (modify_entries_ok this es name flags e st Hes Hch Hs Hf Hdel Hassert Hreq) as (es1 & this' & E & Hok & Hm & Hk).
      destruct (entries_read_ok hash_order order_ok this' es1 Hok) as (es2 & file' & Ew & Er').
      rewrite E, lift_bind, Ew, lift_bind. unfold write_file. cbn [snd].
      exists (<[path := file']> wc), (kept_entries this' es1), this'. split; [done|].
      split; [unfold svn_wc_entries_read; by rewrite lookup_insert_eq, Er'|]. split; [|split].
      * rewrite kept_entries_lookup. destruct (es1 !! name) as [x|]; [|done]. cbn [fmap option_fmap option_map] in *. by rewrite kept_schedule.
      * intros k Hne. by rewrite kept_entries_lookup, Hk.
      * intros p Hp. by apply lookup_insert_ne.
    + pose proof (fold_scheduling_ok this es name flags (we_schedule e) Hthis Hs Hf Hdel Hassert) as H. rewrite Hreq in H.
      unfold modify_entries. by rewrite Hs, H.
Qed.
End modify.

(** ** Witnesses *)

Section sample.
#[local] Existing Instance sample_time.
#[local] Existing Instance ascii_expat.
#[local] Existing Instance ascii_expat_ok.

(** A directory with a file, whose URL and revision are not written. *)
Definition dir_entry : svn_wc_entry_t :=
  mk_entry (Some SVN_WC_ENTRY_THIS_DIR) 3 (Some (bstr "file:///r")) None svn_node_dir svn_wc_schedule_normal false None (-1)
    None None None None 0 0 2 100276 (Some (bstr "me")).

Definition file_entry (schedule : svn_wc_schedule_t) : svn_wc_entry_t :=
  mk_entry (Some (bstr "a")) 3 (Some (bstr "file:///r/a")) None svn_node_file schedule false None (-1)
    None None None None 100276 0 1 0 None.

Definition sample_entries : entries_t := <[SVN_WC_ENTRY_THIS_DIR := dir_entry]> (<[bstr "a" := file_entry svn_wc_schedule_normal]> ∅).

Definition plain_order (A : Type) (h : gmap bytes A) : list (bytes * A) := map_to_list h.

Lemma plain_order_ok (A : Type) (h : gmap bytes A) : plain_order A h ≡ₚ map_to_list h.
Proof. done. Qed.

Lemma sample_time_ok : time_ok 100276 /\ time_ok 0.
Proof.
  split; [|by left]. right. exists (bstr "Tue 3 Oct 2000 03:04:05.000017 (day 277, dst 1, gmt_off -18000)").
  split; [by vm_compute|]. split; [by vm_compute|]. split; [done|by apply printable_const].
Qed.

Lemma sample_entries_ok : entries_ok dir_entry sample_entries.
Proof.
  destruct sample_time_ok as [H1 H0]. split; [by vm_compute|done|by eexists|].
  unfold sample_entries. intros k e [[<- <-]|[Hk [[<- <-]|[Hk' Hn]]%lookup_insert_Some]]%lookup_insert_Some; [| |by rewrite lookup_empty in Hn].
  all: split; [split; try done; try reflexivity; repeat constructor|]; split; [by repeat constructor|done].
Qed.

Lemma entries_roundtrip_witness :
  exists (es1 : entries_t) (file : entries_file), svn_wc__entries_write plain_order sample_entries = Ok (es1, file) /\
    read_entries plain_order file = Ok sample_entries.
Proof.
  destruct (entries_roundtrip plain_order plain_order_ok dir_entry sample_entries sample_entries_ok)
    as (es1 & file & E & F & _).
  exists es1, file. split; [exact E|]. rewrite F. reflexivity.
Defined.

(** The file is to be deleted. *)
Lemma scheduling_refines_witness :
  exists (file : entries_file) (wc' : gmap bytes entries_file) (es' : entries_t),
    svn_wc__entry_modify plain_order (bstr "wc") (Some (bstr "a")) (set_schedule svn_wc_schedule_delete alloc_entry)
      SVN_WC__ENTRY_MODIFY_SCHEDULE {[bstr "wc" := file]} = (Ok tt, wc') /\
    svn_wc_entries_read plain_order (bstr "wc") wc' = (Ok es', wc') /\
    meaning (we_schedule <$> es' !! bstr "a") = (true, Nothing).
Proof.
  destruct (entries_read_ok plain_order plain_order_ok dir_entry sample_entries sample_entries_ok)
    as (es1 & file & E & F). exists file.
  destruct (scheduling_refines plain_order plain_order_ok (bstr "wc") (bstr "a")
    (set_schedule svn_wc_schedule_delete alloc_entry) SVN_WC__ENTRY_MODIFY_SCHEDULE {[bstr "wc" := file]} file
    (kept_entries dir_entry sample_entries) (kept dir_entry SVN_WC_ENTRY_THIS_DIR dir_entry)) as [_ H].
  - apply lookup_singleton_eq.
  - exact F.
  - exact (kept_entries_ok dir_entry sample_entries sample_entries_ok).
  - split; [by destruct alloc_entry_ok; split|]. split; [by apply printable_const|]. split; [done|by intros Ha].
  - reflexivity.
  - reflexivity.
  - assert (request svn_wc_schedule_delete (meaning (we_schedule <$> kept_entries dir_entry sample_entries !! bstr "a")) = Some (true, Nothing)) as Hr
      by (rewrite kept_entries_lookup; reflexivity).
    cbn [we_schedule set_schedule] in H. rewrite Hr in H. destruct H as (wc' & es' & this' & E1 & E2 & E3 & _).
    + by intros (_ & _ & [Ha|Ha]).
    + by intros (Ha & _).
    + exists wc', es'. split; [exact E1|]. split; [exact E2|exact E3].
Defined.
End sample.
