(* ===== verification/WcProps.v ===== *)
(** * Properties of a working copy ([libsvn_wc/props.c])

    The changes the user made to properties, whether they are in conflict with those
    of an update, and merging the two.  [hash_order] is the order of a hash table.  A
    file of properties is one of [Hashdump]; its path is an argument. *)

From S2P Require Import Prelude Types KeyGen Libc Skel Proplist Id Stream Db NodeKeys Fs Path Sorts Apr Hashdump.

(** ** Kinds of properties *)

(** The lengths of the prefixes are compared first. *)
Definition svn_wc_is_normal_prop (name : bytes) : bool :=
  let namelen := strlen name in
  let wc_prefix_len := length SVN_PROP_WC_PREFIX in
  let entry_prefix_len := length SVN_PROP_ENTRY_PREFIX in
  if ((namelen <? wc_prefix_len) && (namelen <? entry_prefix_len))%nat then true
  else negb (strncmp_zero wc_prefix_len name SVN_PROP_WC_PREFIX || strncmp_zero entry_prefix_len name SVN_PROP_ENTRY_PREFIX).

Definition svn_wc_is_wc_prop (name : bytes) : bool :=
  let prefix_len := length SVN_PROP_WC_PREFIX in
  negb ((strlen name <? prefix_len)%nat || negb (strncmp_zero prefix_len name SVN_PROP_WC_PREFIX)).

Definition svn_wc_is_entry_prop (name : bytes) : bool :=
  let prefix_len := length SVN_PROP_ENTRY_PREFIX in
  negb ((strlen name <? prefix_len)%nat || negb (strncmp_zero prefix_len name SVN_PROP_ENTRY_PREFIX)).

Definition svn_wc__strip_entry_prefix (name : bytes) : bytes :=
  if negb (svn_wc_is_entry_prop name) then name else drop (length SVN_PROP_ENTRY_PREFIX) name.

(** ** The changes of the user *)

Section changes.
Context (hash_order : forall A : Type, gmap bytes A -> list (bytes * A)).

Fixpoint each_base_prop (localprops : gmap bytes bytes) (baseprops : list (bytes * bytes)) (ary : list svn_prop_t) : list svn_prop_t :=
  match baseprops with
  | [] => ary
  | (key, propval1) :: baseprops =>
      each_base_prop localprops baseprops
        (match localprops !! key with
         | None => ary ++ [mk_prop key None]
         | Some propval2 => if negb (bool_decide (propval1 = propval2)) then ary ++ [mk_prop key (Some propval2)] else ary
         end)
  end.

Fixpoint each_local_prop (baseprops : gmap bytes bytes) (localprops : list (bytes * bytes)) (ary : list svn_prop_t) : list svn_prop_t :=
  match localprops with
  | [] => ary
  | (key, propval2) :: localprops =>
      each_local_prop baseprops localprops
        (match baseprops !! key with None => ary ++ [mk_prop key (Some propval2)] | Some _ => ary end)
  end.

Definition svn_wc_get_local_propchanges (localprops baseprops : gmap bytes bytes) : list svn_prop_t :=
  each_local_prop baseprops (hash_order _ localprops) (each_base_prop localprops (hash_order _ baseprops) []).

(** ** Conflicts *)

(** The description of the conflict, if there is one. *)
Definition svn_wc__conflicting_propchanges_p (local update : svn_prop_t) : option bytes :=
  let name := apr_pstrndup (prop_name local) in
  if bool_decide (apr_pstrndup (prop_name local) = apr_pstrndup (prop_name update)) then None
  else
    match prop_value local, prop_value update with
    | Some value, None =>
        Some (bstr "prop `" ++ name ++ bstr "': user set value to '" ++ apr_pstrndup value ++ bstr "', but update deletes it." ++ [newline])
    | None, Some value =>
        Some (bstr "prop `" ++ name ++ bstr "': user deleted, but update sets it to '" ++ apr_pstrndup value ++ bstr "'." ++ [newline])
    | None, None => None
    | Some value, Some value' =>
        if negb (bool_decide (value = value')) then
          Some (bstr "prop `" ++ name ++ bstr "': user set to '" ++ apr_pstrndup value ++ bstr "', but update set to '"
                ++ apr_pstrndup value' ++ bstr "'." ++ [newline])
        else None
    end.

(** ** Merging *)

(** [basehash], [localhash] and [conflicts]; [reject]: what was appended to the file of
    rejected changes, if it was opened. *)
Record merge_state := mk_merge {
  basehash : gmap bytes bytes;
  localhash : gmap bytes bytes;
  conflicts : gmap bytes svn_prop_t;
  reject : option bytes;
}.

(** The first local change of the same name. *)
Fixpoint find_change (local_propchanges : list svn_prop_t) (name : bytes) : option svn_prop_t :=
  match local_propchanges with
  | [] => None
  | local_change :: l =>
      if bool_decide (apr_pstrndup (prop_name local_change) = apr_pstrndup name) then Some local_change else find_change l name
  end.

Definition merge_change (local_propchanges : list svn_prop_t) (update_change : svn_prop_t) (s : merge_state) : merge_state :=
  let name := apr_pstrndup (prop_name update_change) in
  let value_buf := prop_value update_change in
  let basehash' := partial_alter (λ _, value_buf) name (basehash s) in
  match local_change ← find_change local_propchanges (prop_name update_change); svn_wc__conflicting_propchanges_p local_change update_change with
  | Some conflict_description =>
      mk_merge basehash' (localhash s) (<[name := update_change]> (conflicts s)) (Some (default [] (reject s) ++ conflict_description))
  | None => mk_merge basehash' (partial_alter (λ _, value_buf) name (localhash s)) (conflicts s) (reject s)
  end.

Fixpoint merge_loop (local_propchanges propchanges : list svn_prop_t) (s : merge_state) : merge_state :=
  match propchanges with
  | [] => s
  | update_change :: propchanges => merge_loop local_propchanges propchanges (merge_change local_propchanges update_change s)
  end.

(** [svn_wc__merge_prop_diffs], from the hashes that were loaded to those that are saved. *)
Definition merge_prop_hashes (base local : gmap bytes bytes) (propchanges : list svn_prop_t) : merge_state :=
  let local_propchanges := svn_wc_get_local_propchanges local base in
  merge_loop local_propchanges propchanges (mk_merge base local ∅ None).
End changes.

(** ** What the changes are, and what merging does *)

(** The changes made one after the other. *)
Definition apply_changes (changes : list svn_prop_t) (h : gmap bytes bytes) : gmap bytes bytes :=
  foldl (λ (h : gmap bytes bytes) p, partial_alter (λ _, prop_value p) (prop_name p) h) h changes.

Lemma apply_cons (p : svn_prop_t) (changes : list svn_prop_t) (h : gmap bytes bytes) :
  apply_changes (p :: changes) h = apply_changes changes (partial_alter (λ _, prop_value p) (prop_name p) h).
Proof. done. Qed.

Lemma apply_other (changes : list svn_prop_t) (h : gmap bytes bytes) (k : bytes) : k ∉ prop_name <$> changes -> apply_changes changes h !! k = h !! k.
Proof.
  revert h. induction changes as [|p changes IH]; intros h Hk; [done|]. cbn [fmap list_fmap] in Hk.
  apply not_elem_of_cons in Hk as [Hne Hk]. rewrite apply_cons, IH by done.
  by apply lookup_partial_alter_ne.
Qed.

Lemma apply_in (changes : list svn_prop_t) (h : gmap bytes bytes) (p : svn_prop_t) : NoDup (prop_name <$> changes) -> p ∈ changes ->
  apply_changes changes h !! prop_name p = prop_value p.
Proof.
  revert h. induction changes as [|q changes IH]; intros h Hnd Hp; [by apply not_elem_of_nil in Hp|].
  cbn [fmap list_fmap] in Hnd. apply list.NoDup_cons in Hnd as [Hq Hnd]. rewrite apply_cons.
  apply elem_of_cons in Hp as [->|Hp]; [|by apply IH]. rewrite apply_other by done. apply lookup_partial_alter_eq.
Qed.

Section changes_ok.
Context (hash_order : forall A : Type, gmap bytes A -> list (bytes * A)).
Context (order_ok : forall (A : Type) (h : gmap bytes A), hash_order A h ≡ₚ map_to_list h).

(** What the two loops add for an entry. *)
Definition base_change (localprops : gmap bytes bytes) (e : bytes * bytes) : option svn_prop_t :=
  match localprops !! e.1 with
  | None => Some (mk_prop e.1 None)
  | Some v => if bool_decide (e.2 = v) then None else Some (mk_prop e.1 (Some v))
  end.

Definition local_change (baseprops : gmap bytes bytes) (e : bytes * bytes) : option svn_prop_t :=
  match baseprops !! e.1 with None => Some (mk_prop e.1 (Some e.2)) | Some _ => None end.

Lemma each_base_prop_ok (localprops : gmap bytes bytes) (l : list (bytes * bytes)) (ary : list svn_prop_t) : each_base_prop localprops l ary = ary ++ omap (base_change localprops) l.
Proof.
  revert ary. induction l as [|[k v] l IH]; intros ary; cbn [each_base_prop omap list_omap]; [by rewrite app_nil_r|].
  rewrite IH. unfold base_change at 2. cbn [fst snd]. destruct (localprops !! k) as [w|]; [|by rewrite <- app_assoc].
  by destruct (bool_decide (v = w)); cbn [negb]; rewrite <- ?app_assoc.
Qed.

Lemma each_local_prop_ok (baseprops : gmap bytes bytes) (l : list (bytes * bytes)) (ary : list svn_prop_t) : each_local_prop baseprops l ary = ary ++ omap (local_change baseprops) l.
Proof.
  revert ary. induction l as [|[k v] l IH]; intros ary; cbn [each_local_prop omap list_omap]; [by rewrite app_nil_r|].
  rewrite IH. unfold local_change at 2. cbn [fst snd]. destruct (baseprops !! k) as [w|]; by rewrite <- ?app_assoc.
Qed.

Lemma changes_names (f : bytes * bytes -> option svn_prop_t) (l : list (bytes * bytes)) : (forall e p, f e = Some p -> prop_name p = e.1) ->
  NoDup l.*1 -> NoDup (prop_name <$> omap f l) /\ forall k, k ∈ prop_name <$> omap f l -> k ∈ l.*1.
Proof.
  intros Hf. induction l as [|e l IH]; intros Hnd; [by split; [constructor|]|]. cbn [fmap list_fmap] in Hnd.
  apply list.NoDup_cons in Hnd as [He Hnd]. destruct (IH Hnd) as [H1 H2]. cbn [omap list_omap]. destruct (f e) as [p|] eqn:E.
  - cbn [fmap list_fmap]. rewrite (Hf _ _ E). split; [apply list.NoDup_cons; split; [intros Hin; by apply He, H2|done]|].
    intros k [->|Hk]%elem_of_cons; [by left|right; by apply H2].
  - split; [done|]. intros k Hk. right. by apply H2.
Qed.

Lemma prop_order_elem (h : gmap bytes bytes) (k v : bytes) : (k, v) ∈ hash_order _ h <-> h !! k = Some v.
Proof. rewrite order_ok. apply elem_of_map_to_list. Qed.

Lemma order_names (h : gmap bytes bytes) : NoDup (hash_order _ h).*1 /\ forall k : bytes, k ∈ (hash_order _ h).*1 <-> is_Some (h !! k).
Proof.
  split; [rewrite order_ok; apply NoDup_fst_map_to_list|]. intros k. rewrite list_elem_of_fmap. split.
  - intros ([k' v] & -> & H%prop_order_elem). by eexists.
  - intros [v H]. exists (k, v). split; [done|by apply prop_order_elem].
Qed.

(** C9. [svn_wc_get_local_propchanges] finds the changes that lead from the base to the
    properties of the user: exactly the names whose values differ, each once, with the
    new value or none; making them gives the properties of the user. *)
Theorem propchanges_correct (localprops baseprops : gmap bytes bytes) :
  let changes := svn_wc_get_local_propchanges hash_order localprops baseprops in
  apply_changes changes baseprops = localprops /\ NoDup (prop_name <$> changes) /\
  forall p : svn_prop_t, p ∈ changes <-> baseprops !! prop_name p <> localprops !! prop_name p /\ prop_value p = localprops !! prop_name p.
Proof.
  cbn zeta. unfold svn_wc_get_local_propchanges. rewrite each_base_prop_ok, each_local_prop_ok. cbn [app].
  set (lb := omap _ _). set (ll := omap _ (hash_order bytes localprops)).
  destruct (order_names baseprops) as [Hbn Hbk], (order_names localprops) as [Hln Hlk].
  destruct (changes_names (base_change localprops) (hash_order _ baseprops)) as [Hb1 Hb2]; [|done|].
  { intros [k v] p. unfold base_change. cbn. repeat case_match; by intros [= <-] || done. }
  destruct (changes_names (local_change baseprops) (hash_order _ localprops)) as [Hl1 Hl2]; [|done|].
  { intros [k v] p. unfold local_change. cbn. repeat case_match; by intros [= <-] || done. }
  assert (forall p : svn_prop_t, p ∈ lb <-> is_Some (baseprops !! prop_name p) /\ baseprops !! prop_name p <> localprops !! prop_name p /\
    prop_value p = localprops !! prop_name p) as Eb.
  { intros [n v]. unfold lb. rewrite list_elem_of_omap. cbn [prop_name prop_value]. split.
    - intros ([k w] & H%prop_order_elem & E). unfold base_change in E. cbn in E. destruct (localprops !! k) as [x|] eqn:Ek.
      + case_bool_decide as Hne; [done|]. injection E as <- <-. rewrite H, Ek. split; [by eexists|]. split; [congruence|done].
      + injection E as <- <-. rewrite H, Ek. by split; [eexists|].
    - intros ([w Hw] & Hne & ->). exists (n, w). split; [by apply prop_order_elem|]. unfold base_change. cbn. rewrite Hw in Hne.
      destruct (localprops !! n); [by rewrite bool_decide_false by congruence|done]. }
  assert (forall p : svn_prop_t, p ∈ ll <-> baseprops !! prop_name p = None /\ is_Some (localprops !! prop_name p) /\
    prop_value p = localprops !! prop_name p) as El.
  { intros [n v]. unfold ll. rewrite list_elem_of_omap. cbn [prop_name prop_value]. split.
    - intros ([k w] & H%prop_order_elem & E). unfold local_change in E. cbn in E. destruct (baseprops !! k) as [x|] eqn:Ek; [done|].
      injection E as <- <-. rewrite H, Ek. by split; [|split; [eexists|]].
    - intros (Hn & [w Hw] & ->). exists (n, w). split; [by apply prop_order_elem|]. unfold local_change. cbn. by rewrite Hn, Hw. }
  assert (NoDup (prop_name <$> lb ++ ll)) as Hnd.
  { rewrite fmap_app. apply list.NoDup_app. split; [done|]. split; [|done]. intros k Hk Hk'.
    apply Hb2, Hbk in Hk as [v Hv]. apply list_elem_of_fmap in Hk' as (p & -> & (Hn & _)%El). congruence. }
  assert (forall p : svn_prop_t, p ∈ lb ++ ll <-> baseprops !! prop_name p <> localprops !! prop_name p /\ prop_value p = localprops !! prop_name p) as E.
  { intros p. rewrite elem_of_app, Eb, El. split.
    - intros [(_ & H)|(Hn & [w Hw] & ->)]; [done|]. rewrite Hn, Hw. done.
    - intros [Hne Hv]. destruct (baseprops !! prop_name p) eqn:Hb; [left; by split; [eexists|]|right].
      split; [done|]. split; [|done]. destruct (localprops !! prop_name p); [by eexists|done]. }
  split; [|done]. apply map_eq. intros k. destruct (decide (baseprops !! k = localprops !! k)) as [Heq|Hne].
  - rewrite apply_other; [done|]. intros (p & -> & (H & _)%E)%list_elem_of_fmap. done.
  - pose proof (apply_in (lb ++ ll) baseprops (mk_prop k (localprops !! k)) Hnd) as Ha. cbn [prop_name prop_value] in Ha.
    apply Ha, E. by split.
Qed.
End changes_ok.

(** A change whose name is a C string. *)
Definition c_name (p : svn_prop_t) : svn_prop_t := mk_prop (apr_pstrndup (prop_name p)) (prop_value p).

Lemma find_change_name l name c : find_change l name = Some c -> apr_pstrndup (prop_name c) = apr_pstrndup name.
Proof.
  induction l as [|p l IH]; [done|]. cbn [find_change]. case_bool_decide as Hn; [by intros [= <-]|done].
Qed.

Lemma same_name_no_conflict local update : apr_pstrndup (prop_name local) = apr_pstrndup (prop_name update) ->
  svn_wc__conflicting_propchanges_p local update = None.
Proof. intros Hn. unfold svn_wc__conflicting_propchanges_p. by rewrite bool_decide_true. Qed.

Lemma merge_change_ok l p s : merge_change l p s =
  mk_merge (partial_alter (λ _, prop_value p) (apr_pstrndup (prop_name p)) (basehash s))
    (partial_alter (λ _, prop_value p) (apr_pstrndup (prop_name p)) (localhash s)) (conflicts s) (reject s).
Proof.
  unfold merge_change. destruct (find_change l (prop_name p)) as [c|] eqn:E; [|done]. cbn [mbind option_bind].
  by rewrite (same_name_no_conflict c p) by (by apply (find_change_name l)).
Qed.

(** C10. Merging never finds a conflict: [svn_wc__conflicting_propchanges_p] has its first
    test the wrong way round, and says that two changes of the same name are no conflict
    whatever they do, while those of different names are compared by the table; the
    merge only compares those of the same name.  So every change of an update is made
    both to the base and to the properties of the user, whose own changes of the same
    names are lost, and nothing is rejected. *)
Theorem merge_overwrites_changes (hash_order : forall A : Type, gmap bytes A -> list (bytes * A)) (base local : gmap bytes bytes)
    (propchanges : list svn_prop_t) :
  merge_prop_hashes hash_order base local propchanges =
    mk_merge (apply_changes (c_name <$> propchanges) base) (apply_changes (c_name <$> propchanges) local) ∅ None /\
  forall mine update,
    is_Some (svn_wc__conflicting_propchanges_p mine update) <->
    apr_pstrndup (prop_name mine) <> apr_pstrndup (prop_name update) /\ prop_value mine <> prop_value update.
Proof.
  split.
  - unfold merge_prop_hashes. generalize (svn_wc_get_local_propchanges hash_order local base) as l. intros l.
    revert base local. induction propchanges as [|p ps IH]; intros base local; [done|]. cbn [merge_loop fmap list_fmap].
    rewrite merge_change_ok, !apply_cons. cbn [basehash localhash conflicts reject]. apply IH.
  - intros mine update. unfold svn_wc__conflicting_propchanges_p. case_bool_decide as Hn; [by split; [intros []|intros []]|].
    destruct (prop_value mine) as [v|], (prop_value update) as [w|]; try (split; [by intros _|by eexists]).
    + case_bool_decide as Hv; cbn [negb]; [subst; by split; [intros []|intros []]|]. split; [intros _; split; [done|congruence]|by eexists].
    + by split; [intros []|intros []].
Qed.

(** ** A witness *)

Lemma propchanges_correct_witness :
  let base : gmap bytes bytes := <[bstr "color" := bstr "red"]> {[bstr "price" := bstr "1"]} in
  let local : gmap bytes bytes := <[bstr "color" := bstr "blue"]> {[bstr "size" := bstr "2"]} in
  apply_changes (svn_wc_get_local_propchanges (λ A (h : gmap bytes A), map_to_list h) local base) base = local.
Proof. cbn zeta. apply (propchanges_correct (λ A (h : gmap bytes A), map_to_list h) (λ A h, reflexivity _)). Defined.
