(* ===== verification/RevHunt.v ===== *)
(** * Revisions by date ([libsvn_repos/rev_hunt.c])

    The binary search for the revision that was the youngest at a given time, and what
    is known of the commit that made a node. *)

From Stdlib Require Import Sorting.Sorted.
From S2P Require Import Prelude Types Libc Time Skel Proplist Id Db NodeKeys Fs RevTable TxnTable NodesTable Strings Stream.
From S2P Require Import TextDelta Vdelta Svndiff TxStream Reps RepOps Dag Commit Tree.

Definition SVN_PROP_REVISION_AUTHOR : bytes := bstr "svn:author".

Section rev_hunt.
Context `{db : BerkeleyDB} `{apr : !AprTime}.

(** The functions of the filesystem, each in a trail of its own. *)
Definition svn_fs_youngest_rev : trail svn_revnum_t := run_trail svn_fs__youngest_rev.

Definition svn_fs_revision_prop (rev : svn_revnum_t) (propname : bytes) : trail (option bytes) :=
  run_trail (txn_body_revision_prop rev propname).

Definition get_time (rev : svn_revnum_t) : trail Z :=
  date_str ← svn_fs_revision_prop rev SVN_PROP_REVISION_DATE;
  match date_str with
  | None => fail SVN_ERR_FS_GENERAL
  | Some date_str => lift (svn_time_from_nts (apr_pstrndup date_str))
  end.

(** At most [n] turns of the loop; [None]: the loop ends without a revision. *)
Fixpoint search (n : nat) (tm rev_latest rev_bot rev_top : Z) : trail (option svn_revnum_t) :=
  match n with
  | O => lift Undef
  | S n =>
      if rev_bot <=? rev_top then
        let rev_mid := (rev_top + rev_bot) / 2 in
        this_time ← get_time rev_mid;
        if tm <? this_time then
          if rev_mid - 1 <? 0 then mret (Some 0)
          else
            previous_time ← get_time (rev_mid - 1);
            if previous_time <=? tm then mret (Some (rev_mid - 1))
            else search n tm rev_latest rev_bot (rev_mid - 1)
        else if this_time <? tm then
          if rev_latest <? rev_mid + 1 then mret (Some rev_latest)
          else
            next_time ← get_time (rev_mid + 1);
            if tm <? next_time then mret (Some (rev_mid + 1))
            else search n tm rev_latest (rev_mid + 1) rev_top
        else mret (Some rev_mid)
      else mret None
  end.

Definition svn_repos_dated_revision (n : nat) (tm : Z) : trail (option svn_revnum_t) :=
  rev_latest ← svn_fs_youngest_rev;
  search n tm rev_latest 0 rev_latest.

(** The revision that made the node, its date and its author. *)
Definition svn_repos_get_committed_info (fuel : nat) (root : svn_fs_root_t) (path : bytes) :
    trail (svn_revnum_t * option bytes * option bytes) :=
  committed_rev ← svn_fs_node_created_rev fuel root path;
  committed_date ← svn_fs_revision_prop committed_rev SVN_PROP_REVISION_DATE;
  last_author ← svn_fs_revision_prop committed_rev SVN_PROP_REVISION_AUTHOR;
  mret (committed_rev, committed_date, last_author).

(** ** What the search finds *)

(** The revisions have these dates. *)
Definition dated (l : list (list Z * gmap bytes bytes)) (ts : list Z) : Prop :=
  Forall2 (λ x t, exists d, x.2 !! SVN_PROP_REVISION_DATE = Some d /\ svn_time_from_nts (apr_pstrndup d) = Ok t) l ts.

Section search.
Context (fs : svn_fs_t) (l : list (list Z * gmap bytes bytes)) (ts : list Z).
Context (Hl : revs_are fs l) (Hts : dated l ts).

Lemma run_trail_read {A} (body : trail A) a : body fs = (Ok a, fs) -> run_trail body fs = (Ok a, fs).
Proof. intros E. unfold run_trail. by rewrite E. Qed.

Lemma get_time_ok rev t : 0 <= rev -> ts !! Z.to_nat rev = Some t -> get_time rev fs = (Ok t, fs).
Proof.
  intros Hr Ht. destruct (Forall2_lookup_r _ _ _ _ _ Hts Ht) as ([root m] & Hx & d & Hd & Hdt).
  pose proof (proj2 (proj2 Hl) _ _ Hx) as Hat. cbn [fst snd] in *. rewrite Z2Nat.id in Hat by done.
  unfold get_time, svn_fs_revision_prop.
  rewrite (state_bind_step _ _ _ _ _ (run_trail_read _ _ (proj1 (rev_prop_ok _ _ _ _ SVN_PROP_REVISION_DATE Hat)))).
  rewrite Hd. unfold lift. by rewrite Hdt.
Qed.

Definition time_of (rev : Z) : Z := default 0 (ts !! Z.to_nat rev).

Lemma get_time_of rev : 0 <= rev < Z.of_nat (length ts) -> get_time rev fs = (Ok (time_of rev), fs).
Proof.
  intros Hr. destruct (lookup_lt_is_Some_2 ts (Z.to_nat rev)) as [t Ht]; [lia|]. unfold time_of. rewrite Ht.
  apply get_time_ok; [lia|done].
Qed.

(** How the result [r] stands to the time: found, before the first revision, at or
    after the last one, the revision before, or the revision after. *)
Definition stands (tm r : Z) : Prop :=
  let last := Z.of_nat (length ts) - 1 in
  0 <= r <= last /\
  (time_of r = tm \/ (r = 0 /\ tm < time_of 0) \/ (r = last /\ time_of last < tm) \/
   (r < last /\ time_of r < tm < time_of (r + 1)) \/ (0 < r /\ time_of (r - 1) < tm < time_of r)).

Lemma date_search_ok n tm : forall bot top,
  let last := Z.of_nat (length ts) - 1 in
  0 <= bot -> top <= last -> bot <= top -> top - bot + 1 < 2 ^ Z.of_nat n ->
  (bot = 0 \/ time_of bot <= tm) -> (top = last \/ tm < time_of top) ->
  exists r, search n tm last bot top fs = (Ok (Some r), fs) /\ stands tm r.
Proof.
  induction n as [|n IH]; intros bot top last Hb Ht Hbt Hn Hbot Htop; [cbn in Hn; lia|]. cbn [search].
  rewrite (proj2 (Z.leb_le _ _)) by done. remember ((top + bot) / 2) as mid eqn:Emid.
  assert (bot <= mid <= top) as Hmid by (rewrite Emid; split; [apply Z.div_le_lower_bound|apply Z.div_le_upper_bound]; lia).
  assert (top - mid <= mid - bot + 1 /\ mid - bot <= top - mid) as Hhalf
    by (rewrite Emid; pose proof (Z.div_mod (top + bot) 2 ltac:(lia)); pose proof (Z.mod_pos_bound (top + bot) 2 ltac:(lia)); lia).
  rewrite Nat2Z.inj_succ, Z.pow_succ_r in Hn by lia.
  rewrite (state_bind_step _ _ _ _ _ (get_time_of mid ltac:(lia))).
  destruct (Z.ltb_spec tm (time_of mid)) as [Hover|Hover]; [|destruct (Z.ltb_spec (time_of mid) tm) as [Hunder|Hunder]].
  - destruct (Z.ltb_spec (mid - 1) 0) as [H0|H0].
    { exists 0. split; [done|]. split; [lia|]. right; left. split; [done|]. by replace 0 with mid by lia. }
    rewrite (state_bind_step _ _ _ _ _ (get_time_of (mid - 1) ltac:(lia))).
    destruct (Z.leb_spec (time_of (mid - 1)) tm) as [Hp|Hp].
    + exists (mid - 1). split; [done|]. split; [lia|]. destruct (Z.eq_dec (time_of (mid - 1)) tm); [by left|].
      right; right; right; left. replace (mid - 1 + 1) with mid by lia. lia.
    + apply IH; try lia. destruct Hbot as [->|Hbot]; [lia|]. assert (bot <> mid) by (intros ->; lia). lia.
  - destruct (Z.ltb_spec last (mid + 1)) as [H0|H0].
    { exists last. split; [done|]. split; [lia|]. right; right; left. split; [done|].
      change (time_of last < tm). by assert (last = mid) as -> by lia. }
    rewrite (state_bind_step _ _ _ _ _ (get_time_of (mid + 1) ltac:(lia))).
    destruct (Z.ltb_spec tm (time_of (mid + 1))) as [Hx|Hx].
    + exists (mid + 1). split; [done|]. split; [lia|]. right; right; right; right.
      replace (mid + 1 - 1) with mid by lia. lia.
    + apply IH; try lia. destruct Htop as [->|Htop]; [lia|]. assert (top <> mid) by (intros ->; lia). lia.
  - exists mid. split; [done|]. split; [lia|]. left. lia.
Qed.
End search.
End rev_hunt.

Definition dated_by (ts : list Z) (tm : Z) : Z := Z.of_nat (length (filter (λ t, t <= tm) ts)).

Lemma time_of_0 t ts : time_of (t :: ts) 0 = t.
Proof. done. Qed.

Lemma time_of_cons t ts i : 0 < i -> time_of (t :: ts) i = time_of ts (i - 1).
Proof. intros H. unfold time_of. by replace (Z.to_nat i) with (S (Z.to_nat (i - 1))) by lia. Qed.

(** In a strictly increasing list. *)
Lemma dated_by_first ts tm i : StronglySorted Z.lt ts -> 0 <= i <= Z.of_nat (length ts) ->
  (0 < i -> time_of ts (i - 1) <= tm) -> (i < Z.of_nat (length ts) -> tm < time_of ts i) -> dated_by ts tm = i.
Proof.
  intros Hs. revert i. induction Hs as [|t ts Hs IH Ht]; intros i Hi H1 H2; [cbn in Hi; unfold dated_by; cbn; lia|].
  unfold dated_by in *. rewrite filter_cons. cbn [length] in Hi, H2. destruct (decide (i = 0)) as [->|Hi0].
  - specialize (H2 ltac:(lia)). rewrite time_of_0 in H2. rewrite decide_False by lia.
    apply (IH 0); [lia|lia|]. intros Hlen. destruct ts as [|t' ts]; [cbn in Hlen; lia|].
    apply list.Forall_cons in Ht as [Ht _]. rewrite time_of_0. lia.
  - assert (t <= tm) as Hle.
    { specialize (H1 ltac:(lia)). destruct (decide (i = 1)) as [->|]; [by rewrite time_of_0 in H1|].
      rewrite time_of_cons in H1 by lia. unfold time_of in H1.
      destruct (lookup_lt_is_Some_2 ts (Z.to_nat (i - 1 - 1))) as [u Hu]; [lia|]. rewrite Hu in H1. cbn in H1.
      rewrite list.Forall_forall in Ht. specialize (Ht u (list_elem_of_lookup_2 _ _ _ Hu)). lia. }
    rewrite decide_True by done. cbn [length]. rewrite Nat2Z.inj_succ, (IH (i - 1)); [lia|lia| |].
    + intros Hi1. specialize (H1 ltac:(lia)). by rewrite time_of_cons in H1 by lia.
    + intros Hlt. specialize (H2 ltac:(lia)). by rewrite time_of_cons in H2 by lia.
Qed.

Lemma sorted_step ts i : StronglySorted Z.lt ts -> 0 <= i -> i + 1 < Z.of_nat (length ts) -> time_of ts i < time_of ts (i + 1).
Proof.
  intros Hs. revert i. induction Hs as [|t ts Hs IH Ht]; intros i Hi Hl; cbn [length] in Hl; [lia|].
  rewrite (time_of_cons t ts (i + 1)) by lia. destruct (decide (i = 0)) as [->|Hi0].
  - rewrite time_of_0. destruct ts as [|t' ts]; [cbn in Hl; lia|]. apply list.Forall_cons in Ht as [Ht _].
    change (0 + 1 - 1) with 0. by rewrite time_of_0.
  - rewrite time_of_cons by lia. replace (i + 1 - 1) with (i - 1 + 1) by lia. apply IH; lia.
Qed.

Lemma stands_sorted ts tm r : StronglySorted Z.lt ts -> stands ts tm r ->
  r = Z.max 0 (dated_by ts tm - 1) \/ (r = dated_by ts tm /\ time_of ts (r - 1) < tm < time_of ts r).
Proof.
  intros Hs (Hr & [H|[[H1 H2]|[[H1 H2]|[[H1 H2]|[H1 H2]]]]]).
  - left. rewrite (dated_by_first ts tm (r + 1)); [lia|done|lia| |].
    + intros _. replace (r + 1 - 1) with r by lia. lia.
    + intros Hl. pose proof (sorted_step ts r Hs ltac:(lia) Hl). lia.
  - left. rewrite (dated_by_first ts tm 0); [lia|done|lia|lia|done].
  - left. rewrite (dated_by_first ts tm (r + 1)); [lia|done|lia| |lia].
    intros _. replace (r + 1 - 1) with r by lia. subst r. lia.
  - left. rewrite (dated_by_first ts tm (r + 1)); [lia|done|lia| |lia].
    intros _. replace (r + 1 - 1) with r by lia. lia.
  - right. split; [|done]. rewrite (dated_by_first ts tm r); [lia|done|lia|lia|lia].
Qed.

(** C3. The search for the revision that was the youngest at a time ends, with a
    revision, after as many turns as the number of revisions has binary digits,
    whatever the dates are.  It finds a revision of this date, or one that stands
    next to the time: when the dates increase, the youngest revision that is not
    later than the time (or the first one), or else the one after it, which is what
    it gives for every time between the dates of a repository of two revisions. *)
Theorem dated_revision_correct `{db : BerkeleyDB} `{apr : !AprTime} n fs l ts tm :
  revs_are fs l -> dated l ts -> l <> [] -> Z.of_nat (length l) < 2 ^ Z.of_nat n ->
  exists r, svn_repos_dated_revision n tm fs = (Ok (Some r), fs) /\ stands ts tm r /\
    (StronglySorted Z.lt ts ->
       r = Z.max 0 (dated_by ts tm - 1) \/ (r = dated_by ts tm /\ time_of ts (r - 1) < tm < time_of ts r)) /\
    (forall t0 t1, ts = [t0; t1] -> t0 < tm < t1 -> dated_by ts tm - 1 = 0 /\ r = 1).
Proof.
  intros Hl Hts Hne Hn. pose proof (Forall2_length Hts) as Hlen.
  assert (0 < Z.of_nat (length l)) as Hpos by (destruct l; [done|cbn; lia]).
  destruct (date_search_ok fs l ts Hl Hts n tm 0 (Z.of_nat (length ts) - 1)) as (r & E & Hr); [lia..|by left|by left|].
  assert (svn_repos_dated_revision n tm fs = search n tm (Z.of_nat (length ts) - 1) 0 (Z.of_nat (length ts) - 1) fs) as E'.
  { unfold svn_repos_dated_revision, svn_fs_youngest_rev.
    rewrite (state_bind_step _ _ _ _ _ (run_trail_read fs _ _ (youngest_ok fs l Hl Hne))). by rewrite Hlen. }
  exists r. rewrite E'. split; [done|]. split; [done|]. split; [intros Hs; by apply stands_sorted|].
  intros t0 t1 -> Ht. assert (dated_by [t0; t1] tm = 1) as ->.
  { unfold dated_by. rewrite !filter_cons, decide_True, decide_False by lia. done. }
  split; [done|]. rewrite Hlen in Hn.
  destruct n as [|n]; [cbn in Hn; lia|]. cbn [length search] in E. change (Z.of_nat 2 - 1) with 1 in E. cbn [Z.leb Z.compare] in E.
  change ((1 + 0) / 2) with 0 in E.
  rewrite (state_bind_step _ _ _ _ _ (get_time_of fs l [t0; t1] Hl Hts 0 ltac:(cbn; lia))) in E. rewrite time_of_0 in E.
  rewrite (proj2 (Z.ltb_ge tm t0)), (proj2 (Z.ltb_lt t0 tm)) in E by lia. change (1 <? 0 + 1) with false in E. cbv iota in E.
  rewrite (state_bind_step _ _ _ _ _ (get_time_of fs l [t0; t1] Hl Hts (0 + 1) ltac:(cbn; lia))) in E.
  rewrite time_of_cons in E by lia. change (0 + 1 - 1) with 0 in E. rewrite time_of_0 in E.
  rewrite (proj2 (Z.ltb_lt tm t1)) in E by lia. injection E as <-. done.
Qed.

Section sample.
#[local] Existing Instance mem_db.

#[local] Existing Instance Time.sample_time.

Definition date_0 : bytes := bstr "Tue 3 Oct 2000 03:04:05.000017 (day 277, dst 1, gmt_off -18000)".
Definition date_1 : bytes := bstr "Wed 3 Oct 2001 03:04:05.000017 (day 276, dst 1, gmt_off -18000)".

Definition dated_text (d : bytes) : bytes :=
  match svn_fs__unparse_skel (SList [] [Atom (bstr "revision"); Atom (bstr "0.0");
    SList [] [Atom SVN_PROP_REVISION_DATE; Atom d]]) with Ok t => t | _ => [] end.

Definition dated_fs : svn_fs_t := mk_fs [] [dated_text date_0; dated_text date_1] [] [] ∅.

Definition dated_props (d : bytes) : gmap bytes bytes := {[SVN_PROP_REVISION_DATE := d]}.

Definition dated_revs : list (list Z * gmap bytes bytes) := [([0; 0], dated_props date_0); ([0; 0], dated_props date_1)].

Lemma dated_text_is d i : i = 0 /\ d = date_0 \/ i = 1 /\ d = date_1 -> rev_at dated_fs i [0; 0] (dated_props d).
Proof.
  intros H. split; [lia|]. split; [split; [done|split; [done|]]; repeat constructor; unfold id_comp; lia|].
  exists (dated_text d), (default (SList [] []) (svn_fs__parse_skel (dated_text d))).
  destruct H as [[-> ->]|[-> ->]]; (split; [done|]; split; [by vm_compute|]; split;
    [eexists _, (SList _ [Atom SVN_PROP_REVISION_DATE; Atom _]); split; [by vm_compute|]|vm_compute; by split_and!]);
    (eexists [(SVN_PROP_REVISION_DATE, _)]; split; [done|]; split; [by eexists _, _|]; split; [repeat constructor; by apply not_elem_of_nil|]; done).
Qed.

Lemma dated_revision_correct_witness :
  svn_repos_dated_revision 2 101000 dated_fs = (Ok (Some 1), dated_fs) /\ dated_by [100276; 101275] 101000 - 1 = 0.
Proof.
  destruct (dated_revision_correct 2 dated_fs dated_revs [100276; 101275] 101000) as (r & E & _ & _ & H).
  - split; [by vm_compute|]. split; [by vm_compute|]. intros [|[|i]] x; cbn [dated_revs lookup list_lookup]; [intros [= <-]..|done]; apply dated_text_is; auto.
  - repeat apply Forall2_cons; [..|by apply Forall2_nil]; eexists; (split; [by vm_compute|by vm_compute]).
  - done.
  - done.
  - destruct (H 100276 101275 eq_refl) as [H1 ->]; [lia|]. split; [exact E|exact H1].
Defined.
End sample.
