(* ===== verification/Editor.v ===== *)
(** * Editors ([include/svn_delta.h])

    An editor is a table of functions that is given the changes to a tree, one after
    the other: directories and files are opened or added, and known by the batons that
    the editor hands out.  The table is a record over the state [E] of the editor, and
    the types of the batons of its directories and files.

    [tree_editor] is the meaning of the calls: an editor that keeps a tree, every node
    under the names that lead to it, and refuses what [svn_delta.h] forbids. *)

From S2P Require Import Prelude Stream TextDelta.

Record svn_delta_edit_fns_t (E DB FB : Type) := mk_editor {
  set_target_revision : Z -> state_m E unit;
  open_root : Z -> state_m E DB;
  delete_entry : bytes -> Z -> DB -> state_m E unit;
  (** The name, the parent, and what it is copied from. *)
  add_directory : bytes -> DB -> option bytes -> Z -> state_m E DB;
  open_directory : bytes -> DB -> Z -> state_m E DB;
  change_dir_prop : DB -> bytes -> option bytes -> state_m E unit;
  close_directory : DB -> state_m E unit;
  add_file : bytes -> DB -> option bytes -> Z -> state_m E FB;
  open_file : bytes -> DB -> Z -> state_m E FB;
  apply_textdelta : FB -> state_m E (svn_txdelta_window_handler_t E);
  change_file_prop : FB -> bytes -> option bytes -> state_m E unit;
  close_file : FB -> state_m E unit;
  close_edit : state_m E unit;
  abort_edit : state_m E unit;
}.
Arguments mk_editor {E DB FB}.
Arguments set_target_revision {E DB FB}.
Arguments open_root {E DB FB}.
Arguments delete_entry {E DB FB}.
Arguments add_directory {E DB FB}.
Arguments open_directory {E DB FB}.
Arguments change_dir_prop {E DB FB}.
Arguments close_directory {E DB FB}.
Arguments add_file {E DB FB}.
Arguments open_file {E DB FB}.
Arguments apply_textdelta {E DB FB}.
Arguments change_file_prop {E DB FB}.
Arguments close_file {E DB FB}.
Arguments close_edit {E DB FB}.
Arguments abort_edit {E DB FB}.

(** ** The tree that is edited *)

(** A node: its properties, and the text of a file. *)
Inductive tnode :=
  | TDir (props : gmap bytes bytes)
  | TFile (props : gmap bytes bytes) (text : bytes).

(** The names from the root to the nodes, the last one first. *)
Abbreviation tpath := (list bytes).

Definition under (P x : tpath) : Prop := exists y, x = y ++ P.

#[global] Instance under_dec P x : Decision (under P x).
Proof.
  refine (cast_if (decide (drop (length x - length P) x = P))).
  - exists (take (length x - length P) x). rewrite <- e at 2. by rewrite take_drop.
  - intros [y ->]. rewrite length_app, Nat.add_sub, drop_app_length in n. done.
Defined.

(** The file whose text is being changed. *)
Record tree_edit := mk_te {
  tnodes : gmap tpath tnode;
  applying : option (tpath * apply_baton bytes bytes);
}.

Definition with_tnodes (m : gmap tpath tnode) (e : tree_edit) : tree_edit := mk_te m (applying e).

Definition te_delete (name : bytes) (dir : tpath) : state_m tree_edit unit := λ e,
  match tnodes e !! (name :: dir) with
  | None => (Err SVN_ERR_FS_NOT_FOUND, e)
  | Some _ => (Ok tt, with_tnodes (filter (λ x, ~ under (name :: dir) x.1) (tnodes e)) e)
  end.

Definition te_add (new : tnode) (name : bytes) (dir : tpath) : state_m tree_edit tpath := λ e,
  match tnodes e !! (name :: dir), tnodes e !! dir with
  | None, Some (TDir _) => (Ok (name :: dir), with_tnodes (<[name :: dir := new]> (tnodes e)) e)
  | _, _ => (Err SVN_ERR_FS_ALREADY_EXISTS, e)
  end.

(** The tree keeps no history to copy from; without a valid revision nothing is copied. *)
Definition te_add_from (new : tnode) (name : bytes) (dir : tpath) (from : option bytes) (rev : Z) : state_m tree_edit tpath :=
  match from with
  | Some _ => if 0 <=? rev then fail SVN_ERR_UNSUPPORTED_FEATURE else te_add new name dir
  | None => te_add new name dir
  end.

Definition te_open (is_dir : bool) (x : tpath) : state_m tree_edit tpath := λ e,
  match tnodes e !! x, is_dir with
  | Some (TDir _), true | Some (TFile _ _), false => (Ok x, e)
  | _, _ => (Err SVN_ERR_FS_NOT_FOUND, e)
  end.

Definition change_prop (props : gmap bytes bytes) (name : bytes) (value : option bytes) : gmap bytes bytes :=
  partial_alter (λ _, value) name props.

Definition te_change_prop (x : tpath) (name : bytes) (value : option bytes) : state_m tree_edit unit := λ e,
  match tnodes e !! x with
  | Some (TDir props) => (Ok tt, with_tnodes (<[x := TDir (change_prop props name value)]> (tnodes e)) e)
  | Some (TFile props text) => (Ok tt, with_tnodes (<[x := TFile (change_prop props name value) text]> (tnodes e)) e)
  | None => (Err SVN_ERR_FS_NOT_FOUND, e)
  end.

(** The windows are applied to the text; the last one, which is null, puts the new
    text in its place. *)
Definition te_handler : svn_txdelta_window_handler_t tree_edit := λ window e,
  match applying e with
  | None => (Err SVN_ERR_INCOMPLETE_DATA, e)
  | Some (x, ab) =>
      let '(r, ab) := apply_window window ab in
      match r, window, tnodes e !! x with
      | Ok _, None, Some (TFile props _) =>
          (Ok tt, mk_te (<[x := TFile props (baton (ab_target ab))]> (tnodes e)) None)
      | _, _, _ => (r, mk_te (tnodes e) (Some (x, ab)))
      end
  end.

Definition te_apply_textdelta (x : tpath) : state_m tree_edit (svn_txdelta_window_handler_t tree_edit) := λ e,
  match tnodes e !! x with
  | Some (TFile _ text) =>
      (Ok te_handler,
       mk_te (tnodes e) (Some (x, svn_txdelta_apply (mk_stream text mem_reader) (mk_stream [] mem_writer))))
  | _ => (Err SVN_ERR_FS_NOT_FILE, e)
  end.

(** Nothing is to be done when a node is closed. *)
Definition te_close {A : Type} (a : A) : state_m tree_edit unit := mret tt.

Definition tree_editor : svn_delta_edit_fns_t tree_edit tpath tpath := {|
  set_target_revision _ := mret tt;
  open_root _ := te_open true [];
  delete_entry name _ dir := te_delete name dir;
  add_directory := te_add_from (TDir ∅);
  open_directory name dir _ := te_open true (name :: dir);
  change_dir_prop x := te_change_prop x;
  close_directory := te_close;
  add_file := te_add_from (TFile ∅ []);
  open_file name dir _ := te_open false (name :: dir);
  apply_textdelta := te_apply_textdelta;
  change_file_prop x := te_change_prop x;
  close_file := te_close;
  close_edit := mret tt;
  abort_edit := mret tt;
|}.
