(* ===== verification/DeltaEditors.v ===== *)
(** * Making editors from editors ([libsvn_delta])

    The editors of the new style, whose functions are given paths in place of names;
    the editor that does nothing, and the one that stands for an editor of the new
    style in a driver of the old one ([default_editor.c]); two editors as one
    ([compose_editors.c]); an editor that passes every call on ([pipe_editors.c]).

    The fixed part of an edit baton, the editors that are called and their batons, are
    the arguments of the definitions; the state [E] is what their calls change. *)

From S2P Require Import Prelude KeyGen Libc Skel Proplist Id Db NodeKeys Fs Stream TextDelta Path Editor.

(** ** Editors of the new style *)

Module NewStyle.
Record svn_delta_editor_t (E DB FB : Type) := mk_editor {
  set_target_revision : Z -> state_m E unit;
  open_root : Z -> state_m E DB;
  delete_entry : bytes -> Z -> DB -> state_m E unit;
  (** The path, the parent, and what it is copied from. *)
  add_directory : bytes -> DB -> option bytes -> Z -> state_m E DB;
  open_directory : bytes -> DB -> Z -> state_m E DB;
  change_dir_prop : DB -> bytes -> option bytes -> state_m E unit;
  close_directory : DB -> state_m E unit;
  add_file : bytes -> DB -> option bytes -> Z -> state_m E FB;
  open_file : bytes -> DB -> Z -> state_m E FB;
  (** The handler may be null. *)
  apply_textdelta : FB -> state_m E (option (svn_txdelta_window_handler_t E));
  change_file_prop : FB -> bytes -> option bytes -> state_m E unit;
  close_file : FB -> state_m E unit;
  close_edit : state_m E unit;
  abort_edit : state_m E unit;
}.
Arguments mk_editor {E DB FB}.
Arguments set_target_revision {E DB FB}.
Arguments open_root {E DB FB}.
Arguments delete_entry {E DB FB}.
Arguments add_directory {E DB FB}.
Arguments open_directory {E DB FB}.
Arguments change_dir_prop {E DB FB}.
Arguments close_directory {E DB FB}.
Arguments add_file {E DB FB}.
Arguments open_file {E DB FB}.
Arguments apply_textdelta {E DB FB}.
Arguments change_file_prop {E DB FB}.
Arguments close_file {E DB FB}.
Arguments close_edit {E DB FB}.
Arguments abort_edit {E DB FB}.
End NewStyle.

Abbreviation svn_delta_editor_t := NewStyle.svn_delta_editor_t.

(** ** The editors that do nothing

    Their batons are null, the only value of [unit]. *)

(** [window_handler] of [default_editor.c]. *)
Definition ignore_window {E} : svn_txdelta_window_handler_t E := λ _ e, (Ok tt, e).

Definition default_editor {E} : svn_delta_editor_t E unit unit := NewStyle.mk_editor
  (λ _, mret tt) (λ _, mret tt) (λ _ _ _, mret tt) (λ _ _ _ _, mret tt) (λ _ _ _, mret tt) (λ _ _ _, mret tt) (λ _, mret tt)
  (λ _ _ _ _, mret tt) (λ _ _ _, mret tt) (λ _, mret None) (λ _ _ _, mret tt) (λ _, mret tt) (mret tt) (mret tt).

Definition old_default_editor {E} : svn_delta_edit_fns_t E unit unit := mk_editor
  (λ _, mret tt) (λ _, mret tt) (λ _ _ _, mret tt) (λ _ _ _ _, mret tt) (λ _ _ _, mret tt) (λ _ _ _, mret tt) (λ _, mret tt)
  (λ _ _ _ _, mret tt) (λ _ _ _, mret tt) (λ _, mret ignore_window) (λ _ _ _, mret tt) (λ _, mret tt) (mret tt) (mret tt).

(** ** A new editor for an old driver *)

Section wrap.
Context {E DB FB : Type} (real_editor : svn_delta_editor_t E DB FB).

(** [path]: where the directory is, below the root of the edit. *)
Record wrap_dir_baton := mk_wrap_dir { real_dir_baton : DB; path : bytes }.

Record wrap_file_baton := mk_wrap_file { real_file_baton : FB }.

Definition wrap_open_root (base_revision : Z) : state_m E wrap_dir_baton :=
  real ← NewStyle.open_root real_editor base_revision; mret (mk_wrap_dir real []).

Definition wrap_delete_entry (name : bytes) (revision : Z) (db : wrap_dir_baton) : state_m E unit :=
  NewStyle.delete_entry real_editor (svn_path_join (path db) (apr_pstrndup name)) revision (real_dir_baton db).

(** [make_dir_baton]: the path of the new baton. *)
Definition make_dir_baton (db_parent : wrap_dir_baton) (name : bytes) : bytes :=
  svn_path_join (path db_parent) name.

Definition wrap_add_directory (name : bytes) (db_parent : wrap_dir_baton) (copyfrom_path : option bytes)
    (copyfrom_revision : Z) : state_m E wrap_dir_baton :=
  let path := make_dir_baton db_parent (apr_pstrndup name) in
  real ← NewStyle.add_directory real_editor path (real_dir_baton db_parent) (apr_pstrndup <$> copyfrom_path) copyfrom_revision;
  mret (mk_wrap_dir real path).

Definition wrap_open_directory (name : bytes) (db_parent : wrap_dir_baton) (base_revision : Z) : state_m E wrap_dir_baton :=
  let path := make_dir_baton db_parent (apr_pstrndup name) in
  real ← NewStyle.open_directory real_editor path (real_dir_baton db_parent) base_revision;
  mret (mk_wrap_dir real path).

Definition wrap_change_dir_prop (db : wrap_dir_baton) (name : bytes) (value : option bytes) : state_m E unit :=
  NewStyle.change_dir_prop real_editor (real_dir_baton db) (apr_pstrndup name) value.

Definition wrap_close_directory (db : wrap_dir_baton) : state_m E unit :=
  NewStyle.close_directory real_editor (real_dir_baton db).

Definition wrap_add_file (name : bytes) (db : wrap_dir_baton) (copyfrom_path : option bytes) (copyfrom_revision : Z) :
    state_m E wrap_file_baton :=
  let path := svn_path_join (path db) (apr_pstrndup name) in
  real ← NewStyle.add_file real_editor path (real_dir_baton db) (apr_pstrndup <$> copyfrom_path) copyfrom_revision;
  mret (mk_wrap_file real).

Definition wrap_open_file (name : bytes) (db : wrap_dir_baton) (base_revision : Z) : state_m E wrap_file_baton :=
  let path := svn_path_join (path db) (apr_pstrndup name) in
  real ← NewStyle.open_file real_editor path (real_dir_baton db) base_revision;
  mret (mk_wrap_file real).

Definition wrap_apply_textdelta (fb : wrap_file_baton) : state_m E (svn_txdelta_window_handler_t E) :=
  real_handler ← NewStyle.apply_textdelta real_editor (real_file_baton fb);
  mret (default ignore_window real_handler).

Definition wrap_change_file_prop (fb : wrap_file_baton) (name : bytes) (value : option bytes) : state_m E unit :=
  NewStyle.change_file_prop real_editor (real_file_baton fb) (apr_pstrndup name) value.

Definition wrap_close_file (fb : wrap_file_baton) : state_m E unit := NewStyle.close_file real_editor (real_file_baton fb).

Definition svn_delta_compat_wrap : svn_delta_edit_fns_t E wrap_dir_baton wrap_file_baton := mk_editor
  (NewStyle.set_target_revision real_editor) wrap_open_root wrap_delete_entry wrap_add_directory wrap_open_directory
  wrap_change_dir_prop wrap_close_directory wrap_add_file wrap_open_file wrap_apply_textdelta wrap_change_file_prop
  wrap_close_file (NewStyle.close_edit real_editor) (NewStyle.abort_edit real_editor).
End wrap.

Arguments mk_wrap_dir {DB}.
Arguments real_dir_baton {DB}.
Arguments path {DB}.
Arguments mk_wrap_file {FB}.
Arguments real_file_baton {FB}.

(** ** Two editors as one *)

(** Calls of the first and of the second editor. *)
Definition first {E1 E2 A} (call : state_m E1 A) : state_m (E1 * E2) A := λ '(s1, s2), let '(r, s1) := call s1 in (r, (s1, s2)).
Definition second {E1 E2 A} (call : state_m E2 A) : state_m (E1 * E2) A := λ '(s1, s2), let '(r, s2) := call s2 in (r, (s1, s2)).

Section compose.
Context {E1 DB1 FB1 E2 DB2 FB2 : Type}.
Context (editor_1 : svn_delta_editor_t E1 DB1 FB1) (editor_2 : svn_delta_editor_t E2 DB2 FB2).

Definition both {A B} (call_1 : state_m E1 A) (call_2 : state_m E2 B) : state_m (E1 * E2) (A * B) :=
  a ← first call_1; b ← second call_2; mret (a, b).

Definition both_done (call_1 : state_m E1 unit) (call_2 : state_m E2 unit) : state_m (E1 * E2) unit :=
  first call_1;; second call_2.

(** [window_handler] of [compose_editors.c]. *)
Definition pair_handler (handler_1 : option (svn_txdelta_window_handler_t E1)) (handler_2 : option (svn_txdelta_window_handler_t E2)) :
    svn_txdelta_window_handler_t (E1 * E2) := λ window,
  match handler_1 with Some handler_1 => first (handler_1 window) | None => mret tt end;;
  match handler_2 with Some handler_2 => second (handler_2 window) | None => mret tt end.

Definition compose_apply_textdelta (fb : FB1 * FB2) : state_m (E1 * E2) (option (svn_txdelta_window_handler_t (E1 * E2))) :=
  h1 ← first (NewStyle.apply_textdelta editor_1 fb.1);
  h2 ← second (NewStyle.apply_textdelta editor_2 fb.2);
  match h1, h2 with
  | None, None => mret None
  | _, _ => mret (Some (pair_handler h1 h2))
  end.

Definition compose_set_target_revision (rev : Z) : state_m (E1 * E2) unit :=
  both_done (NewStyle.set_target_revision editor_1 rev) (NewStyle.set_target_revision editor_2 rev).

Definition compose_open_root (rev : Z) : state_m (E1 * E2) (DB1 * DB2) :=
  both (NewStyle.open_root editor_1 rev) (NewStyle.open_root editor_2 rev).

Definition compose_delete_entry (path : bytes) (rev : Z) (d : DB1 * DB2) : state_m (E1 * E2) unit :=
  both_done (NewStyle.delete_entry editor_1 path rev d.1) (NewStyle.delete_entry editor_2 path rev d.2).

Definition compose_add_directory (path : bytes) (d : DB1 * DB2) (from : option bytes) (rev : Z) : state_m (E1 * E2) (DB1 * DB2) :=
  both (NewStyle.add_directory editor_1 path d.1 from rev) (NewStyle.add_directory editor_2 path d.2 from rev).

Definition compose_open_directory (path : bytes) (d : DB1 * DB2) (rev : Z) : state_m (E1 * E2) (DB1 * DB2) :=
  both (NewStyle.open_directory editor_1 path d.1 rev) (NewStyle.open_directory editor_2 path d.2 rev).

Definition compose_change_dir_prop (d : DB1 * DB2) (name : bytes) (value : option bytes) : state_m (E1 * E2) unit :=
  both_done (NewStyle.change_dir_prop editor_1 d.1 name value) (NewStyle.change_dir_prop editor_2 d.2 name value).

Definition compose_close_directory (d : DB1 * DB2) : state_m (E1 * E2) unit :=
  both_done (NewStyle.close_directory editor_1 d.1) (NewStyle.close_directory editor_2 d.2).

Definition compose_add_file (path : bytes) (d : DB1 * DB2) (from : option bytes) (rev : Z) : state_m (E1 * E2) (FB1 * FB2) :=
  both (NewStyle.add_file editor_1 path d.1 from rev) (NewStyle.add_file editor_2 path d.2 from rev).

Definition compose_open_file (path : bytes) (d : DB1 * DB2) (rev : Z) : state_m (E1 * E2) (FB1 * FB2) :=
  both (NewStyle.open_file editor_1 path d.1 rev) (NewStyle.open_file editor_2 path d.2 rev).

Definition compose_change_file_prop (f : FB1 * FB2) (name : bytes) (value : option bytes) : state_m (E1 * E2) unit :=
  both_done (NewStyle.change_file_prop editor_1 f.1 name value) (NewStyle.change_file_prop editor_2 f.2 name value).

Definition compose_close_file (f : FB1 * FB2) : state_m (E1 * E2) unit :=
  both_done (NewStyle.close_file editor_1 f.1) (NewStyle.close_file editor_2 f.2).

Definition compose_close_edit : state_m (E1 * E2) unit :=
  both_done (NewStyle.close_edit editor_1) (NewStyle.close_edit editor_2).

Definition compose_abort_edit : state_m (E1 * E2) unit :=
  both_done (NewStyle.abort_edit editor_1) (NewStyle.abort_edit editor_2).

Definition svn_delta_compose_editors : svn_delta_editor_t (E1 * E2) (DB1 * DB2) (FB1 * FB2) := NewStyle.mk_editor
  compose_set_target_revision compose_open_root compose_delete_entry compose_add_directory compose_open_directory compose_change_dir_prop compose_close_directory
  compose_add_file compose_open_file compose_apply_textdelta compose_change_file_prop compose_close_file compose_close_edit compose_abort_edit.
End compose.

(** An editor and the types of its state and its batons. *)
Record some_editor := mk_some { se_E : Type; se_DB : Type; se_FB : Type; se_editor : svn_delta_editor_t se_E se_DB se_FB }.
Arguments mk_some {se_E se_DB se_FB}.

Definition svn_delta_wrap_editor (before_editor : option some_editor) (middle_editor : some_editor)
    (after_editor : option some_editor) : some_editor :=
  let middle_editor :=
    match before_editor with
    | Some before_editor => mk_some (svn_delta_compose_editors (se_editor before_editor) (se_editor middle_editor))
    | None => middle_editor
    end in
  match after_editor with
  | Some after_editor => mk_some (svn_delta_compose_editors (se_editor middle_editor) (se_editor after_editor))
  | None => middle_editor
  end.

(** ** Passing every call on *)

Section pipe.
Context {E DB FB : Type} (real_editor : svn_delta_edit_fns_t E DB FB).

(** With its parent, and with a null pointer for the root. *)
Inductive svn_pipe_dir_baton :=
  | pipe_root (real : DB)
  | pipe_dir (parent_dir_baton : svn_pipe_dir_baton) (real : DB).

Definition pd_real (d : svn_pipe_dir_baton) : DB := match d with pipe_root real | pipe_dir _ real => real end.

Record svn_pipe_file_baton := mk_pipe_file { pf_dir_baton : svn_pipe_dir_baton; pf_real : FB }.

Definition pipe_open_root (base_revision : Z) : state_m E svn_pipe_dir_baton :=
  real ← open_root real_editor base_revision; mret (pipe_root real).

Definition pipe_add_directory (name : bytes) (d : svn_pipe_dir_baton) (copyfrom_path : option bytes) (copyfrom_revision : Z) :
    state_m E svn_pipe_dir_baton :=
  real ← add_directory real_editor name (pd_real d) copyfrom_path copyfrom_revision; mret (pipe_dir d real).

Definition pipe_open_directory (name : bytes) (d : svn_pipe_dir_baton) (base_revision : Z) : state_m E svn_pipe_dir_baton :=
  real ← open_directory real_editor name (pd_real d) base_revision; mret (pipe_dir d real).

Definition pipe_add_file (name : bytes) (d : svn_pipe_dir_baton) (copyfrom_path : option bytes) (copyfrom_revision : Z) :
    state_m E svn_pipe_file_baton :=
  real ← add_file real_editor name (pd_real d) copyfrom_path copyfrom_revision; mret (mk_pipe_file d real).

Definition pipe_open_file (name : bytes) (d : svn_pipe_dir_baton) (base_revision : Z) : state_m E svn_pipe_file_baton :=
  real ← open_file real_editor name (pd_real d) base_revision; mret (mk_pipe_file d real).

(** [window_handler] of [pipe_editors.c]. *)
Definition pipe_window_handler (real_handler : svn_txdelta_window_handler_t E) : svn_txdelta_window_handler_t E :=
  λ window, real_handler window.

Definition pipe_apply_textdelta (fb : svn_pipe_file_baton) : state_m E (svn_txdelta_window_handler_t E) :=
  real_handler ← apply_textdelta real_editor (pf_real fb); mret (pipe_window_handler real_handler).

Definition pipe_set_target_revision (target_revision : Z) : state_m E unit := set_target_revision real_editor target_revision.

Definition pipe_delete_entry (name : bytes) (revision : Z) (d : svn_pipe_dir_baton) : state_m E unit :=
  delete_entry real_editor name revision (pd_real d).

Definition pipe_change_dir_prop (d : svn_pipe_dir_baton) (name : bytes) (value : option bytes) : state_m E unit :=
  change_dir_prop real_editor (pd_real d) name value.

Definition pipe_close_directory (d : svn_pipe_dir_baton) : state_m E unit := close_directory real_editor (pd_real d).

Definition pipe_change_file_prop (f : svn_pipe_file_baton) (name : bytes) (value : option bytes) : state_m E unit :=
  change_file_prop real_editor (pf_real f) name value.

Definition pipe_close_file (f : svn_pipe_file_baton) : state_m E unit := close_file real_editor (pf_real f).

Definition svn_delta_old_default_pipe_editor : svn_delta_edit_fns_t E svn_pipe_dir_baton svn_pipe_file_baton := mk_editor
  pipe_set_target_revision pipe_open_root pipe_delete_entry pipe_add_directory pipe_open_directory pipe_change_dir_prop
  pipe_close_directory pipe_add_file pipe_open_file pipe_apply_textdelta pipe_change_file_prop pipe_close_file
  (close_edit real_editor) (abort_edit real_editor).
End pipe.

(** ** Drivers

    What a driver does: a list of calls, where the directories that are open are a
    stack, and at most one file is open. *)

Inductive edit_call :=
  | Delete (path : bytes) (rev : Z)
  | AddDir (path : bytes) (from : option bytes) (rev : Z)
  | OpenDir (path : bytes) (rev : Z)
  | DirProp (name : bytes) (value : option bytes)
  | CloseDir
  | AddFile (path : bytes) (from : option bytes) (rev : Z)
  | OpenFile (path : bytes) (rev : Z)
  | Text (windows : list (option svn_txdelta_window_t))
  | FileProp (name : bytes) (value : option bytes)
  | CloseFile.

(** The batons of the open directories, and that of the open file. *)
Abbreviation position DB FB := (list DB * option FB)%type.

Definition push_to {E} (handler : option (svn_txdelta_window_handler_t E)) (windows : list (option svn_txdelta_window_t)) : state_m E unit :=
  match handler with Some handler => push_windows handler windows | None => mret tt end.

Section drive.
Context {E DB FB : Type} (ed : svn_delta_editor_t E DB FB).

(** A call that is not allowed at the position is none of a driver's. *)
Definition make_call (c : edit_call) (p : position DB FB) : state_m E (position DB FB) :=
  match c, p with
  | Delete path rev, (d :: ds, None) => NewStyle.delete_entry ed path rev d;; mret p
  | AddDir path from rev, (d :: ds, None) => b ← NewStyle.add_directory ed path d from rev; mret (b :: d :: ds, None)
  | OpenDir path rev, (d :: ds, None) => b ← NewStyle.open_directory ed path d rev; mret (b :: d :: ds, None)
  | DirProp name value, (d :: ds, None) => NewStyle.change_dir_prop ed d name value;; mret p
  | CloseDir, (d :: ds, None) => NewStyle.close_directory ed d;; mret (ds, None)
  | AddFile path from rev, (d :: ds, None) => b ← NewStyle.add_file ed path d from rev; mret (d :: ds, Some b)
  | OpenFile path rev, (d :: ds, None) => b ← NewStyle.open_file ed path d rev; mret (d :: ds, Some b)
  | Text windows, (ds, Some f) => h ← NewStyle.apply_textdelta ed f; push_to h windows;; mret p
  | FileProp name value, (ds, Some f) => NewStyle.change_file_prop ed f name value;; mret p
  | CloseFile, (ds, Some f) => NewStyle.close_file ed f;; mret (ds, None)
  | _, _ => lift Abort
  end.

Fixpoint make_calls (cs : list edit_call) (p : position DB FB) : state_m E (position DB FB) :=
  match cs with
  | [] => mret p
  | c :: cs => p ← make_call c p; make_calls cs p
  end.

(** A whole edit. *)
Definition drive (target base : Z) (cs : list edit_call) : state_m E unit :=
  NewStyle.set_target_revision ed target;;
  root ← NewStyle.open_root ed base;
  p ← make_calls cs ([root], None);
  match p with
  | ([], None) => NewStyle.close_edit ed
  | _ => lift Abort
  end.
End drive.

(** ** Both editors are driven *)

Lemma bind_Ok_inv {St A B} (m : state_m St A) (f : A -> state_m St B) s b s' :
  (m ≫= f) s = (Ok b, s') <-> exists a s1, m s = (Ok a, s1) /\ f a s1 = (Ok b, s').
Proof.
  unfold mbind, state_bind. destruct (m s) as [[a|e| |] s1] eqn:Em; split; try by intros (? & ? & [=] & _).
  - intros H. by exists a, s1.
  - by intros (? & ? & [= <- <-] & H).
  - done.
  - done.
  - done.
Qed.

Section compose_ok.
Context {E1 DB1 FB1 E2 DB2 FB2 : Type}.
Context (e1 : svn_delta_editor_t E1 DB1 FB1) (e2 : svn_delta_editor_t E2 DB2 FB2).

Lemma first_ok {A} (m : state_m E1 A) s1 s2 a s1' s2' : first (E2 := E2) m (s1, s2) = (Ok a, (s1', s2')) <-> m s1 = (Ok a, s1') /\ s2 = s2'.
Proof. unfold first. destruct (m s1). split; [intros [= -> -> ->]; done|intros [[= -> ->] ->]; done]. Qed.

Lemma second_ok {A} (m : state_m E2 A) s1 s2 a s1' s2' : second (E1 := E1) m (s1, s2) = (Ok a, (s1', s2')) <-> m s2 = (Ok a, s2') /\ s1 = s1'.
Proof. unfold second. destruct (m s2). split; [intros [= -> -> ->]; done|intros [[= -> ->] ->]; done]. Qed.

Lemma both_ok {A B} (m1 : state_m E1 A) (m2 : state_m E2 B) s1 s2 a b s1' s2' :
  both m1 m2 (s1, s2) = (Ok (a, b), (s1', s2')) <-> m1 s1 = (Ok a, s1') /\ m2 s2 = (Ok b, s2').
Proof.
  unfold both. rewrite bind_Ok_inv. split.
  - intros (a' & [t1 t2] & [H1 <-]%first_ok & (b' & [u1 u2] & [H2 <-]%second_ok & [= <- <- <- <-])%bind_Ok_inv). done.
  - intros [H1 H2]. exists a, (s1', s2). split; [by apply first_ok|]. apply bind_Ok_inv. exists b, (s1', s2').
    split; [by apply second_ok|done].
Qed.

Lemma both_done_ok (m1 : state_m E1 unit) (m2 : state_m E2 unit) s1 s2 s1' s2' :
  both_done m1 m2 (s1, s2) = (Ok tt, (s1', s2')) <-> m1 s1 = (Ok tt, s1') /\ m2 s2 = (Ok tt, s2').
Proof.
  unfold both_done. rewrite bind_Ok_inv. split.
  - intros ([] & [t1 t2] & [H1 <-]%first_ok & [H2 <-]%second_ok). done.
  - intros [H1 H2]. exists tt, (s1', s2). split; [by apply first_ok|by apply second_ok].
Qed.

(** A handler that may be null. *)
Definition call_to {E} (handler : option (svn_txdelta_window_handler_t E)) : svn_txdelta_window_handler_t E :=
  default ignore_window handler.

Lemma push_call_to {E} (h : option (svn_txdelta_window_handler_t E)) ws s : push_windows (call_to h) ws s = push_to h ws s.
Proof. destruct h; [done|]. revert s. induction ws as [|w ws IH]; [done|exact IH]. Qed.

Lemma push_windows_bind {E} (h : svn_txdelta_window_handler_t E) w ws s :
  push_windows h (w :: ws) s = ((h w : state_m E unit);; (push_windows h ws : state_m E unit)) s.
Proof. unfold mbind, state_bind. cbn [push_windows]. by destruct (h w s) as [[]]. Qed.

Lemma push_pair_ok (h1 : option (svn_txdelta_window_handler_t E1)) (h2 : option (svn_txdelta_window_handler_t E2)) ws s1 s2 s1' s2' :
  push_windows (pair_handler h1 h2) ws (s1, s2) = (Ok tt, (s1', s2')) <->
  push_to h1 ws s1 = (Ok tt, s1') /\ push_to h2 ws s2 = (Ok tt, s2').
Proof.
  rewrite <- !push_call_to. revert s1 s2. induction ws as [|w ws IH]; intros s1 s2.
  - split; [by intros [= -> ->]|by intros [[= ->] [= ->]]].
  - assert (forall t1 t2, pair_handler h1 h2 w (s1, s2) = (Ok tt, (t1, t2)) <-> call_to h1 w s1 = (Ok tt, t1) /\ call_to h2 w s2 = (Ok tt, t2)) as Hw.
    { intros t1 t2. rewrite <- both_done_ok. unfold pair_handler, both_done, call_to, mbind, state_bind, first, second. destruct h1 as [h1|], h2 as [h2|]; cbn; try done. by destruct (h1 w s1) as [[]]. }
    rewrite !push_windows_bind, !bind_Ok_inv. split.
    + intros ([] & [t1 t2] & [H1 H2]%Hw & [H3 H4]%IH). split; [by exists tt, t1|by exists tt, t2].
    + intros [([] & t1 & H1 & H3) ([] & t2 & H2 & H4)]. exists tt, (t1, t2). split; [by apply Hw|by apply IH].
Qed.

(** ** One call, and all of them *)

Definition pos_1 (p : position (DB1 * DB2) (FB1 * FB2)) : position DB1 FB1 := (p.1.*1, fst <$> p.2).
Definition pos_2 (p : position (DB1 * DB2) (FB1 * FB2)) : position DB2 FB2 := (p.1.*2, snd <$> p.2).

Lemma opened_both {A B} (m1 : state_m E1 A) (m2 : state_m E2 B) p1 p2 (put : A * B -> position (DB1 * DB2) (FB1 * FB2)) k1 k2 s1 s2 s1' s2' :
  (forall a b, pos_1 (put (a, b)) = k1 a /\ pos_2 (put (a, b)) = k2 b) ->
  (exists p, (b ← both m1 m2; mret (put b)) (s1, s2) = (Ok p, (s1', s2')) /\ pos_1 p = p1 /\ pos_2 p = p2) <->
  (a ← m1; mret (k1 a)) s1 = (Ok p1, s1') /\ (b ← m2; mret (k2 b)) s2 = (Ok p2, s2').
Proof.
  intros Hput. split.
  - intros (p & ([a b] & [t1 t2] & [H1 H2]%both_ok & [= <- <- <-])%bind_Ok_inv & <- & <-). destruct (Hput a b) as [-> ->].
    split; apply bind_Ok_inv; eexists _, _; done.
  - intros [(a & t1 & H1 & [= <- <-])%bind_Ok_inv (b & t2 & H2 & [= <- <-])%bind_Ok_inv]. exists (put (a, b)).
    destruct (Hput a b) as [-> ->]. split; [|done]. apply bind_Ok_inv. exists (a, b), (t1, t2). split; [by apply both_ok|done].
Qed.

Lemma done_both (m1 : state_m E1 unit) (m2 : state_m E2 unit) p1 p2 p s1 s2 s1' s2' q1 q2 :
  pos_1 p = q1 -> pos_2 p = q2 ->
  (exists p', (both_done m1 m2;; mret p) (s1, s2) = (Ok p', (s1', s2')) /\ pos_1 p' = p1 /\ pos_2 p' = p2) <->
  (m1;; mret q1) s1 = (Ok p1, s1') /\ (m2;; mret q2) s2 = (Ok p2, s2').
Proof.
  intros <- <-. split.
  - intros (p' & ([] & [t1 t2] & [H1 H2]%both_done_ok & [= <- <- <-])%bind_Ok_inv & <- & <-).
    split; apply bind_Ok_inv; eexists _, _; done.
  - intros [([] & t1 & H1 & [= <- <-])%bind_Ok_inv ([] & t2 & H2 & [= <- <-])%bind_Ok_inv]. exists p.
    split; [|done]. apply bind_Ok_inv. exists tt, (t1, t2). split; [by apply both_done_ok|done].
Qed.

Lemma text_both f ws (p : position (DB1 * DB2) (FB1 * FB2)) s1 s2 s1' s2' :
  (h ← compose_apply_textdelta e1 e2 f; push_to h ws;; mret p) (s1, s2) = (Ok p, (s1', s2')) <->
  (h ← NewStyle.apply_textdelta e1 f.1; push_to h ws) s1 = (Ok tt, s1') /\
  (h ← NewStyle.apply_textdelta e2 f.2; push_to h ws) s2 = (Ok tt, s2').
Proof.
  assert (forall (h1 : option (svn_txdelta_window_handler_t E1)) (h2 : option (svn_txdelta_window_handler_t E2)) t1 t2, push_to (match h1, h2 with None, None => None | _, _ => Some (pair_handler h1 h2) end) ws (t1, t2) =
    (Ok tt, (s1', s2')) <-> push_to h1 ws t1 = (Ok tt, s1') /\ push_to h2 ws t2 = (Ok tt, s2')) as Hp.
  { intros [h1|] [h2|] t1 t2; try apply push_pair_ok. split; [by intros [= -> ->]|by intros [[= ->] [= ->]]]. }
  rewrite !bind_Ok_inv. split.
  - intros (h & [t1 t2] & (h1 & [u1 u2] & [H1 <-]%first_ok & (h2 & [v1 v2] & [H2 <-]%second_ok & Hh)%bind_Ok_inv)%bind_Ok_inv & ([] & [w1 w2] & Hpush & [= <- <-])%bind_Ok_inv).
    assert (h = match h1, h2 with None, None => None | _, _ => Some (pair_handler h1 h2) end /\ u1 = t1 /\ v2 = t2) as (-> & -> & ->)
      by (destruct h1, h2; by injection Hh as <- <- <-).
    apply Hp in Hpush as [H3 H4]. split; eexists _, _; done.
  - intros [(h1 & t1 & H1 & H3) (h2 & t2 & H2 & H4)].
    exists (match h1, h2 with None, None => None | _, _ => Some (pair_handler h1 h2) end), (t1, t2). split.
    + apply bind_Ok_inv. exists h1, (t1, s2). split; [by apply first_ok|]. apply bind_Ok_inv. exists h2, (t1, t2).
      split; [by apply second_ok|]. by destruct h1, h2.
    + apply bind_Ok_inv. exists tt, (s1', s2'). split; [by apply Hp|done].
Qed.

Lemma text_done {E F B} (m : state_m E (option F)) (push : option F -> state_m E unit) (p p' : B) s s' :
  (h ← m; push h;; mret p) s = (Ok p', s') <-> p = p' /\ (h ← m; push h) s = (Ok tt, s').
Proof.
  rewrite !bind_Ok_inv. split.
  - intros (h & t & H1 & ([] & u & H2 & [= <- <-])%bind_Ok_inv). split; [done|]. by exists h, t.
  - intros (<- & h & t & H1 & H2). exists h, t. split; [done|]. apply bind_Ok_inv. by exists tt, s'.
Qed.

Lemma text_calls f ws (p : position (DB1 * DB2) (FB1 * FB2)) p1 p2 s1 s2 s1' s2' :
  (exists p', (h ← compose_apply_textdelta e1 e2 f; push_to h ws;; mret p) (s1, s2) = (Ok p', (s1', s2')) /\ pos_1 p' = p1 /\ pos_2 p' = p2) <->
  (h ← NewStyle.apply_textdelta e1 f.1; push_to h ws;; mret (pos_1 p)) s1 = (Ok p1, s1') /\
  (h ← NewStyle.apply_textdelta e2 f.2; push_to h ws;; mret (pos_2 p)) s2 = (Ok p2, s2').
Proof.
  rewrite !text_done. split.
  - intros (p' & H & <- & <-). pose proof H as [<- _]%text_done. apply text_both in H as [H1 H2]. done.
  - intros [[<- H1] [<- H2]]. exists p. split; [by apply text_both|done].
Qed.

Abbreviation e12 := (svn_delta_compose_editors e1 e2).

Lemma call_both c P p1 p2 s1 s2 s1' s2' :
  (exists P', make_call e12 c P (s1, s2) = (Ok P', (s1', s2')) /\ pos_1 P' = p1 /\ pos_2 P' = p2) <->
  make_call e1 c (pos_1 P) s1 = (Ok p1, s1') /\ make_call e2 c (pos_2 P) s2 = (Ok p2, s2').
Proof.
  assert ((exists P' : position (DB1 * DB2) (FB1 * FB2), (lift Abort : state_m (E1 * E2) _) (s1, s2) = (Ok P', (s1', s2')) /\ pos_1 P' = p1 /\ pos_2 P' = p2) <->
    (lift Abort : state_m E1 (position DB1 FB1)) s1 = (Ok p1, s1') /\ (lift Abort : state_m E2 (position DB2 FB2)) s2 = (Ok p2, s2')) as Hno.
  { split; [by intros (? & [=] & _)|by intros [[=] _]]. }
  destruct c, P as [[|d ds] [f|]]; cbn [make_call pos_1 pos_2 fst snd fmap list_fmap option_fmap option_map]; try exact Hno;
    try (by apply done_both); try (by apply opened_both).
  - apply (text_calls f windows ([], Some f)).
  - apply (text_calls f windows (d :: ds, Some f)).
Qed.

Lemma calls_both cs P p1 p2 s1 s2 s1' s2' :
  (exists P', make_calls e12 cs P (s1, s2) = (Ok P', (s1', s2')) /\ pos_1 P' = p1 /\ pos_2 P' = p2) <->
  make_calls e1 cs (pos_1 P) s1 = (Ok p1, s1') /\ make_calls e2 cs (pos_2 P) s2 = (Ok p2, s2').
Proof.
  revert P s1 s2. induction cs as [|c cs IH]; intros P s1 s2; cbn [make_calls].
  - split; [by intros (P' & [= <- <- <-] & <- & <-)|]. intros [[= <- <-] [= <- <-]]. by exists P.
  - split.
    + intros (P' & (Q & [t1 t2] & HQ & HP)%bind_Ok_inv & H1 & H2).
      destruct (proj1 (call_both c P (pos_1 Q) (pos_2 Q) s1 s2 t1 t2)) as [C1 C2]; [by exists Q|].
      destruct (proj1 (IH Q t1 t2)) as [D1 D2]; [by exists P'|]. split; apply bind_Ok_inv; by eexists _, _.
    + intros [(q1 & t1 & C1 & D1)%bind_Ok_inv (q2 & t2 & C2 & D2)%bind_Ok_inv].
      destruct (proj2 (call_both c P q1 q2 s1 s2 t1 t2)) as (Q & HQ & <- & <-); [done|].
      destruct (proj2 (IH Q t1 t2)) as (P' & HP & H); [done|]. exists P'. split; [|done]. apply bind_Ok_inv. by exists Q, (t1, t2).
Qed.

(** C5. [svn_delta_compose_editors]: a driver that drives the two editors as one comes to an
    end without an error exactly when it does so with each of them alone, and they are
    left as it leaves each of them; the handlers may be null. *)
Theorem compose_editors_correct target base cs s1 s2 s1' s2' :
  drive e12 target base cs (s1, s2) = (Ok tt, (s1', s2')) <->
  drive e1 target base cs s1 = (Ok tt, s1') /\ drive e2 target base cs s2 = (Ok tt, s2').
Proof.
  assert (forall P t1 t2, match P with ([], None) => NewStyle.close_edit e12 | _ => lift Abort end (t1, t2) = (Ok tt, (s1', s2')) <->
    match pos_1 P with ([], None) => NewStyle.close_edit e1 | _ => lift Abort end t1 = (Ok tt, s1') /\
    match pos_2 P with ([], None) => NewStyle.close_edit e2 | _ => lift Abort end t2 = (Ok tt, s2')) as Hend.
  { intros [[|d ds] [f|]] t1 t2; cbn [pos_1 pos_2 fst snd fmap list_fmap option_fmap option_map];
      try (split; [by intros [=]|by intros [[=] _]]). apply both_done_ok. }
  unfold drive. split.
  - intros ([] & [t1 t2] & [T1 T2]%both_done_ok & ([a b] & [u1 u2] & [R1 R2]%both_ok & (P & [v1 v2] & HP & [C1 C2]%Hend)%bind_Ok_inv)%bind_Ok_inv)%bind_Ok_inv.
    destruct (proj1 (calls_both cs ([(a, b)], None) (pos_1 P) (pos_2 P) u1 u2 v1 v2)) as [D1 D2]; [by exists P|].
    split; (apply bind_Ok_inv; eexists tt, _; split; [done|]; apply bind_Ok_inv; eexists _, _; split; [done|]; apply bind_Ok_inv; by eexists _, _).
  - intros [([] & t1 & T1 & (a & u1 & R1 & (p1 & v1 & D1 & C1)%bind_Ok_inv)%bind_Ok_inv)%bind_Ok_inv
            ([] & t2 & T2 & (b & u2 & R2 & (p2 & v2 & D2 & C2)%bind_Ok_inv)%bind_Ok_inv)%bind_Ok_inv].
    destruct (proj2 (calls_both cs ([(a, b)], None) p1 p2 u1 u2 v1 v2)) as (P & HP & <- & <-); [done|].
    apply bind_Ok_inv. exists tt, (t1, t2). split; [by apply both_done_ok|]. apply bind_Ok_inv. exists (a, b), (u1, u2).
    split; [by apply both_ok|]. apply bind_Ok_inv. exists P, (v1, v2). split; [done|by apply Hend].
Qed.
End compose_ok.

(** ** An old driver drives a new editor

    The same calls of a driver of the old style, which gives names. *)

Section drive_old.
Context {E DB FB : Type} (ed : svn_delta_edit_fns_t E DB FB).

Definition make_call_old (c : edit_call) (p : position DB FB) : state_m E (position DB FB) :=
  match c, p with
  | Delete name rev, (d :: ds, None) => delete_entry ed name rev d;; mret p
  | AddDir name from rev, (d :: ds, None) => b ← add_directory ed name d from rev; mret (b :: d :: ds, None)
  | OpenDir name rev, (d :: ds, None) => b ← open_directory ed name d rev; mret (b :: d :: ds, None)
  | DirProp name value, (d :: ds, None) => change_dir_prop ed d name value;; mret p
  | CloseDir, (d :: ds, None) => close_directory ed d;; mret (ds, None)
  | AddFile name from rev, (d :: ds, None) => b ← add_file ed name d from rev; mret (d :: ds, Some b)
  | OpenFile name rev, (d :: ds, None) => b ← open_file ed name d rev; mret (d :: ds, Some b)
  | Text windows, (ds, Some f) => h ← apply_textdelta ed f; (push_windows h windows : state_m E unit);; mret p
  | FileProp name value, (ds, Some f) => change_file_prop ed f name value;; mret p
  | CloseFile, (ds, Some f) => close_file ed f;; mret (ds, None)
  | _, _ => lift Abort
  end.

Fixpoint make_calls_old (cs : list edit_call) (p : position DB FB) : state_m E (position DB FB) :=
  match cs with
  | [] => mret p
  | c :: cs => p ← make_call_old c p; make_calls_old cs p
  end.

Definition drive_old (target base : Z) (cs : list edit_call) : state_m E unit :=
  set_target_revision ed target;;
  root ← open_root ed base;
  p ← make_calls_old cs ([root], None);
  match p with
  | ([], None) => close_edit ed
  | _ => lift Abort
  end.
End drive_old.

(** The path of the names, the last one first. *)
Fixpoint path_of (names : list bytes) : bytes :=
  match names with
  | [] => []
  | [name] => name
  | name :: names => path_of names ++ sep :: name
  end.

(** The call with paths, in directories of these names, and the directories that are
    open after it. *)
Definition with_path (dirs : list (list bytes)) (c : edit_call) : edit_call * list (list bytes) :=
  let here := default [] (head dirs) in
  match c with
  | Delete name rev => (Delete (path_of (name :: here)) rev, dirs)
  | AddDir name from rev => (AddDir (path_of (name :: here)) from rev, (name :: here) :: dirs)
  | OpenDir name rev => (OpenDir (path_of (name :: here)) rev, (name :: here) :: dirs)
  | AddFile name from rev => (AddFile (path_of (name :: here)) from rev, dirs)
  | OpenFile name rev => (OpenFile (path_of (name :: here)) rev, dirs)
  | CloseDir => (CloseDir, tail dirs)
  | _ => (c, dirs)
  end.

Fixpoint with_paths (dirs : list (list bytes)) (cs : list edit_call) : list edit_call :=
  match cs with
  | [] => []
  | c :: cs => let '(c, dirs) := with_path dirs c in c :: with_paths dirs cs
  end.

(** A name of an entry, and what else is a C string in a call. *)
Definition plain_name (name : bytes) : Prop := no_nul name /\ name <> [] /\ sep ∉ name.

Definition strings_ok (c : edit_call) : Prop :=
  match c with
  | Delete name _ | OpenDir name _ | OpenFile name _ => plain_name name
  | AddDir name from _ | AddFile name from _ => plain_name name /\ match from with Some from => no_nul from | None => True end
  | DirProp name _ | FileProp name _ => no_nul name
  | CloseDir | CloseFile | Text _ => True
  end.

Lemma ends_with_sep_notin (l : bytes) : sep ∉ l -> ends_with l sep = false.
Proof. apply ends_with_notin. Qed.

Lemma path_of_join names name : Forall plain_name names -> plain_name name ->
  svn_path_join (path_of names) name = path_of (name :: names).
Proof.
  intros Hns (_ & Hne & Hsep). unfold svn_path_join. rewrite (bool_decide_false (head name = _)) by (intros E; apply Hsep; destruct name; [done|injection E as ->; by left]).
  destruct Hns as [|n1 ns (_ & Hne1 & Hsep1) Hns]; [done|]. destruct (Nat.eqb_spec (length name) 0); [by destruct name|].
  assert (ends_with (path_of (n1 :: ns)) sep = false /\ length (path_of (n1 :: ns)) <> 0%nat) as [He Hl].
  { cbn [path_of]. destruct ns as [|n2 ns]; [split; [by apply ends_with_notin|by destruct n1]|]. split; [|rewrite length_app; cbn; lia].
    rewrite ends_with_app. destruct n1 as [|x n1]; [done|]. change (sep :: x :: n1) with ([sep] ++ x :: n1).
    rewrite ends_with_app. by apply ends_with_notin. }
  apply Nat.eqb_neq in Hl. rewrite He, Hl. cbn [orb]. by rewrite firstn_all.
Qed.

Section wrap_ok.
Context {E DB FB : Type} (ed : svn_delta_editor_t E DB FB).

Record same_place (dirs : list (list bytes)) (P : position (wrap_dir_baton (DB := DB)) (wrap_file_baton (FB := FB))) (p : position DB FB) : Prop := {
  sp_dirs : p.1 = real_dir_baton <$> P.1;
  sp_paths : path <$> P.1 = path_of <$> dirs;
  sp_file : p.2 = real_file_baton <$> P.2;
  sp_names : Forall (Forall plain_name) dirs;
}.

(** What a call does, seen from both sides. *)
Definition agree (dirs : list (list bytes)) (R : outcome (position (wrap_dir_baton (DB := DB)) (wrap_file_baton (FB := FB))) * E) (r : outcome (position DB FB) * E) : Prop :=
  R.2 = r.2 /\
  match R.1, r.1 with
  | Ok P, Ok p => same_place dirs P p
  | Err e, Err e' => e = e'
  | Abort, Abort | Undef, Undef => True
  | _, _ => False
  end.

Lemma agree_bind {A} (m : state_m E A) dirs (F : A -> state_m E _) (f : A -> state_m E _) s :
  (forall a s, agree dirs (F a s) (f a s)) -> agree dirs ((m ≫= F) s) ((m ≫= f) s).
Proof. intros H. unfold mbind, state_bind. destruct (m s) as [[a|e| |] s1]; [apply H|done..]. Qed.

Lemma agree_ret dirs P p s : same_place dirs P p -> agree dirs ((mret P : state_m E _) s) ((mret p : state_m E _) s).
Proof. by intros H. Qed.

Ltac same_call :=
  repeat (first [apply agree_ret | apply agree_bind; intros ? ? | rewrite bind_assoc]).

Lemma agree_abort dirs s : agree dirs (lift Abort s) (lift Abort s).
Proof. done. Qed.

Lemma call_wrapped c dirs P p s : strings_ok c -> same_place dirs P p ->
  agree (with_path dirs c).2 (make_call_old (svn_delta_compat_wrap ed) c P s) (make_call ed (with_path dirs c).1 p s).
Proof.
  intros Hc Hsame. pose proof Hsame as [Hd Hp Hf Hn]. destruct p as [ds f], P as [Ds Fo]. cbn [fst snd] in *. subst ds f.
  destruct c; cbn [with_path fst snd strings_ok] in *;
    destruct Ds as [|[D pth] Ds], dirs as [|here dirs]; try done; cbn [fmap list_fmap real_dir_baton path] in *;
    try (injection Hp as -> Hp; apply list.Forall_cons in Hn as [Hh Hn]);
    (destruct Fo as [[F]|]; cbn [fmap option_fmap option_map real_file_baton]; try apply agree_abort);
    cbn [make_call_old make_call svn_delta_compat_wrap delete_entry add_directory open_directory change_dir_prop close_directory add_file open_file
              head default apply_textdelta change_file_prop close_file wrap_delete_entry wrap_add_directory wrap_open_directory wrap_change_dir_prop
              wrap_close_directory wrap_add_file wrap_open_file wrap_apply_textdelta wrap_change_file_prop wrap_close_file make_dir_baton
              real_dir_baton path real_file_baton].
  1: unfold wrap_delete_entry.
  2: unfold wrap_add_directory, make_dir_baton.
  3: unfold wrap_open_directory, make_dir_baton.
  4: unfold wrap_change_dir_prop.
  5: unfold wrap_close_directory.
  6: unfold wrap_add_file.
  7: unfold wrap_open_file.
  8-9: unfold wrap_apply_textdelta.
  10-11: unfold wrap_change_file_prop.
  12-13: unfold wrap_close_file.
  all: cbn [real_dir_baton path real_file_baton]; rewrite ?(apr_pstrndup_id path0), ?(apr_pstrndup_id name), ?path_of_join by (done || apply Hc).
  all: try change (id here) with here.
  2: assert (apr_pstrndup <$> from = from) as -> by (destruct Hc as [_ Hc]; destruct from; [cbn; by rewrite apr_pstrndup_id|done]).
  6: assert (apr_pstrndup <$> from = from) as -> by (destruct Hc as [_ Hc]; destruct from; [cbn; by rewrite apr_pstrndup_id|done]).
  8-9: rewrite bind_assoc; apply agree_bind; intros h t; rewrite ret_bind; unfold mbind, state_bind;
    change (default ignore_window h) with (call_to h); rewrite push_call_to; destruct (push_to h windows t) as [[[]|e| |] t']; [|done..].
  2: rewrite bind_assoc.
  3: rewrite bind_assoc.
  6: rewrite bind_assoc.
  7: rewrite bind_assoc.
  1-7: apply agree_bind; intros b t.
  10-13: apply agree_bind; intros b t.
  2: rewrite ret_bind.
  3: rewrite ret_bind.
  6: rewrite ret_bind.
  7: rewrite ret_bind.
  all: apply agree_ret.
  all: split; cbn [fst snd fmap list_fmap option_fmap option_map real_dir_baton path real_file_baton].
  all: cbn [tail]; rewrite ?Hp; try done.
  all: repeat (apply list.Forall_cons; split); first [done|apply Hc|constructor].
Qed.

Lemma calls_wrapped cs : Forall strings_ok cs -> forall dirs P p s, same_place dirs P p ->
  exists dirs', agree dirs' (make_calls_old (svn_delta_compat_wrap ed) cs P s) (make_calls ed (with_paths dirs cs) p s).
Proof.
  induction 1 as [|c cs Hc Hcs IH]; intros dirs P p s H; cbn [make_calls_old with_paths]; [by exists dirs; apply agree_ret|].
  pose proof (call_wrapped c dirs P p s Hc H) as Ha. destruct (with_path dirs c) as [c' dirs']. cbn [fst snd] in Ha.
  cbn [make_calls]. unfold mbind, state_bind. destruct (make_call_old _ c P s) as [R S], (make_call ed c' p s) as [r s'].
  destruct Ha as [Es Ha]. cbn [fst snd] in *. subst S.
  destruct R as [P'|e| |], r as [p'|e'| |]; try done; [by apply IH|exists dirs'; by split..].
Qed.

Lemma bind_ext {St A B} (m : state_m St A) (F f : A -> state_m St B) s : (forall a s, F a s = f a s) -> (m ≫= F) s = (m ≫= f) s.
Proof. intros H. unfold mbind, state_bind. destruct (m s) as [[a|e| |] s1]; [apply H|done..]. Qed.

(** C6. [svn_delta_compat_wrap]: a driver of the old style, which gives the names of
    entries, drives the wrapped editor as a driver of the new style does which gives
    the paths from the root of the edit, made of these names; that a handler is null
    is kept from the driver. *)
Theorem compat_wrap_correct target base cs s : Forall strings_ok cs ->
  drive_old (svn_delta_compat_wrap ed) target base cs s = drive ed target base (with_paths [[]] cs) s.
Proof.
  intros Hcs. unfold drive_old, drive. cbn [set_target_revision open_root close_edit svn_delta_compat_wrap].
  apply bind_ext. intros [] s1. unfold wrap_open_root. rewrite bind_assoc. apply bind_ext. intros root s2. rewrite ret_bind.
  destruct (calls_wrapped cs Hcs [[]] ([mk_wrap_dir root []], None) ([root], None) s2) as (dirs' & Es & Ha); [split; [reflexivity|reflexivity|reflexivity|apply list.Forall_cons; split; [constructor|constructor]]|].
  unfold mbind, state_bind. destruct (make_calls_old _ cs _ s2) as [R S], (make_calls ed _ _ s2) as [r s']. cbn [fst snd] in *. subst S.
  destruct R as [[Ds F]|e| |], r as [[ds f]|e'| |]; try done; [|by subst].
  destruct Ha as [Hd _ Hf _]. cbn in Hd, Hf. subst. by destruct Ds, F.
Qed.
End wrap_ok.

(** ** The pipe *)

Section pipe_ok.
Context {E DB FB : Type} (ed : svn_delta_edit_fns_t E DB FB).

Definition pipe_pos (P : position (svn_pipe_dir_baton (DB := DB)) (svn_pipe_file_baton (DB := DB) (FB := FB))) : position DB FB :=
  (pd_real <$> P.1, pf_real <$> P.2).

Definition piped (X : state_m E (position svn_pipe_dir_baton svn_pipe_file_baton)) : state_m E (position DB FB) :=
  P ← X; mret (pipe_pos P).

Lemma call_piped c P s : piped (make_call_old (svn_delta_old_default_pipe_editor ed) c P) s = make_call_old ed c (pipe_pos P) s.
Proof.
  unfold piped. destruct c, P as [[|D Ds] [F|]]; try done;
    cbn [make_call_old svn_delta_old_default_pipe_editor delete_entry add_directory open_directory change_dir_prop close_directory add_file
         open_file apply_textdelta change_file_prop close_file pipe_pos fst snd fmap list_fmap option_fmap option_map];
    unfold pipe_add_directory, pipe_open_directory, pipe_add_file, pipe_open_file, pipe_apply_textdelta;
    rewrite ?bind_assoc; apply bind_ext; intros a t; rewrite ?bind_assoc, ?ret_bind; try done.
  all: change (push_windows (pipe_window_handler a) windows) with (push_windows a windows); rewrite bind_assoc;
    apply bind_ext; intros [] t'; by rewrite ret_bind.
Qed.

Lemma calls_piped cs P s : piped (make_calls_old (svn_delta_old_default_pipe_editor ed) cs P) s = make_calls_old ed cs (pipe_pos P) s.
Proof.
  revert P s. induction cs as [|c cs IH]; intros P s; [done|]. cbn [make_calls_old]. unfold piped. rewrite bind_assoc.
  assert (forall B (K : _ -> state_m E B) s, (p ← make_call_old ed c (pipe_pos P); K p) s =
    (P ← make_call_old (svn_delta_old_default_pipe_editor ed) c P; K (pipe_pos P)) s) as ->.
  { intros B K t. unfold mbind at 1, state_bind at 1. rewrite <- call_piped. unfold piped, mbind, state_bind.
    by destruct (make_call_old (svn_delta_old_default_pipe_editor ed) c P t) as [[]]. }
  apply bind_ext. intros Q t. apply IH.
Qed.

(** The pipe editor is driven as the editor behind it. *)
Theorem pipe_editor_correct target base cs s :
  drive_old (svn_delta_old_default_pipe_editor ed) target base cs s = drive_old ed target base cs s.
Proof.
  unfold drive_old. cbn [set_target_revision open_root close_edit svn_delta_old_default_pipe_editor].
  apply bind_ext. intros [] s1. unfold pipe_open_root. rewrite bind_assoc. apply bind_ext. intros root s2. rewrite ret_bind.
  unfold mbind, state_bind. change ([root], None) with (pipe_pos ([pipe_root root], None)) at 1. rewrite <- calls_piped.
  unfold piped, mbind, state_bind. by destruct (make_calls_old _ cs _ s2) as [[[[] []]|e| |] s3].
Qed.
End pipe_ok.

(** ** A witness *)

(** An editor that notes the paths of what is added. *)
Definition noting : svn_delta_editor_t (list bytes) unit unit := NewStyle.mk_editor
  (λ _, mret tt) (λ _, mret tt) (λ _ _ _, mret tt) (λ path _ _ _ l, (Ok tt, l ++ [path])) (λ _ _ _, mret tt) (λ _ _ _, mret tt) (λ _, mret tt)
  (λ path _ _ _ l, (Ok tt, l ++ [path])) (λ _ _ _, mret tt) (λ _, mret None) (λ _ _ _, mret tt) (λ _, mret tt) (mret tt) (mret tt).

Definition two_adds : list edit_call :=
  [AddDir (bstr "a") None (-1); AddFile (bstr "b") None (-1); Text [None]; CloseFile; CloseDir; AddDir (bstr "c") None (-1); CloseDir; CloseDir].

Lemma compat_wrap_correct_witness :
  drive_old (svn_delta_compat_wrap noting) 1 0 two_adds [] = (Ok tt, [bstr "a"; bstr "a/b"; bstr "c"]).
Proof.
  rewrite (compat_wrap_correct noting 1 0 two_adds []); [by vm_compute|].
  assert (forall name, name = bstr "a" \/ name = bstr "b" \/ name = bstr "c" -> plain_name name) as H.
  { intros name [-> |[-> | ->]]; (split; [by repeat constructor|]; split; [done|]; apply (bool_decide_unpack _); by vm_compute). }
  repeat (apply list.Forall_cons; split); try apply list.Forall_nil; cbn; try done; (split; [apply H; auto|done]).
Defined.
