(* ===== verification/ReposDelta.v ===== *)
(** * The difference of two trees as an edit ([libsvn_repos/delta.c])

    [svn_repos_dir_delta] walks a directory of one root and a directory of another
    one, and drives an editor with the changes that turn the first into the second.
    The functions of [Tree] are called one after the other, each in a trail of its
    own; the state is the filesystem, which they only read, and that of the editor.
    [hash_order] is the order of the entries of a hash table. *)

From S2P Require Import Prelude Types KeyGen Libc Skel Proplist Id Stream Db NodeKeys Fs RevTable TxnTable NodesTable Strings.
From S2P Require Import TextDelta Vdelta Svndiff TxStream Reps RepOps SvnString Path Sorts Dag Deltify Commit Tree Editor.

(** ** The base revision of a path *)

Fixpoint revision_loop (n : nat) (hash : gmap bytes svn_revnum_t) (revision : svn_revnum_t) (path_copy : bytes) :
    outcome svn_revnum_t :=
  match n with
  | O => Undef
  | S n =>
      if negb (is_valid_revnum revision) && negb (svn_path_is_empty (Some path_copy)) then
        path_copy ← svn_path_remove_component path_copy;
        revision_loop n hash (default revision (hash !! apr_pstrndup path_copy)) path_copy
      else Ok revision
  end.

Definition get_revision_from_hash (hash : option (gmap bytes svn_revnum_t)) (path : bytes) : outcome svn_revnum_t :=
  match hash with
  | None => Ok SVN_INVALID_REVNUM
  | Some hash =>
      let path := apr_pstrndup path in
      let revision := default SVN_INVALID_REVNUM (hash !! path) in
      if is_valid_revnum revision then Ok revision
      else revision_loop (S (length path)) hash revision path
  end.

(** ** The traversal *)

Section delta.
Context `{db : BerkeleyDB} {ctx : Type} `{m : Md5 ctx bytes}.
Context (fuel : nat) (hash_order : forall A : Type, gmap bytes A -> list (bytes * A)).
Context {E DB FB : Type}.

(** The parameters that are the same throughout a traversal. *)
Record context := mk_context {
  editor : svn_delta_edit_fns_t E DB FB;
  source_root : svn_fs_root_t;
  source_rev_diffs : option (gmap bytes svn_revnum_t);
  target_root : svn_fs_root_t;
  text_deltas : bool;
  recurse : bool;
  use_copyfrom_args : bool;
  target_is_rev : bool;
}.

Abbreviation driver := (state_m (svn_fs_t * E)).

Definition call_fs {A} (call : trail A) : driver A := λ '(fs, e), let '(r, fs) := call fs in (r, (fs, e)).

Definition call_ed {A} (call : state_m E A) : driver A := λ '(fs, e), let '(r, e) := call e in (r, (fs, e)).

Context (c : context).

(** *** Properties *)

(** [change_dir_prop] and [change_file_prop] of the editor, through the functions of
    the same names. *)
Definition delta_change (change_fn : bytes -> option bytes -> state_m E unit) (name : bytes) (value : option bytes) :
    driver unit :=
  call_ed (change_fn (apr_pstrndup name) value).

(** The loop over the target's properties; what is left of the source's. *)
Fixpoint each_target_prop (change_fn : bytes -> option bytes -> state_m E unit) (t_props : list (bytes * bytes))
    (s_props : option (gmap bytes bytes)) : driver (option (gmap bytes bytes)) :=
  match t_props with
  | [] => mret s_props
  | (key, val) :: t_props =>
      s_props ←
        match s_props ≫= (.!! key) with
        | Some s_value =>
            (if negb (bool_decide (s_value = val)) then delta_change change_fn key (Some val) else mret tt);;
            mret (delete key <$> s_props)
        | None => delta_change change_fn key (Some val);; mret s_props
        end;
      each_target_prop change_fn t_props s_props
  end.

Fixpoint each_source_prop (change_fn : bytes -> option bytes -> state_m E unit) (s_props : list (bytes * bytes)) :
    driver unit :=
  match s_props with
  | [] => mret tt
  | (key, _) :: s_props => delta_change change_fn key None;; each_source_prop change_fn s_props
  end.

Definition delta_proplists (source_path : option bytes) (target_path : bytes)
    (change_fn : bytes -> option bytes -> state_m E unit) : driver unit :=
  changed ←
    match source_path with
    | Some source_path => call_fs (svn_fs_props_changed fuel (target_root c) target_path (source_root c) source_path)
    | None => mret true
    end;
  if negb changed then mret tt
  else
    s_props ←
      match source_path with
      | Some source_path => s ← call_fs (svn_fs_node_proplist fuel (source_root c) source_path); mret (Some s)
      | None => mret None
      end;
    t_props ← call_fs (svn_fs_node_proplist fuel (target_root c) target_path);
    s_props ← each_target_prop change_fn (hash_order _ t_props) s_props;
    match s_props with
    | Some s_props => each_source_prop change_fn (hash_order _ s_props)
    | None => mret tt
    end.

(** *** Texts *)

Definition send_txstream {S} (delta_stream : svn_txdelta_stream_t (ctx := ctx) (dig := bytes) (S := S) (T := nat))
    (handler : svn_txdelta_window_handler_t E) : state_m E unit := λ e,
  let '(r, _, e) := svn_txdelta_send_txstream fuel delta_stream handler e in (r, e).

Definition send_text_delta (file_baton : FB)
    (delta_stream : svn_txdelta_stream_t (ctx := ctx) (dig := bytes) (S := nat) (T := nat) +
                    svn_txdelta_stream_t (ctx := ctx) (dig := bytes) (S := unit) (T := nat)) : driver unit :=
  delta_handler ← call_ed (apply_textdelta (editor c) file_baton);
  if text_deltas c then
    call_ed match delta_stream with
            | inl delta_stream => send_txstream delta_stream delta_handler
            | inr delta_stream => send_txstream delta_stream delta_handler
            end
  else call_ed (delta_handler None).

Definition delta_files (file_baton : FB) (source_path : option bytes) (target_path : bytes) : driver unit :=
  delta_proplists source_path target_path (change_file_prop (editor c) file_baton);;
  changed ←
    match source_path with
    | Some source_path => call_fs (svn_fs_contents_changed fuel (target_root c) target_path (source_root c) source_path)
    | None => mret true
    end;
  if negb changed then mret tt
  else
    delta_stream ← call_fs (svn_fs_get_file_delta_stream fuel ((λ p, (source_root c, p)) <$> source_path)
                              (target_root c) target_path);
    send_text_delta file_baton delta_stream.

(** *** Entries *)

(** [delete]. *)
Definition delete_ (dir_baton : DB) (target_entry : bytes) : driver unit :=
  call_ed (delete_entry (editor c) (apr_pstrndup target_entry) SVN_INVALID_REVNUM dir_baton).

(** [delta_dirs] is an argument of the functions it calls. *)
Section entries.
Context (delta_dirs : DB -> option bytes -> bytes -> driver unit).

(** The source is the parent and the entry, if there are both. *)
Definition add_file_or_dir (dir_baton : DB) (source : option (bytes * bytes)) (target_parent target_entry : bytes) :
    driver unit :=
  let target_full_path := svn_path_add_component_nts (apr_pstrndup target_parent) target_entry in
  is_dir ← call_fs (svn_fs_is_dir fuel (target_root c) target_full_path);
  '(source_full_path, base_revision) ←
    match source with
    | Some (source_parent, source_entry) =>
        let source_full_path := svn_path_add_component_nts (apr_pstrndup source_parent) source_entry in
        base_revision ← lift (get_revision_from_hash (source_rev_diffs c) source_full_path);
        mret (Some source_full_path, base_revision)
    | None => mret (None, SVN_INVALID_REVNUM)
    end;
  let name := apr_pstrndup target_entry in
  if (is_dir : bool) then
    subdir_baton ← call_ed (add_directory (editor c) name dir_baton source_full_path base_revision);
    delta_dirs subdir_baton source_full_path target_full_path;;
    call_ed (close_directory (editor c) subdir_baton)
  else
    file_baton ← call_ed (add_file (editor c) name dir_baton source_full_path base_revision);
    delta_files file_baton source_full_path target_full_path;;
    call_ed (close_file (editor c) file_baton).

(** The parameters in the order of the definition; the prototype and the calls have
    the source in front of the target. *)
Definition replace_file_or_dir (dir_baton : DB) (target_parent target_entry source_parent source_entry : bytes) :
    driver unit :=
  let target_full_path := svn_path_add_component_nts (apr_pstrndup target_parent) target_entry in
  is_dir ← call_fs (svn_fs_is_dir fuel (target_root c) target_full_path);
  let source_full_path := svn_path_add_component_nts (apr_pstrndup source_parent) source_entry in
  base_revision ← lift (get_revision_from_hash (source_rev_diffs c) source_full_path);
  let name := apr_pstrndup target_entry in
  if (is_dir : bool) then
    subdir_baton ← call_ed (open_directory (editor c) name dir_baton base_revision);
    delta_dirs subdir_baton (Some source_full_path) target_full_path;;
    call_ed (close_directory (editor c) subdir_baton)
  else
    file_baton ← call_ed (open_file (editor c) name dir_baton base_revision);
    delta_files file_baton (Some source_full_path) target_full_path;;
    call_ed (close_file (editor c) file_baton).

Abbreviation entries := (list (bytes * option (list Z))).

(** The loop over the entries of the source; the best entry and its distance. *)
Fixpoint nearest_loop (source_parent : bytes) (t_is_dir : bool) (t_id : option (list Z)) (s_entries : entries)
    (best_entry : option bytes) (best_distance : Z) : driver (option bytes * Z) :=
  match s_entries with
  | [] => mret (best_entry, best_distance)
  | (name, id) :: s_entries =>
      let source_full_path := svn_path_add_component_nts (apr_pstrndup source_parent) name in
      s_is_dir ← call_fs (svn_fs_is_dir fuel (source_root c) source_full_path);
      if (s_is_dir && negb t_is_dir) || (negb s_is_dir && t_is_dir) then
        nearest_loop source_parent t_is_dir t_id s_entries best_entry best_distance
      else
        t_id' ← lift (deref t_id); id ← lift (deref id);
        this_distance ← lift (svn_fs_id_distance t_id' id);
        if negb (this_distance =? -1) && ((best_distance =? -1) || (this_distance <? best_distance)) then
          nearest_loop source_parent t_is_dir t_id s_entries (Some name) this_distance
        else nearest_loop source_parent t_is_dir t_id s_entries best_entry best_distance
  end.

Definition find_nearest_entry (source_parent : option bytes) (target_parent t_name : bytes) (t_id : option (list Z)) :
    driver (option bytes * Z) :=
  match source_parent with
  | None => mret (None, -1)
  | Some source_parent =>
      s_entries ← call_fs (svn_fs_dir_entries fuel (source_root c) source_parent);
      let target_full_path := svn_path_add_component_nts (apr_pstrndup target_parent) t_name in
      t_is_dir ← call_fs (svn_fs_is_dir fuel (target_root c) target_full_path);
      nearest_loop source_parent t_is_dir t_id (hash_order _ s_entries) None (-1)
  end.

(** The nearest entry where the caller may copy from it. *)
Definition nearest (source_path : option bytes) (target_path t_name : bytes) (t_id : option (list Z)) :
    driver (option bytes * Z) :=
  if use_copyfrom_args c then find_nearest_entry source_path target_path t_name t_id else mret (None, -1).

(** An entry of the target for which the source has one of the same name. *)
Definition update_entry (dir_baton : DB) (source_path : option bytes) (target_path : bytes)
    (s_id : option (list Z)) (t_name : bytes) (t_id : option (list Z)) : driver unit :=
  source_path' ← lift (deref source_path);
  s_id ← lift (deref s_id); t_id' ← lift (deref t_id);
  distance ← lift (svn_fs_id_distance s_id t_id');
  if distance =? 0 then mret tt
  else if distance =? -1 then
    '(best_entry, best_distance) ← nearest source_path target_path t_name t_id;
    if best_distance =? -1 then
      delete_ dir_baton t_name;;
      add_file_or_dir dir_baton None target_path t_name
    else
      best_entry ← lift (deref best_entry);
      replace_file_or_dir dir_baton source_path' best_entry target_path t_name
  else replace_file_or_dir dir_baton source_path' t_name target_path t_name.

(** An entry of the target that is new. *)
Definition new_entry (dir_baton : DB) (source_path : option bytes) (target_path t_name : bytes) (t_id : option (list Z)) :
    driver unit :=
  '(best_entry, best_distance) ← nearest source_path target_path t_name t_id;
  if best_distance =? -1 then add_file_or_dir dir_baton None target_path t_name
  else
    source_path ← lift (deref source_path); best_entry ← lift (deref best_entry);
    add_file_or_dir dir_baton (Some (source_path, best_entry)) target_path t_name.

(** The loop over the entries of the target; what is left of those of the source. *)
Fixpoint each_target_entry (dir_baton : DB) (source_path : option bytes) (target_path : bytes) (t_entries : entries)
    (s_entries : option (gmap bytes (option (list Z)))) : driver (option (gmap bytes (option (list Z)))) :=
  match t_entries with
  | [] => mret s_entries
  | (key, t_id) :: t_entries =>
      let target_fullpath := svn_path_add_component_nts (apr_pstrndup target_path) key in
      is_dir ← call_fs (svn_fs_is_dir fuel (target_root c) target_fullpath);
      s_entries ←
        match s_entries ≫= (.!! key) with
        | Some s_id =>
            (if recurse c || negb is_dir then update_entry dir_baton source_path target_path s_id key t_id else mret tt);;
            mret (delete key <$> s_entries)
        | None =>
            (if recurse c || negb is_dir then new_entry dir_baton source_path target_path key t_id else mret tt);;
            mret s_entries
        end;
      each_target_entry dir_baton source_path target_path t_entries s_entries
  end.

(** The entries that are left are deleted. *)
Fixpoint each_source_entry (dir_baton : DB) (source_path : bytes) (s_entries : entries) : driver unit :=
  match s_entries with
  | [] => mret tt
  | (key, _) :: s_entries =>
      let source_fullpath := svn_path_add_component_nts (apr_pstrndup source_path) key in
      is_dir ← call_fs (svn_fs_is_dir fuel (source_root c) source_fullpath);
      (if recurse c || negb is_dir then delete_ dir_baton key else mret tt);;
      each_source_entry dir_baton source_path s_entries
  end.
End entries.

(** [n] bounds the depth of the directories. *)
Fixpoint delta_dirs (n : nat) (dir_baton : DB) (source_path : option bytes) (target_path : bytes) : driver unit :=
  match n with
  | O => lift Undef
  | S n =>
      delta_proplists source_path target_path (change_dir_prop (editor c) dir_baton);;
      t_entries ← call_fs (svn_fs_dir_entries fuel (target_root c) target_path);
      s_entries ←
        match source_path with
        | Some source_path => s ← call_fs (svn_fs_dir_entries fuel (source_root c) source_path); mret (Some s)
        | None => mret None
        end;
      s_entries ← each_target_entry (delta_dirs n) dir_baton source_path target_path (hash_order _ t_entries) s_entries;
      match s_entries, source_path with
      | Some s_entries, Some source_path => each_source_entry dir_baton source_path (hash_order _ s_entries)
      | _, _ => mret tt
      end
  end.
End delta.

(** ** The public function *)

Section dir_delta.
Context `{db : BerkeleyDB} {ctx : Type} `{m : Md5 ctx bytes}.
Context (fuel : nat) (hash_order : forall A : Type, gmap bytes A -> list (bytes * A)).
Context {E DB FB : Type}.

Abbreviation driver := (state_m (svn_fs_t * E)).

(** [None] for a path that is not there. *)
Definition if_found {A} (call : trail A) : driver (option A) := λ '(fs, e),
  match call fs with
  | (Ok a, fs) => (Ok (Some a), (fs, e))
  | (Err SVN_ERR_FS_NOT_FOUND, fs) => (Ok None, (fs, e))
  | (Err err, fs) => (Err err, (fs, e))
  | (Abort, fs) => (Abort, (fs, e))
  | (Undef, fs) => (Undef, (fs, e))
  end.

(** The parent is a directory in both roots, unless it is the root directory. *)
Definition check_parent (src_root tgt_root : svn_fs_root_t) (parent src_path tgt_path : bytes) : driver unit :=
  if svn_path_is_empty (Some parent) then mret tt
  else
    s_dir ← call_fs (svn_fs_is_dir fuel src_root src_path);
    t_dir ← call_fs (svn_fs_is_dir fuel tgt_root tgt_path);
    if negb s_dir || negb t_dir then fail SVN_ERR_FS_NOT_DIRECTORY else mret tt.

(** A name that is there and not empty. *)
Definition given (entry : option bytes) : option bytes :=
  match entry with Some e => if empty_string e then None else Some e | None => None end.

(** What is done to the root directory or to the entry. *)
Definition dir_delta_body (n : nat) (c : context (E := E) (DB := DB) (FB := FB)) (root_baton : DB) (src_parent_dir : bytes) (src_entry : option bytes)
    (tgt_path tgt_parent_dir : bytes) (tgt_entry : option bytes) : driver unit :=
  let src_fullpath := match given src_entry with
                      | Some e => svn_path_add_component_nts src_parent_dir e
                      | None => src_parent_dir
                      end in
  let add :=
    tgt_entry ← lift (deref tgt_entry);
    add_file_or_dir fuel hash_order c (delta_dirs fuel hash_order c n) root_baton None tgt_parent_dir tgt_entry in
  let delete_src := src_entry ← lift (deref src_entry); delete_ c root_baton src_entry in
  tgt_id ← if_found (svn_fs_node_id fuel (target_root c) tgt_path);
  match tgt_id with
  | None => delete_src
  | Some tgt_id =>
      src_id ← if_found (svn_fs_node_id fuel (source_root c) src_fullpath);
      match src_id, given src_entry with
      | None, _ => add
      | Some src_id, Some e =>
          distance ← lift (svn_fs_id_distance src_id tgt_id);
          if distance =? 0 then mret tt
          else if distance =? -1 then delete_src;; add
          else
            tgt_entry ← lift (deref tgt_entry);
            replace_file_or_dir fuel hash_order c (delta_dirs fuel hash_order c n) root_baton src_parent_dir e
              tgt_parent_dir tgt_entry
      | Some _, None => delta_dirs fuel hash_order c n root_baton (Some src_fullpath) tgt_path
      end
  end.

(** Copies are never sent: [SVN_REPOS_SUPPORT_COPY_FROM_ARGS] is not defined. *)
Definition svn_repos_dir_delta (n : nat) (src_root : svn_fs_root_t) (src_parent_dir src_entry : option bytes)
    (src_revs : option (gmap bytes svn_revnum_t)) (tgt_root : svn_fs_root_t) (tgt_path : option bytes)
    (editor : svn_delta_edit_fns_t E DB FB) (text_deltas recurse : bool) : driver unit :=
  match src_parent_dir, tgt_path with
  | None, _ => fail SVN_ERR_FS_NOT_DIRECTORY
  | Some _, None => fail SVN_ERR_FS_PATH_SYNTAX
  | Some src_parent_dir, Some tgt_path =>
      let src_parent_dir := apr_pstrndup src_parent_dir in
      let tgt_path := apr_pstrndup tgt_path in
      '(tgt_parent_dir, tgt_entry) ←
        (if negb (bool_decide (is_Some src_entry)) || svn_path_is_empty (Some tgt_path) then mret (tgt_path, None)
         else '(dir, entry) ← lift (svn_path_split tgt_path); mret (dir, Some entry));
      check_parent src_root tgt_root src_parent_dir src_parent_dir tgt_parent_dir;;
      check_parent src_root tgt_root tgt_parent_dir tgt_parent_dir tgt_parent_dir;;
      let c := mk_context editor src_root src_revs tgt_root text_deltas recurse false (svn_fs_is_revision_root tgt_root) in
      (if target_is_rev c then call_ed (set_target_revision editor (svn_fs_revision_root_revision tgt_root)) else mret tt);;
      base ← lift (get_revision_from_hash src_revs src_parent_dir);
      root_baton ← call_ed (open_root editor base);
      dir_delta_body n c root_baton src_parent_dir src_entry tgt_path tgt_parent_dir tgt_entry;;
      call_ed (close_directory editor root_baton);;
      call_ed (close_edit editor)
  end.
End dir_delta.
