(* ===== verification/ReposDeltaOk.v ===== *)
(** * The edit makes the target ([libsvn_repos/delta.c])

    What the functions of [Tree] read at a path, the trees that directories are, and
    the proof that the edit which [delta_dirs] drives turns the tree of the source
    into that of the target.  The editor is [tree_editor]. *)

From S2P Require Import Prelude Types KeyGen Libc Skel Proplist Id Stream Db NodeKeys Fs RevTable TxnTable NodesTable Strings.
From S2P Require Import TextDelta Vdelta Svndiff TxStream Reps RepOps SvnString Path Sorts Dag NodeRec DagOk.
From S2P Require Import Deltify Commit Tree TreeOk Editor ReposDelta.

(** ** Paths of entries *)

Lemma split_path_snoc a b c : sep ∉ b -> b <> [] -> split_path c (a ++ sep :: b) = split_path c a ++ [b].
Proof.
  intros Hb Hne. revert c. induction a as [|x a IH]; intros c; cbn [app split_path].
  - destruct (byte_eq_dec sep sep); [|done]. f_equal.
    rewrite <- (app_nil_r b) at 1. rewrite split_path_app by done. cbn [app split_path]. by apply emit_nonempty.
  - destruct (byte_eq_dec x sep); [by rewrite IH, app_assoc|apply IH].
Qed.

(** The name of an entry, as a path has it. *)
Record entry_name (c : bytes) : Prop := {
  en_single : svn_fs__is_single_path_component c = true;
  en_nul : no_nul c;
}.

Lemma single_no_sep c : svn_fs__is_single_path_component c = true -> c <> [] /\ sep ∉ c.
Proof.
  unfold svn_fs__is_single_path_component. destruct c as [|x c]; [done|].
  destruct (bool_decide _ && _); [done|]. intros H%negb_true_iff%bool_decide_eq_false. by split.
Qed.

(** What a path is in a traversal: it does not end in a slash. *)
Definition plain_path (path : bytes) : Prop := no_nul path /\ ends_with path sep = false.

Lemma add_entry_ok path c : plain_path path -> entry_name c ->
  let path' := svn_path_add_component_nts (apr_pstrndup path) c in
  plain_path path' /\ components path' = components path ++ [c].
Proof.
  intros [Hn He] [Hs Hc]. destruct (single_no_sep c Hs) as [Hne Hsep]. cbn zeta.
  rewrite apr_pstrndup_id by done. unfold svn_path_add_component_nts. rewrite strlen_ok, firstn_all by done.
  unfold add_component_internal. destruct path as [|x path].
  - cbn [length Nat.eqb negb andb app]. rewrite canonicalize_id by (by apply ends_with_notin). split; [split; [done|by apply ends_with_notin]|].
    change (components []) with (@nil bytes). cbn [app].
    unfold components. rewrite <- (app_nil_r c) at 1. rewrite split_path_app by done. cbn [app split_path]. by apply emit_nonempty.
  - cbn [length Nat.eqb negb andb]. rewrite bool_decide_false by (intros [= -> ->]; done). cbn [negb].
    rewrite <- app_assoc. cbn [app]. change (x :: path ++ sep :: c) with ((x :: path) ++ sep :: c).
    assert (ends_with ((x :: path) ++ sep :: c) sep = false) as Hend.
    { rewrite ends_with_app. destruct c as [|y c]; [done|]. change (sep :: y :: c) with ([sep] ++ y :: c).
      rewrite ends_with_app. by apply ends_with_notin. }
    rewrite canonicalize_id by done. split; [|by apply split_path_snoc]. split; [|done].
    apply Forall_app. split; [done|]. by apply list.Forall_cons.
Qed.

(** ** What is read at a path *)

Section reads.
Context `{db : BerkeleyDB} {ctx : Type} `{m : Md5 ctx bytes}.
Context (fuel : nat) (fs : svn_fs_t).

(** The root directory of a root. *)
Record root_ok (root : svn_fs_root_t) (p : nid) (r : node_rec) : Prop := {
  ro_kind : svn_fs_is_txn_root root \/ svn_fs_is_revision_root root;
  ro_node : exists here, root_node root fs = (Ok here, fs) /\ node_for fs here p r;
  ro_dir : nr_kind r = svn_node_dir;
}.

(** The path leads to this node. *)
Definition leads (root : svn_fs_root_t) (path : bytes) (q : nid) (t : node_rec) : Prop :=
  exists p r, root_ok root p r /\ plain_path path /\ walks fuel fs p r (components path) false (Found q t).

Lemma walks_snoc p r cs q t es c q' t' : walks fuel fs p r cs false (Found q t) -> entries_at fuel fs t es ->
  svn_fs__is_single_path_component c = true -> es !! c = Some (id_text (flat q')) -> node_at fs q' t' ->
  walks fuel fs p r (cs ++ [c]) false (Found q' t').
Proof.
  intros Hw He Hs Hc Ht. remember (Found q t) as res eqn:Er. remember false as slash eqn:Es. revert Er Es.
  induction Hw as [p r slash|p r es0 c0 cs slash ? ?|p r es0 c0 q0 t0 ? ? ? ?|p r es0 c0 cs slash q0 t0 ? ? ? ? ? ?|p r es0 c0 cs slash q0 t0 res ? ? ? ? ? ? ? IH];
    intros Er Es; try done; try subst slash.
  - injection Er as <- <-. subst. by eapply Walks_last.
  - injection Er as <- <-. eapply Walks_step; try done; [by left|apply (ea_dir _ _ _ _ He)|]. by eapply Walks_last.
  - eapply Walks_step; try done; [left; by destruct cs|]. by apply IH.
Qed.

Lemma leads_entry root path q t es c q' t' : leads root path q t -> entries_at fuel fs t es -> entry_name c ->
  es !! c = Some (id_text (flat q')) -> node_at fs q' t' ->
  leads root (svn_path_add_component_nts (apr_pstrndup path) c) q' t'.
Proof.
  intros (p & r & Hr & Hp & Hw) He Hc Hl Ht. destruct (add_entry_ok path c Hp Hc) as [Hp' Ec].
  exists p, r. split; [done|]. split; [done|]. rewrite Ec. by apply (walks_snoc p r _ q t es); try apply Hc.
Qed.

Lemma leads_opens root path q t : leads root path q t -> exists pp node,
  open_path fuel root path false fs = (Ok pp, fs) /\ pp_node pp = Some node /\ node_for fs node q t.
Proof.
  intros (p & r & [Hk (here & Eh & Hh) Hd] & [Hn Hs] & Hw).
  destruct (opens_ok fuel fs root here p r path false (Found q t) Hk Eh Hh Hd Hn) as (pp & node & E & Hpp & Hnode & _);
    [unfold slash_ended; rewrite Hs; exact Hw|]. by exists pp, node.
Qed.

Lemma leads_dag root path q t : leads root path q t -> exists node,
  get_dag fuel root path fs = (Ok node, fs) /\ node_for fs node q t.
Proof.
  intros H. destruct (leads_opens root path q t H) as (pp & node & E & Hpp & Hn). exists node. split; [|done].
  unfold get_dag. rewrite (state_bind_step _ _ _ _ _ E), Hpp. done.
Qed.

Lemma kind_ok root path q t : leads root path q t ->
  run_trail (txn_body_node_kind fuel root path) fs = (Ok (nr_kind t), fs).
Proof.
  intros H. destruct (leads_dag root path q t H) as (node & E & Hn). apply run_trail_same.
  unfold txn_body_node_kind. rewrite (state_bind_step _ _ _ _ _ E). by rewrite (nf_kind _ _ _ _ Hn).
Qed.

Lemma is_dir_ok root path q t : leads root path q t ->
  svn_fs_is_dir fuel root path fs = (Ok (bool_decide (nr_kind t = svn_node_dir)), fs).
Proof. intros H. unfold svn_fs_is_dir. by rewrite (state_bind_step _ _ _ _ _ (kind_ok root path q t H)). Qed.

Lemma is_file_ok root path q t : leads root path q t ->
  svn_fs_is_file fuel root path fs = (Ok (bool_decide (nr_kind t = svn_node_file)), fs).
Proof. intros H. unfold svn_fs_is_file. by rewrite (state_bind_step _ _ _ _ _ (kind_ok root path q t H)). Qed.

Lemma dir_entries_ok root path q t es : leads root path q t -> entries_at fuel fs t es ->
  svn_fs_dir_entries fuel root path fs = (Ok (svn_fs_parse_id <$> es), fs).
Proof.
  intros H He. destruct (leads_opens root path q t H) as (pp & node & E & Hpp & Hn). apply run_trail_same.
  unfold txn_body_dir_entries. rewrite (state_bind_step _ _ _ _ _ E), Hpp. cbn [deref]. rewrite lift_bind.
  unfold svn_fs__dag_dir_entries_hash. destruct (dir_entries_skel_ok fuel fs node q t es Hn He) as (s & node' & Es & Hd & _).
  rewrite bind_assoc, (state_bind_step _ _ _ _ _ Es). cbn beta iota. rewrite bind_assoc, (entries_hash_map s es Hd), lift_bind. done.
Qed.

(** The node has these properties. *)
Definition props_at (t : node_rec) (ps : gmap bytes bytes) : Prop :=
  nr_keys t !! 0%nat = Some [] /\ ps = ∅ \/
  exists key x s, nr_keys t !! 0%nat = Some key /\ key <> [] /\ readable fuel fs key x /\
    svn_fs__parse_skel x = Some s /\ proplist_is s ps.

Lemma node_proplist_ok root path q t ps : leads root path q t -> props_at t ps ->
  svn_fs_node_proplist fuel root path fs = (Ok ps, fs).
Proof.
  intros H Hps. destruct (leads_opens root path q t H) as (pp & node & E & Hpp & Hn). apply run_trail_same.
  unfold txn_body_node_proplist. rewrite (state_bind_step _ _ _ _ _ E), Hpp. cbn [deref]. rewrite lift_bind.
  unfold svn_fs__dag_get_proplist. destruct (get_node_revision_cached fs node q t Hn) as (s & node' & Eg & Hs & _).
  rewrite bind_assoc, (state_bind_step _ _ _ _ _ Eg). cbn beta iota. rewrite bind_assoc. unfold NR_PROP_KEY.
  destruct Hps as [[Hk ->]|(key & x & sk & Hk & Hne & Hr & Hp & Hps)]; rewrite (nr_kid s t Hs 0 _ Hk), lift_bind; cbn [skel_data].
  - cbn [length Nat.eqb]. rewrite ret_bind.
    unfold lift. by rewrite (prop_hash_is svn_fs__make_empty_list ∅) by (exists []; split; [done|]; split; [by eexists _, _|]; split; [apply NoDup_nil_2|done]).
  - pose proof (contents_valid _ _ _ (readable_contents _ _ _ _ Hr)) as Hv. rewrite key_of_valid by done.
    destruct (Nat.eqb_spec (length key) 0) as [El|_]; [by destruct key|]. rewrite bind_assoc.
    rewrite (state_bind_step _ _ _ _ _ (rep_contents_readable _ _ _ _ Hr)), Hp. cbn [deref]. rewrite bind_assoc, lift_bind.
    rewrite ret_bind. unfold lift. by rewrite (prop_hash_is sk ps Hps).
Qed.
End reads.

(** ** Whether properties and texts are the same *)

Lemma strncmp_same_eq d1 d2 : no_nul d1 -> length d1 = length d2 -> strncmp_same d1 d2 = bool_decide (d1 = d2).
Proof.
  intros Hn. revert d2. induction Hn as [|c d1 Hc Hn IH]; intros [|c2 d2] Hl; try done. cbn [strncmp_same].
  destruct (bool_decide_reflect (c = c2)) as [->|Hne]; cbn [andb].
  - rewrite bool_decide_false by exact Hc. cbn [orb]. rewrite IH by (cbn in Hl; lia). apply bool_decide_ext. split; congruence.
  - symmetry. apply bool_decide_false. congruence.
Qed.

Lemma key_atoms_compare k1 k2 : no_nul k1 ->
  svn_fs__skels_are_equal false (Atom k1) (Atom k2) = Ok (bool_decide (k1 = k2)).
Proof.
  intros Hn. cbn [svn_fs__skels_are_equal]. f_equal. destruct (bool_decide_reflect (length k1 = length k2)) as [E|E]; cbn [andb].
  - by apply strncmp_same_eq.
  - symmetry. apply bool_decide_false. by intros ->.
Qed.

Section compare.
Context `{db : BerkeleyDB} {ctx : Type} `{m : Md5 ctx bytes}.
Context (fuel : nat) (fs : svn_fs_t).

(** The file has this text. *)
Definition text_at (t : node_rec) (text : bytes) : Prop :=
  nr_keys t !! 1%nat = Some [] /\ text = [] \/
  exists key, nr_keys t !! 1%nat = Some key /\ key <> [] /\ readable fuel fs key text.

Lemma readable_key key x : readable fuel fs key x -> no_nul key.
Proof. intros H. apply valid_key_nul. by apply (contents_valid fs key x), (readable_contents fuel). Qed.

Lemma readable_unique key x y : readable fuel fs key x -> readable fuel fs key y -> x = y.
Proof. intros (n & H1 & _) (n' & H2 & _). by apply (denotes_unique fs _ _ _ _ _ _ _ H1 H2). Qed.

Lemma props_key t ps : props_at fuel fs t ps -> exists k, nr_keys t !! 0%nat = Some k /\ no_nul k.
Proof.
  intros [[H _]|(k & x & s & H & _ & Hr & _)]; [exists []; split; [done|constructor]|].
  exists k. split; [done|]. by apply (readable_key k x).
Qed.

Lemma text_key t text : text_at t text -> exists k, nr_keys t !! 1%nat = Some k /\ no_nul k.
Proof.
  intros [[H _]|(k & H & _ & Hr)]; [exists []; split; [done|constructor]|]. exists k. split; [done|]. by apply (readable_key k text).
Qed.

Lemma props_unique t t' ps ps' : props_at fuel fs t ps -> props_at fuel fs t' ps' -> nr_keys t !! 0%nat = nr_keys t' !! 0%nat -> ps = ps'.
Proof.
  intros H H' E. destruct H as [[Hk ->]|(k & x & s & Hk & Hne & Hr & Hp & Hps)], H' as [[Hk' ->]|(k' & x' & s' & Hk' & Hne' & Hr' & Hp' & Hps')];
    rewrite Hk, Hk' in E; try congruence. injection E as <-. pose proof (readable_unique _ _ _ Hr Hr') as <-.
  rewrite Hp in Hp'. injection Hp' as <-. apply prop_hash_is in Hps, Hps'. congruence.
Qed.

Lemma text_unique t t' x x' : text_at t x -> text_at t' x' -> nr_keys t !! 1%nat = nr_keys t' !! 1%nat -> x = x'.
Proof.
  intros H H' E. destruct H as [[Hk ->]|(k & Hk & Hne & Hr)], H' as [[Hk' ->]|(k' & Hk' & Hne' & Hr')];
    rewrite Hk, Hk' in E; try congruence. injection E as <-. by apply (readable_unique k).
Qed.

(** [i]: the slot of the key that is compared. *)
Lemma things_changed_ok (want_props : bool) root1 path1 q1 t1 root2 path2 q2 t2 k1 k2 :
  let i := if want_props then 0%nat else 1%nat in
  leads fuel fs root1 path1 q1 t1 -> leads fuel fs root2 path2 q2 t2 ->
  nr_keys t1 !! i = Some k1 -> nr_keys t2 !! i = Some k2 -> no_nul k1 ->
  run_trail (txn_body_things_changed fuel want_props root1 path1 root2 path2) fs = (Ok (negb (bool_decide (k1 = k2))), fs).
Proof.
  intros i H1 H2 Hk1 Hk2 Hn. destruct (leads_opens fuel fs root1 path1 q1 t1 H1) as (pp1 & n1 & E1 & Hpp1 & Hn1).
  destruct (leads_opens fuel fs root2 path2 q2 t2 H2) as (pp2 & n2 & E2 & Hpp2 & Hn2). apply run_trail_same.
  unfold txn_body_things_changed. rewrite (state_bind_step _ _ _ _ _ E1), (state_bind_step _ _ _ _ _ E2), Hpp1, Hpp2.
  cbn [deref]. rewrite !lift_bind.
  destruct (get_node_revision_cached fs n1 q1 t1 Hn1) as (s1 & n1' & Eg1 & Hs1 & _).
  destruct (get_node_revision_cached fs n2 q2 t2 Hn2) as (s2 & n2' & Eg2 & Hs2 & _).
  unfold svn_fs__things_different. destruct want_props; cbn [negb andb];
    rewrite bind_assoc, (state_bind_step _ _ _ _ _ Eg1); cbn beta iota;
    rewrite bind_assoc, (state_bind_step _ _ _ _ _ Eg2); cbn beta iota; unfold keys_changed, NR_PROP_KEY, NR_DATA_KEY.
  - rewrite (nr_kid s1 t1 Hs1 0 _ Hk1), (nr_kid s2 t2 Hs2 0 _ Hk2). cbn [mbind outcome_bind]. by rewrite key_atoms_compare.
  - rewrite (nr_kid s1 t1 Hs1 1 _ Hk1), (nr_kid s2 t2 Hs2 1 _ Hk2). cbn [mbind outcome_bind]. by rewrite key_atoms_compare.
Qed.

Lemma props_changed_ok root1 path1 q1 t1 ps1 root2 path2 q2 t2 ps2 :
  leads fuel fs root1 path1 q1 t1 -> leads fuel fs root2 path2 q2 t2 -> props_at fuel fs t1 ps1 -> props_at fuel fs t2 ps2 ->
  exists b, svn_fs_props_changed fuel root1 path1 root2 path2 fs = (Ok b, fs) /\ (b = false -> ps1 = ps2).
Proof.
  intros H1 H2 Hp1 Hp2. destruct (props_key t1 ps1 Hp1) as (k1 & Hk1 & Hn), (props_key t2 ps2 Hp2) as (k2 & Hk2 & _).
  exists (negb (bool_decide (k1 = k2))). split; [by apply (things_changed_ok true root1 path1 q1 t1 root2 path2 q2 t2)|].
  intros H%negb_false_iff%bool_decide_eq_true. apply (props_unique t1 t2); [done|done|]. by rewrite Hk1, Hk2, H.
Qed.

Lemma contents_changed_ok root1 path1 q1 t1 x1 root2 path2 q2 t2 x2 :
  leads fuel fs root1 path1 q1 t1 -> leads fuel fs root2 path2 q2 t2 -> text_at t1 x1 -> text_at t2 x2 ->
  nr_kind t1 = svn_node_file -> nr_kind t2 = svn_node_file ->
  exists b, svn_fs_contents_changed fuel root1 path1 root2 path2 fs = (Ok b, fs) /\ (b = false -> x1 = x2).
Proof.
  intros H1 H2 Hx1 Hx2 Hf1 Hf2. destruct (text_key t1 x1 Hx1) as (k1 & Hk1 & Hn), (text_key t2 x2 Hx2) as (k2 & Hk2 & _).
  exists (negb (bool_decide (k1 = k2))). split.
  - unfold svn_fs_contents_changed. rewrite (state_bind_step _ _ _ _ _ (is_file_ok fuel fs _ _ _ _ H1)), bool_decide_true by done.
    cbn [negb]. rewrite (state_bind_step _ _ _ _ _ (is_file_ok fuel fs _ _ _ _ H2)), bool_decide_true by done. cbn [negb].
    by apply (things_changed_ok false root1 path1 q1 t1 root2 path2 q2 t2).
  - intros H%negb_false_iff%bool_decide_eq_true. apply (text_unique t1 t2); [done|done|]. by rewrite Hk1, Hk2, H.
Qed.

(** A file is read from its beginning. *)
Definition delivers_text {B} (s : svn_stream_t B) (x : bytes) : Prop :=
  exists (i : ReadableStream (fns s)), stream_delivers (baton s) x.

Lemma file_contents_ok root path q t x : leads fuel fs root path q t -> nr_kind t = svn_node_file -> text_at t x ->
  exists rep, svn_fs_file_contents fuel root path fs = (Ok rep, fs) /\
    delivers_text (svn_fs__rep_contents_read_stream fuel fs rep 0) x /\ (length x < fuel \/ x = [])%nat /\ Z.of_nat (length x) < two63.
Proof.
  intros H Hf Hx. destruct (leads_dag fuel fs root path q t H) as (node & E & Hn).
  destruct (get_node_revision_cached fs node q t Hn) as (s & node' & Eg & Hs & _).
  assert (forall k, nr_keys t !! 1%nat = Some k -> svn_fs_file_contents fuel root path fs =
    (Ok (if negb (length k =? 0)%nat then Some (key_of (Atom k)) else None), fs)) as Hk.
  { intros k Hk. apply run_trail_same. unfold txn_body_get_file_contents. rewrite (state_bind_step _ _ _ _ _ E).
    unfold svn_fs__dag_get_contents, svn_fs__dag_is_file. rewrite (nf_kind _ _ _ _ Hn), bool_decide_true by done. cbn [negb].
    rewrite bind_assoc, (state_bind_step _ _ _ _ _ Eg). cbn beta iota. unfold NR_DATA_KEY.
    by rewrite (nr_kid s t Hs 1 _ Hk), bind_assoc, lift_bind. }
  destruct Hx as [[Hkey ->]|(key & Hkey & Hne & Hr)]; rewrite (Hk _ Hkey).
  - cbn [length Nat.eqb negb]. exists None. split; [done|]. split; [|split; [by right|done]].
    unshelve eexists; [|shelve]. unshelve econstructor; [exact (λ o l, o = 0%nat /\ l = [])|].
    intros o l n [-> ->] Hl. exists 0%nat. by rewrite take_nil, drop_nil. Unshelve. done.
  - destruct (Nat.eqb_spec (length key) 0) as [El|_]; [by destruct key|]. cbn [negb].
    rewrite key_of_valid by (by apply (contents_valid fs key x), (readable_contents fuel)).
    exists (Some key). split; [done|]. pose proof Hr as (n & Hd & Hfuel & Hl & _). split; [|split; [left; lia|unfold two63; lia]].
    assert (reads_with fuel fs key x) as Hrd
      by (intros off len Hol; apply (rep_read_range_ok fs (λ _, True) n key x fuel Hd); [lia|done]).
    assert (Z.of_nat (length x) < two63) as Hx63 by (unfold two63; lia).
    exists (rep_readable fuel fs key x Hrd Hx63). split; [by rewrite drop_0|cbn; lia].
Qed.
End compare.

(** ** The text of a file of the edited tree *)

Lemma te_push (x : tpath) (props : gmap bytes bytes) (old : bytes) (ab ab' : apply_baton bytes bytes) (ws : list svn_txdelta_window_t) (m : gmap tpath tnode) :
  m !! x = Some (TFile props old) ->
  push_windows apply_window ((Some <$> ws) ++ [None]) ab = (Ok tt, ab') ->
  push_windows te_handler ((Some <$> ws) ++ [None]) (mk_te m (Some (x, ab))) =
    (Ok tt, mk_te (<[x := TFile props (baton (ab_target ab'))]> m) None).
Proof.
  intros Hx. revert ab. induction ws as [|w ws IH]; intros ab; cbn [fmap list_fmap app push_windows].
  - unfold te_handler at 1. cbn [applying tnodes]. destruct (apply_window None ab) as [[[]|e| |] ab1] eqn:E; [|done..].
    rewrite Hx. by intros [= ->].
  - unfold te_handler at 1. cbn [applying tnodes]. destruct (apply_window (Some w) ab) as [[[]|e| |] ab1] eqn:E; [|done..].
    apply IH.
Qed.

Section send.
Context {ctx : Type} `{m : Md5 ctx bytes}.
Context (fuel : nat).

Lemma send_txstream_edits {S} (s1 : svn_stream_t S) (s2 : svn_stream_t nat) (src tgt : bytes) (x : tpath) (props : gmap bytes bytes) (t : gmap tpath tnode) :
  delivers_text s1 src -> delivers_text s2 tgt -> Z.of_nat (length src) < two63 -> (length tgt < fuel)%nat ->
  t !! x = Some (TFile props src) ->
  send_txstream fuel (svn_txdelta s1 s2) te_handler
    (mk_te t (Some (x, svn_txdelta_apply (mk_stream src mem_reader) (mk_stream [] mem_writer)))) =
  (Ok tt, mk_te (<[x := TFile props tgt]> t) None).
Proof.
  destruct s1 as [b1 f1], s2 as [b2 f2]. intros (i1 & H1) (i2 & H2) Hsrc Hf Hx. cbn [fns baton] in *.
  destruct (send_ok f1 f2 src tgt b1 b2 fuel Hsrc H1 H2 Hf) as (ws & ts & Hws & <- & Hsl & Hsend).
  destruct (apply_good_windows mem_reader mem_writer src ws ts src []) as (ab & bo & E & Ht & Hw); try done.
  specialize (Hsend _ te_handler (mk_te t (Some (x, svn_txdelta_apply (mk_stream src mem_reader) (mk_stream [] mem_writer))))) as (st & H).
  rewrite (te_push x props src _ ab ws t Hx E) in H. destruct H as [H _]. unfold send_txstream. rewrite H.
  by rewrite Ht, <- Hw.
Qed.
End send.

Lemma empty_delivers : delivers_text svn_stream_empty [].
Proof. by exists empty_readable. Qed.

(** ** Base revisions of relative paths *)

Lemma last_sep_bound p n i : last_sep p n = Some i -> (i < n)%nat /\ p !! i = Some sep.
Proof.
  induction n as [|n IH]; cbn [last_sep]; [done|].
  destruct (bool_decide_reflect (p !! n = Some sep)); [intros [= <-]; split; [lia|done]|]. intros H. destruct (IH H). split; [lia|done].
Qed.

Lemma canonicalize_prefix p : exists n, svn_path_canonicalize p = take n p.
Proof.
  unfold svn_path_canonicalize. generalize (length p) at 1. intros k. revert p. induction k as [|k IH]; intros p.
  - exists (length p). by rewrite firstn_all.
  - cbn [canonicalize_loop]. destruct (ends_with p sep); [|exists (length p); by rewrite firstn_all].
    destruct (IH (take (length p - 1) p)) as [n ->]. rewrite take_take. by eexists.
Qed.

Definition relative (path : bytes) : Prop := head path <> Some sep.

Lemma relative_take path n : relative path -> relative (take n path).
Proof. unfold relative. by destruct path, n. Qed.

Lemma remove_component_relative path : relative path -> path <> [] ->
  exists path', svn_path_remove_component path = Ok path' /\ relative path' /\ (length path' < length path)%nat.
Proof.
  intros Hr Hne. unfold svn_path_remove_component. destruct (canonicalize_prefix path) as [n ->].
  pose proof (relative_take path n Hr) as Hr'. assert (length (take n path) <= length path)%nat as Hle by (rewrite length_take; lia). set (p := take n path) in *.
  destruct (last_sep p (length p)) as [i|] eqn:E.
  - destruct (last_sep_bound _ _ _ E) as [Hi Hs].
    assert (i <> 0%nat) as Hi0 by (intros ->; apply Hr'; by destruct p).
    assert (length (take i p) = i) as Hl by (rewrite length_take; lia). rewrite Hl. destruct (Nat.eqb_spec i 0); [done|].
    eexists. split; [done|]. destruct (ends_with (take i p) sep); (split; [by repeat apply relative_take|]).
    + rewrite length_take. lia.
    + lia.
  - exists []. split; [done|]. split; [done|]. destruct path; [done|cbn; lia].
Qed.

Lemma revision_loop_relative hash n : forall path rev, relative path -> (length path < n)%nat ->
  exists rev', revision_loop n hash rev path = Ok rev'.
Proof.
  induction n as [|n IH]; intros path rev Hr Hn; [lia|]. cbn [revision_loop].
  destruct (negb (is_valid_revnum rev)); cbn [andb]; [|by eexists].
  destruct (svn_path_is_empty (Some path)) eqn:E; cbn [negb]; [by eexists|].
  destruct (remove_component_relative path Hr) as (path' & -> & Hr' & Hl); [by intros ->|].
  cbn [mbind outcome_bind]. apply IH; [done|lia].
Qed.

(** A revision is found without leaving the memory of a path. *)
Definition revisions_for (hash : option (gmap bytes svn_revnum_t)) (path : bytes) : Prop := hash = None \/ relative path.

Lemma revision_ok hash path : revisions_for hash path -> exists rev, get_revision_from_hash hash path = Ok rev.
Proof.
  intros [-> |Hr]; [by eexists|]. destruct hash as [hash|]; [|by eexists]. unfold get_revision_from_hash.
  destruct (is_valid_revnum _); [by eexists|]. apply revision_loop_relative; [by apply relative_take|lia].
Qed.

Lemma revisions_for_entry hash path c : plain_path path -> entry_name c -> revisions_for hash path ->
  revisions_for hash (svn_path_add_component_nts (apr_pstrndup path) c).
Proof.
  intros [Hn _] [Hs Hc] [H|H]; [by left|]. right. destruct (single_no_sep c Hs) as [Hne Hsep].
  rewrite apr_pstrndup_id by done. unfold svn_path_add_component_nts. rewrite strlen_ok, firstn_all by done.
  unfold add_component_internal. edestruct canonicalize_prefix as [n ->]. apply relative_take.
  destruct path as [|x path]; [|by cbn [length Nat.eqb negb andb]; destruct (negb _)].
  cbn [length Nat.eqb negb andb app]. intros E. destruct c as [|y c]; [done|]. injection E as ->. apply Hsep. by left.
Qed.

(** ** Properties of a node of the edited tree *)

Definition props_of (n : tnode) : gmap bytes bytes := match n with TDir ps => ps | TFile ps _ => ps end.

Definition set_props (n : tnode) (ps : gmap bytes bytes) : tnode :=
  match n with TDir _ => TDir ps | TFile _ text => TFile ps text end.

Definition put_node (x : tpath) (n : tnode) (e : tree_edit) : tree_edit := with_tnodes (<[x := n]> (tnodes e)) e.

Lemma put_node_id x n e : tnodes e !! x = Some n -> put_node x n e = e.
Proof. intros H. unfold put_node, with_tnodes. rewrite insert_id by done. by destruct e. Qed.

Lemma put_node_twice x n n' e : put_node x n (put_node x n' e) = put_node x n e.
Proof. unfold put_node, with_tnodes. cbn. by rewrite insert_insert_eq. Qed.

Lemma put_node_at x n e : tnodes (put_node x n e) !! x = Some n.
Proof. unfold put_node, with_tnodes. cbn. apply lookup_insert_eq. Qed.

Lemma te_change_prop_ok x n e name value : tnodes e !! x = Some n ->
  te_change_prop x name value e = (Ok tt, put_node x (set_props n (change_prop (props_of n) name value)) e).
Proof. intros H. unfold te_change_prop. rewrite H. by destruct n. Qed.

Lemma set_props_id n : set_props n (props_of n) = n.
Proof. by destruct n. Qed.

Lemma set_props_twice n ps ps' : set_props (set_props n ps) ps' = set_props n ps'.
Proof. by destruct n. Qed.

Lemma props_of_set n ps : props_of (set_props n ps) = ps.
Proof. by destruct n. Qed.

Section calls.
Context `{db : BerkeleyDB} {E : Type}.

Lemma call_ed_bind {A B} (call : state_m E A) (k : A -> state_m (svn_fs_t * E) B) fs e a e' :
  call e = (Ok a, e') -> (call_ed call ≫= k) (fs, e) = k a (fs, e').
Proof. intros H. unfold mbind, state_bind, call_ed. by rewrite H. Qed.

Lemma call_fs_bind {A B} (call : trail A) (k : A -> state_m (svn_fs_t * E) B) fs e a :
  call fs = (Ok a, fs) -> (call_fs call ≫= k) (fs, e) = k a (fs, e).
Proof. intros H. unfold mbind, state_bind, call_fs. by rewrite H. Qed.

Lemma call_ed_done {A} (call : state_m E A) fs e a e' : call e = (Ok a, e') -> call_ed call (fs, e) = (Ok a, (fs, e')).
Proof. intros H. unfold call_ed. by rewrite H. Qed.
End calls.

(** ** Trees *)

(** The tree below [X] is [g] afterwards, and the rest is as it was. *)
Record becomes (e e' : tree_edit) (X : tpath) (g : tpath -> option tnode) : Prop := {
  bc_tree : forall y, tnodes e' !! (y ++ X) = g y;
  bc_rest : forall x, ~ under X x -> tnodes e' !! x = tnodes e !! x;
  bc_applying : applying e' = None;
}.

Lemma becomes_trans e e1 e2 X g1 g2 : becomes e e1 X g1 -> becomes e1 e2 X g2 -> becomes e e2 X g2.
Proof. intros [_ H1 _] [H2 H3 H4]. split; [done| |done]. intros x Hx. by rewrite H3, H1. Qed.

Lemma becomes_ext e e' X g g' : (forall y, g y = g' y) -> becomes e e' X g -> becomes e e' X g'.
Proof. intros H [H1 H2 H3]. split; [|done|done]. intros y. by rewrite H1. Qed.

Lemma under_self y X : under X (y ++ X).
Proof. by exists y. Qed.

Lemma not_above name X : ~ under (name :: X) X.
Proof. intros [y E]. apply (f_equal length) in E. rewrite length_app in E. cbn in E. lia. Qed.

Lemma app_self_nil (y X : tpath) : y ++ X = X -> y = [].
Proof. intros E. apply (f_equal length) in E. rewrite length_app in E. destruct y; [done|cbn in E; lia]. Qed.

(** A tree of one node. *)
Definition single (n : tnode) : tpath -> option tnode := λ y, match y with [] => Some n | _ => None end.

Lemma put_node_becomes X n n0 e : applying e = None -> (forall y, tnodes e !! (y ++ X) = single n0 y) ->
  becomes e (put_node X n e) X (single n).
Proof.
  intros Ha H. split; [| |done].
  - intros y. unfold put_node, with_tnodes. cbn. destruct y as [|z y]; [by rewrite lookup_insert_eq|].
    rewrite lookup_insert_ne; [exact (H (z :: y))|]. intros E. symmetry in E. by apply app_self_nil in E.
  - intros x Hx. unfold put_node, with_tnodes. cbn. apply lookup_insert_ne. intros <-. apply Hx. by exists [].
Qed.

Lemma te_delete_becomes name X e n : applying e = None -> tnodes e !! (name :: X) = Some n ->
  exists e', te_delete name X e = (Ok tt, e') /\ becomes e e' (name :: X) (λ _, None).
Proof.
  intros Ha H. eexists. unfold te_delete. rewrite H. split; [done|]. split; [| |done]; cbn [tnodes with_tnodes].
  - intros y. apply map_lookup_filter_None. right. intros v Hv Hn. apply Hn. cbn. apply under_self.
  - intros x Hx. destruct (tnodes e !! x) as [v|] eqn:E; [by apply map_lookup_filter_Some|].
    apply map_lookup_filter_None. by left.
Qed.

Lemma te_add_becomes new name X e ps : applying e = None -> (forall y, tnodes e !! (y ++ name :: X) = None) ->
  tnodes e !! X = Some (TDir ps) -> exists e', te_add new name X e = (Ok (name :: X), e') /\ becomes e e' (name :: X) (single new).
Proof.
  intros Ha H HX. eexists. unfold te_add. rewrite (H [] : tnodes e !! (name :: X) = None), HX. split; [done|]. split; [| |done]; cbn [tnodes with_tnodes].
  - intros y. destruct y as [|z y]; [by rewrite lookup_insert_eq|]. rewrite lookup_insert_ne; [exact (H (z :: y))|].
    intros E. change ((z :: y) ++ name :: X) with ((z :: y) ++ (name :: X)) in E. symmetry in E. by apply app_self_nil in E.
  - intros x Hx. apply lookup_insert_ne. intros <-. apply Hx. by exists [].
Qed.

Lemma under_other (k k' : bytes) (y X : tpath) : under (k :: X) (y ++ k' :: X) -> k = k'.
Proof.
  intros [z E]. change (k' :: X) with ([k'] ++ X) in E. change (k :: X) with ([k] ++ X) in E.
  rewrite !app_assoc in E. apply app_inv_tail, app_inj_tail in E. by destruct E.
Qed.

(** ** The traversal edits the tree *)

Section driver_ok.
Context `{db : BerkeleyDB} {ctx : Type} `{m : Md5 ctx bytes}.
Context (fuel : nat) (hash_order : forall A : Type, gmap bytes A -> list (bytes * A)).
Context (hash_order_ok : forall A (t : gmap bytes A), hash_order A t ≡ₚ map_to_list t).
Context (fuel_pos : (0 < fuel)%nat).
Context (fs : svn_fs_t).

Lemma order_elem {A} (t : gmap bytes A) k v : (k, v) ∈ hash_order A t <-> t !! k = Some v.
Proof. by rewrite hash_order_ok, elem_of_map_to_list. Qed.

Lemma order_keys {A} (t : gmap bytes A) : NoDup (hash_order A t).*1.
Proof. rewrite hash_order_ok. apply NoDup_fst_map_to_list. Qed.

(** Names without a null byte. *)
Definition prop_names_ok (ps : gmap bytes bytes) : Prop := forall k v, ps !! k = Some v -> no_nul k.

Abbreviation change x := (te_change_prop x).

(** After the loop over the target's properties [l]: what is left of the source's, and
    the properties of the node [x]. *)
Lemma each_target_prop_ok (x : tpath) (l : list (bytes * bytes)) : NoDup l.*1 -> (forall k v, (k, v) ∈ l -> no_nul k) ->
  forall (s : option (gmap bytes bytes)) n e, tnodes e !! x = Some n ->
  (forall k v, s ≫= (.!! k) = Some v -> props_of n !! k = Some v) ->
  exists s' ps', each_target_prop (change x) l s (fs, e) = (Ok s', (fs, put_node x (set_props n ps') e)) /\
    (forall k, s' ≫= (.!! k) = if decide (k ∈ l.*1) then None else s ≫= (.!! k)) /\ (s = None -> s' = None) /\
    (forall k v, (k, v) ∈ l -> ps' !! k = Some v) /\ (forall k, k ∉ l.*1 -> ps' !! k = props_of n !! k).
Proof.
  induction l as [|[k v] l IH]; intros Hnd Hnul s n e Hx Hs; cbn [fmap list_fmap fst] in *.
  - exists s, (props_of n). rewrite set_props_id, put_node_id by done. split; [done|].
    split; [intros k; by rewrite decide_False by apply not_elem_of_nil|]. split; [done|].
    split; [intros k v H; by apply not_elem_of_nil in H|done].
  - apply list.NoDup_cons in Hnd as [Hk Hnd]. assert (no_nul k) as Hkn by (apply (Hnul k v); by left).
    set (n1 := set_props n (<[k := v]> (props_of n))).
    set (s1 := match s ≫= (.!! k) with Some _ => delete k <$> s | None => s end).
    assert (forall k', s1 ≫= (.!! k') = if decide (k' = k) then None else s ≫= (.!! k')) as Hs1.
    { intros k'. unfold s1. destruct s as [s|]; cbn; [|by case_decide].
      destruct (s !! k) eqn:E; cbn; case_decide; subst; [by rewrite lookup_delete_eq|by rewrite lookup_delete_ne|done|done]. }
    assert (exists e1, (forall B (h : _ -> state_m _ B), (match s ≫= (.!! k) with
        | Some s_value => (if negb (bool_decide (s_value = v)) then delta_change (change x) k (Some v) else mret tt);; mret (delete k <$> s)
        | None => delta_change (change x) k (Some v);; mret s
        end ≫= h) (fs, e) = h s1 (fs, e1)) /\ e1 = put_node x n1 e) as (e1 & Ee & ->).
    { assert (forall B (h : unit -> state_m _ B), (delta_change (change x) k (Some v) ≫= h) (fs, e) = h tt (fs, put_node x n1 e)) as Hch.
      { intros B h. unfold delta_change. rewrite apr_pstrndup_id by done. apply call_ed_bind. by apply te_change_prop_ok. }
      exists (put_node x n1 e). split; [|done]. intros B h. unfold s1. rewrite bind_assoc || idtac.
      destruct (s ≫= (.!! k)) as [w|] eqn:E.
      - destruct (bool_decide_reflect (w = v)) as [->|Hne]; cbn [negb].
        + assert (put_node x n1 e = e) as ->; [|done]. apply put_node_id. unfold n1.
          rewrite insert_id by (by apply Hs). by rewrite set_props_id.
        + by rewrite bind_assoc, Hch.
      - by rewrite bind_assoc, Hch. }
    destruct (IH Hnd ltac:(intros k' v' H; apply (Hnul k' v'); by right) s1 n1 (put_node x n1 e)) as (s' & ps' & E' & H1 & H2 & H3 & H4).
    { apply put_node_at. }
    { intros k' v'. rewrite Hs1. case_decide; [done|]. intros H'. unfold n1. rewrite props_of_set, lookup_insert_ne by done. by apply Hs. }
    exists s', ps'. split; [|split; [|split; [|split]]].
    + cbn [each_target_prop]. rewrite Ee, E', put_node_twice. unfold n1. by rewrite set_props_twice.
    + intros k'. rewrite H1, Hs1. destruct (decide (k' = k)) as [->|Hne].
      * rewrite decide_False by done. by rewrite decide_True by (by left).
      * destruct (decide (k' ∈ l.*1)); [by rewrite decide_True by (by right)|]. rewrite decide_False; [done|].
        by intros [?|?]%elem_of_cons.
    + intros ->. by apply H2.
    + intros k' v' [[= -> ->]|H]%elem_of_cons; [|by apply H3]. rewrite H4 by done. unfold n1. by rewrite props_of_set, lookup_insert_eq.
    + intros k' [Hne H]%not_elem_of_cons. rewrite H4 by done. unfold n1. by rewrite props_of_set, lookup_insert_ne.
Qed.

Lemma each_source_prop_ok (x : tpath) (l : list (bytes * bytes)) : (forall k v, (k, v) ∈ l -> no_nul k) ->
  forall n e, tnodes e !! x = Some n ->
  exists ps', each_source_prop (change x) l (fs, e) = (Ok tt, (fs, put_node x (set_props n ps') e)) /\
    forall k, ps' !! k = if decide (k ∈ l.*1) then None else props_of n !! k.
Proof.
  induction l as [|[k v] l IH]; intros Hnul n e Hx; cbn [fmap list_fmap fst].
  - exists (props_of n). rewrite set_props_id, put_node_id by done. split; [done|]. intros k. by rewrite decide_False by apply not_elem_of_nil.
  - set (n1 := set_props n (delete k (props_of n))).
    destruct (IH ltac:(intros k' v' H; apply (Hnul k' v'); by right) n1 (put_node x n1 e) (put_node_at _ _ _)) as (ps' & E' & H').
    exists ps'. split.
    + cbn [each_source_prop]. unfold delta_change at 1. rewrite apr_pstrndup_id by (apply (Hnul k v); by left).
      rewrite (call_ed_bind _ _ _ _ _ _ (te_change_prop_ok x n e k None Hx)).
      change (change_prop (props_of n) k None) with (delete k (props_of n)). fold n1. rewrite E', put_node_twice.
      unfold n1. by rewrite set_props_twice.
    + intros k'. rewrite H'. unfold n1. rewrite props_of_set. destruct (decide (k' ∈ l.*1)); [by rewrite decide_True by (by right)|].
      destruct (decide (k' = k)) as [->|Hne].
      * by rewrite lookup_delete_eq, decide_True by (by left).
      * rewrite lookup_delete_ne, decide_False by (done || by intros [?|?]%elem_of_cons). done.
Qed.

Context (c : context (E := tree_edit) (DB := tpath) (FB := tpath)).
Context (c_editor : editor c = tree_editor) (c_text : text_deltas c = true).

(** The source of a traversal, if there is one, has the properties that the edited
    node has; without a source it has none. *)
Definition source_props (source : option bytes) (ps : gmap bytes bytes) : Prop :=
  match source with
  | Some path => exists p r, leads fuel fs (source_root c) path p r /\ props_at fuel fs r ps
  | None => ps = ∅
  end.

Lemma delta_proplists_ok (x : tpath) source path q t ps pt n e :
  leads fuel fs (target_root c) path q t -> props_at fuel fs t pt -> prop_names_ok pt ->
  source_props source ps -> prop_names_ok ps -> tnodes e !! x = Some n -> props_of n = ps ->
  delta_proplists fuel hash_order c source path (change x) (fs, e) = (Ok tt, (fs, put_node x (set_props n pt) e)).
Proof.
  intros Ht Hpt Hnt Hsrc Hns Hx Hps.
  assert (forall s, (forall k, s ≫= (.!! k) = ps !! k) ->
    (t_props ← call_fs (svn_fs_node_proplist fuel (target_root c) path);
     s_props ← each_target_prop (change x) (hash_order _ t_props) s;
     match s_props with Some s_props => each_source_prop (change x) (hash_order _ s_props) | None => mret tt end) (fs, e) =
    (Ok tt, (fs, put_node x (set_props n pt) e))) as Hgo.
  { intros s Hs. rewrite (call_fs_bind _ _ _ _ _ (node_proplist_ok fuel fs _ _ _ _ _ Ht Hpt)).
    destruct (each_target_prop_ok x (hash_order _ pt) (order_keys pt)) with (s := s) (n := n) (e := e)
      as (s' & ps' & E & H1 & H2 & H3 & H4); [|done| |].
    { intros k v H. apply order_elem in H. by apply (Hnt k v). }
    { intros k v. by rewrite Hs, Hps. }
    rewrite (state_bind_step _ _ _ _ _ E).
    assert (forall k, k ∈ (hash_order _ pt).*1 <-> is_Some (pt !! k)) as Hdom.
    { intros k. rewrite list_elem_of_fmap. split; [intros ([k' v] & -> & H%order_elem); by exists v|].
      intros [v H]. exists (k, v). split; [done|]. by apply order_elem. }
    destruct s' as [s'|].
    - destruct (each_source_prop_ok x (hash_order _ s')) with (n := set_props n ps') (e := put_node x (set_props n ps') e) as (ps2 & E2 & H).
      { intros k v Hk. apply order_elem in Hk. specialize (H1 k). cbn in H1. rewrite Hk in H1.
        destruct (decide _); [done|]. rewrite Hs in H1. by apply (Hns k v). }
      { apply put_node_at. }
      rewrite E2, put_node_twice, set_props_twice. do 3 f_equal. f_equal. apply map_eq. intros k. rewrite H, props_of_set.
      assert (k ∈ (hash_order _ s').*1 <-> is_Some (s' !! k)) as Hds.
      { rewrite list_elem_of_fmap. split; [intros ([k' v] & -> & H'%order_elem); by exists v|].
        intros [v H']. exists (k, v). split; [done|]. by apply order_elem. }
      specialize (H1 k). cbn in H1. rewrite Hs in H1. destruct (pt !! k) as [v|] eqn:Ek.
      + rewrite decide_True in H1 by (by apply Hdom; rewrite Ek). rewrite decide_False by (rewrite Hds, H1; by intros []).
        apply H3. by apply order_elem.
      + assert (k ∉ (hash_order _ pt).*1) as Hni by (rewrite Hdom, Ek; by intros []). rewrite decide_False in H1 by done.
        destruct (decide (k ∈ (hash_order _ s').*1)) as [Hi|Hi]; [done|]. rewrite (H4 k Hni), Hps, <- H1.
        destruct (s' !! k) eqn:Es; [|done]. destruct Hi. by apply Hds.
    - unfold mret, state_ret. do 3 f_equal. f_equal. apply map_eq. intros k. destruct (pt !! k) as [v|] eqn:Ek.
      + apply H3. by apply order_elem.
      + assert (k ∉ (hash_order _ pt).*1) as Hni by (rewrite Hdom, Ek; by intros []). rewrite (H4 k Hni), Hps.
        specialize (H1 k). rewrite decide_False, Hs in H1 by done. by rewrite <- H1. }
  unfold delta_proplists. destruct source as [sp|]; cbn [source_props] in Hsrc.
  - destruct Hsrc as (p & r & Hr & Hpr).
    destruct (props_changed_ok fuel fs _ _ _ _ _ _ _ _ _ _ Ht Hr Hpt Hpr) as (b & Eb & Hb).
    rewrite (call_fs_bind _ _ _ _ _ Eb). destruct b; cbn [negb].
    + rewrite bind_assoc, (call_fs_bind _ _ _ _ _ (node_proplist_ok fuel fs _ _ _ _ _ Hr Hpr)), ret_bind. by apply Hgo.
    + rewrite (Hb eq_refl), <- Hps, set_props_id, put_node_id by done. done.
  - rewrite ret_bind. cbn [negb]. rewrite ret_bind. apply Hgo. intros k. by rewrite Hsrc, lookup_empty.
Qed.

(** The same of a text. *)
Definition source_text (source : option bytes) (x : bytes) : Prop :=
  match source with
  | Some path => exists p r, leads fuel fs (source_root c) path p r /\ nr_kind r = svn_node_file /\ text_at fuel fs r x
  | None => x = []
  end.

Lemma delta_files_ok (x : tpath) source path q t ps ts pt tt' e :
  leads fuel fs (target_root c) path q t -> nr_kind t = svn_node_file ->
  props_at fuel fs t pt -> prop_names_ok pt -> text_at fuel fs t tt' ->
  source_props source ps -> prop_names_ok ps -> source_text source ts ->
  tnodes e !! x = Some (TFile ps ts) -> applying e = None ->
  delta_files fuel hash_order c x source path (fs, e) = (Ok tt, (fs, put_node x (TFile pt tt') e)).
Proof.
  intros Ht Hf Hpt Hnt Htt Hsp Hns Hst Hx Ha. unfold delta_files. rewrite c_editor. cbn [change_file_prop tree_editor].
  rewrite (state_bind_step _ _ _ _ _ (delta_proplists_ok x source path q t ps pt (TFile ps ts) e Ht Hpt Hnt Hsp Hns Hx eq_refl)).
  cbn [set_props]. set (e1 := put_node x (TFile pt ts) e).
  assert (tnodes e1 !! x = Some (TFile pt ts)) as Hx1 by apply put_node_at.
  destruct (file_contents_ok fuel fs _ _ _ _ _ Ht Hf Htt) as (rt & Et & Hdt & Hlt & Hlt').
  assert (length tt' < fuel)%nat as Hlen by (destruct Hlt as [?| ->]; [done|cbn; lia]).
  assert (forall ds : svn_txdelta_stream_t (ctx := ctx) (dig := bytes) (S := nat) (T := nat) +
                      svn_txdelta_stream_t (ctx := ctx) (dig := bytes) (S := unit) (T := nat), (match ds with
      | inl ds => send_txstream fuel ds te_handler | inr ds => send_txstream fuel ds te_handler end)
      (mk_te (tnodes e1) (Some (x, svn_txdelta_apply (mk_stream ts mem_reader) (mk_stream [] mem_writer)))) =
      (Ok tt, mk_te (<[x := TFile pt tt']> (tnodes e1)) None) ->
    send_text_delta fuel c x ds (fs, e1) = (Ok tt, (fs, put_node x (TFile pt tt') e))) as Hsend.
  { intros ds E. unfold send_text_delta. rewrite c_editor, c_text. cbn [apply_textdelta tree_editor].
    assert (te_apply_textdelta x e1 = (Ok te_handler, mk_te (tnodes e1) (Some (x, svn_txdelta_apply (mk_stream ts mem_reader) (mk_stream [] mem_writer))))) as Ea.
    { unfold te_apply_textdelta. by rewrite Hx1. }
    rewrite (call_ed_bind _ _ _ _ _ _ Ea), (call_ed_done _ _ _ _ _ E).
    unfold e1, put_node, with_tnodes. cbn [tnodes applying]. by rewrite insert_insert_eq, Ha. }
  destruct source as [sp|]; cbn [source_text] in Hst.
  - destruct Hst as (p & r & Hr & Hrf & Htr).
    destruct (contents_changed_ok fuel fs _ _ _ _ _ _ _ _ _ _ Ht Hr Htt Htr Hf Hrf) as (b & Eb & Hb).
    rewrite (call_fs_bind _ _ _ _ _ Eb). destruct b; cbn [negb].
    + destruct (file_contents_ok fuel fs _ _ _ _ _ Hr Hrf Htr) as (rs & Es & Hds & _ & Hls).
      unfold svn_fs_get_file_delta_stream. cbn [fmap option_fmap option_map].
      rewrite (call_fs_bind _ _ _ _ (inl (svn_txdelta (svn_fs__rep_contents_read_stream fuel fs rs 0)
        (svn_fs__rep_contents_read_stream fuel fs rt 0)))).
      * apply Hsend. by apply send_txstream_edits.
      * rewrite bind_assoc, (state_bind_step _ _ _ _ _ Es), ret_bind, (state_bind_step _ _ _ _ _ Et). done.
    + rewrite (Hb eq_refl). done.
  - subst ts. rewrite ret_bind. cbn [negb]. unfold svn_fs_get_file_delta_stream. cbn [fmap option_fmap option_map].
    rewrite (call_fs_bind _ _ _ _ (inr (svn_txdelta svn_stream_empty (svn_fs__rep_contents_read_stream fuel fs rt 0)))).
    + apply Hsend. apply send_txstream_edits; [apply empty_delivers|done|done|done|done].
    + rewrite ret_bind, (state_bind_step _ _ _ _ _ Et). done.
Qed.

(** [tree]: the trees of the nodes, files and directories at once. *)
Context (tree : nid -> tpath -> option tnode).

(** The part of [g] below a name is the tree of the entry, which is [o]. *)
Definition child_tree (T : nid -> node_rec -> Prop) (g : tpath -> option tnode) (name : bytes) (o : option bytes) : Prop :=
  match o with
  | None => forall y, g (y ++ [name]) = None
  | Some id => exists q t, id = id_text (flat q) /\ T q t /\ node_at fs q t /\ entry_name name /\ wf_nid q /\ depth q < 2 ^ 30 /\
                 forall y, g (y ++ [name]) = tree q y
  end.

(** The tree of this node is what the filesystem holds, to the depth [d]. *)
Fixpoint is_tree (d : nat) (p : nid) (r : node_rec) : Prop :=
  match d with
  | O => False
  | S d =>
      exists ps, props_at fuel fs r ps /\ prop_names_ok ps /\
      ((nr_kind r = svn_node_file /\ exists text, text_at fuel fs r text /\ forall y, tree p y = single (TFile ps text) y) \/
       (nr_kind r = svn_node_dir /\ exists es, entries_at fuel fs r es /\ tree p [] = Some (TDir ps) /\
          forall name, child_tree (is_tree d) (tree p) name (es !! name)))
  end.

(** Nodes that are related are of the same kind. *)
Definition kinds_agree : Prop := forall p r q t a, node_at fs p r -> node_at fs q t -> a <> [] ->
  ancestor a p -> ancestor a q -> nr_kind r = nr_kind t.

Lemma entry_distance p q : wf_nid p -> wf_nid q -> depth p < 2 ^ 30 -> depth q < 2 ^ 30 ->
  exists dist, svn_fs_id_distance (flat p ++ [-1]) (flat q ++ [-1]) = Ok dist /\ (dist = 0 -> p = q) /\
    (dist <> -1 -> exists a, a <> [] /\ ancestor a p /\ ancestor a q).
Proof.
  intros Hp Hq Hdp Hdq. change (flat p ++ [-1]) with (flat p ++ -1 :: []). change (flat q ++ [-1]) with (flat q ++ -1 :: []).
  rewrite id_distance_lca by (done || lia).
  destruct (bool_decide_reflect (lca p q = [])) as [El|El]; [by exists (-1)|].
  pose proof (anc_b_lca (lca p q) p q El) as Hl. rewrite anc_b_refl in Hl. symmetry in Hl. apply andb_true_iff in Hl as [H1 H2].
  apply anc_b_iff in H1, H2; try done. eexists. split; [done|]. split; [|intros _; by exists (lca p q)].
  apply rtc_nsteps in H1 as [k1 H1], H2 as [k2 H2]. pose proof (nsteps_depth _ _ _ H1). pose proof (nsteps_depth _ _ _ H2).
  intros Hz. assert (k1 = 0%nat) as -> by lia. assert (k2 = 0%nat) as -> by lia. inversion H1; inversion H2; congruence.
Qed.

(** *** One entry *)

Context (c_recurse : recurse c = true) (c_copy : use_copyfrom_args c = false) (kinds : kinds_agree).

(** What the source says about a traversal of [path]: its entries, and the trees
    below them. *)
Definition source_dir (source : option bytes) (path : bytes) (ps : gmap bytes bytes) (s0 : gmap bytes bytes)
    (g : tpath -> option tnode) : Prop :=
  source_props source ps /\ prop_names_ok ps /\ g [] = Some (TDir ps) /\
  match source with
  | Some sp => sp = path /\ exists p r d, leads fuel fs (source_root c) path p r /\ entries_at fuel fs r s0 /\
                 forall name, child_tree (is_tree d) g name (s0 !! name)
  | None => s0 = ∅ /\ forall y, y <> [] -> g y = None
  end.

(** The calls for a directory, with the directories below it to the depth [n]. *)
Definition goes (n : nat) : Prop := forall P source path q t g ps s0 d e,
  leads fuel fs (target_root c) path q t -> is_tree d q t -> (d <= n)%nat -> nr_kind t = svn_node_dir ->
  revisions_for (source_rev_diffs c) path -> source_dir source path ps s0 g ->
  (forall y, tnodes e !! (y ++ P) = g y) -> applying e = None ->
  exists e', delta_dirs fuel hash_order c n P source path (fs, e) = (Ok tt, (fs, e')) /\ becomes e e' P (tree q).

Section entry.
Context (n : nat) (IH : goes n).
Context (P : tpath) (path : bytes) (q : nid) (t : node_rec) (es : gmap bytes bytes) (d : nat).
Context (Hlead : leads fuel fs (target_root c) path q t) (Hes : entries_at fuel fs t es) (Hd : (d <= n)%nat).
Context (Hrev : revisions_for (source_rev_diffs c) path).

Abbreviation below name := (svn_path_add_component_nts (apr_pstrndup path) name).

Lemma tree_kind d' q' t' : is_tree d' q' t' -> nr_kind t' = svn_node_dir \/ nr_kind t' = svn_node_file.
Proof. destruct d'; [done|]. intros (ps & _ & _ & [[H _]|[H _]]); auto. Qed.

Lemma add_entry_edits name q' t' e ps :
  es !! name = Some (id_text (flat q')) -> node_at fs q' t' -> entry_name name -> is_tree d q' t' ->
  applying e = None -> tnodes e !! P = Some (TDir ps) -> (forall y, tnodes e !! (y ++ name :: P) = None) ->
  exists e', add_file_or_dir fuel hash_order c (delta_dirs fuel hash_order c n) P None path name (fs, e) = (Ok tt, (fs, e')) /\
    becomes e e' (name :: P) (tree q').
Proof.
  intros Hl Hat Hname Ht Ha HP Hnone.
  pose proof (leads_entry fuel fs _ _ _ _ _ _ _ _ Hlead Hes Hname Hl Hat) as Hlead'.
  unfold add_file_or_dir. rewrite (call_fs_bind _ _ _ _ _ (is_dir_ok fuel fs _ _ _ _ Hlead')), ret_bind.
  rewrite (apr_pstrndup_id name) by apply Hname. rewrite c_editor. cbn [add_directory add_file close_directory close_file tree_editor te_add_from].
  destruct (tree_kind d q' t' Ht) as [Hk|Hk]; rewrite Hk.
  - rewrite bool_decide_true by done. destruct (te_add_becomes (TDir ∅) name P e ps Ha Hnone HP) as (e1 & E1 & B1).
    rewrite (call_ed_bind _ _ _ _ _ _ E1).
    destruct (IH (name :: P) None (below name) q' t' (single (TDir ∅)) ∅ ∅ d e1) as (e2 & E2 & B2); try done.
    + apply revisions_for_entry; [|done|done]. by destruct Hlead as (? & ? & ? & ? & ?).
    + split; [done|]. split; [by intros k v|]. split; [done|]. split; [done|]. by intros [|].
    + apply B1.
    + apply B1.
    + rewrite (state_bind_step _ _ _ _ _ E2). exists e2. split; [done|]. by eapply becomes_trans.
  - rewrite bool_decide_false by done. destruct (te_add_becomes (TFile ∅ []) name P e ps Ha Hnone HP) as (e1 & E1 & B1).
    rewrite (call_ed_bind _ _ _ _ _ _ E1). destruct d as [|d']; [done|]. destruct Ht as (pt & Hpt & Hnt & [(_ & text & Htext & Htree)|[Hk' _]]); [|congruence].
    assert (tnodes e1 !! (name :: P) = Some (TFile ∅ [])) as Hx by apply (bc_tree _ _ _ _ B1 []).
    rewrite (state_bind_step _ _ _ _ _ (delta_files_ok (name :: P) None _ q' t' ∅ [] pt text e1 Hlead' Hk Hpt Hnt Htext eq_refl
      ltac:(by intros k v) eq_refl Hx (bc_applying _ _ _ _ B1))).
    eexists. split; [done|]. eapply becomes_ext; [by intros y; symmetry; apply Htree|].
    eapply becomes_trans; [exact B1|]. apply (put_node_becomes _ _ (TFile ∅ [])); apply B1.
Qed.

(** The same entry of the source. *)
Section source.
Context (p : nid) (r : node_rec) (s0 : gmap bytes bytes) (ds : nat).
Context (Hsrc : leads fuel fs (source_root c) path p r) (Hs0 : entries_at fuel fs r s0).

Lemma replace_entry_edits name q' t' p' r' e :
  es !! name = Some (id_text (flat q')) -> node_at fs q' t' -> entry_name name -> is_tree d q' t' ->
  s0 !! name = Some (id_text (flat p')) -> node_at fs p' r' -> is_tree ds p' r' -> nr_kind r' = nr_kind t' ->
  applying e = None -> (forall y, tnodes e !! (y ++ name :: P) = tree p' y) ->
  exists e', replace_file_or_dir fuel hash_order c (delta_dirs fuel hash_order c n) P path name path name (fs, e) = (Ok tt, (fs, e')) /\
    becomes e e' (name :: P) (tree q').
Proof.
  intros Hl Hat Hname Ht Hl' Hat' Ht' Hkind Ha HP.
  pose proof (leads_entry fuel fs _ _ _ _ _ _ _ _ Hlead Hes Hname Hl Hat) as Hlead'.
  pose proof (leads_entry fuel fs _ _ _ _ _ _ _ _ Hsrc Hs0 Hname Hl' Hat') as Hsrc'.
  assert (revisions_for (source_rev_diffs c) (below name)) as Hrev'
    by (apply revisions_for_entry; [by destruct Hlead as (? & ? & ? & ? & ?)|done|done]).
  unfold replace_file_or_dir. rewrite (call_fs_bind _ _ _ _ _ (is_dir_ok fuel fs _ _ _ _ Hlead')).
  destruct (revision_ok _ _ Hrev') as [rev Erev]. cbn zeta. rewrite Erev, lift_bind.
  rewrite (apr_pstrndup_id name) by apply Hname. rewrite c_editor. cbn [open_directory open_file close_directory close_file tree_editor].
  destruct ds as [|ds']; [done|]. pose proof (HP []) as HP0. cbn [app] in HP0.
  destruct (tree_kind d q' t' Ht) as [Hk|Hk]; rewrite Hk; rewrite Hk in Hkind;
    destruct Ht' as (psr & Hpsr & Hnr & [(Hkr & xr & Hxr & Htr)|(Hkr & er & Her & Htr & Hchr)]); try congruence.
  - rewrite bool_decide_true by done.
    assert (te_open true (name :: P) e = (Ok (name :: P), e)) as Eo by (unfold te_open; by rewrite HP0, Htr).
    rewrite (call_ed_bind _ _ _ _ _ _ Eo).
    destruct (IH (name :: P) (Some (below name)) (below name) q' t' (tree p') psr er d e) as (e2 & E2 & B2); try done.
    + split; [by exists p', r'|]. split; [done|]. split; [done|]. split; [done|]. by exists p', r', ds'.
    + rewrite (state_bind_step _ _ _ _ _ E2). by exists e2.
  - rewrite bool_decide_false by done.
    assert (tnodes e !! (name :: P) = Some (TFile psr xr)) as HP1 by (by rewrite HP0, Htr).
    assert (te_open false (name :: P) e = (Ok (name :: P), e)) as Eo by (unfold te_open; by rewrite HP1).
    rewrite (call_ed_bind _ _ _ _ _ _ Eo). destruct d as [|d']; [done|].
    destruct Ht as (pt & Hpt & Hnt & [(_ & text & Htext & Htree)|[Hk' _]]); [|congruence].
    rewrite (state_bind_step _ _ _ _ _ (delta_files_ok (name :: P) (Some (below name)) _ q' t' psr xr pt text e Hlead' Hk Hpt Hnt Htext
      ltac:(by exists p', r') Hnr ltac:(by exists p', r') HP1 Ha)).
    eexists. split; [done|]. eapply becomes_ext; [by intros y; symmetry; apply Htree|].
    apply (put_node_becomes _ _ (TFile psr xr)); [done|]. intros y. by rewrite HP.
Qed.

Lemma stored_id_parse q' t' : node_at fs q' t' -> svn_fs_parse_id (id_text (flat q')) = Some (flat q' ++ [-1]).
Proof.
  intros [Hst _]. apply parse_id_text; [|by apply nid_comps_flat, stored_comps].
  pose proof (sn_ne _ Hst). by destruct q' as [|[] ?].
Qed.

(** An entry of both: what is there already is the tree of the source's. *)
Lemma update_entry_edits name id id' (g g' : tpath -> option tnode) e ps :
  es !! name = Some id -> child_tree (is_tree d) g' name (Some id) ->
  s0 !! name = Some id' -> child_tree (is_tree ds) g name (Some id') ->
  applying e = None -> tnodes e !! P = Some (TDir ps) -> (forall y, tnodes e !! (y ++ name :: P) = g (y ++ [name])) ->
  exists e', update_entry fuel hash_order c (delta_dirs fuel hash_order c n) P (Some path) path (svn_fs_parse_id id') name
      (svn_fs_parse_id id) (fs, e) = (Ok tt, (fs, e')) /\
    becomes e e' (name :: P) (λ y, g' (y ++ [name])).
Proof.
  intros Hl (q' & t' & -> & Ht & Hat & Hname & Hwf & Hdq & Hg') Hl' (p' & r' & -> & Hr & Hat' & _ & Hwf' & Hdp & Hg) Ha HP Hn.
  assert (forall y, tnodes e !! (y ++ name :: P) = tree p' y) as Hy by (intros y; by rewrite Hn, Hg).
  assert (forall e', becomes e e' (name :: P) (tree q') -> becomes e e' (name :: P) (λ y, g' (y ++ [name]))) as Hext
    by (intros e' H; eapply becomes_ext; [|exact H]; intros y; by rewrite Hg').
  unfold update_entry. cbn [deref]. rewrite lift_bind, (stored_id_parse p' r' Hat'), (stored_id_parse q' t' Hat). cbn [deref].
  rewrite !lift_bind. destruct (entry_distance p' q' Hwf' Hwf Hdp Hdq) as (dist & -> & H0 & H1). rewrite lift_bind.
  destruct (Z.eqb_spec dist 0) as [E0|E0].
  - exists e. split; [done|]. apply Hext. rewrite <- (H0 E0). split; [exact Hy|done|done].
  - destruct (Z.eqb_spec dist (-1)) as [E1|E1].
    + unfold nearest. rewrite c_copy, ret_bind. cbn beta iota. rewrite Z.eqb_refl. unfold delete_. rewrite c_editor.
      cbn [delete_entry tree_editor]. rewrite (apr_pstrndup_id name) by apply Hname.
      assert (exists n0, tnodes e !! (name :: P) = Some n0) as [n0 Hn0].
      { pose proof (Hy []) as E. cbn [app] in E. rewrite E. destruct ds; [done|].
        destruct Hr as (psr & _ & _ & [(_ & x & _ & Htr)|(_ & es' & _ & Htr & _)]); rewrite Htr; by eexists. }
      destruct (te_delete_becomes name P e n0 Ha Hn0) as (e1 & Ee1 & B1). rewrite (call_ed_bind _ _ _ _ _ _ Ee1).
      destruct (add_entry_edits name q' t' e1 ps Hl Hat Hname Ht) as (e2 & E2 & B2); [apply B1| |apply B1|].
      * rewrite (bc_rest _ _ _ _ B1) by apply not_above. done.
      * exists e2. split; [done|]. apply Hext. by eapply becomes_trans.
    + destruct (H1 E1) as (a & Hane & Hap & Haq).
      destruct (replace_entry_edits name q' t' p' r' e Hl Hat Hname Ht Hl' Hat' Hr) as (e2 & E2 & B2); try done.
      * by apply (kinds p' r' q' t' a).
      * exists e2. split; [done|]. by apply Hext.
Qed.
End source.

Context (children : forall name, child_tree (is_tree d) (tree q) name (es !! name)).
Context (source : option bytes) (ps s0 : gmap bytes bytes) (g : tpath -> option tnode).
Context (Hsource : source_dir source path ps s0 g).

(** One turn of the loop over the entries of the target. *)
Lemma entry_turn (name id : bytes) (s : option (gmap bytes (option (list Z)))) e ps1 :
  es !! name = Some id -> s ≫= (.!! name) = svn_fs_parse_id <$> (s0 !! name) ->
  applying e = None -> tnodes e !! P = Some (TDir ps1) -> (forall y, tnodes e !! (y ++ name :: P) = g (y ++ [name])) ->
  exists e', (forall l, each_target_entry fuel hash_order c (delta_dirs fuel hash_order c n) P source path ((name, svn_fs_parse_id id) :: l) s (fs, e) =
      each_target_entry fuel hash_order c (delta_dirs fuel hash_order c n) P source path l (delete name <$> s) (fs, e')) /\
    becomes e e' (name :: P) (λ y, tree q (y ++ [name])).
Proof.
  intros Hl Hs Ha HP Hn. pose proof (children name) as Hc. rewrite Hl in Hc.
  pose proof Hc as (q' & t' & Eid & Ht & Hat & Hname & _ & _ & Hg'). rewrite Eid in Hl.
  pose proof (leads_entry fuel fs _ _ _ _ _ _ _ _ Hlead Hes Hname Hl Hat) as Hlead'.
  cbn [each_target_entry]. setoid_rewrite (call_fs_bind _ _ _ _ _ (is_dir_ok fuel fs _ _ _ _ Hlead')).
  rewrite Hs, c_recurse. cbn [orb].
  destruct (s0 !! name) as [id'|] eqn:Es; cbn [fmap option_fmap option_map].
  - destruct Hsource as (_ & _ & _ & Hsrc). destruct source as [sp|]; [|destruct Hsrc as [E _]; by rewrite E in Es].
    destruct Hsrc as (-> & p & r & ds & Hr & Her & Hch). pose proof (Hch name) as Hc'. rewrite Es in Hc'.
    rewrite <- Eid in Hl. destruct (update_entry_edits p r s0 ds Hr Her name id id' g (tree q) e ps1) as (e' & E & B); try done.
    exists e'. split; [|done]. intros l. rewrite bind_assoc, (state_bind_step _ _ _ _ _ E). by rewrite ret_bind.
  - assert (forall y, tnodes e !! (y ++ name :: P) = None) as Hnone.
    { intros y. rewrite Hn. destruct Hsource as (_ & _ & _ & Hsrc). destruct source as [sp|].
      - destruct Hsrc as (_ & p & r & ds & _ & _ & Hch). pose proof (Hch name) as Hc'. rewrite Es in Hc'. apply Hc'.
      - apply Hsrc. by destruct y. }
    unfold new_entry, nearest. rewrite c_copy.
    destruct (add_entry_edits name q' t' e ps1 Hl Hat Hname Ht Ha HP Hnone) as (e' & E & B).
    exists e'. split; [|eapply becomes_ext; [|exact B]; intros y; by rewrite Hg'].
    intros l. rewrite bind_assoc, bind_assoc, ret_bind. cbn beta iota. rewrite Z.eqb_refl, (state_bind_step _ _ _ _ _ E), ret_bind.
    do 2 f_equal. destruct s as [s|]; [|done]. cbn in *. by rewrite delete_id.
Qed.

(** The loop over the entries of the target: these are those of the target, and the
    other names are as they were. *)
Lemma target_loop (l : list (bytes * option (list Z))) ps1 : NoDup l.*1 ->
  (forall (k : bytes) o, (k, o) ∈ l -> exists id, es !! k = Some id /\ o = svn_fs_parse_id id) ->
  forall (s : option (gmap bytes (option (list Z)))) e,
  (forall k, k ∈ l.*1 -> s ≫= (.!! k) = svn_fs_parse_id <$> (s0 !! k)) ->
  applying e = None -> tnodes e !! P = Some (TDir ps1) ->
  (forall k, k ∈ l.*1 -> forall y, tnodes e !! (y ++ k :: P) = g (y ++ [k])) ->
  exists e' s', each_target_entry fuel hash_order c (delta_dirs fuel hash_order c n) P source path l s (fs, e) = (Ok s', (fs, e')) /\
    (s = None -> s' = None) /\ (forall k, s' ≫= (.!! k) = if decide (k ∈ l.*1) then None else s ≫= (.!! k)) /\
    applying e' = None /\ (forall x, (forall k, k ∈ l.*1 -> ~ under (k :: P) x) -> tnodes e' !! x = tnodes e !! x) /\
    (forall k, k ∈ l.*1 -> forall y, tnodes e' !! (y ++ k :: P) = tree q (y ++ [k])).
Proof.
  induction l as [|[k o] l IHl]; intros Hnd Hl s e Hs Ha HP Hn; cbn [fmap list_fmap fst] in *.
  - exists e, s. split; [done|]. split; [done|]. split; [intros k; by rewrite decide_False by apply not_elem_of_nil|].
    split; [done|]. split; [done|]. intros k Hk. by apply not_elem_of_nil in Hk.
  - apply list.NoDup_cons in Hnd as [Hk Hnd]. destruct (Hl k o) as (id & Eid & ->); [by left|].
    destruct (entry_turn k id s e ps1 Eid) as (e1 & E1 & B1); [apply Hs; by left|done|done|apply Hn; by left|].
    assert (forall k', k' ∈ l.*1 -> k' <> k) as Hne by (by intros k' Hk' ->).
    destruct (IHl Hnd) with (s := delete k <$> s) (e := e1) as (e' & s' & E & Hs' & Hsp & Ha' & Hrest & Ht).
    { intros k' o' H. apply (Hl k' o'). by right. }
    { intros k' Hk'. rewrite <- Hs by (by right). destruct s as [s|]; [|done]. cbn. apply lookup_delete_ne. intros ->. by apply Hk. }
    { apply B1. }
    { rewrite (bc_rest _ _ _ _ B1) by apply not_above. done. }
    { intros k' Hk' y. rewrite (bc_rest _ _ _ _ B1); [apply Hn; by right|]. intros H%under_other. by apply (Hne k'). }
    exists e', s'. split; [by rewrite E1|]. split; [intros ->; by apply Hs'|]. split; [|split; [done|split]].
    + intros k'. rewrite Hsp. destruct (decide (k' ∈ l.*1)) as [Hi|Hi].
      * by rewrite decide_True by (by right).
      * destruct (decide (k' = k)) as [->|Hkk]; [rewrite decide_True by (by left)|rewrite decide_False by (intros [?|?]%list.elem_of_cons; done)];
          (destruct s as [s|]; [|done]); cbn; [apply lookup_delete_eq|by apply lookup_delete_ne].
    + intros x Hx. rewrite Hrest by (intros k' Hk'; apply Hx; by right). apply (bc_rest _ _ _ _ B1). apply Hx. by left.
    + intros k' [->|Hk']%list.elem_of_cons y; [|by apply Ht]. rewrite Hrest; [apply (bc_tree _ _ _ _ B1)|].
      intros k' Hk' H%under_other. by apply (Hne k').
Qed.

(** The loop over what is left of the source: these entries are gone. *)
Lemma source_loop p r ds (l : list (bytes * option (list Z))) : leads fuel fs (source_root c) path p r -> entries_at fuel fs r s0 ->
  (forall name, child_tree (is_tree ds) g name (s0 !! name)) -> NoDup l.*1 -> (forall (k : bytes), k ∈ l.*1 -> is_Some (s0 !! k)) ->
  forall e, applying e = None -> (forall k, k ∈ l.*1 -> forall y, tnodes e !! (y ++ k :: P) = g (y ++ [k])) ->
  exists e', each_source_entry fuel c P path l (fs, e) = (Ok tt, (fs, e')) /\ applying e' = None /\
    (forall x, (forall k, k ∈ l.*1 -> ~ under (k :: P) x) -> tnodes e' !! x = tnodes e !! x) /\
    (forall k, k ∈ l.*1 -> forall y, tnodes e' !! (y ++ k :: P) = None).
Proof.
  intros Hr Her Hch. induction l as [|[k o] l IHl]; intros Hnd Hl e Ha Hn; cbn [fmap list_fmap fst] in *.
  - exists e. split; [done|]. split; [done|]. split; [done|]. intros k Hk. by apply not_elem_of_nil in Hk.
  - apply list.NoDup_cons in Hnd as [Hk Hnd]. destruct (Hl k) as [id Eid]; [by left|].
    pose proof (Hch k) as Hc. rewrite Eid in Hc. destruct Hc as (p' & r' & -> & Ht & Hat & Hname & _ & _ & Hg').
    cbn [each_source_entry]. rewrite (call_fs_bind _ _ _ _ _ (is_dir_ok fuel fs _ _ _ _ (leads_entry fuel fs _ _ _ _ _ _ _ _ Hr Her Hname Eid Hat))).
    rewrite c_recurse. cbn [orb]. unfold delete_. rewrite c_editor. cbn [delete_entry tree_editor]. rewrite (apr_pstrndup_id k) by apply Hname.
    assert (exists n0, tnodes e !! (k :: P) = Some n0) as [n0 Hn0].
    { pose proof (Hn k ltac:(by left) []) as E. rewrite (Hg' []) in E. cbn [app] in E. rewrite E. destruct ds; [done|].
      destruct Ht as (psr & _ & _ & [(_ & x & _ & Htr)|(_ & es' & _ & Htr & _)]); rewrite Htr; by eexists. }
    destruct (te_delete_becomes k P e n0 Ha Hn0) as (e1 & Ee1 & B1). rewrite (call_ed_bind _ _ _ _ _ _ Ee1).
    assert (forall k', k' ∈ l.*1 -> k' <> k) as Hne by (by intros k' Hk' ->).
    destruct (IHl Hnd) with (e := e1) as (e' & E & Ha' & Hrest & Hnone).
    { intros k' Hk'. apply Hl. by right. }
    { apply B1. }
    { intros k' Hk' y. rewrite (bc_rest _ _ _ _ B1); [apply Hn; by right|]. intros H%under_other. by apply (Hne k'). }
    exists e'. split; [done|]. split; [done|]. split.
    + intros x Hx. rewrite Hrest by (intros k' Hk'; apply Hx; by right). apply (bc_rest _ _ _ _ B1). apply Hx. by left.
    + intros k' [->|Hk']%list.elem_of_cons y; [|by apply Hnone]. rewrite Hrest; [apply (bc_tree _ _ _ _ B1)|].
      intros k' Hk' H%under_other. by apply (Hne k').
Qed.

(** What the source has and the target has not is gone. *)
Lemma leftover_gone (s' : option (gmap bytes (option (list Z)))) e :
  (source = None -> s' = None) -> (forall k, s' ≫= (.!! k) = if decide (is_Some (es !! k)) then None else svn_fs_parse_id <$> (s0 !! k)) ->
  applying e = None -> (forall k, es !! k = None -> forall y, tnodes e !! (y ++ k :: P) = g (y ++ [k])) ->
  exists e', match s', source with
    | Some s', Some source => each_source_entry fuel c P source (hash_order _ s')
    | _, _ => mret tt
    end (fs, e) = (Ok tt, (fs, e')) /\ applying e' = None /\
    (forall x, (forall k, es !! k = None -> ~ under (k :: P) x) -> tnodes e' !! x = tnodes e !! x) /\
    (forall k, es !! k = None -> forall y, tnodes e' !! (y ++ k :: P) = None).
Proof.
  intros Hn Hs Ha Hg. destruct Hsource as (_ & _ & _ & Hsrc).
  assert ((forall k, s0 !! k = None) -> (forall k, es !! k = None -> forall y, tnodes e !! (y ++ k :: P) = None)) as Hempty.
  { intros H0 k Hk y. rewrite Hg by done. destruct source as [sp|]; [|apply Hsrc; by destruct y].
    destruct Hsrc as (_ & p & r & ds & _ & _ & Hch). pose proof (Hch k) as Hc. rewrite H0 in Hc. apply Hc. }
  destruct source as [sp|]; [|rewrite Hn by done; exists e; split; [done|]; split; [done|]; split; [done|]; apply Hempty; intros k; destruct Hsrc as [-> _]; apply lookup_empty].
  destruct Hsrc as (-> & p & r & ds & Hr & Her & Hch).
  assert (forall k, is_Some (s' ≫= (.!! k)) <-> is_Some (s0 !! k) /\ es !! k = None) as Hleft.
  { intros k. rewrite Hs. destruct (es !! k); [rewrite decide_True by done|rewrite decide_False by (by intros [])].
    - split; [by intros []|by intros [_ ?]].
    - rewrite fmap_is_Some. tauto. }
  destruct s' as [s'|].
  - cbn [mbind option_bind] in Hleft.
    assert (forall k, k ∈ (hash_order _ s').*1 <-> is_Some (s0 !! k) /\ es !! k = None) as Hdom.
    { intros k. rewrite <- Hleft, list_elem_of_fmap. split; [intros ([k' v] & -> & H%order_elem); by exists v|].
      intros [v H]. exists (k, v). split; [done|]. by apply order_elem. }
    destruct (source_loop p r ds (hash_order _ s') Hr Her Hch (order_keys _)) with (e := e) as (e' & E & Ha' & Hrest & Hnone).
    + intros k Hk. by apply Hdom.
    + done.
    + intros k Hk. by apply Hg, Hdom.
    + exists e'. split; [done|]. split; [done|]. split; [intros x Hx; apply Hrest; intros k Hk; by apply Hx, Hdom|].
      intros k Hk y. destruct (decide (k ∈ (hash_order _ s').*1)) as [Hi|Hi]; [by apply Hnone|].
      rewrite Hrest by (intros k' Hk' H%under_other; congruence). rewrite Hg by done. pose proof (Hch k) as Hc.
      destruct (s0 !! k) eqn:E0; [|apply Hc]. destruct Hi. apply Hdom. by rewrite E0.
  - exists e. split; [done|]. split; [done|]. split; [done|].
    intros k Hk y. rewrite Hg by done. pose proof (Hch k) as Hc. destruct (s0 !! k) eqn:E0; [|apply Hc].
    specialize (Hleft k). cbn in Hleft. rewrite E0 in Hleft. destruct Hleft as [_ []]; done.
Qed.
End entry.

Lemma delta_dirs_ok n : goes n.
Proof.
  induction n as [|n IH]; intros P source path q t g ps s0 d e Ht Htree Hd Hdir Hrev Hsrc Hg Ha; destruct d as [|d]; try done; [lia|].
  destruct Htree as (pt & Hpt & Hnt & [[Hf _]|(_ & es & Hes & Htop & Hch)]); [congruence|].
  pose proof Hsrc as (Hsp & Hns & Hg0 & Hs0). assert (tnodes e !! P = Some (TDir ps)) as HP by (rewrite <- Hg0; apply (Hg [])).
  cbn [delta_dirs]. rewrite c_editor. cbn [change_dir_prop tree_editor].
  rewrite (state_bind_step _ _ _ _ _ (delta_proplists_ok P source path q t ps pt (TDir ps) e Ht Hpt Hnt Hsp Hns HP eq_refl)).
  cbn [set_props]. set (e1 := put_node P (TDir pt) e).
  assert (forall x, x <> P -> tnodes e1 !! x = tnodes e !! x) as He1 by (intros x Hx; by apply lookup_insert_ne).
  assert (forall k y, tnodes e1 !! (y ++ k :: P) = g (y ++ [k])) as Hbelow.
  { intros k y. rewrite He1 by (intros E; apply (not_above k P); exists y; by rewrite E). by rewrite <- Hg, <- app_assoc. }
  rewrite (call_fs_bind _ _ _ _ _ (dir_entries_ok fuel fs _ _ _ _ _ Ht Hes)).
  assert (exists s, (source = None -> s = None) /\ (forall k, s ≫= (.!! k) = svn_fs_parse_id <$> (s0 !! k)) /\
    forall B (h : option (gmap bytes (option (list Z))) -> state_m _ B), (match source with
      | Some source => s ← call_fs (svn_fs_dir_entries fuel (source_root c) source); mret (Some s)
      | None => mret None
      end ≫= h) (fs, e1) = h s (fs, e1)) as (s & Hsn & Hsk & Es).
  { destruct source as [sp|].
    - destruct Hs0 as (-> & p & r & ds & Hr & Her & _). exists (Some (svn_fs_parse_id <$> s0)). split; [done|].
      split; [intros k; apply lookup_fmap|]. intros B h. by rewrite bind_assoc, (call_fs_bind _ _ _ _ _ (dir_entries_ok fuel fs _ _ _ _ _ Hr Her)).
    - destruct Hs0 as [-> _]. exists None. split; [done|]. split; [intros k; by rewrite lookup_empty|]. intros B h. by rewrite ret_bind. }
  rewrite Es. set (l := hash_order _ (svn_fs_parse_id <$> es)).
  assert (forall k o, (k, o) ∈ l -> exists id, es !! k = Some id /\ o = svn_fs_parse_id id) as Hl.
  { intros k o H%order_elem. rewrite lookup_fmap in H. destruct (es !! k) as [id|]; [|done]. injection H as <-. by exists id. }
  assert (forall k, k ∈ l.*1 <-> is_Some (es !! k)) as Hlk.
  { intros k. rewrite list_elem_of_fmap. split; [intros ([k' o] & -> & H); destruct (Hl _ _ H) as (id & E & _); by exists id|].
    intros [id E]. exists (k, svn_fs_parse_id id). split; [done|]. apply order_elem. by rewrite lookup_fmap, E. }
  destruct (target_loop n IH P path q t es d Ht Hes ltac:(lia) Hrev Hch source ps s0 g Hsrc l pt (order_keys _) Hl s e1)
    as (e2 & s' & E2 & Hs'n & Hs'k & Ha2 & Hr2 & Ht2).
  { intros k _. apply Hsk. }
  { done. }
  { apply put_node_at. }
  { intros k _ y. by apply Hbelow. }
  rewrite (state_bind_step _ _ _ _ _ E2).
  assert (forall k, es !! k = None -> forall y k', k' ∈ l.*1 -> ~ under (k' :: P) (y ++ k :: P)) as Hother.
  { intros k Hk y k' Hk' H%under_other. apply Hlk in Hk' as [v Hv]. congruence. }
  destruct (leftover_gone P path es source ps s0 g Hsrc s' e2) as (e3 & E3 & Ha3 & Hr3 & Ht3).
  { intros H. by apply Hs'n, Hsn. }
  { intros k. rewrite Hs'k, Hsk. apply decide_ext, Hlk. }
  { done. }
  { intros k Hk y. rewrite Hr2 by (intros k' Hk'; by apply Hother). apply Hbelow. }
  exists e3. split; [done|]. split; [| |done].
  - intros y. destruct y as [|k y _] using rev_ind.
    + rewrite Hr3, Hr2 by (intros; apply not_above). cbn [app]. rewrite Htop. apply put_node_at.
    + rewrite <- app_assoc. cbn [app]. destruct (es !! k) as [id|] eqn:Ek.
      * rewrite Hr3 by (intros k' Hk' H%under_other; congruence). apply Ht2. apply Hlk. by rewrite Ek.
      * rewrite Ht3 by done. symmetry. pose proof (Hch k) as Hc. rewrite Ek in Hc. apply Hc.
  - intros x Hx. assert (forall k, ~ under (k :: P) x) as Hx'.
    { intros k [y ->]. apply Hx. exists (y ++ [k]). by rewrite <- app_assoc. }
    rewrite Hr3, Hr2 by (intros; apply Hx'). apply He1. intros ->. apply Hx. by exists [].
Qed.
End driver_ok.

Lemma if_found_ok `{db : BerkeleyDB} {E A} (call : trail A) fs (e : E) a : call fs = (Ok a, fs) -> if_found call (fs, e) = (Ok (Some a), (fs, e)).
Proof. intros H. unfold if_found. by rewrite H. Qed.

(** ** The public function *)

Section public.
Context `{db : BerkeleyDB} {E : Type}.
Context (fuel : nat) (fs : svn_fs_t).

Lemma node_id_found root path q t : leads fuel fs root path q t ->
  svn_fs_node_id fuel root path fs = (Ok (flat q ++ [-1]), fs).
Proof.
  intros H. destruct (leads_dag fuel fs root path q t H) as (node & En & Hn). apply run_trail_same.
  unfold txn_body_node_id. rewrite (state_bind_step _ _ _ _ _ En). destruct (nf_id _ _ _ _ Hn) as [junk ->].
  unfold lift. f_equal. apply id_copy_nid. apply stored_comps, (nf_at _ _ _ _ Hn).
Qed.

Lemma repr_copy a q : nid_comps q -> repr a q -> svn_fs__id_copy a = Ok (flat q ++ [-1]).
Proof. intros Hc [junk ->]. by apply id_copy_nid. Qed.

(** The root directory of a revision. *)
Lemma revision_root_ok rev q t ps : rev_at fs rev (flat q) ps -> node_at fs q t -> nr_kind t = svn_node_dir ->
  exists root, svn_fs_revision_root rev fs = (Ok root, fs) /\ root_ok fs root q t /\ svn_fs_is_revision_root root = true.
Proof.
  intros Hr Ht Hd. destruct (dag_get_node_ok fs q t [] Ht) as (node & En & Hn). exists (make_revision_root rev node). split; [|split; [|done]].
  - apply run_trail_same. unfold txn_body_revision_root, svn_fs__dag_revision_root.
    rewrite bind_assoc, (state_bind_step _ _ _ _ _ (get_root_ok fs rev _ ps Hr)), (state_bind_step _ _ _ _ _ En). done.
  - split; [by right| |done]. exists (mk_node (flat q ++ [-1]) (node_kind node) None). split.
    + unfold root_node, svn_fs__dag_dup. cbn [svn_fs_is_revision_root kind make_revision_root root_dir deref].
      change (svn_fs_is_revision_root (make_revision_root rev node)) with true. cbn [mbind outcome_bind deref].
      by rewrite (repr_copy _ q) by (apply stored_comps, Ht || apply Hn).
    + split; [by exists []|done|apply Hn|done].
Qed.

Lemma check_parent_ok src_root tgt_root path p r q t (e : E) :
  leads fuel fs src_root path p r -> leads fuel fs tgt_root path q t -> nr_kind r = svn_node_dir -> nr_kind t = svn_node_dir ->
  check_parent fuel src_root tgt_root path path path (fs, e) = (Ok tt, (fs, e)).
Proof.
  intros Hp Hq Hr Ht. unfold check_parent. destruct (svn_path_is_empty (Some path)); [done|].
  rewrite (call_fs_bind _ _ _ _ _ (is_dir_ok fuel fs _ _ _ _ Hp)), (call_fs_bind _ _ _ _ _ (is_dir_ok fuel fs _ _ _ _ Hq)).
  by rewrite Hr, Ht.
Qed.
End public.

(** C1. [svn_repos_dir_delta] on a directory that is at the same path of two roots,
    with texts and recursively, succeeds and drives the editor so that the tree of the
    source becomes that of the target: every property, every text, every entry that
    is there and none besides, whatever the order of the hash tables is. *)
Theorem dir_delta_edits `{db : BerkeleyDB} {ctx : Type} `{m : Md5 ctx bytes} (fuel n ds : nat)
    (hash_order : forall A : Type, gmap bytes A -> list (bytes * A)) (fs : svn_fs_t) (tree : nid -> tpath -> option tnode)
    src_root tgt_root path revs p r q t (e : tree_edit) :
  (forall A (h : gmap bytes A), hash_order A h ≡ₚ map_to_list h) -> (0 < fuel)%nat -> kinds_agree fs ->
  leads fuel fs src_root path p r -> is_tree fuel fs tree ds p r -> nr_kind r = svn_node_dir ->
  leads fuel fs tgt_root path q t -> is_tree fuel fs tree n q t -> nr_kind t = svn_node_dir ->
  revisions_for revs path -> (forall y, tnodes e !! y = tree p y) -> applying e = None ->
  exists e', svn_repos_dir_delta fuel hash_order n src_root (Some path) None revs tgt_root (Some path) tree_editor true true (fs, e) =
      (Ok tt, (fs, e')) /\
    forall y, tnodes e' !! y = tree q y.
Proof.
  intros Hord Hf Hkinds Hp Htp Hrd Hq Htq Htd Hrev He Ha.
  assert (no_nul path) as Hnul by (by destruct Hp as (? & ? & _ & [? _] & _)).
  unfold svn_repos_dir_delta. rewrite (apr_pstrndup_id path Hnul). cbn [given]. rewrite bool_decide_false by (by intros []). cbn [negb orb].
  rewrite ret_bind. cbn beta iota. rewrite !(state_bind_step _ _ _ _ _ (check_parent_ok fuel fs _ _ _ _ _ _ _ e Hp Hq Hrd Htd)).
  cbn zeta. set (c := mk_context _ _ _ _ _ _ _ _).
  assert (forall B (h : unit -> state_m (svn_fs_t * tree_edit) B), ((if target_is_rev c then call_ed (set_target_revision tree_editor
    (svn_fs_revision_root_revision tgt_root)) else mret tt) ≫= h) (fs, e) = h tt (fs, e)) as Hset by (intros B h; by destruct (target_is_rev c)).
  rewrite Hset. destruct (revision_ok _ _ Hrev) as [rev ->]. rewrite lift_bind. destruct ds as [|ds]; [done|].
  destruct Htp as (ps & Hps & Hpn & [[Hk _]|(_ & es & Hes & Htop & Hch)]); [congruence|].
  assert (te_open true [] e = (Ok [], e)) as Eo by (unfold te_open; by rewrite He, Htop). cbn [open_root tree_editor].
  rewrite (call_ed_bind _ _ _ _ _ _ Eo). unfold dir_delta_body. cbn [given].
  rewrite bind_assoc, (state_bind_step _ _ _ _ _ (if_found_ok _ _ _ _ (node_id_found fuel fs (target_root c) _ _ _ Hq))).
  rewrite bind_assoc, (state_bind_step _ _ _ _ _ (if_found_ok _ _ _ _ (node_id_found fuel fs (source_root c) _ _ _ Hp))).
  destruct (delta_dirs_ok fuel hash_order Hord Hf fs c eq_refl eq_refl tree eq_refl eq_refl Hkinds n [] (Some path) path q t (tree p) ps es n e)
    as (e' & E & B); try done.
  - split; [by exists p, r|]. split; [done|]. split; [done|]. split; [done|]. by exists p, r, ds.
  - intros y. by rewrite app_nil_r.
  - rewrite (state_bind_step _ _ _ _ _ E). exists e'. split; [done|]. intros y. rewrite <- (bc_tree _ _ _ _ B), app_nil_r. done.
Qed.

(** ** A witness *)

(** The root directory of revision 0 is empty, and that of the other one has a file. *)
Section sample.
#[local] Existing Instance mem_db.
#[local] Existing Instance TxStream.keep_all.

Definition empty_root : svn_fs_root_t := make_revision_root 0 (mk_node [0; 0; -1] svn_node_dir None).

Definition sample_tree (p : nid) : tpath -> option tnode :=
  if decide (p = [(0, 1)]) then (λ y, match y with [] => Some (TDir ∅) | [c] => if decide (c = bstr "a") then Some (TFile ∅ []) else None | _ => None end)
  else if decide (p = [(1, 1)]) then single (TFile ∅ []) else single (TDir ∅).

Definition sample_edit : tree_edit := mk_te {[ [] := TDir ∅ ]} None.

Lemma fs_3_node : (forall q t, q <> [(0, 1)] -> node_at fs_3 q t <-> node_at fs_2 q t) -> node_at fs_3 [(0, 0)] root_rec.
Proof.
  intros H. apply H; [done|]. apply fs_2_nodes. rewrite !decide_False by done.
  apply (with_node_at empty_fs _ _ root_rec); [by apply stored_pair|apply DagOk.root_ok|done|]. by rewrite decide_True.
Qed.

Lemma fs_3_kinds r0 : node_at fs_3 [(0, 1)] r0 -> nr_kind r0 = svn_node_dir ->
  (forall q t, q <> [(0, 1)] -> node_at fs_3 q t <-> node_at fs_2 q t) ->
  forall q t, node_at fs_3 q t -> q = [(1, 1)] /\ nr_kind t = svn_node_file \/ (q = [(0, 1)] \/ q = [(0, 0)]) /\ nr_kind t = svn_node_dir.
Proof.
  intros H0 Hk Hall q t Ht. destruct (decide (q = [(0, 1)])) as [->|Hq]; [right; split; [by left|by rewrite (node_at_unique _ _ _ _ Ht H0)]|].
  apply Hall, fs_2_nodes in Ht; [|done]. destruct (decide (q = [(1, 1)])) as [->|Hq']; [left; by subst|].
  rewrite decide_False in Ht by done. apply (with_node_at empty_fs _ _ root_rec) in Ht; [|by apply stored_pair|apply DagOk.root_ok|done].
  case_decide; [subst; right; split; [by right|done]|by destruct (no_nodes q t)].
Qed.

Lemma fs_3_kinds_agree r0 : node_at fs_3 [(0, 1)] r0 -> nr_kind r0 = svn_node_dir ->
  (forall q t, q <> [(0, 1)] -> node_at fs_3 q t <-> node_at fs_2 q t) -> kinds_agree fs_3.
Proof.
  intros H0 Hk Hall p r q t a Hp Hq Ha Hap Haq. apply ancestor_anc_b in Hap, Haq; [|done..].
  assert (anc_b a (lca p q) = true) as H by (by rewrite anc_b_lca, Hap, Haq).
  destruct (fs_3_kinds r0 H0 Hk Hall p r Hp) as [[-> Hr]|[Ep Hr]], (fs_3_kinds r0 H0 Hk Hall q t Hq) as [[-> Ht]|[Eq Ht]]; try congruence.
  - by destruct Eq as [-> | ->], a as [|[] ?].
  - by destruct Ep as [-> | ->], a as [|[] ?].
Qed.

Lemma dir_delta_edits_witness :
  exists e', svn_repos_dir_delta 500 (λ A (h : gmap bytes A), map_to_list h) 2 empty_root (Some []) None None sample_root (Some [])
      tree_editor true true (fs_3, sample_edit) = (Ok tt, (fs_3, e')) /\
    tnodes e' !! [bstr "a"] = Some (TFile ∅ []).
Proof.
  destruct fs_3_ok as (mk & here & Hn & He & _ & Hat & Hall). set (r := set_nr_key 1 mk (new_rec true)) in *.
  pose proof (nf_at _ _ _ _ Hn) as H01. pose proof (fs_3_node Hall) as H00.
  assert (entries_at 500 fs_3 root_rec ∅) as He0 by (split; [done|by left]).
  destruct (dir_delta_edits 500 2 1 (λ A (h : gmap bytes A), map_to_list h) fs_3 sample_tree empty_root sample_root [] None
    [(0, 0)] root_rec [(0, 1)] r sample_edit) as (e' & E & H).
  - done.
  - lia.
  - by apply (fs_3_kinds_agree r).
  - exists [(0, 0)], root_rec. split; [|split; [by split; [constructor|]|apply Walks_end]].
    split; [by right|by exists (mk_node [0; 0; -1] svn_node_dir None); split; [|split; [by exists []|..]]|done].
  - exists ∅. split; [by left|]. split; [by intros k v|]. right. split; [done|]. exists ∅. split; [done|]. split; [done|].
    intros name. rewrite lookup_empty. by intros [].
  - done.
  - exists [(0, 1)], r. split; [|split; [by split; [constructor|]|apply Walks_end]].
    split; [by right|by exists (mk_node [0; 1; -1] svn_node_dir None); split; [|split; [by exists []|..]]|done].
  - exists ∅. split; [by left|]. split; [by intros k v|]. right. split; [done|]. eexists. split; [exact He|]. split; [done|].
    intros name. destruct (decide (name = bstr "a")) as [->|Hne].
    + rewrite lookup_singleton_eq. exists [(1, 1)], file_rec. split; [done|].
      split; [|split; [exact Hat|split; [|split; [|split; [by vm_compute|]]]]].
      2: { split; [by vm_compute|by repeat constructor]. }
      2: { split; [done|]. repeat constructor; cbn; lia. }
      2: { intros y. unfold sample_tree. rewrite decide_True by done. rewrite decide_False, decide_True by done.
        destruct y as [|? [|]]; cbn; by rewrite ?decide_True. }
      exists ∅. split; [by left|]. split; [by intros k v|]. left. split; [done|]. exists []. split; [by left|]. intros y. unfold sample_tree. by rewrite decide_False, decide_True.
    + rewrite lookup_singleton_ne by done. intros y. unfold sample_tree. rewrite decide_True by done.
      destruct y as [|? [|]]; cbn [app]; [by rewrite decide_False|done..].
  - done.
  - by left.
  - intros y. unfold sample_edit. cbn [tnodes]. destruct y; [apply lookup_singleton_eq|by apply lookup_singleton_ne].
  - done.
  - exists e'. split; [exact E|]. rewrite H. reflexivity.
Defined.
End sample.

(** ** Updating from another path *)

(** C2. [replace_file_or_dir] is called with the source in front of the target and
    takes the target first: to update an entry from the directory [source] to the
    directory [target], the path in [source] is looked up in the target root.  Where
    that is an error, so is the update, whatever is at the path in [target]; with the
    same path in both, nothing is wrong. *)
Theorem switch_uses_source_path `{db : BerkeleyDB} {ctx : Type} `{m : Md5 ctx bytes} {E DB FB : Type} (fuel : nat)
    (hash_order : forall A : Type, gmap bytes A -> list (bytes * A)) (c : context (E := E) (DB := DB) (FB := FB)) dirs dir_baton
    source target s_id name t_id d fs e err :
  svn_fs_id_distance s_id t_id = Ok d -> d <> 0 -> d <> -1 ->
  svn_fs_is_dir fuel (target_root c) (svn_path_add_component_nts (apr_pstrndup source) name) fs = (Err err, fs) ->
  update_entry fuel hash_order c dirs dir_baton (Some source) target (Some s_id) name (Some t_id) (fs, e) = (Err err, (fs, e)) /\
  (forall B (k : unit -> state_m (svn_fs_t * E) B),
     (update_entry fuel hash_order c dirs dir_baton (Some source) target (Some s_id) name (Some t_id) ≫= k) (fs, e) = (Err err, (fs, e))).
Proof.
  intros Hd H0 H1 He.
  assert (update_entry fuel hash_order c dirs dir_baton (Some source) target (Some s_id) name (Some t_id) (fs, e) = (Err err, (fs, e))) as Hu.
  { unfold update_entry. cbn [deref]. rewrite !lift_bind, Hd, lift_bind.
    destruct (Z.eqb_spec d 0); [done|]. destruct (Z.eqb_spec d (-1)); [done|].
    unfold replace_file_or_dir, mbind, state_bind, call_fs. by rewrite He. }
  split; [done|]. intros B k. unfold mbind, state_bind at 1. by rewrite Hu.
Qed.

Lemma is_dir_missing `{db : BerkeleyDB} fuel fs root p r path : root_ok fs root p r -> no_nul path ->
  walks fuel fs p r (components path) (slash_ended path) (Missing false) ->
  svn_fs_is_dir fuel root path fs = (Err SVN_ERR_FS_NOT_FOUND, fs).
Proof.
  intros [Hk (here & Eh & Hh) Hd] Hn Hw. pose proof (opens_ok fuel fs root here p r path false _ Hk Eh Hh Hd Hn Hw) as Ho.
  cbn [opens andb] in Ho. rewrite (not_found_err root) in Ho by (done || by apply not_id_root).
  assert (run_trail (txn_body_node_kind fuel root path) fs = (Err SVN_ERR_FS_NOT_FOUND, fs)) as E
    by (apply run_trail_same; unfold txn_body_node_kind, get_dag, mbind, state_bind; by rewrite Ho).
  unfold svn_fs_is_dir, mbind, state_bind. by rewrite E.
Qed.

Section switch_sample.
#[local] Existing Instance mem_db.
#[local] Existing Instance TxStream.keep_all.

(** The directory of the sample, from the empty one at a path of another name. *)
Lemma switch_uses_source_path_witness :
  let c := mk_context tree_editor empty_root None sample_root true true false true in
  update_entry 500 (λ A (h : gmap bytes A), map_to_list h) c (λ _ _ _, mret tt) [] (Some (bstr "trunk")) [] (Some [0; 0; -1]) (bstr "a")
    (Some [0; 1; -1]) (fs_3, sample_edit) = (Err SVN_ERR_FS_NOT_FOUND, (fs_3, sample_edit)).
Proof.
  intros c. destruct fs_3_ok as (mk & here & Hn & He & _).
  refine (proj1 (switch_uses_source_path 500 _ c _ [] (bstr "trunk") [] [0; 0; -1] (bstr "a") [0; 1; -1] 1 fs_3 sample_edit SVN_ERR_FS_NOT_FOUND _ _ _ _)).
  - by vm_compute.
  - done.
  - done.
  - apply (is_dir_missing 500 fs_3 sample_root [(0, 1)] (set_nr_key 1 mk (new_rec true))).
    + split; [by right|by exists (mk_node [0; 1; -1] svn_node_dir None); split; [|split; [by exists []|apply Hn|..]]|done].
    + by repeat constructor.
    + refine (Walks_missing _ _ _ _ _ (bstr "trunk") [bstr "a"] _ He _). by rewrite lookup_singleton_ne.
Defined.
End switch_sample.
