(* ===== verification/Checkout.v ===== *)
(** * Checking a tree out ([libsvn_ra_local/checkout.c])

    [svn_ra_local__checkout] walks a revision and drives an editor that adds every
    directory and every file, with their texts and their properties, to which three
    are added that say when the node was committed and by whom. *)

From S2P Require Import Prelude Types KeyGen Libc Time Skel Proplist Id Stream Db NodeKeys Fs RevTable TxnTable NodesTable Strings.
From S2P Require Import TextDelta Vdelta Svndiff TxStream Reps RepOps SvnString Path Sorts Dag NodeRec DagOk.
From S2P Require Import Deltify Commit Tree TreeOk RevHunt Editor ReposDelta ReposDeltaOk.

Definition SVN_PROP_ENTRY_COMMITTED_REV : bytes := bstr "svn:entry:committed-rev".
Definition SVN_PROP_ENTRY_COMMITTED_DATE : bytes := bstr "svn:entry:committed-date".
Definition SVN_PROP_ENTRY_LAST_AUTHOR : bytes := bstr "svn:entry:last-author".

Section checkout.
Context `{db : BerkeleyDB} {ctx : Type} `{m : Md5 ctx bytes}.
Context (fuel : nat) (hash_order : forall A : Type, gmap bytes A -> list (bytes * A)).
Context {E DB FB : Type} (editor : svn_delta_edit_fns_t E DB FB).

Abbreviation driver := (state_m (svn_fs_t * E)).

Definition send_file_contents (root : svn_fs_root_t) (path : bytes) (file_baton : FB) : driver unit :=
  contents ← call_fs (
    rep ← svn_fs_file_contents fuel root path;
    fs ← reading (λ fs, fs);
    mret (svn_fs__rep_contents_read_stream fuel fs rep 0));
  handler ← call_ed (apply_textdelta editor file_baton);
  call_ed (λ e, let '(r, _, e) := svn_txdelta_send_stream (ctx := ctx) (dig := bytes) fuel contents handler e in (r, e)).

(** The loop over the properties; [change] is [change_dir_prop] or [change_file_prop]. *)
Fixpoint each_prop (change : bytes -> option bytes -> state_m E unit) (props : list (bytes * bytes)) : driver unit :=
  match props with
  | [] => mret tt
  | (name, value) :: props => call_ed (change name (Some value));; each_prop change props
  end.

Definition set_any_props (root : svn_fs_root_t) (path : bytes) (change : bytes -> option bytes -> state_m E unit) : driver unit :=
  props ← call_fs (svn_fs_node_proplist fuel root path);
  '(committed_rev, committed_date, last_author) ← call_fs (svn_repos_get_committed_info fuel root path);
  let props := <[SVN_PROP_ENTRY_COMMITTED_REV := sprintf_d committed_rev]> props in
  let props := partial_alter (λ _, committed_date) SVN_PROP_ENTRY_COMMITTED_DATE props in
  let props := partial_alter (λ _, last_author) SVN_PROP_ENTRY_LAST_AUTHOR props in
  each_prop change (hash_order _ props).

(** [walk_tree] is an argument of the loop over the entries. *)
Fixpoint each_dirent (walk_tree : bytes -> DB -> bytes -> driver unit) (root : svn_fs_root_t) (dir_path : bytes)
    (dir_baton : DB) (URL : bytes) (recurse : bool) (dirents : list (bytes * option (list Z))) : driver unit :=
  match dirents with
  | [] => mret tt
  | (name, _) :: dirents =>
      let dirent_name := apr_pstrndup name in
      let dirent_path := svn_path_add_component dir_path dirent_name in
      let URL_path := svn_path_add_component URL dirent_name in
      is_dir ← call_fs (svn_fs_is_dir fuel root dirent_path);
      is_file ← call_fs (svn_fs_is_file fuel root dirent_path);
      (if is_dir && recurse then
         new_dir_baton ← call_ed (add_directory editor dirent_name dir_baton None SVN_INVALID_REVNUM);
         set_any_props root dirent_path (change_dir_prop editor new_dir_baton);;
         walk_tree dirent_path new_dir_baton URL_path
       else if (is_file : bool) then
         file_baton ← call_ed (add_file editor dirent_name dir_baton (Some URL_path) SVN_INVALID_REVNUM);
         set_any_props root dirent_path (change_file_prop editor file_baton);;
         send_file_contents root dirent_path file_baton;;
         call_ed (close_file editor file_baton)
       else mret tt);;
      each_dirent walk_tree root dir_path dir_baton URL recurse dirents
  end.

(** [n] bounds the depth of the directories. *)
Fixpoint walk_tree (n : nat) (root : svn_fs_root_t) (recurse : bool) (dir_path : bytes) (dir_baton : DB) (URL : bytes) : driver unit :=
  match n with
  | O => lift Undef
  | S n =>
      dirents ← call_fs (svn_fs_dir_entries fuel root dir_path);
      each_dirent (walk_tree n root recurse) root dir_path dir_baton URL recurse (hash_order _ dirents);;
      call_ed (close_directory editor dir_baton)
  end.

Definition svn_ra_local__checkout (n : nat) (revnum : svn_revnum_t) (recurse : bool) (URL fs_path : bytes) : driver unit :=
  root ← call_fs (svn_fs_revision_root revnum);
  call_ed (set_target_revision editor revnum);;
  root_dir_baton ← call_ed (open_root editor SVN_INVALID_REVNUM);
  set_any_props root fs_path (change_dir_prop editor root_dir_baton);;
  walk_tree n root recurse fs_path root_dir_baton URL;;
  call_ed (close_edit editor).
End checkout.

(** ** Who committed a node *)

Section committed.
Context `{db : BerkeleyDB} {ctx : Type} `{m : Md5 ctx bytes}.
Context (fuel : nat) (fs : svn_fs_t).

(** The node has the number of a revision that is there. *)
Definition committed (t : node_rec) : Prop :=
  nr_rev t <> [] /\ exists rev root ps, atol (apr_pstrndup (nr_rev t)) = Ok rev /\ rev_at fs rev root ps.

Lemma nr_rev_str s t : s ≡ nr_skel t -> (header ← NR_HEADER s; NR_HDR_REV header) = Ok (Atom (nr_rev t)).
Proof. intros Hs. destruct (nr_skel_parts s t Hs) as (d & d' & opts & -> & _). done. Qed.

Lemma created_rev_ok root path q t rev : leads fuel fs root path q t -> nr_rev t <> [] -> atol (apr_pstrndup (nr_rev t)) = Ok rev ->
  svn_fs_node_created_rev fuel root path fs = (Ok rev, fs).
Proof.
  intros H Hne Hrev. destruct (leads_dag fuel fs root path q t H) as (node & E & Hn). apply run_trail_same.
  unfold txn_body_node_created_rev. rewrite (state_bind_step _ _ _ _ _ E). unfold svn_fs__dag_get_revision.
  destruct (get_node_revision_cached fs node q t Hn) as (s & node' & Eg & Hs & _).
  rewrite bind_assoc, (state_bind_step _ _ _ _ _ Eg). cbn beta iota. rewrite (nr_rev_str s t Hs), bind_assoc, lift_bind. cbn [skel_data].
  destruct (Nat.eqb_spec (length (nr_rev t)) 0) as [El|_]; [by destruct (nr_rev t)|].
  unfold key_of. cbn [skel_data]. rewrite Hrev, bind_assoc, lift_bind. done.
Qed.

Lemma revision_prop_ok rev root ps name : rev_at fs rev root ps -> svn_fs_revision_prop rev name fs = (Ok (ps !! name), fs).
Proof. intros H. apply run_trail_same. by destruct (rev_prop_ok fs rev root ps name H) as [-> _]. Qed.

(** When and by whom the node was committed: the number of the revision, and two of
    its properties. *)
Definition committed_by (t : node_rec) (rev : Z) (date author : option bytes) : Prop :=
  atol (apr_pstrndup (nr_rev t)) = Ok rev /\
  exists root ps, rev_at fs rev root ps /\ date = ps !! SVN_PROP_REVISION_DATE /\ author = ps !! SVN_PROP_REVISION_AUTHOR.

Lemma committed_info_ok root path q t : leads fuel fs root path q t -> committed t ->
  exists rev date author, svn_repos_get_committed_info fuel root path fs = (Ok (rev, date, author), fs) /\ committed_by t rev date author.
Proof.
  intros H (Hne & rev & r & ps & Ha & Hr). exists rev, (ps !! SVN_PROP_REVISION_DATE), (ps !! SVN_PROP_REVISION_AUTHOR).
  split; [|split; [done|]; by exists r, ps]. unfold svn_repos_get_committed_info. rewrite (state_bind_step _ _ _ _ _ (created_rev_ok root path q t rev H Hne Ha)).
  rewrite !(state_bind_step _ _ _ _ _ (revision_prop_ok rev r ps _ Hr)). done.
Qed.
End committed.

(** ** Nodes but for the three properties *)

Definition strip (ps : gmap bytes bytes) : gmap bytes bytes :=
  delete SVN_PROP_ENTRY_COMMITTED_REV (delete SVN_PROP_ENTRY_COMMITTED_DATE (delete SVN_PROP_ENTRY_LAST_AUTHOR ps)).

Definition strip_node (n : tnode) : tnode := set_props n (strip (props_of n)).

Lemma strip_entry_props ps rev date author :
  strip (partial_alter (λ _, author) SVN_PROP_ENTRY_LAST_AUTHOR (partial_alter (λ _, date) SVN_PROP_ENTRY_COMMITTED_DATE
    (<[SVN_PROP_ENTRY_COMMITTED_REV := rev]> ps))) = strip ps.
Proof.
  unfold strip. apply map_eq. intros k.
  destruct (decide (k = SVN_PROP_ENTRY_COMMITTED_REV)) as [->|H1]; [by rewrite !lookup_delete_eq|rewrite !(lookup_delete_ne _ SVN_PROP_ENTRY_COMMITTED_REV) by done].
  destruct (decide (k = SVN_PROP_ENTRY_COMMITTED_DATE)) as [->|H2]; [by rewrite !lookup_delete_eq|rewrite !(lookup_delete_ne _ SVN_PROP_ENTRY_COMMITTED_DATE) by done].
  destruct (decide (k = SVN_PROP_ENTRY_LAST_AUTHOR)) as [->|H3]; [by rewrite !lookup_delete_eq|].
  rewrite !lookup_delete_ne by done. rewrite !lookup_partial_alter_ne by done. by apply lookup_insert_ne.
Qed.

(** The properties that are added say this. *)
Record entry_props (ps : gmap bytes bytes) (rev : Z) (date author : option bytes) : Prop := {
  ep_rev : ps !! SVN_PROP_ENTRY_COMMITTED_REV = Some (sprintf_d rev);
  ep_date : ps !! SVN_PROP_ENTRY_COMMITTED_DATE = date;
  ep_author : ps !! SVN_PROP_ENTRY_LAST_AUTHOR = author;
}.

Lemma entry_props_added ps rev date author : entry_props
  (partial_alter (λ _, author) SVN_PROP_ENTRY_LAST_AUTHOR (partial_alter (λ _, date) SVN_PROP_ENTRY_COMMITTED_DATE
    (<[SVN_PROP_ENTRY_COMMITTED_REV := sprintf_d rev]> ps))) rev date author.
Proof.
  split.
  - rewrite !lookup_partial_alter_ne by done. apply lookup_insert_eq.
  - rewrite lookup_partial_alter_ne by done. by rewrite lookup_partial_alter_eq.
  - by rewrite lookup_partial_alter_eq.
Qed.

(** ** The checkout makes the tree *)

(** A node with the properties [ps] is sent with the properties [ps']. *)
Definition sent `{db : BerkeleyDB} (fs : svn_fs_t) (t : node_rec) (ps ps' : gmap bytes bytes) : Prop :=
  strip ps' = strip ps /\ exists rev date author, committed_by fs t rev date author /\ entry_props ps' rev date author.

Section checkout_ok.
Context `{db : BerkeleyDB} {ctx : Type} `{m : Md5 ctx bytes}.
Context (fuel : nat) (hash_order : forall A : Type, gmap bytes A -> list (bytes * A)).
Context (hash_order_ok : forall A (t : gmap bytes A), hash_order A t ≡ₚ map_to_list t).
Context (fuel_pos : (0 < fuel)%nat).
Context (fs : svn_fs_t) (root : svn_fs_root_t) (tree : nid -> tpath -> option tnode).

Lemma each_prop_ok (x : tpath) (l : list (bytes * bytes)) n e : NoDup l.*1 -> tnodes e !! x = Some n ->
  each_prop (te_change_prop x) l (fs, e) = (Ok tt, (fs, put_node x (set_props n (list_to_map l ∪ props_of n)) e)).
Proof.
  revert n e. induction l as [|[k v] l IH]; intros n e Hnd Hx; cbn [each_prop].
  - rewrite list_to_map_nil, map_empty_union. by rewrite set_props_id, put_node_id.
  - apply list.NoDup_cons in Hnd as [Hk Hnd]. rewrite (call_ed_bind _ _ _ _ _ _ (te_change_prop_ok x n e k (Some v) Hx)).
    rewrite (IH (set_props n (change_prop (props_of n) k (Some v)))) by (done || apply put_node_at).
    rewrite put_node_twice, set_props_twice, props_of_set. do 4 f_equal. rewrite list_to_map_cons.
    unfold change_prop. change (partial_alter (λ _, Some v) k (props_of n)) with (<[k := v]> (props_of n)).
    rewrite <- insert_union_r by (by apply not_elem_of_list_to_map). by rewrite insert_union_l.
Qed.

(** The node [x] was just added, without a property. *)
Lemma set_any_props_ok (change : bytes -> option bytes -> state_m tree_edit unit) (x : tpath) path q t ps n e :
  change = te_change_prop x -> leads fuel fs root path q t -> committed fs t -> props_at fuel fs t ps ->
  tnodes e !! x = Some n -> props_of n = ∅ ->
  exists ps', set_any_props fuel hash_order root path change (fs, e) = (Ok tt, (fs, put_node x (set_props n ps') e)) /\
    sent fs t ps ps'.
Proof.
  intros -> Hl Hc Hps Hx Hn. destruct (committed_info_ok fuel fs root path q t Hl Hc) as (rev & date & author & Ei & Hby).
  unfold set_any_props. rewrite (call_fs_bind _ _ _ _ _ (node_proplist_ok fuel fs root path q t ps Hl Hps)).
  rewrite (call_fs_bind _ _ _ _ _ Ei). cbn zeta. set (ps' := partial_alter _ SVN_PROP_ENTRY_LAST_AUTHOR _). exists ps'. split.
  - rewrite (each_prop_ok x _ n e) by (done || (rewrite hash_order_ok; apply NoDup_fst_map_to_list)).
    rewrite Hn, map_union_empty. do 5 f_equal. apply map_eq. intros k. apply option_eq. intros v.
    rewrite <- elem_of_list_to_map by (rewrite hash_order_ok; apply NoDup_fst_map_to_list). by rewrite hash_order_ok, elem_of_map_to_list.
  - split; [apply strip_entry_props|]. exists rev, date, author. split; [done|apply entry_props_added].
Qed.

Lemma send_contents_ok (x : tpath) path q t ps text e : leads fuel fs root path q t -> nr_kind t = svn_node_file -> text_at fuel fs t text ->
  tnodes e !! x = Some (TFile ps []) -> applying e = None ->
  send_file_contents fuel tree_editor root path x (fs, e) = (Ok tt, (fs, put_node x (TFile ps text) e)).
Proof.
  intros Hl Hf Ht Hx Ha. destruct (file_contents_ok fuel fs root path q t text Hl Hf Ht) as (rep & Er & Hd & Hlen & _).
  unfold send_file_contents. cbn [apply_textdelta tree_editor].
  rewrite (call_fs_bind _ _ _ _ (svn_fs__rep_contents_read_stream fuel fs rep 0)) by (by rewrite (state_bind_step _ _ _ _ _ Er)).
  assert (te_apply_textdelta x e = (Ok te_handler, mk_te (tnodes e) (Some (x, svn_txdelta_apply (mk_stream [] mem_reader) (mk_stream [] mem_writer))))) as Eh
    by (unfold te_apply_textdelta; by rewrite Hx).
  rewrite (call_ed_bind _ _ _ _ _ _ Eh). apply call_ed_done.
  pose proof (send_txstream_edits fuel svn_stream_empty (svn_fs__rep_contents_read_stream fuel fs rep 0) [] text x ps (tnodes e)
    empty_delivers Hd ltac:(done) ltac:(destruct Hlen as [?| ->]; [done|cbn; lia]) Hx) as E.
  unfold send_txstream in E. unfold svn_txdelta_send_stream. rewrite E. unfold put_node, with_tnodes. by rewrite Ha.
Qed.

(** The nodes of the tree below [p], and the names that lead to them. *)
Inductive reaches (p : nid) (r : node_rec) : tpath -> nid -> node_rec -> Prop :=
  | reaches_here : reaches p r [] p r
  | reaches_entry y q t es name q' t' : reaches p r y q t -> entries_at fuel fs t es -> es !! name = Some (id_text (flat q')) ->
      node_at fs q' t' -> reaches p r (name :: y) q' t'.

Lemma reaches_first p r es name q' t' y q2 t2 : entries_at fuel fs r es -> es !! name = Some (id_text (flat q')) -> node_at fs q' t' ->
  reaches q' t' y q2 t2 -> reaches p r (y ++ [name]) q2 t2.
Proof.
  intros He Hn Ht. induction 1 as [|y q1 t1 es1 name1 q2 t2 ? IH ? ? ?].
  - eapply reaches_entry; [apply reaches_here|done..].
  - cbn [app]. by eapply reaches_entry.
Qed.

Lemma dir_is_unique s es es' : dir_is s es -> dir_is s es' -> es = es'.
Proof.
  intros (d & l & xs & -> & H & _ & ->)%dir_is_iff (d' & l' & xs' & [= <- <-] & H' & _ & ->)%dir_is_iff. f_equal. clear -H H'.
  revert xs' H'. induction H as [|e [a b] l xs [d' ->] _ IH]; intros xs' H'; inversion H' as [|? [a' b'] ? ? [? E] Hl]; subst; [done|].
  injection E as _ <- <-. f_equal. by apply IH.
Qed.

Lemma entries_at_unique r es es' : entries_at fuel fs r es -> entries_at fuel fs r es' -> es = es'.
Proof.
  intros [_ [[Hk ->]|(k & x & s & Hk & Hne & Hr & Hs & Hd)]] [_ [[Hk' ->]|(k' & x' & s' & Hk' & Hne' & Hr' & Hs' & Hd')]];
    rewrite Hk in Hk'; [done|by injection Hk' as <-|by injection Hk' as ->|].
  injection Hk' as <-. rewrite (readable_unique _ _ _ _ _ Hr Hr') in Hs. rewrite Hs in Hs'. injection Hs' as <-. by apply (dir_is_unique s).
Qed.

Lemma same_id q q' : stored_nid q -> stored_nid q' -> id_text (flat q) = id_text (flat q') -> q = q'.
Proof.
  intros H H' E. pose proof (key_nid_text q (sn_ne q H) (stored_comps q H)) as K. rewrite E in K.
  rewrite key_nid_text in K by (apply H' || by apply stored_comps). by injection K.
Qed.

Lemma reaches_down p r es name q' t' y q2 t2 : entries_at fuel fs r es -> es !! name = Some (id_text (flat q')) -> node_at fs q' t' ->
  reaches p r (y ++ [name]) q2 t2 -> reaches q' t' y q2 t2.
Proof.
  intros He Hn Ht. remember (y ++ [name]) as z eqn:Ez. intros H. revert y Ez.
  induction H as [|z q1 t1 es1 name1 q2 t2 H IH He1 Hn1 Ht2]; intros y Ez; [by destruct y|].
  destruct y as [|n y]; injection Ez as -> Ez.
  - subst z. inversion H; subst. rewrite <- (entries_at_unique _ _ _ He He1) in Hn1. rewrite Hn in Hn1. injection Hn1 as E.
    apply same_id in E as ->; [|apply Ht|apply Ht2]. rewrite (node_at_unique fs _ _ _ Ht Ht2). apply reaches_here.
  - eapply reaches_entry; [by apply IH|done..].
Qed.

Lemma reaches_last p r y q' t' : reaches p r y q' t' -> y = [] \/
  exists z name es, y = z ++ [name] /\ entries_at fuel fs r es /\ is_Some (es !! name).
Proof.
  induction 1 as [|y q t es name q' t' H [->|(z & name' & es' & -> & IH)] He Hn _]; [by left|right..].
  - inversion H; subst. exists [], name, es. split; [done|]. split; [done|]. by rewrite Hn.
  - by exists (name :: z), name', es'.
Qed.

Lemma file_reaches p r y q' t' : nr_kind r = svn_node_file -> reaches p r y q' t' -> y = [].
Proof. intros Hk [?|(z & name & es & _ & [Hd _] & _)]%reaches_last; [done|congruence]. Qed.

Lemma absent_reaches p r es y name q' t' : entries_at fuel fs r es -> es !! name = None -> ~ reaches p r (y ++ [name]) q' t'.
Proof.
  intros He Hn [?|(z & name' & es' & [_ [= <-]]%app_inj_tail & He' & [id Hid])]%reaches_last; [by destruct y|].
  rewrite (entries_at_unique _ _ _ He He') in Hn. congruence.
Qed.

Definition all_committed (q : nid) (t : node_rec) : Prop := forall y q' t', reaches q t y q' t' -> committed fs t'.

Lemma all_committed_entry q t es name q' t' : all_committed q t -> entries_at fuel fs t es -> es !! name = Some (id_text (flat q')) ->
  node_at fs q' t' -> all_committed q' t'.
Proof. intros H He Hn Ht y p r Hp. apply (H (y ++ [name]) p r). by apply (reaches_first q t es name q' t' y p r). Qed.

(** What was made at [y] below the directory [q] of the tree: the node of the tree,
    but for its properties, which are those that are sent of the node there. *)
Definition made (q : nid) (t : node_rec) (y : tpath) (o : option tnode) : Prop :=
  strip_node <$> o = strip_node <$> tree q y /\
  forall q' t', reaches q t y q' t' -> exists n rev date author,
    o = Some n /\ committed_by fs t' rev date author /\ entry_props (props_of n) rev date author.

Lemma strip_set n ps : strip_node (set_props n ps) = set_props n (strip ps).
Proof. by destruct n. Qed.

Lemma made_here q t ps ps' n : props_of n = ps -> sent fs t ps ps' -> tree q [] = Some n -> made q t [] (Some (set_props n ps')).
Proof.
  intros <- [Hs (rev & date & author & Hb & He)] Hq. split.
  - rewrite Hq. cbn [fmap option_fmap option_map]. rewrite strip_set, Hs. done.
  - intros q' t' H. inversion H; subst. exists (set_props n ps'), rev, date, author. by rewrite props_of_set.
Qed.

Lemma made_none q t y : tree q y = None -> (forall q' t', ~ reaches q t y q' t') -> made q t y None.
Proof. intros Hq H. split; [by rewrite Hq|]. intros q' t' Hr. by destruct (H q' t' Hr). Qed.

Lemma made_entry q t es name q' t' y o : entries_at fuel fs t es -> es !! name = Some (id_text (flat q')) -> node_at fs q' t' ->
  tree q (y ++ [name]) = tree q' y -> made q' t' y o -> made q t (y ++ [name]) o.
Proof.
  intros He Hn Ht Hg [H1 H2]. split; [by rewrite Hg|]. intros q2 t2 H. apply (H2 q2 t2). by apply (reaches_down q t es name q' t' y q2 t2).
Qed.

(** A directory that was just added is filled with the entries of the tree. *)
Definition fills (n : nat) : Prop := forall P path URL q t d ps e,
  leads fuel fs root path q t -> is_tree fuel fs tree d q t -> (d <= n)%nat -> nr_kind t = svn_node_dir -> all_committed q t ->
  tnodes e !! P = Some (TDir ps) -> (forall y, y <> [] -> tnodes e !! (y ++ P) = None) -> applying e = None ->
  exists e', walk_tree fuel hash_order tree_editor n root true path P URL (fs, e) = (Ok tt, (fs, e')) /\ applying e' = None /\
    tnodes e' !! P = Some (TDir ps) /\ (forall y, y <> [] -> made q t y (tnodes e' !! (y ++ P))) /\
    (forall x, ~ under P x -> tnodes e' !! x = tnodes e !! x).

Lemma add_component_nts path name : no_nul path -> no_nul name ->
  svn_path_add_component path (apr_pstrndup name) = svn_path_add_component_nts (apr_pstrndup path) name.
Proof.
  intros Hp Hn. rewrite !apr_pstrndup_id by done. unfold svn_path_add_component, svn_path_add_component_nts.
  by rewrite strlen_ok, firstn_all by done.
Qed.

Section dirents.
Context (n : nat) (IH : fills n) (P : tpath) (path URL : bytes) (q : nid) (t : node_rec) (es : gmap bytes bytes) (d : nat).
Context (Hlead : leads fuel fs root path q t) (Hes : entries_at fuel fs t es) (Hd : (d <= n)%nat) (Hc : all_committed q t).
Context (children : forall name, child_tree fs tree (is_tree fuel fs tree d) (tree q) name (es !! name)).

Abbreviation walk := (walk_tree fuel hash_order tree_editor n root true).

Lemma dirent_turn (name id : bytes) o ps e :
  es !! name = Some id -> tnodes e !! P = Some (TDir ps) -> (forall y, tnodes e !! (y ++ name :: P) = None) -> applying e = None ->
  exists e', (forall l, each_dirent fuel hash_order tree_editor walk root path P URL true ((name, o) :: l) (fs, e) =
      each_dirent fuel hash_order tree_editor walk root path P URL true l (fs, e')) /\ applying e' = None /\
    (forall y, made q t (y ++ [name]) (tnodes e' !! (y ++ name :: P))) /\
    (forall x, ~ under (name :: P) x -> tnodes e' !! x = tnodes e !! x).
Proof.
  intros Hid HP Hnone Ha. pose proof (children name) as Hch. rewrite Hid in Hch.
  destruct Hch as (q' & t' & -> & Ht & Hat & Hname & _ & _ & Hg).
  pose proof (leads_entry fuel fs _ _ _ _ _ _ _ _ Hlead Hes Hname Hid Hat) as Hlead'.
  pose proof (all_committed_entry q t es name q' t' Hc Hes Hid Hat) as Hc'.
  assert (no_nul path) as Hnul by (by destruct Hlead as (? & ? & _ & [? _] & _)).
  rewrite <- add_component_nts in Hlead' by (done || apply Hname).
  set (path' := svn_path_add_component path (apr_pstrndup name)) in *.
  assert (committed fs t') as Hct by exact (Hc' [] q' t' (reaches_here q' t')).
  destruct (tree_kind fuel fs tree d q' t' Ht) as [Hk|Hk]; destruct d as [|d']; try done;
    destruct Ht as (pt & Hpt & Hnt & [(Hkf & text & Htext & Htree)|(Hkd & es' & Hes' & Htop & Hch')]); try congruence.
  - destruct (te_add_becomes (TDir ∅) name P e ps Ha Hnone HP) as (e1 & E1 & B1).
    pose proof (bc_tree _ _ _ _ B1 [] : tnodes e1 !! (name :: P) = Some (TDir ∅)) as Hx1.
    destruct (set_any_props_ok (te_change_prop (name :: P)) (name :: P) path' q' t' pt (TDir ∅) e1 eq_refl Hlead' Hct Hpt Hx1 eq_refl) as (ps' & E2 & Hps').
    set (e2 := put_node _ _ e1) in *.
    assert (forall x, x <> name :: P -> tnodes e2 !! x = tnodes e1 !! x) as He2 by (intros x Hx; by apply lookup_insert_ne).
    destruct (IH (name :: P) path' (svn_path_add_component URL (apr_pstrndup name)) q' t' (S d') ps' e2 Hlead') as (e3 & E3 & Ha3 & Hx3 & Hl3 & Hr3); try done.
    { exists pt. split; [done|]. split; [done|]. right. split; [done|]. by exists es'. }
    { apply put_node_at. }
    { intros y Hy. rewrite He2 by (intros E; by apply app_self_nil in E). rewrite (bc_tree _ _ _ _ B1). by destruct y. }
    { apply B1. }
    exists e3. split; [|split; [done|split]].
    + intros l. cbn [each_dirent]. cbn zeta. fold path'. rewrite (call_fs_bind _ _ _ _ _ (is_dir_ok fuel fs _ _ _ _ Hlead')).
      rewrite (call_fs_bind _ _ _ _ _ (is_file_ok fuel fs _ _ _ _ Hlead')), Hk, bool_decide_true by done. cbn [andb].
      rewrite (apr_pstrndup_id name) by apply Hname. rewrite (apr_pstrndup_id name) in E3 by apply Hname.
      cbn [add_directory change_dir_prop tree_editor te_add_from].
      rewrite bind_assoc, (call_ed_bind _ _ _ _ _ _ E1), bind_assoc, (state_bind_step _ _ _ _ _ E2), (state_bind_step _ _ _ _ _ E3). done.
    + intros y. apply (made_entry q t es name q' t'); [done..|apply Hg|]. destruct (decide (y = [])) as [->|Hy]; [|by apply Hl3].
      cbn [app]. rewrite Hx3. by apply (made_here q' t' pt ps' (TDir pt)).
    + intros x Hx. rewrite Hr3 by done. rewrite He2 by (intros ->; apply Hx; by exists []). by apply (bc_rest _ _ _ _ B1).
  - destruct (te_add_becomes (TFile ∅ []) name P e ps Ha Hnone HP) as (e1 & E1 & B1).
    pose proof (bc_tree _ _ _ _ B1 [] : tnodes e1 !! (name :: P) = Some (TFile ∅ [])) as Hx1.
    destruct (set_any_props_ok (te_change_prop (name :: P)) (name :: P) path' q' t' pt (TFile ∅ []) e1 eq_refl Hlead' Hct Hpt Hx1 eq_refl) as (ps' & E2 & Hps').
    set (e2 := put_node _ _ e1) in *.
    pose proof (send_contents_ok (name :: P) path' q' t' ps' text e2 Hlead' Hk Htext (put_node_at _ _ _) (bc_applying _ _ _ _ B1)) as E3.
    set (e3 := put_node _ _ e2) in *.
    assert (forall x, x <> name :: P -> tnodes e3 !! x = tnodes e1 !! x) as He3
      by (intros x Hx; unfold e3, e2, put_node, with_tnodes; cbn; by rewrite !lookup_insert_ne by done).
    exists e3. split; [|split; [apply B1|split]].
    + intros l. cbn [each_dirent]. cbn zeta. fold path'. rewrite (call_fs_bind _ _ _ _ _ (is_dir_ok fuel fs _ _ _ _ Hlead')).
      rewrite (call_fs_bind _ _ _ _ _ (is_file_ok fuel fs _ _ _ _ Hlead')), Hk. cbn [andb].
      rewrite bool_decide_false, bool_decide_true by done. cbn [andb]. rewrite (apr_pstrndup_id name) by apply Hname.
      cbn [add_file change_file_prop close_file tree_editor te_add_from].
      assert (te_add_from (TFile ∅ []) name P (Some (svn_path_add_component URL name)) SVN_INVALID_REVNUM e = (Ok (name :: P), e1)) as E1' by exact E1.
      rewrite bind_assoc, (call_ed_bind _ _ _ _ _ _ E1'), bind_assoc, (state_bind_step _ _ _ _ _ E2), bind_assoc, (state_bind_step _ _ _ _ _ E3). done.
    + intros y. apply (made_entry q t es name q' t'); [done..|apply Hg|]. destruct y as [|z y]; cbn [app].
      * unfold e3. rewrite put_node_at. apply (made_here q' t' pt ps' (TFile pt text)); [done|done|apply Htree].
      * assert (made q' t' (z :: y) None) as Hm
          by (apply made_none; [by rewrite Htree|]; intros q2 t2 H2; by apply (file_reaches q' t') in H2).
        cut (tnodes e3 !! (z :: y ++ name :: P) = None); [by intros ->|]. rewrite He3 by (intros E; change (z :: y ++ name :: P) with ((z :: y) ++ name :: P) in E; by apply app_self_nil in E).
        exact (bc_tree _ _ _ _ B1 (z :: y)).
    + intros x Hx. rewrite He3 by (intros ->; apply Hx; by exists []). by apply (bc_rest _ _ _ _ B1).
Qed.

Lemma dirents_loop (l : list (bytes * option (list Z))) ps : NoDup l.*1 -> (forall k : bytes, k ∈ l.*1 -> is_Some (es !! k)) ->
  forall e, tnodes e !! P = Some (TDir ps) -> (forall k, k ∈ l.*1 -> forall y, tnodes e !! (y ++ k :: P) = None) -> applying e = None ->
  exists e', each_dirent fuel hash_order tree_editor walk root path P URL true l (fs, e) = (Ok tt, (fs, e')) /\ applying e' = None /\
    (forall k, k ∈ l.*1 -> forall y, made q t (y ++ [k]) (tnodes e' !! (y ++ k :: P))) /\
    (forall x, (forall k, k ∈ l.*1 -> ~ under (k :: P) x) -> tnodes e' !! x = tnodes e !! x).
Proof.
  induction l as [|[k o] l IHl]; intros Hnd Hl e HP Hn Ha; cbn [fmap list_fmap fst] in *.
  - exists e. split; [done|]. split; [done|]. split; [|done]. intros k Hk. by apply not_elem_of_nil in Hk.
  - apply list.NoDup_cons in Hnd as [Hk Hnd]. destruct (Hl k) as [id Eid]; [by left|].
    destruct (dirent_turn k id o ps e Eid HP) as (e1 & E1 & Ha1 & Ht1 & Hr1); [apply Hn; by left|done|].
    assert (forall k', k' ∈ l.*1 -> k' <> k) as Hne by (by intros k' Hk' ->).
    destruct (IHl Hnd) with (e := e1) as (e' & E & Ha' & Ht & Hr).
    { intros k' Hk'. apply Hl. by right. }
    { rewrite Hr1 by apply not_above. done. }
    { intros k' Hk' y. rewrite Hr1; [apply Hn; by right|]. intros H%under_other. by apply (Hne k'). }
    { done. }
    exists e'. split; [by rewrite E1|]. split; [done|]. split.
    + intros k' [->|Hk']%list.elem_of_cons y; [|by apply Ht]. rewrite Hr; [apply Ht1|].
      intros k' Hk' H%under_other. by apply (Hne k').
    + intros x Hx. rewrite Hr by (intros k' Hk'; apply Hx; by right). apply Hr1. apply Hx. by left.
Qed.
End dirents.

Lemma walk_tree_fills n : fills n.
Proof.
  induction n as [|n IH]; intros P path URL q t d ps e Hl Ht Hd Hdir Hc HP Hnone Ha; destruct d as [|d]; try done; [lia|].
  destruct Ht as (pt & _ & _ & [[Hf _]|(_ & es & Hes & _ & Hch)]); [congruence|].
  cbn [walk_tree]. rewrite (call_fs_bind _ _ _ _ _ (dir_entries_ok fuel fs _ _ _ _ _ Hl Hes)).
  set (l := hash_order _ (svn_fs_parse_id <$> es)).
  assert (forall k, k ∈ l.*1 <-> is_Some (es !! k)) as Hlk.
  { intros k. unfold l. rewrite list_elem_of_fmap. split.
    - intros ([k' o] & -> & H). rewrite hash_order_ok, elem_of_map_to_list, lookup_fmap in H. cbn. destruct (es !! k') as [id|]; [by exists id|done].
    - intros [id E]. exists (k, svn_fs_parse_id id). split; [done|]. by rewrite hash_order_ok, elem_of_map_to_list, lookup_fmap, E. }
  assert (NoDup l.*1) as Hnd by (unfold l; rewrite hash_order_ok; apply NoDup_fst_map_to_list).
  destruct (dirents_loop n IH P path URL q t es d Hl Hes ltac:(lia) Hc Hch l ps Hnd (fun k => proj1 (Hlk k)) e HP) as (e' & E & Ha' & Ht' & Hr').
  { intros k _ y. change (k :: P) with ([k] ++ P). rewrite app_assoc. apply Hnone. by destruct y. }
  { done. }
  rewrite (state_bind_step _ _ _ _ _ E). exists e'. split; [done|]. split; [done|]. split; [|split].
  - rewrite Hr'; [done|]. intros k _. apply not_above.
  - intros y Hy. destruct y as [|k y _] using rev_ind; [done|]. rewrite <- app_assoc. cbn [app].
    destruct (es !! k) as [id|] eqn:Ek; [apply Ht', Hlk; by rewrite Ek|].
    rewrite Hr' by (intros k' Hk' H%under_other; apply Hlk in Hk' as [v Hv]; congruence).
    pose proof (Hch k) as Hck. rewrite Ek in Hck. change (k :: P) with ([k] ++ P). rewrite app_assoc, Hnone by by destruct y.
    apply made_none; [apply Hck|]. intros q' t'. by apply (absent_reaches q t es).
  - intros x Hx. apply Hr'. intros k _ [y ->]. apply Hx. exists (y ++ [k]). by rewrite <- app_assoc.
Qed.
End checkout_ok.

(** C4. [svn_ra_local__checkout], recursively and over an editor that starts from an
    empty directory, comes to an end without an error and makes the tree of the
    directory in the revision, whatever the order of the hash tables is: every
    directory and file, with its text and with its properties, to which three are
    added: the number of the revision in which the node was committed, in decimal, and
    the date and the author that are properties of that revision, each of them left
    out when the revision does not have it. *)
Theorem checkout_makes_tree `{db : BerkeleyDB} {ctx : Type} `{m : Md5 ctx bytes} (fuel n : nat)
    (hash_order : forall A : Type, gmap bytes A -> list (bytes * A)) (fs : svn_fs_t) (tree : nid -> tpath -> option tnode)
    root revnum URL path q t (e : tree_edit) :
  (forall A (h : gmap bytes A), hash_order A h ≡ₚ map_to_list h) -> (0 < fuel)%nat ->
  svn_fs_revision_root revnum fs = (Ok root, fs) -> leads fuel fs root path q t -> is_tree fuel fs tree n q t ->
  nr_kind t = svn_node_dir -> all_committed fuel fs q t ->
  (forall y, tnodes e !! y = single (TDir ∅) y) -> applying e = None ->
  exists e', svn_ra_local__checkout fuel hash_order tree_editor n revnum true URL path (fs, e) = (Ok tt, (fs, e')) /\
    forall y, made fuel fs tree q t y (tnodes e' !! y).
Proof.
  intros Hord Hf Hroot Hl Ht Hdir Hc He Ha. unfold svn_ra_local__checkout. rewrite (call_fs_bind _ _ _ _ _ Hroot).
  cbn [set_target_revision open_root close_edit change_dir_prop tree_editor].
  pose proof (He []) as H0. cbn [single] in H0.
  assert (te_open true [] e = (Ok [], e)) as Eo by (unfold te_open; by rewrite H0).
  assert (forall B (k : unit -> state_m (svn_fs_t * tree_edit) B), (call_ed (mret tt) ≫= k) (fs, e) = k tt (fs, e)) as Hret by done.
  rewrite Hret, (call_ed_bind _ _ _ _ _ _ Eo).
  assert (committed fs t) as Hct by exact (Hc [] q t (reaches_here fuel fs q t)).
  destruct n as [|n]; [done|]. pose proof Ht as (pt & Hpt & _ & [[Hk _]|(_ & es & _ & Htop & _)]); [congruence|].
  destruct (set_any_props_ok fuel hash_order Hord fs root (te_change_prop []) [] path q t pt (TDir ∅) e eq_refl Hl Hct Hpt H0 eq_refl)
    as (ps' & E1 & Hps'). rewrite (state_bind_step _ _ _ _ _ E1).
  destruct (walk_tree_fills fuel hash_order Hord Hf fs root tree (S n) [] path URL q t (S n) ps' (put_node [] (TDir ps') e)) as (e' & E & _ & Hx & Hlike & _); try done.
  - apply put_node_at.
  - intros y Hy. rewrite app_nil_r. unfold put_node, with_tnodes. cbn. rewrite lookup_insert_ne by done. rewrite He. by destruct y.
  - cbn [set_props] in *. rewrite (state_bind_step _ _ _ _ _ E). exists e'. split; [done|]. intros y.
    destruct (decide (y = [])) as [->|Hy]; [|pose proof (Hlike y Hy) as Hm; by rewrite app_nil_r in Hm].
    rewrite Hx. by eapply (made_here _ _ _ _ _ _ _ (TDir pt)).
Qed.

(** ** A witness *)

(** The sample of [DagOk] as revision 0: a directory with an empty file. *)
Section sample.
#[local] Existing Instance mem_db.
#[local] Existing Instance TxStream.keep_all.

Definition trunk_rec : node_rec := mk_nr svn_node_dir (bstr "0") [] [[]; bstr "0"].

Definition fs_4 : svn_fs_t := with_node (set_revisions [bstr "(revision 3 0.1 ())"] fs_3) [(0, 1)] (nr_skel trunk_rec).

Definition trunk_root : svn_fs_root_t := make_revision_root 0 (mk_node [0; 1; -1] svn_node_dir None).

Lemma fs_4_entries : entries_at 500 fs_4 trunk_rec {[bstr "a" := id_text (flat [(1, 1)])]}.
Proof.
  apply entries_with_node. destruct fs_3_ok as (mk & parent & Hn & He & _). pose proof (nf_at _ _ _ _ Hn) as Hat. clear parent Hn.
  assert (mk = bstr "0") as Emk.
  { destruct Hat as (_ & _ & v & s & Hv & Hp & Hs).
    assert (v = bstr "((dir 0 ) 0  1 0)") as Ev by (vm_compute in Hv; by injection Hv as <-).
    pose proof (nr_kid _ _ Hs 1 mk eq_refl) as Hk. subst v. vm_compute in Hp. injection Hp as <-. vm_compute in Hk. by injection Hk as <-. }
  subst mk. destruct He as [_ He]. split; [done|]. destruct He as [[[=] _]|(key & x & s & [= <-] & Hne & Hr & H)].
  right. exists (bstr "0"), x, s. split; [done|]. split; [done|]. split; [|done].
  apply (readable_same 500 fs_3); [by intros k _|done|done].
Qed.

Lemma trunk_ok : nr_ok trunk_rec.
Proof. split; [by vm_compute|done|]. split; [done|]. split; [by repeat constructor|by vm_compute]. Qed.

Lemma fs_4_nodes q t : node_at fs_4 q t <-> if decide (q = [(0, 1)]) then t = trunk_rec else node_at fs_3 q t.
Proof.
  unfold fs_4. rewrite (with_node_at _ _ _ trunk_rec); [|by apply stored_pair|apply trunk_ok|done].
  destruct (decide (q = [(0, 1)])); [done|]. by apply node_at_tables.
Qed.

Lemma fs_4_revs q t : node_at fs_4 q t -> q = [(0, 1)] /\ t = trunk_rec \/ t = file_rec \/ t = root_rec.
Proof.
  intros Ht%fs_4_nodes. destruct (decide (q = [(0, 1)])) as [->|Hq]; [by left|]. right. destruct fs_3_ok as (_ & _ & _ & _ & _ & _ & Hall).
  apply Hall, fs_2_nodes in Ht; [|done]. destruct (decide (q = [(1, 1)])); [by left|]. rewrite decide_False in Ht by done. right.
  apply (with_node_at empty_fs _ _ root_rec) in Ht; [|by apply stored_pair|apply DagOk.root_ok|done].
  case_decide; [done|by destruct (no_nodes q t)].
Qed.

Lemma fs_4_rev0 : rev_at fs_4 0 [0; 1] ∅.
Proof.
  split; [lia|]. split; [split; [done|split; [done|]]; repeat constructor; unfold id_comp; lia|].
  exists (bstr "(revision 3 0.1 ())"), (default (SList [] []) (svn_fs__parse_skel (bstr "(revision 3 0.1 ())"))).
  split; [done|]. split; [by vm_compute|]. split.
  - eexists _, (SList _ []). split; [by vm_compute|]. exists []. split; [done|]. split; [by eexists _, _|].
    split; [constructor|done].
  - vm_compute. by split_and!.
Qed.

Lemma fs_4_committed q t : node_at fs_4 q t -> committed fs_4 t.
Proof.
  intros [[_ ->]|[-> | ->]]%fs_4_revs; (split; [done|]; exists 0, [0; 1], ∅; split; [by vm_compute|apply fs_4_rev0]).
Qed.

Lemma bare_dir `{BerkeleyDB} fuel fs (tree : nid -> tpath -> option tnode) d q t es : nr_keys t !! 0%nat = Some [] -> nr_kind t = svn_node_dir ->
  entries_at fuel fs t es -> tree q [] = Some (TDir ∅) -> (forall name, child_tree fs tree (is_tree fuel fs tree d) (tree q) name (es !! name)) ->
  is_tree fuel fs tree (S d) q t.
Proof. intros Hp Hk He Hq H1. exists ∅. split; [by left|]. split; [by intros k v|]. right. split; [done|]. by exists es. Qed.

Lemma bare_file `{BerkeleyDB} fuel fs (tree : nid -> tpath -> option tnode) d q t : nr_keys t !! 0%nat = Some [] -> nr_keys t !! 1%nat = Some [] ->
  nr_kind t = svn_node_file -> (forall y, tree q y = single (TFile ∅ []) y) -> is_tree fuel fs tree (S d) q t.
Proof. intros Hp Ht Hk Hq. exists ∅. split; [by left|]. split; [by intros k v|]. left. split; [done|]. exists []. split; [by left|done]. Qed.

Lemma checkout_makes_tree_witness :
  exists e', svn_ra_local__checkout 500 (λ A (h : gmap bytes A), map_to_list h) tree_editor 2 0 true [] [] (fs_4, sample_edit) = (Ok tt, (fs_4, e')) /\
    exists n, tnodes e' !! [bstr "a"] = Some n /\ strip_node n = TFile ∅ [] /\ props_of n !! SVN_PROP_ENTRY_COMMITTED_REV = Some (bstr "0").
Proof.
  assert (node_at fs_4 [(0, 1)] trunk_rec) as H01 by (apply fs_4_nodes; by rewrite decide_True).
  assert (node_at fs_4 [(1, 1)] file_rec) as H11.
  { apply fs_4_nodes. rewrite decide_False by done. destruct fs_3_ok as (_ & _ & _ & _ & _ & Hat & _). exact Hat. }
  destruct (revision_root_ok fs_4 0 [(0, 1)] trunk_rec ∅ fs_4_rev0 H01 eq_refl) as (root & Eroot & Hroot & _).
  destruct (checkout_makes_tree 500 2 (λ A (h : gmap bytes A), map_to_list h) fs_4 sample_tree root 0 [] [] [(0, 1)] trunk_rec sample_edit)
    as (e' & E & H).
  - done.
  - lia.
  - exact Eroot.
  - exists [(0, 1)], trunk_rec. split; [exact Hroot|]. split; [by split; [constructor|]|apply Walks_end].
  - refine (bare_dir 500 fs_4 sample_tree 1 [(0, 1)] trunk_rec _ eq_refl eq_refl fs_4_entries eq_refl _).
    intros name. destruct (decide (name = bstr "a")) as [->|Hne].
    + rewrite lookup_singleton_eq. exists [(1, 1)], file_rec. split; [reflexivity|].
      split; [|split; [exact H11|split; [|split; [|split; [by vm_compute|]]]]].
      2: { split; [by vm_compute|by repeat constructor]. }
      2: { split; [done|]. repeat constructor; cbn; lia. }
      2: { intros y. unfold sample_tree. rewrite decide_True by done. rewrite decide_False, decide_True by done.
        destruct y as [|? [|]]; cbn; by rewrite ?decide_True. }
      refine (bare_file 500 fs_4 sample_tree 0 [(1, 1)] file_rec eq_refl eq_refl eq_refl _).
      intros y. unfold sample_tree. by rewrite decide_False, decide_True.
    + rewrite lookup_singleton_ne by done. intros y. unfold sample_tree. rewrite decide_True by done.
      destruct y as [|? [|]]; cbn [app]; [by rewrite decide_False|done..].
  - done.
  - intros y q t Hq. apply (fs_4_committed q t). by inversion Hq.
  - intros y. unfold sample_edit. cbn [tnodes]. destruct y; [apply lookup_singleton_eq|by apply lookup_singleton_ne].
  - done.
  - exists e'. split; [exact E|]. destruct (H [bstr "a"]) as [H1 H2]. destruct (H2 [(1, 1)] file_rec) as (n & rev & date & author & En & [Hrev _] & [Hp _ _]).
    { eapply (reaches_entry _ _ _ _ [] [(0, 1)] trunk_rec); [apply reaches_here|exact fs_4_entries|apply lookup_singleton_eq|exact H11]. }
    exists n. split; [exact En|]. split; [rewrite En in H1; by injection H1|]. vm_compute in Hrev. injection Hrev as <-. exact Hp.
Defined.
End sample.
